(* ===== verification/_CoqProject ===== *)
-Q . S2P
Prelude.v
Machine.v
Bytes.v
OmxEnums.v
OsalSync.v
OsalQueue.v
OmxTypes.v
OmxState.v
Focus.v
PortFocus.v
OmxMemory.v
Samples.v
Command.v
ResourceManager.v
BasePort.v
BaseComponent.v
OmxCore.v
FrameCheck.v
VdecBuffers.v
AndroidBuffers.v
VdecComponent.v
VdecProcess.v
VencProcess.v
VencComponent.v
DtbImage.v
BootImage.v
Edid.v
EdidSpec.v
EdidTotal.v
AudioTypes.v
AudioVoice.v
AudioRoute.v
AudioRouteInv.v
AudioSelect.v
AudioDevice.v
AudioStreams.v
AudioQuiet.v
AudioPaths.v
AudioHal.v
AudioEffects.v
AudioHalInv.v
AudioHalOps.v
AudioHalCalls.v
AudioHalDev.v
AudioPreproc.v
AudioHalOpen.v
AudioHalRun.v
AudioHalProps.v
AudioFindings.v
AudioCapture.v
AudioCaptureProps.v
CscTile.v
CscLinear.v
CscTiled.v
CscRgb.v
SwConverter.v
