(* ===== verification/Prelude.v ===== *)
(** * Hardware support of Samsung devices: a verification library

    The repository is the hardware support code of Samsung devices: drivers'
    user-space halves, services and build tools.  This library models the parts
    that carry program logic of their own and proves the properties that make
    them correct: the OpenMAX IL components with the video decoder and encoder, the colour
    conversion of the codec's frames, the audio HAL, the EDID library of HDMI,
    and the tools that build boot images.

    ** The program

    _OpenMAX_ ([src/exynos/multimedia/openmax]).  A media client talks to a
    component (a decoder or an encoder) through the OpenMAX IL interface.  The core
    ([core/SEC_OMX_Core.c], [core/SEC_OMX_Component_Register.c]) finds the
    components in shared libraries and loads them.  Every component is built on
    the base component ([component/common/SEC_OMX_Basecomponent.c]), which owns the
    state machine, a queue of commands and the message handler thread that
    executes them, and on two ports ([component/common/SEC_OMX_Baseport.c]), each
    with a queue of the buffers the client has submitted.  The video decoder
    ([component/video/dec/SEC_OMX_Vdec.c]) installs its own functions in the base
    component: the buffers of the ports, and the thread that takes input from one
    port, lets the codec work and gives frames out of the other; the video encoder
    ([component/video/enc/SEC_OMX_Venc.c]) does the same in the other direction, and
    [osal/SEC_OSAL_Android.cpp] lets both use Android's native buffers.  All components
    of the process share the resource manager
    ([component/common/SEC_OMX_Resourcemanager.c]), which hands out the hardware
    codecs by priority.  Underneath is the OSAL ([osal/]): queues, mutexes,
    semaphores, events, threads and memory.

    _Colour conversion_ ([src/exynos/multimedia/utils/csc], and for the camera
    [src/exynos4/hal/libswconverter]): the codec keeps its
    frames in tiles; the functions copy between this format and planes of lines,
    and from RGB to YUV.

    _Audio HAL_ ([src/audio]): output streams, recordings and voice calls are use
    cases; [select_devices] routes each use case to sound devices, whose mixer
    paths are reference counted.  Streams open PCMs or a compressed device when
    they start and close them in standby.  Each function of the framework takes
    the locks of the stream and of the device in a fixed order.

    _EDID_ ([src/exynos4/hal/libhdmi/libsForhdmi]): the description of the
    display, read over a reference counted bus and queried for the modes the
    display supports.

    _Image tools_ ([src/dtbhtool]): packing and unpacking of the boot image and of
    the image of device trees at build time.

    ** The model

    C integers are [Z] within the range of their type, with the wrap-around
    written where it can happen; structures are records with the fields the
    modelled code uses; enumerations are inductive types, or constants where the
    code computes with them.  A pointer is [Null], [Dangling] (freed and not
    cleared) or a [Ptr] to its object; streams and use cases of the audio HAL are
    maps from addresses.  An array access outside the bounds, the use of a NULL or
    freed pointer, a wrong cast, a copy between areas that overlap are faults,
    never defaults.  Code is a function from a state to an outcome: it is [Done],
    it is a [Fault], or it is [Blocked] until a condition holds, with the
    continuation that then runs (a lock, a semaphore, the end of a thread).  What
    a system call answers is decided by an oracle indexed by the number of calls
    made so far, so that every combination of failures is covered.

    What the modelled files only call is an interface, against which the theorems
    are proved:
    - [ComponentOps] (OmxState.v), the functions a component installs in the base
      component, which [VideoDec_ops] (VdecProcess.v) implements; [Codec], the
      decoding itself; [FrameChecker] with the laws [FrameCheckerLaws], the search
      of the end of a frame, which each of the five codecs of FrameCheck.v
      implements; [Libraries], the installed components; [AndroidMedia], gralloc's
      mapper and the sizes of Android's structures; [EncoderBuild], the build options
      of the encoder and its two conversions in assembly; [H264Build], that of the search
      in H.264;
    - [AudioApi] and [AudioHw], the constants of Android and the answers of the
      sound libraries; [Memory], what an output stream looks like when the code
      reads it as an input; [CaptureHw], PCM, resampler and effects on the path of
      the samples;
    - [Sink] with [SinkLaws], the display on the DDC bus.

    ** The files

    Foundations
    - [Prelude.v]: record update, machine integers, arrays indexed by a C
      integer, tactics and hint databases.
    - [Machine.v]: outcomes and their monad, loops, weakest preconditions under
      an invariant ([wp]), partial correctness ([leaves]), and the interleaving
      of threads as a step relation with its invariant theorem.
    - [Bytes.v]: files as lists of bytes, words and page alignment.

    OpenMAX
    - [OmxEnums.v], [OmxTypes.v]: the enumerations, constants and structures.
    - [OsalSync.v]: mutexes, semaphores and events.  A timed wait has the right
      deadline as long as its 32-bit sum does not overflow; a set event is not
      waited for.
    - [OsalQueue.v]: the ring buffer of [SEC_OSAL_Queue.c] with its nodes and
      links.  It refines a bounded first-in first-out list of nine elements, and
      its termination frees every node once.
    - [OmxState.v]: the state of the process (components, buffer headers, lists
      of the resource manager, threads, callbacks made), places in it (a C
      lvalue: how to read it and how to write it), the OSAL calls on places, the
      opening that all entry points share, and the threads of
      [SEC_OSAL_Thread.c].
    - [OmxMemory.v]: memory of the buffers, block and offset ([SEC_OSAL_Memory.c]).
    - [Focus.v], [PortFocus.v]: reading and writing one component, and one port,
      of the state: the rules behind the symbolic execution of the code.
    - [Samples.v]: a concrete environment and component, on which the witnesses
      show that hypotheses can hold.
    - [Command.v]: [SEC_OMX_SendCommand] and what it prepares.  The answer to
      every command, and that a command is queued exactly when it is accepted.
    - [ResourceManager.v]: the pools of decoders and encoders.  The invariant of
      the lists under any interleaving of operations, the answers of
      [SEC_OMX_Get_Resource] with what each does to the pool, the choice of the component to
      preempt.
    - [BasePort.v]: submission of buffers, flush, enable, disable, construction
      and destruction of ports.  A flush returns every queued buffer once and in
      order.
    - [BaseComponent.v]: the state machine ([SEC_OMX_ComponentStateSet], split
      by destination state as its [switch] is), the message handler, the
      parameters, construction and destruction.  Which transitions succeed,
      what they do to the buffers, what a refused one leaves alone, and that
      commands are executed in the order in which they were sent.
    - [OmxCore.v]: the registry of components and the list of loaded ones.
    - [FrameCheck.v]: the ends of the frames of H.264, MPEG-4, H.263, VC-1 and
      VP8 in a stream; each search is equal to a description of the boundary.
    - [VdecBuffers.v]: the buffers of the decoder's ports.  The slots, headers and
      counts agree after any sequence of operations, a released buffer leaves
      nothing behind, and the last buffer wakes the transition that waits for it.
    - [AndroidBuffers.v]: native buffers and the parameters that introduce them; using
      one is [SEC_OMX_UseBuffer] with its address and size.
    - [VdecComponent.v]: parameters, configuration, frame size, construction and
      destruction of the decoder.  Construction leaves a component that the entry
      points accept and the invariant of the buffers; what is set is reported; the
      buffers that are asked for hold a picture.
    - [VdecProcess.v]: the processing thread.  Input is collected until a frame
      is complete, frames are delivered in order, a flush returns every buffer
      including those the thread holds.
    - [VencProcess.v]: the thread of the encoder.  In NV12 the codec gets exactly the
      next picture of the client's buffer, and the client gets exactly what was encoded.
    - [VencComponent.v]: the rest of the encoder.  Its setters and getters implement
      the abstract settings of an encoder; the frame size of the input decides that of
      the output.

    Colour conversion
    - [CscTile.v], [CscLinear.v], [CscTiled.v], [CscRgb.v]: the address of a
      position in the tiled format; each conversion is equal to its pixel by pixel
      definition, without an access outside of the planes, and tiling followed by
      untiling is the identity.
    - [SwConverter.v]: the converter of the camera, whose functions are the same, line
      for line, but for one conversion of its own.

    Audio HAL ([audio_hw.c], [voice.c], [compress_offload.c])
    - [AudioTypes.v], [AudioVoice.v], [AudioRoute.v], [AudioStreams.v],
      [AudioHal.v], [AudioPreproc.v]: the data, the voice session, routing, the
      paths of the streams, the functions of the framework with their locks, the
      effects on a recording.
    - [AudioRouteInv.v], [AudioSelect.v], [AudioDevice.v], [AudioQuiet.v],
      [AudioPaths.v]: the reference counts are the uses; [select_devices] returns and
      keeps them, whatever the memory read through a wrong cast holds; so do the
      paths of the streams.
    - [AudioEffects.v], [AudioHalInv.v], [AudioHalOps.v], [AudioHalCalls.v],
      [AudioHalDev.v], [AudioHalOpen.v], [AudioHalRun.v]: the invariant between the
      calls of the framework, with the locks; any sequence of the calls of [allowed], whose
      comment says what is left out.
    - [AudioHalProps.v], [AudioFindings.v]: the properties, and runs in which the
      code does not do what it means to.
    - [AudioCapture.v], [AudioCaptureProps.v]: the samples of a recording; without
      effects a read gives exactly the next frames of the PCM.

    EDID
    - [Edid.v], [EdidSpec.v], [EdidTotal.v]: the library on addresses, its answers
      on an EDID encoded from its structure, and the termination of the queries.

    Image tools
    - [DtbImage.v], [BootImage.v]: [DtbImage.v] has [load_dtbh_block], [mkdtbimg]
      and [unpackdtbhimg], [BootImage.v] has [mkbootimg] and [unpackbootimg], both
      on files as lists of bytes and with 32-bit sizes that wrap.  Unpacking an
      image gives back what was packed, within the limits the theorems name; [mkbootimg] writes the layout that
      [bootimg.h] documents; three theorems show where the tools leave it.
      [libfdt], [qsort], SHA-1 and the values of a device's [samsung_dtbh.h] are
      parameters.

    ** Bounds and fuel

    Loops over ports and arrays run over the range of the C loop.  The loops
    with another end take their fuel from the state they run on and the theorems
    show that it is enough: the flush loop and the drain of a semaphore from the
    queue, the loops over an EDID block from its 128 bytes (a data block has at
    least one byte, a detailed timing 18), the reading of a recording from the
    frames asked for.  A loop that can run forever in the code is [Diverges],
    which no theorem accepts as a result ([EDID3DFormatSupport] is proved to
    reach it).  The loops of threads are observed for a number of rounds.  The
    recursion of [SEC_OMX_SetParameter] through a tunnel has two levels, the two
    ends of the tunnel; that of [select_devices] two, a playback and the
    recording for voice communication it reroutes; [uc_select_pcm_devices] runs
    at most once per bit of the device mask; [open_mixer] tries as often as
    [RETRY_NUMBER] says.

    ** What is not modelled

    Of OpenMAX, the drivers behind the codecs ([codecs/video]) and the functions
    that feed them are ioctls on a device and stay behind [Codec].  Logging, the UUID of
    a component and the allocation counter of [SEC_OSAL_Memory.c] have no effect on
    the modelled behaviour.  A critical section that does not block inside is one
    step.  The copy of the OpenMAX code in [src/exynos3/s5pc110] is an older
    version of the modelled files.  The decoder is modelled as built with [USE_ANB].
    Of the audio HAL, the latencies and time stamps reported for playback, which come from the kernel's clock, and
    [ril_interface.c], which only loads a library.  Of [unpackbootimg], what follows its
    first write to a closed stream is undefined.  The rest of the repository
    (camera, display, radio and sensor services, mostly C++ around device files,
    sockets and binder calls) has little logic between its I/O and is outside the
    library. *)

From stdpp Require Export base gmap list strings.
From Stdlib Require Export ZArith Lia.

#[global] Set Default Goal Selector "!".
Open Scope Z_scope.

(** ** Functional record update

    [r <| f := v |>] is [r] with field [f] replaced and [r <| f ::= g |>] is [r]
    with [g] applied to field [f].  A record opts in by an instance of
    [RecEta], its eta expansion; the setter of a field is found by abstracting
    the projection in that expansion. *)
Class RecEta (R : Type) := rec_eta : R -> R.
Class Settable {R E : Type} (proj : R -> E) := set_field : (E -> E) -> R -> R.
Arguments set_field {R E} proj {_} _ _.

Ltac build_setter R proj :=
  let inst := constr:(_ : RecEta R) in
  let body := eval red in inst in
  lazymatch eval pattern proj in body with
  | ?upd proj =>
      let u := eval cbv beta in (fun g => upd (fun r => g (proj r))) in
      exact u
  end.

#[export] Hint Extern 1 (@Settable ?R _ ?proj) => build_setter R proj : typeclass_instances.

Declare Scope record_scope.
Delimit Scope record_scope with rec.
Open Scope record_scope.
Notation "r <| f := v |>" := (set_field f (fun _ => v) r)
  (at level 1, left associativity, format "r <| f  :=  v |>") : record_scope.
Notation "r <| f ::= g |>" := (set_field f g r)
  (at level 1, left associativity, format "r <| f  ::=  g |>") : record_scope.

(** ** Machine integers

    A C integer is a [Z] kept in the range of its type; every operation that
    can leave the range goes through the conversion of its type. *)
Definition wrapu (w x : Z) : Z := x mod 2 ^ w.
Definition u8 (x : Z) : Z := wrapu 8 x.
Definition u16 (x : Z) : Z := wrapu 16 x.
Definition u32 (x : Z) : Z := wrapu 32 x.
Definition u64 (x : Z) : Z := wrapu 64 x.

(** Conversion to [int] / [OMX_S32]: two's complement. *)
Definition s32 (x : Z) : Z :=
  let y := u32 x in if y <? 2 ^ 31 then y else y - 2 ^ 32.

Definition is_u32 (x : Z) : Prop := 0 <= x < 2 ^ 32.

Lemma u32_range x : is_u32 (u32 x).
Proof. unfold is_u32, u32, wrapu. apply Z.mod_pos_bound. lia. Qed.

Lemma u32_id x : is_u32 x -> u32 x = x.
Proof. intros. apply Z.mod_small. done. Qed.

Lemma u32_idemp x : u32 (u32 x) = u32 x.
Proof. apply u32_id, u32_range. Qed.

Lemma s32_small x : 0 <= x < 2 ^ 31 -> s32 x = x.
Proof.
  intros. unfold s32. rewrite u32_id by (unfold is_u32; lia).
  rewrite (proj2 (Z.ltb_lt _ _)); lia.
Qed.

Lemma s32_range x : - 2 ^ 31 <= s32 x < 2 ^ 31.
Proof.
  unfold s32. pose proof (u32_range x) as [? ?].
  destruct (Z.ltb_spec (u32 x) (2 ^ 31)); lia.
Qed.

(** ** Automation shared by the components *)
Create HintDb sec.
#[export] Hint Resolve u32_range u32_id s32_range : sec.
Create Rewrite HintDb sec_rw.
#[export] Hint Rewrite u32_idemp : sec_rw.

(** Case analysis on every [match]/[if] scrutinee of the goal. *)
Ltac case_all :=
  repeat (case_match; simplify_eq/=; try done).

(** Turn the boolean comparisons of the context into propositions. *)
Ltac zbool :=
  repeat match goal with
  | H : (_ <? _) = true |- _ => apply Z.ltb_lt in H
  | H : (_ <? _) = false |- _ => apply Z.ltb_ge in H
  | H : (_ <=? _) = true |- _ => apply Z.leb_le in H
  | H : (_ <=? _) = false |- _ => apply Z.leb_gt in H
  | H : (_ =? _) = true |- _ => apply Z.eqb_eq in H
  | H : (_ =? _) = false |- _ => apply Z.eqb_neq in H
  | H : (_ && _)%bool = true |- _ => apply andb_prop in H as [? ?]
  | H : (_ || _)%bool = false |- _ => apply orb_false_elim in H as [? ?]
  | H : negb _ = true |- _ => apply negb_true_iff in H
  | H : negb _ = false |- _ => apply negb_false_iff in H
  | H : bool_decide _ = true |- _ => apply bool_decide_eq_true in H
  | H : bool_decide _ = false |- _ => apply bool_decide_eq_false in H
  end.

(** ** Arrays indexed by a C integer

    [l .[ i ]] is [None] when [i] is outside the array: an access out of
    bounds is undefined in C and is a fault of the model, never a default. *)
Definition zlookup {A} (l : list A) (i : Z) : option A :=
  if 0 <=? i then l !! Z.to_nat i else None.
Definition zinsert {A} (i : Z) (x : A) (l : list A) : list A :=
  if 0 <=? i then <[Z.to_nat i := x]> l else l.
Definition zlength {A} (l : list A) : Z := Z.of_nat (length l).

Lemma zlength_app {A} (l k : list A) : zlength (l ++ k) = zlength l + zlength k.
Proof. unfold zlength. rewrite length_app. lia. Qed.

Lemma zlength_nonneg {A} (l : list A) : 0 <= zlength l.
Proof. unfold zlength. lia. Qed.

Lemma zlookup_of_nat {A} (l : list A) (n : nat) : zlookup l (Z.of_nat n) = l !! n.
Proof. unfold zlookup. rewrite (proj2 (Z.leb_le _ _)) by lia. by rewrite Nat2Z.id. Qed.

Lemma zinsert_of_nat {A} n (x : A) l : zinsert (Z.of_nat n) x l = <[n := x]> l.
Proof. unfold zinsert. rewrite (proj2 (Z.leb_le _ _)) by lia. by rewrite Nat2Z.id. Qed.

Lemma zlookup_Some_range {A} (l : list A) i x :
  zlookup l i = Some x -> 0 <= i < zlength l.
Proof.
  unfold zlookup, zlength. destruct (Z.leb_spec 0 i); [|done].
  intros Hl%lookup_lt_Some. lia.
Qed.

Lemma zlookup_in_range {A} (l : list A) i :
  0 <= i < zlength l -> is_Some (zlookup l i).
Proof.
  unfold zlookup, zlength. intros. rewrite (proj2 (Z.leb_le 0 i)) by lia.
  apply lookup_lt_is_Some. lia.
Qed.

Lemma zlookup_None {A} (l : list A) i :
  i < 0 ∨ zlength l <= i -> zlookup l i = None.
Proof.
  unfold zlookup, zlength. destruct (Z.leb_spec 0 i); [|done].
  intros. apply lookup_ge_None. lia.
Qed.

Lemma zlength_zinsert {A} (l : list A) i x : zlength (zinsert i x l) = zlength l.
Proof.
  unfold zlength, zinsert. destruct (0 <=? i); [|done]. by rewrite length_insert.
Qed.

Lemma length_zinsert {A} (l : list A) i x : length (zinsert i x l) = length l.
Proof.
  unfold zinsert. destruct (0 <=? i); [|done]. by rewrite length_insert.
Qed.

Lemma zlookup_zinsert {A} (l : list A) i j x :
  0 <= i < zlength l ->
  zlookup (zinsert i x l) j = if decide (i = j) then Some x else zlookup l j.
Proof.
  unfold zlookup, zinsert, zlength. intros.
  rewrite (proj2 (Z.leb_le 0 i)) by lia.
  destruct (Z.leb_spec 0 j); case_decide; try (subst; lia || done).
  - subst. rewrite list_lookup_insert_eq; [done|lia].
  - rewrite list_lookup_insert_ne; [done|lia].
Qed.

Lemma zlookup_zinsert_ne {A} (l : list A) i j x :
  j <> i -> zlookup (zinsert i x l) j = zlookup l j.
Proof.
  intros Hne. unfold zlookup, zinsert. destruct (Z.leb_spec 0 i), (Z.leb_spec 0 j); try done.
  rewrite list_lookup_insert_ne; [done|lia].
Qed.

#[export] Hint Rewrite @zlength_zinsert @length_zinsert : sec_rw.
