(* ===== verification/Machine.v ===== *)
(** * The execution model of the OpenMAX framework code

    A C function of the framework is a state-passing computation that can
    finish, fault (dereference NULL, index out of bounds, loop for ever) or
    block on a semaphore, a mutex or an event.  A blocked computation keeps its
    continuation, so that the other threads of the process can run in between:
    [outcome] is a resumption.  [wp] is the corresponding logic, relative to an
    invariant that every thread re-establishes before it blocks and may assume
    when it resumes, and [sys_step] the interleaving of the threads. *)
From S2P Require Import Prelude.

(** Why an execution has no defined result. *)
Inductive fault :=
| NullDeref      (* a NULL or dangling pointer is dereferenced *)
| OutOfBounds    (* an array is indexed outside its bounds *)
| Uninitialised  (* memory is used before anything is stored in it *)
| BadCast        (* a [void *] is used at a type it was not stored at *)
| Overlap        (* [memcpy] between areas that overlap *)
| BadShift       (* a shift by the width of the type or more *)
| Diverges       (* a loop that never leaves, cut off by its fuel *)
| Fatal.         (* [LOG_ALWAYS_FATAL_IF] aborts the process *)

#[export] Instance fault_eq_dec : EqDecision fault.
Proof. solve_decision. Defined.

(** ** Resumptions *)
Inductive outcome (S A : Type) :=
| Done (a : A) (s : S)
| Fault (e : fault)
| Blocked (ready : S -> bool) (s : S) (k : S -> outcome S A).
Arguments Done {S A} _ _.
Arguments Fault {S A} _.
Arguments Blocked {S A} _ _ _.

Definition M (S A : Type) := S -> outcome S A.

Definition ret {S A} (a : A) : M S A := fun s => Done a s.
Definition fail {S A} (e : fault) : M S A := fun _ => Fault e.

Fixpoint obind {S A B} (o : outcome S A) (f : A -> M S B) : outcome S B :=
  match o with
  | Done a s => f a s
  | Fault e => Fault e
  | Blocked r s k => Blocked r s (fun s' => obind (k s') f)
  end.
Definition bind {S A B} (m : M S A) (f : A -> M S B) : M S B :=
  fun s => obind (m s) f.

Declare Scope monad_scope.
Delimit Scope monad_scope with monad.
Open Scope monad_scope.
Notation "'let*' x ':=' c 'in' k" := (bind c (fun x => k))
  (at level 10, x binder, c at level 100, k at level 200) : monad_scope.
Notation "c ;;; k" := (bind c (fun _ => k))
  (at level 100, right associativity) : monad_scope.

Definition get {S} : M S S := fun s => Done s s.
Definition gets {S A} (f : S -> A) : M S A := fun s => Done (f s) s.
Definition modify {S} (f : S -> S) : M S unit := fun s => Done tt (f s).

(** [wait r]: block until [r] holds of the state. *)
Definition wait {S} (r : S -> bool) : M S unit :=
  fun s => if r s then Done tt s else Blocked r s (fun s' => Done tt s').

(** Dereference of a pointer, access to an array cell. *)
Definition deref {S A} (e : fault) (o : option A) : M S A :=
  match o with Some a => ret a | None => fail e end.

(** [for (i = lo; i < lo + n; i++) body(i)]. *)
Fixpoint for_from {S} (lo : Z) (n : nat) (body : Z -> M S unit) : M S unit :=
  match n with
  | O => ret tt
  | Datatypes.S n => body lo ;;; for_from (lo + 1) n body
  end.

(** The same loop with a body that may leave it ([goto EXIT], [break]):
    [Some r] is the result of the early exit. *)
Fixpoint for_exit {S R} (lo : Z) (n : nat) (body : Z -> M S (option R)) : M S (option R) :=
  match n with
  | O => ret None
  | Datatypes.S n =>
      let* r := body lo in
      match r with Some _ => ret r | None => for_exit (lo + 1) n body end
  end.

(** The same loop with a variable carried from one iteration to the next. *)
Fixpoint for_fold {S A} (lo : Z) (n : nat) (acc : A) (body : Z -> A -> M S A) : M S A :=
  match n with
  | O => ret acc
  | Datatypes.S n => let* acc' := body lo acc in for_fold (lo + 1) n acc' body
  end.

(** [while (cond) body] where the body may leave with a result. *)
Fixpoint while_exit {S R} (fuel : nat) (cond : M S bool) (body : M S (option R)) : M S (option R) :=
  match fuel with
  | O => fail Diverges
  | Datatypes.S n =>
      let* b := cond in
      if (b : bool) then
        let* r := body in
        match r with Some _ => ret r | None => while_exit n cond body end
      else ret None
  end.

(** [while (cond) body]: [Diverges] when the fuel is spent. *)
Fixpoint while {S} (fuel : nat) (cond : M S bool) (body : M S unit) : M S unit :=
  match fuel with
  | O => fail Diverges
  | Datatypes.S n =>
      let* b := cond in
      if (b : bool) then body ;;; while n cond body else ret tt
  end.

Lemma while_S {S} n cond (body : M S unit) :
  while (Datatypes.S n) cond body =
  let* b := cond in if (b : bool) then body ;;; while n cond body else ret tt.
Proof. done. Qed.
Lemma for_exit_S {S R} lo n (body : Z -> M S (option R)) :
  for_exit lo (Datatypes.S n) body =
  let* r := body lo in match r with Some _ => ret r | None => for_exit (lo + 1) n body end.
Proof. done. Qed.
Lemma for_fold_S {S A} lo n acc (body : Z -> A -> M S A) :
  for_fold lo (Datatypes.S n) acc body =
  let* acc' := body lo acc in for_fold (lo + 1) n acc' body.
Proof. done. Qed.
Lemma while_exit_S {S R} n cond (body : M S (option R)) :
  while_exit (Datatypes.S n) cond body =
  let* b := cond in
  if (b : bool) then
    let* r := body in match r with Some _ => ret r | None => while_exit n cond body end
  else ret None.
Proof. done. Qed.

(** A computation whose first step is known to finish. *)
Lemma bind_runs {S B C} (m : M S B) (f : B -> M S C) s a s' : m s = Done a s' -> bind m f s = f a s'.
Proof. intros Hm. unfold bind. by rewrite Hm. Qed.
Ltac run H := rewrite (bind_runs _ _ _ _ _ H).

(** ** Weakest preconditions under a shared invariant *)
Section wp.
Context {S : Type} (I : S -> Prop).

Fixpoint wp {A} (o : outcome S A) (Q : A -> S -> Prop) : Prop :=
  match o with
  | Done a s => Q a s
  | Fault _ => False
  | Blocked r s k => I s /\ forall s', I s' -> r s' = true -> wp (k s') Q
  end.

Lemma wp_mono {A} (o : outcome S A) (Q Q' : A -> S -> Prop) :
  (forall a s, Q a s -> Q' a s) -> wp o Q -> wp o Q'.
Proof.
  intros HQ. induction o as [| |r s k IH]; simpl; [auto|done|].
  intros [Hs Hk]. split; [done|]. auto.
Qed.

Lemma wp_obind {A B} (o : outcome S A) (f : A -> M S B) Q :
  wp (obind o f) Q <-> wp o (fun a s => wp (f a s) Q).
Proof.
  induction o as [| |r s k IH]; simpl; [done|done|].
  split; intros [Hs Hk]; (split; [done|]); intros; apply IH; auto.
Qed.

Lemma wp_bind {A B} (m : M S A) (f : A -> M S B) Q s :
  wp (m s) (fun a s' => wp (f a s') Q) -> wp (bind m f s) Q.
Proof. apply wp_obind. Qed.

Lemma wp_wait r Q s :
  (r s = true -> Q tt s) ->
  (r s = false -> I s /\ forall s', I s' -> r s' = true -> Q tt s') ->
  wp (wait r s) Q.
Proof. unfold wait. destruct (r s) eqn:E; simpl; auto. Qed.

Lemma wp_ret {A} (a : A) Q s : Q a s -> wp (ret a s) Q.
Proof. done. Qed.

Lemma wp_gets {A} (f : S -> A) Q s : Q (f s) s -> wp (gets f s) Q.
Proof. done. Qed.

Lemma wp_modify (f : S -> S) Q s : Q tt (f s) -> wp (modify f s) Q.
Proof. done. Qed.

(** Unrolling the loops. *)
Lemma wp_for_0 lo body Q s : Q tt s -> wp (for_from lo 0 body s) Q.
Proof. done. Qed.
Lemma wp_for_S lo n body Q s :
  wp (body lo s) (fun _ s' => wp (for_from (lo + 1) n body s') Q) ->
  wp (for_from lo (Datatypes.S n) body s) Q.
Proof. apply wp_bind. Qed.
Lemma wp_for_exit_0 {R} lo (body : Z -> M S (option R)) Q s :
  Q None s -> wp (for_exit lo 0 body s) Q.
Proof. done. Qed.
Lemma wp_for_exit_S {R} lo n (body : Z -> M S (option R)) Q s :
  wp (body lo s) (fun r s' => match r with
                              | Some _ => Q r s'
                              | None => wp (for_exit (lo + 1) n body s') Q end) ->
  wp (for_exit lo (Datatypes.S n) body s) Q.
Proof. intros Hb. apply wp_bind. eapply wp_mono; [|exact Hb]. by intros [r|] s'. Qed.
Lemma wp_for_fold_0 {A} lo acc (body : Z -> A -> M S A) Q s :
  Q acc s -> wp (for_fold lo 0 acc body s) Q.
Proof. done. Qed.
Lemma wp_for_fold_S {A} lo n acc (body : Z -> A -> M S A) Q s :
  wp (body lo acc s) (fun a s' => wp (for_fold (lo + 1) n a body s') Q) ->
  wp (for_fold lo (Datatypes.S n) acc body s) Q.
Proof. apply wp_bind. Qed.

(** Loop rules: an invariant indexed by the loop counter. *)
Lemma wp_for (P : Z -> S -> Prop) n body lo Q s :
  P lo s ->
  (forall i s, lo <= i < lo + Z.of_nat n -> P i s ->
     wp (body i s) (fun _ s' => P (i + 1) s')) ->
  (forall s, P (lo + Z.of_nat n) s -> Q tt s) ->
  wp (for_from lo n body s) Q.
Proof.
  revert lo s. induction n as [|n IH]; cbn [for_from for_exit]; intros lo s HP Hb HQ.
  - apply HQ. by replace (lo + Z.of_nat 0) with lo by lia.
  - apply wp_bind. eapply wp_mono; [|apply Hb; [lia|done]].
    intros [] s' HP'. apply IH; [done| |].
    + intros. apply Hb; [lia|done].
    + intros s0 Hs0. apply HQ. by replace (lo + Z.of_nat (Datatypes.S n))
        with (lo + 1 + Z.of_nat n) by lia.
Qed.

Lemma wp_for_exit {R} (P : Z -> S -> Prop) n (body : Z -> M S (option R)) lo Q s :
  P lo s ->
  (forall i s, lo <= i < lo + Z.of_nat n -> P i s ->
     wp (body i s) (fun r s' => match r with
                                | Some _ => Q r s'
                                | None => P (i + 1) s' end)) ->
  (forall s, P (lo + Z.of_nat n) s -> Q None s) ->
  wp (for_exit lo n body s) Q.
Proof.
  revert lo s. induction n as [|n IH]; cbn [for_from for_exit]; intros lo s HP Hb HQ.
  - apply HQ. by replace (lo + Z.of_nat 0) with lo by lia.
  - apply wp_bind. eapply wp_mono; [|apply Hb; [lia|done]].
    intros [r|] s' HP'; [done|]. apply IH; [done| |].
    + intros. apply Hb; [lia|done].
    + intros s0 Hs0. apply HQ. by replace (lo + Z.of_nat (Datatypes.S n))
        with (lo + 1 + Z.of_nat n) by lia.
Qed.

(** A search: iterations that change nothing are skipped. *)
Lemma wp_for_exit_skip {R} (body : Z -> M S (option R)) s Q n k : forall lo,
  (forall j, lo <= j < lo + Z.of_nat k -> wp (body j s) (fun r s' => r = None /\ s' = s)) ->
  wp (for_exit (lo + Z.of_nat k) n body s) Q -> wp (for_exit lo (k + n) body s) Q.
Proof.
  induction k as [|k IH]; intros lo Hb HQ.
  { by replace (lo + Z.of_nat 0) with lo in HQ by lia. }
  simpl. apply wp_bind. eapply wp_mono; [|apply Hb; lia]. intros r s' [-> ->].
  apply IH; [intros; apply Hb; lia|].
  by replace (lo + 1 + Z.of_nat k) with (lo + Z.of_nat (Datatypes.S k)) by lia.
Qed.

(** Total correctness of [while]: a variant bounded by the fuel. *)
Lemma wp_while (P : S -> Prop) (V : S -> nat) fuel cond body Q s :
  P s -> (V s < fuel)%nat ->
  (forall s, P s -> wp (cond s) (fun b s' =>
     if (b : bool)
     then wp (body s') (fun _ s'' => P s'' /\ (V s'' < V s)%nat)
     else Q tt s')) ->
  wp (while fuel cond body s) Q.
Proof.
  revert s. induction fuel as [|n IH]; intros s HP HV Hb; [lia|].
  simpl. apply wp_bind. eapply wp_mono; [|by apply Hb].
  intros [] s' Hs'; simpl; [|done].
  apply wp_bind. eapply wp_mono; [|done].
  intros [] s'' [HP'' HV'']. apply IH; [done|lia|done].
Qed.

Lemma wp_while_exit {R} (P : S -> Prop) (V : S -> nat) fuel cond (body : M S (option R)) Q s :
  P s -> (V s < fuel)%nat ->
  (forall s, P s -> wp (cond s) (fun b s' =>
     if (b : bool)
     then wp (body s') (fun r s'' => match r with
                                     | Some _ => Q r s''
                                     | None => P s'' /\ (V s'' < V s)%nat
                                     end)
     else Q None s')) ->
  wp (while_exit fuel cond body s) Q.
Proof.
  revert s. induction fuel as [|n IH]; intros s HP HV Hb; [lia|].
  simpl. apply wp_bind. eapply wp_mono; [|by apply Hb].
  intros [] s' Hs'; simpl; [|done].
  apply wp_bind. eapply wp_mono; [|done].
  intros [r|] s''; simpl; [done|]. intros [HP'' HV'']. apply IH; [done|lia|done].
Qed.
End wp.

(** An execution that is safe under no assumption on the other threads does
    not block, and has a result. *)
Lemma wp_result {S A} (o : outcome S A) Q :
  wp (fun _ => False) o Q -> exists a s, o = Done a s /\ Q a s.
Proof. destruct o; simpl; [eauto|done|]. by intros [[] _]. Qed.

(** ** Partial correctness

    [leaves o Q]: every way in which [o] can finish, whatever the other threads
    do while it is blocked, satisfies [Q]. *)
Fixpoint leaves {S A} (o : outcome S A) (Q : A -> S -> Prop) : Prop :=
  match o with
  | Done a s => Q a s
  | Fault _ => True
  | Blocked r s k => forall s', leaves (k s') Q
  end.

Lemma leaves_mono {S A} (o : outcome S A) (Q Q' : A -> S -> Prop) :
  (forall a s, Q a s -> Q' a s) -> leaves o Q -> leaves o Q'.
Proof. intros HQ. induction o as [| |r s k IH]; simpl; auto. Qed.

Lemma leaves_true {S A} (o : outcome S A) (Q : A -> S -> Prop) :
  (forall a s, Q a s) -> leaves o Q.
Proof. intros HQ. induction o as [| |r s k IH]; simpl; auto. Qed.

Lemma leaves_bind {S A B} (m : M S A) (f : A -> M S B) Q s :
  leaves (m s) (fun a s' => leaves (f a s') Q) -> leaves (bind m f s) Q.
Proof. unfold bind. induction (m s) as [| |r s0 k IH]; simpl; auto. Qed.

(** The result of an early exit satisfies what the body's exits satisfy. *)
Lemma leaves_for_exit {S R} (X : R -> Prop) n (body : Z -> M S (option R)) : forall lo s,
  (forall i s, leaves (body i s) (fun r _ => forall x, r = Some x -> X x)) ->
  leaves (for_exit lo n body s) (fun r _ => forall x, r = Some x -> X x).
Proof.
  induction n as [|n IH]; intros lo s Hb; [done|]. cbn [for_exit]. apply leaves_bind.
  eapply leaves_mono; [|apply Hb]. intros [r|] s' Hr; simpl; [done|]. by apply IH.
Qed.

(** A step whose result does not matter. *)
Lemma leaves_skip {S A B} (m : M S A) (f : A -> M S B) Q s :
  (forall a s', leaves (f a s') Q) -> leaves (bind m f s) Q.
Proof. intros Hf. apply leaves_bind. by apply leaves_true. Qed.

#[global] Arguments bind : simpl never.
#[global] Arguments for_from : simpl never.
#[global] Arguments for_exit : simpl never.
#[global] Arguments for_fold : simpl never.
#[global] Arguments while : simpl never.
#[global] Arguments while_exit : simpl never.

(** ** Threads and their interleaving

    A configuration is the shared state and the threads that are suspended.
    A step starts an operation of the system ([Ops]: an API call of a client,
    or the handling of one message by a handler thread) or resumes a suspended
    thread whose condition holds; it runs until it finishes or blocks. *)
Record thread (S : Type) := Thread { t_ready : S -> bool; t_cont : S -> outcome S unit }.
Arguments Thread {S} _ _.
Arguments t_ready {S} _ _.
Arguments t_cont {S} _ _.

Inductive config (S : Type) :=
| Running (s : S) (ts : list (thread S))
| Faulted (e : fault).
Arguments Running {S} _ _.
Arguments Faulted {S} _.

Definition settle {S} (o : outcome S unit) (ts : list (thread S)) : config S :=
  match o with
  | Done _ s => Running s ts
  | Fault e => Faulted e
  | Blocked r s k => Running s (Thread r k :: ts)
  end.

Section system.
Context {S : Type} (Ops : S -> M S unit -> Prop).

Inductive sys_step : config S -> config S -> Prop :=
| step_start s ts op : Ops s op -> sys_step (Running s ts) (settle (op s) ts)
| step_resume s ts1 t ts2 :
    t_ready t s = true ->
    sys_step (Running s (ts1 ++ t :: ts2)) (settle (t_cont t s) (ts1 ++ ts2)).

Definition reachable (s0 : S) : config S -> Prop := rtc sys_step (Running s0 []).

(** The invariant of a configuration: no fault, the state satisfies [I], and
    every suspended thread re-establishes [I] when it is resumed. *)
Definition config_ok (I : S -> Prop) (c : config S) : Prop :=
  match c with
  | Faulted _ => False
  | Running s ts =>
      I s /\ Forall (fun t => forall s', I s' -> t_ready t s' = true ->
                       wp I (t_cont t s') (fun _ s'' => I s'')) ts
  end.

Lemma settle_ok I o ts :
  wp I o (fun _ s => I s) ->
  Forall (fun t => forall s', I s' -> t_ready t s' = true ->
            wp I (t_cont t s') (fun _ s'' => I s'')) ts ->
  config_ok I (settle o ts).
Proof. destruct o; simpl; intros H Hts; [done|done|]. destruct H; auto. Qed.

Lemma sys_step_ok I c c' :
  (forall s op, I s -> Ops s op -> wp I (op s) (fun _ s' => I s')) ->
  sys_step c c' -> config_ok I c -> config_ok I c'.
Proof.
  intros Hops []; simpl; intros [HI Hts]; apply settle_ok; auto.
  - apply Forall_app in Hts as [? [? ?]%Forall_cons]. auto.
  - apply Forall_app in Hts as [? [? ?]%Forall_cons]. by apply Forall_app.
Qed.

Lemma reachable_ok I s0 c :
  I s0 ->
  (forall s op, I s -> Ops s op -> wp I (op s) (fun _ s' => I s')) ->
  reachable s0 c -> config_ok I c.
Proof.
  intros H0 Hops Hr.
  assert (config_ok I (Running s0 [])) as Hc by (simpl; auto).
  unfold reachable in Hr. revert Hc.
  induction Hr as [|c1 c2 c3 Hs Hr IH]; [done|]. intros Hc.
  apply IH. by eapply sys_step_ok.
Qed.
End system.
