(* ===== verification/Bytes.v ===== *)
(** * Bytes, words and command line tools

    Shared by the models of the image tools under [src/dtbhtool]: a byte is a
    [Z] from 0 to 255, a file or a block of memory is a list of bytes, and a
    program ends with a value, with an exit code, or with a fault. *)
From Stdlib Require Import Ascii.
From S2P Require Import Prelude Machine.

(** ** Programs of the command line *)
Inductive tool (A : Type) :=
| Ret (a : A)
| Exit (code : Z)          (* [exit], [err] or [return] from [main] *)
| Crash (e : fault).
Arguments Ret {A} _.
Arguments Exit {A} _.
Arguments Crash {A} _.

Definition tbind {A B} (m : tool A) (f : A -> tool B) : tool B :=
  match m with
  | Ret a => f a
  | Exit n => Exit n
  | Crash e => Crash e
  end.

Declare Scope tool_scope.
Delimit Scope tool_scope with tool.
Open Scope tool_scope.
Notation "'do' x <- c ; k" := (tbind c (fun x => k))
  (at level 10, x name, c at level 100, k at level 200) : tool_scope.

(** ** Words *)
Abbreviation bytes := (list Z).
Definition is_byte (b : Z) : Prop := 0 <= b < 256.
Definition string_bytes (s : string) : bytes :=
  (fun a => Z.of_N (Ascii.N_of_ascii a)) <$> String.list_ascii_of_string s.

Definition le32 (x : Z) : bytes := [x mod 256; x / 256 mod 256; x / 65536 mod 256; x / 16777216 mod 256].
Definition of_le32 (l : bytes) : option Z :=
  match l with
  | [a; b; c; d] => Some (a + 256 * b + 65536 * c + 16777216 * d)
  | _ => None
  end.

(** A word at an offset of a block: [None] outside of it. *)
Definition word_at (l : bytes) (off : nat) : option Z := of_le32 (take 4 (drop off l)).

Lemma length_le32 x : length (le32 x) = 4%nat.
Proof. done. Qed.

Lemma of_le32_le32 x : is_u32 x -> of_le32 (le32 x) = Some x.
Proof.
  unfold is_u32. intros. unfold le32, of_le32. f_equal.
  pose proof (Z.div_mod x 256 ltac:(lia)). pose proof (Z.div_mod (x / 256) 256 ltac:(lia)).
  pose proof (Z.div_mod (x / 65536) 256 ltac:(lia)).
  assert (x / 256 / 256 = x / 65536) as Hdiv1 by (rewrite Z.div_div by lia; done).
  assert (x / 65536 / 256 = x / 16777216) as Hdiv2 by (rewrite Z.div_div by lia; done).
  assert (x / 16777216 mod 256 = x / 16777216) as ->.
  { apply Z.mod_small. split; [apply Z.div_pos; lia|apply Z.div_lt_upper_bound; lia]. }
  lia.
Qed.

Lemma word_at_app l x k : is_u32 x -> word_at (l ++ le32 x ++ k) (length l) = Some x.
Proof.
  intros Hx. unfold word_at. rewrite drop_app_length.
  rewrite (take_app_length' (le32 x)) by done. by apply of_le32_le32.
Qed.

(** ** Pages

    [(n + pagemask) & ~pagemask] on 32-bit unsigned numbers, with
    [pagemask = pagesize - 1]. *)
Definition page_align (pagesize n : Z) : Z :=
  let pagemask := u32 (pagesize - 1) in
  Z.land (u32 (n + pagemask)) (u32 (Z.lnot pagemask)).

(** [n & pagemask] *)
Definition page_rest (pagesize n : Z) : Z := Z.land n (u32 (pagesize - 1)).

(** The page sizes in use are powers of two. *)
Definition is_page (p : Z) : Prop := exists k, 0 <= k < 32 /\ p = 2 ^ k.

Lemma is_page_pos p : is_page p -> 0 < p < 2 ^ 32.
Proof.
  intros (k & Hk & ->). split; [apply Z.pow_pos_nonneg; lia|apply Z.pow_lt_mono_r; lia].
Qed.

Lemma is_page_half p : is_page p -> 2 * p <= 2 ^ 32.
Proof.
  intros (k & Hk & ->). change (2 ^ 32) with (2 * 2 ^ 31).
  apply Z.mul_le_mono_nonneg_l; [lia|]. apply Z.pow_le_mono_r; lia.
Qed.

Lemma page_rest_mod p n : is_page p -> page_rest p n = n mod p.
Proof.
  intros (k & Hk & ->). unfold page_rest.
  rewrite u32_id. 2: { unfold is_u32. assert (0 < 2 ^ k <= 2 ^ 31); [|lia].
    split; [apply Z.pow_pos_nonneg; lia|apply Z.pow_le_mono_r; lia]. }
  replace (2 ^ k - 1) with (Z.ones k) by (rewrite Z.ones_equiv; lia).
  by rewrite Z.land_ones by lia.
Qed.

(** Rounding up to a multiple of the page size. *)
Definition round_up (p n : Z) : Z := (n + p - 1) / p * p.

Lemma round_up_bounds p n : 0 < p -> n <= round_up p n < n + p.
Proof.
  intros. unfold round_up. pose proof (Z.div_mod (n + p - 1) p ltac:(lia)).
  pose proof (Z.mod_pos_bound (n + p - 1) p ltac:(lia)). nia.
Qed.

Lemma page_align_round p n :
  is_page p -> 0 <= n -> n + p <= 2 ^ 32 -> page_align p n = round_up p n.
Proof.
  intros Hp Hn Hmax. pose proof (is_page_pos p Hp) as Hpos. destruct Hp as (k & Hk & ->).
  unfold page_align. rewrite (u32_id (2 ^ k - 1)) by (unfold is_u32; lia).
  rewrite (u32_id (n + _)) by (unfold is_u32; lia).
  replace (u32 (Z.lnot (2 ^ k - 1))) with (2 ^ 32 - 2 ^ k).
  2: { unfold u32, wrapu. rewrite <- (Z.mod_add _ 1) by lia. unfold Z.lnot, Z.pred.
       rewrite Z.mod_small by lia. lia. }
  replace (2 ^ 32 - 2 ^ k) with (Z.shiftl (Z.ones (32 - k)) k).
  2: { rewrite Z.shiftl_mul_pow2, Z.ones_equiv by lia.
       replace (2 ^ 32) with (2 ^ (32 - k) * 2 ^ k) by (rewrite <- Z.pow_add_r by lia; f_equal; lia).
       nia. }
  replace (n + (2 ^ k - 1)) with (n + 2 ^ k - 1) by lia. unfold round_up.
  apply Z.bits_inj'. intros i Hi. rewrite Z.land_spec, Z.shiftl_spec by lia.
  rewrite <- Z.shiftr_div_pow2, <- Z.shiftl_mul_pow2, Z.shiftl_spec by lia.
  destruct (Z.ltb_spec i k).
  - rewrite (Z.testbit_neg_r _ (i - k)), (Z.testbit_neg_r (Z.shiftr _ _)) by lia. by rewrite andb_false_r.
  - rewrite Z.shiftr_spec by lia. replace (i - k + k) with i by lia.
    destruct (Z.ltb_spec (i - k) (32 - k)).
    + rewrite Z.ones_spec_low by lia. apply andb_true_r.
    + rewrite Z.ones_spec_high by lia. rewrite andb_false_r. symmetry.
      apply Z.bits_above_log2; [lia|]. apply Z.lt_le_trans with 32; [|lia].
      destruct (decide (n + 2 ^ k - 1 = 0)) as [->|]; [done|]. apply Z.log2_lt_pow2; lia.
Qed.

Lemma round_up_mod p n : 0 < p -> round_up p n mod p = 0.
Proof. intros. unfold round_up. apply Z.mod_mul. lia. Qed.

(** ** Blocks of memory *)
Definition zeros (n : Z) : bytes := replicate (Z.to_nat n) 0.

(** [memcpy(block + off, data, ...)] *)
Definition mem_write (off : Z) (data block : bytes) : tool bytes :=
  if ((0 <=? off) && (off + zlength data <=? zlength block))%bool
  then Ret (take (Z.to_nat off) block ++ data ++ drop (Z.to_nat (off + zlength data)) block)
  else Crash OutOfBounds.

(** Writing at the end of what is already there. *)
Lemma mem_write_next pre data n :
  zlength data <= n ->
  mem_write (zlength pre) data (pre ++ zeros n) = Ret (pre ++ data ++ zeros (n - zlength data)).
Proof.
  intros Hn. unfold mem_write, zeros, zlength in *.
  rewrite length_app, length_replicate.
  rewrite (proj2 (Z.leb_le 0 _)), (proj2 (Z.leb_le _ _)) by lia. simpl. do 2 f_equal.
  - rewrite Nat2Z.id. by rewrite take_app_length.
  - f_equal. rewrite drop_app_ge by lia. rewrite drop_replicate. f_equal. lia.
Qed.

Lemma mem_write_start data n :
  zlength data <= n -> mem_write 0 data (zeros n) = Ret (data ++ zeros (n - zlength data)).
Proof. intros Hn. exact (mem_write_next [] data n Hn). Qed.

Lemma mem_write_size off data l l' : mem_write off data l = Ret l' -> zlength l' = zlength l.
Proof.
  unfold mem_write. destruct (Z.leb_spec 0 off); [|done].
  destruct (Z.leb_spec (off + zlength data) (zlength l)); [|done]. intros [= <-].
  unfold zlength in *. rewrite !length_app, length_take, length_drop. lia.
Qed.

Lemma zeros_add a b : 0 <= a -> 0 <= b -> zeros (a + b) = zeros a ++ zeros b.
Proof. intros. unfold zeros. rewrite Z2Nat.inj_add by lia. apply replicate_add. Qed.

Lemma zlength_zeros n : 0 <= n -> zlength (zeros n) = n.
Proof. intros. unfold zlength, zeros. rewrite length_replicate. lia. Qed.

(** A file or a section with the zeros that fill its last page. *)
Definition padded (p : Z) (l : bytes) : bytes := l ++ zeros (round_up p (zlength l) - zlength l).

Lemma zlength_padded p l : 0 < p -> zlength (padded p l) = round_up p (zlength l).
Proof.
  intros Hp. pose proof (round_up_bounds p (zlength l) Hp).
  unfold padded, zlength, zeros in *. rewrite length_app, length_replicate. lia.
Qed.

(** ** Numbers on the command line

    [strtoul] and [strtol] of the C library, with a [long] of 64 bits. *)
Definition is_space (c : Ascii.ascii) : bool :=
  let n := Z.of_N (Ascii.N_of_ascii c) in (n =? 32) || ((9 <=? n) && (n <=? 13)).

Definition digit_of (base : Z) (c : Ascii.ascii) : option Z :=
  let n := Z.of_N (Ascii.N_of_ascii c) in
  let d := if (48 <=? n) && (n <=? 57) then n - 48
           else if (97 <=? n) && (n <=? 122) then n - 87
           else if (65 <=? n) && (n <=? 90) then n - 55 else base in
  if d <? base then Some d else None.

Fixpoint digits (base acc : Z) (s : list Ascii.ascii) : Z :=
  match s with
  | [] => acc
  | c :: s => match digit_of base c with Some d => digits base (base * acc + d) s | None => acc end
  end.

Fixpoint skip_space (s : list Ascii.ascii) : list Ascii.ascii :=
  match s with
  | c :: s' => if is_space c then skip_space s' else s
  | [] => []
  end.

Definition skip_sign (s : list Ascii.ascii) : bool * list Ascii.ascii :=
  match s with
  | "-"%char :: s => (true, s)
  | "+"%char :: s => (false, s)
  | _ => (false, s)
  end.

(** The prefix [0x] counts only in front of a digit. *)
Definition skip_prefix (base : Z) (s : list Ascii.ascii) : list Ascii.ascii :=
  match s with
  | "0"%char :: x :: ((c :: _) as s') =>
      if (base =? 16) && (bool_decide (x = "x"%char) || bool_decide (x = "X"%char))
         && bool_decide (is_Some (digit_of base c)) then s' else s
  | _ => s
  end.

Definition number (base : Z) (s : string) : bool * Z :=
  let '(neg, s) := skip_sign (skip_space (String.list_ascii_of_string s)) in
  (neg, digits base 0 (skip_prefix base s)).

Definition strtoul (s : string) (base : Z) : Z :=
  let '(neg, v) := number base s in
  if 2 ^ 64 <=? v then 2 ^ 64 - 1 else if neg then (- v) mod 2 ^ 64 else v.
Definition strtol (s : string) (base : Z) : Z :=
  let '(neg, v) := number base s in
  let v := if neg then - v else v in Z.max (- 2 ^ 63) (Z.min v (2 ^ 63 - 1)).
Definition atoi (s : string) : Z := s32 (strtol s 10).

Example strtoul_hex : strtoul " 0x10f00000g" 16 = 0x10f00000. Proof. reflexivity. Qed.
Example strtoul_dec : strtoul "2048" 10 = 2048 /\ strtol "-7" 10 = -7 /\ strtoul "0x" 16 = 0.
Proof. done. Qed.

(** ** The host of a tool

    The files by name, and the directories with the names and the contents of
    their files ([None]: cannot be read).  [creat_ok] tells whether a file can be
    created, [write_ok pos n] whether a [write] of [n] bytes at [pos] goes
    through in full. *)
Record host := mkHost {
  h_files : gmap string bytes;
  h_dirs : gmap string (list (string * option bytes));
  h_creat_ok : string -> bool;
  h_write_ok : Z -> Z -> bool
}.
#[export] Instance host_eta : RecEta host := fun h =>
  mkHost (h_files h) (h_dirs h) (h_creat_ok h) (h_write_ok h).

(** [write(fd, data, n) == n], on the content of the file so far. *)
Definition write_fd (h : host) (out data : bytes) : option bytes :=
  if h_write_ok h (zlength out) (zlength data) then Some (out ++ data) else None.

Lemma write_fd_Some h out data out' : write_fd h out data = Some out' -> out' = out ++ data.
Proof. unfold write_fd. case_match; [|done]. by intros [= <-]. Qed.
