(* ===== verification/OmxEnums.v ===== *)
(** * Enumerations of the OpenMAX IL interface and of the SEC layer

    The enumerations of [include/khronos/OMX_Core.h] and
    [include/sec/SEC_OMX_Def.h] that the framework reads or writes, with the
    names of the source.  A state or a command arrives as a plain [OMX_U32], so
    their types have one more constructor for the values without a name. *)
From S2P Require Import Prelude.

Inductive OMX_ERRORTYPE :=
| OMX_ErrorNone
| OMX_ErrorInsufficientResources
| OMX_ErrorUndefined
| OMX_ErrorInvalidComponentName
| OMX_ErrorComponentNotFound
| OMX_ErrorInvalidComponent
| OMX_ErrorBadParameter
| OMX_ErrorNotImplemented
| OMX_ErrorUnderflow
| OMX_ErrorOverflow
| OMX_ErrorHardware
| OMX_ErrorInvalidState
| OMX_ErrorStreamCorrupt
| OMX_ErrorPortsNotCompatible
| OMX_ErrorResourcesLost
| OMX_ErrorNoMore
| OMX_ErrorVersionMismatch
| OMX_ErrorNotReady
| OMX_ErrorTimeout
| OMX_ErrorSameState
| OMX_ErrorResourcesPreempted
| OMX_ErrorPortUnresponsiveDuringAllocation
| OMX_ErrorPortUnresponsiveDuringDeallocation
| OMX_ErrorPortUnresponsiveDuringStop
| OMX_ErrorIncorrectStateTransition
| OMX_ErrorIncorrectStateOperation
| OMX_ErrorUnsupportedSetting
| OMX_ErrorUnsupportedIndex
| OMX_ErrorBadPortIndex
| OMX_ErrorPortUnpopulated
| OMX_ErrorComponentSuspended
| OMX_ErrorDynamicResourcesUnavailable
| OMX_ErrorMbErrorsInFrame
| OMX_ErrorFormatNotDetected
| OMX_ErrorContentPipeOpenFailed
| OMX_ErrorContentPipeCreationFailed
| OMX_ErrorSeperateTablesUsed
| OMX_ErrorTunnelingUnsupported
(* the vendor extensions of SEC_OMX_Def.h *)
| OMX_ErrorNoEOF
| OMX_ErrorInputDataDecodeYet
| OMX_ErrorInputDataEncodeYet
| OMX_ErrorMFCInit.

#[export] Instance OMX_ERRORTYPE_eq_dec : EqDecision OMX_ERRORTYPE.
Proof. solve_decision. Defined.

(** [ret != OMX_ErrorNone] *)
Definition is_err (e : OMX_ERRORTYPE) : bool := bool_decide (e <> OMX_ErrorNone).

Inductive OMX_STATETYPE :=
| OMX_StateInvalid
| OMX_StateLoaded
| OMX_StateIdle
| OMX_StateExecuting
| OMX_StatePause
| OMX_StateWaitForResources
| OMX_StateMax
| OMX_StateOther (n : Z).

#[export] Instance OMX_STATETYPE_eq_dec : EqDecision OMX_STATETYPE.
Proof. solve_decision. Defined.

Definition OMX_STATETYPE_of_U32 (n : Z) : OMX_STATETYPE :=
  match n with
  | 0 => OMX_StateInvalid
  | 1 => OMX_StateLoaded
  | 2 => OMX_StateIdle
  | 3 => OMX_StateExecuting
  | 4 => OMX_StatePause
  | 5 => OMX_StateWaitForResources
  | _ => if n =? 0x7FFFFFFF then OMX_StateMax else OMX_StateOther n
  end.

Definition U32_of_OMX_STATETYPE (s : OMX_STATETYPE) : Z :=
  match s with
  | OMX_StateInvalid => 0
  | OMX_StateLoaded => 1
  | OMX_StateIdle => 2
  | OMX_StateExecuting => 3
  | OMX_StatePause => 4
  | OMX_StateWaitForResources => 5
  | OMX_StateMax => 0x7FFFFFFF
  | OMX_StateOther n => n
  end.

(** The commands of [OMX_COMMANDTYPE] and of [SEC_OMX_COMMANDTYPE]. *)
Inductive OMX_COMMANDTYPE :=
| OMX_CommandStateSet
| OMX_CommandFlush
| OMX_CommandPortDisable
| OMX_CommandPortEnable
| OMX_CommandMarkBuffer
| SEC_OMX_CommandComponentDeInit
| SEC_OMX_CommandEmptyBuffer
| SEC_OMX_CommandFillBuffer
| OMX_CommandOther (n : Z).

#[export] Instance OMX_COMMANDTYPE_eq_dec : EqDecision OMX_COMMANDTYPE.
Proof. solve_decision. Defined.

Inductive SEC_OMX_TRANS_STATETYPE :=
| SEC_OMX_TransStateInvalid
| SEC_OMX_TransStateLoadedToIdle
| SEC_OMX_TransStateIdleToExecuting
| SEC_OMX_TransStateExecutingToIdle
| SEC_OMX_TransStateIdleToLoaded
| SEC_OMX_TransStateMax.

#[export] Instance SEC_OMX_TRANS_STATETYPE_eq_dec : EqDecision SEC_OMX_TRANS_STATETYPE.
Proof. solve_decision. Defined.

Inductive SEC_CODEC_TYPE :=
| SW_CODEC
| HW_VIDEO_DEC_CODEC
| HW_VIDEO_ENC_CODEC
| HW_AUDIO_DEC_CODEC
| HW_AUDIO_ENC_CODEC.

#[export] Instance SEC_CODEC_TYPE_eq_dec : EqDecision SEC_CODEC_TYPE.
Proof. solve_decision. Defined.

Inductive OMX_DIRTYPE := OMX_DirInput | OMX_DirOutput | OMX_DirMax.

#[export] Instance OMX_DIRTYPE_eq_dec : EqDecision OMX_DIRTYPE.
Proof. solve_decision. Defined.

Inductive OMX_BUFFERSUPPLIERTYPE :=
| OMX_BufferSupplyUnspecified
| OMX_BufferSupplyInput
| OMX_BufferSupplyOutput
| OMX_BufferSupplyOther (n : Z).

#[export] Instance OMX_BUFFERSUPPLIERTYPE_eq_dec : EqDecision OMX_BUFFERSUPPLIERTYPE.
Proof. solve_decision. Defined.

(** Parameter indices: those the base component and the video decoder switch
    on; every other index is [OMX_IndexOther]. *)
Inductive OMX_INDEXTYPE :=
| OMX_IndexParamAudioInit
| OMX_IndexParamVideoInit
| OMX_IndexParamImageInit
| OMX_IndexParamOtherInit
| OMX_IndexParamPortDefinition
| OMX_IndexParamPriorityMgmt
| OMX_IndexParamCompBufferSupplier
| OMX_IndexParamVideoPortFormat
| OMX_COMPONENT_CAPABILITY_TYPE_INDEX
| OMX_IndexVendorThumbnailMode
| OMX_IndexParamEnableAndroidBuffers
| OMX_IndexParamGetAndroidNativeBuffer
| OMX_IndexParamUseAndroidNativeBuffer
| OMX_IndexParamStoreMetaDataBuffer
| OMX_IndexParamVideoBitrate
| OMX_IndexParamVideoQuantization
| OMX_IndexParamVideoIntraRefresh
| OMX_IndexConfigVideoBitrate
| OMX_IndexConfigVideoFramerate
| OMX_IndexConfigVideoIntraVOPRefresh
| OMX_IndexOther (n : Z).

#[export] Instance OMX_INDEXTYPE_eq_dec : EqDecision OMX_INDEXTYPE.
Proof. solve_decision. Defined.

(** ** Constants of [SEC_OMX_Def.h], [SEC_OMX_Baseport.h], [SEC_OMX_Macros.h] *)
Definition VERSIONMAJOR_NUMBER : Z := 1.
Definition VERSIONMINOR_NUMBER : Z := 0.
Definition MAX_OMX_COMPONENT_NUM : Z := 20.
Definition MAX_TIMESTAMP : Z := 17.
Definition MAX_FLAGS : Z := 17.

Definition BUFFER_STATE_ALLOCATED : Z := Z.shiftl 1 0.
Definition BUFFER_STATE_ASSIGNED : Z := Z.shiftl 1 1.
Definition HEADER_STATE_ALLOCATED : Z := Z.shiftl 1 2.
Definition BUFFER_STATE_FREE : Z := 0.
Definition MAX_BUFFER_NUM : Z := 20.

Definition INPUT_PORT_INDEX : Z := 0.
Definition OUTPUT_PORT_INDEX : Z := 1.
Definition ALL_PORT_INDEX : Z := -1.
Definition ALL_PORT_NUM : Z := 2.

Definition SEC_TUNNEL_ESTABLISHED : Z := 0x0001.
Definition SEC_TUNNEL_IS_SUPPLIER : Z := 0x0002.

Definition OMX_BUFFERFLAG_EOS : Z := 0x00000001.
Definition OMX_BUFFERFLAG_CODECCONFIG : Z := 0x00000080.
