(* ===== verification/OsalSync.v ===== *)
(** * OSAL synchronisation objects: mutexes, semaphores and events

    Models [osal/SEC_OSAL_Mutex.c], [SEC_OSAL_Semaphore.c] and
    [SEC_OSAL_Event.c].  A handle is NULL or the state of the object it owns;
    every handle is stored in one place of the program, so the object is kept
    in that place.  [malloc] and the [*_init]/[*_destroy] calls of the C
    library may fail: the answers come from an oracle [os], indexed by the
    number of such calls made so far.  A call that can block is split in its
    enabling condition ([*_ready]) and its effect. *)
From S2P Require Import Prelude OmxEnums.

(** The answers of the fallible C library calls: [os n] tells whether the
    [n]-th one succeeds. *)
Abbreviation oracle := (nat -> bool).

(** What the platform fixes: the largest semaphore value, [SEM_VALUE_MAX], at
    least the [_POSIX_SEM_VALUE_MAX] of the standard. *)
Class Platform := { SEM_VALUE_MAX : Z; SEM_VALUE_MAX_min : 32767 <= SEM_VALUE_MAX }.

(** ** Mutexes: [Some locked], or NULL *)
Abbreviation mutex := (option bool).

Definition SEC_OSAL_MutexCreate (os : oracle) (n : nat) (h : mutex)
  : OMX_ERRORTYPE * nat * mutex :=
  if negb (os n) then (OMX_ErrorInsufficientResources, S n, h)
  else if negb (os (S n)) then (OMX_ErrorUndefined, S (S n), h)
  else (OMX_ErrorNone, S (S n), Some false).

Definition SEC_OSAL_MutexTerminate (os : oracle) (n : nat) (h : mutex)
  : OMX_ERRORTYPE * nat * mutex :=
  match h with
  | None => (OMX_ErrorBadParameter, n, None)
  | Some _ =>
      if negb (os n) then (OMX_ErrorUndefined, S n, h)
      else (OMX_ErrorNone, S n, None)
  end.

(** [pthread_mutex_lock] blocks while the mutex is locked. *)
Definition mutex_ready (h : mutex) : bool :=
  match h with Some true => false | _ => true end.

Definition SEC_OSAL_MutexLock (h : mutex) : OMX_ERRORTYPE * mutex :=
  match h with
  | None => (OMX_ErrorBadParameter, None)
  | Some _ => (OMX_ErrorNone, Some true)
  end.

Definition SEC_OSAL_MutexUnlock (h : mutex) : OMX_ERRORTYPE * mutex :=
  match h with
  | None => (OMX_ErrorBadParameter, None)
  | Some _ => (OMX_ErrorNone, Some false)
  end.

(** ** Semaphores: [Some value], or NULL *)
Abbreviation sem := (option Z).

Definition SEC_OSAL_SemaphoreCreate (os : oracle) (n : nat) (h : sem)
  : OMX_ERRORTYPE * nat * sem :=
  if negb (os n) then (OMX_ErrorInsufficientResources, S n, h)
  else if negb (os (S n)) then (OMX_ErrorUndefined, S (S n), h)
  else (OMX_ErrorNone, S (S n), Some 0).

Definition SEC_OSAL_SemaphoreTerminate (os : oracle) (n : nat) (h : sem)
  : OMX_ERRORTYPE * nat * sem :=
  match h with
  | None => (OMX_ErrorBadParameter, n, None)
  | Some _ =>
      if negb (os n) then (OMX_ErrorUndefined, S n, h)
      else (OMX_ErrorNone, S n, None)
  end.

(** [sem_wait] blocks while the value is zero. *)
Definition sem_ready (h : sem) : bool :=
  match h with None => true | Some v => 0 <? v end.

Definition SEC_OSAL_SemaphoreWait (h : sem) : OMX_ERRORTYPE * sem :=
  match h with
  | None => (OMX_ErrorBadParameter, None)
  | Some v => (OMX_ErrorNone, Some (v - 1))
  end.

Section semaphore.
Context `{Platform}.

(** [sem_post] fails with [EOVERFLOW] at the largest value. *)
Definition SEC_OSAL_SemaphorePost (h : sem) : OMX_ERRORTYPE * sem :=
  match h with
  | None => (OMX_ErrorBadParameter, None)
  | Some v =>
      if v =? SEM_VALUE_MAX then (OMX_ErrorUndefined, h)
      else (OMX_ErrorNone, Some (v + 1))
  end.

(** [sem_init] on the existing object; it fails when the value, converted to
    [unsigned], is above [SEM_VALUE_MAX]. *)
Definition SEC_OSAL_Set_SemaphoreCount (h : sem) (val : Z) : OMX_ERRORTYPE * sem :=
  match h with
  | None => (OMX_ErrorBadParameter, None)
  | Some _ =>
      if SEM_VALUE_MAX <? u32 val then (OMX_ErrorUndefined, h)
      else (OMX_ErrorNone, Some (u32 val))
  end.

(** The out parameter keeps its previous value [old] when the handle is NULL. *)
Definition SEC_OSAL_Get_SemaphoreCount (h : sem) (old : Z) : OMX_ERRORTYPE * Z :=
  match h with
  | None => (OMX_ErrorBadParameter, old)
  | Some v => (OMX_ErrorNone, v)
  end.

Definition sem_ok (h : sem) : Prop :=
  match h with None => True | Some v => 0 <= v <= SEM_VALUE_MAX end.

Lemma sem_post_ok h : sem_ok h -> sem_ok (SEC_OSAL_SemaphorePost h).2.
Proof.
  destruct h as [v|]; simpl; [|done]. destruct (Z.eqb_spec v SEM_VALUE_MAX); simpl; lia.
Qed.

Lemma sem_wait_ok h : sem_ready h = true -> sem_ok h -> sem_ok (SEC_OSAL_SemaphoreWait h).2.
Proof. destruct h as [v|]; simpl; intros; zbool; [lia|done]. Qed.

(** A semaphore whose count was just read as zero and is then posted is ready:
    the pattern that wakes a waiting buffer thread. *)
Lemma sem_post_ready h :
  sem_ok h -> (SEC_OSAL_Get_SemaphoreCount h 0).2 = 0 ->
  sem_ready (SEC_OSAL_SemaphorePost h).2 = true.
Proof.
  pose proof SEM_VALUE_MAX_min. destruct h as [v|]; simpl; [|done]. intros ? ->.
  destruct (Z.eqb_spec 0 SEM_VALUE_MAX); simpl; [lia|done].
Qed.

Lemma sem_post_wait h v :
  h = Some v -> v < SEM_VALUE_MAX ->
  SEC_OSAL_SemaphoreWait (SEC_OSAL_SemaphorePost h).2 = (OMX_ErrorNone, h).
Proof.
  intros -> ?. simpl. destruct (Z.eqb_spec v SEM_VALUE_MAX); [lia|].
  simpl. do 2 f_equal. lia.
Qed.
End semaphore.

(** ** Events *)
Record SEC_OSAL_THREADEVENT := mkEvent { signal : bool; event_mutex : mutex }.
#[export] Instance SEC_OSAL_THREADEVENT_eta : RecEta SEC_OSAL_THREADEVENT :=
  fun e => mkEvent (signal e) (event_mutex e).
Abbreviation event := (option SEC_OSAL_THREADEVENT).

Definition DEF_MAX_WAIT_TIME : Z := 0xFFFFFFFF.

Definition SEC_OSAL_SignalCreate (os : oracle) (n : nat) (h : event)
  : OMX_ERRORTYPE * nat * event :=
  if negb (os n) then (OMX_ErrorInsufficientResources, S n, h)
  else
    let '(ret, n1, m) := SEC_OSAL_MutexCreate os (S n) None in
    if is_err ret then (ret, n1, h)
    else if negb (os n1) then
      let '(_, n2, _) := SEC_OSAL_MutexTerminate os (S n1) m in
      (OMX_ErrorUndefined, n2, h)
    else (OMX_ErrorNone, S n1, Some (mkEvent false m)).

Definition SEC_OSAL_SignalTerminate (os : oracle) (n : nat) (h : event)
  : OMX_ERRORTYPE * nat * event :=
  match h with
  | None => (OMX_ErrorBadParameter, n, None)
  | Some e =>
      let '(ret, m) := SEC_OSAL_MutexLock (event_mutex e) in
      if is_err ret then (OMX_ErrorBadParameter, n, h)
      else if negb (os n) then (OMX_ErrorUndefined, S n, Some e<|event_mutex := m|>)
      else
        let '(ret, m) := SEC_OSAL_MutexUnlock m in
        if is_err ret then (OMX_ErrorUndefined, S n, Some e<|event_mutex := m|>)
        else
          let '(ret, n', m) := SEC_OSAL_MutexTerminate os (S n) m in
          if is_err ret then (OMX_ErrorUndefined, n', Some e<|event_mutex := m|>)
          else (OMX_ErrorNone, n', None)
  end.

(** The critical sections of [SignalReset] and [SignalSet] take and release the
    event's own mutex and never block inside it; [pthread_cond_signal] wakes
    the waiters, whose condition is [signal]. *)
Definition SEC_OSAL_SignalReset (h : event) : OMX_ERRORTYPE * event :=
  match h with
  | None => (OMX_ErrorBadParameter, None)
  | Some e =>
      let '(ret, m) := SEC_OSAL_MutexLock (event_mutex e) in
      if is_err ret then (OMX_ErrorBadParameter, h)
      else (ret, Some e<|signal := false|><|event_mutex := (SEC_OSAL_MutexUnlock m).2|>)
  end.

Definition SEC_OSAL_SignalSet (h : event) : OMX_ERRORTYPE * event :=
  match h with
  | None => (OMX_ErrorBadParameter, None)
  | Some e =>
      let '(ret, m) := SEC_OSAL_MutexLock (event_mutex e) in
      if is_err ret then (OMX_ErrorBadParameter, h)
      else (ret, Some e<|signal := true|><|event_mutex := (SEC_OSAL_MutexUnlock m).2|>)
  end.

(** The absolute deadline [SignalWait] passes to [pthread_cond_timedwait]:
    [tv_us] is an [OMX_U32]. *)
Definition SignalWait_deadline (tv_sec tv_usec ms : Z) : Z * Z :=
  let tv_us := u32 (tv_usec + u32 (ms * 1000)) in
  (tv_sec + tv_us / 1000000, (tv_us mod 1000000) * 1000).

(** The two waiting loops, driven by what each return from the condition
    variable finds: the value of [event->signal], and whether
    [pthread_cond_timedwait] reported [ETIMEDOUT].  [None]: still waiting. *)
Fixpoint SignalWait_loop (signal0 : bool) (wakes : list (bool * bool)) : option OMX_ERRORTYPE :=
  if signal0 then Some OMX_ErrorNone
  else match wakes with
       | [] => None
       | (sig, timedout) :: rest =>
           if (negb sig && timedout)%bool then Some OMX_ErrorTimeout
           else SignalWait_loop sig rest
       end.

Definition SEC_OSAL_SignalWait (h : event) (ms : Z) (wakes : list (bool * bool))
  : option OMX_ERRORTYPE :=
  match h with
  | None => Some OMX_ErrorBadParameter
  | Some e =>
      if is_err (SEC_OSAL_MutexLock (event_mutex e)).1 then Some OMX_ErrorBadParameter
      else if ms =? 0 then
        Some (if signal e then OMX_ErrorNone else OMX_ErrorTimeout)
      else if ms =? DEF_MAX_WAIT_TIME then
        (* no deadline: a wake-up never reports a time-out *)
        SignalWait_loop (signal e) (map (fun w => (w.1, false)) wakes)
      else SignalWait_loop (signal e) wakes
  end.

(** The wait without deadline of an event that exists, as a blocking condition. *)
Definition event_ready (h : event) : bool :=
  match h with
  | Some e => match event_mutex e with Some _ => signal e | None => true end
  | None => true
  end.

(** ** Properties of events *)

(** the deadline of a timed wait is the current time plus [ms] milliseconds,
    normalised, as long as the sum of microseconds fits the [OMX_U32] it is
    computed in. *)
Theorem SignalWait_deadline_exact tv_sec tv_usec ms :
  0 <= tv_usec < 1000000 -> 0 <= ms -> tv_usec + ms * 1000 < 2 ^ 32 ->
  let '(sec, nsec) := SignalWait_deadline tv_sec tv_usec ms in
  0 <= nsec < 1000000000 /\
  sec * 1000000000 + nsec = tv_sec * 1000000000 + tv_usec * 1000 + ms * 1000000.
Proof.
  intros. unfold SignalWait_deadline.
  rewrite !u32_id by (rewrite ?u32_id; unfold is_u32; lia).
  pose proof (Z.div_mod (tv_usec + ms * 1000) 1000000 ltac:(lia)).
  pose proof (Z.mod_pos_bound (tv_usec + ms * 1000) 1000000 ltac:(lia)). lia.
Qed.

(** A wait without deadline never times out. *)
Lemma SignalWait_forever h wakes r :
  SEC_OSAL_SignalWait h DEF_MAX_WAIT_TIME wakes = Some r ->
  r = OMX_ErrorNone \/ r = OMX_ErrorBadParameter.
Proof.
  unfold SEC_OSAL_SignalWait. destruct h as [e|]; [|naive_solver].
  destruct (is_err _); [naive_solver|]. simpl.
  generalize (signal e). induction wakes as [|[s t] w IH]; intros [] Hw; simpl in *.
  - naive_solver.
  - done.
  - naive_solver.
  - rewrite andb_false_r in Hw. by eapply IH.
Qed.

(** No wake-up is lost: an event that was set is not waited for, whatever the
    deadline and whatever the condition variable would report. *)
Theorem SignalSet_wait h e ms wakes :
  (SEC_OSAL_SignalSet h) = (OMX_ErrorNone, Some e) ->
  SEC_OSAL_SignalWait (Some e) ms wakes = Some OMX_ErrorNone.
Proof.
  destruct h as [[sg [m|]]|]; simpl; try done. intros Heq. simplify_eq/=.
  destruct (ms =? 0); [done|]. destruct (ms =? DEF_MAX_WAIT_TIME); by destruct wakes as [|[]].
Qed.

Lemma SignalWait_deadline_exact_witness :
  SignalWait_deadline 100 999999 2500 = (103, 499999000) /\
  (0 <= 499999000 < 1000000000 /\
   103 * 1000000000 + 499999000 = 100 * 1000000000 + 999999 * 1000 + 2500 * 1000000).
Proof.
  split; [done|]. apply (SignalWait_deadline_exact 100 999999 2500); lia.
Defined.

Lemma SignalSet_wait_witness :
  SEC_OSAL_SignalWait (Some (mkEvent true (Some false))) 20 [(false, true)] = Some OMX_ErrorNone.
Proof. apply (SignalSet_wait (Some (mkEvent false (Some false)))). done. Defined.
