(* ===== verification/OsalQueue.v ===== *)
(** * The OSAL message queue

    Models [osal/SEC_OSAL_Queue.c] and [SEC_OSAL_Queue.h]: a ring of
    [MAX_QUEUE_ELEMENTS - 1] linked nodes, allocated once, with a pointer to
    the first filled and one to the first free node.  Nodes live in a small
    heap [nodes], a node pointer is a key of it and NULL is [None]; an access
    through NULL or a freed node is a fault ([None] result).  Every operation
    holds [qMutex] from its first statement to its return and does not block in
    between, so it is one atomic step of the model.

    The last section relates the ring to the queue the rest of the framework
    relies on: a FIFO of at most nine elements. *)
From S2P Require Import Prelude OmxEnums OsalSync.

Definition MAX_QUEUE_ELEMENTS : Z := 10.
(** The number of nodes [SEC_OSAL_QueueCreate] allocates: [queue->first] and
    [MAX_QUEUE_ELEMENTS - 2] more. *)
Definition ring_size : nat := Z.to_nat (MAX_QUEUE_ELEMENTS - 1).

Section queue.
Context {A : Type}.

Record SEC_QElem := mkQElem { data : option A; qNext : option nat }.
#[export] Instance SEC_QElem_eta : RecEta SEC_QElem := fun e => mkQElem (data e) (qNext e).

Record SEC_QUEUE := mkQueue {
  nodes : gmap nat SEC_QElem;
  first : option nat;
  last : option nat;
  numElem : Z;
  qMutex : mutex
}.
#[export] Instance SEC_QUEUE_eta : RecEta SEC_QUEUE :=
  fun q => mkQueue (nodes q) (first q) (last q) (numElem q) (qMutex q).

(** A queue structure as [memset] to zero leaves it. *)
Definition queue_zero : SEC_QUEUE := mkQueue ∅ None None 0 None.

(** [p->...] for a node pointer. *)
Definition node (q : SEC_QUEUE) (p : option nat) : option SEC_QElem :=
  p ≫= fun i => nodes q !! i.

(** The clean-up loop of a failed creation:
    [while (queue->first != NULL) { cur = first->qNext; free(first); first = cur; }]. *)
Fixpoint free_chain (fuel : nat) (q : SEC_QUEUE) : option SEC_QUEUE :=
  match fuel with
  | O => None
  | S fuel =>
      match first q with
      | None => Some q
      | Some p =>
          e ← nodes q !! p;
          free_chain fuel q<|nodes ::= delete p|><|first := qNext e|>
      end
  end.

(** The allocation loop, from node [cur] on with [k] nodes to go; a node is
    named by the number of the [malloc] that returned it. *)
Fixpoint create_loop (os : oracle) (n : nat) (k : nat) (cur : nat) (q : SEC_QUEUE)
  : option (OMX_ERRORTYPE * nat * SEC_QUEUE) :=
  match k with
  | O =>
      (* currentqelem->qNext = queue->first; *)
      e ← nodes q !! cur;
      Some (OMX_ErrorNone, n, q<|nodes ::= <[cur := e<|qNext := first q|>]>|>)
  | S k =>
      if negb (os n) then
        q' ← free_chain (S (size (nodes q))) q;
        Some (OMX_ErrorInsufficientResources, S n, q')
      else
        e ← nodes q !! cur;
        create_loop os (S n) k n
          q<|nodes ::= fun m => <[n := mkQElem None None]> (<[cur := e<|qNext := Some n|>]> m)|>
  end.

Definition queue_create (os : oracle) (n : nat) (q : SEC_QUEUE)
  : option (OMX_ERRORTYPE * nat * SEC_QUEUE) :=
  let '(ret, n, m) := SEC_OSAL_MutexCreate os n (qMutex q) in
  let q := q<|qMutex := m|> in
  if is_err ret then Some (ret, n, q)
  else if negb (os n) then
    Some (OMX_ErrorInsufficientResources, S n, q<|first := None|>)
  else
    let q := q<|nodes := {[ n := mkQElem None None ]}|>
              <|first := Some n|><|last := Some n|><|numElem := 0|> in
    create_loop os (S n) (Z.to_nat (MAX_QUEUE_ELEMENTS - 2)) n q.

(** [for (i = 0; i < MAX_QUEUE_ELEMENTS - 2; i++) { cur = first->qNext;
    free(first); first = cur; }] *)
Fixpoint terminate_loop (k : nat) (q : SEC_QUEUE) : option SEC_QUEUE :=
  match k with
  | O => Some q
  | S k =>
      p ← first q; e ← nodes q !! p;
      terminate_loop k q<|nodes ::= delete p|><|first := qNext e|>
  end.

Definition queue_terminate (os : oracle) (n : nat) (q : SEC_QUEUE)
  : option (OMX_ERRORTYPE * nat * SEC_QUEUE) :=
  q ← terminate_loop (Z.to_nat (MAX_QUEUE_ELEMENTS - 2)) q;
  let q := match first q with
           | Some p => q<|nodes ::= delete p|><|first := None|>
           | None => q
           end in
  let '(ret, n, m) := SEC_OSAL_MutexTerminate os n (qMutex q) in
  Some (ret, n, q<|qMutex := m|>).

Definition queue_put (q : SEC_QUEUE) (d : option A) : option (Z * SEC_QUEUE) :=
  e ← node q (last q);
  if (bool_decide (is_Some (data e)) || (MAX_QUEUE_ELEMENTS <=? numElem q))%bool
  then Some (-1, q)
  else
    p ← last q;
    Some (0, q<|nodes ::= <[p := e<|data := d|>]>|>
              <|last := qNext e|><|numElem ::= Z.add 1|>).

Definition queue_get (q : SEC_QUEUE) : option (option A * SEC_QUEUE) :=
  e ← node q (first q);
  if (bool_decide (data e = None) || (numElem q <=? 0))%bool
  then Some (None, q)
  else
    p ← first q;
    Some (data e, q<|nodes ::= <[p := e<|data := None|>]>|>
                   <|first := qNext e|><|numElem ::= fun k => k - 1|>).

(** The entry points, with their NULL checks. *)
Definition SEC_OSAL_QueueCreate (os : oracle) (n : nat) (queueHandle : option SEC_QUEUE)
  : option (OMX_ERRORTYPE * nat * option SEC_QUEUE) :=
  match queueHandle with
  | None => Some (OMX_ErrorBadParameter, n, None)
  | Some q => '(r, n, q) ← queue_create os n q; Some (r, n, Some q)
  end.

Definition SEC_OSAL_QueueTerminate (os : oracle) (n : nat) (queueHandle : option SEC_QUEUE)
  : option (OMX_ERRORTYPE * nat * option SEC_QUEUE) :=
  match queueHandle with
  | None => Some (OMX_ErrorBadParameter, n, None)
  | Some q => '(r, n, q) ← queue_terminate os n q; Some (r, n, Some q)
  end.

Definition SEC_OSAL_Queue (queueHandle : option SEC_QUEUE) (d : option A)
  : option (Z * option SEC_QUEUE) :=
  match queueHandle with
  | None => Some (-1, None)
  | Some q => '(r, q) ← queue_put q d; Some (r, Some q)
  end.

Definition SEC_OSAL_Dequeue (queueHandle : option SEC_QUEUE)
  : option (option A * option SEC_QUEUE) :=
  match queueHandle with
  | None => Some (None, None)
  | Some q => '(d, q) ← queue_get q; Some (d, Some q)
  end.

Definition SEC_OSAL_GetElemNum (queueHandle : option SEC_QUEUE) : Z :=
  match queueHandle with None => -1 | Some q => numElem q end.

Definition SEC_OSAL_SetElemNum (queueHandle : option SEC_QUEUE) (ElemNum : Z)
  : Z * option SEC_QUEUE :=
  match queueHandle with
  | None => (-1, None)
  | Some q => (ElemNum, Some q<|numElem := ElemNum|>)
  end.

(** ** Refinement to a bounded FIFO

    [queue_repr q l]: walking the ring from [first], the nodes hold the
    elements of [l] and then NULL; [last] is the node after them. *)
Definition queue_repr (q : SEC_QUEUE) (l : list A) : Prop :=
  exists ring : list nat,
    NoDup ring /\ length ring = ring_size /\ (length l <= ring_size)%nat /\
    first q = ring !! 0%nat /\
    last q = ring !! (length l mod ring_size)%nat /\
    numElem q = Z.of_nat (length l) /\
    dom (nodes q) = list_to_set ring /\
    (forall i p, ring !! i = Some p ->
       nodes q !! p = Some (mkQElem (l !! i) (ring !! (S i mod ring_size)%nat))).

#[local] Arguments Nat.modulo : simpl never.

Lemma ring_size_pos : (0 < ring_size)%nat.
Proof. unfold ring_size, MAX_QUEUE_ELEMENTS. lia. Qed.

Lemma snoc_lookup_ne (l : list A) x i : i <> length l -> (l ++ [x]) !! i = l !! i.
Proof.
  intros. destruct (decide (i < length l)%nat); [by apply lookup_app_l|].
  rewrite !(proj2 (lookup_ge_None _ _)); [done|lia|]. rewrite length_app. simpl. lia.
Qed.

(** [SEC_OSAL_Queue] appends, or refuses when nine elements are queued. *)
Lemma queue_put_repr q l x :
  queue_repr q l ->
  exists r q', queue_put q (Some x) = Some (r, q') /\
    if decide (length l < ring_size)%nat
    then r = 0 /\ queue_repr q' (l ++ [x]) else r = -1 /\ q' = q.
Proof.
  pose proof ring_size_pos as Hpos.
  intros (ring & Hnd & Hlen & Hle & Hf & Hl & Hn & Hdom & Hnodes).
  destruct (lookup_lt_is_Some_2 ring (length l mod ring_size)) as [p Hp].
  { rewrite Hlen. apply Nat.mod_upper_bound. lia. }
  pose proof (Hnodes _ _ Hp) as Hnode.
  unfold queue_put, node. rewrite Hl, Hp. simpl. rewrite Hnode. simpl.
  case_decide as Hlt.
  - rewrite Nat.mod_small in Hnode, Hp by done. rewrite (Nat.mod_small (length l)) by done.
    rewrite (proj2 (lookup_ge_None l (length l))) in * by lia.
    rewrite bool_decide_eq_false_2 by (apply is_Some_None).
    rewrite Hn, (proj2 (Z.leb_gt _ _)) by (unfold ring_size, MAX_QUEUE_ELEMENTS in *; lia).
    simpl. eexists _, _. split; [done|]. split; [done|].
    exists ring. rewrite length_app. simpl. repeat split; try done; try lia.
    + by replace (length l + 1)%nat with (S (length l)) by lia.
    + rewrite dom_insert_L, Hdom. apply list_elem_of_lookup_2 in Hp. set_solver.
    + intros i p' Hi. destruct (decide (i = length l)) as [->|Hne].
      * simplify_eq. rewrite lookup_insert_eq. by rewrite list_lookup_middle.
      * rewrite lookup_insert_ne by (intros ->; apply Hne; by eapply NoDup_lookup).
        rewrite (Hnodes _ _ Hi). f_equal. by rewrite snoc_lookup_ne.
  - assert (length l = ring_size) as Heq by lia.
    rewrite Heq, Nat.Div0.mod_same.
    destruct (lookup_lt_is_Some_2 l 0) as [y ->]; [lia|].
    rewrite bool_decide_eq_true_2 by eauto. simpl. by eexists _, _.
Qed.

(** [SEC_OSAL_Dequeue] returns and removes the oldest element, or NULL. *)
Lemma queue_get_repr q l :
  queue_repr q l ->
  exists q', queue_get q = Some (head l, q') /\
    match l with [] => q' = q | _ :: l' => queue_repr q' l' end.
Proof.
  pose proof ring_size_pos as Hpos.
  intros (ring & Hnd & Hlen & Hle & Hf & Hl & Hn & Hdom & Hnodes).
  destruct ring as [|p ring]; [simpl in *; lia|].
  pose proof (Hnodes 0%nat p eq_refl) as Hnode.
  unfold queue_get, node. rewrite Hf. simpl. rewrite Hnode. simpl.
  destruct l as [|x l']; simpl in *.
  { by eexists. }
  rewrite Hn, (proj2 (Z.leb_gt _ _)) by lia. simpl.
  eexists. split; [done|].
  apply NoDup_cons in Hnd as [Hp Hnd].
  exists (ring ++ [p]). rewrite length_app. simpl.
  assert (forall i, (S i < ring_size)%nat -> (p :: ring) !! S i = (ring ++ [p]) !! i) as Hsh.
  { intros i ?. simpl. rewrite lookup_app_l; [done|lia]. }
  assert (forall i, (i < ring_size)%nat ->
            (p :: ring) !! (S i mod ring_size)%nat = (ring ++ [p]) !! i) as Hshm.
  { intros i ?. destruct (decide (S i < ring_size)%nat).
    - rewrite Nat.mod_small by done. by apply Hsh.
    - replace (S i) with ring_size by lia. rewrite Nat.Div0.mod_same. simpl.
      rewrite lookup_app_r by lia. by replace (i - length ring)%nat with 0%nat by lia. }
  repeat split; try done; try lia.
  - apply NoDup_app. split_and!; [done|set_solver|apply NoDup_singleton].
  - simpl. apply (Hshm 0%nat). lia.
  - simpl. rewrite Hl, (Hshm (length l')) by lia. by rewrite Nat.mod_small by lia.
  - rewrite dom_insert_L, Hdom. set_solver.
  - intros i p' Hi. destruct (decide (i < length ring)%nat).
    + rewrite lookup_app_l in Hi by done.
      rewrite lookup_insert_ne by (intros ->; apply Hp; by eapply list_elem_of_lookup_2).
      rewrite (Hnodes (S i) p') by done. simpl. do 2 f_equal.
      rewrite (Nat.mod_small (S i)) by lia. apply Hshm. lia.
    + assert (i = length ring) as ->.
      { apply lookup_lt_Some in Hi. rewrite length_app in Hi. simpl in Hi. lia. }
      rewrite list_lookup_middle in Hi by done. simplify_eq.
      rewrite lookup_insert_eq. f_equal. unfold set_field. simpl. f_equal.
      * symmetry. apply lookup_ge_None. lia.
      * replace (S (length ring)) with ring_size by lia.
        rewrite Nat.Div0.mod_same, <- (Hshm 0%nat) by lia.
        rewrite Nat.mod_small; [done|]. unfold ring_size, MAX_QUEUE_ELEMENTS. lia.
Qed.

(** ** Creation and termination

    [linked m ns nxt]: the nodes [ns] are linked in that order and the last of
    them points to [nxt]; [chain q ns nxt]: they are all the nodes of [q]. *)
Definition succ_of (ns : list nat) (nxt : option nat) : option nat :=
  match ns with r :: _ => Some r | [] => nxt end.

Fixpoint linked (m : gmap nat SEC_QElem) (ns : list nat) (nxt : option nat) : Prop :=
  match ns with
  | [] => True
  | p :: ns => (exists d, m !! p = Some (mkQElem d (succ_of ns nxt))) /\ linked m ns nxt
  end.

Definition chain (q : SEC_QUEUE) (ns : list nat) (nxt : option nat) : Prop :=
  NoDup ns /\ dom (nodes q) = list_to_set ns /\ linked (nodes q) ns nxt.

Lemma linked_app m ns ms nxt :
  linked m (ns ++ ms) nxt <-> linked m ns (succ_of ms nxt) /\ linked m ms nxt.
Proof.
  induction ns as [|p ns IH]; simpl; [tauto|]. rewrite IH.
  destruct ns; simpl; tauto.
Qed.

Lemma linked_insert_ne m p e ns nxt : p ∉ ns -> linked m ns nxt -> linked (<[p := e]> m) ns nxt.
Proof.
  induction ns as [|r ns IH]; simpl; [done|]. intros Hp [[d Hd] Hl].
  split; [exists d; rewrite lookup_insert_ne by set_solver; done|].
  apply IH; set_solver.
Qed.

Lemma linked_delete_ne m p ns nxt : p ∉ ns -> linked m ns nxt -> linked (delete p m) ns nxt.
Proof.
  induction ns as [|r ns IH]; simpl; [done|]. intros Hp [[d Hd] Hl].
  split; [exists d; rewrite lookup_delete_ne by set_solver; done|].
  apply IH; set_solver.
Qed.

Lemma chain_delete q p ns nxt f :
  chain q (p :: ns) nxt -> chain q<|nodes ::= delete p|><|first := f|> ns nxt.
Proof.
  intros ([Hp Hnd]%NoDup_cons & Hdom & [_ Hl]). split; [done|]. simpl.
  split; [rewrite dom_delete_L, Hdom; set_solver|by apply linked_delete_ne].
Qed.

Lemma chain_nil_nodes q nxt : chain q [] nxt -> nodes q = ∅.
Proof. intros (_ & Hdom & _). by apply dom_empty_inv_L. Qed.

(** Redirecting the last node, and appending a fresh one. *)
Lemma chain_close q ns cur e nxt nxt' :
  chain q (ns ++ [cur]) nxt -> nodes q !! cur = Some e ->
  chain q<|nodes ::= <[cur := e<|qNext := nxt'|>]>|> (ns ++ [cur]) nxt'.
Proof.
  intros (Hnd & Hdom & Hl) He. split; [done|]. simpl.
  apply NoDup_app in Hnd as (_ & Hnin & _).
  apply linked_app in Hl as [Hl _]. split.
  { rewrite dom_insert_L, Hdom. set_solver. }
  apply linked_app. split; [apply linked_insert_ne; set_solver|]. simpl. split; [|done].
  exists (data e). by rewrite lookup_insert_eq.
Qed.

Lemma chain_snoc q ns cur e nxt nxt' n :
  chain q (ns ++ [cur]) nxt -> nodes q !! cur = Some e -> n ∉ ns ++ [cur] ->
  chain q<|nodes ::= fun m => <[n := mkQElem None nxt']> (<[cur := e<|qNext := Some n|>]> m)|>
    ((ns ++ [cur]) ++ [n]) nxt'.
Proof.
  intros Hc He Hn. apply (chain_close _ _ _ e _ (Some n)) in Hc as (Hnd & Hdom & Hl); [|done].
  split; [apply NoDup_app; split_and!; [done|set_solver|apply NoDup_singleton]|]. simpl in *.
  split; [rewrite dom_insert_L, Hdom; set_solver|].
  apply linked_app. split; [by apply linked_insert_ne|]. simpl. split; [|done].
  exists None. by rewrite lookup_insert_eq.
Qed.

Lemma free_chain_spec ns : forall q fuel,
  chain q ns None -> first q = succ_of ns None -> (length ns < fuel)%nat ->
  exists q', free_chain fuel q = Some q' /\ nodes q' = ∅ /\ first q' = None.
Proof.
  induction ns as [|p ns IH]; intros q fuel Hc Hf Hfuel; (destruct fuel as [|fuel]; [lia|]);
    simpl in *; rewrite Hf.
  { exists q. split; [done|]. split; [by eapply chain_nil_nodes|done]. }
  pose proof Hc as (_ & _ & [[d ->] _]). simpl.
  apply IH; [by eapply chain_delete|done|lia].
Qed.

(** All nodes of the queue under construction are empty. *)
Definition all_empty (q : SEC_QUEUE) : Prop :=
  forall p e, nodes q !! p = Some e -> data e = None.

Lemma all_empty_insert q p e m :
  all_empty q -> data e = None -> m = <[p := e]> (nodes q) -> all_empty q<|nodes := m|>.
Proof.
  intros Hq He -> r e'. simpl. destruct (decide (r = p)) as [->|].
  - rewrite lookup_insert_eq. by intros [= <-].
  - rewrite lookup_insert_ne by done. apply Hq.
Qed.

Definition created (q q' : SEC_QUEUE) (len : nat) : Prop :=
  exists ns, length ns = len /\ succ_of ns None = first q /\ chain q' ns (first q) /\
    first q' = first q /\ last q' = last q /\ numElem q' = numElem q /\ all_empty q'.

Lemma create_loop_spec os k : forall n cur q ns,
  chain q (ns ++ [cur]) None -> first q = succ_of (ns ++ [cur]) None ->
  (forall p, p ∈ ns ++ [cur] -> (p < n)%nat) -> all_empty q ->
  exists r n' q', create_loop os n k cur q = Some (r, n', q') /\
    if is_err r then nodes q' = ∅ /\ first q' = None
    else created q q' (S (length ns) + k).
Proof.
  induction k as [|k IH]; intros n cur q ns Hc Hf Hfresh Hdat;
    pose proof Hc as (Hnd & Hdom & Hl); apply linked_app in Hl as [_ [[d Hd] _]]; simpl in *.
  - rewrite Hd. simpl. eexists _, _, _. split; [done|]. simpl.
    exists (ns ++ [cur]). rewrite length_app. simpl. split_and!; try done; try lia.
    + by eapply chain_close.
    + eapply all_empty_insert; [done| |done]. apply (Hdat _ _ Hd).
  - destruct (os n); simpl.
    + rewrite Hd. simpl.
      assert (n ∉ ns ++ [cur]) as Hnin by (intros Hin%Hfresh; lia).
      match goal with |- context [create_loop os (S n) k n ?q1] =>
        destruct (IH (S n) n q1 (ns ++ [cur])) as (r & n' & q' & Hrun & Hres) end;
        [by eapply chain_snoc| | | |exists r, n', q'; split; [exact Hrun|]].
      * simpl. rewrite Hf. by destruct ns.
      * intros p [Hp%Hfresh|Hp]%elem_of_app; [lia|]. apply list_elem_of_singleton in Hp. lia.
      * apply (all_empty_insert q<|nodes ::= <[cur := mkQElem d (Some n)]>|> n (mkQElem None None));
          [|done|done].
        eapply all_empty_insert; [done| |done]. apply (Hdat _ _ Hd).
      * destruct (is_err r); [done|]. destruct Hres as (ns' & Hl' & Hrest). exists ns'.
        rewrite length_app in Hl'. simpl in Hl'. split; [lia|done].
    + destruct (free_chain_spec _ q (S (size (nodes q))) Hc Hf) as (q' & Hq' & He & Hf').
      { rewrite <- (size_dom (D := gset nat)), Hdom, size_list_to_set by done. lia. }
      eexists _, _, q'. simpl in Hq'. rewrite Hq'. done.
Qed.

(** A created queue is empty; a failed creation leaves no node behind. *)
Lemma queue_create_repr os n q :
  nodes q = ∅ -> 
  exists r n' q', queue_create os n q = Some (r, n', q') /\
    if is_err r then nodes q' = ∅ else queue_repr q' [].
Proof.
  intros He. unfold queue_create, SEC_OSAL_MutexCreate.
  destruct (os n); cbn [negb is_err]; [|by eexists _, _, _].
  destruct (os (S n)); cbn [negb is_err]; [|by eexists _, _, _].
  destruct (os (S (S n))) eqn:Hos; cbn [negb is_err]; [|by eexists _, _, _].
  match goal with |- context [create_loop os ?m ?k ?c ?q1] =>
    destruct (create_loop_spec os k m c q1 []) as (r & n' & q' & -> & Hres) end.
  - split; [apply NoDup_singleton|]. split; simpl; [set_solver|].
    split; [|done]. exists None. by rewrite lookup_singleton_eq.
  - done.
  - intros p Hp. simpl in Hp. apply list_elem_of_singleton in Hp. lia.
  - intros p e. simpl. rewrite lookup_singleton_Some. by intros [_ <-].
  - eexists _, _, _. split; [done|]. destruct (is_err r); [tauto|].
    destruct Hres as (ns & Hlen & Hh & (Hnd & Hdom & Hl) & Hf & Hla & Hn & Hd).
    simpl in *. exists ns. fold ring_size in *.
    assert (length ns = ring_size) as Hlen' by (rewrite Hlen; done).
    split_and!; try done; simpl.
    + lia.
    + rewrite Hf. destruct ns; [done|]. by simpl in *; simplify_eq.
    + rewrite Hla. destruct ns; [done|]. by simpl in *; simplify_eq.
    + intros i p Hi. apply lookup_lt_Some in Hi as Hlt.
      rewrite <- (take_drop_middle ns i p Hi) in Hl. apply linked_app in Hl as [_ [[d Hp] _]].
      rewrite Hp. pose proof (Hd _ _ Hp) as Hdd. simpl in Hdd. subst d.
      f_equal. f_equal. destruct (decide (S i < ring_size)%nat).
      * rewrite Nat.mod_small by done. destruct (drop (S i) ns) as [|x ?] eqn:Hdr.
        { apply (f_equal length) in Hdr. rewrite length_drop in Hdr. simpl in Hdr. lia. }
        simpl. by rewrite <- (Nat.add_0_r (S i)), <- lookup_drop, Hdr.
      * assert (S i = ring_size) as -> by lia. rewrite Nat.Div0.mod_same.
        rewrite drop_ge by lia. simpl. by destruct ns; simpl in *.
Qed.

(** Creation succeeds when every allocation does. *)
Lemma create_loop_none os k : (forall n, os n = true) -> forall n cur q r n' q',
  create_loop os n k cur q = Some (r, n', q') -> r = OMX_ErrorNone.
Proof.
  intros Hos. induction k as [|k IH]; intros n cur q r n' q'; simpl.
  - destruct (nodes q !! cur); simpl; [|done]. by intros [= <- _ _].
  - rewrite Hos. simpl. destruct (nodes q !! cur); simpl; [|done]. apply IH.
Qed.

Lemma queue_create_none os n q :
  (forall n, os n = true) -> nodes q = ∅ ->
  exists n' q', queue_create os n q = Some (OMX_ErrorNone, n', q') /\ queue_repr q' [].
Proof.
  intros Hos He. destruct (queue_create_repr os n q He) as (r & n' & q' & Hr & Hq).
  assert (r = OMX_ErrorNone) as ->; [|by exists n', q'].
  revert Hr. unfold queue_create, SEC_OSAL_MutexCreate. rewrite !Hos. cbn [negb].
  change (is_err OMX_ErrorNone) with false. cbn iota. rewrite Hos. cbn [negb].
  by apply create_loop_none.
Qed.

(** Termination of a queue, whatever it holds, frees every node. *)
Lemma terminate_loop_spec ns p : forall q nxt,
  chain q (ns ++ [p]) nxt -> first q = succ_of (ns ++ [p]) None ->
  exists q', terminate_loop (length ns) q = Some q' /\ first q' = Some p /\
    dom (nodes q') = {[p]} /\ qMutex q' = qMutex q.
Proof.
  induction ns as [|r ns IH]; simpl; intros q nxt Hc Hf.
  - exists q. destruct Hc as (_ & Hdom & _). rewrite Hdom. set_solver.
  - rewrite Hf. simpl. pose proof Hc as (_ & _ & [[d Hd] _]). rewrite Hd. simpl.
    match goal with |- context [terminate_loop _ ?q1] =>
      destruct (IH q1 nxt) as (q' & Hq') end;
      [by eapply chain_delete|by destruct ns|by exists q'].
Qed.

Lemma queue_terminate_repr os n q l :
  queue_repr q l ->
  exists r n' q', queue_terminate os n q = Some (r, n', q') /\ nodes q' = ∅ /\ first q' = None.
Proof.
  intros (ring & Hnd & Hlen & _ & Hf & _ & _ & Hdom & Hn).
  assert (exists ns p, ring = ns ++ [p]) as (ns & p & ->).
  { destruct ring as [|p ns _] using rev_ind; [done|eauto]. }
  unfold queue_terminate.
  assert (chain q (ns ++ [p]) ((ns ++ [p]) !! 0%nat)) as Hc.
  { split; [done|]. split; [done|]. clear Hnd Hdom Hf.
    assert (forall k ms, ns ++ [p] = k ++ ms -> linked (nodes q) ms ((ns ++ [p]) !! 0%nat)) as Hgen;
      [|by apply (Hgen [])].
    intros k ms. revert k. induction ms as [|x ms IH]; intros k Heq; simpl; [done|].
    split; [|apply (IH (k ++ [x])); by rewrite Heq, <- app_assoc].
    exists (l !! length k). rewrite (Hn (length k) x) by (rewrite Heq; by apply list_lookup_middle).
    do 2 f_equal. pose proof Hlen as Hl2. rewrite Heq, length_app in Hl2. simpl in Hl2.
    destruct ms as [|y ms]; simpl in *.
    - replace (S (length k)) with ring_size by lia. by rewrite Nat.Div0.mod_same.
    - rewrite Nat.mod_small by lia. rewrite Heq.
      rewrite lookup_app_r by lia. by replace (S (length k) - length k)%nat with 1%nat by lia. }
  rewrite length_app in Hlen. simpl in Hlen.
  replace (Z.to_nat (MAX_QUEUE_ELEMENTS - 2)) with (length ns)
    by (unfold ring_size, MAX_QUEUE_ELEMENTS in *; lia).
  destruct (terminate_loop_spec ns p q _ Hc) as (q' & -> & Hf' & Hd' & _).
  { rewrite Hf. by destruct ns. }
  simpl. rewrite Hf'. destruct (SEC_OSAL_MutexTerminate _ _ _) as [[r n'] m].
  eexists _, _, _. split; [done|]. simpl. split; [|done].
  apply dom_empty_inv_L. rewrite dom_delete_L, Hd'. set_solver.
Qed.

(** ** The abstract queue and the simulation

    The specification clients rely on: a bounded FIFO. *)
Inductive queue_op :=
| OpQueue (x : A)
| OpDequeue
| OpGetElemNum.

Inductive queue_ans :=
| AnsCode (r : Z)
| AnsData (d : option A).

Definition fifo_step (op : queue_op) (l : list A) : queue_ans * list A :=
  match op with
  | OpQueue x => if decide (length l < ring_size)%nat then (AnsCode 0, l ++ [x]) else (AnsCode (-1), l)
  | OpDequeue => (AnsData (head l), tail l)
  | OpGetElemNum => (AnsCode (Z.of_nat (length l)), l)
  end.

Definition ring_step (op : queue_op) (q : SEC_QUEUE) : option (queue_ans * SEC_QUEUE) :=
  match op with
  | OpQueue x => '(r, h) ← SEC_OSAL_Queue (Some q) (Some x); h ← h; Some (AnsCode r, h)
  | OpDequeue => '(d, h) ← SEC_OSAL_Dequeue (Some q); h ← h; Some (AnsData d, h)
  | OpGetElemNum => Some (AnsCode (SEC_OSAL_GetElemNum (Some q)), q)
  end.

Fixpoint fifo_run (ops : list queue_op) (l : list A) : list queue_ans :=
  match ops with
  | [] => []
  | op :: ops => let '(a, l) := fifo_step op l in a :: fifo_run ops l
  end.

Fixpoint ring_run (ops : list queue_op) (q : SEC_QUEUE) : option (list queue_ans) :=
  match ops with
  | [] => Some []
  | op :: ops => '(a, q) ← ring_step op q; rest ← ring_run ops q; Some (a :: rest)
  end.

Lemma ring_step_sim op q l :
  queue_repr q l ->
  exists q', ring_step op q = Some ((fifo_step op l).1, q') /\ queue_repr q' (fifo_step op l).2.
Proof.
  intros Hq. destruct op as [x| |]; simpl.
  - destruct (queue_put_repr q l x Hq) as (r & q' & -> & Hr). simpl.
    exists q'. case_decide; destruct Hr as [-> Hr]; [done|]. by rewrite Hr.
  - destruct (queue_get_repr q l Hq) as (q' & -> & Hr). simpl.
    exists q'. split; [done|]. destruct l; [by rewrite Hr|done].
  - exists q. split; [|done]. by destruct Hq as (? & _ & _ & _ & _ & _ & -> & _).
Qed.

Lemma ring_run_sim ops : forall q l, queue_repr q l -> ring_run ops q = Some (fifo_run ops l).
Proof.
  induction ops as [|op ops IH]; intros q l Hq; simpl; [done|].
  destruct (ring_step_sim op q l Hq) as (q' & -> & Hq').
  destruct (fifo_step op l) as [a l']. simpl in *. by rewrite (IH q' l').
Qed.

(** C1: a freshly created OSAL queue, driven by any sequence of
    [SEC_OSAL_Queue], [SEC_OSAL_Dequeue] and [SEC_OSAL_GetElemNum] calls,
    never touches an invalid node and answers exactly as a FIFO of capacity
    nine (not the ten of [MAX_QUEUE_ELEMENTS]); when the creation fails, no
    node is leaked. *)
Theorem queue_refines_fifo os n q ops :
  nodes q = ∅ ->
  exists r n' q', queue_create os n q = Some (r, n', q') /\
    if is_err r then nodes q' = ∅ else ring_run ops q' = Some (fifo_run ops []).
Proof.
  intros He. destruct (queue_create_repr os n q He) as (r & n' & q' & Hr & Hq').
  exists r, n', q'. split; [done|]. destruct (is_err r); [done|]. by apply ring_run_sim.
Qed.

(** from any state such a sequence can reach, [SEC_OSAL_QueueTerminate]
    frees every node of the ring, with no double free and no leak. *)
Theorem queue_terminate_frees os n q l :
  queue_repr q l ->
  exists r n' q', SEC_OSAL_QueueTerminate os n (Some q) = Some (r, n', Some q') /\
    nodes q' = ∅ /\ first q' = None.
Proof.
  intros Hq. destruct (queue_terminate_repr os n q l Hq) as (r & n' & q' & Hr & Hq').
  exists r, n', q'. unfold SEC_OSAL_QueueTerminate. by rewrite Hr.
Qed.

End queue.
Arguments SEC_QElem : clear implicits.
Arguments SEC_QUEUE : clear implicits.

Lemma queue_refines_fifo_witness :
  exists r n' q', queue_create (fun _ => true) 0 (queue_zero (A := Z)) = Some (r, n', q') /\
    if is_err r then nodes q' = ∅
    else ring_run [OpQueue 5; OpQueue 7; OpDequeue; OpGetElemNum] q'
         = Some [AnsCode 0; AnsCode 0; AnsData (Some 5); AnsCode 1].
Proof.
  exact (queue_refines_fifo (fun _ => true) 0 queue_zero
           [OpQueue 5; OpQueue 7; OpDequeue; OpGetElemNum] eq_refl).
Defined.

(** A ring holding one element, for the witness below. *)
Definition sample_queue : SEC_QUEUE Z :=
  mkQueue (list_to_map ((fun i => (i, mkQElem (if decide (i = 0)%nat then Some 5 else None)
                                        (Some (S i mod 9)%nat))) <$> seq 0 9))
          (Some 0%nat) (Some 1%nat) 1 (Some false).

Lemma queue_terminate_frees_witness :
  queue_repr sample_queue [5] /\
  exists r n' q', SEC_OSAL_QueueTerminate (fun _ => true) 0 (Some sample_queue) = Some (r, n', Some q') /\
    nodes q' = ∅ /\ first q' = None.
Proof.
  assert (queue_repr sample_queue [5]) as Hq.
  { exists (seq 0 9). split; [apply NoDup_seq|].
    split; [done|]. split; [unfold ring_size, MAX_QUEUE_ELEMENTS; simpl; lia|].
    split_and!; [done|done|done|by vm_compute|].
    intros i p Hi. apply lookup_seq in Hi as [-> Hlt]. simpl.
    do 9 (destruct i as [|i]; [by vm_compute|]). lia. }
  split; [exact Hq|]. exact (queue_terminate_frees _ 0 _ [5] Hq).
Defined.
