(* ===== verification/OmxTypes.v ===== *)
(** * The data of the OpenMAX framework

    The structures of [include/khronos/OMX_Core.h], [OMX_Component.h],
    [OMX_Video.h], [component/common/SEC_OMX_Baseport.h] and
    [SEC_OMX_Basecomponent.h], field by field and with the names of the source.

    A component handle and a buffer header pointer are keys ([nat]) of the
    tables of OmxState; a pointer that owns its object is a [ptr].  [OMX_BOOL]
    is [bool] ([true] for [OMX_TRUE]); the union of port formats is its video
    member, the only one the framework uses.  Function pointers of the
    component are in the interface [ComponentOps] of OmxState instead. *)
From S2P Require Import Prelude Machine OmxEnums OsalSync OsalQueue.

(** A pointer that owns its object: NULL, pointing to freed memory, or valid. *)
Inductive ptr (A : Type) :=
| Null
| Dangling
| Ptr (a : A).
Arguments Null {A}.
Arguments Dangling {A}.
Arguments Ptr {A} _.

Definition ptr_get {A} (p : ptr A) : option A :=
  match p with Ptr a => Some a | _ => None end.

(** ** Structures of the OpenMAX IL interface *)
Record OMX_VERSIONTYPE := mkVersion {
  nVersionMajor : Z;
  nVersionMinor : Z;
  nRevision : Z;
  nStep : Z
}.
#[export] Instance OMX_VERSIONTYPE_eta : RecEta OMX_VERSIONTYPE := fun r =>
  mkVersion (nVersionMajor r) (nVersionMinor r) (nRevision r) (nStep r).

(** The [nSize] and [nVersion] every parameter structure starts with. *)
Abbreviation omx_header := (Z * OMX_VERSIONTYPE)%type.

(** What [INIT_SET_SIZE_VERSION] writes, for a structure of the given size. *)
Definition INIT_SET_SIZE_VERSION (size : Z) : omx_header := (size, mkVersion 1 0 0 0).
Definition version_zero : OMX_VERSIONTYPE := mkVersion 0 0 0 0.

Inductive OMX_PORTDOMAINTYPE :=
| OMX_PortDomainAudio | OMX_PortDomainVideo | OMX_PortDomainImage
| OMX_PortDomainOther | OMX_PortDomainMax.

Record OMX_MARKTYPE := mkMark {
  hMarkTargetComponent : option nat;
  pMarkData : Z
}.
#[export] Instance OMX_MARKTYPE_eta : RecEta OMX_MARKTYPE := fun r =>
  mkMark (hMarkTargetComponent r) (pMarkData r).

Definition mark_zero : OMX_MARKTYPE := mkMark None 0.

(** [cMIMEType] is the address of the string, 0 for NULL; the native handles are only
    copied along. *)
Record OMX_VIDEO_PORTDEFINITIONTYPE := mkVideoDef {
  cMIMEType : Z;
  pNativeRender : Z;
  nFrameWidth : Z;
  nFrameHeight : Z;
  nStride : Z;
  nSliceHeight : Z;
  nBitrate : Z;
  xFramerate : Z;
  bFlagErrorConcealment : bool;
  eCompressionFormat : Z;
  eColorFormat : Z;
  pNativeWindow : Z
}.
#[export] Instance OMX_VIDEO_PORTDEFINITIONTYPE_eta : RecEta OMX_VIDEO_PORTDEFINITIONTYPE := fun r =>
  mkVideoDef (cMIMEType r) (pNativeRender r) (nFrameWidth r) (nFrameHeight r) (nStride r) (nSliceHeight r) (nBitrate r) 
    (xFramerate r) (bFlagErrorConcealment r) (eCompressionFormat r) (eColorFormat r) (pNativeWindow r).

Definition video_zero : OMX_VIDEO_PORTDEFINITIONTYPE :=
  mkVideoDef 0 0 0 0 0 0 0 0 false 0 0 0.

Record OMX_PARAM_PORTDEFINITIONTYPE := mkPortDef {
  pd_header : omx_header;
  nPortIndex : Z;
  eDir : OMX_DIRTYPE;
  nBufferCountActual : Z;
  nBufferCountMin : Z;
  nBufferSize : Z;
  bEnabled : bool;
  bPopulated : bool;
  eDomain : OMX_PORTDOMAINTYPE;
  format_video : OMX_VIDEO_PORTDEFINITIONTYPE;
  bBuffersContiguous : bool;
  nBufferAlignment : Z
}.
#[export] Instance OMX_PARAM_PORTDEFINITIONTYPE_eta : RecEta OMX_PARAM_PORTDEFINITIONTYPE := fun r =>
  mkPortDef (pd_header r) (nPortIndex r) (eDir r) (nBufferCountActual r) (nBufferCountMin r) 
    (nBufferSize r) (bEnabled r) (bPopulated r) (eDomain r) (format_video r) 
    (bBuffersContiguous r) (nBufferAlignment r).

Record OMX_PORT_PARAM_TYPE := mkPortParam {
  pp_header : omx_header;
  nPorts : Z;
  nStartPortNumber : Z
}.
#[export] Instance OMX_PORT_PARAM_TYPE_eta : RecEta OMX_PORT_PARAM_TYPE := fun r =>
  mkPortParam (pp_header r) (nPorts r) (nStartPortNumber r).

Record OMX_PRIORITYMGMTTYPE := mkPriorityMgmt {
  pm_header : omx_header;
  pm_nGroupPriority : Z;
  pm_nGroupID : Z
}.
#[export] Instance OMX_PRIORITYMGMTTYPE_eta : RecEta OMX_PRIORITYMGMTTYPE := fun r =>
  mkPriorityMgmt (pm_header r) (pm_nGroupPriority r) (pm_nGroupID r).

Record OMX_PARAM_BUFFERSUPPLIERTYPE := mkBufferSupplier {
  bs_header : omx_header;
  bs_nPortIndex : Z;
  eBufferSupplier : OMX_BUFFERSUPPLIERTYPE
}.
#[export] Instance OMX_PARAM_BUFFERSUPPLIERTYPE_eta : RecEta OMX_PARAM_BUFFERSUPPLIERTYPE := fun r =>
  mkBufferSupplier (bs_header r) (bs_nPortIndex r) (eBufferSupplier r).

Record OMX_VIDEO_PARAM_PORTFORMATTYPE := mkPortFormat {
  pf_header : omx_header;
  pf_nPortIndex : Z;
  pf_nIndex : Z;
  pf_eCompressionFormat : Z;
  pf_eColorFormat : Z;
  pf_xFramerate : Z
}.
#[export] Instance OMX_VIDEO_PARAM_PORTFORMATTYPE_eta : RecEta OMX_VIDEO_PARAM_PORTFORMATTYPE := fun r =>
  mkPortFormat (pf_header r) (pf_nPortIndex r) (pf_nIndex r) (pf_eCompressionFormat r)
    (pf_eColorFormat r) (pf_xFramerate r).

(** A native buffer of Android at its address; [anb_handle] is the gralloc handle. *)
Record android_native_buffer_t := mkANB {
  anb_address : Z;
  anb_width : Z;
  anb_height : Z;
  anb_stride : Z;
  anb_handle : Z
}.

(** The parameters of the Android extensions: [EnableAndroidNativeBuffersParams] and
    [StoreMetaDataInBuffersParams] (a port and a flag),
    [GetAndroidNativeBufferUsageParams] and [UseAndroidNativeBufferParams], whose
    [ub_bufferHeader] is what [*bufferHeader] holds. *)
Record AndroidFlagParams := mkFlagParams {
  fl_header : omx_header;
  fl_nPortIndex : Z;
  fl_enable : bool
}.
Record GetAndroidNativeBufferUsageParams := mkUsageParams {
  us_header : omx_header;
  us_nPortIndex : Z;
  us_nUsage : Z
}.
#[export] Instance GetAndroidNativeBufferUsageParams_eta : RecEta GetAndroidNativeBufferUsageParams := fun r =>
  mkUsageParams (us_header r) (us_nPortIndex r) (us_nUsage r).
Record UseAndroidNativeBufferParams := mkUseParams {
  ub_header : omx_header;
  ub_nPortIndex : Z;
  ub_pAppPrivate : Z;
  ub_bufferHeader : option nat;
  ub_nativeBuffer : option android_native_buffer_t
}.
#[export] Instance UseAndroidNativeBufferParams_eta : RecEta UseAndroidNativeBufferParams := fun r =>
  mkUseParams (ub_header r) (ub_nPortIndex r) (ub_pAppPrivate r) (ub_bufferHeader r) (ub_nativeBuffer r).

(** The parameters and configurations of an encoder that are read by port: the bit rate
    ([OMX_VIDEO_PARAM_BITRATETYPE]), the quantization, and the structures with one value,
    [OMX_VIDEO_CONFIG_BITRATETYPE], [OMX_CONFIG_FRAMERATETYPE] and
    [OMX_CONFIG_INTRAREFRESHVOPTYPE]. *)
Record OMX_VIDEO_PARAM_BITRATETYPE := mkBitrate {
  br_nPortIndex : Z;
  br_eControlRate : Z;
  br_nTargetBitrate : Z
}.
Record OMX_VIDEO_PARAM_INTRAREFRESHTYPE := mkIntraParam {
  ir_header : omx_header;
  ir_nPortIndex : Z;
  ir_eRefreshMode : Z;
  ir_nAirMBs : Z;
  ir_nAirRef : Z;
  ir_nCirMBs : Z
}.
#[export] Instance OMX_VIDEO_PARAM_INTRAREFRESHTYPE_eta : RecEta OMX_VIDEO_PARAM_INTRAREFRESHTYPE := fun r =>
  mkIntraParam (ir_header r) (ir_nPortIndex r) (ir_eRefreshMode r) (ir_nAirMBs r) (ir_nAirRef r) (ir_nCirMBs r).

Record OMX_CONFIG_RECTTYPE := mkRect {
  nLeft : Z;
  nTop : Z;
  nWidth : Z;
  nHeight : Z
}.
#[export] Instance OMX_CONFIG_RECTTYPE_eta : RecEta OMX_CONFIG_RECTTYPE := fun r =>
  mkRect (nLeft r) (nTop r) (nWidth r) (nHeight r).

(** [pBuffer] is the address of the payload, 0 for NULL. *)
Record OMX_BUFFERHEADERTYPE := mkHeader {
  bh_header : omx_header;
  pBuffer : Z;
  nAllocLen : Z;
  nFilledLen : Z;
  nOffset : Z;
  pAppPrivate : Z;
  bh_hMarkTargetComponent : option nat;
  bh_pMarkData : Z;
  nTimeStamp : Z;
  nFlags : Z;
  nOutputPortIndex : Z;
  nInputPortIndex : Z
}.
#[export] Instance OMX_BUFFERHEADERTYPE_eta : RecEta OMX_BUFFERHEADERTYPE := fun r =>
  mkHeader (bh_header r) (pBuffer r) (nAllocLen r) (nFilledLen r) (nOffset r) 
    (pAppPrivate r) (bh_hMarkTargetComponent r) (bh_pMarkData r) (nTimeStamp r) 
    (nFlags r) (nOutputPortIndex r) (nInputPortIndex r).

(** ** Structures of the SEC layer

    The [OMX_PTR] of a command: NULL ([None]), a mark or a buffer header. *)
Inductive omx_ptr :=
| PtrMark (m : OMX_MARKTYPE)
| PtrBuffer (b : nat).

Record SEC_OMX_MESSAGE := mkMessage {
  messageType : OMX_COMMANDTYPE;
  messageParam : Z;
  pCmdData : option omx_ptr
}.
#[export] Instance SEC_OMX_MESSAGE_eta : RecEta SEC_OMX_MESSAGE := fun r =>
  mkMessage (messageType r) (messageParam r) (pCmdData r).

(** What a [void *] of a buffer queue points to: a message, or the port itself
    (the supplier branch of [SEC_OMX_FlushPort] queues [pSECPort]). *)
Inductive queue_item :=
| ItemMessage (m : SEC_OMX_MESSAGE)
| ItemPort.

Record SEC_OMX_BASEPORT := mkBasePort {
  bufferHeader : ptr (list (option nat));
  bufferStateAllocate : ptr (list Z);
  portDefinition : OMX_PARAM_PORTDEFINITIONTYPE;
  bufferSemID : sem;
  bufferQ : SEC_QUEUE queue_item;
  assignedBufferNum : Z;
  portState : OMX_STATETYPE;
  loadedResource : sem;
  unloadedResource : sem;
  bIsPortFlushed : bool;
  bIsPortDisabled : bool;
  markType : OMX_MARKTYPE;
  cropRectangle : OMX_CONFIG_RECTTYPE;
  tunneledComponent : option nat;
  tunneledPort : Z;
  tunnelBufferNum : Z;
  bufferSupplier : OMX_BUFFERSUPPLIERTYPE;
  tunnelFlags : Z;
  bIsANBEnabled : bool;
  bStoreMetaData : bool
}.
#[export] Instance SEC_OMX_BASEPORT_eta : RecEta SEC_OMX_BASEPORT := fun r =>
  mkBasePort (bufferHeader r) (bufferStateAllocate r) (portDefinition r) (bufferSemID r) 
    (bufferQ r) (assignedBufferNum r) (portState r) (loadedResource r) 
    (unloadedResource r) (bIsPortFlushed r) (bIsPortDisabled r) (markType r) 
    (cropRectangle r) (tunneledComponent r) (tunneledPort r) (tunnelBufferNum r) 
    (bufferSupplier r) (tunnelFlags r) (bIsANBEnabled r) (bStoreMetaData r).

Record SEC_OMX_DATABUFFER := mkDataBuffer {
  bufferMutex : mutex;
  db_bufferHeader : option nat;
  dataValid : bool;
  db_allocSize : Z;
  db_dataLen : Z;
  db_usedDataLen : Z;
  db_remainDataLen : Z;
  db_nFlags : Z;
  db_timeStamp : Z
}.
#[export] Instance SEC_OMX_DATABUFFER_eta : RecEta SEC_OMX_DATABUFFER := fun r =>
  mkDataBuffer (bufferMutex r) (db_bufferHeader r) (dataValid r) (db_allocSize r) 
    (db_dataLen r) (db_usedDataLen r) (db_remainDataLen r) (db_nFlags r) 
    (db_timeStamp r).

Record SEC_OMX_DATA := mkData {
  pd_dataBuffer : Z;
  pd_allocSize : Z;
  pd_dataLen : Z;
  pd_usedDataLen : Z;
  pd_remainDataLen : Z;
  pd_previousDataLen : Z;
  pd_nFlags : Z;
  pd_timeStamp : Z
}.
#[export] Instance SEC_OMX_DATA_eta : RecEta SEC_OMX_DATA := fun r =>
  mkData (pd_dataBuffer r) (pd_allocSize r) (pd_dataLen r) (pd_usedDataLen r) 
    (pd_remainDataLen r) (pd_previousDataLen r) (pd_nFlags r) (pd_timeStamp r).

Record SEC_OMX_TIMESTAMP := mkTimeStamp {
  needSetStartTimeStamp : bool;
  needCheckStartTimeStamp : bool;
  startTimeStamp : Z;
  nStartFlags : Z
}.
#[export] Instance SEC_OMX_TIMESTAMP_eta : RecEta SEC_OMX_TIMESTAMP := fun r =>
  mkTimeStamp (needSetStartTimeStamp r) (needCheckStartTimeStamp r) (startTimeStamp r) 
    (nStartFlags r).

Record SEC_OMX_PRIORITYMGMTTYPE := mkPriority {
  nGroupPriority : Z;
  nGroupID : Z
}.
#[export] Instance SEC_OMX_PRIORITYMGMTTYPE_eta : RecEta SEC_OMX_PRIORITYMGMTTYPE := fun r =>
  mkPriority (nGroupPriority r) (nGroupID r).

(** The structure of a video decoder, without the handles of the codec's threads and
    buffers, which belong to the codec drivers. *)
Record SEC_OMX_VIDEODEC_COMPONENT := mkVideoDec {
  bThumbnailMode : bool;
  bFirstFrame : bool;
  indexInputBuffer : Z
}.
#[export] Instance SEC_OMX_VIDEODEC_COMPONENT_eta : RecEta SEC_OMX_VIDEODEC_COMPONENT := fun r =>
  mkVideoDec (bThumbnailMode r) (bFirstFrame r) (indexInputBuffer r).
Definition videodec_zero : SEC_OMX_VIDEODEC_COMPONENT := mkVideoDec false false 0.

(** The structure of a video encoder: what the client configures, and the addresses of the
    codec's input frames. *)
Record MFC_ENC_INPUT_BUFFER := mkEncInput {
  YVirAddr : Z;
  CVirAddr : Z
}.
Record quantization_t := mkQuantization {
  nQpI : Z;
  nQpP : Z;
  nQpB : Z
}.
Record intra_refresh_t := mkIntraRefresh {
  eRefreshMode : Z;
  nAirMBs : Z;
  nAirRef : Z;
  nCirMBs : Z
}.
#[export] Instance intra_refresh_t_eta : RecEta intra_refresh_t := fun r =>
  mkIntraRefresh (eRefreshMode r) (nAirMBs r) (nAirRef r) (nCirMBs r).
Record SEC_OMX_VIDEOENC_COMPONENT := mkVideoEnc {
  configChange : bool;
  IntraRefreshVOP : bool;
  eControlRate : list Z;
  quantization : quantization_t;
  intraRefresh : intra_refresh_t;
  MFCEncInputBuffer : list MFC_ENC_INPUT_BUFFER;
  enc_indexInputBuffer : Z
}.
#[export] Instance SEC_OMX_VIDEOENC_COMPONENT_eta : RecEta SEC_OMX_VIDEOENC_COMPONENT := fun r =>
  mkVideoEnc (configChange r) (IntraRefreshVOP r) (eControlRate r) (quantization r) (intraRefresh r)
    (MFCEncInputBuffer r) (enc_indexInputBuffer r).
Definition videoenc_zero : SEC_OMX_VIDEOENC_COMPONENT :=
  mkVideoEnc false false [0; 0] (mkQuantization 0 0 0) (mkIntraRefresh 0 0 0 0)
    [mkEncInput 0 0; mkEncInput 0 0] 0.

(** What [hComponentHandle] points to. *)
Inductive component_handle :=
| VideoDec (d : SEC_OMX_VIDEODEC_COMPONENT)
| VideoEnc (e : SEC_OMX_VIDEOENC_COMPONENT).

(** [compFlags] is the source's [nFlags] array.  [pCallbacks] names the client's
    callback table.  [hComponentHandle] is the [OMX_HANDLETYPE] of the video component's own
    structure. *)
Record SEC_OMX_BASECOMPONENT := mkBaseComponent {
  componentName : string;
  componentVersion : OMX_VERSIONTYPE;
  specVersion : OMX_VERSIONTYPE;
  currentState : OMX_STATETYPE;
  transientState : SEC_OMX_TRANS_STATETYPE;
  codecType : SEC_CODEC_TYPE;
  compPriority : SEC_OMX_PRIORITYMGMTTYPE;
  compMutex : mutex;
  bExitMessageHandlerThread : bool;
  hMessageHandler : option nat;
  msgSemaphoreHandle : sem;
  messageQ : SEC_QUEUE SEC_OMX_MESSAGE;
  bExitBufferProcessThread : bool;
  hBufferProcess : option nat;
  secDataBuffer : list SEC_OMX_DATABUFFER;
  processData : list SEC_OMX_DATA;
  portParam : OMX_PORT_PARAM_TYPE;
  pSECPort : ptr (list SEC_OMX_BASEPORT);
  pauseEvent : ptr SEC_OSAL_THREADEVENT;
  pCallbacks : option nat;
  callbackData : Z;
  timeStamp : list Z;
  checkTimeStamp : SEC_OMX_TIMESTAMP;
  compFlags : list Z;
  getAllDelayBuffer : bool;
  remainOutputData : bool;
  reInputData : bool;
  capabilityFlags : list bool;
  bUseFlagEOF : bool;
  bSaveFlagEOS : bool;
  propagateMarkType : OMX_MARKTYPE;
  hComponentHandle : ptr component_handle
}.
#[export] Instance SEC_OMX_BASECOMPONENT_eta : RecEta SEC_OMX_BASECOMPONENT := fun r =>
  mkBaseComponent (componentName r) (componentVersion r) (specVersion r) (currentState r) 
    (transientState r) (codecType r) (compPriority r) (compMutex r) 
    (bExitMessageHandlerThread r) (hMessageHandler r) (msgSemaphoreHandle r) 
    (messageQ r) (bExitBufferProcessThread r) (hBufferProcess r) (secDataBuffer r) 
    (processData r) (portParam r) (pSECPort r) (pauseEvent r) (pCallbacks r) 
    (callbackData r) (timeStamp r) (checkTimeStamp r) (compFlags r) 
    (getAllDelayBuffer r) (remainOutputData r) (reInputData r) (capabilityFlags r) 
    (bUseFlagEOF r) (bSaveFlagEOS r) (propagateMarkType r)
    (hComponentHandle r).

(** The public component structure: the header that every entry point checks
    and the private part. *)
Record OMX_COMPONENTTYPE := mkComponent {
  comp_header : omx_header;
  pComponentPrivate : ptr SEC_OMX_BASECOMPONENT
}.
#[export] Instance OMX_COMPONENTTYPE_eta : RecEta OMX_COMPONENTTYPE := fun r =>
  mkComponent (comp_header r) (pComponentPrivate r).

(** An element of a resource manager list; [pNext] is the list structure. *)
Record SEC_OMX_RM_COMPONENT_LIST := mkRMElem {
  pOMXStandComp : nat;
  groupPriority : Z
}.
#[export] Instance SEC_OMX_RM_COMPONENT_LIST_eta : RecEta SEC_OMX_RM_COMPONENT_LIST := fun r =>
  mkRMElem (pOMXStandComp r) (groupPriority r).

(** ** The states [memset] leaves *)
Definition portdef_zero : OMX_PARAM_PORTDEFINITIONTYPE :=
  mkPortDef (0, version_zero) 0 OMX_DirInput 0 0 0 false false OMX_PortDomainAudio
    video_zero false 0.

Definition port_zero : SEC_OMX_BASEPORT :=
  mkBasePort Null Null portdef_zero None queue_zero 0 OMX_StateInvalid None None false false
    mark_zero (mkRect 0 0 0 0) None 0 0 OMX_BufferSupplyUnspecified 0 false false.

Definition databuffer_zero : SEC_OMX_DATABUFFER := mkDataBuffer None None false 0 0 0 0 0 0.
Definition data_zero : SEC_OMX_DATA := mkData 0 0 0 0 0 0 0 0.

Definition component_zero : SEC_OMX_BASECOMPONENT :=
  mkBaseComponent EmptyString version_zero version_zero OMX_StateInvalid
    SEC_OMX_TransStateInvalid SW_CODEC (mkPriority 0 0) None false None None queue_zero false
    None (replicate 2 databuffer_zero) (replicate 2 data_zero)
    (mkPortParam (0, version_zero) 0 0) Null Null None 0
    (replicate (Z.to_nat MAX_TIMESTAMP) 0) (mkTimeStamp false false 0 0)
    (replicate (Z.to_nat MAX_FLAGS) 0) false false false (replicate 8 false) false false mark_zero
    Null.

(** ** The port predicates of [SEC_OMX_Macros.h] *)
Definition CHECK_PORT_BEING_FLUSHED (p : SEC_OMX_BASEPORT) : bool := bIsPortFlushed p.
Definition CHECK_PORT_BEING_DISABLED (p : SEC_OMX_BASEPORT) : bool := bIsPortDisabled p.
Definition CHECK_PORT_ENABLED (p : SEC_OMX_BASEPORT) : bool := bEnabled (portDefinition p).
Definition CHECK_PORT_POPULATED (p : SEC_OMX_BASEPORT) : bool := bPopulated (portDefinition p).
Definition CHECK_PORT_TUNNELED (p : SEC_OMX_BASEPORT) : bool :=
  negb (Z.land (tunnelFlags p) SEC_TUNNEL_ESTABLISHED =? 0).
Definition CHECK_PORT_BUFFER_SUPPLIER (p : SEC_OMX_BASEPORT) : bool :=
  negb (Z.land (tunnelFlags p) SEC_TUNNEL_IS_SUPPLIER =? 0).

Lemma no_tunnel p : tunnelFlags p = 0 ->
  CHECK_PORT_TUNNELED p = false /\ CHECK_PORT_BUFFER_SUPPLIER p = false.
Proof. unfold CHECK_PORT_TUNNELED, CHECK_PORT_BUFFER_SUPPLIER. by intros ->. Qed.

(** [SEC_OMX_Check_SizeVersion]: the size first, then the major and minor
    version. *)
Definition SEC_OMX_Check_SizeVersion (header : option omx_header) (size : Z) : OMX_ERRORTYPE :=
  match header with
  | None => OMX_ErrorBadParameter
  | Some (nSize, version) =>
      if negb (nSize =? size) then OMX_ErrorBadParameter
      else if (negb (nVersionMajor version =? VERSIONMAJOR_NUMBER)
               || negb (nVersionMinor version =? VERSIONMINOR_NUMBER))%bool
      then OMX_ErrorVersionMismatch
      else OMX_ErrorNone
  end.

(** A structure initialised with [INIT_SET_SIZE_VERSION] passes the check. *)
Lemma Check_SizeVersion_init size :
  SEC_OMX_Check_SizeVersion (Some (INIT_SET_SIZE_VERSION size)) size = OMX_ErrorNone.
Proof. simpl. by rewrite Z.eqb_refl. Qed.

Lemma Check_SizeVersion_none h size :
  SEC_OMX_Check_SizeVersion h size = OMX_ErrorNone <->
  exists v, h = Some (size, v) /\ nVersionMajor v = 1 /\ nVersionMinor v = 0.
Proof.
  destruct h as [[n v]|]; simpl; [|naive_solver].
  unfold VERSIONMAJOR_NUMBER, VERSIONMINOR_NUMBER.
  destruct (Z.eqb_spec n size), (Z.eqb_spec (nVersionMajor v) 1),
    (Z.eqb_spec (nVersionMinor v) 0); simpl; naive_solver.
Qed.
