(* ===== verification/OmxState.v ===== *)
(** * The shared state of the OpenMAX framework and access to it

    [St] is what the threads of the media process share: the components, the
    buffer headers, the lists of the resource manager, the threads the
    framework created, the callbacks made to the client so far, the number
    of fallible operating system calls and the memory blocks of the buffers'
    payload: the bytes of a block by its address, [None] for a byte nothing was
    stored in yet.

    A [place] is an lvalue of the C code: [load], [store] and [update] go
    through it and fault when a pointer on the way is NULL or dangling or an
    index is out of bounds; [P ↘ f] is the member [f] of the structure at [P].
    The blocking calls of the OSAL are lifted to places here. *)
From S2P Require Import Prelude Machine OmxEnums OsalSync OsalQueue OmxTypes.

(** ** Callbacks and threads *)

(** A call of a function of the client's [OMX_CALLBACKTYPE] table. *)
Inductive callback :=
| EventCmdComplete (c : nat) (cmd : OMX_COMMANDTYPE) (nData2 : Z)
| EventError (c : nat) (err : OMX_ERRORTYPE)
| EventPortError (c : nat) (err : OMX_ERRORTYPE) (nData2 : Z)
| EventPortSettingsChanged (c : nat) (nData1 nData2 : Z)
| EventBufferFlag (c : nat) (nData1 nData2 : Z)
| EventMark (c : nat) (pMarkData : Z)
| EmptyBufferDone (c : nat) (b : nat)
| FillBufferDone (c : nat) (b : nat).

Inductive thread_fn := SEC_OMX_MessageHandlerThread | SEC_OMX_BufferProcessThread.

Record thread_info := mkThread {
  th_fn : thread_fn;
  th_comp : nat;
  th_exited : bool
}.
#[export] Instance thread_info_eta : RecEta thread_info := fun t =>
  mkThread (th_fn t) (th_comp t) (th_exited t).

Record St := mkSt {
  comps : gmap nat OMX_COMPONENTTYPE;
  headers : gmap nat OMX_BUFFERHEADERTYPE;
  gpVideoDecRMComponentList : list SEC_OMX_RM_COMPONENT_LIST;
  gpVideoDecRMWaitingList : list SEC_OMX_RM_COMPONENT_LIST;
  gpVideoEncRMComponentList : list SEC_OMX_RM_COMPONENT_LIST;
  gpVideoEncRMWaitingList : list SEC_OMX_RM_COMPONENT_LIST;
  ghVideoRMComponentListMutex : mutex;
  threads : gmap nat thread_info;
  callbacks : list callback;
  oscalls : nat;
  memory : gmap Z (list (option Z))
}.
#[export] Instance St_eta : RecEta St := fun s =>
  mkSt (comps s) (headers s) (gpVideoDecRMComponentList s) (gpVideoDecRMWaitingList s)
    (gpVideoEncRMComponentList s) (gpVideoEncRMWaitingList s)
    (ghVideoRMComponentListMutex s) (threads s) (callbacks s) (oscalls s) (memory s).

Definition St_init : St := mkSt ∅ ∅ [] [] [] [] None ∅ [] 0 ∅.

(** ** The environment: the operating system's answers and the ABI's sizes *)
Class Env := {
  os : oracle;
  env_platform :: Platform;
  sizeof_COMPONENTTYPE : Z;
  sizeof_PORTDEFINITIONTYPE : Z;
  sizeof_PORT_PARAM_TYPE : Z;
  sizeof_PRIORITYMGMTTYPE : Z;
  sizeof_BUFFERSUPPLIERTYPE : Z;
  sizeof_BUFFERHEADERTYPE : Z
}.

(** The functions a codec component installs in its [SEC_OMX_BASECOMPONENT];
    [sec_mfc_componentTerminate] may be NULL. *)
Class ComponentOps := {
  sec_mfc_componentInit : nat -> M St OMX_ERRORTYPE;
  sec_mfc_componentTerminate : option (nat -> M St OMX_ERRORTYPE);
  sec_AllocateTunnelBuffer : nat -> Z -> M St OMX_ERRORTYPE;
  sec_FreeTunnelBuffer : nat -> Z -> M St OMX_ERRORTYPE;
  sec_BufferReset : nat -> Z -> M St OMX_ERRORTYPE;
  sec_InputBufferReturn : nat -> M St OMX_ERRORTYPE;
  sec_OutputBufferReturn : nat -> M St OMX_ERRORTYPE
}.

(** ** Places *)
Record place (A : Type) := Place {
  look : St -> fault + A;
  put : A -> St -> St
}.
Arguments Place {A} _ _.
Arguments look {A} _ _.
Arguments put {A} _ _ _.

Definition load {A} (P : place A) : M St A := fun s =>
  match look P s with inl e => Fault e | inr a => Done a s end.
Definition store {A} (P : place A) (a : A) : M St unit := fun s =>
  match look P s with inl e => Fault e | inr _ => Done tt (put P a s) end.
Definition update {A} (P : place A) (f : A -> A) : M St unit := fun s =>
  match look P s with inl e => Fault e | inr a => Done tt (put P (f a) s) end.

(** Member access. *)
Definition member {R E} (P : place R) (f : R -> E) `{!Settable f} : place E :=
  Place (fun s => match look P s with inl e => inl e | inr r => inr (f r) end)
        (fun v s => match look P s with inl _ => s | inr r => put P r<|f := v|> s end).
Notation "P ↘ f" := (member P f) (at level 2, left associativity, format "P ↘ f").

(** [*p] for an owning pointer, [a[i]] for an array. *)
Definition target {A} (P : place (ptr A)) : place A :=
  Place (fun s => match look P s with inr (Ptr a) => inr a | inr _ => inl NullDeref | inl e => inl e end)
        (fun v => put P (Ptr v)).
Definition cell {A} (P : place (list A)) (i : Z) : place A :=
  Place (fun s => match look P s with
                  | inl e => inl e
                  | inr l => match zlookup l i with Some a => inr a | None => inl OutOfBounds end
                  end)
        (fun v s => match look P s with inl _ => s | inr l => put P (zinsert i v l) s end).

(** The structure behind [hComponentHandle] at the type it is cast to. *)
Definition as_decoder (P : place component_handle) : place SEC_OMX_VIDEODEC_COMPONENT :=
  Place (fun s => match look P s with
                  | inr (VideoDec d) => inr d
                  | inr _ => inl BadCast
                  | inl e => inl e
                  end)
        (fun d => put P (VideoDec d)).
Definition as_encoder (P : place component_handle) : place SEC_OMX_VIDEOENC_COMPONENT :=
  Place (fun s => match look P s with
                  | inr (VideoEnc e) => inr e
                  | inr _ => inl BadCast
                  | inl e => inl e
                  end)
        (fun e => put P (VideoEnc e)).

(** The component table and the objects the framework reaches from it. *)
Definition component (c : nat) : place OMX_COMPONENTTYPE :=
  Place (fun s => match comps s !! c with Some k => inr k | None => inl NullDeref end)
        (fun k s => s<|comps ::= <[c := k]>|>).
(** [pOMXComponent->pComponentPrivate] at its type [SEC_OMX_BASECOMPONENT]. *)
Definition pSECComponent (c : nat) : place SEC_OMX_BASECOMPONENT :=
  target (component c)↘pComponentPrivate.
(** [pSECComponent->pSECPort[i]] *)
Definition port (c : nat) (i : Z) : place SEC_OMX_BASEPORT :=
  cell (target (pSECComponent c)↘pSECPort) i.
Definition databuffer (c : nat) (i : Z) : place SEC_OMX_DATABUFFER :=
  cell (pSECComponent c)↘secDataBuffer i.
Definition data_of (c : nat) (i : Z) : place SEC_OMX_DATA :=
  cell (pSECComponent c)↘processData i.
Definition header (b : nat) : place OMX_BUFFERHEADERTYPE :=
  Place (fun s => match headers s !! b with Some h => inr h | None => inl NullDeref end)
        (fun h s => s<|headers ::= <[b := h]>|>).
(** A variable with static storage. *)
Definition global {E} (f : St -> E) `{!Settable f} : place E :=
  Place (fun s => inr (f s)) (fun v s => s<|f := v|>).

(** ** Operating system calls *)
Section calls.
Context `{Env}.

(** A fallible call, such as [SEC_OSAL_Malloc]. *)
Definition os_call : M St bool := fun s => Done (os (oscalls s)) s<|oscalls ::= S|>.

(** OSAL functions that make such calls, applied to the handle at a place. *)
Definition os_apply {A} (f : oracle -> nat -> A -> OMX_ERRORTYPE * nat * A) (P : place A)
  : M St OMX_ERRORTYPE := fun s =>
  match look P s with
  | inl e => Fault e
  | inr h => let '(r, n, h') := f os (oscalls s) h in Done r (put P h' s<|oscalls := n|>)
  end.

(** OSAL functions that make none. *)
Definition apply_at {A R} (f : A -> R * A) (P : place A) : M St R := fun s =>
  match look P s with
  | inl e => Fault e
  | inr h => let '(r, h') := f h in Done r (put P h' s)
  end.

(** The blocking calls: wait until the object is ready, then take effect. *)
Definition blocking {A} (ready : A -> bool) (f : A -> OMX_ERRORTYPE * A) (P : place A)
  : M St OMX_ERRORTYPE :=
  wait (fun s => match look P s with inl _ => true | inr h => ready h end) ;;;
  apply_at f P.

Definition SemaphoreWait (P : place sem) : M St OMX_ERRORTYPE :=
  blocking sem_ready SEC_OSAL_SemaphoreWait P.
Definition SemaphorePost (P : place sem) : M St OMX_ERRORTYPE :=
  apply_at SEC_OSAL_SemaphorePost P.
Definition Get_SemaphoreCount (P : place sem) (old : Z) : M St Z :=
  let* h := load P in ret (SEC_OSAL_Get_SemaphoreCount h old).2.
Definition MutexLock (P : place mutex) : M St OMX_ERRORTYPE :=
  blocking mutex_ready SEC_OSAL_MutexLock P.
Definition MutexUnlock (P : place mutex) : M St OMX_ERRORTYPE :=
  apply_at SEC_OSAL_MutexUnlock P.

(** [SEC_OSAL_SemaphoreTerminate(h); h = NULL;] and the same for a mutex. *)
Definition SemaphoreTerminate_null (P : place sem) : M St unit :=
  os_apply SEC_OSAL_SemaphoreTerminate P ;;; store P None.
Definition MutexTerminate_null (P : place mutex) : M St unit :=
  os_apply SEC_OSAL_MutexTerminate P ;;; store P None.

(** Events: the handle may dangle.  [SEC_OSAL_SignalTerminate] frees the event
    but the caller's handle keeps its value. *)
Definition SignalSet (P : place (ptr SEC_OSAL_THREADEVENT)) : M St OMX_ERRORTYPE :=
  let* h := load P in
  match h with
  | Dangling => fail NullDeref
  | Null => ret OMX_ErrorBadParameter
  | Ptr e =>
      let '(r, h') := SEC_OSAL_SignalSet (Some e) in
      store P (match h' with Some e' => Ptr e' | None => Null end) ;;; ret r
  end.
Definition SignalCreate (P : place (ptr SEC_OSAL_THREADEVENT)) : M St OMX_ERRORTYPE := fun s =>
  match look P s with
  | inl e => Fault e
  | inr h =>
      let '(r, n, h') := SEC_OSAL_SignalCreate os (oscalls s) None in
      Done r (match h' with
              | Some e => put P (Ptr e) s<|oscalls := n|>
              | None => s<|oscalls := n|>
              end)
  end.
Definition SignalTerminate (P : place (ptr SEC_OSAL_THREADEVENT)) : M St OMX_ERRORTYPE := fun s =>
  match look P s with
  | inl e => Fault e
  | inr Dangling => Fault NullDeref
  | inr Null => Done OMX_ErrorBadParameter s
  | inr (Ptr e) =>
      let '(r, n, h') := SEC_OSAL_SignalTerminate os (oscalls s) (Some e) in
      Done r (put P (match h' with Some e' => Ptr e' | None => Dangling end) s<|oscalls := n|>)
  end.

(** Queues: an access through a freed node is a fault. *)
Definition Queue {A} (P : place (SEC_QUEUE A)) (d : A) : M St Z := fun s =>
  match look P s with
  | inl e => Fault e
  | inr q => match SEC_OSAL_Queue (Some q) (Some d) with
             | Some (r, Some q') => Done r (put P q' s)
             | _ => Fault NullDeref
             end
  end.
Definition Dequeue {A} (P : place (SEC_QUEUE A)) : M St (option A) := fun s =>
  match look P s with
  | inl e => Fault e
  | inr q => match SEC_OSAL_Dequeue (Some q) with
             | Some (d, Some q') => Done d (put P q' s)
             | _ => Fault NullDeref
             end
  end.
Definition GetElemNum {A} (P : place (SEC_QUEUE A)) : M St Z :=
  let* q := load P in ret (SEC_OSAL_GetElemNum (Some q)).
Definition SetElemNum {A} (P : place (SEC_QUEUE A)) (k : Z) : M St Z :=
  let* q := load P in
  let '(r, q') := SEC_OSAL_SetElemNum (Some q) k in
  match q' with Some q' => store P q' ;;; ret r | None => ret r end.
Definition QueueCreate {A} (P : place (SEC_QUEUE A)) : M St OMX_ERRORTYPE := fun s =>
  match look P s with
  | inl e => Fault e
  | inr q => match SEC_OSAL_QueueCreate os (oscalls s) (Some q) with
             | Some (r, n, Some q') => Done r (put P q' s<|oscalls := n|>)
             | _ => Fault NullDeref
             end
  end.
Definition QueueTerminate {A} (P : place (SEC_QUEUE A)) : M St OMX_ERRORTYPE := fun s =>
  match look P s with
  | inl e => Fault e
  | inr q => match SEC_OSAL_QueueTerminate os (oscalls s) (Some q) with
             | Some (r, n, Some q') => Done r (put P q' s<|oscalls := n|>)
             | _ => Fault NullDeref
             end
  end.

(** [SEC_OSAL_ThreadCreate]: the result of [malloc] is used unchecked; a
    failing [pthread_attr_setdetachstate] or [pthread_create] stores NULL.  A
    thread is named by the number of its [malloc]. *)
Definition SEC_OSAL_ThreadCreate (P : place (option nat)) (fn : thread_fn) (c : nat)
  : M St OMX_ERRORTYPE :=
  let* id := gets oscalls in
  let* ok := os_call in
  if negb ok then fail NullDeref
  else
    let* attr_ok := os_call in
    if negb attr_ok then store P None ;;; ret OMX_ErrorUndefined
    else
      let* ok := os_call in
      if negb ok then store P None ;;; ret OMX_ErrorInsufficientResources
      else
        store P (Some id) ;;;
        modify (fun s => s<|threads ::= <[id := mkThread fn c false]>|>) ;;;
        ret OMX_ErrorNone.

(** [SEC_OSAL_ThreadTerminate]: [pthread_join], then the handle is freed. *)
Definition SEC_OSAL_ThreadTerminate (P : place (option nat)) : M St OMX_ERRORTYPE :=
  let* h := load P in
  match h with
  | None => ret OMX_ErrorBadParameter
  | Some id =>
      wait (fun s => match threads s !! id with Some t => th_exited t | None => true end) ;;;
      let* known := gets (fun s => bool_decide (is_Some (threads s !! id))) in
      if negb known then fail NullDeref
      else
        modify (fun s => s<|threads ::= delete id|>) ;;;
        ret OMX_ErrorNone
  end.

(** [SEC_OSAL_ThreadExit], called by the thread [id]. *)
Definition SEC_OSAL_ThreadExit (id : nat) : M St unit :=
  modify (fun s => s<|threads ::= alter (fun t => t<|th_exited := true|>) id|>).

(** ** Callbacks

    [pSECComponent->pCallbacks->F(...)], where [pCallbacks] must not be NULL. *)
Definition call_back (c : nat) (e : callback) : M St unit :=
  let* cb := load (pSECComponent c)↘pCallbacks in
  match cb with
  | None => fail NullDeref
  | Some _ => modify (fun s => s<|callbacks ::= fun l => l ++ [e]|>)
  end.

(** The same guarded by [if (pSECComponent->pCallbacks != NULL)]. *)
Definition call_back_if (c : nat) (e : callback) : M St unit :=
  let* cb := load (pSECComponent c)↘pCallbacks in
  match cb with None => ret tt | Some _ => call_back c e end.

(** ** The opening of every entry point

    [hComponent] not NULL, [SEC_OMX_Check_SizeVersion] of the component, and
    [pComponentPrivate] not NULL; otherwise the error is returned. *)
Definition entry (hComponent : option nat) (body : nat -> M St OMX_ERRORTYPE)
  : M St OMX_ERRORTYPE :=
  match hComponent with
  | None => ret OMX_ErrorBadParameter
  | Some c =>
      let* k := load (component c) in
      let r := SEC_OMX_Check_SizeVersion (Some (comp_header k)) sizeof_COMPONENTTYPE in
      if is_err r then ret r
      else match pComponentPrivate k with
           | Null => ret OMX_ErrorBadParameter
           | _ => body c
           end
  end.

(** [if (pSECComponent->currentState == OMX_StateInvalid) -> OMX_ErrorInvalidState] *)
Definition unless_invalid (c : nat) (body : M St OMX_ERRORTYPE) : M St OMX_ERRORTYPE :=
  let* st := load (pSECComponent c)↘currentState in
  if bool_decide (st = OMX_StateInvalid) then ret OMX_ErrorInvalidState else body.
End calls.
