(* ===== verification/Focus.v ===== *)
(** * Reasoning about the accesses of one component

    [set_sec c r s] is [s] with the private structure of component [c] replaced
    by [r].  A place is [Focus]ed on [c] when reading and writing it in such a
    state only depends on, and only changes, [r]; the instances follow how
    places are built.  The [run_*] equations then execute the primitive steps
    of a handler symbolically, and [exec] applies them. *)
From S2P Require Import Prelude Machine OmxEnums OsalSync OsalQueue OmxTypes OmxState.

Definition valid (c : nat) (s : St) : Prop :=
  exists k r, comps s !! c = Some k /\ pComponentPrivate k = Ptr r.

Definition set_sec (c : nat) (r : SEC_OMX_BASECOMPONENT) (s : St) : St :=
  put (pSECComponent c) r s.

Lemma set_sec_eq c r s k :
  comps s !! c = Some k ->
  set_sec c r s = s<|comps ::= <[c := k<|pComponentPrivate := Ptr r|>]>|>.
Proof. intros Hk. unfold set_sec. simpl. by rewrite Hk. Qed.

(** Every valid state is of that form. *)
Lemma set_sec_id c s r : look (pSECComponent c) s = inr r -> set_sec c r s = s.
Proof.
  simpl. destruct (comps s !! c) as [k|] eqn:Hk; [|done].
  destruct (pComponentPrivate k) as [| |r'] eqn:Hp; [done..|]. intros [= ->].
  rewrite (set_sec_eq _ _ _ k) by done.
  destruct s as [cs], k; simpl in *. unfold set_field; simpl. subst.
  f_equal. by apply insert_id.
Qed.

Lemma look_valid c s r : look (pSECComponent c) s = inr r -> valid c s.
Proof.
  simpl. destruct (comps s !! c) as [k|] eqn:Hk; [|done].
  destruct (pComponentPrivate k) as [| |r'] eqn:Hp; [done..|]. intros _. by exists k, r'.
Qed.

Lemma valid_set_sec c c' r s : valid c s -> valid c (set_sec c' r s).
Proof.
  intros (k & r0 & Hk & Hp). unfold set_sec. simpl.
  destruct (comps s !! c') as [k'|] eqn:Hk'; [|by exists k, r0].
  destruct (decide (c' = c)) as [->|Hne].
  - eexists _, r. simpl. by rewrite lookup_insert_eq.
  - exists k, r0. simpl. by rewrite lookup_insert_ne.
Qed.

Lemma look_sec c r s : valid c s -> look (pSECComponent c) (set_sec c r s) = inr r.
Proof.
  intros (k & r0 & Hk & Hp). rewrite (set_sec_eq _ _ _ k) by done. simpl.
  by rewrite lookup_insert_eq.
Qed.

Lemma look_sec_ne c c' r s :
  c <> c' -> look (pSECComponent c') (set_sec c r s) = look (pSECComponent c') s.
Proof.
  intros Hne. unfold set_sec. simpl. destruct (comps s !! c) eqn:Hk; [|done].
  simpl. by rewrite lookup_insert_ne.
Qed.

Lemma set_sec_twice c r r' s : set_sec c r (set_sec c r' s) = set_sec c r s.
Proof.
  unfold set_sec. simpl. destruct (comps s !! c) eqn:Hk; simpl; [|by rewrite Hk].
  rewrite lookup_insert_eq. unfold set_field. simpl. by rewrite insert_insert_eq.
Qed.

(** ** Focused places *)
Class Focus {A} (c : nat) (P : place A) (g : SEC_OMX_BASECOMPONENT -> fault + A)
    (u : A -> SEC_OMX_BASECOMPONENT -> SEC_OMX_BASECOMPONENT) : Prop := {
  focus_look r s : valid c s -> look P (set_sec c r s) = g r;
  focus_put r s v a : valid c s -> g r = inr a -> put P v (set_sec c r s) = set_sec c (u v r) s
}.
#[export] Hint Mode Focus - - ! - - : typeclass_instances.

#[export] Instance focus_sec c : Focus c (pSECComponent c) inr (fun v _ => v).
Proof.
  split.
  - intros. by apply look_sec.
  - intros. apply set_sec_twice.
Qed.

Lemma focus_member {R E} c (P : place R) (f : R -> E) `{!Settable f} g u :
  Focus c P g u ->
  Focus c (P↘f) (fun r => match g r with inl e => inl e | inr x => inr (f x) end)
    (fun v r => match g r with inl _ => r | inr x => u x<|f := v|> r end).
Proof.
  intros HP. split; simpl.
  - intros. by rewrite focus_look.
  - intros r s v a Hv Hg. rewrite focus_look by done.
    destruct (g r) as [|x] eqn:Hx; [done|]. by eapply focus_put.
Qed.

#[export] Hint Extern 1 (Focus _ (member _ _) _ _) => eapply focus_member : typeclass_instances.

#[export] Instance focus_target {A} c (P : place (ptr A)) g u :
  Focus c P g u ->
  Focus c (target P) (fun r => match g r with
                               | inr (Ptr a) => inr a | inr _ => inl NullDeref | inl e => inl e end)
    (fun v r => u (Ptr v) r).
Proof.
  intros HP. split; simpl.
  - intros. by rewrite focus_look.
  - intros r s v a Hv Hg. destruct (g r) as [|x] eqn:Hx; [done|]. by eapply focus_put.
Qed.

#[export] Instance focus_cell {A} c (P : place (list A)) g u i :
  Focus c P g u ->
  Focus c (cell P i) (fun r => match g r with
                               | inl e => inl e
                               | inr l => match zlookup l i with Some a => inr a | None => inl OutOfBounds end
                               end)
    (fun v r => match g r with inl _ => r | inr l => u (zinsert i v l) r end).
Proof.
  intros HP. split; simpl.
  - intros. by rewrite focus_look.
  - intros r s v a Hv Hg. rewrite focus_look by done.
    destruct (g r) as [|x] eqn:Hx; [done|]. by eapply focus_put.
Qed.

(** The ports and the per-port buffers, with the accesses spelled out. *)
Definition port_get (i : Z) (r : SEC_OMX_BASECOMPONENT) : fault + SEC_OMX_BASEPORT :=
  match pSECPort r with
  | Ptr l => match zlookup l i with Some p => inr p | None => inl OutOfBounds end
  | _ => inl NullDeref
  end.
Definition port_put (i : Z) (p : SEC_OMX_BASEPORT) (r : SEC_OMX_BASECOMPONENT) :=
  match pSECPort r with
  | Ptr l => r<|pSECPort := Ptr (zinsert i p l)|>
  | _ => r
  end.
Definition cell_get {A} (f : SEC_OMX_BASECOMPONENT -> list A) (i : Z) (r : SEC_OMX_BASECOMPONENT)
  : fault + A :=
  match zlookup (f r) i with Some p => inr p | None => inl OutOfBounds end.

#[export] Instance focus_port c i : Focus c (port c i) (port_get i) (port_put i).
Proof.
  pose proof (focus_cell c (target (pSECComponent c)↘pSECPort) _ _ i _) as HF.
  split; intros; unfold port, port_get, port_put in *.
  - rewrite focus_look by done. simpl. by destruct (pSECPort r).
  - erewrite focus_put; [|done|]; simpl; by destruct (pSECPort r).
Qed.

#[export] Instance focus_databuffer c i :
  Focus c (databuffer c i) (cell_get secDataBuffer i)
    (fun v r => r<|secDataBuffer := zinsert i v (secDataBuffer r)|>).
Proof. exact (focus_cell c (pSECComponent c)↘secDataBuffer _ _ i _). Qed.

#[export] Instance focus_data_of c i :
  Focus c (data_of c i) (cell_get processData i)
    (fun v r => r<|processData := zinsert i v (processData r)|>).
Proof. exact (focus_cell c (pSECComponent c)↘processData _ _ i _). Qed.

(** ** Symbolic execution *)
Section run.
Context {A : Type} {c : nat} {P : place A} {g u} `{!Focus c P g u}.

Lemma run_load r s :
  valid c s ->
  load P (set_sec c r s) = match g r with inl e => Fault e | inr a => Done a (set_sec c r s) end.
Proof. intros. unfold load. by rewrite focus_look. Qed.

Lemma run_store v r s :
  valid c s ->
  store P v (set_sec c r s) = match g r with inl e => Fault e | inr _ => Done tt (set_sec c (u v r) s) end.
Proof.
  intros. unfold store. rewrite focus_look by done.
  destruct (g r) eqn:?; [done|]. by erewrite focus_put by done.
Qed.

Lemma run_update f r s :
  valid c s ->
  update P f (set_sec c r s) =
    match g r with inl e => Fault e | inr a => Done tt (set_sec c (u (f a) r) s) end.
Proof.
  intros. unfold update. rewrite focus_look by done.
  destruct (g r) eqn:?; [done|]. by erewrite focus_put by done.
Qed.

Lemma run_apply_at {R} (f : A -> R * A) r s :
  valid c s ->
  apply_at f P (set_sec c r s) =
    match g r with
    | inl e => Fault e
    | inr h => Done (f h).1 (set_sec c (u (f h).2 r) s)
    end.
Proof.
  intros. unfold apply_at. rewrite focus_look by done.
  destruct (g r) eqn:?; [done|]. destruct (f _) as [x h']. simpl.
  by erewrite focus_put by done.
Qed.
End run.

(** ** State outside the component

    The other fields of [St] commute with [set_sec]. *)
Lemma valid_other c s s' : comps s' = comps s -> valid c s -> valid c s'.
Proof. unfold valid. by intros ->. Qed.

Ltac outside := intros; unfold set_sec; simpl; by repeat case_match.

Lemma set_sec_oscalls c r s f : (set_sec c r s)<|oscalls ::= f|> = set_sec c r s<|oscalls ::= f|>.
Proof. outside. Qed.
Lemma set_sec_callbacks c r s f :
  (set_sec c r s)<|callbacks ::= f|> = set_sec c r s<|callbacks ::= f|>.
Proof. outside. Qed.
Lemma set_sec_headers c r s f : (set_sec c r s)<|headers ::= f|> = set_sec c r s<|headers ::= f|>.
Proof. outside. Qed.
Lemma set_sec_threads c r s f : (set_sec c r s)<|threads ::= f|> = set_sec c r s<|threads ::= f|>.
Proof. outside. Qed.
Lemma set_sec_memory c r s f : (set_sec c r s)<|memory ::= f|> = set_sec c r s<|memory ::= f|>.
Proof. outside. Qed.
Lemma memory_set_sec c r s : memory (set_sec c r s) = memory s.
Proof. outside. Qed.
Lemma oscalls_set_sec c r s : oscalls (set_sec c r s) = oscalls s.
Proof. outside. Qed.
Lemma callbacks_set_sec c r s : callbacks (set_sec c r s) = callbacks s.
Proof. outside. Qed.
Lemma headers_set_sec c r s : headers (set_sec c r s) = headers s.
Proof. outside. Qed.
Lemma threads_set_sec c r s : threads (set_sec c r s) = threads s.
Proof. outside. Qed.
Lemma decList_set_sec c r s :
  gpVideoDecRMComponentList (set_sec c r s) = gpVideoDecRMComponentList s.
Proof. outside. Qed.
Lemma encList_set_sec c r s :
  gpVideoEncRMComponentList (set_sec c r s) = gpVideoEncRMComponentList s.
Proof. outside. Qed.
Lemma decWait_set_sec c r s : gpVideoDecRMWaitingList (set_sec c r s) = gpVideoDecRMWaitingList s.
Proof. outside. Qed.
Lemma encWait_set_sec c r s : gpVideoEncRMWaitingList (set_sec c r s) = gpVideoEncRMWaitingList s.
Proof. outside. Qed.
Lemma rmMutex_set_sec c r s :
  ghVideoRMComponentListMutex (set_sec c r s) = ghVideoRMComponentListMutex s.
Proof. outside. Qed.
Create Rewrite HintDb focus.
#[export] Hint Rewrite set_sec_memory memory_set_sec set_sec_oscalls set_sec_callbacks set_sec_headers set_sec_threads
  oscalls_set_sec callbacks_set_sec headers_set_sec threads_set_sec decList_set_sec
  encList_set_sec decWait_set_sec encWait_set_sec rmMutex_set_sec : focus.

(** [valid] of a state that differs in other fields, or in this component. *)
Ltac fvalid :=
  solve [ assumption
        | repeat first [ apply valid_set_sec
                       | match goal with
                         | |- valid _ (set_field _ _ ?s) =>
                             apply (valid_other _ s); [reflexivity|] end ]; assumption ].

(** Reading a member of the structure, in any state. *)
Lemma run_load_member {E} c s r (f : SEC_OMX_BASECOMPONENT -> E) `{!Settable f} :
  look (pSECComponent c) s = inr r -> load (pSECComponent c)↘f s = Done (f r) s.
Proof. intros Hl. unfold load. cbn [look member]. by rewrite Hl. Qed.

Section run_env.
Context `{Env}.

Lemma run_os_call c r s :
  os_call (set_sec c r s) = Done (os (oscalls s)) (set_sec c r s<|oscalls ::= S|>).
Proof. unfold os_call. by autorewrite with focus. Qed.

Lemma run_os_apply {A} c (P : place A) g u `{!Focus c P g u} f r s a :
  valid c s -> g r = inr a ->
  os_apply f P (set_sec c r s) =
    Done (f os (oscalls s) a).1.1
      (set_sec c (u (f os (oscalls s) a).2 r) s<|oscalls := (f os (oscalls s) a).1.2|>).
Proof.
  intros Hv Hg. unfold os_apply. rewrite focus_look by done. rewrite Hg, oscalls_set_sec.
  destruct (f _ _ _) as [[e n] h']. simpl. rewrite set_sec_oscalls.
  erewrite focus_put; [done|fvalid|done].
Qed.

Lemma run_call_back c r s e cb :
  valid c s -> pCallbacks r = Some cb ->
  call_back c e (set_sec c r s) = Done tt (set_sec c r s<|callbacks ::= fun l => l ++ [e]|>).
Proof.
  intros Hv Hcb. unfold call_back, bind. rewrite run_load by done. simpl. rewrite Hcb.
  unfold modify. by rewrite set_sec_callbacks.
Qed.

Lemma run_call_back_if c r s e :
  valid c s ->
  call_back_if c e (set_sec c r s) =
    Done tt (match pCallbacks r with
             | Some _ => set_sec c r s<|callbacks ::= fun l => l ++ [e]|>
             | None => set_sec c r s end).
Proof.
  intros Hv. unfold call_back_if, bind. rewrite run_load by done. simpl.
  destruct (pCallbacks r) eqn:Hcb; [|done]. by erewrite run_call_back.
Qed.

(** Queues, under their refinement. *)
Lemma run_Queue {A} c (P : place (SEC_QUEUE A)) g u `{!Focus c P g u} r s q l d :
  valid c s -> g r = inr q -> queue_repr q l ->
  exists q', Queue P d (set_sec c r s) =
      Done (if decide (length l < ring_size)%nat then 0 else -1)
        (if decide (length l < ring_size)%nat then set_sec c (u q' r) s else set_sec c (u q r) s) /\
    ((length l < ring_size)%nat -> queue_repr q' (l ++ [d])).
Proof.
  intros Hv Hg Hq. unfold Queue. rewrite focus_look by done. rewrite Hg. simpl.
  destruct (queue_put_repr q l d Hq) as (z & q' & -> & Hz). simpl.
  exists q'. erewrite focus_put by done.
  case_decide; destruct Hz as [-> Hz]; [done|by rewrite Hz].
Qed.

Lemma run_Dequeue {A} c (P : place (SEC_QUEUE A)) g u `{!Focus c P g u} r s q l :
  valid c s -> g r = inr q -> queue_repr q l ->
  exists q', Dequeue P (set_sec c r s) = Done (head l) (set_sec c (u q' r) s) /\
    queue_repr q' (tail l).
Proof.
  intros Hv Hg Hq. unfold Dequeue. rewrite focus_look by done. rewrite Hg. simpl.
  destruct (queue_get_repr q l Hq) as (q' & -> & Hz). simpl.
  exists q'. erewrite focus_put by done. split; [done|].
  destruct l; [by rewrite Hz|done].
Qed.

Lemma run_GetElemNum {A} c (P : place (SEC_QUEUE A)) g u `{!Focus c P g u} r s q l :
  valid c s -> g r = inr q -> queue_repr q l ->
  GetElemNum P (set_sec c r s) = Done (Z.of_nat (length l)) (set_sec c r s).
Proof.
  intros Hv Hg (? & _ & _ & _ & _ & _ & Hn & _). unfold GetElemNum, bind.
  rewrite run_load by done. rewrite Hg. simpl. by rewrite Hn.
Qed.

(** A component the entry points accept. *)
Definition live (c : nat) (s : St) : Prop :=
  exists k r, comps s !! c = Some k /\ pComponentPrivate k = Ptr r /\
    SEC_OMX_Check_SizeVersion (Some (comp_header k)) sizeof_COMPONENTTYPE = OMX_ErrorNone.

Lemma live_valid c s : live c s -> valid c s.
Proof. intros (k & r & ? & ? & _). by exists k, r. Qed.

Lemma live_set_sec c c' r s : live c s -> live c (set_sec c' r s).
Proof.
  intros (k & r0 & Hk & Hp & Hc). unfold set_sec. simpl.
  destruct (comps s !! c') as [k'|] eqn:Hk'; [|by exists k, r0].
  destruct (decide (c' = c)) as [->|Hne].
  - simplify_eq. eexists _, r. simpl. rewrite lookup_insert_eq. split; [done|]. by split.
  - exists k, r0. simpl. by rewrite lookup_insert_ne.
Qed.

Lemma run_entry c r s body :
  live c s -> entry (Some c) body (set_sec c r s) = body c (set_sec c r s).
Proof.
  intros (k & r0 & Hk & Hp & Hc). unfold entry, bind, load.
  assert (look (component c) (set_sec c r s) = inr k<|pComponentPrivate := Ptr r|>) as ->.
  { rewrite (set_sec_eq _ _ _ k) by done. simpl. by rewrite lookup_insert_eq. }
  cbn [obind]. cbv zeta.
  replace (comp_header k<|pComponentPrivate := Ptr r|>) with (comp_header k) by by destruct k.
  by rewrite Hc.
Qed.

Lemma run_unless_invalid c r s body :
  valid c s -> currentState r <> OMX_StateInvalid ->
  unless_invalid c body (set_sec c r s) = body (set_sec c r s).
Proof.
  intros Hv Hst. unfold unless_invalid, bind. rewrite run_load by done. simpl.
  by rewrite bool_decide_eq_false_2.
Qed.
End run_env.

(** ** The same steps as rules of [wp]

    The side conditions compute what the place reads and writes; [fget] solves
    them from the hypotheses on the arrays of the component. *)
Section rules.
Context `{Env} (I : St -> Prop) {c : nat}.

Lemma wp_load {A} (P : place A) g u `{!Focus c P g u} r s a Q :
  valid c s -> g r = inr a -> Q a (set_sec c r s) -> wp I (load P (set_sec c r s)) Q.
Proof. intros Hv Hg HQ. rewrite run_load by done. by rewrite Hg. Qed.

Lemma wp_store {A} (P : place A) g u `{!Focus c P g u} v r r' s a Q :
  valid c s -> g r = inr a -> u v r = r' -> Q tt (set_sec c r' s) ->
  wp I (store P v (set_sec c r s)) Q.
Proof. intros Hv Hg <- HQ. rewrite run_store by done. by rewrite Hg. Qed.

Lemma wp_update {A} (P : place A) g u `{!Focus c P g u} f r r' s a Q :
  valid c s -> g r = inr a -> u (f a) r = r' -> Q tt (set_sec c r' s) ->
  wp I (update P f (set_sec c r s)) Q.
Proof. intros Hv Hg <- HQ. rewrite run_update by done. by rewrite Hg. Qed.

Lemma wp_apply_at {A R} (P : place A) g u `{!Focus c P g u} (f : A -> R * A) r r' s a b h Q :
  valid c s -> g r = inr a -> f a = (b, h) -> u h r = r' -> Q b (set_sec c r' s) ->
  wp I (apply_at f P (set_sec c r s)) Q.
Proof. intros Hv Hg Hf <- HQ. rewrite run_apply_at by done. by rewrite Hg, Hf. Qed.

(** The same on an arbitrary place. *)
Lemma wp_apply_place {A R} (P : place A) (f : A -> R * A) s a b h Q :
  look P s = inr a -> f a = (b, h) -> Q b (put P h s) -> wp I (apply_at f P s) Q.
Proof. intros Hl Hf HQ. unfold apply_at. by rewrite Hl, Hf. Qed.

Lemma wp_blocking_place {A} (P : place A) ready f s a b h Q :
  look P s = inr a -> ready a = true -> f a = (b, h) -> Q b (put P h s) ->
  wp I (blocking ready f P s) Q.
Proof.
  intros Hl Hr Hf HQ. unfold blocking. apply wp_bind, wp_wait; rewrite Hl, Hr; [|done].
  intros _. by eapply wp_apply_place.
Qed.

(** A blocking call on an object that is ready does not block. *)
Lemma wp_blocking {A} (P : place A) g u `{!Focus c P g u} ready f r r' s a b h Q :
  valid c s -> g r = inr a -> ready a = true -> f a = (b, h) -> u h r = r' ->
  Q b (set_sec c r' s) ->
  wp I (blocking ready f P (set_sec c r s)) Q.
Proof.
  intros Hv Hg Hr Hf Hu HQ. unfold blocking, bind, wait. rewrite focus_look by done.
  rewrite Hg, Hr. simpl. by eapply wp_apply_at.
Qed.

Lemma wp_os_call r s Q :
  Q (os (oscalls s)) (set_sec c r s<|oscalls ::= S|>) -> wp I (os_call (set_sec c r s)) Q.
Proof. by rewrite run_os_call. Qed.

Lemma wp_os_apply {A} (P : place A) g u `{!Focus c P g u} f r r' s a e n h Q :
  valid c s -> g r = inr a -> f os (oscalls s) a = (e, n, h) -> u h r = r' ->
  Q e (set_sec c r' s<|oscalls := n|>) ->
  wp I (os_apply f P (set_sec c r s)) Q.
Proof. intros Hv Hg Hf <- HQ. erewrite run_os_apply by done. by rewrite Hf. Qed.

Lemma wp_call_back r s e cb Q :
  valid c s -> pCallbacks r = Some cb ->
  Q tt (set_sec c r s<|callbacks ::= fun l => l ++ [e]|>) ->
  wp I (call_back c e (set_sec c r s)) Q.
Proof. intros. by erewrite run_call_back. Qed.

Lemma wp_Queue {A} (P : place (SEC_QUEUE A)) g u `{!Focus c P g u} r s q l d Q :
  valid c s -> g r = inr q -> queue_repr q l ->
  ((length l < ring_size)%nat ->
     forall q', queue_repr q' (l ++ [d]) -> Q 0 (set_sec c (u q' r) s)) ->
  ((ring_size <= length l)%nat -> Q (-1) (set_sec c (u q r) s)) ->
  wp I (Queue P d (set_sec c r s)) Q.
Proof.
  intros Hv Hg Hq H0 H1. destruct (run_Queue c P g u r s q l d Hv Hg Hq) as (q' & -> & Hq').
  case_decide; simpl; [auto|]. apply H1. lia.
Qed.

Lemma wp_Dequeue {A} (P : place (SEC_QUEUE A)) g u `{!Focus c P g u} r s q l Q :
  valid c s -> g r = inr q -> queue_repr q l ->
  (forall q', queue_repr q' (tail l) -> Q (head l) (set_sec c (u q' r) s)) ->
  wp I (Dequeue P (set_sec c r s)) Q.
Proof.
  intros Hv Hg Hq HQ. destruct (run_Dequeue c P g u r s q l Hv Hg Hq) as (q' & -> & Hq').
  by apply HQ.
Qed.

Lemma wp_GetElemNum {A} (P : place (SEC_QUEUE A)) g u `{!Focus c P g u} r s q l Q :
  valid c s -> g r = inr q -> queue_repr q l ->
  Q (Z.of_nat (length l)) (set_sec c r s) ->
  wp I (GetElemNum P (set_sec c r s)) Q.
Proof. intros. by erewrite run_GetElemNum. Qed.

Lemma wp_entry r s body Q :
  live c s -> wp I (body c (set_sec c r s)) Q -> wp I (entry (Some c) body (set_sec c r s)) Q.
Proof. intros. by rewrite run_entry. Qed.

Lemma wp_unless_invalid r s body Q :
  valid c s -> currentState r <> OMX_StateInvalid -> wp I (body (set_sec c r s)) Q ->
  wp I (unless_invalid c body (set_sec c r s)) Q.
Proof. intros. by rewrite run_unless_invalid. Qed.
End rules.

Lemma zinsert_0 {A} (v x : A) l : zinsert 0 v (x :: l) = v :: l.
Proof. done. Qed.
Lemma zinsert_1 {A} (v x y : A) l : zinsert 1 v (x :: y :: l) = x :: v :: l.
Proof. done. Qed.

(** Two updates of the same field are one. *)
Ltac collapse :=
  repeat match goal with
  | |- context [@set_field ?R ?E ?f ?i ?g2 (@set_field ?R ?E ?f ?i ?g1 ?r)] =>
      change (@set_field R E f i g2 (@set_field R E f i g1 r))
        with (@set_field R E f i (fun x => g2 (g1 x)) r); cbv beta
  end.

Ltac fget :=
  unfold port_get, port_put, cell_get; simpl;
  repeat match goal with
  | H : pSECPort ?r = _ |- context [pSECPort ?r] => rewrite H; simpl
  | H : secDataBuffer ?r = _ |- context [secDataBuffer ?r] => rewrite H; simpl
  | H : processData ?r = _ |- context [processData ?r] => rewrite H; simpl
  end;
  rewrite ?zinsert_0, ?zinsert_1; collapse;
  reflexivity.

#[global] Arguments set_sec : simpl never.

(** Evaluates the bound of a loop over the ports. *)
Ltac loop_bound n :=
  let m := eval vm_compute in n in
  lazymatch m with O => idtac | S _ => idtac end;
  progress change n with m.

(** Runs one step of the goal [wp I (m s) Q]. *)
Ltac wstep :=
  lazymatch goal with
  | |- wp _ (bind _ _ _) _ => apply wp_bind
  | |- wp _ (ret _ _) _ => apply wp_ret
  | |- wp _ (load _ (set_sec _ _ _)) _ => eapply wp_load; [apply _|fvalid|fget|]
  | |- wp _ (store _ _ (set_sec _ _ _)) _ => eapply wp_store; [apply _|fvalid|fget|fget|]
  | |- wp _ (update _ _ (set_sec _ _ _)) _ => eapply wp_update; [apply _|fvalid|fget|fget|]
  | |- wp _ (os_call (set_sec _ _ _)) _ => apply wp_os_call
  | |- wp _ (for_from _ (Z.to_nat ?z) _ _) _ => loop_bound (Z.to_nat z)
  | |- wp _ (for_exit _ (Z.to_nat ?z) _ _) _ => loop_bound (Z.to_nat z)
  | |- wp _ (for_fold _ (Z.to_nat ?z) _ _ _) _ => loop_bound (Z.to_nat z)
  | |- wp _ (for_from _ 0 _ _) _ => apply wp_for_0
  | |- wp _ (for_from _ (S _) _ _) _ => apply wp_for_S
  | |- wp _ (for_exit _ 0 _ _) _ => apply wp_for_exit_0
  | |- wp _ (for_exit _ (S _) _ _) _ => apply wp_for_exit_S
  | |- wp _ (for_fold _ 0 _ _ _) _ => apply wp_for_fold_0
  | |- wp _ (for_fold _ (S _) _ _ _) _ => apply wp_for_fold_S
  | |- wp _ (call_back _ _ (set_sec _ _ _)) _ => eapply wp_call_back; [fvalid|by simpl|]
  | |- wp _ (Get_SemaphoreCount _ _ _) _ => unfold Get_SemaphoreCount
  | |- wp _ ((if ?b then _ else _) _) _ => fail
  end; cbv beta; change (0 + 1) with 1.
Ltac wsteps := repeat wstep.
