(* ===== verification/PortFocus.v ===== *)
(** * Reasoning about the accesses of one port

    The same as Focus for the places of one port: [at_port c i p r s] is the
    state in which port [i] of component [c] is [p], the rest of the component
    is [r] and the rest of the world [s].  [PFocus] places depend on [p] only. *)
From S2P Require Import Prelude Machine OmxEnums OsalSync OsalQueue OmxTypes OmxState Focus.

Definition at_port (c : nat) (i : Z) (p : SEC_OMX_BASEPORT) (r : SEC_OMX_BASECOMPONENT) (s : St) : St :=
  set_sec c (port_put i p r) s.
#[global] Arguments at_port : simpl never.

Definition has_port (i : Z) (r : SEC_OMX_BASECOMPONENT) : Prop := exists p, port_get i r = inr p.

Lemma port_get_put i p r : has_port i r -> port_get i (port_put i p r) = inr p.
Proof.
  intros [p0 Hp]. unfold port_get, port_put in *. destruct (pSECPort r) as [| |l]; [done..|].
  simpl. destruct (zlookup l i) eqn:Hl; [|done].
  rewrite zlookup_zinsert by by eapply zlookup_Some_range. by rewrite decide_True.
Qed.

Lemma port_get_put_ne i j p r : i <> j -> port_get j (port_put i p r) = port_get j r.
Proof.
  intros Hne. unfold port_get, port_put. destruct (pSECPort r) as [| |l] eqn:Hr; rewrite ?Hr; [done..|].
  simpl. unfold zinsert, zlookup. destruct (Z.leb_spec 0 i), (Z.leb_spec 0 j); try done.
  rewrite list_lookup_insert_ne by lia. done.
Qed.

Lemma port_put_put i p p' r : port_put i p' (port_put i p r) = port_put i p' r.
Proof.
  unfold port_put. destruct (pSECPort r) as [| |l] eqn:Hr; simpl; rewrite ?Hr; [done..|].
  unfold zinsert. destruct (0 <=? i); unfold set_field; simpl; [|done].
  by rewrite list_insert_insert_eq.
Qed.

Lemma port_put_id i p r : port_get i r = inr p -> port_put i p r = r.
Proof.
  unfold port_get, port_put. destruct (pSECPort r) as [| |l] eqn:Hr; [done..|].
  destruct (zlookup l i) eqn:Hl; [|done]. intros [= ->]. unfold zinsert, zlookup in *.
  destruct (0 <=? i); [|done]. rewrite list_insert_id by done.
  destruct r; simpl in *; unfold set_field; simpl; by subst.
Qed.

Lemma has_port_put i p r : has_port i r -> has_port i (port_put i p r).
Proof. intros Hp. exists p. by apply port_get_put. Qed.

(** The other fields of the component do not see the port. *)
Ltac other_field := intros; unfold port_put; by case_match.
Lemma currentState_port_put i p r : currentState (port_put i p r) = currentState r.
Proof. other_field. Qed.
Lemma transientState_port_put i p r : transientState (port_put i p r) = transientState r.
Proof. other_field. Qed.
Lemma pCallbacks_port_put i p r : pCallbacks (port_put i p r) = pCallbacks r.
Proof. other_field. Qed.
Lemma secDataBuffer_port_put i p r : secDataBuffer (port_put i p r) = secDataBuffer r.
Proof. other_field. Qed.
Lemma processData_port_put i p r : processData (port_put i p r) = processData r.
Proof. other_field. Qed.
Lemma pauseEvent_port_put i p r : pauseEvent (port_put i p r) = pauseEvent r.
Proof. other_field. Qed.
Lemma messageQ_port_put i p r : messageQ (port_put i p r) = messageQ r.
Proof. other_field. Qed.
Lemma portParam_port_put i p r : portParam (port_put i p r) = portParam r.
Proof. other_field. Qed.
Create Rewrite HintDb port.
#[export] Hint Rewrite currentState_port_put transientState_port_put pCallbacks_port_put
  secDataBuffer_port_put processData_port_put pauseEvent_port_put messageQ_port_put
  portParam_port_put : port.

Lemma at_port_id c i p r s :
  look (pSECComponent c) s = inr r -> port_get i r = inr p -> at_port c i p r s = s.
Proof. intros Hl Hp. unfold at_port. rewrite port_put_id by done. by apply set_sec_id. Qed.

(** ** Focused places *)
Class PFocus {A} (c : nat) (i : Z) (P : place A) (g : SEC_OMX_BASEPORT -> fault + A)
    (u : A -> SEC_OMX_BASEPORT -> SEC_OMX_BASEPORT) : Prop := {
  pfocus_look p r s : valid c s -> has_port i r -> look P (at_port c i p r s) = g p;
  pfocus_put p r s v a : valid c s -> has_port i r -> g p = inr a ->
    put P v (at_port c i p r s) = at_port c i (u v p) r s
}.
#[export] Hint Mode PFocus - - - ! - - : typeclass_instances.

#[export] Instance pfocus_port c i : PFocus c i (port c i) inr (fun v _ => v).
Proof.
  split; intros p r s; intros; unfold at_port.
  - rewrite focus_look by done. by apply port_get_put.
  - erewrite focus_put; [|done|by apply port_get_put]. by rewrite port_put_put.
Qed.

Lemma pfocus_member {R E} c i (P : place R) (f : R -> E) `{!Settable f} g u :
  PFocus c i P g u ->
  PFocus c i (P↘f) (fun r => match g r with inl e => inl e | inr x => inr (f x) end)
    (fun v r => match g r with inl _ => r | inr x => u x<|f := v|> r end).
Proof.
  intros HP. split; simpl.
  - intros. by rewrite pfocus_look.
  - intros p r s v a Hv Hi Hg. rewrite pfocus_look by done.
    destruct (g p) as [|x] eqn:Hx; [done|]. by eapply pfocus_put.
Qed.
#[export] Hint Extern 1 (PFocus _ _ (member _ _) _ _) => eapply pfocus_member : typeclass_instances.

#[export] Instance pfocus_target {A} c i (P : place (ptr A)) g u :
  PFocus c i P g u ->
  PFocus c i (target P) (fun r => match g r with
                                  | inr (Ptr a) => inr a | inr _ => inl NullDeref | inl e => inl e end)
    (fun v r => u (Ptr v) r).
Proof.
  intros HP. split; simpl.
  - intros. by rewrite pfocus_look.
  - intros p r s v a Hv Hi Hg. destruct (g p) as [|x] eqn:Hx; [done|]. by eapply pfocus_put.
Qed.

#[export] Instance pfocus_cell {A} c i (P : place (list A)) g u j :
  PFocus c i P g u ->
  PFocus c i (cell P j) (fun r => match g r with
                                  | inl e => inl e
                                  | inr l => match zlookup l j with Some a => inr a | None => inl OutOfBounds end
                                  end)
    (fun v r => match g r with inl _ => r | inr l => u (zinsert j v l) r end).
Proof.
  intros HP. split; simpl.
  - intros. by rewrite pfocus_look.
  - intros p r s v a Hv Hi Hg. rewrite pfocus_look by done.
    destruct (g p) as [|x] eqn:Hx; [done|]. by eapply pfocus_put.
Qed.

(** ** Rules *)
Section rules.
Context `{Env} (I : St -> Prop) {c : nat} {i : Z}.

Section focused.
Context {A : Type} (P : place A) g u `{!PFocus c i P g u}.
Context (p : SEC_OMX_BASEPORT) (r : SEC_OMX_BASECOMPONENT) (s : St).

Lemma pwp_load a Q :
  valid c s -> has_port i r -> g p = inr a -> Q a (at_port c i p r s) ->
  wp I (load P (at_port c i p r s)) Q.
Proof. intros Hv Hi Hg HQ. unfold load. rewrite pfocus_look by done. by rewrite Hg. Qed.

Lemma pwp_store v p' a Q :
  valid c s -> has_port i r -> g p = inr a -> u v p = p' -> Q tt (at_port c i p' r s) ->
  wp I (store P v (at_port c i p r s)) Q.
Proof.
  intros Hv Hi Hg <- HQ. unfold store. rewrite pfocus_look by done. rewrite Hg.
  by erewrite pfocus_put by done.
Qed.

Lemma pwp_update f p' a Q :
  valid c s -> has_port i r -> g p = inr a -> u (f a) p = p' -> Q tt (at_port c i p' r s) ->
  wp I (update P f (at_port c i p r s)) Q.
Proof.
  intros Hv Hi Hg <- HQ. unfold update. rewrite pfocus_look by done. rewrite Hg.
  by erewrite pfocus_put by done.
Qed.

Lemma pwp_apply_at {R} (f : A -> R * A) p' a b h Q :
  valid c s -> has_port i r -> g p = inr a -> f a = (b, h) -> u h p = p' ->
  Q b (at_port c i p' r s) ->
  wp I (apply_at f P (at_port c i p r s)) Q.
Proof.
  intros Hv Hi Hg Hf <- HQ. unfold apply_at. rewrite pfocus_look by done. rewrite Hg, Hf.
  by erewrite pfocus_put by done.
Qed.

Lemma pwp_blocking ready f p' a b h Q :
  valid c s -> has_port i r -> g p = inr a -> ready a = true -> f a = (b, h) -> u h p = p' ->
  Q b (at_port c i p' r s) ->
  wp I (blocking ready f P (at_port c i p r s)) Q.
Proof.
  intros Hv Hi Hg Hr Hf Hu HQ. unfold blocking. apply wp_bind, wp_wait; rewrite pfocus_look by done;
    rewrite Hg, Hr; [|done]. intros _. by eapply pwp_apply_at.
Qed.
End focused.

Section queues.
Context {A : Type} (P : place (SEC_QUEUE A)) g u `{!PFocus c i P g u}.
Context (p : SEC_OMX_BASEPORT) (r : SEC_OMX_BASECOMPONENT) (s : St) (q : SEC_QUEUE A) (l : list A).
Hypothesis (Hv : valid c s) (Hi : has_port i r) (Hg : g p = inr q) (Hq : queue_repr q l).

Lemma pwp_Queue d Q :
  ((length l < ring_size)%nat ->
     forall q', queue_repr q' (l ++ [d]) -> Q 0 (at_port c i (u q' p) r s)) ->
  ((ring_size <= length l)%nat -> Q (-1) (at_port c i (u q p) r s)) ->
  wp I (Queue P d (at_port c i p r s)) Q.
Proof.
  intros H0 H1. unfold Queue. rewrite pfocus_look by done. rewrite Hg. simpl.
  destruct (queue_put_repr q l d Hq) as (z & q' & -> & Hz). simpl.
  erewrite pfocus_put by done.
  case_decide; destruct Hz as [-> Hz]; [by apply H0|]. rewrite Hz. apply H1. lia.
Qed.

Lemma pwp_Dequeue Q :
  (forall q', queue_repr q' (tail l) -> Q (head l) (at_port c i (u q' p) r s)) ->
  wp I (Dequeue P (at_port c i p r s)) Q.
Proof.
  intros HQ. unfold Dequeue. rewrite pfocus_look by done. rewrite Hg. simpl.
  destruct (queue_get_repr q l Hq) as (q' & -> & Hz). simpl.
  erewrite pfocus_put by done. apply HQ. destruct l; [by rewrite Hz|done].
Qed.

Lemma pwp_GetElemNum Q :
  Q (Z.of_nat (length l)) (at_port c i p r s) -> wp I (GetElemNum P (at_port c i p r s)) Q.
Proof.
  intros HQ. unfold GetElemNum. apply wp_bind. eapply pwp_load; [done..|].
  destruct Hq as (? & _ & _ & _ & _ & _ & Hn & _). apply wp_ret. simpl. by rewrite Hn.
Qed.

(** [SEC_OSAL_SetElemNum] to the number of elements there are. *)
Lemma pwp_SetElemNum Q :
  (forall q', queue_repr q' l -> Q (Z.of_nat (length l)) (at_port c i (u q' p) r s)) ->
  wp I (SetElemNum P (Z.of_nat (length l)) (at_port c i p r s)) Q.
Proof.
  intros HQ. unfold SetElemNum. apply wp_bind. eapply pwp_load; [done..|]. simpl. apply wp_bind.
  eapply pwp_store; [done..|]. apply wp_ret. apply HQ.
  destruct Hq as (ring & ? & ? & ? & ? & ? & Hn & ? & ?). by exists ring.
Qed.
End queues.

(** Creation of a queue that has no nodes, when the system grants everything. *)
Lemma pwp_QueueCreate {A} (P : place (SEC_QUEUE A)) g u `{!PFocus c i P g u} p r s q Q :
  (forall n, os n = true) -> valid c s -> has_port i r -> g p = inr q -> nodes q = ∅ ->
  (forall q' n, queue_repr q' [] -> Q OMX_ErrorNone (at_port c i (u q' p) r s<|oscalls := n|>)) ->
  wp I (QueueCreate P (at_port c i p r s)) Q.
Proof.
  intros Hos Hv Hi Hg Hn HQ. unfold QueueCreate. rewrite pfocus_look by done. rewrite Hg.
  destruct (queue_create_none os (oscalls (at_port c i p r s)) q Hos Hn) as (n' & q' & Hc & Hq').
  unfold SEC_OSAL_QueueCreate. rewrite Hc. simpl.
  replace ((at_port c i p r s)<|oscalls := n'|>) with (at_port c i p r s<|oscalls := n'|>)
    by (symmetry; apply set_sec_oscalls).
  erewrite pfocus_put; [by apply HQ|by apply (valid_other _ s)|done|done].
Qed.

Lemma pwp_os_apply {A} (P : place A) g u `{!PFocus c i P g u} f p p' r s a e n h Q :
  valid c s -> has_port i r -> g p = inr a -> f os (oscalls s) a = (e, n, h) -> u h p = p' ->
  Q e (at_port c i p' r s<|oscalls := n|>) ->
  wp I (os_apply f P (at_port c i p r s)) Q.
Proof.
  intros Hv Hi Hg Hf <- HQ. unfold os_apply. rewrite pfocus_look by done. rewrite Hg.
  replace (oscalls (at_port c i p r s)) with (oscalls s) by (symmetry; apply oscalls_set_sec).
  rewrite Hf.
  replace ((at_port c i p r s)<|oscalls := n|>) with (at_port c i p r s<|oscalls := n|>)
    by (symmetry; apply set_sec_oscalls).
  erewrite pfocus_put; [exact HQ|by apply (valid_other _ s)|done|done].
Qed.

(** Steps that leave the port alone. *)
Lemma at_port_oscalls p r s f : (at_port c i p r s)<|oscalls ::= f|> = at_port c i p r s<|oscalls ::= f|>.
Proof. apply set_sec_oscalls. Qed.

Lemma pwp_os_call p r s Q :
  Q (os (oscalls s)) (at_port c i p r s<|oscalls ::= S|>) -> wp I (os_call (at_port c i p r s)) Q.
Proof. apply wp_os_call. Qed.

Lemma pwp_call_back p r s e cb Q :
  valid c s -> pCallbacks r = Some cb ->
  Q tt (at_port c i p r s<|callbacks ::= fun l => l ++ [e]|>) ->
  wp I (call_back c e (at_port c i p r s)) Q.
Proof.
  intros Hv Hcb HQ. eapply wp_call_back; [done| |done]. by autorewrite with port.
Qed.

Lemma pwp_load_sec {E} (f : SEC_OMX_BASECOMPONENT -> E) `{!Settable f} p r s Q :
  valid c s -> Q (f (port_put i p r)) (at_port c i p r s) ->
  wp I (load (pSECComponent c)↘f (at_port c i p r s)) Q.
Proof. intros Hv HQ. by eapply wp_load; [apply _|done|done|]. Qed.

(** A write to a member of a buffer header. *)
Lemma pwp_store_header {E} (f : OMX_BUFFERHEADERTYPE -> E) `{!Settable f} b h v p r s Q :
  headers s !! b = Some h ->
  Q tt (at_port c i p r s<|headers ::= <[b := h<|f := v|>]>|>) ->
  wp I (store (header b)↘f v (at_port c i p r s)) Q.
Proof.
  intros Hh HQ. unfold store. cbn [look member header]. unfold at_port in *.
  rewrite headers_set_sec, Hh. cbn [put member header look]. rewrite headers_set_sec, Hh.
  simpl. by rewrite set_sec_headers.
Qed.
End rules.
