(* ===== verification/OmxMemory.v ===== *)
(** * Memory of the buffers

    Models [osal/SEC_OSAL_Memory.c] for the memory that the components allocate
    for a client: buffer headers and payload blocks.  An address is the start of a
    block, a pointer into it a block and an offset.  The operating system decides
    whether an allocation succeeds; the address it yields is one that is not in
    use.  The use of a freed block or header, and a copy outside of a block, are
    faults.  The allocation counter of the source is only logged and left out. *)
From S2P Require Import Prelude Machine OmxEnums OsalSync OsalQueue OmxTypes OmxState Focus.
From S2P Require Import PortFocus.

Abbreviation block := (list (option Z)).

(** An address above all those in use; 0 is NULL. *)
Definition fresh_address (m : gmap Z block) : Z := 1 + map_fold (fun a _ k => Z.max a k) 0 m.
Definition fresh_header (m : gmap nat OMX_BUFFERHEADERTYPE) : nat :=
  S (map_fold (fun b _ k => Nat.max b k) O m).

(** What [memset(header, 0, sizeof(OMX_BUFFERHEADERTYPE))] leaves. *)
Definition header_zero : OMX_BUFFERHEADERTYPE := mkHeader (0, version_zero) 0 0 0 0 0 None 0 0 0 0 0.

Section memory.
Context `{Env}.

(** [SEC_OSAL_Malloc(size)] *)
Definition SEC_OSAL_Malloc (size : Z) : M St (option Z) :=
  let* ok := os_call in
  if negb ok then ret None
  else
    let* a := gets (fun s => fresh_address (memory s)) in
    modify (fun s => s<|memory ::= <[a := replicate (Z.to_nat size) None]>|>) ;;;
    ret (Some a).

(** [SEC_OSAL_Free(addr)] *)
Definition SEC_OSAL_Free (addr : Z) : M St unit :=
  if addr =? 0 then ret tt
  else
    let* known := gets (fun s => bool_decide (is_Some (memory s !! addr))) in
    if negb known then fail NullDeref else modify (fun s => s<|memory ::= delete addr|>).

(** The same for a buffer header; it is zeroed by its [SEC_OSAL_Memset]. *)
Definition malloc_header : M St (option nat) :=
  let* ok := os_call in
  if negb ok then ret None
  else
    let* b := gets (fun s => fresh_header (headers s)) in
    modify (fun s => s<|headers ::= <[b := header_zero]>|>) ;;;
    ret (Some b).
Definition free_header (b : nat) : M St unit :=
  let* known := gets (fun s => bool_decide (is_Some (headers s !! b))) in
  if negb known then fail NullDeref else modify (fun s => s<|headers ::= delete b|>).

(** [SEC_OSAL_Memcpy(dest + doff, src + soff, n)]: [n] is converted to
    [OMX_S32] and then to [size_t], so that a count of 2^31 and more is larger than
    any block.  [memcpy] of areas that overlap is undefined. *)
Definition SEC_OSAL_Memcpy (dest doff src soff n : Z) : M St unit :=
  let n := s32 n in
  if n =? 0 then ret tt
  else
    let* m := gets memory in
    match m !! dest, m !! src with
    | Some d, Some b =>
        if (0 <? n) && (0 <=? soff) && (soff + n <=? Z.of_nat (length b))
           && (0 <=? doff) && (doff + n <=? Z.of_nat (length d))
        then
          if (dest =? src) && (Z.abs (doff - soff) <? n) then fail Overlap
          else
          let bytes := take (Z.to_nat n) (drop (Z.to_nat soff) b) in
          let d' := take (Z.to_nat doff) d ++ bytes ++ drop (Z.to_nat (doff + n)) d in
          modify (fun s => s<|memory ::= <[dest := d']>|>)
        else fail OutOfBounds
    | _, _ => fail NullDeref
    end.
End memory.

(** ** Fresh addresses *)
Lemma fresh_address_pos m : 0 < fresh_address m.
Proof.
  unfold fresh_address. enough (0 <= map_fold (fun a (_ : block) k => Z.max a k) 0 m) by lia.
  apply (map_fold_weak_ind (fun k _ => 0 <= k)); [done|]. intros. lia.
Qed.

Lemma fresh_address_above m a b : m !! a = Some b -> a < fresh_address m.
Proof.
  unfold fresh_address. intros Hm.
  enough (forall a, is_Some (m !! a) -> a <= map_fold (fun a (_ : block) k => Z.max a k) 0 m) as Hle.
  { pose proof (Hle a ltac:(eauto)). lia. }
  apply (map_fold_weak_ind (fun k m => forall a, is_Some (m !! a) -> a <= k)).
  - intros a0 [x Hx]. by rewrite lookup_empty in Hx.
  - intros i x m' k Hi Hk a0 Ha. destruct (decide (i = a0)) as [->|Hne]; [lia|].
    rewrite lookup_insert_ne in Ha by done. pose proof (Hk a0 Ha). lia.
Qed.

Lemma fresh_address_new m : m !! fresh_address m = None.
Proof.
  destruct (m !! fresh_address m) as [b|] eqn:Hm; [|done].
  apply fresh_address_above in Hm. lia.
Qed.

Lemma fresh_header_new m : m !! fresh_header m = None.
Proof.
  destruct (m !! fresh_header m) as [h|] eqn:Hm; [|done].
  assert (forall b, is_Some (m !! b) ->
    (b <= map_fold (fun b (_ : OMX_BUFFERHEADERTYPE) k => Nat.max b k) O m)%nat) as Hle.
  { clear Hm. apply (map_fold_weak_ind (fun k m => forall b, is_Some (m !! b) -> (b <= k)%nat)).
    - intros b0 [x Hx]. by rewrite lookup_empty in Hx.
    - intros i x m' k Hi Hk b0 Hb. destruct (decide (i = b0)) as [->|Hne]; [lia|].
      rewrite lookup_insert_ne in Hb by done. pose proof (Hk b0 Hb). lia. }
  pose proof (Hle _ (mk_is_Some _ _ Hm)). unfold fresh_header in *. lia.
Qed.

(** ** Rules *)
Section rules.
Context `{Env} (I : St -> Prop) {c : nat} {i : Z} (p : SEC_OMX_BASEPORT) (r : SEC_OMX_BASECOMPONENT) (s : St).

Lemma at_port_headers f : (at_port c i p r s)<|headers ::= f|> = at_port c i p r s<|headers ::= f|>.
Proof. apply set_sec_headers. Qed.
Lemma at_port_memory f : (at_port c i p r s)<|memory ::= f|> = at_port c i p r s<|memory ::= f|>.
Proof. apply set_sec_memory. Qed.

Lemma pwp_malloc_header Q :
  (os (oscalls s) = false -> Q None (at_port c i p r s<|oscalls ::= S|>)) ->
  (os (oscalls s) = true -> forall b, headers s !! b = None ->
     Q (Some b) (at_port c i p r s<|oscalls ::= S|><|headers ::= <[b := header_zero]>|>)) ->
  wp I (malloc_header (at_port c i p r s)) Q.
Proof.
  intros HN HS. unfold malloc_header. apply wp_bind, pwp_os_call.
  destruct (os (oscalls s)) eqn:Hos; simpl; [|by apply HN].
  unfold at_port. rewrite headers_set_sec.
  rewrite set_sec_headers. apply HS; [done|apply fresh_header_new].
Qed.

Lemma pwp_free_header b h Q :
  headers s !! b = Some h -> Q tt (at_port c i p r s<|headers ::= delete b|>) ->
  wp I (free_header b (at_port c i p r s)) Q.
Proof.
  intros Hb HQ. unfold free_header. apply wp_bind, wp_gets. unfold at_port in *.
  rewrite headers_set_sec, Hb. simpl. by rewrite set_sec_headers.
Qed.

Lemma pwp_Malloc size Q :
  (os (oscalls s) = false -> Q None (at_port c i p r s<|oscalls ::= S|>)) ->
  (os (oscalls s) = true -> forall a, 0 < a -> memory s !! a = None ->
     Q (Some a) (at_port c i p r s<|oscalls ::= S|><|memory ::= <[a := replicate (Z.to_nat size) None]>|>)) ->
  wp I (SEC_OSAL_Malloc size (at_port c i p r s)) Q.
Proof.
  intros HN HS. unfold SEC_OSAL_Malloc. apply wp_bind, pwp_os_call.
  destruct (os (oscalls s)) eqn:Hos; simpl; [|by apply HN].
  unfold at_port. rewrite memory_set_sec.
  rewrite set_sec_memory.
  apply HS; [done|apply fresh_address_pos|apply fresh_address_new].
Qed.

Lemma pwp_Free a Q :
  0 < a -> is_Some (memory s !! a) -> Q tt (at_port c i p r s<|memory ::= delete a|>) ->
  wp I (SEC_OSAL_Free a (at_port c i p r s)) Q.
Proof.
  intros Ha Hm HQ. unfold SEC_OSAL_Free. rewrite (proj2 (Z.eqb_neq a 0)) by lia.
  apply wp_bind, wp_gets. unfold at_port in *. rewrite memory_set_sec, bool_decide_true by done. simpl.
  by rewrite set_sec_memory.
Qed.

Lemma pwp_load_header {E} (f : OMX_BUFFERHEADERTYPE -> E) `{!Settable f} b h Q :
  headers s !! b = Some h -> Q (f h) (at_port c i p r s) ->
  wp I (load (header b)↘f (at_port c i p r s)) Q.
Proof.
  intros Hh HQ. unfold load. cbn [look member header]. unfold at_port in *.
  by rewrite headers_set_sec, Hh.
Qed.

Lemma pwp_put_header b h v Q :
  headers s !! b = Some h -> Q tt (at_port c i p r s<|headers ::= <[b := v]>|>) ->
  wp I (store (header b) v (at_port c i p r s)) Q.
Proof.
  intros Hh HQ. unfold store, at_port in *. cbn [look header put]. rewrite headers_set_sec, Hh.
  simpl. by rewrite set_sec_headers.
Qed.
End rules.

(** The same for a state that is seen as a component and the rest. *)
Section sec_rules.
Context `{Env} (I : St -> Prop) {c : nat} (r : SEC_OMX_BASECOMPONENT) (s : St).

Lemma wp_load_header b h Q :
  headers s !! b = Some h -> Q h (set_sec c r s) -> wp I (load (header b) (set_sec c r s)) Q.
Proof. intros Hh HQ. unfold load. cbn [look header]. by rewrite headers_set_sec, Hh. Qed.

Lemma wp_update_header b h f Q :
  headers s !! b = Some h -> Q tt (set_sec c r s<|headers ::= <[b := f h]>|>) ->
  wp I (update (header b) f (set_sec c r s)) Q.
Proof.
  intros Hh HQ. unfold update. cbn [look header put]. rewrite headers_set_sec, Hh.
  simpl. by rewrite set_sec_headers.
Qed.

Lemma wp_store_header {E} (f : OMX_BUFFERHEADERTYPE -> E) `{!Settable f} b h v Q :
  headers s !! b = Some h -> Q tt (set_sec c r s<|headers ::= <[b := h<|f := v|>]>|>) ->
  wp I (store (header b)↘f v (set_sec c r s)) Q.
Proof.
  intros Hh HQ. unfold store. cbn [look member header put]. rewrite headers_set_sec, Hh.
  simpl. by rewrite set_sec_headers.
Qed.

Lemma wp_gets_memory Q : Q (memory s) (set_sec c r s) -> wp I (gets memory (set_sec c r s)) Q.
Proof. intros HQ. apply wp_gets. by rewrite memory_set_sec. Qed.

(** A copy inside of both blocks, of areas that do not overlap. *)
Lemma wp_Memcpy dest doff src soff n d b Q :
  0 < n < 2 ^ 31 -> dest <> src \/ n <= Z.abs (doff - soff) ->
  memory s !! dest = Some d -> memory s !! src = Some b ->
  0 <= soff -> soff + n <= zlength b -> 0 <= doff -> doff + n <= zlength d ->
  Q tt (set_sec c r s<|memory ::= <[dest := take (Z.to_nat doff) d ++
           take (Z.to_nat n) (drop (Z.to_nat soff) b) ++ drop (Z.to_nat (doff + n)) d]>|>) ->
  wp I (SEC_OSAL_Memcpy dest doff src soff n (set_sec c r s)) Q.
Proof.
  unfold zlength. intros Hn Hne Hd Hb ???? HQ. unfold SEC_OSAL_Memcpy. rewrite s32_small by lia.
  rewrite (proj2 (Z.eqb_neq n 0)) by lia. apply wp_bind, wp_gets. rewrite memory_set_sec, Hd, Hb.
  rewrite (proj2 (Z.ltb_lt 0 n)), !(proj2 (Z.leb_le _ _)) by lia. simpl.
  replace ((dest =? src) && (Z.abs (doff - soff) <? n))%bool with false
    by (destruct (Z.eqb_spec dest src), (Z.ltb_spec (Z.abs (doff - soff)) n); simpl; lia).
  simpl. by rewrite set_sec_memory.
Qed.
End sec_rules.

(** An allocation that is taken back leaves no trace. *)
Lemma headers_undo s b x : headers s !! b = None ->
  s<|headers ::= <[b := x]>|><|headers ::= delete b|> = s.
Proof. intros Hb. destruct s; simpl in *. unfold set_field; simpl. f_equal. by apply delete_insert_id. Qed.
Lemma memory_undo_calls s a x : memory s !! a = None ->
  s<|oscalls ::= S|><|memory ::= <[a := x]>|><|oscalls ::= S|><|memory ::= delete a|> =
  s<|oscalls := S (S (oscalls s))|>.
Proof. intros Hb. destruct s; simpl in *. unfold set_field; simpl. f_equal. by apply delete_insert_id. Qed.
Lemma headers_twice s b x y :
  s<|headers ::= <[b := x]>|><|headers ::= <[b := y]>|> = s<|headers ::= <[b := y]>|>.
Proof. destruct s; simpl. unfold set_field; simpl. f_equal. apply insert_insert_eq. Qed.
Lemma memory_twice s a x y :
  s<|memory ::= <[a := x]>|><|memory ::= <[a := y]>|> = s<|memory ::= <[a := y]>|>.
Proof. destruct s; simpl. unfold set_field; simpl. f_equal. apply insert_insert_eq. Qed.
