(* ===== verification/Samples.v ===== *)
(** * A concrete environment and component

    A small instance of the model, on which the hypotheses of the theorems are
    shown to hold: an environment in which every operating system call
    succeeds, and a decoder component with two enabled ports. *)
From S2P Require Import Prelude Machine OmxEnums OsalSync OsalQueue OmxTypes OmxState Focus.

Definition sample_platform : Platform.
Proof. refine {| SEM_VALUE_MAX := 0x7FFFFFFF |}. lia. Defined.

Definition sample_env : Env := {|
  os := fun _ => true;
  env_platform := sample_platform;
  sizeof_COMPONENTTYPE := 116;
  sizeof_PORTDEFINITIONTYPE := 96;
  sizeof_PORT_PARAM_TYPE := 16;
  sizeof_PRIORITYMGMTTYPE := 16;
  sizeof_BUFFERSUPPLIERTYPE := 16;
  sizeof_BUFFERHEADERTYPE := 80
|}.

(** A queue as [SEC_OSAL_QueueCreate] leaves it, holding [l]. *)
Definition sample_queue_empty (A : Type) : SEC_QUEUE A :=
  match queue_create (fun _ => true) 0 queue_zero with
  | Some (_, _, q) => q
  | None => queue_zero
  end.
Definition sample_queue_with {A} (l : list A) : SEC_QUEUE A :=
  fold_left (fun q x => match queue_put q (Some x) with Some (_, q') => q' | None => q end)
    l (sample_queue_empty A).

Lemma sample_queue_empty_repr A : queue_repr (sample_queue_empty A) [].
Proof.
  unfold sample_queue_empty.
  destruct (queue_create_repr (A := A) (fun _ => true) 0 queue_zero eq_refl) as (r & n & q & Hq & Hr).
  rewrite Hq. replace (is_err r) with false in Hr; [done|].
  revert Hq. vm_compute. by intros [= <- _ _].
Qed.

Lemma sample_queue_with_repr {A} (l : list A) :
  (length l <= ring_size)%nat -> queue_repr (sample_queue_with l) l.
Proof.
  unfold sample_queue_with. intros Hlen.
  induction l as [|x l IH] using rev_ind; [apply sample_queue_empty_repr|].
  rewrite length_app in Hlen. simpl in Hlen. rewrite fold_left_app. simpl.
  destruct (queue_put_repr _ l x (IH ltac:(lia))) as (z & q' & -> & Hz).
  rewrite decide_True in Hz by lia. tauto.
Qed.

Definition sample_portdef (i : Z) (dir : OMX_DIRTYPE) : OMX_PARAM_PORTDEFINITIONTYPE :=
  mkPortDef (INIT_SET_SIZE_VERSION 96) i dir 4 2 1024 true true OMX_PortDomainVideo video_zero false 0.

Definition sample_port (i : Z) (dir : OMX_DIRTYPE) (hs : list (option nat)) (l : list queue_item)
  : SEC_OMX_BASEPORT :=
  mkBasePort (Ptr (hs ++ replicate (20 - length hs) None)) (Ptr (replicate 20 0))
    (sample_portdef i dir) (Some (Z.of_nat (length l))) (sample_queue_with l) 0 OMX_StateIdle
    (Some 0) (Some 0) false false mark_zero (mkRect 0 0 0 0) None 0 0
    OMX_BufferSupplyUnspecified 0 false false.

Definition sample_component (st : OMX_STATETYPE) (msgs : list SEC_OMX_MESSAGE)
    (p0 p1 : SEC_OMX_BASEPORT) : SEC_OMX_BASECOMPONENT :=
  mkBaseComponent "OMX.SEC.AVC.Decoder" (mkVersion 1 0 0 0) (mkVersion 1 0 0 0) st
    SEC_OMX_TransStateMax HW_VIDEO_DEC_CODEC (mkPriority 1 0) (Some false) false (Some 7%nat)
    (Some (Z.of_nat (length msgs))) (sample_queue_with msgs) false (Some 8%nat)
    [databuffer_zero<|bufferMutex := Some false|>; databuffer_zero<|bufferMutex := Some false|>]
    (replicate 2 data_zero)
    (mkPortParam (INIT_SET_SIZE_VERSION 16) 2 0) (Ptr [p0; p1]) (Ptr (mkEvent false (Some false)))
    (Some 0%nat) 0 (replicate 17 0) (mkTimeStamp false false 0 0) (replicate 17 0)
    false false false (replicate 8 false) false false mark_zero Null.

(** A state with one component, number 1, and the given buffer headers. *)
Definition sample_state (r : SEC_OMX_BASECOMPONENT) (hs : gmap nat OMX_BUFFERHEADERTYPE) : St :=
  mkSt {[ 1%nat := mkComponent (INIT_SET_SIZE_VERSION 116) (Ptr r) ]} hs [] [] [] [] (Some false)
    {[ 7%nat := mkThread SEC_OMX_MessageHandlerThread 1 false;
       8%nat := mkThread SEC_OMX_BufferProcessThread 1 false ]} [] 100 ∅.

Lemma sample_live r hs : live (H := sample_env) 1 (sample_state r hs).
Proof. eexists _, r. split; [done|]. by split. Qed.

Lemma sample_look r hs : look (pSECComponent 1) (sample_state r hs) = inr r.
Proof. done. Qed.

(** A state with several components, and with decoders listed by the resource
    manager. *)
Definition sample_state_of (cs : gmap nat SEC_OMX_BASECOMPONENT)
    (dec : list SEC_OMX_RM_COMPONENT_LIST) : St :=
  mkSt ((fun r => mkComponent (INIT_SET_SIZE_VERSION 116) (Ptr r)) <$> cs) ∅ dec [] [] []
    (Some false) ∅ [] 100 ∅.

Lemma sample_live_of cs dec c r :
  cs !! c = Some r -> live (H := sample_env) c (sample_state_of cs dec).
Proof.
  intros Hc. eexists _, r. simpl. rewrite lookup_fmap, Hc. split; [done|]. by split.
Qed.

Lemma sample_look_of cs dec c r :
  cs !! c = Some r -> look (pSECComponent c) (sample_state_of cs dec) = inr r.
Proof. intros Hc. simpl. by rewrite lookup_fmap, Hc. Qed.

Definition sample_idle_ports (st : OMX_STATETYPE) : SEC_OMX_BASECOMPONENT :=
  sample_component st [] (sample_port 0 OMX_DirInput [] []) (sample_port 1 OMX_DirOutput [] []).

(** A codec whose functions do nothing. *)
Definition sample_ops : ComponentOps := {|
  sec_mfc_componentInit := fun _ => ret OMX_ErrorNone;
  sec_mfc_componentTerminate := Some (fun _ => ret OMX_ErrorNone);
  sec_AllocateTunnelBuffer := fun _ _ => ret OMX_ErrorTunnelingUnsupported;
  sec_FreeTunnelBuffer := fun _ _ => ret OMX_ErrorTunnelingUnsupported;
  sec_BufferReset := fun _ _ => ret OMX_ErrorNone;
  sec_InputBufferReturn := fun _ => ret OMX_ErrorNone;
  sec_OutputBufferReturn := fun _ => ret OMX_ErrorNone
|}.

(** The environment in which exactly the [k]-th system call fails. *)
Definition failing_env (k : nat) : Env := {|
  os := fun n => negb (Nat.eqb n k);
  env_platform := sample_platform;
  sizeof_COMPONENTTYPE := 116;
  sizeof_PORTDEFINITIONTYPE := 96;
  sizeof_PORT_PARAM_TYPE := 16;
  sizeof_PRIORITYMGMTTYPE := 16;
  sizeof_BUFFERSUPPLIERTYPE := 16;
  sizeof_BUFFERHEADERTYPE := 80
|}.

Definition sample_header (i o : Z) : OMX_BUFFERHEADERTYPE :=
  mkHeader (INIT_SET_SIZE_VERSION 80) 4096 1024 512 0 0 None 0 0 0 o i.
