(* ===== verification/Command.v ===== *)
(** * Commands of the base component

    Models the command half of [component/common/SEC_OMX_Basecomponent.c]:
    [SEC_OMX_SendCommand], the per-command preparations [SEC_StateSet],
    [SEC_SetPortFlush], [SEC_SetPortEnable], [SEC_SetPortDisable],
    [SEC_SetMarkBuffer], and the posting of the command to the message handler
    thread ([SEC_OMX_CommandQueue]).  None of them blocks. *)
From S2P Require Import Prelude Machine OmxEnums OsalSync OsalQueue OmxTypes OmxState Focus Samples.

Section command.
Context `{Env}.

(** [destState == s] for the [OMX_U32] of a command. *)
Definition is_state (nParam : Z) (s : OMX_STATETYPE) : bool :=
  bool_decide (OMX_STATETYPE_of_U32 nParam = s).

Definition set_all_portState (c : nat) (nPorts : Z) (st : OMX_STATETYPE) : M St unit :=
  for_from 0 (Z.to_nat nPorts) (fun i => store (port c i)↘portState st).

Definition SEC_StateSet (c : nat) (nParam : Z) : M St OMX_ERRORTYPE :=
  let* cur := load (pSECComponent c)↘currentState in
  let* pp := load (pSECComponent c)↘portParam in
  (if is_state nParam OMX_StateIdle && bool_decide (cur = OMX_StateLoaded) then
     store (pSECComponent c)↘transientState SEC_OMX_TransStateLoadedToIdle ;;;
     set_all_portState c (nPorts pp) OMX_StateIdle
   else if is_state nParam OMX_StateLoaded && bool_decide (cur = OMX_StateIdle) then
     store (pSECComponent c)↘transientState SEC_OMX_TransStateIdleToLoaded ;;;
     set_all_portState c (nPorts pp) OMX_StateLoaded
   else if is_state nParam OMX_StateIdle && bool_decide (cur = OMX_StateExecuting) then
     store (pSECComponent c)↘transientState SEC_OMX_TransStateExecutingToIdle
   else if is_state nParam OMX_StateExecuting && bool_decide (cur = OMX_StateIdle) then
     store (pSECComponent c)↘transientState SEC_OMX_TransStateIdleToExecuting
   else if is_state nParam OMX_StateInvalid then
     set_all_portState c (nPorts pp) OMX_StateInvalid
   else ret tt)%bool ;;;
  ret OMX_ErrorNone.

(** The check that opens the three port commands: [portIndex] is an [OMX_S32],
    so every negative index other than [ALL_PORT_INDEX] passes it. *)
Definition bad_port (portIndex : Z) (nPorts : Z) : bool :=
  negb (portIndex =? ALL_PORT_INDEX) && (s32 nPorts <=? portIndex).

(** [index] is an [OMX_U16]. *)
Definition SEC_SetPortFlush (c : nat) (nParam : Z) : M St OMX_ERRORTYPE :=
  let portIndex := s32 nParam in
  let* cur := load (pSECComponent c)↘currentState in
  if (bool_decide (cur = OMX_StateExecuting) || bool_decide (cur = OMX_StatePause))%bool then
    let* pp := load (pSECComponent c)↘portParam in
    if bad_port portIndex (nPorts pp) then ret OMX_ErrorBadPortIndex
    else
      let cnt := if portIndex =? ALL_PORT_INDEX then ALL_PORT_NUM else 1 in
      for_from 0 (Z.to_nat cnt) (fun i =>
        let index := if portIndex =? ALL_PORT_INDEX then i else u16 portIndex in
        store (port c index)↘bIsPortFlushed true) ;;;
      ret OMX_ErrorNone
  else ret OMX_ErrorIncorrectStateOperation.

Definition enable_port_state (c : nat) (i : Z) : M St (option OMX_ERRORTYPE) :=
  let* p := load (port c i) in
  if CHECK_PORT_ENABLED p then ret (Some OMX_ErrorIncorrectStateOperation)
  else store (port c i)↘portState OMX_StateIdle ;;; ret None.

Definition SEC_SetPortEnable (c : nat) (nParam : Z) : M St OMX_ERRORTYPE :=
  let portIndex := s32 nParam in
  let* pp := load (pSECComponent c)↘portParam in
  if bad_port portIndex (nPorts pp) then ret OMX_ErrorBadPortIndex
  else
    let* r := (if portIndex =? ALL_PORT_INDEX
               then for_exit 0 (Z.to_nat (nPorts pp)) (enable_port_state c)
               else enable_port_state c portIndex) in
    ret (default OMX_ErrorNone r).

Definition mark_port_disabled (c : nat) (i : Z) : M St unit :=
  store (port c i)↘portState OMX_StateLoaded ;;;
  store (port c i)↘bIsPortDisabled true.

Definition SEC_SetPortDisable (c : nat) (nParam : Z) : M St OMX_ERRORTYPE :=
  let portIndex := s32 nParam in
  let* pp := load (pSECComponent c)↘portParam in
  if bad_port portIndex (nPorts pp) then ret OMX_ErrorBadPortIndex
  else if portIndex =? ALL_PORT_INDEX then
    let* r := for_exit 0 (Z.to_nat (nPorts pp)) (fun i =>
      let* p := load (port c i) in
      if negb (CHECK_PORT_ENABLED p) then ret (Some OMX_ErrorIncorrectStateOperation)
      else mark_port_disabled c i ;;; ret None) in
    ret (default OMX_ErrorNone r)
  else
    mark_port_disabled c portIndex ;;; ret OMX_ErrorNone.

Definition SEC_SetMarkBuffer (c : nat) (nParam : Z) : M St OMX_ERRORTYPE :=
  let* pp := load (pSECComponent c)↘portParam in
  if nPorts pp <=? nParam then ret OMX_ErrorBadPortIndex
  else
    let* cur := load (pSECComponent c)↘currentState in
    if (bool_decide (cur = OMX_StateExecuting) || bool_decide (cur = OMX_StatePause))%bool
    then ret OMX_ErrorNone
    else ret OMX_ErrorIncorrectStateOperation.

Definition SEC_OMX_CommandQueue (c : nat) (Cmd : OMX_COMMANDTYPE) (nParam : Z)
    (pCmdData : option omx_ptr) : M St OMX_ERRORTYPE :=
  let* ok := os_call in
  if negb ok then ret OMX_ErrorInsufficientResources
  else
    let* r := Queue (pSECComponent c)↘messageQ (mkMessage Cmd nParam pCmdData) in
    if negb (r =? 0) then ret OMX_ErrorUndefined
    else SemaphorePost (pSECComponent c)↘msgSemaphoreHandle.

(** The preparation of each command; [OMX_ErrorNone] lets it be queued.  The
    result of [SEC_StateSet] is ignored. *)
Definition prepare_command (c : nat) (Cmd : OMX_COMMANDTYPE) (nParam : Z) : M St OMX_ERRORTYPE :=
  match Cmd with
  | OMX_CommandStateSet => SEC_StateSet c nParam ;;; ret OMX_ErrorNone
  | OMX_CommandFlush => SEC_SetPortFlush c nParam
  | OMX_CommandPortDisable => SEC_SetPortDisable c nParam
  | OMX_CommandPortEnable => SEC_SetPortEnable c nParam
  | OMX_CommandMarkBuffer => SEC_SetMarkBuffer c nParam
  | _ => ret OMX_ErrorNone
  end.

Definition SEC_OMX_SendCommand (hComponent : option nat) (Cmd : OMX_COMMANDTYPE) (nParam : Z)
    (pCmdData : option omx_ptr) : M St OMX_ERRORTYPE :=
  entry hComponent (fun c =>
    unless_invalid c (
      let* r := prepare_command c Cmd nParam in
      if is_err r then ret r
      else SEC_OMX_CommandQueue c Cmd nParam pCmdData)).
(** ** What a command does to its component *)

(** A component with its two ports. *)
Definition two_ports (r : SEC_OMX_BASECOMPONENT) (p0 p1 : SEC_OMX_BASEPORT) : Prop :=
  pSECPort r = Ptr [p0; p1] /\ nPorts (portParam r) = 2.

(** What no command touches before it is handled, and what none touches before
    it is queued. *)
Definition same_settings (r r' : SEC_OMX_BASECOMPONENT) : Prop :=
  currentState r' = currentState r /\ pCallbacks r' = pCallbacks r /\
  pauseEvent r' = pauseEvent r /\ hBufferProcess r' = hBufferProcess r /\
  codecType r' = codecType r /\ compPriority r' = compPriority r.
Definition same_queue (r r' : SEC_OMX_BASECOMPONENT) : Prop :=
  messageQ r' = messageQ r /\ msgSemaphoreHandle r' = msgSemaphoreHandle r /\
  same_settings r r'.

(** The verdict on a command, as a table of the interface: state of the
    component, port enabled or not, index in range. *)
Definition command_check (r : SEC_OMX_BASECOMPONENT) (p0 p1 : SEC_OMX_BASEPORT)
    (Cmd : OMX_COMMANDTYPE) (nParam : Z) : OMX_ERRORTYPE :=
  let i := s32 nParam in
  let active := bool_decide (currentState r = OMX_StateExecuting \/ currentState r = OMX_StatePause) in
  match Cmd with
  | OMX_CommandFlush =>
      if negb active then OMX_ErrorIncorrectStateOperation
      else if 2 <=? i then OMX_ErrorBadPortIndex else OMX_ErrorNone
  | OMX_CommandPortEnable =>
      if 2 <=? i then OMX_ErrorBadPortIndex
      else if (negb (i =? 1) && CHECK_PORT_ENABLED p0
               || negb (i =? 0) && CHECK_PORT_ENABLED p1)%bool
      then OMX_ErrorIncorrectStateOperation else OMX_ErrorNone
  | OMX_CommandPortDisable =>
      if 2 <=? i then OMX_ErrorBadPortIndex
      else if ((i =? -1) && negb (CHECK_PORT_ENABLED p0 && CHECK_PORT_ENABLED p1))%bool
      then OMX_ErrorIncorrectStateOperation else OMX_ErrorNone
  | OMX_CommandMarkBuffer =>
      if 2 <=? nParam then OMX_ErrorBadPortIndex
      else if active then OMX_ErrorNone else OMX_ErrorIncorrectStateOperation
  | _ => OMX_ErrorNone
  end.

(** The parameter names a port, all ports, or a port that does not exist. *)
Definition param_ok (nParam : Z) : Prop := -1 <= s32 nParam.

Lemma port_get_01 r p0 p1 i :
  pSECPort r = Ptr [p0; p1] -> 0 <= i < 2 ->
  port_get i r = inr (if decide (i = 0) then p0 else p1).
Proof.
  intros Hp Hi. unfold port_get. rewrite Hp.
  assert (i = 0 \/ i = 1) as [-> | ->] by lia; done.
Qed.

Lemma port_put_01 r p0 p1 i p :
  pSECPort r = Ptr [p0; p1] -> 0 <= i < 2 ->
  port_put i p r = r<|pSECPort := Ptr (if decide (i = 0) then [p; p1] else [p0; p])|>.
Proof.
  intros Hp Hi. unfold port_put. rewrite Hp.
  assert (i = 0 \/ i = 1) as [-> | ->] by lia; done.
Qed.

Lemma set_all_portState_spec I c r s p0 p1 st Q :
  valid c s -> pSECPort r = Ptr [p0; p1] ->
  Q tt (set_sec c r<|pSECPort := Ptr [p0<|portState := st|>; p1<|portState := st|>]|> s) ->
  wp I (set_all_portState c 2 st (set_sec c r s)) Q.
Proof.
  intros Hv Hp HQ. unfold set_all_portState. wsteps. done.
Qed.

Lemma SEC_StateSet_spec I c r s p0 p1 nParam (Q : OMX_ERRORTYPE -> St -> Prop) :
  valid c s -> two_ports r p0 p1 ->
  (forall r' p0' p1', same_queue r r' -> two_ports r' p0' p1' -> Q OMX_ErrorNone (set_sec c r' s)) ->
  wp I (SEC_StateSet c nParam (set_sec c r s)) Q.
Proof.
  intros Hv [Hp Hn] HQ. unfold SEC_StateSet. wsteps. rewrite Hn.
  repeat case_match; wsteps; try (eapply set_all_portState_spec; [done|done|]);
    wsteps; (eapply HQ; [by split_and!|by split]).
Qed.

(** A valid parameter is [ALL_PORT_INDEX], a port, or out of range. *)
Lemma param_cases nParam :
  param_ok nParam ->
  s32 nParam = -1 \/ s32 nParam = 0 \/ s32 nParam = 1 \/ 2 <= s32 nParam.
Proof. unfold param_ok. lia. Qed.

Lemma bad_port_spec i : -1 <= i -> bad_port i 2 = (2 <=? i).
Proof.
  intros. unfold bad_port, ALL_PORT_INDEX. change (s32 2) with 2.
  destruct (Z.eqb_spec i (-1)), (Z.leb_spec 2 i); done || lia.
Qed.

(** Opens a port command: the four cases of its parameter. *)
Ltac param_split Hok :=
  destruct (param_cases _ Hok) as [Hi|[Hi|[Hi|Hi]]];
  [rewrite Hi.. | rewrite ?(proj2 (Z.leb_le 2 _) Hi)].

Section prepare.
Context (I : St -> Prop) (c : nat) (r : SEC_OMX_BASECOMPONENT) (p0 p1 : SEC_OMX_BASEPORT).
Context (s : St) (nParam : Z) (Q : OMX_ERRORTYPE -> St -> Prop).
Hypothesis (Hv : valid c s) (Hr : two_ports r p0 p1) (Hok : param_ok nParam).

(** The verdict [e], with a component that kept its queue and its two ports. *)
Definition prepared (e : OMX_ERRORTYPE) : Prop :=
  forall r' p0' p1', same_queue r r' -> two_ports r' p0' p1' -> Q e (set_sec c r' s).

Ltac conclude HQ := eapply HQ; [by split_and!|by split].

Lemma SEC_SetPortFlush_spec :
  prepared (command_check r p0 p1 OMX_CommandFlush nParam) ->
  wp I (SEC_SetPortFlush c nParam (set_sec c r s)) Q.
Proof.
  intros HQ. destruct Hr as [Hp Hn]. unfold SEC_SetPortFlush. simpl in HQ. wsteps.
  destruct (bool_decide (currentState r = OMX_StateExecuting)) eqn:HE;
    destruct (bool_decide (currentState r = OMX_StatePause)) eqn:HP; zbool;
    cbn [orb]; wsteps; rewrite ?Hn, ?bad_port_spec by done.
  1-3: rewrite bool_decide_eq_true_2 in HQ by tauto; simpl in HQ.
  4: rewrite bool_decide_eq_false_2 in HQ by tauto; simpl in HQ; by conclude HQ.
  all: param_split Hok; rewrite ?Hi, ?(proj2 (Z.leb_le 2 _) Hi) in HQ;
    cbn in HQ |- *; wsteps; conclude HQ.
Qed.

Lemma SEC_SetPortEnable_spec :
  prepared (command_check r p0 p1 OMX_CommandPortEnable nParam) ->
  wp I (SEC_SetPortEnable c nParam (set_sec c r s)) Q.
Proof.
  intros HQ. destruct Hr as [Hp Hn]. unfold SEC_SetPortEnable, enable_port_state. simpl in HQ.
  wsteps. rewrite Hn, bad_port_spec by done.
  param_split Hok; rewrite ?Hi, ?(proj2 (Z.leb_le 2 _) Hi) in HQ; cbn in HQ |- *; wsteps.
  - destruct (CHECK_PORT_ENABLED p0); cbn in HQ; wsteps; [conclude HQ|].
    change (CHECK_PORT_ENABLED p1) with (CHECK_PORT_ENABLED p1).
    destruct (CHECK_PORT_ENABLED p1); wsteps; conclude HQ.
  - destruct (CHECK_PORT_ENABLED p0); cbn in HQ; wsteps; conclude HQ.
  - destruct (CHECK_PORT_ENABLED p1); cbn in HQ; wsteps; conclude HQ.
  - conclude HQ.
Qed.

Lemma SEC_SetPortDisable_spec :
  prepared (command_check r p0 p1 OMX_CommandPortDisable nParam) ->
  wp I (SEC_SetPortDisable c nParam (set_sec c r s)) Q.
Proof.
  intros HQ. destruct Hr as [Hp Hn]. unfold SEC_SetPortDisable, mark_port_disabled. simpl in HQ.
  wsteps. rewrite Hn, bad_port_spec by done.
  param_split Hok; rewrite ?Hi, ?(proj2 (Z.leb_le 2 _) Hi) in HQ; cbn in HQ |- *; wsteps.
  - destruct (CHECK_PORT_ENABLED p0); cbn in HQ |- *; wsteps; [|conclude HQ].
    destruct (CHECK_PORT_ENABLED p1); cbn in HQ |- *; wsteps; conclude HQ.
  - conclude HQ.
  - conclude HQ.
  - conclude HQ.
Qed.

Lemma SEC_SetMarkBuffer_spec :
  prepared (command_check r p0 p1 OMX_CommandMarkBuffer nParam) ->
  wp I (SEC_SetMarkBuffer c nParam (set_sec c r s)) Q.
Proof.
  intros HQ. destruct Hr as [Hp Hn]. unfold SEC_SetMarkBuffer. simpl in HQ.
  wsteps. rewrite Hn. destruct (2 <=? nParam); wsteps; [conclude HQ|].
  destruct (bool_decide (currentState r = OMX_StateExecuting)) eqn:HE;
    destruct (bool_decide (currentState r = OMX_StatePause)) eqn:HP; zbool; cbn [orb]; wsteps.
  1-3: rewrite bool_decide_eq_true_2 in HQ by tauto; conclude HQ.
  rewrite bool_decide_eq_false_2 in HQ by tauto. conclude HQ.
Qed.

Lemma prepare_command_spec Cmd :
  prepared (command_check r p0 p1 Cmd nParam) ->
  wp I (prepare_command c Cmd nParam (set_sec c r s)) Q.
Proof.
  intros HQ. destruct Cmd; cbn [prepare_command];
    try (wsteps; eapply HQ; [by split_and!|exact Hr]).
  - wsteps. eapply SEC_StateSet_spec; [done|done|]. intros. wsteps. by eapply HQ.
  - by apply SEC_SetPortFlush_spec.
  - by apply SEC_SetPortDisable_spec.
  - by apply SEC_SetPortEnable_spec.
  - by apply SEC_SetMarkBuffer_spec.
Qed.
End prepare.

(** ** The whole call *)
Lemma live_other c s s' : comps s' = comps s -> live c s -> live c s'.
Proof. unfold live. by intros ->. Qed.

(** The answer of [SEC_OMX_SendCommand] to a well-formed component with [n]
    commands pending. *)
Definition send_result (r : SEC_OMX_BASECOMPONENT) (p0 p1 : SEC_OMX_BASEPORT) (n : nat) (ok : bool)
    (Cmd : OMX_COMMANDTYPE) (nParam : Z) : OMX_ERRORTYPE :=
  let e := command_check r p0 p1 Cmd nParam in
  if is_err e then e
  else if negb ok then OMX_ErrorInsufficientResources
  else if decide (n < ring_size)%nat then OMX_ErrorNone else OMX_ErrorUndefined.

Lemma CommandQueue_wp I c r s l v Cmd nParam data (Q : OMX_ERRORTYPE -> St -> Prop) :
  valid c s -> queue_repr (messageQ r) l -> msgSemaphoreHandle r = Some v ->
  0 <= v < SEM_VALUE_MAX ->
  (forall q' : SEC_QUEUE SEC_OMX_MESSAGE,
     let m := mkMessage Cmd nParam data in
     let s' := s<|oscalls ::= S|> in
     if negb (os (oscalls s)) then Q OMX_ErrorInsufficientResources (set_sec c r s')
     else if decide (length l < ring_size)%nat then
       queue_repr q' (l ++ [m]) ->
       Q OMX_ErrorNone (set_sec c r<|messageQ := q'|><|msgSemaphoreHandle := Some (v + 1)|> s')
     else Q OMX_ErrorUndefined (set_sec c r<|messageQ := messageQ r|> s')) ->
  wp I (SEC_OMX_CommandQueue c Cmd nParam data (set_sec c r s)) Q.
Proof.
  intros Hv Hq Hsem Hmax HQ. unfold SEC_OMX_CommandQueue. wsteps.
  destruct (os (oscalls s)); simpl in *; [|wsteps; by apply (HQ (messageQ r))].
  wstep. eapply wp_Queue; [apply _|fvalid|done|done| |].
  - intros Hlen q' Hq'. specialize (HQ q'). rewrite decide_True in HQ by done. simpl.
    unfold SemaphorePost. eapply wp_apply_at; [apply _|fvalid|done| | |by apply HQ].
    + simpl. rewrite Hsem. simpl. destruct (Z.eqb_spec v SEM_VALUE_MAX); [lia|done].
    + done.
  - intros Hlen. specialize (HQ (messageQ r)). rewrite decide_False in HQ by lia. wsteps. done.
Qed.

(** What [SEC_OMX_SendCommand] establishes: the answer, and a message at the
    end of the queue exactly when the answer is [OMX_ErrorNone]. *)
Definition sent (c : nat) (s : St) (r : SEC_OMX_BASECOMPONENT) (l : list SEC_OMX_MESSAGE) (v : Z)
    (m : SEC_OMX_MESSAGE) (e : OMX_ERRORTYPE) (s' : St) : Prop :=
  exists r' p0' p1' n', s' = set_sec c r' s<|oscalls := n'|> /\ two_ports r' p0' p1' /\
    same_settings r r' /\
    if is_err e then queue_repr (messageQ r') l /\ msgSemaphoreHandle r' = Some v
    else queue_repr (messageQ r') (l ++ [m]) /\ msgSemaphoreHandle r' = Some (v + 1).

Lemma SendCommand_wp I c s r p0 p1 l v Cmd nParam data :
  live c s -> two_ports r p0 p1 -> currentState r <> OMX_StateInvalid -> param_ok nParam ->
  queue_repr (messageQ r) l -> msgSemaphoreHandle r = Some v -> 0 <= v < SEM_VALUE_MAX ->
  wp I (SEC_OMX_SendCommand (Some c) Cmd nParam data (set_sec c r s)) (fun e s' =>
    e = send_result r p0 p1 (length l) (os (oscalls s)) Cmd nParam /\
    sent c s r l v (mkMessage Cmd nParam data) e s').
Proof.
  intros Hl Hr Hst Hok Hq Hsem Hv. pose proof (live_valid _ _ Hl) as Hval.
  unfold SEC_OMX_SendCommand. apply wp_entry; [done|]. apply wp_unless_invalid; [done..|].
  wstep. eapply prepare_command_spec; [done..|].
  intros r' p0' p1' (Hm & Hs & Hset) Hr'.
  unfold send_result, sent. destruct (is_err (command_check _ _ _ _ _)) eqn:He.
  { wsteps. split; [done|]. exists r', p0', p1', (oscalls s). rewrite He.
    split_and!; try done; try congruence.
    by destruct s. }
  eapply CommandQueue_wp; [done|by rewrite Hm|by rewrite Hs|done|].
  intros q' m s'. destruct (os (oscalls s)); simpl.
  - case_decide.
    + intros Hq'. split; [done|]. eexists _, p0', p1', _. split; [done|]. simpl.
      split_and!; try done; apply Hr'.
    + split; [done|]. eexists _, p0', p1', _. split; [done|]. simpl.
      split_and!; try done; try apply Hr'; by rewrite ?Hm, ?Hs.
  - split; [done|]. eexists _, p0', p1', _. split; [done|]. simpl.
    split_and!; try done; try apply Hr'; by rewrite ?Hm, ?Hs.
Qed.

(** ** Components that can be sent commands

    A live component whose message queue and semaphore are in order, with
    callbacks installed: the semaphore never counts more than the messages. *)
Definition ready_component (c : nat) (s : St) : Prop :=
  exists r p0 p1 l v, live c s /\ look (pSECComponent c) s = inr r /\ two_ports r p0 p1 /\
    queue_repr (messageQ r) l /\ msgSemaphoreHandle r = Some v /\
    0 <= v <= Z.of_nat (length l) /\ is_Some (pCallbacks r).

(** The effect of a command sent to [c] on the rest of the system. *)
Definition command_effect (c : nat) (s s' : St) : Prop :=
  exists r r' n, look (pSECComponent c) s = inr r /\ same_settings r r' /\
    s' = set_sec c r' s<|oscalls := n|>.

Lemma queue_repr_length {A} (q : SEC_QUEUE A) l : queue_repr q l -> (length l <= ring_size)%nat.
Proof. by intros (? & _ & _ & ? & _). Qed.

Lemma ready_set_sec c c' r s : c <> c' -> ready_component c' s -> ready_component c' (set_sec c r s).
Proof.
  intros Hne (r' & p0 & p1 & l & v & Hl & Hlook & Hrest). exists r', p0, p1, l, v.
  split; [by apply live_set_sec|]. by rewrite look_sec_ne.
Qed.

Lemma ready_oscalls c s f : ready_component c s -> ready_component c s<|oscalls ::= f|>.
Proof. by intros (r' & p0 & p1 & l & v & Hrest); exists r', p0, p1, l, v. Qed.

(** A command leaves every component ready. *)
Lemma sent_ready c s r p0 p1 l v m e s' :
  live c s -> look (pSECComponent c) s = inr r -> two_ports r p0 p1 ->
  0 <= v <= Z.of_nat (length l) -> is_Some (pCallbacks r) -> sent c s r l v m e s' ->
  command_effect c s s' /\ forall c', ready_component c' s -> ready_component c' s'.
Proof.
  intros Hl Hlook Hr Hv Hcb (r' & p0' & p1' & n' & -> & Hr' & Hset & Hpost).
  pose proof (live_valid _ _ Hl) as Hval. split.
  { by exists r, r', n'. }
  intros c' Hc'. destruct (decide (c = c')) as [<-|Hne].
  - assert (live c (set_sec c r' s<|oscalls := n'|>)) as Hlive
      by by apply live_set_sec, (live_other _ s).
    destruct (is_err e); destruct Hpost as [Hq' Hsem'].
    + exists r', p0', p1', l, v. rewrite look_sec by fvalid. split_and!; try done; try lia.
      destruct Hset as (_ & -> & _). done.
    + eexists r', p0', p1', _, (v + 1). rewrite look_sec by fvalid. split_and!; try done; try lia.
      * rewrite length_app. simpl. lia.
      * destruct Hset as (_ & -> & _). done.
  - by apply ready_set_sec, ready_oscalls.
Qed.

Lemma SendCommand_ready I c s Cmd nParam data :
  ready_component c s -> param_ok nParam ->
  wp I (SEC_OMX_SendCommand (Some c) Cmd nParam data s) (fun e s' =>
    command_effect c s s' /\ forall c', ready_component c' s -> ready_component c' s').
Proof.
  intros (r & p0 & p1 & l & v & Hl & Hlook & Hr & Hq & Hsem & Hv & Hcb) Hok.
  pose proof (live_valid _ _ Hl) as Hval. pose proof SEM_VALUE_MAX_min as Hmin.
  pose proof (queue_repr_length _ _ Hq) as Hlen. unfold ring_size, MAX_QUEUE_ELEMENTS in Hlen.
  destruct (decide (currentState r = OMX_StateInvalid)) as [Hi|Hi].
  { rewrite <- (set_sec_id c s r Hlook). unfold SEC_OMX_SendCommand. apply wp_entry; [done|].
    unfold unless_invalid. wsteps. rewrite bool_decide_eq_true_2 by done. wsteps.
    rewrite (set_sec_id c s r Hlook). split; [|done].
    exists r, r, (oscalls s). split; [done|]. split; [by split_and!|].
    rewrite <- (set_sec_id c s r Hlook) at 1. by destruct s. }
  rewrite <- (set_sec_id c s r Hlook) at 1.
  eapply wp_mono; [|apply (SendCommand_wp I c s r p0 p1 l v); try done; lia].
  intros e s' [_ Hsent]. by eapply sent_ready.
Qed.

(** C2: on a component that is not [Invalid], [SEC_OMX_SendCommand] returns
    without blocking or faulting for every command and every parameter that is
    not a stray negative index; its answer is the one of the table
    [command_check] (or out of memory, or a full queue), the command is
    appended to the message queue and the message semaphore posted exactly when
    the answer is [OMX_ErrorNone], and the state of the component, its
    callbacks and the other components are left alone. *)
Theorem SendCommand_spec c s r p0 p1 l v Cmd nParam data :
  live c s -> look (pSECComponent c) s = inr r -> two_ports r p0 p1 ->
  currentState r <> OMX_StateInvalid -> param_ok nParam ->
  queue_repr (messageQ r) l -> msgSemaphoreHandle r = Some v -> 0 <= v < SEM_VALUE_MAX ->
  exists s', SEC_OMX_SendCommand (Some c) Cmd nParam data s
             = Done (send_result r p0 p1 (length l) (os (oscalls s)) Cmd nParam) s' /\
    sent c s r l v (mkMessage Cmd nParam data)
      (send_result r p0 p1 (length l) (os (oscalls s)) Cmd nParam) s' /\
    (forall c', c' <> c -> look (pSECComponent c') s' = look (pSECComponent c') s).
Proof.
  intros Hl Hlook Hr Hst Hok Hq Hsem Hv.
  pose proof (SendCommand_wp (fun _ => False) c s r p0 p1 l v Cmd nParam data
                Hl Hr Hst Hok Hq Hsem Hv) as Hwp.
  rewrite (set_sec_id c s r Hlook) in Hwp.
  destruct (wp_result _ _ Hwp) as (e & s' & Hrun & -> & Hsent).
  exists s'. split; [done|]. split; [done|]. intros c' Hc.
  destruct Hsent as (r' & _ & _ & n' & -> & _). by rewrite look_sec_ne.
Qed.

(** The port commands take the index as a signed number and only reject
    indices above the last port: [OMX_CommandPortDisable] with a parameter
    such as 0xFFFFFFFE writes outside the array of ports. *)
Theorem PortDisable_negative_index c s r p0 p1 nParam data :
  live c s -> look (pSECComponent c) s = inr r -> two_ports r p0 p1 ->
  currentState r <> OMX_StateInvalid -> s32 nParam < -1 ->
  SEC_OMX_SendCommand (Some c) OMX_CommandPortDisable nParam data s = Fault OutOfBounds.
Proof.
  intros Hl Hlook [Hp Hn] Hst Hneg. pose proof (live_valid _ _ Hl) as Hv.
  rewrite <- (set_sec_id c s r Hlook). unfold SEC_OMX_SendCommand.
  rewrite run_entry, run_unless_invalid by done. unfold bind, prepare_command, SEC_SetPortDisable.
  unfold bind at 1. rewrite run_load by done. simpl. rewrite Hn.
  unfold bad_port, ALL_PORT_INDEX. change (s32 2) with 2.
  rewrite (proj2 (Z.eqb_neq _ _)), (proj2 (Z.leb_gt _ _)) by lia. simpl.
  unfold mark_port_disabled, bind. rewrite run_store by done. simpl.
  unfold port_get. rewrite Hp, zlookup_None by lia. done.
Qed.
End command.
#[global] Arguments SEC_OMX_SendCommand : simpl never.
#[global] Arguments SEC_OMX_CommandQueue : simpl never.
#[global] Arguments prepare_command : simpl never.

Definition sample_executing : SEC_OMX_BASECOMPONENT :=
  sample_component OMX_StateExecuting []
    (sample_port 0 OMX_DirInput [] []) (sample_port 1 OMX_DirOutput [] []).

Lemma SendCommand_spec_witness :
  exists s', SEC_OMX_SendCommand (H := sample_env) (Some 1%nat) OMX_CommandFlush 0xFFFFFFFF None
               (sample_state sample_executing ∅) = Done OMX_ErrorNone s' /\
    sent 1 (sample_state sample_executing ∅) sample_executing [] 0
      (mkMessage OMX_CommandFlush 0xFFFFFFFF None) OMX_ErrorNone s' /\
    (forall c', c' <> 1%nat -> look (pSECComponent c') s' =
       look (pSECComponent c') (sample_state sample_executing ∅)).
Proof.
  apply (SendCommand_spec (H := sample_env) 1 (sample_state sample_executing ∅) sample_executing
           (sample_port 0 OMX_DirInput [] []) (sample_port 1 OMX_DirOutput [] [])
           [] 0 OMX_CommandFlush 0xFFFFFFFF None (sample_live _ _) (sample_look _ _)).
  - by split.
  - done.
  - unfold param_ok. by vm_compute.
  - by apply (sample_queue_with_repr []), Nat.le_0_l.
  - done.
  - simpl. lia.
Defined.

Lemma PortDisable_negative_index_witness :
  SEC_OMX_SendCommand (H := sample_env) (Some 1%nat) OMX_CommandPortDisable 0xFFFFFFFE None
    (sample_state sample_executing ∅) = Fault OutOfBounds.
Proof.
  apply (PortDisable_negative_index (H := sample_env) 1 (sample_state sample_executing ∅)
           sample_executing (sample_port 0 OMX_DirInput [] []) (sample_port 1 OMX_DirOutput [] [])
           0xFFFFFFFE None (sample_live _ _) (sample_look _ _)).
  - by split.
  - done.
  - by vm_compute.
Defined.
