(* ===== verification/ResourceManager.v ===== *)
(** * The resource manager

    Models [component/common/SEC_OMX_Resourcemanager.c]: the pools of hardware
    decoders and encoders, and the components that wait for one.  A linked list
    of [SEC_OMX_RM_COMPONENT_LIST] elements is a Rocq list (the elements are
    owned by the list and reached only through it).  Every public function holds
    [ghVideoRMComponentListMutex] and may send a command to another component,
    which does not block. *)
From S2P Require Import Prelude Machine OmxEnums OsalSync OsalQueue OmxTypes OmxState Focus.
From S2P Require Import Samples Command.

Definition MAX_RESOURCE_VIDEO_DEC : Z := 3.
Definition MAX_RESOURCE_VIDEO_ENC : Z := 1.

Abbreviation rm_list := (list SEC_OMX_RM_COMPONENT_LIST).

(** The loop of [removeElementList]: the list without its first element for
    the component, and whether there was one. *)
Fixpoint remove_first (c : nat) (l : rm_list) : rm_list * bool :=
  match l with
  | [] => ([], false)
  | e :: l =>
      if decide (pOMXStandComp e = c) then (l, true)
      else let '(l', b) := remove_first c l in (e :: l', b)
  end.

(** The loop of [searchLowPriority], from candidate [cand] on. *)
Fixpoint search_loop (l : rm_list) (inComp_priority : Z) (cand : option SEC_OMX_RM_COMPONENT_LIST)
  : option SEC_OMX_RM_COMPONENT_LIST :=
  match l with
  | [] => cand
  | e :: l =>
      let cand' :=
        if inComp_priority <? groupPriority e then
          match cand with
          | Some k => if groupPriority k <? groupPriority e then Some e else cand
          | None => Some e
          end
        else cand in
      search_loop l inComp_priority cand'
  end.

(** The result code and the out parameter; the [-1] for an empty list is
    overwritten before the function returns. *)
Definition searchLowPriority (RMComp_list : rm_list) (inComp_priority : Z)
  : Z * option SEC_OMX_RM_COMPONENT_LIST :=
  let cand := search_loop RMComp_list inComp_priority None in
  (match cand with None => 0 | Some _ => 1 end, cand).

Section rm.
Context `{Env}.

Definition addElementList (ppList : place rm_list) (c : nat) : M St OMX_ERRORTYPE :=
  let* ok := os_call in
  if negb ok then ret OMX_ErrorInsufficientResources
  else
    let* prio := load (pSECComponent c)↘compPriority in
    update ppList (fun l => l ++ [mkRMElem c (nGroupPriority prio)]) ;;;
    ret OMX_ErrorNone.

Definition removeElementList (ppList : place rm_list) (c : nat) : M St OMX_ERRORTYPE :=
  let* l := load ppList in
  match l with
  | [] => ret OMX_ErrorUndefined
  | _ =>
      let '(l', bDetectComp) := remove_first c l in
      store ppList l' ;;;
      ret (if bDetectComp : bool then OMX_ErrorNone else OMX_ErrorComponentNotFound)
  end.

(** Preempts a component: an idle one is told that it lost its resources and
    sent to [Loaded]; for an executing or paused one there is nothing (the
    source has a [Todo]). *)
Definition removeComponent (c : nat) : M St OMX_ERRORTYPE :=
  let* st := load (pSECComponent c)↘currentState in
  if bool_decide (st = OMX_StateIdle) then
    call_back c (EventError c OMX_ErrorResourcesLost) ;;;
    let* r := SEC_OMX_SendCommand (Some c) OMX_CommandStateSet
                (U32_of_OMX_STATETYPE OMX_StateLoaded) None in
    if is_err r then ret OMX_ErrorUndefined else ret OMX_ErrorNone
  else ret OMX_ErrorNone.

Definition RMMutex : place mutex := global ghVideoRMComponentListMutex.

(** The body of the public functions: every path leaves through [EXIT], which
    unlocks. *)
Definition with_rm_lock (body : M St OMX_ERRORTYPE) : M St OMX_ERRORTYPE :=
  MutexLock RMMutex ;;;
  let* r := body in
  MutexUnlock RMMutex ;;;
  ret r.

Definition SEC_OMX_ResourceManager_Init : M St OMX_ERRORTYPE :=
  os_apply SEC_OSAL_MutexCreate RMMutex.

Definition SEC_OMX_ResourceManager_Deinit : M St OMX_ERRORTYPE :=
  MutexLock RMMutex ;;;
  store (global gpVideoDecRMComponentList) [] ;;;
  store (global gpVideoDecRMWaitingList) [] ;;;
  store (global gpVideoEncRMComponentList) [] ;;;
  store (global gpVideoEncRMWaitingList) [] ;;;
  MutexUnlock RMMutex ;;;
  MutexTerminate_null RMMutex ;;;
  ret OMX_ErrorNone.

(** The branch of [SEC_OMX_Get_Resource] for one pool: [ppList] is the list of
    its users and [max] its size. *)
Definition get_from_pool (ppList : place rm_list) (max : Z) (c : nat) : M St OMX_ERRORTYPE :=
  let* l := load ppList in
  if max <=? zlength l then
    let* prio := load (pSECComponent c)↘compPriority in
    let '(lowCompDetect, cand) := searchLowPriority l (nGroupPriority prio) in
    match cand with
    | Some k =>
        if lowCompDetect <=? 0 then ret OMX_ErrorInsufficientResources
        else
          let* r := removeComponent (pOMXStandComp k) in
          if is_err r then ret OMX_ErrorInsufficientResources
          else
            removeElementList ppList (pOMXStandComp k) ;;;
            let* r := addElementList ppList c in
            ret (if is_err r then OMX_ErrorInsufficientResources else OMX_ErrorNone)
    | None => ret OMX_ErrorInsufficientResources
    end
  else
    let* r := addElementList ppList c in
    ret (if is_err r then OMX_ErrorInsufficientResources else OMX_ErrorNone).

Definition SEC_OMX_Get_Resource (c : nat) : M St OMX_ERRORTYPE :=
  with_rm_lock (
  let* codec := load (pSECComponent c)↘codecType in
  match codec with
  | HW_VIDEO_DEC_CODEC =>
      get_from_pool (global gpVideoDecRMComponentList) MAX_RESOURCE_VIDEO_DEC c
  | HW_VIDEO_ENC_CODEC =>
      get_from_pool (global gpVideoEncRMComponentList) MAX_RESOURCE_VIDEO_ENC c
  | _ => ret OMX_ErrorNone
  end).

(** The branch of [SEC_OMX_Release_Resource] for one pool: the first waiting
    component is sent to [Idle]. *)
Definition release_to_pool (ppList ppWait : place rm_list) (c : nat) : M St OMX_ERRORTYPE :=
  let* l := load ppList in
  match l with
  | [] => ret OMX_ErrorUndefined
  | _ =>
      let* r := removeElementList ppList c in
      if is_err r then ret OMX_ErrorUndefined
      else
        let* w := load ppWait in
        match w with
        | [] => ret OMX_ErrorNone
        | e :: _ =>
            removeElementList ppWait (pOMXStandComp e) ;;;
            SEC_OMX_SendCommand (Some (pOMXStandComp e)) OMX_CommandStateSet
              (U32_of_OMX_STATETYPE OMX_StateIdle) None
        end
  end.

Definition SEC_OMX_Release_Resource (c : nat) : M St OMX_ERRORTYPE :=
  with_rm_lock (
  let* codec := load (pSECComponent c)↘codecType in
  match codec with
  | HW_VIDEO_DEC_CODEC =>
      release_to_pool (global gpVideoDecRMComponentList) (global gpVideoDecRMWaitingList) c
  | HW_VIDEO_ENC_CODEC =>
      release_to_pool (global gpVideoEncRMComponentList) (global gpVideoEncRMWaitingList) c
  | _ => ret OMX_ErrorNone
  end).

Definition SEC_OMX_In_WaitForResource (c : nat) : M St OMX_ERRORTYPE :=
  with_rm_lock (
  let* codec := load (pSECComponent c)↘codecType in
  match codec with
  | HW_VIDEO_DEC_CODEC => addElementList (global gpVideoDecRMWaitingList) c
  | HW_VIDEO_ENC_CODEC => addElementList (global gpVideoEncRMWaitingList) c
  | _ => ret OMX_ErrorNone
  end).

Definition SEC_OMX_Out_WaitForResource (c : nat) : M St OMX_ERRORTYPE :=
  with_rm_lock (
  let* codec := load (pSECComponent c)↘codecType in
  match codec with
  | HW_VIDEO_DEC_CODEC => removeElementList (global gpVideoDecRMWaitingList) c
  | HW_VIDEO_ENC_CODEC => removeElementList (global gpVideoEncRMWaitingList) c
  | _ => ret OMX_ErrorNone
  end).

(** ** The choice of the component to preempt *)
Lemma search_loop_spec l prio : forall cand,
  (forall k, cand = Some k -> prio < groupPriority k) ->
  match search_loop l prio cand with
  | None => cand = None /\ Forall (fun e => groupPriority e <= prio) l
  | Some k => prio < groupPriority k /\ (k ∈ l \/ cand = Some k) /\
      Forall (fun e => groupPriority e <= groupPriority k) l /\
      (forall k0, cand = Some k0 -> groupPriority k0 <= groupPriority k)
  end.
Proof.
  induction l as [|e l IH]; intros cand Hc; simpl.
  { destruct cand as [k|]; [|done]. split; [by apply Hc|]. split; [by right|].
    split; [done|]. by intros k0 [= ->]. }
  set (cand' := if prio <? groupPriority e then _ else cand).
  assert ((forall k, cand' = Some k -> prio < groupPriority k) /\
          (cand' = cand \/ cand' = Some e) /\
          (cand' = None -> cand = None /\ groupPriority e <= prio) /\
          (forall k, cand' = Some k -> groupPriority e <= groupPriority k /\
             forall k0, cand = Some k0 -> groupPriority k0 <= groupPriority k))
    as (H1 & H2 & H3 & H4).
  { subst cand'. destruct (Z.ltb_spec prio (groupPriority e)) as [Hlt|Hge].
    - destruct cand as [k|].
      + destruct (Z.ltb_spec (groupPriority k) (groupPriority e)); naive_solver lia.
      + naive_solver lia.
    - split_and!; [done|by left|naive_solver lia|].
      intros k ->. specialize (Hc k eq_refl). split; [lia|]. by intros k0 [= ->]. }
  specialize (IH cand' H1). destruct (search_loop l prio cand') as [k|].
  - destruct IH as (Hk & Hin & Hall & Hcand). split; [done|]. split.
    { rewrite elem_of_cons. destruct Hin as [Hin|Hin]; [tauto|].
      destruct H2 as [H2|H2]; [right|left; left]; congruence. }
    destruct cand' as [k'|] eqn:Hc'.
    + specialize (Hcand k' eq_refl). destruct (H4 k' eq_refl) as [He Hk0].
      split; [constructor; [lia|done]|]. intros k0 ->. specialize (Hk0 k0 eq_refl). lia.
    + destruct (H3 eq_refl) as [-> He]. split; [constructor; [lia|done]|done].
  - destruct IH as [Hn Hall]. destruct (H3 Hn) as [-> He]. by split; [|constructor].
Qed.

(** [searchLowPriority] returns 1 with a component of the list whose
    priority number exceeds the given one and is the largest of the list (the
    least urgent component), and 0 with no component exactly when no component
    of the list is less urgent. *)
Theorem searchLowPriority_spec l prio :
  match searchLowPriority l prio with
  | (1, Some k) => k ∈ l /\ prio < groupPriority k /\
                   Forall (fun e => groupPriority e <= groupPriority k) l
  | (0, None) => Forall (fun e => groupPriority e <= prio) l
  | _ => False
  end.
Proof.
  unfold searchLowPriority. pose proof (search_loop_spec l prio None ltac:(done)) as Hs.
  destruct (search_loop l prio None) as [k|]; [|tauto].
  destruct Hs as (? & [?|?] & ? & _); [done|congruence].
Qed.

(** ** What the choice and the removal mean on a list

    The first of the least urgent elements that are less urgent than [prio] (a larger
    number is less urgent), and the list without the first element of a component. *)
Definition least_urgent (l : rm_list) (prio : Z) (k : SEC_OMX_RM_COMPONENT_LIST) : Prop :=
  exists l1 l2, l = l1 ++ k :: l2 /\ prio < groupPriority k /\
    Forall (fun e => groupPriority e < groupPriority k) l1 /\
    Forall (fun e => groupPriority e <= groupPriority k) l2.

Definition without (c : nat) (l l' : rm_list) : Prop :=
  exists l1 e l2, l = l1 ++ e :: l2 /\ l' = l1 ++ l2 /\ pOMXStandComp e = c /\
    Forall (fun e => pOMXStandComp e <> c) l1.

Lemma least_urgent_in l prio k : least_urgent l prio k -> k ∈ l.
Proof. intros (l1 & l2 & -> & _). rewrite elem_of_app, elem_of_cons. tauto. Qed.

Lemma search_loop_first l prio : forall cand k,
  (forall k0, cand = Some k0 -> prio < groupPriority k0) -> search_loop l prio cand = Some k ->
  (cand = Some k /\ Forall (fun e => groupPriority e <= groupPriority k) l) \/
  (least_urgent l prio k /\ forall k0, cand = Some k0 -> groupPriority k0 < groupPriority k).
Proof.
  induction l as [|e l IH]; intros cand k Hc; simpl; [by left|]. intros Hk.
  apply IH in Hk; clear IH.
  - destruct Hk as [[Hk Hall]|[(l1 & l2 & -> & Hp & H1 & H2) Hk0]].
    + destruct (Z.ltb_spec prio (groupPriority e)) as [He|He].
      * destruct cand as [k1|].
        -- destruct (Z.ltb_spec (groupPriority k1) (groupPriority e)).
           ++ right. injection Hk as <-. split; [by exists [], l|]. by intros k0 [= <-].
           ++ left. injection Hk as <-. split; [done|]. by constructor.
        -- right. injection Hk as <-. split; [by exists [], l|done].
      * left. split; [done|]. constructor; [|done]. specialize (Hc _ Hk). lia.
    + right. split.
      * exists (e :: l1), l2. split_and!; [done..| |done]. constructor; [|done].
        destruct (Z.ltb_spec prio (groupPriority e)) as [He|He]; [|lia].
        destruct cand as [k1|]; [|by apply Hk0].
        destruct (Z.ltb_spec (groupPriority k1) (groupPriority e)); [by apply Hk0|].
        specialize (Hk0 _ eq_refl). lia.
      * intros k0 ->. destruct (Z.ltb_spec prio (groupPriority e)) as [He|He]; [|by apply Hk0].
        destruct (Z.ltb_spec (groupPriority k0) (groupPriority e)); [|by apply Hk0].
        specialize (Hk0 _ eq_refl). lia.
  - intros k0. destruct (Z.ltb_spec prio (groupPriority e)); [|by apply Hc].
    destruct cand as [k1|]; [destruct (_ <? _)|]; intros [= <-]; auto.
Qed.

Lemma searchLowPriority_least l prio k :
  (searchLowPriority l prio).2 = Some k -> least_urgent l prio k.
Proof. by intros [[? _]|[Hk _]]%search_loop_first. Qed.

Lemma searchLowPriority_none l prio :
  (searchLowPriority l prio).2 = None -> Forall (fun e => groupPriority e <= prio) l.
Proof.
  pose proof (searchLowPriority_spec l prio) as Hs. destruct (searchLowPriority l prio) as [z o].
  simpl. intros ->. by repeat case_match.
Qed.

Lemma remove_first_length c l :
  length (remove_first c l).1 = (length l - if (remove_first c l).2 then 1 else 0)%nat.
Proof.
  induction l as [|e l IH]; simpl; [done|]. case_decide; simpl; [lia|].
  destruct (remove_first c l) as [l' b] eqn:Hrf. simpl in *.
  destruct b; [|lia]. assert (length l <> 0)%nat; [|lia]. by destruct l.
Qed.

Lemma remove_first_incl c l e : e ∈ (remove_first c l).1 -> e ∈ l.
Proof.
  induction l as [|x l IH]; simpl; [done|]. case_decide; simpl; [by right|].
  destruct (remove_first c l) as [l' b]. simpl in *. rewrite !elem_of_cons. tauto.
Qed.

Lemma remove_first_without l k : k ∈ l -> without (pOMXStandComp k) l (remove_first (pOMXStandComp k) l).1.
Proof.
  induction l as [|e l IH]; intros Hk; [by apply not_elem_of_nil in Hk|]. simpl.
  case_decide as He; simpl.
  { by exists [], e, l. }
  apply elem_of_cons in Hk as [->|Hk]; [done|].
  destruct (IH Hk) as (l1 & x & l2 & -> & Hl' & Hx & H1).
  destruct (remove_first _ _) as [l' b]. simpl in *. subst l'.
  exists (e :: l1), x, l2. split_and!; [done..|]. by constructor.
Qed.

Lemma without_length c l l' : without c l l' -> length l = S (length l').
Proof. intros (l1 & e & l2 & -> & -> & _). rewrite !length_app. simpl. lia. Qed.

(** ** The operations on the shared state

    [quiet s s']: the lists and their mutex are as before, every component is
    still there with its settings, and still ready for commands. *)
Record quiet (s s' : St) : Prop := {
  quiet_dec : gpVideoDecRMComponentList s' = gpVideoDecRMComponentList s;
  quiet_decw : gpVideoDecRMWaitingList s' = gpVideoDecRMWaitingList s;
  quiet_enc : gpVideoEncRMComponentList s' = gpVideoEncRMComponentList s;
  quiet_encw : gpVideoEncRMWaitingList s' = gpVideoEncRMWaitingList s;
  quiet_mutex : ghVideoRMComponentListMutex s' = ghVideoRMComponentListMutex s;
  quiet_look c r : look (pSECComponent c) s = inr r ->
    exists r', look (pSECComponent c) s' = inr r' /\ same_settings r r';
  quiet_ready c : ready_component c s -> ready_component c s'
}.

#[export] Instance quiet_preorder : PreOrder quiet.
Proof.
  split.
  - intros s. split; try done. intros c r Hr. exists r. split; [done|]. by split_and!.
  - intros s1 s2 s3 H1 H2. destruct H1, H2. split; try congruence.
    + intros c r Hr. destruct (quiet_look0 c r Hr) as (r2 & Hr2 & ? & ? & ? & ? & ? & ?).
      destruct (quiet_look1 c r2 Hr2) as (r3 & Hr3 & ? & ? & ? & ? & ? & ?).
      exists r3. split; [done|]. split_and!; congruence.
    + auto.
Qed.

Lemma quiet_oscalls s f : quiet s s<|oscalls ::= f|>.
Proof.
  split; try done. intros c r Hr. exists r. split; [done|]. by split_and!.
Qed.

Lemma quiet_callbacks s f : quiet s s<|callbacks ::= f|>.
Proof.
  split; try done.
  - intros c r Hr. exists r. split; [done|]. by split_and!.
Qed.

Lemma quiet_command c s s' :
  command_effect c s s' -> (forall c', ready_component c' s -> ready_component c' s') -> quiet s s'.
Proof.
  intros (r & r' & n & Hr & Hset & ->) Hready.
  split; try done; try (unfold set_sec; simpl; by repeat case_match).
  intros c' r0 Hr0. destruct (decide (c = c')) as [<-|Hne].
  - exists r'. rewrite Hr in Hr0. simplify_eq. split; [|done]. apply look_sec.
    by apply (look_valid _ _ r0).
  - exists r0. rewrite look_sec_ne by done. split; [done|]. by split_and!.
Qed.

(** ** Preempting a component

    What [removeComponent] does to the component [k]: an idle one is told that it lost its
    resources and commanded to go to [Loaded], which fails when there is no memory
    or its queue holds nine commands; any other is left alone. *)
Definition told_to_leave (k : nat) (s : St) (told : bool) (s1 : St) : Prop :=
  exists rk, look (pSECComponent k) s = inr rk /\
    if decide (currentState rk = OMX_StateIdle) then
      exists l v e, queue_repr (messageQ rk) l /\ msgSemaphoreHandle rk = Some v /\
        sent k s<|callbacks ::= fun cs => cs ++ [EventError k OMX_ErrorResourcesLost]|> rk l v
          (mkMessage OMX_CommandStateSet (U32_of_OMX_STATETYPE OMX_StateLoaded) None) e s1 /\
        told = negb (is_err e) /\
        (told = true <-> os (oscalls s) = true /\ (length l < 9)%nat)
    else told = true /\ s1 = s.

Lemma removeComponent_wp I k s :
  ready_component k s ->
  wp I (removeComponent k s) (fun e s' => told_to_leave k s (negb (is_err e)) s' /\ quiet s s').
Proof.
  intros (r & p0 & p1 & l & v & Hl & Hlook & Hr & Hq & Hsem & Hv & [cb Hcb]).
  pose proof SEM_VALUE_MAX_min as Hmin. pose proof (queue_repr_length _ _ Hq) as Hlen.
  unfold ring_size, MAX_QUEUE_ELEMENTS in Hlen. unfold removeComponent. apply wp_bind. rewrite (run_load_member _ _ r) by done. simpl.
  case_bool_decide as Hst; [|by split; [exists r; rewrite decide_False|reflexivity]].
  apply wp_bind. unfold call_back. apply wp_bind. rewrite (run_load_member _ _ r) by done. simpl.
  rewrite Hcb. simpl. apply wp_bind. set (s0 := s<|callbacks ::= _|>).
  assert (look (pSECComponent k) s0 = inr r) as Hlook0 by done.
  rewrite <- (set_sec_id k s0 r Hlook0) at 1.
  eapply wp_mono; [|apply (SendCommand_wp I k s0 r p0 p1 l v); try done; try lia; by rewrite Hst].
  intros e s' [He Hsent].
  destruct (sent_ready k s0 r p0 p1 l v
              (mkMessage OMX_CommandStateSet (U32_of_OMX_STATETYPE OMX_StateLoaded) None) e s')
    as [Heff Hrdy]; [done..|].
  assert (quiet s s') as Hquiet.
  { etrans; [apply (quiet_callbacks s)|]. by eapply quiet_command. }
  assert (negb (is_err (if is_err e then OMX_ErrorUndefined else OMX_ErrorNone)) = negb (is_err e))
    as Herr by by destruct (is_err e).
  enough (told_to_leave k s (negb (is_err e)) s') as Ht by (by destruct (is_err e)).
  exists r. split; [done|]. rewrite decide_True by done. exists l, v, e. split_and!; [done..|].
  subst e. unfold send_result, ring_size, MAX_QUEUE_ELEMENTS. simpl. destruct (os (oscalls s)); simpl.
  - case_decide; simpl; naive_solver lia.
  - naive_solver.
Qed.

(** A list of the manager, as a variable of the program. *)
Class RMList (f : St -> rm_list) `{!Settable f} : Prop := {
  rm_get_put s v : f s<|f := v|> = v;
  rm_put_id s : s<|f := f s|> = s;
  rm_put_put s v w : s<|f := v|><|f := w|> = s<|f := w|>;
  rm_put_oscalls s v g : s<|f := v|><|oscalls ::= g|> = s<|oscalls ::= g|><|f := v|>;
  rm_look c s v : look (pSECComponent c) s<|f := v|> = look (pSECComponent c) s;
  rm_ready c s v : ready_component c s -> ready_component c s<|f := v|>;
  rm_oscalls s v : oscalls s<|f := v|> = oscalls s;
  rm_quiet s s' : quiet s s' -> f s' = f s;
  rm_mutex s v : ghVideoRMComponentListMutex s<|f := v|> = ghVideoRMComponentListMutex s;
  rm_put_mutex s v m :
    s<|f := v|><|ghVideoRMComponentListMutex := m|> = s<|ghVideoRMComponentListMutex := m|><|f := v|>;
  rm_get_mutex s m : f s<|ghVideoRMComponentListMutex := m|> = f s
}.

Ltac rm_instance Hq := split; try done; [by intros [] | by intros s s' Hq; apply Hq].
#[export] Instance dec_list : RMList gpVideoDecRMComponentList. Proof. rm_instance Hq. Qed.
#[export] Instance enc_list : RMList gpVideoEncRMComponentList. Proof. rm_instance Hq. Qed.
#[export] Instance decw_list : RMList gpVideoDecRMWaitingList. Proof. rm_instance Hq. Qed.
#[export] Instance encw_list : RMList gpVideoEncRMWaitingList. Proof. rm_instance Hq. Qed.

#[local] Arguments remove_first : simpl never.

Section pool.
Context (f : St -> rm_list) `{!Settable f} `{!RMList f} (I : St -> Prop) (c : nat).

(** The state after an operation that gave the list the value [l]. *)
Definition pool_now (s : St) (l : rm_list) (s' : St) : Prop :=
  exists s1, quiet s s1 /\ s' = s1<|f := l|>.

Lemma pool_now_get s l s' : pool_now s l s' -> f s' = l.
Proof. intros (s1 & _ & ->). apply rm_get_put. Qed.

Lemma addElementList_spec s r :
  look (pSECComponent c) s = inr r ->
  wp I (addElementList (global f) c s) (fun e s' =>
    let ok := os (oscalls s) in
    e = (if ok then OMX_ErrorNone else OMX_ErrorInsufficientResources) /\
    if ok then s' = s<|oscalls ::= S|><|f := f s ++ [mkRMElem c (nGroupPriority (compPriority r))]|>
    else s' = s<|oscalls ::= S|>).
Proof.
  intros Hl. unfold addElementList. apply wp_bind. simpl.
  destruct (os (oscalls s)); simpl; [|done].
  apply wp_bind. rewrite (run_load_member _ _ r) by done. simpl.
  split; [done|]. by rewrite (rm_quiet s) by apply quiet_oscalls.
Qed.

Lemma removeElementList_spec s k :
  wp I (removeElementList (global f) k s) (fun e s' =>
    match f s with
    | [] => e = OMX_ErrorUndefined /\ s' = s
    | _ => e = (if (remove_first k (f s)).2 then OMX_ErrorNone else OMX_ErrorComponentNotFound) /\
           s' = s<|f := (remove_first k (f s)).1|>
    end).
Proof.
  unfold removeElementList. apply wp_bind. simpl. destruct (f s) as [|e l] eqn:Hf; [done|].
  destruct (remove_first k (e :: l)) as [l' b] eqn:Hrf. done.
Qed.

Lemma removeElementList_now s k :
  wp I (removeElementList (global f) k s) (fun _ s' => s' = s<|f := (remove_first k (f s)).1|> \/
                                                     f s = [] /\ s' = s).
Proof.
  eapply wp_mono; [|apply removeElementList_spec]. intros e s'. simpl.
  destruct (f s); [by intros [_ ->]; right|by intros [_ ->]; left].
Qed.

(** ** What [SEC_OMX_Get_Resource] answers

    For the component [c] of priority [prio] and the pool [f] of size [max]:
    there is a free slot; every user is at least as urgent; the least
    urgent user [k] cannot be told; or it is told and replaced.  An element that cannot be
    allocated leaves the pool without it. *)
Inductive pool_answer (max : Z) (prio : Z) (s : St) : OMX_ERRORTYPE -> St -> Prop :=
| answer_free :
    zlength (f s) < max -> os (oscalls s) = true ->
    pool_answer max prio s OMX_ErrorNone s<|oscalls ::= S|><|f := f s ++ [mkRMElem c prio]|>
| answer_no_memory :
    zlength (f s) < max -> os (oscalls s) = false ->
    pool_answer max prio s OMX_ErrorInsufficientResources s<|oscalls ::= S|>
| answer_all_urgent :
    max <= zlength (f s) -> Forall (fun e => groupPriority e <= prio) (f s) ->
    pool_answer max prio s OMX_ErrorInsufficientResources s
| answer_untold k s1 :
    max <= zlength (f s) -> least_urgent (f s) prio k -> told_to_leave (pOMXStandComp k) s false s1 ->
    pool_answer max prio s OMX_ErrorInsufficientResources s1
| answer_preempted k s1 l :
    max <= zlength (f s) -> least_urgent (f s) prio k -> told_to_leave (pOMXStandComp k) s true s1 ->
    without (pOMXStandComp k) (f s) l -> os (oscalls s1) = true ->
    pool_answer max prio s OMX_ErrorNone s1<|oscalls ::= S|><|f := l ++ [mkRMElem c prio]|>
| answer_lost k s1 l :
    max <= zlength (f s) -> least_urgent (f s) prio k -> told_to_leave (pOMXStandComp k) s true s1 ->
    without (pOMXStandComp k) (f s) l -> os (oscalls s1) = false ->
    pool_answer max prio s OMX_ErrorInsufficientResources s1<|oscalls ::= S|><|f := l|>.

(** The pool afterwards: within its size, and with no new user but [c]. *)
Definition pool_kept (max prio : Z) (s s' : St) : Prop :=
  exists l, pool_now s l s' /\ zlength l <= max /\ forall e, e ∈ l -> e ∈ f s \/ e = mkRMElem c prio.

Lemma pool_kept_same max prio s s' : quiet s s' -> zlength (f s) <= max -> pool_kept max prio s s'.
Proof.
  intros Hq Hlen. exists (f s). split; [|by split; [|left]].
  exists s'. split; [done|]. by rewrite <- (rm_quiet s s' Hq), rm_put_id.
Qed.

Lemma pool_kept_put max prio s s1 l (b : bool) :
  quiet s s1 -> (zlength l + if b then 1 else 0) <= max -> (forall e, e ∈ l -> e ∈ f s) ->
  pool_kept max prio s s1<|oscalls ::= S|><|f := if b then l ++ [mkRMElem c prio] else l|>.
Proof.
  intros Hq Hlen Hin. eexists. split.
  { exists s1<|oscalls ::= S|>. split; [etrans; [exact Hq|apply quiet_oscalls]|reflexivity]. }
  unfold zlength in *. destruct b; (split; [rewrite ?length_app; simpl; lia|]).
  - intros e. rewrite elem_of_app, list_elem_of_singleton. intros [He| ->]; [left|by right]. by apply Hin.
  - intros e He. left. by apply Hin.
Qed.

Lemma get_from_pool_wp max s r :
  0 < max -> zlength (f s) <= max -> look (pSECComponent c) s = inr r ->
  Forall (fun e => ready_component (pOMXStandComp e) s) (f s) ->
  wp I (get_from_pool (global f) max c s) (fun e s' =>
    pool_answer max (nGroupPriority (compPriority r)) s e s' /\
    pool_kept max (nGroupPriority (compPriority r)) s s').
Proof.
  intros Hmax Hbound Hl Hall. unfold get_from_pool. apply wp_bind. simpl.
  destruct (Z.leb_spec max (zlength (f s))) as [Hfull|Hfree]; simpl.
  - apply wp_bind. rewrite (run_load_member _ _ r) by done. simpl.
    destruct (search_loop _ _ None) as [k|] eqn:Hs; simpl.
    2: { apply (searchLowPriority_none (f s)) in Hs. split; [by constructor|].
         apply pool_kept_same; [reflexivity|done]. }
    apply (searchLowPriority_least (f s)) in Hs as Hk. pose proof (least_urgent_in _ _ _ Hk) as Hin.
    apply wp_bind. eapply wp_mono; [|apply removeComponent_wp; by eapply Forall_forall in Hall].
    intros e s1 [Htold Hq1]. destruct (is_err e); simpl in *.
    { split; [by econstructor|by apply pool_kept_same]. }
    destruct (quiet_look _ _ Hq1 c r Hl) as (r1 & Hl1 & _ & _ & _ & _ & _ & Hprio).
    apply wp_bind. eapply wp_mono; [|apply removeElementList_now].
    intros _ s2 [-> | [Hnil ->]].
    2: { rewrite (rm_quiet s s1 Hq1) in Hnil. rewrite Hnil in Hin. by apply not_elem_of_nil in Hin. }
    rewrite (rm_quiet s s1 Hq1). pose proof (remove_first_without _ _ Hin) as Hw.
    pose proof (without_length _ _ _ Hw) as Hlen. unfold zlength in Hbound.
    pose proof (fun e => remove_first_incl (pOMXStandComp k) (f s) e) as Hincl.
    set (l := (remove_first (pOMXStandComp k) (f s)).1) in *.
    apply wp_bind. eapply wp_mono; [|eapply addElementList_spec; rewrite rm_look; exact Hl1].
    simpl. rewrite rm_oscalls. intros e' s' [-> Hs'].
    rewrite rm_get_put, !rm_put_oscalls, Hprio in Hs'.
    destruct (os (oscalls s1)) eqn:Hos; simpl; subst s'; rewrite ?rm_put_put.
    + split; [by econstructor|]. apply (pool_kept_put max _ s s1 l true); [done| |done].
      unfold zlength. lia.
    + split; [by econstructor|]. apply (pool_kept_put max _ s s1 l false); [done| |done].
      unfold zlength. lia.
  - apply wp_bind. eapply wp_mono; [|by eapply addElementList_spec]. simpl. unfold zlength in Hfree.
    intros e s' [-> Hs']. destruct (os (oscalls s)) eqn:Hos; simpl; subst s'.
    + split; [by constructor|]. apply (pool_kept_put max _ s s (f s) true); [done| |done].
      unfold zlength. lia.
    + split; [by constructor|]. apply pool_kept_same; [apply quiet_oscalls|done].
Qed.

(** The mutex of the manager plays no part in it. *)
Lemma set_sec_mutex k r s m :
  (set_sec k r s)<|ghVideoRMComponentListMutex := m|> = set_sec k r s<|ghVideoRMComponentListMutex := m|>.
Proof. unfold set_sec. simpl. by repeat case_match. Qed.

Lemma told_mutex k s told s1 m m' :
  told_to_leave k s<|ghVideoRMComponentListMutex := m|> told s1 ->
  told_to_leave k s<|ghVideoRMComponentListMutex := m'|> told s1<|ghVideoRMComponentListMutex := m'|>.
Proof.
  intros (rk & Hk & Hcase). exists rk. split; [done|]. case_decide.
  - destruct Hcase as (l & v & e & Hq & Hv & (r' & p0 & p1 & n & -> & Hrest) & Htold).
    exists l, v, e. split; [done|]. split; [done|]. split; [|exact Htold].
    exists r', p0, p1, n. split; [|exact Hrest]. by rewrite set_sec_mutex.
  - destruct Hcase as [-> ->]. done.
Qed.

Lemma pool_answer_mutex max prio s e s' m m' :
  pool_answer max prio s<|ghVideoRMComponentListMutex := m|> e s' ->
  pool_answer max prio s<|ghVideoRMComponentListMutex := m'|> e s'<|ghVideoRMComponentListMutex := m'|>.
Proof.
  assert (forall s0 v, s0<|oscalls ::= S|><|f := v|><|ghVideoRMComponentListMutex := m'|> =
    s0<|ghVideoRMComponentListMutex := m'|><|oscalls ::= S|><|f := v|>) as Hput.
  { intros s0 v. by rewrite rm_put_mutex. }
  pose proof (rm_get_mutex s m) as Hm. pose proof (rm_get_mutex s m') as Hm'.
  destruct 1; rewrite ?Hput; rewrite Hm in *; rewrite <- ?Hm' in *.
  - change (s<|ghVideoRMComponentListMutex := m|><|ghVideoRMComponentListMutex := m'|>)
      with s<|ghVideoRMComponentListMutex := m'|>. by constructor.
  - change (pool_answer max prio s<|ghVideoRMComponentListMutex := m'|> OMX_ErrorInsufficientResources
      s<|ghVideoRMComponentListMutex := m'|><|oscalls ::= S|>). by apply answer_no_memory.
  - by apply answer_all_urgent.
  - eapply answer_untold; [done..|]. by eapply told_mutex.
  - eapply answer_preempted; [done|done|by eapply told_mutex|done|done].
  - eapply answer_lost; [done|done|by eapply told_mutex|done|done].
Qed.
End pool.

(** ** The invariant of the resource manager

    Between calls the mutex is free, no pool is overfull and every listed
    component can be sent commands. *)
Definition members (s : St) : rm_list :=
  gpVideoDecRMComponentList s ++ gpVideoDecRMWaitingList s ++
  gpVideoEncRMComponentList s ++ gpVideoEncRMWaitingList s.

Record rm_lists_ok (s : St) : Prop := {
  rm_dec_bound : zlength (gpVideoDecRMComponentList s) <= MAX_RESOURCE_VIDEO_DEC;
  rm_enc_bound : zlength (gpVideoEncRMComponentList s) <= MAX_RESOURCE_VIDEO_ENC;
  rm_members e : e ∈ members s -> ready_component (pOMXStandComp e) s
}.

Definition rm_inv (s : St) : Prop :=
  ghVideoRMComponentListMutex s = Some false /\ rm_lists_ok s.

(** What every operation guarantees while it holds the lock. *)
Definition rm_post (s s' : St) : Prop :=
  ghVideoRMComponentListMutex s' = ghVideoRMComponentListMutex s /\ rm_lists_ok s' /\
  forall c, ready_component c s -> ready_component c s'.

Lemma rm_lists_quiet s s' : quiet s s' -> rm_lists_ok s -> rm_lists_ok s'.
Proof.
  intros [Hd Hdw He Hew _ _ Hr] [H1 H2 H3]. split; [by rewrite Hd|by rewrite He|].
  intros e. unfold members. rewrite Hd, Hdw, He, Hew. intros Hin. by apply Hr, H3.
Qed.

Lemma rm_post_quiet s s' : quiet s s' -> rm_lists_ok s -> rm_post s s'.
Proof. intros Hq Hs. split; [apply Hq|]. split; [by eapply rm_lists_quiet|apply Hq]. Qed.

Lemma rm_post_trans s1 s2 s3 : rm_post s1 s2 -> rm_post s2 s3 -> rm_post s1 s3.
Proof. intros (? & _ & ?) (? & ? & ?). split; [congruence|]. eauto. Qed.

(** Replacing one of the lists by another whose elements were listed or are
    ready, within the bound of a pool. *)
Lemma rm_post_put s s' :
  ghVideoRMComponentListMutex s' = ghVideoRMComponentListMutex s -> comps s' = comps s ->
  zlength (gpVideoDecRMComponentList s') <= MAX_RESOURCE_VIDEO_DEC ->
  zlength (gpVideoEncRMComponentList s') <= MAX_RESOURCE_VIDEO_ENC ->
  (forall e, e ∈ members s' -> e ∈ members s \/ ready_component (pOMXStandComp e) s) ->
  rm_lists_ok s -> rm_post s s'.
Proof.
  intros Hm Hc H1 H2 H3 [_ _ Hr].
  assert (forall c, ready_component c s -> ready_component c s') as Hrc.
  { intros c (r & p0 & p1 & l & v & Hl & Hlook & Hrest). exists r, p0, p1, l, v.
    split; [by eapply live_other|]. split; [|done]. simpl in *. by rewrite Hc. }
  split; [done|]. split; [|done]. split; [done..|].
  intros e [He|He]%H3; apply Hrc; [by apply Hr|done].
Qed.

Lemma zlength_remove_first c l : zlength (remove_first c l).1 <= zlength l.
Proof. unfold zlength. rewrite remove_first_length. case_match; lia. Qed.

Ltac members_in := unfold members; simpl; rewrite !elem_of_app; intros;
  destruct_or?; eauto 8 using remove_first_incl.

(** A step on one of the two pools, or on one of the two waiting lists. *)
Inductive rm_update : (St -> rm_list -> St) -> (St -> rm_list) -> Z -> Prop :=
| up_dec : rm_update (fun s l => s<|gpVideoDecRMComponentList := l|>) gpVideoDecRMComponentList MAX_RESOURCE_VIDEO_DEC
| up_enc : rm_update (fun s l => s<|gpVideoEncRMComponentList := l|>) gpVideoEncRMComponentList MAX_RESOURCE_VIDEO_ENC.

Lemma rm_post_pool put f max s s1 l :
  rm_update put f max -> quiet s s1 -> rm_lists_ok s -> zlength l <= max ->
  (forall e, e ∈ l -> e ∈ f s \/ ready_component (pOMXStandComp e) s) ->
  rm_post s (put s1 l).
Proof.
  intros Hup Hq Hs Hlen Hin. pose proof (rm_lists_quiet _ _ Hq Hs) as Hs1. pose proof Hs1 as [? ? _].
  eapply rm_post_trans; [by apply rm_post_quiet|].
  destruct Hup; apply rm_post_put; try done; intros e; unfold members; simpl;
    rewrite !elem_of_app; intros [?|[?|[?|?]]]; try tauto.
  - destruct (Hin e) as [He|He]; [done| |right; by apply Hq].
    rewrite (quiet_dec _ _ Hq). tauto.
  - destruct (Hin e) as [He|He]; [done| |right; by apply Hq].
    rewrite (quiet_enc _ _ Hq). tauto.
Qed.

Lemma with_rm_lock_rule I body s Q :
  ghVideoRMComponentListMutex s = Some false ->
  wp I (body s<|ghVideoRMComponentListMutex := Some true|>) (fun e s2 =>
    ghVideoRMComponentListMutex s2 = Some true /\ Q e s2<|ghVideoRMComponentListMutex := Some false|>) ->
  wp I (with_rm_lock body s) Q.
Proof.
  intros Hm Hbody. unfold with_rm_lock. apply wp_bind.
  eapply wp_blocking_place; [simpl; by rewrite Hm|done|done|]. cbv beta. apply wp_bind.
  eapply wp_mono; [|exact Hbody]. intros e s2 [Hm2 HQ]. apply wp_bind.
  eapply wp_apply_place; [simpl; by rewrite Hm2|done|]. done.
Qed.

Lemma with_rm_lock_wp I body s :
  rm_inv s ->
  (forall s1, comps s1 = comps s -> rm_lists_ok s1 -> wp I (body s1) (fun _ s2 => rm_post s1 s2)) ->
  wp I (with_rm_lock body s) (fun _ s' =>
    rm_inv s' /\ forall c, ready_component c s -> ready_component c s').
Proof.
  intros [Hm [H1 H2 H3]] Hbody. apply with_rm_lock_rule; [done|].
  eapply wp_mono; [|apply Hbody; [done|by split]].
  intros e s2 (Hm2 & Hl2 & Hr2). split; [done|]. split; [split; [done|]|].
  - destruct Hl2 as [? ? Hr]. by split.
  - intros c Hc. apply Hr2 in Hc. done.
Qed.

Section ops.
Context (I : St -> Prop) (c : nat) (s : St) (r : SEC_OMX_BASECOMPONENT).
Hypothesis (Hl : look (pSECComponent c) s = inr r) (Hc : ready_component c s).
Hypothesis (Hs : rm_lists_ok s).

Lemma get_from_pool_post put f max `{!Settable f} `{!RMList f} :
  rm_update put f max -> (forall s l, put s l = s<|f := l|>) -> 0 < max -> zlength (f s) <= max ->
  (forall e, e ∈ f s -> e ∈ members s) ->
  wp I (get_from_pool (global f) max c s) (fun _ s' => rm_post s s').
Proof.
  intros Hup Hput Hmax Hlen Hmem.
  eapply wp_mono; [|apply (get_from_pool_wp f I c max s r); [done..|]].
  - intros e s' (_ & l & (s1 & Hq & ->) & Hbound & Hin).
    rewrite <- Hput. eapply rm_post_pool; [done..|]. intros x Hx.
    destruct (Hin x Hx) as [?| ->]; [by left|by right].
  - apply Forall_forall. intros x Hx. by apply Hs, Hmem.
Qed.

(** The same element lists with fewer elements, or a ready one more. *)
Lemma rm_post_smaller s1 s2 :
  rm_lists_ok s1 ->
  ghVideoRMComponentListMutex s2 = ghVideoRMComponentListMutex s1 -> comps s2 = comps s1 ->
  zlength (gpVideoDecRMComponentList s2) <= zlength (gpVideoDecRMComponentList s1) ->
  zlength (gpVideoEncRMComponentList s2) <= zlength (gpVideoEncRMComponentList s1) ->
  (forall e, e ∈ members s2 -> e ∈ members s1 \/ ready_component (pOMXStandComp e) s1) ->
  rm_post s1 s2.
Proof. intros H0 H1 H2 H3 H4 H5. pose proof H0 as [? ? _]. apply rm_post_put; try done; lia. Qed.
End ops.

(** Shrinking or growing one list [f] of the four. *)
Lemma rm_remove_post I f `{!Settable f} `{!RMList f} k s :
  (forall s l, comps s<|f := l|> = comps s) ->
  (forall e, e ∈ f s -> e ∈ members s) ->
  (forall l, zlength l <= zlength (f s) -> (forall e, e ∈ l -> e ∈ members s) ->
     rm_post s s<|f := l|>) ->
  rm_lists_ok s ->
  wp I (removeElementList (global f) k s) (fun _ s' => rm_post s s' /\ comps s' = comps s).
Proof.
  intros Hcomps Hmem Hput Hs. eapply wp_mono; [|by apply removeElementList_now].
  intros _ s' [-> | [_ ->]]; simpl; (split; [|by rewrite ?Hcomps]).
  - apply Hput; [apply zlength_remove_first|]. intros e He. apply Hmem. by eapply remove_first_incl.
  - by apply rm_post_quiet.
Qed.

Ltac in_members := intros; unfold members; rewrite !elem_of_app; tauto.
Ltac rm_smaller :=
  intros; apply rm_post_smaller; try done;
  let e := fresh "e" in let He := fresh "He" in
  intros e He; unfold members in He; simpl in He; rewrite !elem_of_app in He;
  destruct_or! He; try (left; by in_members);
  match goal with
  | Hin : forall e, e ∈ _ -> _ |- _ => specialize (Hin e He)
  end;
  first [tauto | destruct_or?; [left; by in_members|by right]].
Ltac rm_remove := intros; apply rm_remove_post; [apply _|done|in_members|rm_smaller|done].

Lemma Release_pool_post I c s f w `{!Settable f} `{!RMList f} `{!Settable w} `{!RMList w} :
  (forall s, rm_lists_ok s -> forall k,
     wp I (removeElementList (global f) k s) (fun _ s' => rm_post s s' /\ comps s' = comps s)) ->
  (forall s, rm_lists_ok s -> forall k,
     wp I (removeElementList (global w) k s) (fun _ s' => rm_post s s' /\ comps s' = comps s)) ->
  (forall s e, e ∈ w s -> e ∈ members s) ->
  rm_lists_ok s ->
  wp I (release_to_pool (global f) (global w) c s) (fun _ s' => rm_post s s').
Proof.
  intros Hf Hw Hmem Hs. unfold release_to_pool. apply wp_bind. simpl.
  destruct (f s); [simpl; by apply rm_post_quiet|].
  apply wp_bind. eapply wp_mono; [|by apply Hf]. intros e1 s1 [Hp1 _]. simpl.
  destruct (is_err e1); [done|]. apply wp_bind. simpl.
  destruct (w s1) as [|e w'] eqn:Hw1; [done|].
  apply wp_bind. eapply wp_mono; [|apply Hw; apply Hp1]. intros e2 s2 [Hp2 Hc2]. simpl.
  assert (rm_post s s2) as Hp by by eapply rm_post_trans.
  eapply wp_mono; [|apply SendCommand_ready].
  - intros e3 s3 [Heff Hr3]. eapply rm_post_trans; [done|].
    apply rm_post_quiet; [by eapply quiet_command|apply Hp].
  - apply Hp2. destruct Hp1 as (_ & [_ _ Hmem1] & _). apply Hmem1, Hmem. rewrite Hw1. by left.
  - unfold param_ok. vm_compute. by intros.
Qed.

(** The public operations on a component. *)
Inductive rm_op := RMGet | RMRelease | RMWait | RMLeave.
Definition run_rm (op : rm_op) (c : nat) : M St OMX_ERRORTYPE :=
  match op with
  | RMGet => SEC_OMX_Get_Resource c
  | RMRelease => SEC_OMX_Release_Resource c
  | RMWait => SEC_OMX_In_WaitForResource c
  | RMLeave => SEC_OMX_Out_WaitForResource c
  end.

Lemma add_waiting_post I c s f `{!Settable f} `{!RMList f} :
  ready_component c s -> rm_lists_ok s ->
  (forall s l, rm_lists_ok s -> (forall e, e ∈ l -> e ∈ f s \/ ready_component (pOMXStandComp e) s) ->
     rm_post s s<|f := l|>) ->
  wp I (addElementList (global f) c s) (fun _ s' => rm_post s s').
Proof.
  intros Hready Hs Hput. pose proof Hready as (r & _ & _ & _ & _ & _ & Hlook & _).
  eapply wp_mono; [|by apply (addElementList_spec f I c s r)]. simpl. intros e s' [_ Hs'].
  assert (rm_post s s<|oscalls ::= S|>) as Hos by (apply rm_post_quiet; [apply quiet_oscalls|done]).
  destruct (os (oscalls s)); subst s'; [|done].
  eapply rm_post_trans; [done|]. apply Hput; [apply Hos|].
  intros x. rewrite elem_of_app, list_elem_of_singleton. intros [Hx| ->]; [left|right; by apply Hos].
  by rewrite (rm_quiet s) by apply quiet_oscalls.
Qed.

Lemma run_rm_wp I op c s :
  rm_inv s -> ready_component c s ->
  wp I (run_rm op c s) (fun _ s' =>
    rm_inv s' /\ forall c, ready_component c s -> ready_component c s').
Proof.
  intros Hinv Hready. destruct op; simpl; apply with_rm_lock_wp; try done; intros s1 Hc1 Hs1.
  all: assert (ready_component c s1) as Hr1 by
    (destruct Hready as (r & p0 & p1 & l & v & Hl & Hlook & Hrest); exists r, p0, p1, l, v;
     split; [by eapply live_other|]; split; [simpl in *; by rewrite Hc1|done]).
  all: pose proof Hr1 as (r & _ & _ & _ & _ & _ & Hlook & _); pose proof Hs1 as [? ? ?].
  all: apply wp_bind; rewrite (run_load_member _ _ r) by done; simpl;
    destruct (codecType r); try (simpl; by apply rm_post_quiet).
  - by eapply (get_from_pool_post I c s1 r Hlook Hr1 Hs1); [apply _|exact up_dec| | | |in_members].
  - by eapply (get_from_pool_post I c s1 r Hlook Hr1 Hs1); [apply _|exact up_enc| | | |in_members].
  - apply Release_pool_post; [apply _|apply _|rm_remove|rm_remove|in_members|done].
  - apply Release_pool_post; [apply _|apply _|rm_remove|rm_remove|in_members|done].
  - apply add_waiting_post; [apply _|done|done|]. rm_smaller.
  - apply add_waiting_post; [apply _|done|done|]. rm_smaller.
  - eapply wp_mono; [|by rm_remove]. by intros ? ? [? _].
  - eapply wp_mono; [|by rm_remove]. by intros ? ? [? _].
Qed.

(** C22: every operation of the resource manager on a component that can be sent
    commands returns without blocking and preserves the manager's invariant:
    at most three decoders and one encoder hold a hardware resource, every
    listed component can be sent commands, and the mutex is free again. *)
Theorem resource_manager_invariant op c s :
  rm_inv s -> ready_component c s ->
  exists e s', run_rm op c s = Done e s' /\ rm_inv s' /\
    (forall c', ready_component c' s -> ready_component c' s').
Proof.
  intros Hinv Hc. apply wp_result. by apply run_rm_wp.
Qed.

(** C23: [SEC_OMX_Get_Resource] always returns, and its answer and the whole state after it
    are those of [pool_answer] for the pool of the component's codec: of three decoders or of one
    encoder; a component of another kind gets [OMX_ErrorNone] and nothing changes.
    With a slot free, the component is appended to the pool.  Without, the first
    of the users with the largest priority number gives up its slot if this number exceeds
    the component's, and [OMX_ErrorInsufficientResources] is the answer if no
    number does.  A user that is idle is told with [OMX_ErrorResourcesLost]
    and sent to [Loaded]; when this command cannot be queued the pool stays as it is.
    When there is no memory for the new element the answer is the same error, but the
    user that was to be replaced has lost its slot. *)
Theorem Get_Resource_spec c s r :
  rm_inv s -> ready_component c s -> look (pSECComponent c) s = inr r ->
  exists e s', SEC_OMX_Get_Resource c s = Done e s' /\
    match codecType r with
    | HW_VIDEO_DEC_CODEC =>
        pool_answer gpVideoDecRMComponentList c 3 (nGroupPriority (compPriority r)) s e s'
    | HW_VIDEO_ENC_CODEC =>
        pool_answer gpVideoEncRMComponentList c 1 (nGroupPriority (compPriority r)) s e s'
    | _ => e = OMX_ErrorNone /\ s' = s
    end.
Proof.
  intros [Hm Hs] Hready Hl. apply wp_result. apply with_rm_lock_rule; [done|].
  apply wp_bind. rewrite (run_load_member _ _ r) by done. simpl.
  pose proof Hs as [Hdec Henc _].
  assert (s<|ghVideoRMComponentListMutex := Some false|> = s) as Hid.
  { destruct s. simpl in *. unfold set_field. simpl. by subst. }
  assert (forall (f : St -> rm_list) e, (forall x, x ∈ f s -> x ∈ members s) -> e ∈ f s ->
    ready_component (pOMXStandComp e) s<|ghVideoRMComponentListMutex := Some true|>) as Hmem.
  { intros f e Hf He. apply (rm_members s Hs), Hf, He. }
  destruct (codecType r); try (simpl; split; [done|by split]).
  - eapply wp_mono; [|apply (get_from_pool_wp gpVideoDecRMComponentList _ c _ _ r); try done].
    + intros e s2 [Hans (l & (s1 & Hq & ->) & _)]. split; [apply Hq|].
      apply (pool_answer_mutex _ _ _ _ _ _ _ _ (Some false)) in Hans. by rewrite Hid in Hans.
    + apply Forall_forall. intros e. apply Hmem. by in_members.
  - eapply wp_mono; [|apply (get_from_pool_wp gpVideoEncRMComponentList _ c _ _ r); try done].
    + intros e s2 [Hans (l & (s1 & Hq & ->) & _)]. split; [apply Hq|].
      apply (pool_answer_mutex _ _ _ _ _ _ _ _ (Some false)) in Hans. by rewrite Hid in Hans.
    + apply Forall_forall. intros e. apply Hmem. by in_members.
Qed.

(** Preempting a component that is executing or paused is not implemented:
    when the least urgent decoder is executing, [SEC_OMX_Get_Resource] gives
    its slot to the caller while the preempted component is neither notified
    nor stopped, so four decoders then use the three hardware instances. *)
Theorem preempted_executing_keeps_running c s r k rk :
  rm_inv s -> look (pSECComponent c) s = inr r -> codecType r = HW_VIDEO_DEC_CODEC ->
  zlength (gpVideoDecRMComponentList s) = MAX_RESOURCE_VIDEO_DEC ->
  (searchLowPriority (gpVideoDecRMComponentList s) (nGroupPriority (compPriority r))).2 = Some k ->
  look (pSECComponent (pOMXStandComp k)) s = inr rk -> currentState rk = OMX_StateExecuting ->
  os (oscalls s) = true ->
  exists s', SEC_OMX_Get_Resource c s = Done OMX_ErrorNone s' /\
    gpVideoDecRMComponentList s' =
      (remove_first (pOMXStandComp k) (gpVideoDecRMComponentList s)).1 ++
      [mkRMElem c (nGroupPriority (compPriority r))] /\
    comps s' = comps s /\ callbacks s' = callbacks s.
Proof.
  intros [Hm Hs] Hl Hcodec Hfull Hk Hlk Hst Hos.
  cut (wp (fun _ => False) (SEC_OMX_Get_Resource c s) (fun e s' => e = OMX_ErrorNone /\
    gpVideoDecRMComponentList s' =
      (remove_first (pOMXStandComp k) (gpVideoDecRMComponentList s)).1 ++
      [mkRMElem c (nGroupPriority (compPriority r))] /\
    comps s' = comps s /\ callbacks s' = callbacks s)).
  { intros Hwp. destruct (wp_result _ _ Hwp) as (e & s' & Hrun & -> & Hrest). by exists s'. }
  apply with_rm_lock_rule; [done|]. apply wp_bind. rewrite (run_load_member _ _ r) by done. simpl.
  rewrite Hcodec. unfold get_from_pool. apply wp_bind. simpl.
  rewrite (proj2 (Z.leb_le _ _)) by lia. apply wp_bind. rewrite (run_load_member _ _ r) by done.
  simpl in Hk |- *. rewrite Hk. simpl. apply wp_bind. unfold removeComponent. apply wp_bind.
  rewrite (run_load_member _ _ rk) by done. simpl. rewrite Hst. simpl.
  apply wp_bind. unfold removeElementList. apply wp_bind. simpl.
  destruct (gpVideoDecRMComponentList s) as [|e l] eqn:Hlist; [done|].
  destruct (remove_first (pOMXStandComp k) (e :: l)) as [l' b] eqn:Hrf. simpl.
  apply wp_bind. unfold addElementList. apply wp_bind. simpl. rewrite Hos. simpl.
  apply wp_bind. rewrite (run_load_member _ _ r) by done. simpl. done.
Qed.
End rm.
#[global] Arguments removeComponent : simpl never.
#[global] Arguments addElementList : simpl never.
#[global] Arguments removeElementList : simpl never.
#[global] Arguments SEC_OMX_Get_Resource : simpl never.
#[global] Arguments SEC_OMX_Release_Resource : simpl never.
#[global] Arguments SEC_OMX_In_WaitForResource : simpl never.
#[global] Arguments SEC_OMX_Out_WaitForResource : simpl never.

(** ** A pool of three executing decoders and a more urgent fourth one *)
Definition sample_decoder (prio : Z) : SEC_OMX_BASECOMPONENT :=
  (sample_idle_ports OMX_StateExecuting)<|compPriority := mkPriority prio 0|>.
Definition sample_pool : St :=
  sample_state_of {[ 1%nat := sample_decoder 5; 2%nat := sample_decoder 3;
                     3%nat := sample_decoder 5; 4%nat := sample_decoder 1 ]}
    [mkRMElem 1 5; mkRMElem 2 3; mkRMElem 3 5].

Lemma sample_pool_ready c : (1 <= c <= 4)%nat -> ready_component (H := sample_env) c sample_pool.
Proof.
  intros Hc.
  assert (exists prio, look (pSECComponent c) sample_pool =
            inr (sample_decoder prio)) as [prio Hl].
  { do 5 (destruct c as [|c]; [try lia; by eexists|]). lia. }
  eexists _, (sample_port 0 OMX_DirInput [] []), (sample_port 1 OMX_DirOutput [] []), [], 0.
  split; [|split; [exact Hl|split; [by split|split; [|split; [done|split; [done|done]]]]]].
  - do 5 (destruct c as [|c]; [try lia; by eapply sample_live_of|]). lia.
  - apply (sample_queue_with_repr []), Nat.le_0_l.
Qed.

Lemma sample_pool_inv : rm_inv (H := sample_env) sample_pool.
Proof.
  split; [done|]. split; [done|done|]. intros e. unfold members. simpl.
  rewrite !elem_of_cons. intros He. destruct_or! He; subst; try (by apply sample_pool_ready; simpl; lia).
  by apply not_elem_of_nil in He.
Qed.

Lemma resource_manager_invariant_witness :
  exists e s', run_rm (H := sample_env) RMGet 4 sample_pool = Done e s' /\
    rm_inv (H := sample_env) s' /\
    (forall c', ready_component (H := sample_env) c' sample_pool ->
                ready_component (H := sample_env) c' s').
Proof.
  apply (resource_manager_invariant (H := sample_env) RMGet 4 sample_pool sample_pool_inv).
  apply sample_pool_ready. lia.
Defined.

Lemma Get_Resource_spec_witness :
  exists e s', SEC_OMX_Get_Resource (H := sample_env) 4 sample_pool = Done e s' /\
    pool_answer (H := sample_env) gpVideoDecRMComponentList 4 3 1 sample_pool e s'.
Proof.
  apply (Get_Resource_spec (H := sample_env) 4 sample_pool (sample_decoder 1) sample_pool_inv
           (sample_pool_ready 4 ltac:(lia))); done.
Defined.

Lemma preempted_executing_keeps_running_witness :
  exists s', SEC_OMX_Get_Resource (H := sample_env) 4 sample_pool = Done OMX_ErrorNone s' /\
    gpVideoDecRMComponentList s' = [mkRMElem 2 3; mkRMElem 3 5; mkRMElem 4 1] /\
    comps s' = comps sample_pool /\ callbacks s' = [].
Proof.
  eapply (preempted_executing_keeps_running (H := sample_env) 4 sample_pool (sample_decoder 1)
            (mkRMElem 1 5) (sample_decoder 5)
            sample_pool_inv); done.
Defined.
