(* ===== verification/BasePort.v ===== *)
(** * Ports: buffer exchange, flush, enable and disable

    Models [component/common/SEC_OMX_Baseport.c].  The client hands buffers to
    a port with [SEC_OMX_EmptyThisBuffer] (input) and [SEC_OMX_FillThisBuffer]
    (output): a message is queued and the port's semaphore posted.  Flush and
    disable give the queued buffers back through the callbacks. *)
From S2P Require Import Prelude Machine OmxEnums OsalSync OsalQueue OmxTypes OmxState Focus.
From S2P Require Import PortFocus Samples.

(** [memset(timeStamp, -19771003, ...)] stores the low byte of the constant in
    every byte of each [OMX_TICKS]. *)
Definition memset_byte : Z := u8 (-19771003).
Definition memset_ticks : Z :=
  foldr (fun _ acc => acc * 256 + memset_byte) 0 (replicate 8 tt) - 2 ^ 64.
Definition memset_timeStamp : list Z := replicate (Z.to_nat MAX_TIMESTAMP) memset_ticks.

(** Bound on the iterations of the supplier branch of [SEC_OMX_FlushPort],
    which waits for tunnelled buffers to come back. *)
Definition tunnel_fuel : nat := 1024.

Section port.
Context `{Env} `{ComponentOps}.

(** ** Buffer submission *)

(** The guard shared by [EmptyThisBuffer] and [FillThisBuffer]. *)
Definition port_refuses (p : SEC_OMX_BASEPORT) (transient : SEC_OMX_TRANS_STATETYPE) : bool :=
  negb (CHECK_PORT_ENABLED p)
  || ((CHECK_PORT_BEING_FLUSHED p || CHECK_PORT_BEING_DISABLED p)
      && (negb (CHECK_PORT_TUNNELED p) || negb (CHECK_PORT_BUFFER_SUPPLIER p)))
  || (bool_decide (transient = SEC_OMX_TransStateExecutingToIdle)
      && (CHECK_PORT_TUNNELED p && negb (CHECK_PORT_BUFFER_SUPPLIER p))).

(** The search of [pBuffer] among the port's headers: the index of the first
    match. *)
Definition find_buffer (c : nat) (i : Z) (count : Z) (b : nat) : M St (option Z) :=
  for_exit 0 (Z.to_nat count) (fun j =>
    let* h := load (cell (target (port c i)↘bufferHeader) j) in
    ret (if bool_decide (h = Some b) then Some j else None)).

(** From the state check on; [i] is the port and [cmd] the message type. *)
Definition submit_buffer (c : nat) (i : Z) (cmd : OMX_COMMANDTYPE) (b : nat) : M St OMX_ERRORTYPE :=
  let* cur := load (pSECComponent c)↘currentState in
  if (negb (bool_decide (cur = OMX_StateIdle)) && negb (bool_decide (cur = OMX_StateExecuting))
      && negb (bool_decide (cur = OMX_StatePause)))%bool
  then ret OMX_ErrorIncorrectStateOperation
  else
    let* p := load (port c i) in
    let* tr := load (pSECComponent c)↘transientState in
    if port_refuses p tr then ret OMX_ErrorIncorrectStateOperation
    else
      let* found := find_buffer c i (nBufferCountActual (portDefinition p)) b in
      match found with
      | None => ret OMX_ErrorBadParameter
      | Some j =>
          let* ok := os_call in
          if negb ok then ret OMX_ErrorInsufficientResources
          else
            let* r := Queue (port c i)↘bufferQ
                        (ItemMessage (mkMessage cmd j (Some (PtrBuffer b)))) in
            if negb (r =? 0) then ret OMX_ErrorUndefined
            else SemaphorePost (port c i)↘bufferSemID
      end.

Definition SEC_OMX_EmptyThisBuffer (hComponent : option nat) (pBuffer : option nat)
  : M St OMX_ERRORTYPE :=
  entry hComponent (fun c => unless_invalid c (
    match pBuffer with
    | None => ret OMX_ErrorBadParameter
    | Some b =>
        let* h := load (header b) in
        if negb (nInputPortIndex h =? INPUT_PORT_INDEX) then ret OMX_ErrorBadPortIndex
        else
          let r := SEC_OMX_Check_SizeVersion (Some (bh_header h)) sizeof_BUFFERHEADERTYPE in
          if is_err r then ret r
          else submit_buffer c INPUT_PORT_INDEX SEC_OMX_CommandEmptyBuffer b
    end)).

Definition SEC_OMX_FillThisBuffer (hComponent : option nat) (pBuffer : option nat)
  : M St OMX_ERRORTYPE :=
  entry hComponent (fun c => unless_invalid c (
    match pBuffer with
    | None => ret OMX_ErrorBadParameter
    | Some b =>
        let* h := load (header b) in
        if negb (nOutputPortIndex h =? OUTPUT_PORT_INDEX) then ret OMX_ErrorBadPortIndex
        else
          let r := SEC_OMX_Check_SizeVersion (Some (bh_header h)) sizeof_BUFFERHEADERTYPE in
          if is_err r then ret r
          else submit_buffer c OUTPUT_PORT_INDEX SEC_OMX_CommandFillBuffer b
    end)).

(** The macros [OMX_EmptyThisBuffer] and [OMX_FillThisBuffer] call through the
    handle. *)
Definition OMX_EmptyThisBuffer (h : option nat) (b : nat) : M St OMX_ERRORTYPE :=
  match h with None => fail NullDeref | Some _ => SEC_OMX_EmptyThisBuffer h (Some b) end.
Definition OMX_FillThisBuffer (h : option nat) (b : nat) : M St OMX_ERRORTYPE :=
  match h with None => fail NullDeref | Some _ => SEC_OMX_FillThisBuffer h (Some b) end.

(** ** Flush *)

(** [message->pCmdData] at the type of a buffer header pointer. *)
Definition message_buffer (it : queue_item) : M St nat :=
  match it with
  | ItemPort => fail BadCast
  | ItemMessage m =>
      match pCmdData m with
      | Some (PtrBuffer b) => ret b
      | Some (PtrMark _) => fail BadCast
      | None => fail NullDeref
      end
  end.

(** One iteration of the first loop of [SEC_OMX_FlushPort]; [Some r] leaves the
    function with result [r]. *)
Definition flush_one (c : nat) (portIndex : Z) : M St (option OMX_ERRORTYPE) :=
  let* semValue := Get_SemaphoreCount (port c portIndex)↘bufferSemID 0 in
  (if semValue =? 0 then SemaphorePost (port c portIndex)↘bufferSemID ;;; ret tt else ret tt) ;;;
  SemaphoreWait (port c portIndex)↘bufferSemID ;;;
  let* message := Dequeue (port c portIndex)↘bufferQ in
  match message with
  | None => ret None
  | Some it =>
      let* b := message_buffer it in
      store (header b)↘nFilledLen 0 ;;;
      let* p := load (port c portIndex) in
      if (CHECK_PORT_TUNNELED p && negb (CHECK_PORT_BUFFER_SUPPLIER p))%bool then
        (if negb (portIndex =? 0) then OMX_EmptyThisBuffer (tunneledComponent p) b
         else OMX_FillThisBuffer (tunneledComponent p) b) ;;;
        ret None
      else if (CHECK_PORT_TUNNELED p && CHECK_PORT_BUFFER_SUPPLIER p)%bool then
        Queue (port c portIndex)↘bufferQ ItemPort ;;;
        ret (Some OMX_ErrorNotImplemented)
      else
        (if portIndex =? OUTPUT_PORT_INDEX
         then call_back c (FillBufferDone c b)
         else call_back c (EmptyBufferDone c b)) ;;;
        ret None
  end.

(** The buffer the processing thread holds is given back as well. *)
Definition flush_held (c : nat) (portIndex : Z) : M St unit :=
  let* d := load (databuffer c portIndex) in
  let* p := load (port c portIndex) in
  if dataValid d then
    if (CHECK_PORT_TUNNELED p && CHECK_PORT_BUFFER_SUPPLIER p)%bool then
      let* ok := os_call in
      if negb ok then fail NullDeref (* the result of malloc is used unchecked *)
      else
        Queue (port c portIndex)↘bufferQ
          (ItemMessage (mkMessage OMX_CommandStateSet (u32 (-1)) (PtrBuffer <$> db_bufferHeader d))) ;;;
        sec_BufferReset c portIndex ;;; ret tt
    else if portIndex =? INPUT_PORT_INDEX then sec_InputBufferReturn c ;;; ret tt
    else if portIndex =? OUTPUT_PORT_INDEX then sec_OutputBufferReturn c ;;; ret tt
    else ret tt
  else ret tt.

(** [while (1) { cnt = count(sem); if (cnt <= 0) break; wait(sem); }]: every
    iteration takes one unit, the loop ends at zero. *)
Definition drain_semaphore (P : place sem) : M St unit :=
  let* cnt0 := Get_SemaphoreCount P 0 in
  while (S (Z.to_nat cnt0))
    (let* cnt := Get_SemaphoreCount P 0 in ret (negb (cnt <=? 0)))
    (SemaphoreWait P ;;; ret tt).

Definition flush_tail (c : nat) (portIndex : Z) : M St unit :=
  let* p := load (port c portIndex) in
  (if (CHECK_PORT_TUNNELED p && CHECK_PORT_BUFFER_SUPPLIER p)%bool then
     while tunnel_fuel
       (let* n := GetElemNum (port c portIndex)↘bufferQ in
        ret (n <? s32 (assignedBufferNum p)))
       (SemaphoreWait (port c portIndex)↘bufferSemID ;;; ret tt) ;;;
     let* n := GetElemNum (port c portIndex)↘bufferQ in
     if negb (n =? s32 (assignedBufferNum p))
     then SetElemNum (port c portIndex)↘bufferQ (s32 (assignedBufferNum p)) ;;; ret tt
     else ret tt
   else
     drain_semaphore (port c portIndex)↘bufferSemID ;;;
     SetElemNum (port c portIndex)↘bufferQ 0 ;;; ret tt) ;;;
  update (data_of c portIndex) (fun d =>
    d<|pd_dataLen := 0|><|pd_nFlags := 0|><|pd_remainDataLen := 0|><|pd_timeStamp := 0|>
     <|pd_usedDataLen := 0|>).

(** The queue holds at most [ring_size] elements, and the loop runs once per
    element. *)
Definition SEC_OMX_FlushPort (c : nat) (portIndex : Z) : M St OMX_ERRORTYPE :=
  let* r := while_exit (S ring_size)
    (let* n := GetElemNum (port c portIndex)↘bufferQ in ret (0 <? n))
    (flush_one c portIndex) in
  match r with
  | Some r => ret r
  | None =>
      flush_held c portIndex ;;;
      flush_tail c portIndex ;;;
      ret OMX_ErrorNone
  end.

(** The bookkeeping every flush of a port ends with; [noevent] is the variant
    of [SEC_OMX_BufferFlushProcessNoEvent], which also clears
    [remainOutputData] for the input port. *)
Definition flush_reset (c : nat) (portIndex : Z) (noevent : bool) : M St unit :=
  if portIndex =? INPUT_PORT_INDEX then
    update (pSECComponent c) (fun r =>
      r<|checkTimeStamp ::= fun t =>
           t<|needSetStartTimeStamp := true|><|needCheckStartTimeStamp := false|>|>
       <|timeStamp := memset_timeStamp|>
       <|compFlags := replicate (Z.to_nat MAX_FLAGS) 0|>
       <|getAllDelayBuffer := false|><|bSaveFlagEOS := false|><|reInputData := false|>
       <|remainOutputData ::= fun b => if noevent then false else b|>)
  else if portIndex =? OUTPUT_PORT_INDEX then
    store (pSECComponent c)↘remainOutputData false
  else ret tt.

(** [cnt = (nPortIndex == ALL_PORT_INDEX) ? ALL_PORT_NUM : 1], and the port of
    iteration [i]. *)
Definition port_count (nPortIndex : Z) : nat :=
  Z.to_nat (if nPortIndex =? ALL_PORT_INDEX then ALL_PORT_NUM else 1).
Definition port_of (nPortIndex i : Z) : Z :=
  if nPortIndex =? ALL_PORT_INDEX then i else nPortIndex.

(** Flush of one port under its buffer mutex. *)
Definition flush_locked (c : nat) (portIndex : Z) : M St OMX_ERRORTYPE :=
  MutexLock (databuffer c portIndex)↘bufferMutex ;;;
  let* r := SEC_OMX_FlushPort c portIndex in
  MutexUnlock (databuffer c portIndex)↘bufferMutex ;;;
  store (port c portIndex)↘bIsPortFlushed false ;;;
  ret r.

(** The [EXIT] of the port processes: an error is reported to the client. *)
Definition report (c : nat) (r : OMX_ERRORTYPE) : M St OMX_ERRORTYPE :=
  (if is_err r then call_back c (EventError c r) else ret tt) ;;; ret r.

(** The bodies of the loops of the two flush processes. *)
Definition event_iteration (c : nat) (portIndex : Z) : M St OMX_ERRORTYPE :=
  SignalSet (pSECComponent c)↘pauseEvent ;;;
  let* r := flush_locked c portIndex in
  (if is_err r then ret tt else call_back c (EventCmdComplete c OMX_CommandFlush (u32 portIndex))) ;;;
  flush_reset c portIndex false ;;; ret r.

Definition noevent_iteration (c : nat) (portIndex : Z) : M St OMX_ERRORTYPE :=
  store (port c portIndex)↘bIsPortFlushed true ;;;
  SignalSet (pSECComponent c)↘pauseEvent ;;;
  let* r := flush_locked c portIndex in
  flush_reset c portIndex true ;;; ret r.

Definition SEC_OMX_BufferFlushProcess (pOMXComponent : option nat) (nPortIndex : Z)
  : M St OMX_ERRORTYPE :=
  entry pOMXComponent (fun c =>
    let* r := for_fold 0 (port_count nPortIndex) OMX_ErrorNone (fun i _ =>
      event_iteration c (port_of nPortIndex i)) in
    report c r).

Definition SEC_OMX_BufferFlushProcessNoEvent (pOMXComponent : option nat) (nPortIndex : Z)
  : M St OMX_ERRORTYPE :=
  entry pOMXComponent (fun c =>
    let* r := for_fold 0 (port_count nPortIndex) OMX_ErrorNone (fun i _ =>
      noevent_iteration c (port_of nPortIndex i)) in
    report c r).

(** ** Enable and disable *)
Definition SEC_OMX_EnablePort (c : nat) (portIndex : Z) : M St OMX_ERRORTYPE :=
  store (port c portIndex)↘portDefinition↘bEnabled true ;;;
  let* p := load (port c portIndex) in
  let wait_loaded :=
    let* cur := load (pSECComponent c)↘currentState in
    if (negb (bool_decide (cur = OMX_StateLoaded))
        && negb (bool_decide (cur = OMX_StateWaitForResources)))%bool then
      SemaphoreWait (port c portIndex)↘loadedResource ;;;
      store (port c portIndex)↘portDefinition↘bPopulated true
    else ret tt in
  if (CHECK_PORT_TUNNELED p && CHECK_PORT_BUFFER_SUPPLIER p)%bool then
    let* r := sec_AllocateTunnelBuffer c portIndex in
    if is_err r then ret r
    else
      store (port c portIndex)↘portDefinition↘bPopulated true ;;;
      let* cur := load (pSECComponent c)↘currentState in
      (if bool_decide (cur = OMX_StateExecuting) then
         let* n := load (port c portIndex)↘tunnelBufferNum in
         for_from 0 (Z.to_nat n) (fun _ =>
           SemaphorePost (port c portIndex)↘bufferSemID ;;; ret tt)
       else ret tt) ;;;
      ret OMX_ErrorNone
  else wait_loaded ;;; ret OMX_ErrorNone.

Definition SEC_OMX_PortEnableProcess (pOMXComponent : option nat) (nPortIndex : Z)
  : M St OMX_ERRORTYPE :=
  entry pOMXComponent (fun c =>
    let* r := for_fold 0 (port_count nPortIndex) OMX_ErrorNone (fun i _ =>
      let portIndex := port_of nPortIndex i in
      let* r := SEC_OMX_EnablePort c portIndex in
      (if is_err r then ret tt
       else call_back c (EventCmdComplete c OMX_CommandPortEnable (u32 portIndex))) ;;;
      ret r) in
    report c r).

(** [while (GetElemNum(q) > 0) free(Dequeue(q))] *)
Definition drain_queue (P : place (SEC_QUEUE queue_item)) : M St unit :=
  while (S ring_size)
    (let* n := GetElemNum P in ret (0 <? n))
    (Dequeue P ;;; ret tt).

Definition SEC_OMX_DisablePort (c : nat) (portIndex : Z) : M St OMX_ERRORTYPE :=
  let* p := load (port c portIndex) in
  if negb (CHECK_PORT_ENABLED p) then ret OMX_ErrorNone
  else
    let* cur := load (pSECComponent c)↘currentState in
    let* r :=
      (if negb (bool_decide (cur = OMX_StateLoaded)) then
         if (CHECK_PORT_TUNNELED p && CHECK_PORT_BUFFER_SUPPLIER p)%bool then
           drain_queue (port c portIndex)↘bufferQ ;;;
           let* r := sec_FreeTunnelBuffer c portIndex in
           if is_err r then ret r
           else store (port c portIndex)↘portDefinition↘bPopulated false ;;; ret OMX_ErrorNone
         else if (CHECK_PORT_TUNNELED p && negb (CHECK_PORT_BUFFER_SUPPLIER p))%bool then
           store (port c portIndex)↘portDefinition↘bPopulated false ;;;
           SemaphoreWait (port c portIndex)↘unloadedResource ;;; ret OMX_ErrorNone
         else
           (if CHECK_PORT_BUFFER_SUPPLIER p then drain_queue (port c portIndex)↘bufferQ
            else ret tt) ;;;
           store (port c portIndex)↘portDefinition↘bPopulated false ;;;
           SemaphoreWait (port c portIndex)↘unloadedResource ;;; ret OMX_ErrorNone
       else ret OMX_ErrorNone) in
    if is_err r then ret r
    else store (port c portIndex)↘portDefinition↘bEnabled false ;;; ret OMX_ErrorNone.

Definition SEC_OMX_PortDisableProcess (pOMXComponent : option nat) (nPortIndex : Z)
  : M St OMX_ERRORTYPE :=
  entry pOMXComponent (fun c =>
    for_from 0 (port_count nPortIndex) (fun i =>
      let portIndex := port_of nPortIndex i in
      store (port c portIndex)↘bIsPortFlushed true ;;;
      flush_locked c portIndex ;;;
      flush_reset c portIndex false) ;;;
    let* r := for_fold 0 (port_count nPortIndex) OMX_ErrorNone (fun i _ =>
      let portIndex := port_of nPortIndex i in
      let* r := SEC_OMX_DisablePort c portIndex in
      store (port c portIndex)↘bIsPortDisabled false ;;;
      (if is_err r then ret tt
       else call_back c (EventCmdComplete c OMX_CommandPortDisable (u32 portIndex))) ;;;
      ret r) in
    report c r).

(** ** Construction and destruction *)

(** [SEC_OSAL_Free(pSECPort)] on an error path: the component keeps its now
    dangling pointer. *)
Definition free_ports (c : nat) : M St unit := store (pSECComponent c)↘pSECPort Dangling.

Definition port_definition_init (i : Z) (dir : OMX_DIRTYPE) : OMX_PARAM_PORTDEFINITIONTYPE :=
  mkPortDef (INIT_SET_SIZE_VERSION sizeof_PORTDEFINITIONTYPE) i dir 0 0 0 false false
    OMX_PortDomainMax video_zero false 0.

(** The construction of port [i]; [undo] is what an error path releases of the
    other port.  [None] when the port is ready. *)
Definition construct_port (c : nat) (i : Z) (dir : OMX_DIRTYPE) (undo : M St unit)
  : M St (option OMX_ERRORTYPE) :=
  QueueCreate (port c i)↘bufferQ ;;;
  let* ok := os_call in
  if negb ok then undo ;;; free_ports c ;;; ret (Some OMX_ErrorInsufficientResources)
  else
    store (port c i)↘bufferHeader (Ptr (replicate (Z.to_nat MAX_BUFFER_NUM) None)) ;;;
    let* ok := os_call in
    if negb ok then undo ;;; free_ports c ;;; ret (Some OMX_ErrorInsufficientResources)
    else
      update (port c i) (fun p =>
        p<|bufferStateAllocate := Ptr (replicate (Z.to_nat MAX_BUFFER_NUM) 0)|>
         <|bufferSemID := None|><|assignedBufferNum := 0|><|portState := OMX_StateMax|>
         <|bIsPortFlushed := false|><|bIsPortDisabled := false|><|tunneledComponent := None|>
         <|tunneledPort := 0|><|tunnelBufferNum := 0|>
         <|bufferSupplier := OMX_BufferSupplyUnspecified|><|tunnelFlags := 0|>) ;;;
      let* r := os_apply SEC_OSAL_SemaphoreCreate (port c i)↘loadedResource in
      if is_err r then undo ;;; free_ports c ;;; ret (Some r)
      else
        let* r := os_apply SEC_OSAL_SemaphoreCreate (port c i)↘unloadedResource in
        if is_err r then
          SemaphoreTerminate_null (port c i)↘loadedResource ;;;
          undo ;;; free_ports c ;;; ret (Some r)
        else
          update (port c i) (fun p =>
            p<|portDefinition := port_definition_init i dir|><|markType := mark_zero|>) ;;;
          ret None.

Definition SEC_OMX_Port_Constructor (hComponent : option nat) : M St OMX_ERRORTYPE :=
  entry hComponent (fun c =>
    store (pSECComponent c)↘portParam
      (mkPortParam (INIT_SET_SIZE_VERSION sizeof_PORT_PARAM_TYPE) ALL_PORT_NUM INPUT_PORT_INDEX) ;;;
    let* ok := os_call in
    if negb ok then ret OMX_ErrorInsufficientResources
    else
      store (pSECComponent c)↘pSECPort (Ptr (replicate (Z.to_nat ALL_PORT_NUM) port_zero)) ;;;
      let* r := construct_port c INPUT_PORT_INDEX OMX_DirInput (ret tt) in
      match r with
      | Some r => ret r
      | None =>
          let* r := construct_port c OUTPUT_PORT_INDEX OMX_DirOutput
            (SemaphoreTerminate_null (port c INPUT_PORT_INDEX)↘unloadedResource ;;;
             SemaphoreTerminate_null (port c INPUT_PORT_INDEX)↘loadedResource) in
          match r with
          | Some r => ret r
          | None =>
              store (pSECComponent c)↘checkTimeStamp (mkTimeStamp false false 0 0) ;;;
              ret OMX_ErrorNone
          end
      end).

Definition SEC_OMX_Port_Destructor (hComponent : option nat) : M St OMX_ERRORTYPE :=
  entry hComponent (fun c =>
    for_from 0 (Z.to_nat ALL_PORT_NUM) (fun i =>
      SemaphoreTerminate_null (port c i)↘loadedResource ;;;
      SemaphoreTerminate_null (port c i)↘unloadedResource ;;;
      store (port c i)↘bufferStateAllocate Null ;;;
      store (port c i)↘bufferHeader Null ;;;
      QueueTerminate (port c i)↘bufferQ ;;; ret tt) ;;;
    store (pSECComponent c)↘pSECPort Null ;;;
    ret OMX_ErrorNone).

(** ** Flushing a port

    [buffer_item cmd j b]: the queue entry of a submitted buffer. *)
Definition item_buffer (it : queue_item) : option nat :=
  match it with
  | ItemMessage m => match pCmdData m with Some (PtrBuffer b) => Some b | _ => None end
  | ItemPort => None
  end.

(** The items [l] are submissions of the buffers [bs]. *)
Definition submissions (l : list queue_item) (bs : list nat) : Prop :=
  Forall2 (fun it b => item_buffer it = Some b) l bs.

(** The callback that gives a buffer of port [i] back. *)
Definition buffer_done (c : nat) (i : Z) (b : nat) : callback :=
  if i =? OUTPUT_PORT_INDEX then FillBufferDone c b else EmptyBufferDone c b.

(** The header of a returned buffer: nothing is left in it. *)
Definition emptied (hs : gmap nat OMX_BUFFERHEADERTYPE) (b : nat) : gmap nat OMX_BUFFERHEADERTYPE :=
  alter (fun h => h<|nFilledLen := 0|>) b hs.

Lemma headers_emptied s b h :
  headers s !! b = Some h ->
  s<|headers ::= fun hs => emptied hs b|> = s<|headers ::= <[b := h<|nFilledLen := 0|>]>|>.
Proof.
  intros Hh. unfold set_field. simpl. f_equal. apply map_eq. intros j. unfold emptied.
  destruct (decide (j = b)) as [->|].
  - by rewrite lookup_insert_eq, lookup_alter_eq, Hh.
  - by rewrite lookup_insert_ne, lookup_alter_ne.
Qed.

(** The semaphore after [n] rounds of post-if-zero and wait. *)
Definition sem_rounds (h : sem) (n : nat) : sem :=
  match h with None => None | Some v => Some (Z.max 0 (v - Z.of_nat n)) end.

Lemma message_buffer_spec it b I s Q :
  item_buffer it = Some b -> Q b s -> wp I (message_buffer it s) Q.
Proof.
  destruct it as [m|]; simpl; [|done]. destruct (pCmdData m) as [[|]|]; simpl; try done.
  by intros [= ->].
Qed.

Section flush.
Context (I : St -> Prop) (c : nat) (i : Z) (r : SEC_OMX_BASECOMPONENT) (cb : nat).
Hypothesis (Hi : has_port i r) (Hcb : pCallbacks r = Some cb).

Ltac pdone := first [done | fvalid | apply _].

(** One round of the semaphore, which never blocks. *)
Lemma sem_round_spec {A} p s (k : M St A) Q :
  valid c s -> sem_ok (bufferSemID p) ->
  wp I (k (at_port c i p<|bufferSemID := sem_rounds (bufferSemID p) 1|> r s)) Q ->
  wp I ((let* semValue := Get_SemaphoreCount (port c i)↘bufferSemID 0 in
         (if semValue =? 0 then SemaphorePost (port c i)↘bufferSemID ;;; ret tt else ret tt) ;;;
         SemaphoreWait (port c i)↘bufferSemID ;;; k) (at_port c i p r s)) Q.
Proof.
  intros Hv Hok HQ. pose proof SEM_VALUE_MAX_min as Hmin. apply wp_bind.
  unfold Get_SemaphoreCount. apply wp_bind. eapply pwp_load; [pdone..|]. apply wp_ret.
  destruct (bufferSemID p) as [v|] eqn:Hsem; simpl in *.
  2: { apply wp_bind, wp_bind. eapply pwp_apply_at; [pdone..|by rewrite Hsem|done|].
       apply wp_ret. apply wp_bind.
       eapply pwp_blocking; [pdone..|done|done|done|]. collapse. exact HQ. }
  apply wp_bind. destruct (Z.eqb_spec v 0) as [->|Hne].
  - apply wp_bind. eapply pwp_apply_at; [pdone..| |done|].
    { rewrite Hsem. unfold SEC_OSAL_SemaphorePost.
      by rewrite (proj2 (Z.eqb_neq 0 SEM_VALUE_MAX)) by lia. }
    apply wp_ret. apply wp_bind. eapply pwp_blocking; [pdone..|done|done|done|].
    collapse. exact HQ.
  - apply wp_ret. apply wp_bind.
    eapply pwp_blocking; [pdone..| |by rewrite Hsem|done|].
    { rewrite Hsem. apply Z.ltb_lt. lia. }
    collapse. by replace (v - 1) with (Z.max 0 (v - 1)) by lia.
Qed.

Lemma sem_rounds_ok h n : sem_ok h -> sem_ok (sem_rounds h n).
Proof. pose proof SEM_VALUE_MAX_min. destruct h; simpl; lia. Qed.

(** A buffer of an ordinary port goes back to the client. *)
Lemma flush_one_spec p s it l b Q :
  valid c s -> sem_ok (bufferSemID p) -> tunnelFlags p = 0 ->
  queue_repr (bufferQ p) (it :: l) -> item_buffer it = Some b -> is_Some (headers s !! b) ->
  (forall q, queue_repr q l ->
     Q None (at_port c i p<|bufferSemID := sem_rounds (bufferSemID p) 1|><|bufferQ := q|> r
               s<|headers ::= fun hs => emptied hs b|>
                <|callbacks ::= fun k => k ++ [buffer_done c i b]|>)) ->
  wp I (flush_one c i (at_port c i p r s)) Q.
Proof.
  intros Hv Hok Htun Hq Hit [h Hh] HQ. unfold flush_one. apply sem_round_spec; [done..|].
  apply wp_bind. eapply pwp_Dequeue; [pdone..|]. intros q Hq'. simpl.
  apply wp_bind. eapply message_buffer_spec; [done|]. apply wp_bind.
  eapply pwp_store_header; [done|]. apply wp_bind. eapply pwp_load; [pdone..|].
  destruct (no_tunnel p Htun) as [Ht Hs].
  unfold CHECK_PORT_TUNNELED, CHECK_PORT_BUFFER_SUPPLIER in *. simpl. rewrite Ht, Hs. simpl.
  specialize (HQ q Hq'). rewrite (headers_emptied s b h Hh) in HQ. unfold buffer_done in HQ.
  apply wp_bind. destruct (i =? OUTPUT_PORT_INDEX); (eapply pwp_call_back; [pdone|done|]);
    apply wp_ret; exact HQ.
Qed.

Lemma headers_after bs hs b : is_Some (hs !! b) -> is_Some (foldl emptied hs bs !! b).
Proof.
  revert hs. induction bs as [|x bs IH]; intros hs Hb; simpl; [done|]. apply IH.
  unfold emptied. destruct (decide (b = x)) as [->|].
  - rewrite lookup_alter_eq. destruct Hb as [h ->]. by eexists.
  - by rewrite lookup_alter_ne.
Qed.

(** The loop of [SEC_OMX_FlushPort] gives back all queued buffers, the oldest
    first. *)
Lemma flush_loop_spec l : forall bs fuel p s Q,
  (length l < fuel)%nat ->
  valid c s -> sem_ok (bufferSemID p) -> tunnelFlags p = 0 ->
  queue_repr (bufferQ p) l -> submissions l bs -> Forall (fun b => is_Some (headers s !! b)) bs ->
  (forall q n, queue_repr q [] ->
     Q None (at_port c i p<|bufferSemID := sem_rounds (bufferSemID p) n|><|bufferQ := q|> r
               s<|headers ::= fun hs => foldl emptied hs bs|>
                <|callbacks ::= fun k => k ++ (buffer_done c i <$> bs)|>)) ->
  wp I (while_exit fuel (let* n := GetElemNum (port c i)↘bufferQ in ret (0 <? n))
          (flush_one c i) (at_port c i p r s)) Q.
Proof.
  induction l as [|it l IH]; intros bs fuel p s Q Hfuel Hv Hok Htun Hq Hsub Hhs HQ;
    (destruct fuel as [|fuel]; [lia|]); rewrite while_exit_S; apply wp_bind, wp_bind;
    (eapply pwp_GetElemNum; [pdone..|]); apply wp_ret; simpl.
  - apply Forall2_nil_inv_l in Hsub. subst bs.
    specialize (HQ (bufferQ p) 0%nat Hq). simpl in HQ.
    replace (sem_rounds (bufferSemID p) 0) with (bufferSemID p) in HQ
      by (destruct (bufferSemID p); simpl in *; f_equal; lia).
    replace (p<|bufferSemID := bufferSemID p|><|bufferQ := bufferQ p|>) with p in HQ by by destruct p.
    replace (s<|headers ::= fun hs => hs|><|callbacks ::= fun k => k ++ []|>) with s in HQ; [done|].
    destruct s. unfold set_field. simpl. by rewrite app_nil_r.
  - apply Forall2_cons_inv_l in Hsub as (b & bs' & Hit & Hsub & ->).
    apply Forall_cons in Hhs as [Hb Hhs]. apply wp_bind.
    eapply flush_one_spec; [done..|]. intros q Hq'.
    apply (IH bs'); [simpl in *; lia|fvalid|by apply sem_rounds_ok|done|done|done| |].
    { simpl. eapply Forall_impl; [done|]. intros x Hx. by apply (headers_after [b]). }
    intros q' n Hq2. specialize (HQ q' (S n) Hq2). collapse. simpl in HQ |- *.
    replace (sem_rounds (sem_rounds (bufferSemID p) 1) n) with (sem_rounds (bufferSemID p) (S n))
      by (destruct (bufferSemID p); simpl; f_equal; lia).
    match goal with |- Q None (at_port _ _ _ _ ?s1) =>
      match type of HQ with Q None (at_port _ _ _ _ ?s2) => replace s1 with s2 end end; [exact HQ|].
    unfold set_field. simpl. by rewrite <- app_assoc.
Qed.

(** The semaphore of the port ends at zero (or stays NULL). *)
Definition sem_zero (h : sem) : sem := match h with None => None | Some _ => Some 0 end.

Lemma drain_semaphore_spec p s Q :
  valid c s -> sem_ok (bufferSemID p) ->
  Q tt (at_port c i p<|bufferSemID := sem_zero (bufferSemID p)|> r s) ->
  wp I (drain_semaphore (port c i)↘bufferSemID (at_port c i p r s)) Q.
Proof.
  intros Hv Hok HQ. unfold drain_semaphore, Get_SemaphoreCount. apply wp_bind, wp_bind.
  eapply pwp_load; [pdone..|]. apply wp_ret.
  destruct (bufferSemID p) as [v|] eqn:Hsem; simpl in *.
  2: { rewrite while_S. apply wp_bind, wp_bind, wp_bind. eapply pwp_load; [pdone..|]. apply wp_ret.
       rewrite Hsem. simpl. replace p with (p<|bufferSemID := None|>); [done|].
       destruct p; simpl in *; unfold set_field; simpl; by subst. }
  destruct (Z_of_nat_complete v) as [n ->]; [lia|]. rewrite Nat2Z.id. revert p Hsem HQ Hok.
  induction n as [|n IH]; intros p Hsem HQ Hok; rewrite while_S; apply wp_bind, wp_bind, wp_bind;
    (eapply pwp_load; [pdone..|]); do 2 apply wp_ret; rewrite Hsem; simpl.
  - replace p with (p<|bufferSemID := Some 0|>); [done|].
    destruct p; simpl in *; unfold set_field; simpl; by subst.
  - apply wp_bind, wp_bind. eapply pwp_blocking; [pdone..| |by rewrite Hsem|done|].
    { by rewrite Hsem. }
    apply wp_ret. apply IH; [simpl; f_equal; lia|by collapse|lia].
Qed.

(** [flush_tail] on a port that holds nothing any more. *)
Lemma flush_tail_spec p s d Q :
  valid c s -> sem_ok (bufferSemID p) -> tunnelFlags p = 0 -> queue_repr (bufferQ p) [] ->
  zlookup (processData r) i = Some d ->
  (forall q, queue_repr q [] ->
     Q tt (set_sec c (port_put i p<|bufferSemID := sem_zero (bufferSemID p)|><|bufferQ := q|> r)
            <|processData ::= zinsert i
               d<|pd_dataLen := 0|><|pd_nFlags := 0|><|pd_remainDataLen := 0|><|pd_timeStamp := 0|>
                <|pd_usedDataLen := 0|>|> s)) ->
  wp I (flush_tail c i (at_port c i p r s)) Q.
Proof.
  intros Hv Hok Htun Hq Hd HQ. unfold flush_tail. apply wp_bind. eapply pwp_load; [pdone..|].
  destruct (no_tunnel p Htun) as [-> ->]. simpl. apply wp_bind, wp_bind.
  apply drain_semaphore_spec; [done..|]. apply wp_bind.
  change 0 with (Z.of_nat (length (@nil queue_item))).
  eapply pwp_SetElemNum; [pdone..|]. intros q Hq'. apply wp_ret. unfold at_port.
  eapply wp_update; [apply _|pdone| |reflexivity|].
  - unfold cell_get. autorewrite with port. by rewrite Hd.
  - specialize (HQ q Hq'). simpl. autorewrite with port.
    match type of HQ with Q tt (set_sec c ?r1 s) =>
      match goal with |- Q tt (set_sec c ?r2 s) => replace r2 with r1; [exact HQ|] end end.
    unfold set_field. simpl. by autorewrite with port.
Qed.

(** The state after a flush that gave the buffers [bs] back. *)
Definition flushed (p : SEC_OMX_BASEPORT) (s : St) (d : SEC_OMX_DATA) (bs : list nat) (s' : St) : Prop :=
  exists q, queue_repr q [] /\
    s' = set_sec c (port_put i p<|bufferSemID := sem_zero (bufferSemID p)|><|bufferQ := q|> r)
            <|processData ::= zinsert i
               d<|pd_dataLen := 0|><|pd_nFlags := 0|><|pd_remainDataLen := 0|><|pd_timeStamp := 0|>
                <|pd_usedDataLen := 0|>|>
          s<|headers ::= fun hs => foldl emptied hs bs|>
           <|callbacks ::= fun k => k ++ (buffer_done c i <$> bs)|>.

(** The whole function on such a port. *)
Lemma FlushPort_wp p s l bs d db Q :
  valid c s -> sem_ok (bufferSemID p) -> tunnelFlags p = 0 ->
  queue_repr (bufferQ p) l -> submissions l bs -> Forall (fun b => is_Some (headers s !! b)) bs ->
  zlookup (processData r) i = Some d -> zlookup (secDataBuffer r) i = Some db ->
  dataValid db = false ->
  (forall s', flushed p s d bs s' -> Q OMX_ErrorNone s') ->
  wp I (SEC_OMX_FlushPort c i (at_port c i p r s)) Q.
Proof.
  intros Hv Hok Htun Hq Hsub Hhs Hd Hdb Hval HQ. unfold SEC_OMX_FlushPort. apply wp_bind.
  eapply flush_loop_spec; [|done..|].
  { apply Nat.lt_succ_r. by destruct Hq as (? & _ & _ & ? & _). }
  intros q n Hq'. apply wp_bind. unfold flush_held. apply wp_bind. unfold at_port at 1.
  eapply wp_load; [apply _|pdone| |].
  { unfold cell_get. autorewrite with port. by rewrite Hdb. }
  apply wp_bind. change (set_sec c (port_put i ?p r) ?s) with (at_port c i p r s).
  eapply pwp_load; [pdone..|]. rewrite Hval. apply wp_ret. apply wp_bind.
  eapply flush_tail_spec; [pdone|simpl; by apply sem_rounds_ok|done|done|done|].
  intros q2 Hq2. apply wp_ret. apply HQ. exists q2. split; [done|].
  replace (sem_zero (bufferSemID _)) with (sem_zero (bufferSemID p)); [done|].
  simpl. by destruct (bufferSemID p).
Qed.
End flush.

(** C4: flushing an untunnelled port returns [OMX_ErrorNone] without blocking:
    every queued buffer is given back to the client exactly once, in the order
    of submission, with its filled length cleared; afterwards the queue is
    empty, the port's semaphore is at zero and the partly processed data of
    the port is discarded.  The other port is not touched. *)
Theorem FlushPort_returns_buffers c i s r p l bs d db cb :
  look (pSECComponent c) s = inr r -> port_get i r = inr p -> pCallbacks r = Some cb ->
  sem_ok (bufferSemID p) -> tunnelFlags p = 0 ->
  queue_repr (bufferQ p) l -> submissions l bs -> Forall (fun b => is_Some (headers s !! b)) bs ->
  zlookup (processData r) i = Some d -> zlookup (secDataBuffer r) i = Some db ->
  dataValid db = false ->
  exists s' r' p' d', SEC_OMX_FlushPort c i s = Done OMX_ErrorNone s' /\
    look (pSECComponent c) s' = inr r' /\ port_get i r' = inr p' /\
    queue_repr (bufferQ p') [] /\ bufferSemID p' = sem_zero (bufferSemID p) /\
    callbacks s' = callbacks s ++ (buffer_done c i <$> bs) /\
    headers s' = foldl emptied (headers s) bs /\
    zlookup (processData r') i = Some d' /\ pd_dataLen d' = 0 /\ pd_remainDataLen d' = 0 /\
    (forall j, j <> i -> port_get j r' = port_get j r).
Proof.
  intros Hl Hp Hcb Hok Htun Hq Hsub Hhs Hd Hdb Hval.
  pose proof (look_valid _ _ _ Hl) as Hv.
  assert (has_port i r) as Hi by by exists p.
  assert (wp (fun _ => False) (SEC_OMX_FlushPort c i (at_port c i p r s)) (fun e s' =>
    e = OMX_ErrorNone /\ flushed c i r p s d bs s')) as Hwp.
  { by eapply FlushPort_wp. }
  rewrite (at_port_id c i p r s) in Hwp by done.
  destruct (wp_result _ _ Hwp) as (e & s' & Hrun & -> & q & Hq' & ->).
  eexists _, _, _, _. split; [exact Hrun|]. split; [apply look_sec; fvalid|].
  split; [exact (port_get_put i _ r Hi)|]. simpl. split; [done|]. split; [done|].
  rewrite callbacks_set_sec, headers_set_sec. simpl. split; [done|]. split; [done|].
  split; [|split; [|split]].
  - autorewrite with port. rewrite zlookup_zinsert by by eapply zlookup_Some_range.
    by rewrite decide_True.
  - done.
  - done.
  - intros j Hj. by apply (port_get_put_ne i).
Qed.

(** ** Flush processes

    What a flush of port [i] needs: an untunnelled port that holds the buffers
    [bs], a processing thread that holds no buffer of the port, and its mutex
    free. *)
Definition flush_pre (i : Z) (hs : gmap nat OMX_BUFFERHEADERTYPE) (r : SEC_OMX_BASECOMPONENT)
    (bs : list nat) : Prop :=
  exists p l d db, port_get i r = inr p /\ sem_ok (bufferSemID p) /\ tunnelFlags p = 0 /\
    queue_repr (bufferQ p) l /\ submissions l bs /\ Forall (fun b => is_Some (hs !! b)) bs /\
    zlookup (processData r) i = Some d /\ zlookup (secDataBuffer r) i = Some db /\
    dataValid db = false /\ mutex_ready (bufferMutex db) = true.

(** What it leaves alone. *)
Definition keeps (i : Z) (r r' : SEC_OMX_BASECOMPONENT) : Prop :=
  (forall j, j <> i -> port_get j r' = port_get j r /\
     zlookup (processData r') j = zlookup (processData r) j /\
     zlookup (secDataBuffer r') j = zlookup (secDataBuffer r) j) /\
  (has_port i r -> has_port i r') /\
  currentState r' = currentState r /\ pCallbacks r' = pCallbacks r /\
  (pauseEvent r <> Dangling -> pauseEvent r' <> Dangling) /\
  portParam r' = portParam r /\ messageQ r' = messageQ r.

(** A port with nothing in it. *)
Definition drained (i : Z) (r : SEC_OMX_BASECOMPONENT) : Prop :=
  exists p, port_get i r = inr p /\ queue_repr (bufferQ p) [] /\ bIsPortFlushed p = false /\
    (bufferSemID p = None \/ bufferSemID p = Some 0).

#[export] Instance keeps_trans i : Transitive (keeps i).
Proof.
  intros r1 r2 r3 (Hj1 & Hp1 & ? & ? & ? & ? & ?) (Hj2 & Hp2 & ? & ? & ? & ? & ?).
  split; [|split; [auto|split_and!; (congruence || auto)]].
  intros j Hj. destruct (Hj1 j Hj) as (? & ? & ?), (Hj2 j Hj) as (? & ? & ?). split_and!; congruence.
Qed.

Lemma flush_pre_keeps i j hs hs' r r' bs :
  i <> j -> keeps i r r' -> (forall b, is_Some (hs !! b) -> is_Some (hs' !! b)) ->
  flush_pre j hs r bs -> flush_pre j hs' r' bs.
Proof.
  intros Hij (Hk & _) Hhs (p & l & d & db & ? & ? & ? & ? & ? & Hb & ? & ? & ? & ?).
  destruct (Hk j) as (? & ? & ?); [done|]. exists p, l, d, db.
  split_and!; try done; try congruence. eapply Forall_impl; [done|]. auto.
Qed.

Lemma drained_keeps i j r r' : i <> j -> keeps i r r' -> drained j r -> drained j r'.
Proof.
  intros Hij (Hk & _) (p & Hp & Hrest). destruct (Hk j) as (Hp' & _); [done|].
  exists p. by rewrite Hp'.
Qed.

Lemma keeps_port_put i p r : has_port i r -> keeps i r (port_put i p r).
Proof.
  intros Hi. split; [|split; [intros _; by apply has_port_put|by autorewrite with port]].
  intros j Hj. autorewrite with port. split; [|done]. by apply port_get_put_ne.
Qed.

Section process.
Context (I : St -> Prop) (c : nat) (i : Z) (s : St) (r : SEC_OMX_BASECOMPONENT) (bs : list nat).

(** The state after the flush of port [i]. *)
Definition after_flush (s' : St) : Prop :=
  exists r', s' = set_sec c r' s<|headers ::= fun hs => foldl emptied hs bs|>
                                <|callbacks ::= fun k => k ++ (buffer_done c i <$> bs)|> /\
    keeps i r r' /\ drained i r'.

Lemma port_put_data i' p r0 x :
  (port_put i' p r0)<|secDataBuffer := x|> = port_put i' p r0<|secDataBuffer := x|>.
Proof. unfold port_put. simpl. by destruct (pSECPort r0). Qed.

Lemma flush_locked_wp cb :
  valid c s -> pCallbacks r = Some cb -> flush_pre i (headers s) r bs ->
  wp I (flush_locked c i (set_sec c r s)) (fun e s' => e = OMX_ErrorNone /\ after_flush s').
Proof.
  intros Hv Hcb (p & l & d & db & Hp & Hok & Htun & Hq & Hsub & Hhs & Hd & Hdb & Hval & Hmx).
  assert (has_port i r) as Hi by by exists p.
  pose proof (zlookup_Some_range _ _ _ Hdb) as Hrange.
  unfold flush_locked. apply wp_bind.
  destruct (SEC_OSAL_MutexLock (bufferMutex db)) as [e1 m1] eqn:Hlock.
  eapply wp_blocking; [apply _|done| |done|exact Hlock|reflexivity|].
  { unfold cell_get. by rewrite Hdb. }
  unfold cell_get. rewrite Hdb. apply wp_bind.
  set (r1 := r<|secDataBuffer := _|>).
  assert (port_get i r1 = inr p) as Hp1 by done.
  rewrite <- (port_put_id i p r1) by done. fold (at_port c i p r1 s).
  eapply FlushPort_wp with (db := db<|bufferMutex := m1|>); [by exists p|done..| |done|].
  { simpl. rewrite zlookup_zinsert by done. by rewrite decide_True. }
  intros s2 (q & Hq2 & ->). simpl. apply wp_bind.
  set (p2 := p<|bufferSemID := _|><|bufferQ := q|>).
  set (r2 := (port_put i p2 r1)<|processData ::= _|>).
  assert (zlookup (secDataBuffer r2) i = Some db<|bufferMutex := m1|>) as Hdb2.
  { simpl. autorewrite with port. simpl. rewrite zlookup_zinsert by done. by rewrite decide_True. }
  destruct (SEC_OSAL_MutexUnlock m1) as [e3 m3] eqn:Hun.
  eapply wp_apply_at; [apply _|fvalid| |exact Hun|reflexivity|].
  { unfold cell_get. by rewrite Hdb2. }
  unfold cell_get. rewrite Hdb2. apply wp_bind.
  set (r3 := r2<|secDataBuffer := _|>).
  assert (port_get i r3 = inr p2) as Hp3 by (by apply (port_get_put i p2 r1); exists p).
  assert (keeps i r r3) as Hk.
  { split; [|split; [intros _; by exists p2|]].
    - intros j Hj. split; [by apply (port_get_put_ne i j p2 r1)|]. simpl. autorewrite with port.
      simpl. by rewrite !zlookup_zinsert_ne.
    - unfold r3, r2. simpl. by autorewrite with port. }
  eapply wp_store; [apply _|fvalid|cbv beta; by rewrite Hp3|reflexivity|]. cbv beta. rewrite Hp3.
  apply wp_ret. split; [done|]. eexists. split; [reflexivity|]. split.
  - etrans; [exact Hk|]. apply keeps_port_put. by exists p2.
  - eexists. split; [apply port_get_put; by exists p2|]. split; [done|]. split; [done|]. simpl.
    destruct (bufferSemID p); simpl; tauto.
Qed.
End process.

(** A change of the component that no port sees. *)
Lemma keeps_fields i r r' :
  pSECPort r' = pSECPort r -> processData r' = processData r -> secDataBuffer r' = secDataBuffer r ->
  currentState r' = currentState r -> pCallbacks r' = pCallbacks r ->
  (pauseEvent r <> Dangling -> pauseEvent r' <> Dangling) ->
  portParam r' = portParam r -> messageQ r' = messageQ r -> keeps i r r'.
Proof.
  intros Hp Hd Hb. intros. unfold keeps, has_port, port_get. rewrite Hp, Hd, Hb.
  split; [done|]. split; [done|]. by split_and!.
Qed.

Lemma flush_reset_wp I c i b r s Q :
  valid c s ->
  (forall r', keeps i r r' -> (forall j, drained j r -> drained j r') -> Q tt (set_sec c r' s)) ->
  wp I (flush_reset c i b (set_sec c r s)) Q.
Proof.
  intros Hv HQ. unfold flush_reset.
  case_match; [eapply wp_update; [apply _|done|done|reflexivity|]|
    case_match; [eapply wp_store; [apply _|done|done|reflexivity|]|apply wp_ret]];
    (apply HQ; [by apply keeps_fields|done]).
Qed.

Lemma SignalSet_wp I c r s Q :
  valid c s -> pauseEvent r <> Dangling ->
  (forall e x, x <> Dangling -> Q e (set_sec c r<|pauseEvent := x|> s)) ->
  wp I (SignalSet (pSECComponent c)↘pauseEvent (set_sec c r s)) Q.
Proof.
  intros Hv Hpe HQ. unfold SignalSet. wstep. wstep. destruct (pauseEvent r) as [| |ev] eqn:He; [|done|].
  - apply wp_ret. specialize (HQ OMX_ErrorBadParameter Null ltac:(done)).
    by replace (r<|pauseEvent := Null|>) with r in HQ
      by (destruct r; simpl in *; unfold set_field; simpl; by subst).
  - destruct (SEC_OSAL_SignalSet (Some ev)) as [x h]. wstep.
    eapply wp_store; [apply _|done|done|reflexivity|]. apply wp_ret. apply HQ. by destruct h.
Qed.

(** The state after one iteration of a flush process, which ends with the
    events [es]. *)
Definition flushed_port (c : nat) (i : Z) (s : St) (r : SEC_OMX_BASECOMPONENT) (bs : list nat)
    (es : list callback) (s' : St) : Prop :=
  exists r', s' = set_sec c r' s<|headers ::= fun hs => foldl emptied hs bs|>
               <|callbacks ::= fun k => k ++ (buffer_done c i <$> bs) ++ es|> /\
    keeps i r r' /\ drained i r'.

Lemma noevent_iteration_wp I c i s r bs cb :
  valid c s -> pCallbacks r = Some cb -> pauseEvent r <> Dangling -> flush_pre i (headers s) r bs ->
  wp I (noevent_iteration c i (set_sec c r s)) (fun e s' =>
    e = OMX_ErrorNone /\ flushed_port c i s r bs [] s').
Proof.
  intros Hv Hcb Hpe (p & Hpre). pose proof Hpre as (? & ? & ? & Hp & _).
  assert (has_port i r) as Hi by by exists p.
  apply wp_bind. eapply wp_store; [apply _|done|cbv beta; by rewrite Hp|reflexivity|]. cbv beta. rewrite Hp.
  set (r1 := port_put i p<|bIsPortFlushed := true|> r).
  assert (keeps i r r1) as Hk1 by by apply keeps_port_put.
  apply wp_bind, SignalSet_wp; [done|by apply Hk1|]. intros e ev Hev.
  set (r2 := r1<|pauseEvent := ev|>).
  assert (keeps i r r2) as Hk2 by (etrans; [exact Hk1|by apply keeps_fields]).
  apply wp_bind. eapply wp_mono; [|eapply (flush_locked_wp I c i s r2 bs cb); [done| |]].
  - intros e' s' [-> (r3 & -> & Hk3 & Hd3)]. apply wp_bind, flush_reset_wp; [fvalid|].
    intros r4 Hk4 Hd4. apply wp_ret. split; [done|]. exists r4. rewrite app_nil_r. split; [done|].
    split; [by do 2 (etrans; [done|])|auto].
  - destruct Hk2 as (_ & _ & _ & Hcb2 & _). by rewrite Hcb2.
  - destruct Hpre as (l & d & db & _ & ? & ? & ? & ? & ? & ? & ? & ? & ?).
    exists p<|bIsPortFlushed := true|>, l, d, db. split; [exact (port_get_put i _ r Hi)|].
    unfold r2, r1. simpl. autorewrite with port. by split_and!.
Qed.

Lemma event_iteration_wp I c i s r bs cb :
  valid c s -> pCallbacks r = Some cb -> pauseEvent r <> Dangling -> flush_pre i (headers s) r bs ->
  wp I (event_iteration c i (set_sec c r s)) (fun e s' =>
    e = OMX_ErrorNone /\
    flushed_port c i s r bs [EventCmdComplete c OMX_CommandFlush (u32 i)] s').
Proof.
  intros Hv Hcb Hpe Hpre.
  apply wp_bind, SignalSet_wp; [done|done|]. intros e ev Hev.
  apply wp_bind. eapply wp_mono; [|by eapply (flush_locked_wp I c i s _ bs cb)].
  intros e' s' [-> (r3 & -> & Hk3 & Hd3)]. simpl. apply wp_bind.
  eapply wp_call_back; [fvalid|by rewrite (proj1 (proj2 (proj2 (proj2 Hk3))))|].
  apply wp_bind, flush_reset_wp; [fvalid|]. intros r4 Hk4 Hd4. apply wp_ret. split; [done|].
  exists r4. split; [f_equal; unfold set_field; simpl; by rewrite app_assoc|].
  split; [|auto]. etrans; [by apply (keeps_fields i r r<|pauseEvent := ev|>)|by etrans].
Qed.

(** Both ports, one after the other. *)
Definition flushed_all (c : nat) (s : St) (r : SEC_OMX_BASECOMPONENT) (bs0 bs1 : list nat)
    (es : Z -> list callback) (s' : St) : Prop :=
  exists r', s' = set_sec c r' s<|headers ::= fun hs => foldl emptied hs (bs0 ++ bs1)|>
               <|callbacks ::= fun k => k ++ ((buffer_done c 0 <$> bs0) ++ es 0)
                                          ++ (buffer_done c 1 <$> bs1) ++ es 1|> /\
    drained 0 r' /\ drained 1 r' /\ currentState r' = currentState r /\
    pCallbacks r' = pCallbacks r /\ pauseEvent r' <> Dangling /\ messageQ r' = messageQ r.

Lemma flush_both_wp I c s r bs0 bs1 cb (iteration : Z -> M St OMX_ERRORTYPE) es :
  (forall i s r bs, valid c s -> pCallbacks r = Some cb -> pauseEvent r <> Dangling ->
     flush_pre i (headers s) r bs ->
     wp I (iteration i (set_sec c r s)) (fun e s' =>
       e = OMX_ErrorNone /\ flushed_port c i s r bs (es i) s')) ->
  valid c s -> pCallbacks r = Some cb -> pauseEvent r <> Dangling ->
  flush_pre 0 (headers s) r bs0 -> flush_pre 1 (headers s) r bs1 ->
  wp I (for_fold 0 2 OMX_ErrorNone (fun i _ => iteration i) (set_sec c r s)) (fun e s' =>
    e = OMX_ErrorNone /\ flushed_all c s r bs0 bs1 es s').
Proof.
  intros Hit Hv Hcb Hpe Hpre0 Hpre1. apply wp_for_fold_S.
  eapply wp_mono; [|by apply Hit]. intros e s' [-> (r1 & -> & Hk1 & Hd1)].
  destruct (Hk1) as (_ & _ & Hst1 & Hcb1 & Hpe1 & _ & Hq1).
  apply wp_for_fold_S. eapply wp_mono; [|apply (Hit 1 _ _ bs1); [fvalid|congruence|auto|]].
  2: { eapply (flush_pre_keeps 0); [done|done| |done]. intros b. apply headers_after. }
  intros e s' [-> (r2 & -> & Hk2 & Hd2)]. destruct (Hk2) as (_ & _ & Hst2 & Hcb2 & Hpe2 & _ & Hq2).
  apply wp_for_fold_0. split; [done|]. exists r2.
  split; [f_equal; unfold set_field; simpl; by rewrite foldl_app, <- !app_assoc|].
  split; [by eapply (drained_keeps 1)|]. split_and!; [done|congruence..|auto|congruence].
Qed.

(** The command [Flush(OMX_ALL)] as the message handler executes it, up to
    [wp]. *)
Lemma BufferFlushProcessNoEvent_wp I c s r bs0 bs1 cb :
  live c s -> pCallbacks r = Some cb -> pauseEvent r <> Dangling ->
  flush_pre 0 (headers s) r bs0 -> flush_pre 1 (headers s) r bs1 ->
  wp I (SEC_OMX_BufferFlushProcessNoEvent (Some c) ALL_PORT_INDEX (set_sec c r s)) (fun e s' =>
    e = OMX_ErrorNone /\ flushed_all c s r bs0 bs1 (fun _ => []) s').
Proof.
  intros Hl Hcb Hpe Hpre0 Hpre1. pose proof (live_valid _ _ Hl) as Hv. apply wp_entry; [done|].
  apply wp_bind. eapply wp_mono; [|eapply (flush_both_wp I c s r bs0 bs1 cb (noevent_iteration c));
    [intros; by eapply noevent_iteration_wp|done..]].
  intros e s' [-> Hf]. by apply wp_bind, wp_ret, wp_ret.
Qed.

(** the command [Flush(OMX_ALL)], on a component whose processing thread holds
    no buffer, gives back every queued input buffer in the order of submission
    and completes for port 0, then does the same for port 1; it does not block
    and leaves both ports empty, not flushing, with their semaphores at zero. *)
Theorem BufferFlushProcess_all c s r bs0 bs1 cb :
  live c s -> look (pSECComponent c) s = inr r -> pCallbacks r = Some cb ->
  pauseEvent r <> Dangling ->
  flush_pre 0 (headers s) r bs0 -> flush_pre 1 (headers s) r bs1 ->
  exists s' r', SEC_OMX_BufferFlushProcess (Some c) ALL_PORT_INDEX s = Done OMX_ErrorNone s' /\
    look (pSECComponent c) s' = inr r' /\ drained 0 r' /\ drained 1 r' /\
    currentState r' = currentState r /\
    headers s' = foldl emptied (headers s) (bs0 ++ bs1) /\
    callbacks s' = callbacks s
      ++ ((buffer_done c 0 <$> bs0) ++ [EventCmdComplete c OMX_CommandFlush 0])
      ++ (buffer_done c 1 <$> bs1) ++ [EventCmdComplete c OMX_CommandFlush 1].
Proof.
  intros Hl Hlook Hcb Hpe Hpre0 Hpre1. pose proof (live_valid _ _ Hl) as Hv.
  assert (wp (fun _ => False) (SEC_OMX_BufferFlushProcess (Some c) ALL_PORT_INDEX (set_sec c r s))
    (fun e s' => e = OMX_ErrorNone /\ flushed_all c s r bs0 bs1
       (fun i => [EventCmdComplete c OMX_CommandFlush (u32 i)]) s')) as Hwp.
  { apply wp_entry; [done|]. apply wp_bind.
    eapply wp_mono; [|eapply (flush_both_wp _ c s r bs0 bs1 cb (event_iteration c));
      [intros; by eapply event_iteration_wp|done..]].
    intros e s' [-> Hf]. by apply wp_bind, wp_ret, wp_ret. }
  rewrite (set_sec_id c s r Hlook) in Hwp.
  destruct (wp_result _ _ Hwp) as (e & s' & Hrun & -> & r' & -> & Hd0 & Hd1 & Hst & _).
  eexists _, r'. split; [exact Hrun|]. split; [apply look_sec; fvalid|].
  by autorewrite with focus.
Qed.

(** ** Submitting a buffer *)

(** The first slot below [count] that holds the header [b]. *)
Definition slot_of (hs : list (option nat)) (count : Z) (b : nat) : option Z :=
  (fun '(j, _) => Z.of_nat j) <$> list_find (fun x => x = Some b) (take (Z.to_nat count) hs).

Section submit.
Context (I : St -> Prop) (c : nat) (i : Z) (r : SEC_OMX_BASECOMPONENT) (p : SEC_OMX_BASEPORT) (s : St).
Context (hs : list (option nat)) (b : nat).
Hypothesis (Hv : valid c s) (Hi : has_port i r) (Hhs : bufferHeader p = Ptr hs).

Lemma find_buffer_at n : forall lo,
  0 <= lo -> (Z.to_nat lo + n <= length hs)%nat ->
  wp I (for_exit lo n (fun j =>
    let* h := load (cell (target (port c i)↘bufferHeader) j) in
    ret (if bool_decide (h = Some b) then Some j else None)) (at_port c i p r s)) (fun o s' =>
    s' = at_port c i p r s /\
    o = (fun '(j, _) => lo + Z.of_nat j) <$>
          list_find (fun x => x = Some b) (take n (drop (Z.to_nat lo) hs))).
Proof.
  induction n as [|n IH]; intros lo Hlo Hlen; [done|].
  destruct (lookup_lt_is_Some_2 hs (Z.to_nat lo)) as [x Hx]; [lia|].
  apply wp_for_exit_S, wp_bind. eapply pwp_load; [apply _|done|done| |].
  { simpl. rewrite Hhs. unfold zlookup. rewrite (proj2 (Z.leb_le 0 lo)) by lia. by rewrite Hx. }
  apply wp_ret. rewrite (drop_S hs x) by done. simpl.
  destruct (decide (x = Some b)) as [->|Hne].
  - rewrite bool_decide_eq_true_2 by done. split; [done|]. simpl. f_equal. lia.
  - rewrite bool_decide_eq_false_2 by done.
    eapply wp_mono; [|apply IH; lia]. intros o s' [-> ->]. split; [done|].
    replace (Z.to_nat (lo + 1)) with (S (Z.to_nat lo)) by lia.
    destruct (list_find _ (take n _)) as [[j y]|]; simpl; [|done]. f_equal. lia.
Qed.

Lemma find_buffer_spec count :
  0 <= count <= zlength hs ->
  wp I (find_buffer c i count b (at_port c i p r s)) (fun o s' =>
    s' = at_port c i p r s /\ o = slot_of hs count b).
Proof.
  unfold zlength. intros Hc. eapply wp_mono; [|apply (find_buffer_at (Z.to_nat count) 0); lia].
  intros o s' [-> ->]. done.
Qed.

(** Beyond the array, when the header is not found before. *)
Lemma find_buffer_overflow n : forall lo,
  0 <= lo -> (length hs < Z.to_nat lo + n)%nat -> (Z.to_nat lo <= length hs)%nat ->
  Some b ∉ drop (Z.to_nat lo) hs ->
  for_exit lo n (fun j =>
    let* h := load (cell (target (port c i)↘bufferHeader) j) in
    ret (if bool_decide (h = Some b) then Some j else None)) (at_port c i p r s) = Fault OutOfBounds.
Proof.
  induction n as [|n IH]; intros lo Hlo Hlen Hle Hnin; [lia|]. rewrite for_exit_S.
  unfold bind at 1 2, load at 1. rewrite pfocus_look by done. simpl. rewrite Hhs.
  unfold zlookup. rewrite (proj2 (Z.leb_le 0 lo)) by lia.
  destruct (hs !! Z.to_nat lo) as [x|] eqn:Hx; [|done]. simpl.
  rewrite (drop_S hs x) in Hnin by done. apply not_elem_of_cons in Hnin as [Hne Hnin].
  rewrite bool_decide_eq_false_2 by congruence. simpl.
  apply lookup_lt_Some in Hx. apply IH; try lia.
  by replace (Z.to_nat (lo + 1)) with (S (Z.to_nat lo)) by lia.
Qed.
End submit.

(** ** What a submission answers

    The specification of [SEC_OMX_EmptyThisBuffer] and [SEC_OMX_FillThisBuffer] on
    the fields of the structures.  [answers ok l e]: [e] is the answer that belongs to
    the first condition of [l] that holds, [ok] when none does. *)
Inductive answers {E} (ok : E) : list (Prop * E) -> E -> Prop :=
| answers_ok : answers ok [] ok
| answers_here (P : Prop) e l : P -> answers ok ((P, e) :: l) e
| answers_later (P : Prop) e l e' : ~ P -> answers ok l e' -> answers ok ((P, e) :: l) e'.

Lemma answers_unique {E} (ok : E) l e1 e2 : answers ok l e1 -> answers ok l e2 -> e1 = e2.
Proof.
  intros H1. revert e2.
  induction H1 as [|P e l HP|P e l e' HP _ IH]; intros e2 H2; inversion H2; subst; by auto.
Qed.

(** The two flags of a port in a tunnel: established, and the port owns the buffers
    that go through it. *)
Definition in_tunnel (p : SEC_OMX_BASEPORT) : Prop := Z.testbit (tunnelFlags p) 0 = true.
Definition owns_buffers (p : SEC_OMX_BASEPORT) : Prop :=
  in_tunnel p /\ Z.testbit (tunnelFlags p) 1 = true.

(** A port that takes no buffer: it is disabled; or it is being flushed or disabled,
    unless it owns the buffers of a tunnel; or the component is stopping and the
    buffers come from the other end of a tunnel. *)
Definition not_accepting (p : SEC_OMX_BASEPORT) (tr : SEC_OMX_TRANS_STATETYPE) : Prop :=
  bEnabled (portDefinition p) = false \/
  (bIsPortFlushed p = true \/ bIsPortDisabled p = true) /\ ~ owns_buffers p \/
  tr = SEC_OMX_TransStateExecutingToIdle /\ in_tunnel p /\ ~ owns_buffers p.

Lemma land_flag a k : 0 <= k -> negb (Z.land a (2 ^ k) =? 0) = Z.testbit a k.
Proof.
  intros Hk. destruct (Z.eqb_spec (Z.land a (2 ^ k)) 0) as [Hz|Hz]; simpl; symmetry.
  - assert (Z.testbit (Z.land a (2 ^ k)) k = Z.testbit 0 k) as Hb by by rewrite Hz.
    rewrite Z.land_spec, Z.pow2_bits_true, andb_true_r, Z.bits_0 in Hb by done. done.
  - apply not_false_iff_true. intros Hb. apply Hz, Z.bits_inj'. intros j Hj.
    rewrite Z.land_spec, Z.pow2_bits_eqb, Z.bits_0 by done.
    destruct (Z.eqb_spec k j) as [<-|]; [by rewrite Hb|by rewrite andb_false_r].
Qed.

Lemma port_refuses_spec p tr : port_refuses p tr = true <-> not_accepting p tr.
Proof.
  unfold port_refuses, not_accepting, owns_buffers, in_tunnel, CHECK_PORT_ENABLED,
    CHECK_PORT_BEING_FLUSHED, CHECK_PORT_BEING_DISABLED, CHECK_PORT_TUNNELED,
    CHECK_PORT_BUFFER_SUPPLIER, SEC_TUNNEL_ESTABLISHED, SEC_TUNNEL_IS_SUPPLIER.
  pose proof (land_flag (tunnelFlags p) 0 ltac:(done)) as Hest.
  pose proof (land_flag (tunnelFlags p) 1 ltac:(done)) as Hown.
  change (2 ^ 0) with 1 in Hest. change (2 ^ 1) with 2 in Hown. rewrite Hest, Hown. clear Hest Hown.
  case_bool_decide; destruct (bEnabled _), (bIsPortFlushed p), (bIsPortDisabled p),
    (Z.testbit _ 0), (Z.testbit _ 1); simpl; naive_solver.
Qed.

(** The conditions on which a buffer is refused, in the order in which they are
    tried.  [hComponent] and [pBuffer] are the arguments, [h] the header behind
    [pBuffer], [idx] the index of the port that [h] names and [i] the port it should name;
    [r] and [p] are the component and its port, [n] buffers are queued, and [ok] says
    whether there is memory for the message. *)
Definition refusals (hComponent pBuffer : option nat) (h : OMX_BUFFERHEADERTYPE) (idx i : Z)
    (r : SEC_OMX_BASECOMPONENT) (p : SEC_OMX_BASEPORT) (hs : list (option nat)) (n : nat) (ok : bool)
  : list (Prop * OMX_ERRORTYPE) :=
  [ (hComponent = None, OMX_ErrorBadParameter);
    (currentState r = OMX_StateInvalid, OMX_ErrorInvalidState);
    (pBuffer = None, OMX_ErrorBadParameter);
    (idx <> i, OMX_ErrorBadPortIndex);
    ((bh_header h).1 <> sizeof_BUFFERHEADERTYPE, OMX_ErrorBadParameter);
    (nVersionMajor (bh_header h).2 <> 1 \/ nVersionMinor (bh_header h).2 <> 0,
       OMX_ErrorVersionMismatch);
    (currentState r ∉ [OMX_StateIdle; OMX_StateExecuting; OMX_StatePause],
       OMX_ErrorIncorrectStateOperation);
    (not_accepting p (transientState r), OMX_ErrorIncorrectStateOperation);
    (pBuffer ∉ take (Z.to_nat (nBufferCountActual (portDefinition p))) hs, OMX_ErrorBadParameter);
    (ok = false, OMX_ErrorInsufficientResources);
    ((9 <= n)%nat, OMX_ErrorUndefined) ].

(** The queue and the semaphore of the port after the answer [e]: with the message
    that names the first slot of the header, and posted; or as they were. *)
Definition submitted (cmd : OMX_COMMANDTYPE) (pBuffer : option nat) (hs : list (option nat))
    (l : list queue_item) (v : Z) (e : OMX_ERRORTYPE) (l' : list queue_item) (v' : Z) : Prop :=
  if decide (e = OMX_ErrorNone) then
    v' = v + 1 /\ exists j b, pBuffer = Some b /\
      hs !! j = Some (Some b) /\ ~ (Some b ∈ take j hs) /\
      l' = l ++ [ItemMessage (mkMessage cmd (Z.of_nat j) (Some (PtrBuffer b)))]
  else v' = v /\ l' = l.

Definition exchanged (cmd : OMX_COMMANDTYPE) (c : nat) (i : Z) (r : SEC_OMX_BASECOMPONENT)
    (p : SEC_OMX_BASEPORT) (s : St) (hs : list (option nat)) (pBuffer : option nat)
    (l : list queue_item) (v : Z) (e : OMX_ERRORTYPE) (s' : St) : Prop :=
  exists q l' v' n, s' = at_port c i p<|bufferQ := q|><|bufferSemID := Some v'|> r s<|oscalls := n|> /\
    queue_repr q l' /\ submitted cmd pBuffer hs l v e l' v'.

Lemma slot_of_Some hs count b j :
  slot_of hs count b = Some j ->
  exists k : nat, j = Z.of_nat k /\ (k < Z.to_nat count)%nat /\ hs !! k = Some (Some b) /\ Some b ∉ take k hs.
Proof.
  unfold slot_of. intros Hf. apply fmap_Some in Hf as ([k x] & Hf & ->).
  apply list_find_Some in Hf as (Hk & -> & Hfirst). apply lookup_take_Some in Hk as [Hk Hlt].
  exists k. split_and!; [done..|]. intros Hin. apply list_elem_of_lookup in Hin as [m Hm].
  apply lookup_take_Some in Hm as [Hm Hmk]. apply (Hfirst m (Some b)); [|done|done].
  apply lookup_take_Some. split; [done|lia].
Qed.

Lemma slot_of_None hs count b : slot_of hs count b = None <-> Some b ∉ take (Z.to_nat count) hs.
Proof.
  unfold slot_of. rewrite fmap_None, list_find_None, Forall_forall. split; [naive_solver|].
  intros Hin x Hx ->. done.
Qed.

(** One condition of the list less. *)
Ltac refused := apply answers_here; first [done | tauto].
Ltac passed := apply answers_later; [first [done | tauto | congruence]|].

Section exchange.
Context (c : nat) (i : Z) (r : SEC_OMX_BASECOMPONENT) (p : SEC_OMX_BASEPORT) (s : St).
Context (hs : list (option nat)) (l : list queue_item) (v : Z) (cmd : OMX_COMMANDTYPE).
Hypothesis (Hl : live c s) (Hi : has_port i r) (Hhs : bufferHeader p = Ptr hs).
Hypothesis (Hcount : 0 <= nBufferCountActual (portDefinition p) <= zlength hs).
Hypothesis (Hq : queue_repr (bufferQ p) l) (Hsem : bufferSemID p = Some v) (Hmax : 0 <= v < SEM_VALUE_MAX).

(** A refusal leaves the port as it is. *)
Lemma exchanged_refused pBuffer e n :
  e <> OMX_ErrorNone -> exchanged cmd c i r p s hs pBuffer l v e (at_port c i p r s<|oscalls := n|>).
Proof.
  intros He. exists (bufferQ p), l, v, n. split; [|split; [done|]].
  - f_equal. destruct p; simpl in *. unfold set_field. simpl. by subst.
  - unfold submitted. by rewrite decide_False.
Qed.

Lemma exchanged_refused_now pBuffer e :
  e <> OMX_ErrorNone -> exchanged cmd c i r p s hs pBuffer l v e (at_port c i p r s).
Proof.
  intros He. pose proof (exchanged_refused pBuffer e (oscalls s) He) as Hx.
  by replace s<|oscalls := oscalls s|> with s in Hx by by destruct s.
Qed.

Lemma submit_buffer_wp I b h idx :
  wp I (submit_buffer c i cmd b (at_port c i p r s)) (fun e s' =>
    answers OMX_ErrorNone
      (drop 6 (refusals (Some c) (Some b) h idx i r p hs (length l) (os (oscalls s)))) e /\
    exchanged cmd c i r p s hs (Some b) l v e s').
Proof.
  pose proof (live_valid _ _ Hl) as Hv. unfold submit_buffer. simpl.
  apply wp_bind, pwp_load_sec; [done|]. autorewrite with port.
  destruct (decide (currentState r ∈ [OMX_StateIdle; OMX_StateExecuting; OMX_StatePause])) as [Hst|Hst].
  2: { replace (negb _ && negb _ && negb _)%bool with true.
       { split; [refused|by apply exchanged_refused_now]. }
       rewrite !not_elem_of_cons in Hst. repeat case_bool_decide; naive_solver. }
  replace (negb _ && negb _ && negb _)%bool with false.
  2: { rewrite !elem_of_cons in Hst. destruct_or! Hst; try (by rewrite Hst). by apply not_elem_of_nil in Hst. }
  apply wp_bind. eapply pwp_load; [apply _|done..|]. apply wp_bind, pwp_load_sec; [done|].
  autorewrite with port. pose proof (port_refuses_spec p (transientState r)) as Href.
  destruct (port_refuses p (transientState r)).
  { split; [passed; refused|by apply exchanged_refused_now]. }
  assert (~ not_accepting p (transientState r)) by (by intros ?%Href).
  apply wp_bind. eapply wp_mono; [|by apply find_buffer_spec]. intros o s' [-> ->].
  destruct (slot_of _ _ _) as [j|] eqn:Hslot; simpl.
  2: { apply slot_of_None in Hslot. split; [do 2 passed; refused|by apply exchanged_refused_now]. }
  assert (Some b ∈ take (Z.to_nat (nBufferCountActual (portDefinition p))) hs) as Hin.
  { apply dec_stable. intros Hn%slot_of_None. congruence. }
  apply slot_of_Some in Hslot as (k & -> & _ & Hk & Hfirst).
  apply wp_bind, pwp_os_call. destruct (os (oscalls s)); simpl.
  2: { split; [do 3 passed; refused|by apply exchanged_refused]. }
  apply wp_bind. eapply pwp_Queue; [apply _|fvalid|done|done|done| |].
  - intros Hlen q Hq'. simpl. eapply pwp_apply_at; [apply _|fvalid|done|done| |done|].
    { simpl. rewrite Hsem. simpl. by rewrite (proj2 (Z.eqb_neq v SEM_VALUE_MAX)) by lia. }
    split.
    { do 4 passed. apply answers_later; [unfold ring_size, MAX_QUEUE_ELEMENTS in Hlen; lia|constructor]. }
    eexists q, _, (v + 1), (S (oscalls s)). split; [done|]. split; [done|].
    split; [done|]. by exists k, b.
  - intros Hlen. apply wp_ret. split.
    { do 4 passed. apply answers_here. unfold ring_size, MAX_QUEUE_ELEMENTS in Hlen. simpl in Hlen. lia. }
    replace p<|bufferQ := _|> with p by by destruct p. by apply exchanged_refused.
Qed.

(** The function, for the port [i] whose index the header carries in the field [idx]. *)
Lemma exchange_wp I idx hComponent pBuffer h :
  hComponent = None \/ hComponent = Some c ->
  (forall b, pBuffer = Some b -> headers s !! b = Some h) ->
  wp I (entry hComponent (fun c => unless_invalid c (
    match pBuffer with
    | None => ret OMX_ErrorBadParameter
    | Some b =>
        let* h := load (header b) in
        if negb (idx h =? i) then ret OMX_ErrorBadPortIndex
        else
          let r := SEC_OMX_Check_SizeVersion (Some (bh_header h)) sizeof_BUFFERHEADERTYPE in
          if is_err r then ret r else submit_buffer c i cmd b
    end)) (at_port c i p r s)) (fun e s' =>
    answers OMX_ErrorNone (refusals hComponent pBuffer h (idx h) i r p hs (length l) (os (oscalls s))) e /\
    exchanged cmd c i r p s hs pBuffer l v e s').
Proof.
  pose proof (live_valid _ _ Hl) as Hv. intros [->| ->] Hh.
  { split; [refused|by apply exchanged_refused_now]. }
  unfold refusals. unfold at_port at 1. apply wp_entry; [done|].
  destruct (decide (currentState r = OMX_StateInvalid)) as [Hinv|Hinv].
  { unfold unless_invalid. apply wp_bind. eapply pwp_load_sec; [done|]. autorewrite with port.
    rewrite bool_decide_eq_true_2 by done. split; [passed; refused|by apply exchanged_refused_now]. }
  apply wp_unless_invalid; [done|by autorewrite with port|].
  destruct pBuffer as [b|]; [|split; [do 2 passed; refused|by apply exchanged_refused_now]].
  specialize (Hh b eq_refl). apply wp_bind. unfold load. cbn [look header].
  rewrite headers_set_sec, Hh. simpl.
  destruct (Z.eqb_spec (idx h) i) as [Hx|Hx]; simpl.
  2: { split; [do 3 passed; refused|by apply exchanged_refused_now]. }
  destruct (bh_header h) as [size ver] eqn:Hbh. unfold VERSIONMAJOR_NUMBER, VERSIONMINOR_NUMBER. simpl.
  destruct (Z.eqb_spec size sizeof_BUFFERHEADERTYPE) as [Hs|Hs]; simpl.
  2: { split; [do 4 passed; refused|by apply exchanged_refused_now]. }
  destruct (Z.eqb_spec (nVersionMajor ver) 1), (Z.eqb_spec (nVersionMinor ver) 0); simpl;
    try (split; [do 5 passed; refused|by apply exchanged_refused_now]).
  eapply wp_mono; [|by apply (submit_buffer_wp I b h (idx h))]. intros e' s' [He Hx']. split; [|done].
  do 6 passed. exact He.
Qed.
End exchange.

(** C3: [SEC_OMX_EmptyThisBuffer] always returns.  Its answer is that of the first
    condition of [refusals] that holds: no component, a component that is invalid, no
    buffer, a header of another port, of the wrong size or version, a state other than
    idle, executing and pause, a port that accepts no buffer, a header that is not one of
    the port's, no memory, nine buffers queued already; and [OMX_ErrorNone] when none
    does.  Then the message with the first slot of the header is appended to the port's
    queue and its semaphore posted.  Otherwise queue and semaphore are as they were, and
    in no case does anything else change.  The component is a live one, the buffer a header that
    exists, and the port has at most as many buffers as its table has entries. *)
Theorem EmptyThisBuffer_spec c s r p hs hComponent pBuffer h l v :
  live c s -> look (pSECComponent c) s = inr r -> port_get INPUT_PORT_INDEX r = inr p ->
  bufferHeader p = Ptr hs -> 0 <= nBufferCountActual (portDefinition p) <= zlength hs ->
  queue_repr (bufferQ p) l -> bufferSemID p = Some v -> 0 <= v < SEM_VALUE_MAX ->
  hComponent = None \/ hComponent = Some c ->
  (forall b, pBuffer = Some b -> headers s !! b = Some h) ->
  exists e s', SEC_OMX_EmptyThisBuffer hComponent pBuffer s = Done e s' /\
    answers OMX_ErrorNone
      (refusals hComponent pBuffer h (nInputPortIndex h) INPUT_PORT_INDEX r p hs (length l)
         (os (oscalls s))) e /\
    exchanged SEC_OMX_CommandEmptyBuffer c INPUT_PORT_INDEX r p s hs pBuffer l v e s'.
Proof.
  intros Hl Hlook Hp Hhs Hcount Hq Hsem Hmax Hc Hh. apply wp_result.
  rewrite <- (at_port_id c INPUT_PORT_INDEX p r s) at 1 by done.
  eapply (exchange_wp c INPUT_PORT_INDEX r p s hs l v); try done. by exists p.
Qed.

(** The same of [SEC_OMX_FillThisBuffer] and the output port. *)
Theorem FillThisBuffer_spec c s r p hs hComponent pBuffer h l v :
  live c s -> look (pSECComponent c) s = inr r -> port_get OUTPUT_PORT_INDEX r = inr p ->
  bufferHeader p = Ptr hs -> 0 <= nBufferCountActual (portDefinition p) <= zlength hs ->
  queue_repr (bufferQ p) l -> bufferSemID p = Some v -> 0 <= v < SEM_VALUE_MAX ->
  hComponent = None \/ hComponent = Some c ->
  (forall b, pBuffer = Some b -> headers s !! b = Some h) ->
  exists e s', SEC_OMX_FillThisBuffer hComponent pBuffer s = Done e s' /\
    answers OMX_ErrorNone
      (refusals hComponent pBuffer h (nOutputPortIndex h) OUTPUT_PORT_INDEX r p hs (length l)
         (os (oscalls s))) e /\
    exchanged SEC_OMX_CommandFillBuffer c OUTPUT_PORT_INDEX r p s hs pBuffer l v e s'.
Proof.
  intros Hl Hlook Hp Hhs Hcount Hq Hsem Hmax Hc Hh. apply wp_result.
  rewrite <- (at_port_id c OUTPUT_PORT_INDEX p r s) at 1 by done.
  eapply (exchange_wp c OUTPUT_PORT_INDEX r p s hs l v); try done. by exists p.
Qed.

(** The client's side of the exchange: a header of the right size and version
    that names the port it belongs to. *)
Definition good_header (h : OMX_BUFFERHEADERTYPE) : Prop :=
  SEC_OMX_Check_SizeVersion (Some (bh_header h)) sizeof_BUFFERHEADERTYPE = OMX_ErrorNone.

(** The number of buffers of a port is not bounded by the size of its
    header table: when [nBufferCountActual] exceeds [MAX_BUFFER_NUM] and the
    header submitted is not one of the port's, [SEC_OMX_EmptyThisBuffer] reads
    past the end of the table. *)
Theorem EmptyThisBuffer_overflow c s r p hs b h :
  live c s -> look (pSECComponent c) s = inr r -> port_get INPUT_PORT_INDEX r = inr p ->
  bufferHeader p = Ptr hs -> zlength hs = MAX_BUFFER_NUM ->
  currentState r = OMX_StateExecuting -> port_refuses p (transientState r) = false ->
  MAX_BUFFER_NUM < nBufferCountActual (portDefinition p) ->
  headers s !! b = Some h -> good_header h -> nInputPortIndex h = INPUT_PORT_INDEX ->
  Some b ∉ hs ->
  SEC_OMX_EmptyThisBuffer (Some c) (Some b) s = Fault OutOfBounds.
Proof.
  intros Hl Hlook Hp Hhs Hlen Hst Href Hcount Hh Hgood Hport Hnin.
  pose proof (live_valid _ _ Hl) as Hv. assert (has_port INPUT_PORT_INDEX r) as Hi by by exists p.
  rewrite <- (at_port_id c INPUT_PORT_INDEX p r s) by done.
  unfold SEC_OMX_EmptyThisBuffer, at_port. rewrite run_entry by done.
  rewrite run_unless_invalid; [|done|autorewrite with port; by rewrite Hst].
  unfold bind at 1, load at 1. cbn [look header]. rewrite headers_set_sec, Hh. cbn [obind].
  rewrite Hport. cbn [Z.eqb negb INPUT_PORT_INDEX]. rewrite Hgood. cbn [is_err].
  change (is_err OMX_ErrorNone) with false. cbn iota. unfold submit_buffer.
  unfold bind at 1. rewrite run_load by done. cbn [obind]. autorewrite with port. rewrite Hst.
  replace (negb _ && negb _ && negb _)%bool with false by done. cbn iota.
  unfold bind at 1. rewrite run_load by done.
  rewrite port_get_put by done. cbn [obind]. unfold bind at 1. rewrite run_load by done. cbn [obind].
  autorewrite with port. rewrite Href. unfold bind at 1, find_buffer.
  fold (at_port c INPUT_PORT_INDEX p r s).
  erewrite find_buffer_overflow; [done|done|done|done|done| | |done]; unfold zlength in *; simpl; lia.
Qed.

(** ** Construction *)

(** A port as the constructor leaves it. *)
Definition fresh_port (i : Z) (dir : OMX_DIRTYPE) (p : SEC_OMX_BASEPORT) : Prop :=
  bufferHeader p = Ptr (replicate (Z.to_nat MAX_BUFFER_NUM) None) /\
  bufferStateAllocate p = Ptr (replicate (Z.to_nat MAX_BUFFER_NUM) 0) /\
  queue_repr (bufferQ p) [] /\ bufferSemID p = None /\
  loadedResource p = Some 0 /\ unloadedResource p = Some 0 /\
  portState p = OMX_StateMax /\ tunnelFlags p = 0 /\
  portDefinition p = port_definition_init i dir /\ assignedBufferNum p = 0.

Lemma construct_port_spec I c i dir undo p r s Q :
  (forall n, os n = true) -> valid c s -> has_port i r -> nodes (bufferQ p) = ∅ ->
  (forall p' n, fresh_port i dir p' -> Q None (at_port c i p' r s<|oscalls := n|>)) ->
  wp I (construct_port c i dir undo (at_port c i p r s)) Q.
Proof.
  intros Hos Hv Hi Hn HQ. unfold construct_port. apply wp_bind.
  eapply pwp_QueueCreate; [apply _|done|done|done|done|done|]. intros q n Hq.
  apply wp_bind, pwp_os_call. rewrite Hos. cbn [negb].
  apply wp_bind. eapply pwp_store; [apply _|fvalid|done|done|done|].
  apply wp_bind, pwp_os_call. rewrite Hos. cbn [negb].
  apply wp_bind. eapply pwp_update; [apply _|fvalid|done|done|done|].
  apply wp_bind. eapply pwp_os_apply; [apply _|fvalid|done|done| |done|].
  { unfold SEC_OSAL_SemaphoreCreate. rewrite !Hos. done. }
  change (is_err OMX_ErrorNone) with false. cbn iota.
  apply wp_bind. eapply pwp_os_apply; [apply _|fvalid|done|done| |done|].
  { unfold SEC_OSAL_SemaphoreCreate. rewrite !Hos. done. }
  change (is_err OMX_ErrorNone) with false. cbn iota.
  apply wp_bind. eapply pwp_update; [apply _|fvalid|done|done|done|].
  apply wp_ret. eapply HQ. by split_and!.
Qed.

(** What the construction leaves of a component that had no ports. *)
Definition with_ports (r : SEC_OMX_BASECOMPONENT) (p0 p1 : SEC_OMX_BASEPORT) : SEC_OMX_BASECOMPONENT :=
  r<|portParam := mkPortParam (INIT_SET_SIZE_VERSION sizeof_PORT_PARAM_TYPE) ALL_PORT_NUM INPUT_PORT_INDEX|>
   <|pSECPort := Ptr [p0; p1]|><|checkTimeStamp := mkTimeStamp false false 0 0|>.

Lemma Port_Constructor_wp I c r s Q :
  (forall n, os n = true) -> live c s ->
  (forall p0 p1 n, fresh_port INPUT_PORT_INDEX OMX_DirInput p0 -> fresh_port OUTPUT_PORT_INDEX OMX_DirOutput p1 ->
     Q OMX_ErrorNone (set_sec c (with_ports r p0 p1) s<|oscalls := n|>)) ->
  wp I (SEC_OMX_Port_Constructor (Some c) (set_sec c r s)) Q.
Proof.
  intros Hos Hl HQ. pose proof (live_valid _ _ Hl) as Hv.
  unfold SEC_OMX_Port_Constructor. apply wp_entry; [done|]. do 2 wstep. apply wp_bind, wp_os_call.
  rewrite Hos. cbn [negb]. do 2 wstep. apply wp_bind.
  match goal with |- wp _ (construct_port _ _ _ _ (set_sec c ?r1 ?s1)) _ =>
    rewrite <- (port_put_id INPUT_PORT_INDEX port_zero r1) by done;
    change (set_sec c (port_put INPUT_PORT_INDEX port_zero r1) s1)
      with (at_port c INPUT_PORT_INDEX port_zero r1 s1) end.
  eapply construct_port_spec; [done|fvalid|by eexists|done|]. intros p0 n0 Hp0. apply wp_bind.
  unfold at_port. unfold port_put at 1. cbn [pSECPort set_field]. 
  match goal with |- wp _ (construct_port _ _ _ _ (set_sec c ?r1 ?s1)) _ =>
    rewrite <- (port_put_id OUTPUT_PORT_INDEX port_zero r1) by done;
    change (set_sec c (port_put OUTPUT_PORT_INDEX port_zero r1) s1)
      with (at_port c OUTPUT_PORT_INDEX port_zero r1 s1) end.
  eapply construct_port_spec; [done|fvalid|by eexists|done|]. intros p1 n1 Hp1.
  unfold at_port, port_put. cbn [pSECPort set_field].
  wsteps. exact (HQ p0 p1 n1 Hp0 Hp1).
Qed.

(** when the system grants every request, [SEC_OMX_Port_Constructor]
    returns [OMX_ErrorNone] and the component has its two ports: an input and
    an output port, disabled, with an empty header table of twenty entries, an
    empty buffer queue and no tunnel. *)
Theorem Port_Constructor_ports c s :
  (forall n, os n = true) -> live c s ->
  exists s' r' p0 p1, SEC_OMX_Port_Constructor (Some c) s = Done OMX_ErrorNone s' /\
    look (pSECComponent c) s' = inr r' /\ pSECPort r' = Ptr [p0; p1] /\
    nPorts (portParam r') = 2 /\
    fresh_port INPUT_PORT_INDEX OMX_DirInput p0 /\ fresh_port OUTPUT_PORT_INDEX OMX_DirOutput p1.
Proof.
  intros Hos Hl. pose proof (live_valid _ _ Hl) as Hv.
  assert (exists r, look (pSECComponent c) s = inr r) as [r Hr].
  { destruct Hv as (k & r & Hk & Hp). exists r. simpl. by rewrite Hk, Hp. }
  assert (wp (fun _ => False) (SEC_OMX_Port_Constructor (Some c) (set_sec c r s)) (fun e s' =>
    e = OMX_ErrorNone /\ exists p0 p1 n, s' = set_sec c (with_ports r p0 p1) s<|oscalls := n|> /\
      fresh_port INPUT_PORT_INDEX OMX_DirInput p0 /\ fresh_port OUTPUT_PORT_INDEX OMX_DirOutput p1)) as Hwp.
  { apply Port_Constructor_wp; [done..|]. intros p0 p1 n H0' H1'. split; [done|]. by exists p0, p1, n. }
  rewrite (set_sec_id c s r Hr) in Hwp.
  destruct (wp_result _ _ Hwp) as (e & s' & Hrun & -> & p0 & p1 & n & -> & Hp0 & Hp1).
  eexists _, (with_ports r p0 p1), p0, p1. split; [exact Hrun|]. split; [apply look_sec; fvalid|]. done.
Qed.
End port.

(** ** Instances *)
Definition sample_items : list queue_item :=
  [ItemMessage (mkMessage SEC_OMX_CommandEmptyBuffer 0 (Some (PtrBuffer 10)));
   ItemMessage (mkMessage SEC_OMX_CommandEmptyBuffer 1 (Some (PtrBuffer 11)))].
Definition sample_full_port : SEC_OMX_BASEPORT :=
  sample_port 0 OMX_DirInput [Some 10%nat; Some 11%nat; Some 12%nat] sample_items.
Definition sample_flush_comp : SEC_OMX_BASECOMPONENT :=
  sample_component OMX_StateExecuting [] sample_full_port (sample_port 1 OMX_DirOutput [] []).
Definition sample_headers : gmap nat OMX_BUFFERHEADERTYPE :=
  {[ 10%nat := sample_header 0 1; 11%nat := sample_header 0 1; 12%nat := sample_header 0 1;
     99%nat := sample_header 0 1 ]}.
Definition sample_flush_state : St := sample_state sample_flush_comp sample_headers.

Lemma FlushPort_returns_buffers_witness :
  exists s' r' p' d',
    SEC_OMX_FlushPort (H := sample_env) (H0 := sample_ops) 1 0 sample_flush_state = Done OMX_ErrorNone s' /\
    look (pSECComponent 1) s' = inr r' /\ port_get 0 r' = inr p' /\
    queue_repr (bufferQ p') [] /\ bufferSemID p' = Some 0 /\
    callbacks s' = [EmptyBufferDone 1 10; EmptyBufferDone 1 11] /\
    headers s' = foldl emptied sample_headers [10%nat; 11%nat] /\
    zlookup (processData r') 0 = Some d' /\ pd_dataLen d' = 0 /\ pd_remainDataLen d' = 0 /\
    (forall j, j <> 0 -> port_get j r' = port_get j sample_flush_comp).
Proof.
  apply (FlushPort_returns_buffers (H := sample_env) (H0 := sample_ops) 1 0 sample_flush_state
           sample_flush_comp sample_full_port sample_items [10%nat; 11%nat] data_zero
           databuffer_zero<|bufferMutex := Some false|> 0); try done.
  - apply sample_queue_with_repr. unfold ring_size, MAX_QUEUE_ELEMENTS. simpl. lia.
  - by repeat constructor.
  - by repeat constructor.
Defined.

(** Two input buffers and one output buffer queued. *)
Definition sample_both_comp (st : OMX_STATETYPE) : SEC_OMX_BASECOMPONENT :=
  sample_component st [] sample_full_port
    (sample_port 1 OMX_DirOutput [Some 20%nat]
       [ItemMessage (mkMessage SEC_OMX_CommandFillBuffer 0 (Some (PtrBuffer 20)))]).
Definition sample_both_state (st : OMX_STATETYPE) : St :=
  sample_state (sample_both_comp st) (<[20%nat := sample_header 0 1]> sample_headers).

Lemma sample_flush_pre_in st :
  flush_pre (H := sample_env) 0 (headers (sample_both_state st)) (sample_both_comp st) [10%nat; 11%nat].
Proof.
  eexists _, _, _, _. split; [done|]. split; [done|]. split; [done|].
  split; [apply sample_queue_with_repr; unfold ring_size, MAX_QUEUE_ELEMENTS; simpl; lia|].
  split; [by repeat constructor|]. split; [by repeat constructor|]. done.
Qed.

Lemma sample_flush_pre_out st :
  flush_pre (H := sample_env) 1 (headers (sample_both_state st)) (sample_both_comp st) [20%nat].
Proof.
  eexists _, _, _, _. split; [done|]. split; [done|]. split; [done|].
  split; [apply sample_queue_with_repr; unfold ring_size, MAX_QUEUE_ELEMENTS; simpl; lia|].
  split; [by repeat constructor|]. split; [by repeat constructor|]. done.
Qed.

Lemma BufferFlushProcess_all_witness :
  exists s' r',
    SEC_OMX_BufferFlushProcess (H := sample_env) (H0 := sample_ops) (Some 1%nat) ALL_PORT_INDEX
      (sample_both_state OMX_StateExecuting) = Done OMX_ErrorNone s' /\
    look (pSECComponent 1) s' = inr r' /\ drained 0 r' /\ drained 1 r' /\
    currentState r' = OMX_StateExecuting /\
    headers s' = foldl emptied (headers (sample_both_state OMX_StateExecuting))
                   [10%nat; 11%nat; 20%nat] /\
    callbacks s' = [EmptyBufferDone 1 10; EmptyBufferDone 1 11;
                    EventCmdComplete 1 OMX_CommandFlush 0; FillBufferDone 1 20;
                    EventCmdComplete 1 OMX_CommandFlush 1].
Proof.
  apply (BufferFlushProcess_all (H := sample_env) (H0 := sample_ops) 1 (sample_both_state _)
           (sample_both_comp _) [10%nat; 11%nat] [20%nat] 0 (sample_live _ _)); try done.
  - apply sample_flush_pre_in.
  - apply sample_flush_pre_out.
Defined.

Lemma EmptyThisBuffer_spec_witness :
  exists e s',
    SEC_OMX_EmptyThisBuffer (H := sample_env) (Some 1%nat) (Some 12%nat) sample_flush_state = Done e s' /\
    answers OMX_ErrorNone
      (refusals (H := sample_env) (Some 1%nat) (Some 12%nat) (sample_header 0 1) 0 0 sample_flush_comp
         sample_full_port ([Some 10%nat; Some 11%nat; Some 12%nat] ++ replicate 17 None) 2 true) e /\
    exchanged SEC_OMX_CommandEmptyBuffer 1 0 sample_flush_comp sample_full_port sample_flush_state
      ([Some 10%nat; Some 11%nat; Some 12%nat] ++ replicate 17 None) (Some 12%nat) sample_items 2 e s'.
Proof.
  apply (EmptyThisBuffer_spec (H := sample_env) 1 sample_flush_state sample_flush_comp
           sample_full_port ([Some 10%nat; Some 11%nat; Some 12%nat] ++ replicate 17 None) (Some 1%nat)
           (Some 12%nat) (sample_header 0 1) sample_items 2 (sample_live _ _)); try done.
  - apply sample_queue_with_repr. unfold ring_size, MAX_QUEUE_ELEMENTS. simpl. lia.
  - by right.
  - by intros b [= <-].
Defined.

(** A port configured for 21 buffers, as [SEC_OMX_SetParameter] allows. *)
Definition sample_large_port : SEC_OMX_BASEPORT :=
  sample_full_port<|portDefinition ::= fun d => d<|nBufferCountActual := 21|>|>.
Definition sample_large_comp : SEC_OMX_BASECOMPONENT :=
  sample_component OMX_StateExecuting [] sample_large_port (sample_port 1 OMX_DirOutput [] []).

Lemma EmptyThisBuffer_overflow_witness :
  SEC_OMX_EmptyThisBuffer (H := sample_env) (Some 1%nat) (Some 99%nat)
    (sample_state sample_large_comp sample_headers) = Fault OutOfBounds.
Proof.
  apply (EmptyThisBuffer_overflow (H := sample_env) 1 (sample_state sample_large_comp sample_headers)
           sample_large_comp sample_large_port
           ([Some 10%nat; Some 11%nat; Some 12%nat] ++ replicate 17 None) 99 (sample_header 0 1)
           (sample_live _ _)); try done.
  apply (bool_decide_unpack _). by vm_compute.
Defined.

Definition sample_constructed : St :=
  sample_state (sample_idle_ports OMX_StateLoaded)<|pSECPort := Null|> ∅.

Lemma Port_Constructor_ports_witness :
  exists s' r' p0 p1,
    SEC_OMX_Port_Constructor (H := sample_env) (Some 1%nat) sample_constructed = Done OMX_ErrorNone s' /\
    look (pSECComponent 1) s' = inr r' /\ pSECPort r' = Ptr [p0; p1] /\
    nPorts (portParam r') = 2 /\
    fresh_port (H := sample_env) INPUT_PORT_INDEX OMX_DirInput p0 /\
    fresh_port (H := sample_env) OUTPUT_PORT_INDEX OMX_DirOutput p1.
Proof.
  apply (Port_Constructor_ports (H := sample_env) 1 sample_constructed); [done|apply sample_live].
Defined.

(** The result of [SEC_OSAL_QueueCreate] is ignored by the constructor:
    when the allocation of the first queue node fails, the construction still
    reports success with a port whose queue has no nodes, and queueing the
    first buffer on it dereferences NULL. *)
Theorem Port_Constructor_ignores_queue_failure :
  match SEC_OMX_Port_Constructor (H := failing_env 103) (Some 1%nat) sample_constructed with
  | Done e s' =>
      e = OMX_ErrorNone /\
      Queue (port 1 INPUT_PORT_INDEX)↘bufferQ ItemPort s' = Fault NullDeref
  | _ => False
  end.
Proof. vm_compute. by split. Qed.
