(* ===== verification/BaseComponent.v ===== *)
(** * The base component: state machine, message handler and parameters

    Models the rest of [component/common/SEC_OMX_Basecomponent.c]: the state
    transitions of [SEC_OMX_ComponentStateSet], the loop of the message handler
    thread, the parameter and configuration entry points, and the construction
    and destruction of a component.  [ComponentStateSet] is split by destination
    state the way its outer [switch] is. *)
From S2P Require Import Prelude Machine OmxEnums OsalSync OsalQueue OmxTypes OmxState Focus.
From S2P Require Import PortFocus Samples Command ResourceManager BasePort.

Section component.
Context `{Env} `{ComponentOps}.

(** ** State transitions *)

(** Wakes the processing thread, waits for it to end and releases what it was
    using: the part shared by the transitions to [Invalid] and to [Loaded]. *)
Definition stop_buffer_process (c : nat) : M St unit :=
  store (pSECComponent c)↘bExitBufferProcessThread true ;;;
  for_fold 0 (Z.to_nat ALL_PORT_NUM) 0 (fun i countValue =>
    let* countValue := Get_SemaphoreCount (port c i)↘bufferSemID countValue in
    (if countValue =? 0 then SemaphorePost (port c i)↘bufferSemID ;;; ret tt else ret tt) ;;;
    ret countValue) ;;;
  SignalSet (pSECComponent c)↘pauseEvent ;;;
  SEC_OSAL_ThreadTerminate (pSECComponent c)↘hBufferProcess ;;;
  store (pSECComponent c)↘hBufferProcess None ;;;
  for_from 0 (Z.to_nat ALL_PORT_NUM) (fun i =>
    MutexTerminate_null (databuffer c i)↘bufferMutex) ;;;
  SignalTerminate (pSECComponent c)↘pauseEvent ;;;
  for_from 0 (Z.to_nat ALL_PORT_NUM) (fun i =>
    SemaphoreTerminate_null (port c i)↘bufferSemID).

Definition stateset_Invalid (c : nat) (cur : OMX_STATETYPE) : M St OMX_ERRORTYPE :=
  match cur with
  | OMX_StateWaitForResources | OMX_StateIdle | OMX_StateExecuting | OMX_StatePause
  | OMX_StateLoaded =>
      (if bool_decide (cur = OMX_StateWaitForResources)
       then SEC_OMX_Out_WaitForResource c ;;; ret tt else ret tt) ;;;
      store (pSECComponent c)↘currentState OMX_StateInvalid ;;;
      let* hb := load (pSECComponent c)↘hBufferProcess in
      (if hb is Some _ then stop_buffer_process c else ret tt) ;;;
      (if sec_mfc_componentTerminate is Some f then f c ;;; ret tt else ret tt) ;;;
      ret OMX_ErrorInvalidState
  | _ => ret OMX_ErrorInvalidState
  end.

(** The port loop of the transition to [Loaded]: wait until the client has
    freed the port's buffers. *)
Definition unload_port (c : nat) (i : Z) : M St (option OMX_ERRORTYPE) :=
  let* p := load (port c i) in
  if (CHECK_PORT_TUNNELED p && CHECK_PORT_BUFFER_SUPPLIER p)%bool then
    drain_queue (port c i)↘bufferQ ;;;
    let* r := sec_FreeTunnelBuffer c i in
    if is_err r then ret (Some r) else ret None
  else
    (if CHECK_PORT_ENABLED p then
       SemaphoreWait (port c i)↘unloadedResource ;;;
       store (port c i)↘portDefinition↘bPopulated false
     else ret tt) ;;;
    ret None.

Definition stateset_Loaded (c : nat) (cur : OMX_STATETYPE) : M St OMX_ERRORTYPE :=
  match cur with
  | OMX_StateIdle =>
      stop_buffer_process c ;;;
      match sec_mfc_componentTerminate with
      | None => fail NullDeref
      | Some f =>
          f c ;;;
          let* pp := load (pSECComponent c)↘portParam in
          let* r := for_exit 0 (Z.to_nat (nPorts pp)) (unload_port c) in
          match r with
          | Some r => ret r
          | None => store (pSECComponent c)↘currentState OMX_StateLoaded ;;; ret OMX_ErrorNone
          end
      end
  | OMX_StateWaitForResources =>
      let* r := SEC_OMX_Out_WaitForResource c in
      store (pSECComponent c)↘currentState OMX_StateLoaded ;;; ret r
  | _ => ret OMX_ErrorIncorrectStateTransition
  end.

(** The port loop of the transition to [Idle]: wait until the client has
    allocated the port's buffers. *)
Definition load_port (c : nat) (i : Z) : M St (option OMX_ERRORTYPE) :=
  let* p := load (port c i) in
  if (CHECK_PORT_TUNNELED p && CHECK_PORT_BUFFER_SUPPLIER p)%bool then
    if CHECK_PORT_ENABLED p then
      let* r := sec_AllocateTunnelBuffer c i in
      if is_err r then ret (Some r) else ret None
    else ret None
  else
    (if CHECK_PORT_ENABLED p then
       SemaphoreWait (port c i)↘loadedResource ;;;
       store (port c i)↘portDefinition↘bPopulated true
     else ret tt) ;;;
    ret None.

(** A loop of creations over the ports that stops at the first failure, which
    is reported as [OMX_ErrorInsufficientResources]. *)
Definition create_each (create : Z -> M St OMX_ERRORTYPE) : M St (option OMX_ERRORTYPE) :=
  for_exit 0 (Z.to_nat ALL_PORT_NUM) (fun i =>
    let* r := create i in
    ret (if is_err r then Some OMX_ErrorInsufficientResources else None)).

(** What the processing thread needs, then the thread itself. *)
Definition start_buffer_process (c : nat) : M St OMX_ERRORTYPE :=
  store (pSECComponent c)↘bExitBufferProcessThread false ;;;
  SignalCreate (pSECComponent c)↘pauseEvent ;;;
  let* r := create_each (fun i => os_apply SEC_OSAL_SemaphoreCreate (port c i)↘bufferSemID) in
  match r with
  | Some r => ret r
  | None =>
      let* r := create_each (fun i =>
        os_apply SEC_OSAL_MutexCreate (databuffer c i)↘bufferMutex) in
      match r with
      | Some r => ret r
      | None =>
          let* r := SEC_OSAL_ThreadCreate (pSECComponent c)↘hBufferProcess
                      SEC_OMX_BufferProcessThread c in
          if is_err r then
            SignalTerminate (pSECComponent c)↘pauseEvent ;;;
            for_from 0 (Z.to_nat ALL_PORT_NUM) (fun i =>
              MutexTerminate_null (databuffer c i)↘bufferMutex) ;;;
            for_from 0 (Z.to_nat ALL_PORT_NUM) (fun i =>
              SemaphoreTerminate_null (port c i)↘bufferSemID) ;;;
            ret OMX_ErrorInsufficientResources
          else
            store (pSECComponent c)↘currentState OMX_StateIdle ;;; ret OMX_ErrorNone
      end
  end.

Definition stateset_Idle (c : nat) (cur : OMX_STATETYPE) : M St OMX_ERRORTYPE :=
  match cur with
  | OMX_StateLoaded =>
      let* pp := load (pSECComponent c)↘portParam in
      let* r := for_exit 0 (Z.to_nat (nPorts pp)) (load_port c) in
      match r with
      | Some r => ret r
      | None =>
          let* r := sec_mfc_componentInit c in
          if is_err r then ret r else start_buffer_process c
      end
  | OMX_StateExecuting | OMX_StatePause =>
      SEC_OMX_BufferFlushProcessNoEvent (Some c) ALL_PORT_INDEX ;;;
      store (pSECComponent c)↘currentState OMX_StateIdle ;;;
      ret OMX_ErrorNone
  | OMX_StateWaitForResources =>
      store (pSECComponent c)↘currentState OMX_StateIdle ;;;
      ret OMX_ErrorNone
  | _ => ret OMX_ErrorIncorrectStateTransition
  end.

(** A port whose buffers the component itself supplies to a tunnel. *)
Definition supplies (p : SEC_OMX_BASEPORT) : bool :=
  CHECK_PORT_TUNNELED p && CHECK_PORT_BUFFER_SUPPLIER p && CHECK_PORT_ENABLED p.

Definition stateset_Executing (c : nat) (cur : OMX_STATETYPE) : M St OMX_ERRORTYPE :=
  match cur with
  | OMX_StateIdle =>
      let* pp := load (pSECComponent c)↘portParam in
      for_from 0 (Z.to_nat (nPorts pp)) (fun i =>
        let* p := load (port c i) in
        if supplies p then
          for_from 0 (Z.to_nat (tunnelBufferNum p)) (fun _ =>
            SemaphorePost (port c i)↘bufferSemID ;;; ret tt)
        else ret tt) ;;;
      store (pSECComponent c)↘transientState SEC_OMX_TransStateMax ;;;
      store (pSECComponent c)↘currentState OMX_StateExecuting ;;;
      SignalSet (pSECComponent c)↘pauseEvent ;;;
      ret OMX_ErrorNone
  | OMX_StatePause =>
      let* pp := load (pSECComponent c)↘portParam in
      for_from 0 (Z.to_nat (nPorts pp)) (fun i =>
        let* p := load (port c i) in
        if supplies p then
          let* semaValue := Get_SemaphoreCount (port c i)↘bufferSemID 0 in
          let* n := GetElemNum (port c i)↘bufferQ in
          if semaValue <? n then
            for_from 0 (Z.to_nat (n - semaValue)) (fun _ =>
              SemaphorePost (port c i)↘bufferSemID ;;; ret tt)
          else ret tt
        else ret tt) ;;;
      store (pSECComponent c)↘currentState OMX_StateExecuting ;;;
      SignalSet (pSECComponent c)↘pauseEvent ;;;
      ret OMX_ErrorNone
  | _ => ret OMX_ErrorIncorrectStateTransition
  end.

Definition stateset_Pause (c : nat) (cur : OMX_STATETYPE) : M St OMX_ERRORTYPE :=
  match cur with
  | OMX_StateIdle | OMX_StateExecuting =>
      store (pSECComponent c)↘currentState OMX_StatePause ;;; ret OMX_ErrorNone
  | _ => ret OMX_ErrorIncorrectStateTransition
  end.

Definition stateset_WaitForResources (c : nat) (cur : OMX_STATETYPE) : M St OMX_ERRORTYPE :=
  match cur with
  | OMX_StateLoaded =>
      let* r := SEC_OMX_In_WaitForResource c in
      store (pSECComponent c)↘currentState OMX_StateWaitForResources ;;; ret r
  | _ => ret OMX_ErrorIncorrectStateTransition
  end.

(** The transitions that give the hardware resource back first. *)
Definition releases_resource (cur dest : OMX_STATETYPE) : bool :=
  match cur, dest with
  | OMX_StateIdle, OMX_StateLoaded
  | OMX_StateIdle, OMX_StateInvalid
  | OMX_StateExecuting, OMX_StateInvalid
  | OMX_StatePause, OMX_StateInvalid => true
  | _, _ => false
  end.

(** Everything before [EXIT]. *)
Definition stateset_body (c : nat) (cur dest : OMX_STATETYPE) : M St OMX_ERRORTYPE :=
  if bool_decide (cur = dest) then ret OMX_ErrorSameState
  else if bool_decide (cur = OMX_StateInvalid) then ret OMX_ErrorInvalidState
  else
    let* r := (if (bool_decide (cur = OMX_StateLoaded) && bool_decide (dest = OMX_StateIdle))%bool
               then SEC_OMX_Get_Resource c else ret OMX_ErrorNone) in
    if is_err r then ret r
    else
      (if releases_resource cur dest then SEC_OMX_Release_Resource c ;;; ret tt else ret tt) ;;;
      match dest with
      | OMX_StateInvalid => stateset_Invalid c cur
      | OMX_StateLoaded => stateset_Loaded c cur
      | OMX_StateIdle => stateset_Idle c cur
      | OMX_StateExecuting => stateset_Executing c cur
      | OMX_StatePause => stateset_Pause c cur
      | OMX_StateWaitForResources => stateset_WaitForResources c cur
      | _ => ret OMX_ErrorIncorrectStateTransition
      end.

Definition SEC_OMX_ComponentStateSet (c : nat) (messageParam : Z) : M St OMX_ERRORTYPE :=
  let dest := OMX_STATETYPE_of_U32 messageParam in
  let* cur := load (pSECComponent c)↘currentState in
  let* r := stateset_body c cur dest in
  (if is_err r then call_back_if c (EventError c r)
   else call_back_if c (EventCmdComplete c OMX_CommandStateSet (U32_of_OMX_STATETYPE dest))) ;;;
  ret r.

(** ** The message handler thread *)

(** The [switch] on the message type. *)
Definition handle_message (c : nat) (m : SEC_OMX_MESSAGE) : M St unit :=
  match messageType m with
  | OMX_CommandStateSet => SEC_OMX_ComponentStateSet c (messageParam m) ;;; ret tt
  | OMX_CommandFlush => SEC_OMX_BufferFlushProcess (Some c) (s32 (messageParam m)) ;;; ret tt
  | OMX_CommandPortDisable => SEC_OMX_PortDisableProcess (Some c) (s32 (messageParam m)) ;;; ret tt
  | OMX_CommandPortEnable => SEC_OMX_PortEnableProcess (Some c) (s32 (messageParam m)) ;;; ret tt
  | OMX_CommandMarkBuffer =>
      let portIndex := messageParam m in
      match pCmdData m with
      | None => fail NullDeref
      | Some (PtrBuffer _) => fail BadCast
      | Some (PtrMark mk) => store (port c portIndex)↘markType mk
      end
  | SEC_OMX_CommandComponentDeInit =>
      store (pSECComponent c)↘bExitMessageHandlerThread true
  | _ => ret tt
  end.

(** One iteration of the loop of [SEC_OMX_MessageHandlerThread], entered while
    [bExitMessageHandlerThread] is false. *)
Definition message_handler_iteration (c : nat) : M St unit :=
  SemaphoreWait (pSECComponent c)↘msgSemaphoreHandle ;;;
  let* message := Dequeue (pSECComponent c)↘messageQ in
  match message with
  | None => ret tt
  | Some m => handle_message c m
  end.

(** The loop, with [n] bounding the number of iterations it is observed for
    ([false]: still running), and the whole thread [id] around it. *)
Fixpoint message_loop (n : nat) (c : nat) : M St bool :=
  match n with
  | O => ret false
  | S n =>
      let* exit := load (pSECComponent c)↘bExitMessageHandlerThread in
      if (exit : bool) then ret true
      else message_handler_iteration c ;;; message_loop n c
  end.

(** A thread that returns from its function has ended, as with
    [SEC_OSAL_ThreadExit]. *)
Definition MessageHandlerThread (n : nat) (id : nat) (threadData : option nat) : M St bool :=
  match threadData with
  | None => SEC_OSAL_ThreadExit id ;;; ret true
  | Some c =>
      let* k := load (component c) in
      if is_err (SEC_OMX_Check_SizeVersion (Some (comp_header k)) sizeof_COMPONENTTYPE)
      then SEC_OSAL_ThreadExit id ;;; ret true
      else
        let* ended := message_loop n c in
        if (ended : bool) then SEC_OSAL_ThreadExit id ;;; ret true else ret false
  end.

(** ** Queries *)
Definition SEC_OMX_GetState (hComponent : option nat) (pState : bool)
  : M St (OMX_ERRORTYPE * option OMX_STATETYPE) :=
  if negb pState then ret (OMX_ErrorBadParameter, None)
  else
    match hComponent with
    | None => ret (OMX_ErrorBadParameter, None)
    | Some c =>
        let* r := entry (Some c) (fun _ => ret OMX_ErrorNone) in
        if is_err r then ret (r, None)
        else let* st := load (pSECComponent c)↘currentState in ret (OMX_ErrorNone, Some st)
    end.

(** The name and the two versions; the UUID (handle, pid, uid) is not part of
    the model.  [params]: none of the out pointers is NULL. *)
Definition SEC_OMX_GetComponentVersion (hComponent : option nat) (params : bool)
  : M St (OMX_ERRORTYPE * option (string * OMX_VERSIONTYPE * OMX_VERSIONTYPE)) :=
  if negb params then ret (OMX_ErrorBadParameter, None)
  else
    match hComponent with
    | None => ret (OMX_ErrorBadParameter, None)
    | Some c =>
        let* r := entry (Some c) (fun _ => unless_invalid c (ret OMX_ErrorNone)) in
        if is_err r then ret (r, None)
        else
          let* k := load (pSECComponent c) in
          ret (OMX_ErrorNone, Some (componentName k, componentVersion k, specVersion k))
    end.

(** ** Parameters

    A parameter structure of the client, at the type its index announces.
    The structures after [ParamBufferSupplier] belong to indices that only the codec
    components know; [ParamOther] is one for an index nobody knows. *)
Inductive omx_param :=
| ParamCapability (flags : list bool)
| ParamPort (p : OMX_PORT_PARAM_TYPE)
| ParamPortDefinition (d : OMX_PARAM_PORTDEFINITIONTYPE)
| ParamPriority (p : OMX_PRIORITYMGMTTYPE)
| ParamBufferSupplier (b : OMX_PARAM_BUFFERSUPPLIERTYPE)
| ParamVideoPortFormat (f : OMX_VIDEO_PARAM_PORTFORMATTYPE)
| ParamAndroidFlag (p : AndroidFlagParams)
| ParamAndroidUsage (p : GetAndroidNativeBufferUsageParams)
| ParamAndroidBuffer (p : UseAndroidNativeBufferParams)
| ParamBool (b : bool)
| ParamBitrate (b : OMX_VIDEO_PARAM_BITRATETYPE)
| ParamQuantization (nPort : Z) (q : quantization_t)
| ParamIntraRefresh (i : OMX_VIDEO_PARAM_INTRAREFRESHTYPE)
| ConfigBitrate (nPort nEncodeBitrate : Z)
| ConfigFramerate (nPort xEncodeFramerate : Z)
| ConfigIntraVOP (nPort : Z) (intraRefreshVOP : bool)
| ParamOther.

(** Who supplies the buffers of a port, as [GetParameter] reports it. *)
Definition reported_supplier (p : SEC_OMX_BASEPORT) : OMX_BUFFERSUPPLIERTYPE :=
  let '(own, other) := match eDir (portDefinition p) with
                       | OMX_DirInput => (OMX_BufferSupplyInput, OMX_BufferSupplyOutput)
                       | _ => (OMX_BufferSupplyOutput, OMX_BufferSupplyInput)
                       end in
  if CHECK_PORT_BUFFER_SUPPLIER p then own
  else if CHECK_PORT_TUNNELED p then other
  else OMX_BufferSupplyUnspecified.

(** The switch of [SEC_OMX_GetParameter]: the error and the structure the
    client finds afterwards.  A structure of the wrong type is a [BadCast]. *)
Definition get_parameter (c : nat) (nParamIndex : OMX_INDEXTYPE) (param : omx_param)
  : M St (OMX_ERRORTYPE * omx_param) :=
  let* r := load (pSECComponent c) in
  match nParamIndex with
  | OMX_COMPONENT_CAPABILITY_TYPE_INDEX =>
      ret (OMX_ErrorNone, ParamCapability (capabilityFlags r))
  | OMX_IndexParamAudioInit | OMX_IndexParamVideoInit | OMX_IndexParamImageInit
  | OMX_IndexParamOtherInit =>
      match param with
      | ParamPort p =>
          let e := SEC_OMX_Check_SizeVersion (Some (pp_header p)) sizeof_PORT_PARAM_TYPE in
          if is_err e then ret (e, param)
          else ret (OMX_ErrorNone, ParamPort p<|nPorts := 0|><|nStartPortNumber := 0|>)
      | _ => fail BadCast
      end
  | OMX_IndexParamPortDefinition =>
      match param with
      | ParamPortDefinition d =>
          if nPorts (portParam r) <=? nPortIndex d then ret (OMX_ErrorBadPortIndex, param)
          else
            let e := SEC_OMX_Check_SizeVersion (Some (pd_header d)) sizeof_PORTDEFINITIONTYPE in
            if is_err e then ret (e, param)
            else
              let* p := load (port c (nPortIndex d)) in
              ret (OMX_ErrorNone, ParamPortDefinition (portDefinition p))
      | _ => fail BadCast
      end
  | OMX_IndexParamPriorityMgmt =>
      match param with
      | ParamPriority p =>
          let e := SEC_OMX_Check_SizeVersion (Some (pm_header p)) sizeof_PRIORITYMGMTTYPE in
          if is_err e then ret (e, param)
          else ret (OMX_ErrorNone, ParamPriority
                 p<|pm_nGroupID := nGroupID (compPriority r)|>
                  <|pm_nGroupPriority := nGroupPriority (compPriority r)|>)
      | _ => fail BadCast
      end
  | OMX_IndexParamCompBufferSupplier =>
      match param with
      | ParamBufferSupplier b =>
          if (bool_decide (currentState r = OMX_StateLoaded)
              || bool_decide (currentState r = OMX_StateWaitForResources))%bool then
            if nPorts (portParam r) <=? bs_nPortIndex b then ret (OMX_ErrorBadPortIndex, param)
            else
              let e := SEC_OMX_Check_SizeVersion (Some (bs_header b)) sizeof_BUFFERSUPPLIERTYPE in
              if is_err e then ret (e, param)
              else
                let* p := load (port c (bs_nPortIndex b)) in
                ret (OMX_ErrorNone, ParamBufferSupplier b<|eBufferSupplier := reported_supplier p|>)
          else ret (OMX_ErrorIncorrectStateOperation, param)
      | _ => fail BadCast
      end
  | _ => ret (OMX_ErrorUnsupportedIndex, param)
  end.

(** The opening of the parameter entry points, for a result with a structure. *)
Definition param_entry {A} (hComponent : option nat) (param : option A)
    (body : nat -> A -> M St (OMX_ERRORTYPE * A)) : M St (OMX_ERRORTYPE * option A) :=
  let* r := entry hComponent (fun c =>
    match param with
    | None => ret OMX_ErrorBadParameter
    | Some _ => unless_invalid c (ret OMX_ErrorNone)
    end) in
  if is_err r then ret (r, param)
  else match hComponent, param with
       | Some c, Some a => let* '(r, a') := body c a in ret (r, Some a')
       | _, _ => ret (r, param)
       end.

Definition SEC_OMX_GetParameter (hComponent : option nat) (nParamIndex : OMX_INDEXTYPE)
    (param : option omx_param) : M St (OMX_ERRORTYPE * option omx_param) :=
  param_entry hComponent param (fun c a => get_parameter c nParamIndex a).

(** The state check most parameters share: neither [Loaded] nor
    [WaitForResources]. *)
Definition is_running (st : OMX_STATETYPE) : bool :=
  negb (bool_decide (st = OMX_StateLoaded)) && negb (bool_decide (st = OMX_StateWaitForResources)).

(** [tunnelFlags |= SUPPLIER], [tunnelFlags &= ~SUPPLIER] *)
Definition set_supplier (p : SEC_OMX_BASEPORT) : SEC_OMX_BASEPORT :=
  p<|tunnelFlags ::= fun f => Z.lor f SEC_TUNNEL_IS_SUPPLIER|>.
Definition clear_supplier (p : SEC_OMX_BASEPORT) : SEC_OMX_BASEPORT :=
  p<|tunnelFlags ::= fun f => Z.land f (u32 (Z.lnot SEC_TUNNEL_IS_SUPPLIER))|>.

(** The switch of [SEC_OMX_SetParameter].  [n] bounds the recursion through
    [OMX_SetParameter(tunneledComponent, ...)], which goes to the other end of
    a tunnel. *)
Fixpoint set_parameter (n : nat) (c : nat) (nIndex : OMX_INDEXTYPE) (param : omx_param)
  : M St OMX_ERRORTYPE :=
  let* r := load (pSECComponent c) in
  match nIndex with
  | OMX_IndexParamAudioInit | OMX_IndexParamVideoInit | OMX_IndexParamImageInit
  | OMX_IndexParamOtherInit =>
      match param with
      | ParamPort p =>
          let e := SEC_OMX_Check_SizeVersion (Some (pp_header p)) sizeof_PORT_PARAM_TYPE in
          if is_err e then ret e
          else if is_running (currentState r) then ret OMX_ErrorIncorrectStateOperation
          else ret OMX_ErrorNone (* [ret = OMX_ErrorUndefined; break;], overwritten after the switch *)
      | _ => fail BadCast
      end
  | OMX_IndexParamPortDefinition =>
      match param with
      | ParamPortDefinition d =>
          if nPorts (portParam r) <=? nPortIndex d then ret OMX_ErrorBadPortIndex
          else
            let e := SEC_OMX_Check_SizeVersion (Some (pd_header d)) sizeof_PORTDEFINITIONTYPE in
            if is_err e then ret e
            else
              let* p := load (port c (nPortIndex d)) in
              if (is_running (currentState r) && bEnabled (portDefinition p))%bool
              then ret OMX_ErrorIncorrectStateOperation
              else if nBufferCountActual d <? nBufferCountMin (portDefinition p)
              then ret OMX_ErrorBadParameter
              else store (port c (nPortIndex d))↘portDefinition d ;;; ret OMX_ErrorNone
      | _ => fail BadCast
      end
  | OMX_IndexParamPriorityMgmt =>
      match param with
      | ParamPriority p =>
          if is_running (currentState r) then ret OMX_ErrorIncorrectStateOperation
          else
            let e := SEC_OMX_Check_SizeVersion (Some (pm_header p)) sizeof_PRIORITYMGMTTYPE in
            if is_err e then ret e
            else
              store (pSECComponent c)↘compPriority
                (mkPriority (pm_nGroupPriority p) (pm_nGroupID p)) ;;;
              ret OMX_ErrorNone
      | _ => fail BadCast
      end
  | OMX_IndexParamCompBufferSupplier =>
      match param with
      | ParamBufferSupplier b =>
          let i := bs_nPortIndex b in
          if nPorts (portParam r) <=? i then ret OMX_ErrorBadPortIndex
          else
            let e := SEC_OMX_Check_SizeVersion (Some (bs_header b)) sizeof_BUFFERSUPPLIERTYPE in
            if is_err e then ret e
            else
              let* p := load (port c i) in
              let forward :=
                match tunneledComponent p, n with
                | None, _ => fail NullDeref
                | Some _, O => fail Diverges
                | Some c', S n =>
                    entry (Some c') (fun c' => unless_invalid c'
                      (set_parameter n c' OMX_IndexParamCompBufferSupplier
                        (ParamBufferSupplier b<|bs_nPortIndex := tunneledPort p|>)))
                end in
              if (is_running (currentState r) && bEnabled (portDefinition p))%bool
              then ret OMX_ErrorIncorrectStateOperation
              else
                match eBufferSupplier b with
                | OMX_BufferSupplyUnspecified => ret OMX_ErrorNone
                | sup =>
                    if negb (CHECK_PORT_TUNNELED p) then ret OMX_ErrorNone
                    else
                      match eDir (portDefinition p), sup with
                      | OMX_DirInput, OMX_BufferSupplyInput =>
                          update (port c i) set_supplier ;;; forward
                      | OMX_DirInput, OMX_BufferSupplyOutput =>
                          if CHECK_PORT_BUFFER_SUPPLIER p
                          then update (port c i) clear_supplier ;;; forward
                          else ret OMX_ErrorNone
                      | OMX_DirOutput, OMX_BufferSupplyInput =>
                          (if CHECK_PORT_BUFFER_SUPPLIER p
                           then update (port c i) clear_supplier else ret tt) ;;;
                          ret OMX_ErrorNone
                      | OMX_DirOutput, OMX_BufferSupplyOutput =>
                          update (port c i) set_supplier ;;; ret OMX_ErrorNone
                      | _, _ => ret OMX_ErrorNone
                      end
                end
      | _ => fail BadCast
      end
  | _ => ret OMX_ErrorUnsupportedIndex
  end.

(** At most two components take part in the negotiation of a tunnel. *)
Definition SEC_OMX_SetParameter (hComponent : option nat) (nIndex : OMX_INDEXTYPE)
    (param : option omx_param) : M St OMX_ERRORTYPE :=
  let* '(r, _) := param_entry hComponent param (fun c a =>
    let* r := set_parameter 2 c nIndex a in ret (r, a)) in
  ret r.

(** Every configuration index is refused by the base component. *)
Definition SEC_OMX_GetConfig (hComponent : option nat) (nIndex : OMX_INDEXTYPE)
    (config : option omx_param) : M St OMX_ERRORTYPE :=
  entry hComponent (fun c =>
    match config with
    | None => ret OMX_ErrorBadParameter
    | Some _ => unless_invalid c (ret OMX_ErrorUnsupportedIndex)
    end).

Definition SEC_OMX_SetConfig (hComponent : option nat) (nIndex : OMX_INDEXTYPE)
    (config : option omx_param) : M St OMX_ERRORTYPE :=
  entry hComponent (fun c =>
    match config with
    | None => ret OMX_ErrorBadParameter
    | Some _ => unless_invalid c (ret OMX_ErrorUnsupportedIndex)
    end).

Definition SEC_OMX_GetExtensionIndex (hComponent : option nat) (cParameterName : option string)
    (pIndexType : bool) : M St OMX_ERRORTYPE :=
  entry hComponent (fun c =>
    match cParameterName with
    | None => ret OMX_ErrorBadParameter
    | Some _ =>
        if negb pIndexType then ret OMX_ErrorBadParameter
        else unless_invalid c (ret OMX_ErrorBadParameter)
    end).

Definition SEC_OMX_SetCallbacks (hComponent : option nat) (pCallbacks' : option nat) (pAppData : Z)
  : M St OMX_ERRORTYPE :=
  entry hComponent (fun c =>
    match pCallbacks' with
    | None => ret OMX_ErrorBadParameter
    | Some cb =>
        unless_invalid c (
          let* cur := load (pSECComponent c)↘currentState in
          if negb (bool_decide (cur = OMX_StateLoaded)) then ret OMX_ErrorIncorrectStateOperation
          else
            store (pSECComponent c)↘pCallbacks (Some cb) ;;;
            store (pSECComponent c)↘callbackData pAppData ;;;
            ret OMX_ErrorNone)
    end).

(** ** Construction and destruction *)
Definition SEC_OMX_BaseComponent_Constructor (hComponent : option nat) : M St OMX_ERRORTYPE :=
  match hComponent with
  | None => ret OMX_ErrorBadParameter
  | Some c =>
      let* ok := os_call in
      if negb ok then ret OMX_ErrorInsufficientResources
      else
        store (component c)↘pComponentPrivate (Ptr component_zero) ;;;
        let* r := os_apply SEC_OSAL_SemaphoreCreate (pSECComponent c)↘msgSemaphoreHandle in
        if is_err r then ret OMX_ErrorInsufficientResources
        else
          let* r := os_apply SEC_OSAL_MutexCreate (pSECComponent c)↘compMutex in
          if is_err r then ret OMX_ErrorInsufficientResources
          else
            store (pSECComponent c)↘bExitMessageHandlerThread false ;;;
            QueueCreate (pSECComponent c)↘messageQ ;;;
            let* r := SEC_OSAL_ThreadCreate (pSECComponent c)↘hMessageHandler
                        SEC_OMX_MessageHandlerThread c in
            ret (if is_err r then OMX_ErrorInsufficientResources else OMX_ErrorNone)
  end.

Definition SEC_OMX_BaseComponent_Destructor (hComponent : option nat) : M St OMX_ERRORTYPE :=
  entry hComponent (fun c =>
    SEC_OMX_CommandQueue c SEC_OMX_CommandComponentDeInit 0 None ;;;
    let* semaValue := Get_SemaphoreCount (pSECComponent c)↘msgSemaphoreHandle 0 in
    (if semaValue =? 0
     then SemaphorePost (pSECComponent c)↘msgSemaphoreHandle ;;; ret tt else ret tt) ;;;
    SemaphorePost (pSECComponent c)↘msgSemaphoreHandle ;;;
    SEC_OSAL_ThreadTerminate (pSECComponent c)↘hMessageHandler ;;;
    store (pSECComponent c)↘hMessageHandler None ;;;
    MutexTerminate_null (pSECComponent c)↘compMutex ;;;
    SemaphoreTerminate_null (pSECComponent c)↘msgSemaphoreHandle ;;;
    QueueTerminate (pSECComponent c)↘messageQ ;;;
    store (component c)↘pComponentPrivate Dangling ;;;
    ret OMX_ErrorNone).

(** ** The state machine

    The transitions of the OpenMAX IL state diagram that the component
    accepts. *)
Definition legal_transition (cur dest : OMX_STATETYPE) : bool :=
  match cur, dest with
  | OMX_StateLoaded, (OMX_StateIdle | OMX_StateWaitForResources)
  | OMX_StateIdle, (OMX_StateLoaded | OMX_StateExecuting | OMX_StatePause)
  | OMX_StateExecuting, (OMX_StateIdle | OMX_StatePause)
  | OMX_StatePause, (OMX_StateIdle | OMX_StateExecuting)
  | OMX_StateWaitForResources, (OMX_StateLoaded | OMX_StateIdle) => true
  | _, _ => false
  end.

Definition in_state (c : nat) (st : OMX_STATETYPE) (s : St) : Prop :=
  exists r, look (pSECComponent c) s = inr r /\ currentState r = st.

Lemma leaves_set_state c st Q s :
  (forall s', in_state c st s' -> Q tt s') ->
  leaves (store (pSECComponent c)↘currentState st s) Q.
Proof.
  intros HQ. unfold store. destruct (look (pSECComponent c)↘currentState s) eqn:Hl; [done|].
  cbn [look member] in Hl. destruct (look (pSECComponent c) s) as [|r] eqn:Hr; [done|].
  assert (put (pSECComponent c)↘currentState st s = set_sec c r<|currentState := st|> s) as ->.
  { cbn [put member]. by rewrite Hr. }
  apply HQ. exists r<|currentState := st|>. split; [|done]. apply look_sec. by eapply look_valid.
Qed.

Lemma call_back_if_in_state c st e s :
  in_state c st s -> leaves (call_back_if c e s) (fun _ s' => in_state c st s').
Proof.
  intros (r & Hr & Hst). unfold call_back_if. apply leaves_bind.
  rewrite (run_load_member _ _ r) by done. simpl. destruct (pCallbacks r) as [cb|] eqn:Hcb.
  - unfold call_back. apply leaves_bind. rewrite (run_load_member _ _ r) by done. simpl.
    rewrite Hcb. simpl. by exists r.
  - simpl. by exists r.
Qed.

Lemma SignalSet_in_state c st s :
  in_state c st s ->
  leaves (SignalSet (pSECComponent c)↘pauseEvent s) (fun _ s' => in_state c st s').
Proof.
  intros (r & Hr & Hst). unfold SignalSet. apply leaves_bind.
  rewrite (run_load_member _ _ r) by done. cbn [leaves].
  destruct (pauseEvent r) as [| |e]; [by exists r|done|]. destruct (SEC_OSAL_SignalSet (Some e)) as [x h]. apply leaves_bind.
  rewrite <- (set_sec_id c s r Hr). pose proof (look_valid _ _ _ Hr) as Hv.
  rewrite run_store by done. simpl. eexists. split; [by apply look_sec|done].
Qed.

Ltac skip := apply leaves_skip; intros ? ?.
Ltac skips := repeat skip.
Ltac set_state := apply leaves_bind, leaves_set_state; intros; simpl; auto.

(** The loops over the ports leave early with an error only. *)
Lemma unload_port_error c i s :
  leaves (unload_port c i s) (fun r _ => forall x, r = Some x -> is_err x = true).
Proof.
  unfold unload_port. apply leaves_skip. intros p s1. case_match.
  - skips. case_match; [|done]. by intros ? [= <-].
  - skips. done.
Qed.

Lemma load_port_error c i s :
  leaves (load_port c i s) (fun r _ => forall x, r = Some x -> is_err x = true).
Proof.
  unfold load_port. apply leaves_skip. intros p s1. case_match; [case_match|].
  - skips. case_match; [|done]. by intros ? [= <-].
  - done.
  - skips. done.
Qed.

Lemma start_buffer_process_sound c s :
  leaves (start_buffer_process c s) (fun e s' => e = OMX_ErrorNone -> in_state c OMX_StateIdle s').
Proof.
  unfold start_buffer_process, create_each. do 2 skip. apply leaves_bind.
  eapply leaves_mono; [|apply (leaves_for_exit (fun x => x = OMX_ErrorInsufficientResources))].
  2: { intros i s0. skips. case_match; [|done]. by intros ? [= <-]. }
  intros [x|] s2 Hx; [by rewrite (Hx x eq_refl)|]. apply leaves_bind.
  eapply leaves_mono; [|apply (leaves_for_exit (fun x => x = OMX_ErrorInsufficientResources))].
  2: { intros i s0. skips. case_match; [|done]. by intros ? [= <-]. }
  intros [x|] s3 Hx'; [by rewrite (Hx' x eq_refl)|]. skip. case_match; [skips; done|].
  set_state.
Qed.

Lemma stateset_body_sound c cur dest s :
  leaves (stateset_body c cur dest s) (fun e s' =>
    e = OMX_ErrorNone -> legal_transition cur dest = true /\ in_state c dest s').
Proof.
  unfold stateset_body. case_bool_decide; [done|]. case_bool_decide; [done|].
  apply leaves_skip. intros r1 s1. destruct (is_err r1) eqn:He; [by intros ->|].
  apply leaves_skip. intros _ s2. destruct dest; try done.
  - destruct cur; try done; simpl; skips; done.
  - destruct cur; try done; unfold stateset_Loaded.
    + apply leaves_skip. intros _ s3. destruct sec_mfc_componentTerminate; [|done]. do 2 skip.
      apply leaves_bind. eapply leaves_mono;
        [|apply (leaves_for_exit (fun x => is_err x = true)); apply unload_port_error].
      intros [x|] s4 Hx; [by intros ->; specialize (Hx _ eq_refl)|].
      set_state.
    + skip. set_state.
  - destruct cur; try done; unfold stateset_Idle.
    + skip. apply leaves_bind. eapply leaves_mono;
        [|apply (leaves_for_exit (fun x => is_err x = true)); apply load_port_error].
      intros [x|] s4 Hx; [by intros ->; specialize (Hx _ eq_refl)|]. skip.
      case_match; [by intros ->|]. eapply leaves_mono; [|apply start_buffer_process_sound].
      intros e s5 Hs. auto.
    + skip. set_state.
    + skip. set_state.
    + set_state.
  - destruct cur; try done; unfold stateset_Executing.
    + do 3 skip. apply leaves_bind, leaves_set_state. intros s3 Hs3. apply leaves_bind.
      eapply leaves_mono; [|by apply SignalSet_in_state]. done.
    + do 2 skip. apply leaves_bind, leaves_set_state. intros s3 Hs3. apply leaves_bind.
      eapply leaves_mono; [|by apply SignalSet_in_state]. done.
  - destruct cur; try done; set_state.
  - destruct cur; try done; unfold stateset_WaitForResources. skip.
    set_state.
Qed.

(** C19: a state command that completes with [OMX_ErrorNone] was a legal
    transition of the OpenMAX IL state machine and leaves the component in the
    requested state, whatever the codec's functions do and however the other
    threads run while the handler is blocked. *)
Theorem StateSet_sound c n s r :
  look (pSECComponent c) s = inr r ->
  leaves (SEC_OMX_ComponentStateSet c n s) (fun e s' =>
    e = OMX_ErrorNone ->
    legal_transition (currentState r) (OMX_STATETYPE_of_U32 n) = true /\
    in_state c (OMX_STATETYPE_of_U32 n) s').
Proof.
  intros Hr. unfold SEC_OMX_ComponentStateSet. apply leaves_bind.
  rewrite (run_load_member _ _ r) by done. cbn [leaves]. apply leaves_bind.
  eapply leaves_mono; [|apply stateset_body_sound]. intros e s1 Hs1.
  destruct (is_err e) eqn:He; [apply leaves_skip; intros _ s2; simpl; by intros ->|].
  apply leaves_bind. apply bool_decide_eq_false in He. destruct (dec_stable He).
  destruct (Hs1 eq_refl) as [Hleg Hst]. eapply leaves_mono; [|by apply call_back_if_in_state].
  intros ? s2 Hs2. by simpl.
Qed.


(** The error of a state command that is refused. *)
Definition refusal (cur dest : OMX_STATETYPE) : OMX_ERRORTYPE :=
  if bool_decide (cur = dest) then OMX_ErrorSameState
  else if bool_decide (cur = OMX_StateInvalid) then OMX_ErrorInvalidState
  else OMX_ErrorIncorrectStateTransition.

(** C20: a state command that is not a legal transition (and not the request to
    become [Invalid]) returns at once with the error of the interface, reports
    exactly that error to the client, and changes nothing else: the hardware
    resource is neither taken nor released. *)
Theorem StateSet_refused c n s r :
  look (pSECComponent c) s = inr r ->
  legal_transition (currentState r) (OMX_STATETYPE_of_U32 n) = false ->
  OMX_STATETYPE_of_U32 n <> OMX_StateInvalid \/ currentState r = OMX_StateInvalid ->
  SEC_OMX_ComponentStateSet c n s =
    Done (refusal (currentState r) (OMX_STATETYPE_of_U32 n))
      (match pCallbacks r with
       | Some _ => s<|callbacks ::= fun l => l ++
                       [EventError c (refusal (currentState r) (OMX_STATETYPE_of_U32 n))]|>
       | None => s
       end).
Proof.
  intros Hr Hleg Hinv. pose proof (look_valid _ _ _ Hr) as Hv.
  rewrite <- (set_sec_id c s r Hr). unfold SEC_OMX_ComponentStateSet, bind at 1.
  rewrite run_load by done. cbn [obind]. generalize dependent (OMX_STATETYPE_of_U32 n). intros dest Hleg Hinv.
  assert (stateset_body c (currentState r) dest (set_sec c r s)
          = Done (refusal (currentState r) dest) (set_sec c r s)) as Hbody.
  { unfold stateset_body, refusal. case_bool_decide; [done|]. case_bool_decide; [done|].
    destruct Hinv as [Hinv|?]; [|done].
    destruct dest, (currentState r); simpl in Hleg; done. }
  unfold bind at 1. rewrite Hbody. cbn [obind].
  replace (is_err (refusal (currentState r) dest)) with true by by unfold refusal; repeat case_match.
  unfold bind at 1. rewrite run_call_back_if by done. cbn [obind]. unfold ret.
  destruct (pCallbacks r); [|done]. by rewrite set_sec_callbacks.
Qed.
(** ** Transitions on every branch *)

(** C18: the transition from [Executing] or [Pause] to [Idle], on a component
    whose processing thread holds no buffer, gives every queued buffer of both
    ports back to the client in the order of submission, then reports the
    completion of the command, and leaves the component idle with both ports
    empty.  It returns without blocking and takes nothing from the resource
    manager. *)
Theorem StateSet_to_Idle_returns_buffers c n s r bs0 bs1 cb :
  live c s -> look (pSECComponent c) s = inr r -> pCallbacks r = Some cb ->
  pauseEvent r <> Dangling ->
  currentState r = OMX_StateExecuting \/ currentState r = OMX_StatePause ->
  OMX_STATETYPE_of_U32 n = OMX_StateIdle ->
  flush_pre 0 (headers s) r bs0 -> flush_pre 1 (headers s) r bs1 ->
  exists s' r', SEC_OMX_ComponentStateSet c n s = Done OMX_ErrorNone s' /\
    look (pSECComponent c) s' = inr r' /\ currentState r' = OMX_StateIdle /\
    drained 0 r' /\ drained 1 r' /\
    headers s' = foldl emptied (headers s) (bs0 ++ bs1) /\
    gpVideoDecRMComponentList s' = gpVideoDecRMComponentList s /\
    callbacks s' = callbacks s ++ (buffer_done c 0 <$> bs0) ++ (buffer_done c 1 <$> bs1)
      ++ [EventCmdComplete c OMX_CommandStateSet (U32_of_OMX_STATETYPE OMX_StateIdle)].
Proof.
  intros Hl Hlook Hcb Hpe Hst Hn Hpre0 Hpre1. pose proof (live_valid _ _ Hl) as Hv.
  set (goal := fun e s' => e = OMX_ErrorNone /\ exists r', s' = set_sec c r'
         s<|headers ::= fun hs => foldl emptied hs (bs0 ++ bs1)|>
          <|callbacks ::= fun k => (k ++ ((buffer_done c 0 <$> bs0) ++ [])
                                      ++ (buffer_done c 1 <$> bs1) ++ [])
             ++ [EventCmdComplete c OMX_CommandStateSet (U32_of_OMX_STATETYPE OMX_StateIdle)]|> /\
         drained 0 r' /\ drained 1 r' /\ currentState r' = OMX_StateIdle).
  assert (wp (fun _ => False) (SEC_OMX_ComponentStateSet c n (set_sec c r s)) goal) as Hwp.
  { unfold SEC_OMX_ComponentStateSet. rewrite Hn. wstep. wstep. apply wp_bind.
    assert (stateset_body c (currentState r) OMX_StateIdle (set_sec c r s)
            = stateset_Idle c OMX_StateExecuting (set_sec c r s)) as ->.
    { by destruct Hst as [-> | ->]. }
    unfold stateset_Idle. apply wp_bind. eapply wp_mono; [|by eapply BufferFlushProcessNoEvent_wp].
    intros e s1 [-> (r1 & -> & Hd0 & Hd1 & _ & Hcb1 & _)]. wstep. wstep. apply wp_ret. simpl.
    apply wp_bind. rewrite run_call_back_if by fvalid. simpl. rewrite Hcb1, Hcb.
    split; [done|]. by eexists. }
  rewrite (set_sec_id c s r Hlook) in Hwp.
  destruct (wp_result _ _ Hwp) as (e & s' & Hrun & -> & r' & -> & Hd0 & Hd1 & Hst').
  eexists _, r'. split; [exact Hrun|]. split; [apply look_sec; fvalid|].
  do 3 (split; [done|]). autorewrite with focus. simpl. rewrite !app_nil_r, <- !app_assoc. done.
Qed.

(** A component with two ports, neither of them tunnelled. *)
Definition untunnelled (r : SEC_OMX_BASECOMPONENT) : Prop :=
  exists p0 p1, pSECPort r = Ptr [p0; p1] /\ nPorts (portParam r) = 2 /\
    tunnelFlags p0 = 0 /\ tunnelFlags p1 = 0.

(** The loops over the ports then do nothing. *)
Lemma supply_loop_wp I c r s (body : Z -> SEC_OMX_BASEPORT -> M St unit) Q :
  valid c s -> untunnelled r -> Q tt (set_sec c r s) ->
  wp I (for_from 0 (Z.to_nat (nPorts (portParam r))) (fun i =>
    let* p := load (port c i) in if supplies p then body i p else ret tt) (set_sec c r s)) Q.
Proof.
  intros Hv (p0 & p1 & Hports & -> & Ht0 & Ht1) HQ. change (Z.to_nat 2) with 2%nat.
  assert (forall p, tunnelFlags p = 0 -> supplies p = false) as Hsup.
  { intros p Hp. unfold supplies, CHECK_PORT_TUNNELED. by rewrite Hp. }
  wsteps. rewrite Hsup by done. wsteps. rewrite Hsup by done. by wsteps.
Qed.

Lemma SignalSet_ready_wp I c r s ev m Q :
  valid c s -> pauseEvent r = Ptr ev -> event_mutex ev = Some m ->
  (forall ev', event_ready (Some ev') = true ->
     Q OMX_ErrorNone (set_sec c r<|pauseEvent := Ptr ev'|> s)) ->
  wp I (SignalSet (pSECComponent c)↘pauseEvent (set_sec c r s)) Q.
Proof.
  intros Hv Hev Hm HQ. unfold SignalSet. wsteps. rewrite Hev. destruct ev as [sg mx].
  simpl in *. subst mx. simpl. eapply wp_bind. wsteps. by apply HQ.
Qed.

(** the transition from [Idle] or [Pause] to [Executing] of an untunnelled
    component sets the pause event, so that the processing thread that waits on
    it goes on, and reports the completion; queues, semaphores and buffers of
    the ports are as before. *)
Theorem StateSet_to_Executing c n s r cb ev m :
  look (pSECComponent c) s = inr r -> pCallbacks r = Some cb ->
  pauseEvent r = Ptr ev -> event_mutex ev = Some m -> untunnelled r ->
  currentState r = OMX_StateIdle \/ currentState r = OMX_StatePause ->
  OMX_STATETYPE_of_U32 n = OMX_StateExecuting ->
  exists s' r' ev', SEC_OMX_ComponentStateSet c n s = Done OMX_ErrorNone s' /\
    look (pSECComponent c) s' = inr r' /\ currentState r' = OMX_StateExecuting /\
    pauseEvent r' = Ptr ev' /\ event_ready (Some ev') = true /\
    pSECPort r' = pSECPort r /\ headers s' = headers s /\
    callbacks s' = callbacks s ++
      [EventCmdComplete c OMX_CommandStateSet (U32_of_OMX_STATETYPE OMX_StateExecuting)].
Proof.
  intros Hlook Hcb Hev Hm Hun Hst Hdest.
  pose proof (look_valid _ _ _ Hlook) as Hv.
  assert (wp (fun _ => False) (SEC_OMX_ComponentStateSet c n (set_sec c r s)) (fun e s' =>
    e = OMX_ErrorNone /\ exists r' ev', s' = set_sec c r' s<|callbacks ::= fun k => k ++
         [EventCmdComplete c OMX_CommandStateSet (U32_of_OMX_STATETYPE OMX_StateExecuting)]|> /\
      currentState r' = OMX_StateExecuting /\ pauseEvent r' = Ptr ev' /\
      event_ready (Some ev') = true /\ pSECPort r' = pSECPort r)) as Hwp.
  { unfold SEC_OMX_ComponentStateSet. rewrite Hdest. wsteps.
    assert (stateset_body c (currentState r) OMX_StateExecuting (set_sec c r s)
            = stateset_Executing c (currentState r) (set_sec c r s)) as ->.
    { by destruct Hst as [-> | ->]. }
    destruct Hst as [-> | ->]; unfold stateset_Executing; wsteps; apply supply_loop_wp; try done;
      wsteps; eapply SignalSet_ready_wp; try done; intros ev' Hev'; wsteps; simpl; wsteps;
      rewrite run_call_back_if by fvalid; simpl; rewrite Hcb; (split; [done|]); by eexists _, ev'. }
  rewrite (set_sec_id c s r Hlook) in Hwp.
  destruct (wp_result _ _ Hwp) as (e & s' & Hrun & -> & r' & ev' & -> & ? & ? & ? & ?).
  eexists _, r', ev'. split; [exact Hrun|]. split; [apply look_sec; fvalid|].
  by autorewrite with focus.
Qed.
(** ** Parameters: what is stored and what is reported *)

(** The opening of the entry points succeeds on a component that is not
    [Invalid]. *)
Lemma run_param_entry {A} c r s (a : A) body :
  live c s -> currentState r <> OMX_StateInvalid ->
  param_entry (Some c) (Some a) body (set_sec c r s) =
    (let* '(e, a') := body c a in ret (e, Some a')) (set_sec c r s).
Proof.
  intros Hl Hst. unfold param_entry. unfold bind at 1. rewrite run_entry by done.
  by rewrite run_unless_invalid by (done || by apply live_valid).
Qed.

Lemma load_port_run c i r s p :
  valid c s -> port_get i r = inr p ->
  load (port c i) (set_sec c r s) = Done p (set_sec c r s).
Proof. intros Hv Hp. rewrite run_load by done. by rewrite Hp. Qed.

(** The answer of [SEC_OMX_SetParameter] to a port definition [d] for a port
    with definition [old]. *)
Definition portdef_answer (st : OMX_STATETYPE) (nports : Z) (old d : OMX_PARAM_PORTDEFINITIONTYPE)
  : OMX_ERRORTYPE :=
  let e := SEC_OMX_Check_SizeVersion (Some (pd_header d)) sizeof_PORTDEFINITIONTYPE in
  if nports <=? nPortIndex d then OMX_ErrorBadPortIndex
  else if is_err e then e
  else if (is_running st && bEnabled old)%bool then OMX_ErrorIncorrectStateOperation
  else if nBufferCountActual d <? nBufferCountMin old then OMX_ErrorBadParameter
  else OMX_ErrorNone.

Lemma set_portdef_run c s r d p n :
  valid c s -> port_get (nPortIndex d) r = inr p ->
  let e := portdef_answer (currentState r) (nPorts (portParam r)) (portDefinition p) d in
  set_parameter n c OMX_IndexParamPortDefinition (ParamPortDefinition d) (set_sec c r s) =
    Done e (set_sec c (if is_err e then r
                       else port_put (nPortIndex d) p<|portDefinition := d|> r) s).
Proof.
  intros Hv Hp e. unfold e, portdef_answer.
  destruct n as [|n]; cbn [set_parameter]; unfold bind at 1; rewrite run_load by done; cbn [obind];
    (destruct (Z.leb_spec (nPorts (portParam r)) (nPortIndex d)); [done|]);
    (destruct (is_err (SEC_OMX_Check_SizeVersion _ _)) eqn:He; [by rewrite He|]);
    unfold bind at 1; rewrite (load_port_run _ _ _ _ p) by done; cbn [obind];
    (destruct (is_running _ && _)%bool; [done|]);
    (destruct (Z.ltb_spec (nBufferCountActual d) (nBufferCountMin (portDefinition p))); [done|]);
    unfold bind; rewrite run_store by done; cbv beta; by rewrite Hp.
Qed.

(** C24: [SEC_OMX_SetParameter] of a port definition refuses a port the component
    does not have, a structure of the wrong size or version, an enabled port of
    a component that is not loaded, and a buffer count below the port's minimum,
    each with its own error and without changing anything.  Otherwise it stores
    the definition, and [SEC_OMX_GetParameter] then reports exactly it, whatever
    structure is passed to be filled. *)
Theorem PortDefinition_roundtrip c s r p d d' :
  live c s -> look (pSECComponent c) s = inr r -> currentState r <> OMX_StateInvalid ->
  port_get (nPortIndex d) r = inr p ->
  nPortIndex d' = nPortIndex d ->
  SEC_OMX_Check_SizeVersion (Some (pd_header d')) sizeof_PORTDEFINITIONTYPE = OMX_ErrorNone ->
  let e := portdef_answer (currentState r) (nPorts (portParam r)) (portDefinition p) d in
  exists s', SEC_OMX_SetParameter (Some c) OMX_IndexParamPortDefinition
               (Some (ParamPortDefinition d)) s = Done e s' /\
    if is_err e then s' = s
    else SEC_OMX_GetParameter (Some c) OMX_IndexParamPortDefinition
           (Some (ParamPortDefinition d')) s'
         = Done (OMX_ErrorNone, Some (ParamPortDefinition d)) s'.
Proof.
  intros Hl Hlook Hst Hp Hi Hhd e. pose proof (live_valid _ _ Hl) as Hv.
  exists (set_sec c (if is_err e then r else port_put (nPortIndex d) p<|portDefinition := d|> r) s).
  split.
  - rewrite <- (set_sec_id c s r Hlook) at 1. unfold SEC_OMX_SetParameter, bind at 1.
    rewrite run_param_entry by done. unfold bind. by rewrite set_portdef_run with (p := p).
  - destruct (is_err e) eqn:He; [by apply set_sec_id|].
    unfold SEC_OMX_GetParameter. rewrite run_param_entry by (done || by autorewrite with port).
    unfold get_parameter, bind. rewrite run_load by done. cbn [obind]. autorewrite with port.
    rewrite Hi, Hhd. destruct (Z.leb_spec (nPorts (portParam r)) (nPortIndex d)) as [Hge|Hlt].
    { exfalso. revert He. unfold e, portdef_answer. by rewrite (proj2 (Z.leb_le _ _) Hge). }
    change (is_err OMX_ErrorNone) with false. cbv iota beta.
    by rewrite (load_port_run _ _ _ _ p<|portDefinition := d|>)
      by (done || apply port_get_put; by exists p).
Qed.

(** The callbacks of the client can be installed in the [Loaded] state only;
    in every other state the request is refused and the component keeps the
    callbacks it has. *)
Theorem SetCallbacks_spec c s r cb data :
  live c s -> look (pSECComponent c) s = inr r ->
  SEC_OMX_SetCallbacks (Some c) (Some cb) data s =
    if bool_decide (currentState r = OMX_StateLoaded)
    then Done OMX_ErrorNone (set_sec c r<|pCallbacks := Some cb|><|callbackData := data|> s)
    else Done (if bool_decide (currentState r = OMX_StateInvalid) then OMX_ErrorInvalidState
               else OMX_ErrorIncorrectStateOperation) s.
Proof.
  intros Hl Hlook. pose proof (live_valid _ _ Hl) as Hv.
  rewrite <- (set_sec_id c s r Hlook) at 1. unfold SEC_OMX_SetCallbacks.
  rewrite run_entry by done. destruct (decide (currentState r = OMX_StateInvalid)) as [Hi|Hi].
  - rewrite Hi. unfold unless_invalid, bind. rewrite run_load by done. cbn [obind]. rewrite Hi.
    by rewrite set_sec_id.
  - rewrite run_unless_invalid by done. unfold bind at 1. rewrite run_load by done. cbn [obind].
    rewrite (bool_decide_eq_false_2 (_ = OMX_StateInvalid)) by done.
    case_bool_decide; simpl; [|by rewrite set_sec_id].
    unfold bind at 1. rewrite run_store by done. cbn [obind]. unfold bind. by rewrite run_store by done.
Qed.
(** ** The message handler *)

(** One round of the loop takes the oldest message. *)
Lemma message_handler_run c s r m l v :
  valid c s -> queue_repr (messageQ r) (m :: l) -> msgSemaphoreHandle r = Some v -> 0 < v ->
  exists q, queue_repr q l /\
    message_handler_iteration c (set_sec c r s) =
      handle_message c m (set_sec c r<|msgSemaphoreHandle := Some (v - 1)|><|messageQ := q|> s).
Proof.
  intros Hv Hq Hsem Hpos. unfold message_handler_iteration.
  edestruct (run_Dequeue c (pSECComponent c)↘messageQ) as (q & Hdeq & Hq');
    [apply _|exact Hv| |exact Hq|]; [by instantiate (1 := r<|msgSemaphoreHandle := Some (v - 1)|>)|].
  exists q. split; [exact Hq'|]. unfold bind at 1, SemaphoreWait, blocking, bind at 1, wait.
  rewrite focus_look by done. cbv beta. rewrite Hsem. unfold sem_ready.
  rewrite (proj2 (Z.ltb_lt 0 v)) by done. cbn [obind]. rewrite run_apply_at by done.
  rewrite Hsem. simpl. unfold bind. by rewrite Hdeq.
Qed.

(** C21: commands are executed in the order in which they were sent: after a
    command is accepted with the commands [l] pending, the next round of the
    message handler executes the oldest of them ([m], which is the command
    itself when none was pending), on the component as [SEC_OMX_SendCommand]
    left it, and the others ([l']) stay queued in order. *)
Theorem command_reaches_handler c s r p0 p1 Cmd nParam data l v m l' :
  live c s -> look (pSECComponent c) s = inr r -> two_ports r p0 p1 ->
  currentState r <> OMX_StateInvalid -> param_ok nParam ->
  queue_repr (messageQ r) l -> msgSemaphoreHandle r = Some v -> 0 <= v < SEM_VALUE_MAX ->
  send_result r p0 p1 (length l) (os (oscalls s)) Cmd nParam = OMX_ErrorNone ->
  l ++ [mkMessage Cmd nParam data] = m :: l' ->
  exists s1 s2 r2, SEC_OMX_SendCommand (Some c) Cmd nParam data s = Done OMX_ErrorNone s1 /\
    message_handler_iteration c s1 = handle_message c m s2 /\
    look (pSECComponent c) s2 = inr r2 /\ queue_repr (messageQ r2) l' /\
    msgSemaphoreHandle r2 = Some v /\ same_settings r r2 /\ callbacks s2 = callbacks s.
Proof.
  intros Hl Hlook Hports Hst Hok Hq Hsem Hmax Hres Hm. pose proof (live_valid _ _ Hl) as Hv.
  pose proof (SendCommand_wp (fun _ => False) c s r p0 p1 l v Cmd nParam data
                Hl Hports Hst Hok Hq Hsem Hmax) as Hwp.
  rewrite (set_sec_id c s r Hlook) in Hwp.
  destruct (wp_result _ _ Hwp) as (e & s1 & Hrun & -> & r1 & p0' & p1' & n1 & -> & _ & Hset & Hsent).
  rewrite Hres in *. simpl in Hsent. rewrite Hm in Hsent. destruct Hsent as [Hq1 Hsem1].
  destruct (message_handler_run c s<|oscalls := n1|> r1 m l' (v + 1)) as (q & Hq' & Hiter);
    [fvalid|done|done|lia|].
  eexists _, _, _. split; [exact Hrun|]. split; [exact Hiter|].
  split; [apply look_sec; fvalid|]. simpl. split; [done|]. split; [f_equal; lia|].
  split; [exact Hset|]. by autorewrite with focus.
Qed.
End component.
#[global] Arguments SEC_OMX_ComponentStateSet : simpl never.

(** ** On concrete components *)
Definition sample_dest (st : OMX_STATETYPE) : Z := U32_of_OMX_STATETYPE st.

Lemma StateSet_sound_witness :
  leaves (SEC_OMX_ComponentStateSet (H := sample_env) (H0 := sample_ops) 1
            (sample_dest OMX_StatePause) (sample_both_state OMX_StateExecuting)) (fun e s' =>
    e = OMX_ErrorNone ->
    legal_transition OMX_StateExecuting OMX_StatePause = true /\ in_state 1 OMX_StatePause s').
Proof.
  apply (StateSet_sound (H := sample_env) (H0 := sample_ops) 1 (sample_dest OMX_StatePause)
           (sample_both_state OMX_StateExecuting) (sample_both_comp OMX_StateExecuting)). done.
Defined.

Lemma StateSet_refused_witness :
  SEC_OMX_ComponentStateSet (H := sample_env) (H0 := sample_ops) 1 (sample_dest OMX_StateLoaded)
    (sample_both_state OMX_StateExecuting)
  = Done OMX_ErrorIncorrectStateTransition
      (sample_both_state OMX_StateExecuting)<|callbacks ::= fun l => l ++
         [EventError 1 OMX_ErrorIncorrectStateTransition]|>.
Proof.
  apply (StateSet_refused (H := sample_env) (H0 := sample_ops) 1 (sample_dest OMX_StateLoaded) _
           (sample_both_comp OMX_StateExecuting)); [done|done|by left].
Defined.

Lemma StateSet_to_Idle_returns_buffers_witness :
  exists s' r',
    SEC_OMX_ComponentStateSet (H := sample_env) (H0 := sample_ops) 1 (sample_dest OMX_StateIdle)
      (sample_both_state OMX_StateExecuting) = Done OMX_ErrorNone s' /\
    look (pSECComponent 1) s' = inr r' /\ currentState r' = OMX_StateIdle /\
    drained 0 r' /\ drained 1 r' /\
    headers s' = foldl emptied (headers (sample_both_state OMX_StateExecuting))
                   [10%nat; 11%nat; 20%nat] /\
    gpVideoDecRMComponentList s' = [] /\
    callbacks s' = [EmptyBufferDone 1 10; EmptyBufferDone 1 11; FillBufferDone 1 20;
                    EventCmdComplete 1 OMX_CommandStateSet 2].
Proof.
  apply (StateSet_to_Idle_returns_buffers (H := sample_env) (H0 := sample_ops) 1
           (sample_dest OMX_StateIdle) (sample_both_state OMX_StateExecuting)
           (sample_both_comp OMX_StateExecuting) [10%nat; 11%nat] [20%nat] 0 (sample_live _ _));
    try done.
  - by left.
  - apply sample_flush_pre_in.
  - apply sample_flush_pre_out.
Defined.

Lemma StateSet_to_Executing_witness :
  exists s' r' ev',
    SEC_OMX_ComponentStateSet (H := sample_env) (H0 := sample_ops) 1 (sample_dest OMX_StateExecuting)
      (sample_both_state OMX_StateIdle) = Done OMX_ErrorNone s' /\
    look (pSECComponent 1) s' = inr r' /\ currentState r' = OMX_StateExecuting /\
    pauseEvent r' = Ptr ev' /\ event_ready (Some ev') = true /\
    pSECPort r' = pSECPort (sample_both_comp OMX_StateIdle) /\
    headers s' = headers (sample_both_state OMX_StateIdle) /\
    callbacks s' = [EventCmdComplete 1 OMX_CommandStateSet 3].
Proof.
  apply (StateSet_to_Executing (H := sample_env) (H0 := sample_ops) 1
           (sample_dest OMX_StateExecuting) (sample_both_state OMX_StateIdle)
           (sample_both_comp OMX_StateIdle) 0 (mkEvent false (Some false)) false); try done.
  - by eexists _, _.
  - by left.
Defined.

Lemma PortDefinition_roundtrip_witness :
  let d := (sample_portdef 1 OMX_DirOutput)<|nBufferCountActual := 9|> in
  exists s',
    SEC_OMX_SetParameter (H := sample_env) (Some 1%nat) OMX_IndexParamPortDefinition
      (Some (ParamPortDefinition d)) (sample_both_state OMX_StateLoaded) = Done OMX_ErrorNone s' /\
    SEC_OMX_GetParameter (H := sample_env) (Some 1%nat) OMX_IndexParamPortDefinition
      (Some (ParamPortDefinition (sample_portdef 1 OMX_DirInput))) s'
      = Done (OMX_ErrorNone, Some (ParamPortDefinition d)) s'.
Proof.
  exact (PortDefinition_roundtrip (H := sample_env) 1 (sample_both_state OMX_StateLoaded)
           (sample_both_comp OMX_StateLoaded)
           (sample_port 1 OMX_DirOutput [Some 20%nat]
              [ItemMessage (mkMessage SEC_OMX_CommandFillBuffer 0 (Some (PtrBuffer 20)))])
           ((sample_portdef 1 OMX_DirOutput)<|nBufferCountActual := 9|>)
           (sample_portdef 1 OMX_DirInput) (sample_live _ _) eq_refl ltac:(done) eq_refl eq_refl
           eq_refl).
Defined.

Lemma SetCallbacks_spec_witness :
  SEC_OMX_SetCallbacks (H := sample_env) (Some 1%nat) (Some 5%nat) 77
    (sample_both_state OMX_StateIdle)
  = Done OMX_ErrorIncorrectStateOperation (sample_both_state OMX_StateIdle).
Proof.
  apply (SetCallbacks_spec (H := sample_env) 1 (sample_both_state OMX_StateIdle)
           (sample_both_comp OMX_StateIdle) 5 77 (sample_live _ _)). done.
Defined.

Lemma command_reaches_handler_witness :
  let m := mkMessage OMX_CommandStateSet 4 None in
  let r := sample_component OMX_StateExecuting [m]
             (sample_port 0 OMX_DirInput [] []) (sample_port 1 OMX_DirOutput [] []) in
  exists s1 s2 r2,
    SEC_OMX_SendCommand (H := sample_env) (Some 1%nat) OMX_CommandStateSet 2 None (sample_state r ∅)
      = Done OMX_ErrorNone s1 /\
    message_handler_iteration (H := sample_env) (H0 := sample_ops) 1 s1
      = handle_message (H := sample_env) (H0 := sample_ops) 1 m s2 /\
    look (pSECComponent 1) s2 = inr r2 /\
    queue_repr (messageQ r2) [mkMessage OMX_CommandStateSet 2 None] /\
    msgSemaphoreHandle r2 = Some 1 /\ same_settings r r2 /\ callbacks s2 = [].
Proof.
  intros m r.
  apply (command_reaches_handler (H := sample_env) (H0 := sample_ops) 1 (sample_state r ∅) r
           (sample_port 0 OMX_DirInput [] []) (sample_port 1 OMX_DirOutput [] [])
           OMX_CommandStateSet 2 None [m] 1 m); try done.
  - apply sample_live.
  - apply sample_queue_with_repr. unfold ring_size, MAX_QUEUE_ELEMENTS. simpl. lia.
Defined.

(** A whole session of the message handler, with the codec of [sample_ops] and a
    client that has allocated its buffers: [Loaded] to [Idle], [Executing],
    [Pause], [Idle]. *)
Definition sample_session (cmds : list SEC_OMX_MESSAGE) (st : OMX_STATETYPE) : St :=
  let p i d := (sample_port i d [] [])<|loadedResource := Some 1|><|unloadedResource := Some 1|> in
  sample_state (sample_component st cmds (p 0 OMX_DirInput) (p 1 OMX_DirOutput)) ∅.
Definition state_cmd (st : OMX_STATETYPE) : SEC_OMX_MESSAGE :=
  mkMessage OMX_CommandStateSet (U32_of_OMX_STATETYPE st) None.
Definition observed (o : outcome St bool) : option (list callback) :=
  match o with Done _ s => Some (callbacks s) | _ => None end.

Lemma session_completes :
  observed (message_loop (H := sample_env) (H0 := sample_ops) 4 1
    (sample_session [state_cmd OMX_StateIdle; state_cmd OMX_StateExecuting;
                     state_cmd OMX_StatePause; state_cmd OMX_StateIdle] OMX_StateLoaded))
  = Some [EventCmdComplete 1 OMX_CommandStateSet 2; EventCmdComplete 1 OMX_CommandStateSet 3;
          EventCmdComplete 1 OMX_CommandStateSet 4; EventCmdComplete 1 OMX_CommandStateSet 2].
Proof. by vm_compute. Qed.

(** Sends commands one after the other, then lets the message handler run. *)
Fixpoint send_all (c : nat) (cmds : list (OMX_COMMANDTYPE * Z)) : M St (list OMX_ERRORTYPE) :=
  match cmds with
  | [] => ret []
  | (cmd, n) :: cmds =>
      let* e := SEC_OMX_SendCommand (H := sample_env) (Some c) cmd n None in
      let* es := send_all c cmds in ret (e :: es)
  end.

(** The processing thread ends as soon as it is told to. *)
Definition sample_quick (st : OMX_STATETYPE) : St :=
  (sample_session [] st)<|threads ::= <[8%nat := mkThread SEC_OMX_BufferProcessThread 1 true]>|>.

(** [pauseEvent] is freed on the way from [Idle] to [Loaded] and not cleared.
    A client that sends [StateSet Idle], [StateSet Loaded] and [Flush] to an
    executing component, all three of which are accepted, makes the message
    handler set the freed event. *)
Theorem flush_after_unload_faults :
  match send_all 1 [(OMX_CommandStateSet, 2); (OMX_CommandStateSet, 1);
                    (OMX_CommandFlush, 0xFFFFFFFF)] (sample_quick OMX_StateExecuting) with
  | Done es s =>
      es = [OMX_ErrorNone; OMX_ErrorNone; OMX_ErrorNone] /\
      message_loop (H := sample_env) (H0 := sample_ops) 3 1 s = Fault NullDeref /\
      observed (message_loop (H := sample_env) (H0 := sample_ops) 2 1 s)
        = Some [EventCmdComplete 1 OMX_CommandStateSet 2; EventCmdComplete 1 OMX_CommandStateSet 1]
  | _ => False
  end.
Proof. vm_compute. done. Qed.

(** A component as the constructors leave it: no processing thread, no event. *)
Definition sample_loaded : SEC_OMX_BASECOMPONENT :=
  (sample_idle_ports OMX_StateLoaded)<|hBufferProcess := None|><|pauseEvent := Null|>.

(** A component that waits for resources becomes [Idle] and then [Executing]
    on request although it was never given the resource and has no processing
    thread; every command is reported as completed. *)
Theorem waiting_component_runs_without_resource :
  match send_all 1 [(OMX_CommandStateSet, 5); (OMX_CommandStateSet, 2); (OMX_CommandStateSet, 3)]
          (sample_state sample_loaded ∅) with
  | Done es s =>
      es = [OMX_ErrorNone; OMX_ErrorNone; OMX_ErrorNone] /\
      match message_loop (H := sample_env) (H0 := sample_ops) 3 1 s with
      | Done _ s' =>
          callbacks s' = [EventCmdComplete 1 OMX_CommandStateSet 5;
                          EventCmdComplete 1 OMX_CommandStateSet 2;
                          EventCmdComplete 1 OMX_CommandStateSet 3] /\
          in_state 1 OMX_StateExecuting s' /\ gpVideoDecRMComponentList s' = [] /\
          exists r, look (pSECComponent 1) s' = inr r /\ hBufferProcess r = None
      | _ => False
      end
  | _ => False
  end.
Proof. vm_compute. eauto 10. Qed.
