(* ===== verification/OmxCore.v ===== *)
(** * The OpenMAX IL core: registry of components and list of loaded ones

    Models [core/SEC_OMX_Core.c] and [core/SEC_OMX_Component_Register.c]: the
    registry that [SEC_OMX_Init] builds from the shared libraries of the
    installation directory, the queries on it, and the list of components that
    [SEC_OMX_GetHandle] loads and [SEC_OMX_FreeHandle] unloads.

    The directory and the libraries are not part of the repository's core: they
    are the class [Libraries].  The state of the components themselves is the
    [St] of the component model, embedded as [world]. *)
From S2P Require Import Prelude Machine OmxEnums OsalSync OsalQueue OmxTypes OmxState.
From S2P Require Import Focus Samples ResourceManager BaseComponent.

Definition MAX_OMX_COMPONENT_ROLE_NUM : Z := 10.
Definition OMX_MAX_STRINGNAME_SIZE : Z := 128.
Definition MAX_OMX_COMPONENT_NAME_SIZE : Z := OMX_MAX_STRINGNAME_SIZE.
Definition MAX_OMX_COMPONENT_ROLE_SIZE : Z := OMX_MAX_STRINGNAME_SIZE.
Definition MAX_OMX_COMPONENT_LIBNAME_SIZE : Z := OMX_MAX_STRINGNAME_SIZE * 2.
Definition SEC_OMX_INSTALL_PATH : string := "/system/lib/omx/".

(** ** Data *)
Record SECRegisterComponentType := mkRegister {
  rc_componentName : string;
  rc_roles : list string;       (* [MAX_OMX_COMPONENT_ROLE_NUM] cells *)
  rc_totalRoleNum : Z
}.
#[export] Instance SECRegisterComponentType_eta : RecEta SECRegisterComponentType :=
  fun r => mkRegister (rc_componentName r) (rc_roles r) (rc_totalRoleNum r).

Record SEC_OMX_COMPONENT_REGLIST := mkReglist {
  rl_component : SECRegisterComponentType;
  rl_libName : string
}.
#[export] Instance SEC_OMX_COMPONENT_REGLIST_eta : RecEta SEC_OMX_COMPONENT_REGLIST :=
  fun r => mkReglist (rl_component r) (rl_libName r).

(** A node of the list of loaded components; the link is the list itself. *)
Record SEC_OMX_COMPONENT := mkLoaded {
  sc_componentName : string;
  sc_libName : string;
  sc_libHandle : option string;
  sc_pOMXComponent : option nat
}.
#[export] Instance SEC_OMX_COMPONENT_eta : RecEta SEC_OMX_COMPONENT :=
  fun r => mkLoaded (sc_componentName r) (sc_libName r) (sc_libHandle r) (sc_pOMXComponent r).

Definition register_zero : SECRegisterComponentType :=
  mkRegister "" (replicate (Z.to_nat MAX_OMX_COMPONENT_ROLE_NUM) ""%string) 0.
Definition reglist_zero : SEC_OMX_COMPONENT_REGLIST := mkReglist register_zero "".

(** The function pointers of an [OMX_COMPONENTTYPE] that [ComponentAPICheck]
    looks at, and the two of them that the core calls. *)
Inductive component_fn :=
| FnGetComponentVersion | FnSendCommand | FnGetParameter | FnSetParameter | FnGetConfig
| FnSetConfig | FnGetExtensionIndex | FnGetState | FnComponentTunnelRequest | FnUseBuffer
| FnAllocateBuffer | FnFreeBuffer | FnEmptyThisBuffer | FnFillThisBuffer | FnSetCallbacks
| FnComponentDeInit | FnUseEGLImage | FnComponentRoleEnum.
Definition component_fns : list component_fn :=
  [FnGetComponentVersion; FnSendCommand; FnGetParameter; FnSetParameter; FnGetConfig;
   FnSetConfig; FnGetExtensionIndex; FnGetState; FnComponentTunnelRequest; FnUseBuffer;
   FnAllocateBuffer; FnFreeBuffer; FnEmptyThisBuffer; FnFillThisBuffer; FnSetCallbacks;
   FnComponentDeInit; FnUseEGLImage; FnComponentRoleEnum].

Record component_api := mkApi {
  api_has : component_fn -> bool;
  api_SetCallbacks : nat -> option nat -> Z -> M St OMX_ERRORTYPE;
  api_ComponentDeInit : nat -> M St OMX_ERRORTYPE
}.

(** What a shared library offers: [SEC_OMX_COMPONENT_Library_Register] (its
    components) and [SEC_OMX_ComponentInit], each possibly missing. *)
Record library := mkLibrary {
  lib_register : option (list SECRegisterComponentType);
  lib_init : option (nat -> string -> M St (OMX_ERRORTYPE * component_api))
}.

(** The installation directory, [None] when it cannot be opened, and the
    libraries that can be loaded. *)
Class Libraries := {
  install_dir : option (list string);
  dlopen : string -> option library
}.

(** The globals of [SEC_OMX_Core.c], the function pointers of the components,
    and the state of the components. *)
Record CoreSt := mkCore {
  gInitialized : Z;
  gComponentNum : Z;
  gComponentList : ptr (list SEC_OMX_COMPONENT_REGLIST);
  gLoadComponentList : list SEC_OMX_COMPONENT;
  ghLoadComponentListMutex : mutex;
  apis : gmap nat component_api;
  world : St
}.
#[export] Instance CoreSt_eta : RecEta CoreSt := fun s =>
  mkCore (gInitialized s) (gComponentNum s) (gComponentList s) (gLoadComponentList s)
    (ghLoadComponentListMutex s) (apis s) (world s).

(** Operations on the components, in the core.  While such an operation is
    blocked, other threads may change the globals too. *)
Fixpoint lift_outcome {A} (cs : CoreSt) (o : outcome St A) : outcome CoreSt A :=
  match o with
  | Done a s => Done a cs<|world := s|>
  | Fault e => Fault e
  | Blocked r s k =>
      Blocked (fun cs' => r (world cs')) cs<|world := s|>
        (fun cs' => lift_outcome cs' (k (world cs')))
  end.
Definition lift {A} (m : M St A) : M CoreSt A := fun cs => lift_outcome cs (m (world cs)).

(** [strcpy] into an array of [size] bytes. *)
Definition Strcpy {S} (size : Z) (src : string) : M S string :=
  if Z.of_nat (String.length src) <? size then ret src else fail OutOfBounds.

Section core.
Context `{Env} `{Libraries}.

(** An allocation whose result is written without a check. *)
Definition malloc_unchecked : M CoreSt unit :=
  let* ok := lift os_call in if (ok : bool) then ret tt else fail NullDeref.

(** ** The registry *)

(** Copies one component of a library into [componentList[totalCompNum]]. *)
Definition register_one (libName : string) (c : SECRegisterComponentType)
    (componentList : list SEC_OMX_COMPONENT_REGLIST) (totalCompNum : Z)
  : M CoreSt (list SEC_OMX_COMPONENT_REGLIST) :=
  let* dst := deref OutOfBounds (zlookup componentList totalCompNum) in
  let* name := Strcpy MAX_OMX_COMPONENT_NAME_SIZE (rc_componentName c) in
  let* roles := for_fold 0 (Z.to_nat (rc_totalRoleNum c)) (rc_roles (rl_component dst)) (fun j roles =>
    let* src := deref OutOfBounds (zlookup (rc_roles c) j) in
    deref OutOfBounds (zlookup roles j) ;;;
    let* role := Strcpy MAX_OMX_COMPONENT_ROLE_SIZE src in
    ret (zinsert j role roles)) in
  let* lib := Strcpy MAX_OMX_COMPONENT_LIBNAME_SIZE libName in
  ret (zinsert totalCompNum (mkReglist (mkRegister name roles (rc_totalRoleNum c)) lib) componentList).

(** The components of one library, in order. *)
Fixpoint register_components (libName : string) (cs : list SECRegisterComponentType)
    (componentList : list SEC_OMX_COMPONENT_REGLIST) (totalCompNum : Z)
  : M CoreSt (list SEC_OMX_COMPONENT_REGLIST * Z) :=
  match cs with
  | [] => ret (componentList, totalCompNum)
  | c :: cs =>
      let* componentList := register_one libName c componentList totalCompNum in
      register_components libName cs componentList (totalCompNum + 1)
  end.

(** [libOMX.SEC.*] of the installation directory, one entry after the other;
    [libName_ok]: the buffer for the path was allocated. *)
Fixpoint register_entries (libName_ok : bool) (entries : list string)
    (componentList : list SEC_OMX_COMPONENT_REGLIST) (totalCompNum : Z)
  : M CoreSt (list SEC_OMX_COMPONENT_REGLIST * Z) :=
  match entries with
  | [] => ret (componentList, totalCompNum)
  | d_name :: entries =>
      if negb (String.prefix "libOMX.SEC." d_name)
      then register_entries libName_ok entries componentList totalCompNum
      else
        (if libName_ok then ret tt else fail NullDeref) ;;;
        let* libName := Strcpy MAX_OMX_COMPONENT_LIBNAME_SIZE (SEC_OMX_INSTALL_PATH +:+ d_name) in
        let* '(componentList, totalCompNum) :=
          match dlopen libName with
          | None => ret (componentList, totalCompNum)
          | Some lib =>
              match lib_register lib with
              | None => ret (componentList, totalCompNum)
              | Some cs =>
                  let* ok := lift os_call in
                  (if ((ok : bool) || bool_decide (cs = []))%bool then ret tt else fail NullDeref) ;;;
                  for_from 0 (length cs) (fun _ => malloc_unchecked) ;;;
                  register_components libName cs componentList totalCompNum
              end
          end in
        register_entries libName_ok entries componentList totalCompNum
  end.

(** The error, and [*compList] and [*compNum] when they are assigned. *)
Definition SEC_OMX_Component_Register
  : M CoreSt (OMX_ERRORTYPE * option (list SEC_OMX_COMPONENT_REGLIST * Z)) :=
  match install_dir with
  | None => ret (OMX_ErrorUndefined, None)
  | Some entries =>
      malloc_unchecked ;;;
      let componentList := replicate (Z.to_nat MAX_OMX_COMPONENT_NUM) reglist_zero in
      let* libName_ok := lift os_call in
      let* r := register_entries libName_ok entries componentList 0 in
      ret (OMX_ErrorNone, Some r)
  end.

Definition SEC_OMX_Component_Unregister (componentList : ptr (list SEC_OMX_COMPONENT_REGLIST))
  : M CoreSt OMX_ERRORTYPE :=
  match componentList with
  | Null => ret OMX_ErrorNone
  | Dangling => fail NullDeref
  | Ptr _ => modify (fun s => s<|gComponentList := Dangling|>) ;;; ret OMX_ErrorNone
  end.

Definition SEC_OMX_Init : M CoreSt OMX_ERRORTYPE :=
  let* init := gets gInitialized in
  if negb (init =? 0) then ret OMX_ErrorNone
  else
    let* '(r, out) := SEC_OMX_Component_Register in
    (if out is Some (l, n) then modify (fun s => s<|gComponentList := Ptr l|><|gComponentNum := n|>)
     else ret tt) ;;;
    if is_err r then ret OMX_ErrorInsufficientResources
    else
      let* r := lift SEC_OMX_ResourceManager_Init in
      if is_err r then ret r
      else
        let* '(r, m) := (fun s =>
          let '(r, n, m) := SEC_OSAL_MutexCreate os (oscalls (world s)) (ghLoadComponentListMutex s) in
          Done (r, m) s<|world ::= fun w => w<|oscalls := n|>|>) in
        modify (fun s => s<|ghLoadComponentListMutex := m|>) ;;;
        if is_err r then ret r
        else modify (fun s => s<|gInitialized := 1|>) ;;; ret OMX_ErrorNone.

Definition SEC_OMX_Deinit : M CoreSt OMX_ERRORTYPE :=
  modify (fun s =>
    let '(_, n, _) := SEC_OSAL_MutexTerminate os (oscalls (world s)) (ghLoadComponentListMutex s) in
    s<|world ::= fun w => w<|oscalls := n|>|><|ghLoadComponentListMutex := None|>) ;;;
  lift SEC_OMX_ResourceManager_Deinit ;;;
  let* l := gets gComponentList in
  let* r := SEC_OMX_Component_Unregister l in
  if is_err r then ret OMX_ErrorUndefined
  else
    modify (fun s => s<|gComponentList := Null|><|gComponentNum := 0|><|gInitialized := 0|>) ;;;
    ret OMX_ErrorNone.

(** ** Queries on the registry *)

(** [gComponentList[i]] *)
Definition registered (i : Z) : M CoreSt SEC_OMX_COMPONENT_REGLIST :=
  let* p := gets gComponentList in
  match p with
  | Ptr l => deref OutOfBounds (zlookup l i)
  | _ => fail NullDeref
  end.

(** The error, and what [snprintf] leaves in [cComponentName] (nothing when
    the length is zero). *)
Definition SEC_OMX_ComponentNameEnum (nNameLength nIndex : Z)
  : M CoreSt (OMX_ERRORTYPE * option string) :=
  let* num := gets gComponentNum in
  if num <=? nIndex then ret (OMX_ErrorNoMore, None)
  else
    let* e := registered nIndex in
    let name := rc_componentName (rl_component e) in
    ret (OMX_ErrorNone,
         if nNameLength =? 0 then None
         else Some (String.substring 0 (Z.to_nat (nNameLength - 1)) name)).

(** The error, [*pNumComps], and the names copied to [compNames], which the
    caller may leave NULL. *)
Definition SEC_OMX_GetComponentsOfRole (role : string) (compNames : bool)
  : M CoreSt (OMX_ERRORTYPE * option (Z * list string)) :=
  let* init := gets gInitialized in
  if negb (init =? 1) then ret (OMX_ErrorNotReady, None)
  else
    let* out := for_fold 0 (Z.to_nat MAX_OMX_COMPONENT_NUM) (0, []) (fun i acc =>
      let* e := registered i in
      for_fold 0 (Z.to_nat (s32 (rc_totalRoleNum (rl_component e)))) acc (fun j acc =>
        let '(pNumComps, names) := acc in
        let* r := deref OutOfBounds (zlookup (rc_roles (rl_component e)) j) in
        if bool_decide (r = role)
        then ret (u32 (pNumComps + 1),
                  if compNames then names ++ [rc_componentName (rl_component e)] else names)
        else ret acc)) in
    ret (OMX_ErrorNone, Some out).

(** The error, [*pNumRoles] and the roles copied. *)
Definition SEC_OMX_GetRolesOfComponent (compName : string) (roles : bool)
  : M CoreSt (OMX_ERRORTYPE * option (Z * list string)) :=
  let* init := gets gInitialized in
  if negb (init =? 1) then ret (OMX_ErrorNotReady, None)
  else
    let* found := for_exit 0 (Z.to_nat MAX_OMX_COMPONENT_NUM) (fun i =>
      let* p := gets gComponentList in
      match p with
      | Null => ret (Some None)
      | _ =>
          let* e := registered i in
          ret (if bool_decide (rc_componentName (rl_component e) = compName)
               then Some (Some e) else None)
      end) in
    match found with
    | Some None => ret (OMX_ErrorUndefined, None)
    | None => ret (OMX_ErrorComponentNotFound, Some (0, []))
    | Some (Some e) =>
        let n := rc_totalRoleNum (rl_component e) in
        let* copied :=
          (if roles then
             for_fold 0 (Z.to_nat (s32 n)) [] (fun i out =>
               let* r := deref OutOfBounds (zlookup (rc_roles (rl_component e)) i) in
               ret (out ++ [r]))
           else ret []) in
        ret (OMX_ErrorNone, Some (n, copied))
    end.

(** ** Loading and unloading *)
Definition SEC_OMX_ComponentAPICheck (api : component_api) : OMX_ERRORTYPE :=
  if forallb (api_has api) component_fns then OMX_ErrorNone else OMX_ErrorInvalidComponent.

(** [malloc] and [INIT_SET_SIZE_VERSION] of a component, and its [free]. *)
Definition alloc_component : M CoreSt nat :=
  malloc_unchecked ;;;
  let* cs := gets (fun s => comps (world s)) in
  let c := fresh (map fst (map_to_list cs)) in
  modify (fun s => s<|world ::= fun w => w<|comps ::= <[c :=
    mkComponent (INIT_SET_SIZE_VERSION sizeof_COMPONENTTYPE) Null]>|>|>) ;;;
  ret c.
Definition free_component (c : nat) : M CoreSt unit :=
  modify (fun s => s<|world ::= fun w => w<|comps ::= delete c|>|><|apis ::= delete c|>).

Definition SEC_OMX_ComponentLoad (k : SEC_OMX_COMPONENT)
  : M CoreSt (OMX_ERRORTYPE * SEC_OMX_COMPONENT) :=
  match dlopen (sc_libName k) with
  | None => ret (OMX_ErrorInvalidComponentName, k)
  | Some lib =>
      match lib_init lib with
      | None => ret (OMX_ErrorInvalidComponent, k)
      | Some SEC_OMX_ComponentInit =>
          let* c := alloc_component in
          let* '(r, api) := lift (SEC_OMX_ComponentInit c (sc_componentName k)) in
          modify (fun s => s<|apis ::= <[c := api]>|>) ;;;
          if is_err r then free_component c ;;; ret (OMX_ErrorInvalidComponent, k)
          else if is_err (SEC_OMX_ComponentAPICheck api) then
            (if api_has api FnComponentDeInit then lift (api_ComponentDeInit api c) ;;; ret tt
             else ret tt) ;;;
            free_component c ;;; ret (OMX_ErrorInvalidComponent, k)
          else ret (OMX_ErrorNone, k<|sc_libHandle := Some (sc_libName k)|><|sc_pOMXComponent := Some c|>)
      end
  end.

Definition SEC_OMX_ComponentUnload (k : SEC_OMX_COMPONENT) : M CoreSt OMX_ERRORTYPE :=
  match sc_pOMXComponent k with
  | Some c =>
      let* fns := gets apis in
      let* api := deref NullDeref (fns !! c) in
      lift (api_ComponentDeInit api c) ;;;
      free_component c ;;;
      ret OMX_ErrorNone
  | None => ret OMX_ErrorNone
  end.

Definition core_lock : M CoreSt unit :=
  wait (fun s => mutex_ready (ghLoadComponentListMutex s)) ;;;
  modify (fun s => s<|ghLoadComponentListMutex ::= fun m => (SEC_OSAL_MutexLock m).2|>).
Definition core_unlock : M CoreSt unit :=
  modify (fun s => s<|ghLoadComponentListMutex ::= fun m => (SEC_OSAL_MutexUnlock m).2|>).

(** The body of the search loop of [SEC_OMX_GetHandle] for a matching entry. *)
Definition load_component (e : SEC_OMX_COMPONENT_REGLIST) (pCallBacks : nat) (pAppData : Z)
  : M CoreSt (OMX_ERRORTYPE * option nat) :=
  malloc_unchecked ;;;
  let* lib := Strcpy MAX_OMX_COMPONENT_LIBNAME_SIZE (rl_libName e) in
  let* name := Strcpy MAX_OMX_COMPONENT_NAME_SIZE (rc_componentName (rl_component e)) in
  let* '(r, k) := SEC_OMX_ComponentLoad (mkLoaded name lib None None) in
  if is_err r then ret (r, None)
  else
    match sc_pOMXComponent k with
    | None => fail NullDeref
    | Some c =>
        let* fns := gets apis in
        let* api := deref NullDeref (fns !! c) in
        let* r := lift (api_SetCallbacks api c (Some pCallBacks) pAppData) in
        if is_err r then SEC_OMX_ComponentUnload k ;;; ret (r, None)
        else
          core_lock ;;;
          modify (fun s => s<|gLoadComponentList ::= fun l => l ++ [k]|>) ;;;
          core_unlock ;;;
          ret (OMX_ErrorNone, Some c)
    end.

(** The error and [*pHandle]; [pHandle] says whether the pointer is not NULL. *)
Definition SEC_OMX_GetHandle (pHandle : bool) (cComponentName : option string) (pAppData : Z)
    (pCallBacks : option nat) : M CoreSt (OMX_ERRORTYPE * option nat) :=
  let* init := gets gInitialized in
  if negb (init =? 1) then ret (OMX_ErrorNotReady, None)
  else
    match pHandle, cComponentName, pCallBacks with
    | true, Some name, Some cb =>
        let* num := gets gComponentNum in
        let* r := for_exit 0 (Z.to_nat num) (fun i =>
          let* e := registered i in
          if bool_decide (name = rc_componentName (rl_component e))
          then let* r := load_component e cb pAppData in ret (Some r)
          else ret None) in
        ret (default (OMX_ErrorComponentNotFound, None) r)
    | _, _, _ => ret (OMX_ErrorBadParameter, None)
    end.

(** The walk of [SEC_OMX_FreeHandle] over a list whose first node is not the
    one to delete: it looks one node ahead without checking that there is one.
    [None]: NULL is dereferenced. *)
Fixpoint unlink_after (h : nat) (cur : SEC_OMX_COMPONENT) (rest : list SEC_OMX_COMPONENT)
  : option (SEC_OMX_COMPONENT * list SEC_OMX_COMPONENT) :=
  match rest with
  | [] => None
  | nxt :: rest' =>
      if bool_decide (sc_pOMXComponent nxt = Some h) then Some (nxt, cur :: rest')
      else '(k, l) ← unlink_after h nxt rest'; Some (k, cur :: l)
  end.

Definition SEC_OMX_FreeHandle (hComponent : option nat) : M CoreSt OMX_ERRORTYPE :=
  let* init := gets gInitialized in
  if negb (init =? 1) then ret OMX_ErrorNotReady
  else
    match hComponent with
    | None => ret OMX_ErrorBadParameter
    | Some h =>
        core_lock ;;;
        let* l := gets gLoadComponentList in
        let* '(deleteComponent, l') :=
          match l with
          | [] => fail NullDeref
          | k :: rest =>
              if bool_decide (sc_pOMXComponent k = Some h) then ret (k, rest)
              else deref NullDeref (unlink_after h k rest)
          end in
        modify (fun s => s<|gLoadComponentList := l'|>) ;;;
        core_unlock ;;;
        SEC_OMX_ComponentUnload deleteComponent ;;;
        ret OMX_ErrorNone
    end.

Definition SEC_OMX_SetupTunnel : M CoreSt OMX_ERRORTYPE := ret OMX_ErrorNotImplemented.
Definition SEC_OMX_GetContentPipe : M CoreSt OMX_ERRORTYPE := ret OMX_ErrorNotImplemented.
(** ** What the registry holds *)

(** A structure a library may fill in: strings and role count within the arrays. *)
Definition fits (c : SECRegisterComponentType) : Prop :=
  Z.of_nat (String.length (rc_componentName c)) < MAX_OMX_COMPONENT_NAME_SIZE /\
  length (rc_roles c) = Z.to_nat MAX_OMX_COMPONENT_ROLE_NUM /\
  0 <= rc_totalRoleNum c <= MAX_OMX_COMPONENT_ROLE_NUM /\
  Forall (fun r => Z.of_nat (String.length r) < MAX_OMX_COMPONENT_ROLE_SIZE) (rc_roles c).

(** The entry made from it: only the announced roles are copied. *)
Definition reg_entry (libName : string) (c : SECRegisterComponentType) : SEC_OMX_COMPONENT_REGLIST :=
  let n := Z.to_nat (rc_totalRoleNum c) in
  mkReglist (mkRegister (rc_componentName c)
    (take n (rc_roles c) ++ drop n (rc_roles register_zero)) (rc_totalRoleNum c)) libName.

(** The entries that one file of the directory contributes. *)
Definition contributes (d_name : string) : list SEC_OMX_COMPONENT_REGLIST :=
  let libName := SEC_OMX_INSTALL_PATH +:+ d_name in
  if String.prefix "libOMX.SEC." d_name then
    match dlopen libName with
    | Some lib => match lib_register lib with
                  | Some cs => reg_entry libName <$> cs
                  | None => []
                  end
    | None => []
    end
  else [].

(** A file the registration can read: its path and components fit. *)
Definition readable (d_name : string) : Prop :=
  Z.of_nat (String.length (SEC_OMX_INSTALL_PATH +:+ d_name)) < MAX_OMX_COMPONENT_LIBNAME_SIZE /\
  forall lib cs, dlopen (SEC_OMX_INSTALL_PATH +:+ d_name) = Some lib -> lib_register lib = Some cs ->
    Forall fits cs.

(** The array of [MAX_OMX_COMPONENT_NUM] entries with [l] at its start. *)
Definition table (l : list SEC_OMX_COMPONENT_REGLIST) : list SEC_OMX_COMPONENT_REGLIST :=
  l ++ replicate (Z.to_nat MAX_OMX_COMPONENT_NUM - length l) reglist_zero.

Lemma table_next l :
  (length l < Z.to_nat MAX_OMX_COMPONENT_NUM)%nat ->
  zlookup (table l) (zlength l) = Some reglist_zero.
Proof.
  intros Hl. unfold table, zlength. rewrite zlookup_of_nat, lookup_app_r, Nat.sub_diag by lia. by apply lookup_replicate_2; lia.
Qed.

Lemma table_insert l x :
  (length l < Z.to_nat MAX_OMX_COMPONENT_NUM)%nat ->
  zinsert (zlength l) x (table l) = table (l ++ [x]).
Proof.
  intros Hl. unfold table, zlength. rewrite zinsert_of_nat, insert_app_r_alt, Nat.sub_diag by lia.
  rewrite length_app, <- app_assoc. f_equal.
  replace (_ - length l)%nat with (S (Z.to_nat MAX_OMX_COMPONENT_NUM - (length l + 1))) by lia.
  done.
Qed.

(** The loop over the roles copies the first [n] of them. *)
Lemma roles_loop (src : list string) s : forall n j dst,
  length dst = length src -> (j + n <= length src)%nat ->
  Forall (fun r => Z.of_nat (String.length r) < MAX_OMX_COMPONENT_ROLE_SIZE) src ->
  for_fold (S := CoreSt) (Z.of_nat j) n dst (fun j roles =>
    let* r := deref OutOfBounds (zlookup src j) in
    deref OutOfBounds (zlookup roles j) ;;;
    let* role := Strcpy MAX_OMX_COMPONENT_ROLE_SIZE r in
    ret (zinsert j role roles)) s =
  Done (take j dst ++ take n (drop j src) ++ drop (j + n) dst) s.
Proof.
  induction n as [|n IH]; intros j dst Hlen Hj Hfit.
  { unfold for_fold, ret. f_equal. simpl. rewrite Nat.add_0_r. by rewrite take_drop. }
  destruct (lookup_lt_is_Some_2 src j) as [x Hx]; [lia|].
  destruct (lookup_lt_is_Some_2 dst j) as [y Hy]; [lia|].
  assert (zlookup src (Z.of_nat j) = Some x) as Hx' by by rewrite zlookup_of_nat.
  assert (zlookup dst (Z.of_nat j) = Some y) as Hy' by by rewrite zlookup_of_nat.
  rewrite for_fold_S. unfold bind at 1 2. rewrite Hx'. cbn [deref obind ret].
  unfold bind at 1. rewrite Hy'. cbn [deref obind ret].
  unfold bind at 1, Strcpy at 1. rewrite (proj2 (Z.ltb_lt _ _)).
  2: { by eapply (Forall_lookup_1 _ _ _ _ Hfit). }
  cbn [obind ret]. replace (Z.of_nat j + 1) with (Z.of_nat (S j)) by lia.
  rewrite (zinsert_of_nat j x dst).
  rewrite IH; [|rewrite length_insert; lia|lia|done]. f_equal.
  rewrite (drop_S src x j) by done. cbn [take].
  rewrite (take_S_r _ _ x) by by apply list_lookup_insert_eq; lia.
  rewrite take_insert_ge by lia. rewrite drop_insert_lt by lia.
  rewrite <- app_assoc. simpl. by rewrite <- Nat.add_succ_r.
Qed.

Lemma register_one_run libName c l s :
  fits c -> Z.of_nat (String.length libName) < MAX_OMX_COMPONENT_LIBNAME_SIZE ->
  (length l < Z.to_nat MAX_OMX_COMPONENT_NUM)%nat ->
  register_one libName c (table l) (zlength l) s = Done (table (l ++ [reg_entry libName c])) s.
Proof.
  intros (Hname & Hlen & Hn & Hroles) Hlib Hl. unfold register_one, bind at 1.
  rewrite table_next by done. cbn [deref obind ret]. unfold bind at 1, Strcpy at 1.
  rewrite (proj2 (Z.ltb_lt _ _)) by done. cbn [obind ret]. unfold bind at 1.
  assert (Z.to_nat (rc_totalRoleNum c) <= length (rc_roles c))%nat as Hle.
  { rewrite Hlen. lia. }
  rewrite (roles_loop (rc_roles c) s _ 0); [|by rewrite Hlen|lia|done].
  cbn [obind]. unfold bind, Strcpy. rewrite (proj2 (Z.ltb_lt _ _)) by done. cbn [obind ret].
  by rewrite table_insert.
Qed.

Lemma register_components_run libName s : forall cs l,
  Forall fits cs -> Z.of_nat (String.length libName) < MAX_OMX_COMPONENT_LIBNAME_SIZE ->
  (length l <= Z.to_nat MAX_OMX_COMPONENT_NUM)%nat ->
  register_components libName cs (table l) (zlength l) s =
    if decide (length l + length cs <= Z.to_nat MAX_OMX_COMPONENT_NUM)%nat
    then Done (table (l ++ (reg_entry libName <$> cs)),
               zlength (l ++ (reg_entry libName <$> cs))) s
    else Fault OutOfBounds.
Proof.
  induction cs as [|c cs IH]; intros l Hfit Hlib Hl.
  { rewrite decide_True by (simpl; lia). simpl. by rewrite app_nil_r. }
  apply Forall_cons in Hfit as [Hc Hcs]. cbn [register_components]. unfold bind.
  destruct (decide (length l = Z.to_nat MAX_OMX_COMPONENT_NUM)) as [Heq|Hne].
  - rewrite decide_False by (simpl; lia). unfold register_one, bind at 1.
    rewrite zlookup_None; [done|]. right. unfold zlength, table.
    rewrite length_app, length_replicate. lia.
  - rewrite register_one_run by (done || lia). cbn [obind].
    replace (zlength l + 1) with (zlength (l ++ [reg_entry libName c]))
      by (unfold zlength; rewrite length_app; simpl; lia).
    rewrite IH; [|done|done|rewrite length_app; simpl; lia]. rewrite length_app. simpl.
    rewrite <- app_assoc. simpl. repeat case_decide; done || lia.
Qed.
(** ** Registration *)
Section registration.
Hypothesis Hos : forall n, os n = true.

(** The state after some system calls. *)
Definition called (s : CoreSt) (n : nat) : CoreSt := s<|world ::= fun w => w<|oscalls := n|>|>.

Lemma lift_os_call s : lift os_call s = Done true (called s (S (oscalls (world s)))).
Proof. unfold lift, os_call. simpl. by rewrite Hos. Qed.

Lemma malloc_run s : malloc_unchecked s = Done tt (called s (S (oscalls (world s)))).
Proof. unfold malloc_unchecked, bind. by rewrite lift_os_call. Qed.

Lemma mallocs_run k : forall lo s,
  exists n, for_from lo k (fun _ => malloc_unchecked) s = Done tt (called s n).
Proof.
  induction k as [|k IH]; intros lo s.
  { exists (oscalls (world s)). unfold for_from, ret, called. by destruct s as [? ? ? ? ? ? []]. }
  destruct (IH (lo + 1) (called s (S (oscalls (world s))))) as [n Hn].
  exists n. change (for_from lo (S k) (fun _ => malloc_unchecked) s)
    with ((malloc_unchecked ;;; for_from (lo + 1) k (fun _ => malloc_unchecked)) s).
  unfold bind. rewrite malloc_run. cbn [obind]. by rewrite Hn.
Qed.

(** The outcome of a registration that is to leave the entries [all]. *)
Definition registers (o : outcome CoreSt (list SEC_OMX_COMPONENT_REGLIST * Z))
    (all : list SEC_OMX_COMPONENT_REGLIST) (s : CoreSt) : Prop :=
  if (length all <=? Z.to_nat MAX_OMX_COMPONENT_NUM)%nat
  then exists n, o = Done (table all, zlength all) (called s n) else o = Fault OutOfBounds.

Lemma register_entries_run : forall entries l s,
  Forall readable entries -> (length l <= Z.to_nat MAX_OMX_COMPONENT_NUM)%nat ->
  registers (register_entries true entries (table l) (zlength l) s)
    (l ++ (entries ≫= contributes)) s.
Proof.
  induction entries as [|d entries IH]; intros l s Hread Hl.
  { unfold registers. simpl. rewrite app_nil_r, (proj2 (Nat.leb_le _ _)) by done.
    exists (oscalls (world s)). unfold ret, called. by destruct s as [? ? ? ? ? ? []]. }
  apply Forall_cons in Hread as [[Hlib Hfits] Hread]. rewrite bind_cons, app_assoc.
  remember (contributes d) as new eqn:Hnew. unfold contributes in Hnew. cbn [register_entries].
  assert (registers (register_entries true entries (table l) (zlength l) s)
            ((l ++ []) ++ (entries ≫= contributes)) s) as Hskip.
  { rewrite app_nil_r. by apply IH. }
  destruct (String.prefix "libOMX.SEC." d); [|by subst new]. cbn [negb].
  unfold bind at 1. cbn [obind ret]. unfold bind at 1, Strcpy at 1.
  rewrite (proj2 (Z.ltb_lt _ _)) by done. cbn [obind ret].
  destruct (dlopen _) as [lib|] eqn:Hdl; [|by subst new].
  destruct (lib_register lib) as [cs|] eqn:Hreg; [|by subst new].
  destruct (mallocs_run (length cs) 0 (called s (S (oscalls (world s))))) as [n Hn].
  unfold bind. rewrite lift_os_call. cbn [obind orb ret]. rewrite Hn. cbn [obind].
  change (called (called s _) n) with (called s n).
  rewrite register_components_run; [|by eapply Hfits|done|done].
  rewrite <- (length_fmap (reg_entry (SEC_OMX_INSTALL_PATH +:+ d)) cs), <- Hnew, <- length_app.
  case_decide as Hle.
  - cbn [obind]. by apply (IH (l ++ new) (called s n)).
  - unfold registers. rewrite (proj2 (Nat.leb_gt _ _)); [done|]. rewrite length_app. lia.
Qed.

(** Up to the entries of the directory. *)
Lemma Component_Register_run entries s :
  install_dir = Some entries ->
  exists s', (forall n, called s' n = called s n) /\
    SEC_OMX_Component_Register s =
      (let* r := register_entries true entries (table []) (zlength (A := SEC_OMX_COMPONENT_REGLIST) []) in
       ret (OMX_ErrorNone, Some r)) s'.
Proof.
  intros Hdir. unfold SEC_OMX_Component_Register. rewrite Hdir.
  unfold bind at 1. rewrite malloc_run. cbn [obind]. unfold bind at 1. rewrite lift_os_call.
  cbn [obind]. eexists. split; [|reflexivity]. done.
Qed.

(** the registry [SEC_OMX_Component_Register] builds, when no allocation
    fails, holds the components of every [libOMX.SEC.*] library that can be
    opened, in directory order and with the path of their library, at the start
    of an array of twenty entries, as long as there are at most twenty of
    them. *)
Theorem Component_Register_spec entries s :
  install_dir = Some entries -> Forall readable entries ->
  zlength (entries ≫= contributes) <= MAX_OMX_COMPONENT_NUM ->
  exists n, SEC_OMX_Component_Register s =
    Done (OMX_ErrorNone, Some (table (entries ≫= contributes), zlength (entries ≫= contributes)))
      (called s n).
Proof.
  intros Hdir Hread Hle. destruct (Component_Register_run entries s Hdir) as (s' & Hs' & ->).
  pose proof (register_entries_run entries [] s' Hread ltac:(simpl; lia)) as Hrun. unfold registers in Hrun.
  rewrite (proj2 (Nat.leb_le _ _)) in Hrun by (unfold zlength in *; simpl; lia).
  destruct Hrun as [n Hn]. exists n. unfold bind. rewrite Hn. cbn [obind]. by rewrite Hs'.
Qed.

(** With more than twenty components installed, the registration writes
    outside the array: the count is not checked. *)
Theorem Component_Register_overflow entries s :
  install_dir = Some entries -> Forall readable entries ->
  MAX_OMX_COMPONENT_NUM < zlength (entries ≫= contributes) ->
  SEC_OMX_Component_Register s = Fault OutOfBounds.
Proof.
  intros Hdir Hread Hgt. destruct (Component_Register_run entries s Hdir) as (s' & Hs' & ->).
  pose proof (register_entries_run entries [] s' Hread ltac:(simpl; lia)) as Hrun. unfold registers in Hrun.
  rewrite (proj2 (Nat.leb_gt _ _)) in Hrun by (unfold zlength, MAX_OMX_COMPONENT_NUM in *; simpl; lia).
  unfold bind. by rewrite Hrun.
Qed.
End registration.
(** ** Queries *)

(** An entry whose role count is within its array. *)
Definition entry_ok (e : SEC_OMX_COMPONENT_REGLIST) : Prop :=
  0 <= rc_totalRoleNum (rl_component e) <= zlength (rc_roles (rl_component e)) /\
  rc_totalRoleNum (rl_component e) < 2 ^ 31.

(** The roles an entry announces. *)
Definition announced (e : SEC_OMX_COMPONENT_REGLIST) : list string :=
  take (Z.to_nat (rc_totalRoleNum (rl_component e))) (rc_roles (rl_component e)).

(** The names a query for [role] reports for an entry: one per announced role
    that is equal to it. *)
Definition names_for (role : string) (e : SEC_OMX_COMPONENT_REGLIST) : list string :=
  (fun _ => rc_componentName (rl_component e)) <$> filter (fun r => r = role) (announced e).

Lemma role_loop (name role : string) (roles : list string) s : forall n j num names,
  (j + n <= length roles)%nat -> 0 <= num -> num + Z.of_nat n < 2 ^ 32 ->
  for_fold (S := CoreSt) (Z.of_nat j) n (num, names) (fun j acc =>
    let '(pNumComps, names) := acc in
    let* r := deref OutOfBounds (zlookup roles j) in
    if bool_decide (r = role) then ret (u32 (pNumComps + 1), names ++ [name]) else ret acc) s =
  let new := (fun _ => name) <$> filter (fun r => r = role) (take n (drop j roles)) in
  Done (num + zlength new, names ++ new) s.
Proof.
  induction n as [|n IH]; intros j num names Hj Hnum Hmax.
  { simpl. unfold for_fold, ret, zlength. simpl. by rewrite app_nil_r, Z.add_0_r. }
  destruct (lookup_lt_is_Some_2 roles j) as [x Hx]; [lia|].
  assert (zlookup roles (Z.of_nat j) = Some x) as Hx' by by rewrite zlookup_of_nat.
  rewrite for_fold_S. unfold bind at 1 2. rewrite Hx'. cbn [deref obind ret].
  replace (Z.of_nat j + 1) with (Z.of_nat (S j)) by lia.
  rewrite (drop_S roles x j) by done. cbn [take]. rewrite filter_cons. cbv zeta.
  destruct (decide (x = role)) as [->|Hne].
  - rewrite bool_decide_eq_true_2 by done. cbn [obind ret].
    rewrite u32_id by (unfold is_u32; lia). rewrite IH by lia. cbv zeta.
    rewrite fmap_cons, <- app_assoc. f_equal. f_equal. unfold zlength. rewrite length_cons. lia.
  - rewrite bool_decide_eq_false_2 by done. cbn [obind ret]. rewrite IH by lia. done.
Qed.

Lemma names_for_length role e : entry_ok e -> zlength (names_for role e) <= zlength (announced e).
Proof.
  intros _. unfold names_for, zlength. rewrite length_fmap. pose proof (length_filter (fun r => r = role) (announced e)). lia.
Qed.

(** The whole loop, from entry [j] on. *)
Lemma roles_of_table role l s :
  gComponentList s = Ptr l -> Forall entry_ok l ->
  forall n j names, (j + n = length l)%nat ->
  zlength names + zlength (drop j l ≫= announced) < 2 ^ 32 ->
  for_fold (Z.of_nat j) n (zlength names, names) (fun i acc =>
    let* e := registered i in
    for_fold 0 (Z.to_nat (s32 (rc_totalRoleNum (rl_component e)))) acc (fun j acc =>
      let '(pNumComps, names) := acc in
      let* r := deref OutOfBounds (zlookup (rc_roles (rl_component e)) j) in
      if bool_decide (r = role)
      then ret (u32 (pNumComps + 1), names ++ [rc_componentName (rl_component e)])
      else ret acc)) s =
  Done (zlength (names ++ (drop j l ≫= names_for role)), names ++ (drop j l ≫= names_for role)) s.
Proof.
  intros Hl Hok. induction n as [|n IH]; intros j names Hj Hmax.
  { rewrite drop_ge by lia. simpl. by rewrite app_nil_r. }
  destruct (lookup_lt_is_Some_2 l j) as [e He]; [lia|].
  pose proof (Forall_lookup_1 _ _ _ _ Hok He) as Heok. pose proof Heok as [Hn Hn2].
  rewrite (drop_S l e j) in * by done. rewrite for_fold_S. unfold bind at 1 2.
  unfold registered, bind at 1. cbn [gets obind]. rewrite Hl, zlookup_of_nat, He. cbn [deref obind ret].
  pose proof (names_for_length role e Heok) as Hnl.
  rewrite bind_cons, zlength_app in Hmax.
  assert (zlength (announced e) = rc_totalRoleNum (rl_component e)) as Han.
  { unfold announced, zlength in *. rewrite length_take. lia. }
  unfold zlength in Hn. rewrite s32_small by lia.
  change 0 with (Z.of_nat 0) at 1.
  rewrite (role_loop _ _ (rc_roles (rl_component e)) s _ 0); [|lia|unfold zlength; lia|].
  2: { unfold zlength in *. lia. }
  cbv zeta. cbn [obind]. rewrite drop_0. fold (announced e). fold (names_for role e).
  rewrite <- zlength_app. replace (Z.of_nat j + 1) with (Z.of_nat (S j)) by lia.
  rewrite IH; [by rewrite bind_cons, <- app_assoc|lia|]. rewrite zlength_app.
  lia.
Qed.

(** On an initialised core, [SEC_OMX_GetComponentsOfRole] reports the names
    of exactly the registered components that announce the role, in the order of
    registration, and their number; it changes nothing. *)
Theorem GetComponentsOfRole_spec role s l :
  gInitialized s = 1 -> gComponentList s = Ptr l -> zlength l = MAX_OMX_COMPONENT_NUM ->
  Forall entry_ok l -> zlength (l ≫= announced) < 2 ^ 32 ->
  SEC_OMX_GetComponentsOfRole role true s =
    Done (OMX_ErrorNone, Some (zlength (l ≫= names_for role), l ≫= names_for role)) s.
Proof.
  intros Hi Hl Hlen Hok Hmax. unfold SEC_OMX_GetComponentsOfRole, bind at 1. cbn [gets obind].
  rewrite Hi. cbn [negb Z.eqb Pos.eqb]. unfold bind at 1.
  change 0 with (Z.of_nat 0) at 1. change (0, []) with (zlength (A := string) [], @nil string).
  rewrite (roles_of_table role l s Hl Hok _ 0 []); [done| |done].
  unfold zlength in Hlen. lia.
Qed.

(** ** The list of loaded components *)

Lemma unlink_after_spec h k l2 : forall l1 cur,
  sc_pOMXComponent k = Some h ->
  Forall (fun k => sc_pOMXComponent k <> Some h) l1 ->
  unlink_after h cur (l1 ++ k :: l2) = Some (k, cur :: l1 ++ l2).
Proof.
  induction l1 as [|x l1 IH]; intros cur Hk Hl1; simpl.
  - by rewrite bool_decide_eq_true_2.
  - apply Forall_cons in Hl1 as [Hx Hl1]. rewrite bool_decide_eq_false_2 by done.
    by rewrite IH.
Qed.

Lemma unlink_after_none h : forall l cur,
  Forall (fun k => sc_pOMXComponent k <> Some h) l -> unlink_after h cur l = None.
Proof.
  induction l as [|x l IH]; intros cur Hl; simpl; [done|].
  apply Forall_cons in Hl as [Hx Hl]. rewrite bool_decide_eq_false_2 by done. by rewrite IH.
Qed.

Lemma core_lock_run s :
  ghLoadComponentListMutex s = Some false ->
  core_lock s = Done tt s<|ghLoadComponentListMutex := Some true|>.
Proof.
  intros Hm. unfold core_lock, bind, wait. rewrite Hm. cbn [mutex_ready negb obind].
  unfold modify, set_field. destruct s; simpl in *. by subst.
Qed.

(** [SEC_OMX_FreeHandle] of a loaded component takes it out of the list,
    keeps the others in order, runs its [ComponentDeInit] once and frees it;
    the list's mutex is free again. *)
Theorem FreeHandle_spec s h l1 k l2 api e w :
  gInitialized s = 1 -> ghLoadComponentListMutex s = Some false ->
  gLoadComponentList s = l1 ++ k :: l2 -> sc_pOMXComponent k = Some h ->
  Forall (fun k => sc_pOMXComponent k <> Some h) l1 ->
  apis s !! h = Some api -> api_ComponentDeInit api h (world s) = Done e w ->
  SEC_OMX_FreeHandle (Some h) s =
    Done OMX_ErrorNone s<|gLoadComponentList := l1 ++ l2|><|apis ::= delete h|>
      <|world := w<|comps ::= delete h|>|>.
Proof.
  intros Hi Hm Hl Hk Hl1 Hapi Hdeinit. unfold SEC_OMX_FreeHandle, bind at 1. cbn [gets obind].
  rewrite Hi. cbn [negb Z.eqb Pos.eqb]. unfold bind at 1. rewrite core_lock_run by done.
  cbn [obind]. unfold bind at 1. cbn [gets obind]. simpl. rewrite Hl. unfold bind at 1.
  assert (match l1 ++ k :: l2 with
          | [] => fail NullDeref
          | k0 :: rest => if bool_decide (sc_pOMXComponent k0 = Some h) then ret (k0, rest)
                          else deref NullDeref (unlink_after h k0 rest)
          end = ret (S := CoreSt) (k, l1 ++ l2)) as ->.
  { destruct l1 as [|x l1]; simpl; [by rewrite bool_decide_eq_true_2|].
    apply Forall_cons in Hl1 as [Hx Hl1]. rewrite bool_decide_eq_false_2 by done.
    by rewrite unlink_after_spec. }
  cbn [obind ret]. unfold bind at 1. cbn [modify obind]. unfold bind at 1, core_unlock.
  cbn [modify obind]. unfold bind at 1, SEC_OMX_ComponentUnload. rewrite Hk. unfold bind at 1.
  cbn [gets obind]. simpl. unfold bind at 1. rewrite Hapi. cbn [deref ret obind]. unfold bind at 1, lift.
  simpl. rewrite Hdeinit. simpl. unfold ret. f_equal. destruct s. simpl in *. unfold set_field. simpl.
  by subst.
Qed.

(** [SEC_OMX_FreeHandle] of a handle that is not loaded dereferences NULL,
    where the code means to answer [OMX_ErrorComponentNotFound]. *)
Theorem FreeHandle_unknown_faults s h :
  gInitialized s = 1 -> ghLoadComponentListMutex s = Some false ->
  Forall (fun k => sc_pOMXComponent k <> Some h) (gLoadComponentList s) ->
  SEC_OMX_FreeHandle (Some h) s = Fault NullDeref.
Proof.
  intros Hi Hm Hl. unfold SEC_OMX_FreeHandle, bind at 1. cbn [gets obind].
  rewrite Hi. cbn [negb Z.eqb Pos.eqb]. unfold bind at 1. rewrite core_lock_run by done.
  cbn [obind]. unfold bind at 1. cbn [gets obind]. simpl.
  destruct (gLoadComponentList s) as [|k l]; [done|]. apply Forall_cons in Hl as [Hk Hl].
  rewrite bool_decide_eq_false_2 by done. by rewrite unlink_after_none.
Qed.
(** The search of [SEC_OMX_GetHandle] stops at the first entry of the name. *)
Lemma search_registry {R} s l name (f : SEC_OMX_COMPONENT_REGLIST -> M CoreSt R) i e r s' n : forall j,
  gComponentList s = Ptr l -> (j + n <= length l)%nat ->
  list_find (fun e => name = rc_componentName (rl_component e)) (take n (drop j l)) = Some (i, e) ->
  f e s = Done r s' ->
  for_exit (Z.of_nat j) n (fun i =>
    let* e := registered i in
    if bool_decide (name = rc_componentName (rl_component e))
    then let* r := f e in ret (Some r) else ret None) s = Done (Some r) s'.
Proof.
  revert i. induction n as [|n IH]; intros i j Hl Hj Hfind Hf; [done|].
  destruct (lookup_lt_is_Some_2 l j) as [x Hx]; [lia|].
  rewrite for_exit_S. rewrite (drop_S l x j) in Hfind by done. unfold bind at 1 2.
  unfold registered, bind at 1. cbn [gets obind]. rewrite Hl, zlookup_of_nat, Hx.
  cbn [deref ret obind]. cbn [take list_find] in Hfind. case_decide as Heq.
  - simplify_eq. rewrite bool_decide_eq_true_2 by done. unfold bind. by rewrite Hf.
  - rewrite bool_decide_eq_false_2 by done. cbn [obind ret].
    replace (Z.of_nat j + 1) with (Z.of_nat (S j)) by lia.
    destruct (list_find _ (take n _)) as [[i' e']|] eqn:Hrest; [|done]. simplify_eq/=.
    by apply (IH i'); [|lia|..].
Qed.

Section loading.
Hypothesis Hos : forall n, os n = true.
Context (s : CoreSt) (name : string) (e : SEC_OMX_COMPONENT_REGLIST) (cb : nat) (data : Z).
Context (lib : library) (api : component_api) (w1 w2 : St).
Context (init : nat -> string -> M St (OMX_ERRORTYPE * component_api)).

(** The handle of the new component, and the world its initialisation sees. *)
Definition new_handle : nat := fresh (map fst (map_to_list (comps (world s)))).
Definition new_world : St :=
  (world s)<|oscalls ::= fun n => S (S n)|><|comps ::= <[new_handle :=
    mkComponent (INIT_SET_SIZE_VERSION sizeof_COMPONENTTYPE) Null]>|>.
Definition new_node : SEC_OMX_COMPONENT :=
  mkLoaded name (rl_libName e) (Some (rl_libName e)) (Some new_handle).

(** A library that initialises the component and accepts the callbacks. *)
Definition loads : Prop :=
  dlopen (rl_libName e) = Some lib /\ lib_init lib = Some init /\
  init new_handle name new_world = Done (OMX_ErrorNone, api) w1 /\
  SEC_OMX_ComponentAPICheck api = OMX_ErrorNone /\
  api_SetCallbacks api new_handle (Some cb) data w1 = Done OMX_ErrorNone w2.

Lemma load_component_run :
  loads -> name = rc_componentName (rl_component e) ->
  Z.of_nat (String.length (rl_libName e)) < MAX_OMX_COMPONENT_LIBNAME_SIZE ->
  Z.of_nat (String.length name) < MAX_OMX_COMPONENT_NAME_SIZE ->
  ghLoadComponentListMutex s = Some false ->
  load_component e cb data s =
    Done (OMX_ErrorNone, Some new_handle)
      s<|gLoadComponentList ::= fun l => l ++ [new_node]|><|apis ::= <[new_handle := api]>|>
       <|world := w2|>.
Proof.
  intros (Hdl & Hinit & Hrun & Hapi & Hcb) Hname Hlib Hlen Hm. unfold load_component, bind at 1.
  rewrite malloc_run by done. cbn [obind]. unfold bind at 1, Strcpy at 1.
  rewrite (proj2 (Z.ltb_lt _ _)) by done. cbn [obind ret]. unfold bind at 1, Strcpy at 1.
  rewrite <- Hname, (proj2 (Z.ltb_lt _ _)) by done. cbn [obind ret]. unfold bind at 1.
  assert (SEC_OMX_ComponentLoad (mkLoaded name (rl_libName e) None None)
            (called s (S (oscalls (world s)))) =
          Done (OMX_ErrorNone, new_node) s<|apis ::= <[new_handle := api]>|><|world := w1|>) as ->.
  { unfold SEC_OMX_ComponentLoad. simpl. rewrite Hdl, Hinit. unfold bind at 1, alloc_component.
    unfold bind at 1. rewrite malloc_run by done. cbn [obind]. unfold bind at 1. cbn [gets obind].
    unfold bind at 1. cbn [modify obind ret]. unfold bind at 1. unfold lift.
    match goal with |- context [init ?c name ?w] =>
      change (init c name w) with (init new_handle name new_world) end.
    rewrite Hrun. cbn [lift_outcome obind]. unfold bind at 1. cbn [modify obind].
    change (is_err OMX_ErrorNone) with false. rewrite Hapi. cbn. unfold ret.
    unfold new_node. f_equal. }
  cbn [obind]. change (is_err OMX_ErrorNone) with false. cbn [new_node sc_pOMXComponent].
  unfold bind at 1. cbn [gets obind]. unfold bind at 1. simpl. rewrite lookup_insert_eq.
  cbn [deref ret obind]. unfold bind at 1, lift. simpl. rewrite Hcb. cbn [lift_outcome obind].
  change (is_err OMX_ErrorNone) with false. cbv iota. unfold bind at 1.
  rewrite core_lock_run by done. cbn [obind]. unfold bind, core_unlock. cbn [modify obind ret].
  f_equal. destruct s. simpl in *. unfold set_field. simpl. by subst.
Qed.

(** C25: [SEC_OMX_GetHandle] of a registered name loads the first entry of that
    name: it returns a handle that no other component has, installs the
    client's callbacks and appends the component to the list of loaded ones,
    and releases the list's mutex. *)
Theorem GetHandle_spec l i :
  loads -> gInitialized s = 1 -> ghLoadComponentListMutex s = Some false ->
  gComponentList s = Ptr l -> 0 <= gComponentNum s <= zlength l ->
  list_find (fun e => name = rc_componentName (rl_component e))
    (take (Z.to_nat (gComponentNum s)) l) = Some (i, e) ->
  Z.of_nat (String.length (rl_libName e)) < MAX_OMX_COMPONENT_LIBNAME_SIZE ->
  Z.of_nat (String.length name) < MAX_OMX_COMPONENT_NAME_SIZE ->
  comps (world s) !! new_handle = None /\
  SEC_OMX_GetHandle true (Some name) data (Some cb) s =
    Done (OMX_ErrorNone, Some new_handle)
      s<|gLoadComponentList ::= fun l => l ++ [new_node]|><|apis ::= <[new_handle := api]>|>
       <|world := w2|>.
Proof.
  intros Hloads Hi Hm Hl Hnum Hfind Hlib Hlen. split.
  - apply not_elem_of_dom. intros Hin. apply (infinite_is_fresh (map fst (map_to_list (comps (world s))))).
    fold new_handle. apply elem_of_dom in Hin as [k Hk]. apply list_elem_of_fmap.
    exists (new_handle, k). split; [done|]. by apply elem_of_map_to_list.
  - apply list_find_Some in Hfind as Hf. destruct Hf as (_ & Hname & _).
    unfold SEC_OMX_GetHandle, bind at 1. cbn [gets obind]. rewrite Hi.
    cbn [negb Z.eqb Pos.eqb]. unfold bind at 1. cbn [gets obind]. unfold bind at 1.
    change 0 with (Z.of_nat 0) at 1.
    erewrite (search_registry s l name); [|done| |exact Hfind|by apply load_component_run]; [done|].
    unfold zlength in Hnum. lia.
Qed.
End loading.
End core.

(** ** On concrete libraries *)
Definition sample_reg (name role : string) : SECRegisterComponentType :=
  mkRegister name (role :: replicate 9 ""%string) 1.

(** Every function is present; the callbacks are those of the base component. *)
Definition sample_api : component_api :=
  mkApi (fun _ => true) (fun c => SEC_OMX_SetCallbacks (H := sample_env) (Some c))
    (fun _ => ret OMX_ErrorNone).
Definition sample_init (c : nat) (name : string) : M St (OMX_ERRORTYPE * component_api) := fun w =>
  Done (OMX_ErrorNone, sample_api)
    w<|comps ::= <[c := mkComponent (INIT_SET_SIZE_VERSION 116)
                          (Ptr (sample_idle_ports OMX_StateLoaded)<|pCallbacks := None|>)]>|>.
Definition sample_lib (n : nat) : library :=
  mkLibrary (Some (replicate n (sample_reg "OMX.SEC.AVC.Decoder" "video_decoder.avc")
                   ++ [sample_reg "OMX.SEC.FP.AVC.Decoder" "video_decoder.avc"])) (Some sample_init).
Definition sample_libs (n : nat) : Libraries := {|
  install_dir := Some ["readme"; "libOMX.SEC.AVC.Decoder.so"]%string;
  dlopen := fun path => if bool_decide (path = "/system/lib/omx/libOMX.SEC.AVC.Decoder.so"%string)
                        then Some (sample_lib n) else None
|}.

Lemma sample_readable n :
  Forall (readable (H0 := sample_libs n)) ["readme"; "libOMX.SEC.AVC.Decoder.so"]%string.
Proof.
  repeat constructor; try done.
  intros lib cs Hdl Hreg. simpl in *. simplify_eq. injection Hreg as <-. apply Forall_app. split.
  - apply Forall_replicate. by repeat constructor.
  - by repeat constructor.
Qed.

Definition sample_contents (n : nat) : list SEC_OMX_COMPONENT_REGLIST :=
  ["readme"; "libOMX.SEC.AVC.Decoder.so"]%string ≫= contributes (H0 := sample_libs n).
Definition sample_core (l : list SEC_OMX_COMPONENT_REGLIST) (loaded : list SEC_OMX_COMPONENT)
    (fns : gmap nat component_api) : CoreSt :=
  mkCore 1 (zlength l) (Ptr (table l)) loaded (Some false) fns
    (sample_state (sample_idle_ports OMX_StateIdle) ∅).

Lemma Component_Register_spec_witness :
  exists n, SEC_OMX_Component_Register (H := sample_env) (H0 := sample_libs 1) (sample_core [] [] ∅) =
    Done (OMX_ErrorNone, Some (table (sample_contents 1), 2)) (called (sample_core [] [] ∅) n).
Proof.
  apply (Component_Register_spec (H := sample_env) (H0 := sample_libs 1) (fun _ => eq_refl)
           ["readme"; "libOMX.SEC.AVC.Decoder.so"]%string); [done|apply sample_readable|done].
Defined.

Lemma Component_Register_overflow_witness :
  SEC_OMX_Component_Register (H := sample_env) (H0 := sample_libs 20) (sample_core [] [] ∅)
  = Fault OutOfBounds.
Proof.
  apply (Component_Register_overflow (H := sample_env) (H0 := sample_libs 20) (fun _ => eq_refl)
           ["readme"; "libOMX.SEC.AVC.Decoder.so"]%string); [done|apply sample_readable|done].
Defined.

Lemma GetComponentsOfRole_spec_witness :
  SEC_OMX_GetComponentsOfRole "video_decoder.avc" true (sample_core (sample_contents 1) [] ∅)
  = Done (OMX_ErrorNone, Some (2, ["OMX.SEC.AVC.Decoder"; "OMX.SEC.FP.AVC.Decoder"]%string))
      (sample_core (sample_contents 1) [] ∅).
Proof.
  apply (GetComponentsOfRole_spec "video_decoder.avc" (sample_core (sample_contents 1) [] ∅)
           (table (sample_contents 1))); try done.
  apply (bool_decide_unpack _). by vm_compute.
Defined.

Definition sample_node (name : string) (h : nat) : SEC_OMX_COMPONENT :=
  mkLoaded name "/system/lib/omx/libOMX.SEC.AVC.Decoder.so" (Some "lib"%string) (Some h).

Lemma FreeHandle_spec_witness :
  let s := sample_core [] [sample_node "a" 3; sample_node "b" 1; sample_node "c" 5]
             {[ 1%nat := sample_api ]} in
  SEC_OMX_FreeHandle (Some 1%nat) s =
    Done OMX_ErrorNone s<|gLoadComponentList := [sample_node "a" 3; sample_node "c" 5]|>
      <|apis ::= delete 1%nat|><|world := (world s)<|comps ::= delete 1%nat|>|>.
Proof.
  intros s. apply (FreeHandle_spec s 1 [sample_node "a" 3] (sample_node "b" 1) [sample_node "c" 5]
                     sample_api OMX_ErrorNone (world s)); try done. by repeat constructor.
Defined.

Lemma FreeHandle_unknown_faults_witness :
  SEC_OMX_FreeHandle (Some 9%nat) (sample_core [] [sample_node "a" 3] ∅) = Fault NullDeref.
Proof.
  apply (FreeHandle_unknown_faults (sample_core [] [sample_node "a" 3] ∅) 9); try done.
  by repeat constructor.
Defined.

(** The world after the sample library has initialised the new component and
    the base component has taken the callbacks [5]. *)
Definition sample_before : CoreSt := sample_core (sample_contents 1) [] ∅.
Definition sample_inited : St :=
  match sample_init (new_handle sample_before) "OMX.SEC.FP.AVC.Decoder"
          (new_world (H := sample_env) sample_before) with
  | Done _ w => w
  | _ => St_init
  end.
Definition sample_called : St :=
  match SEC_OMX_SetCallbacks (H := sample_env) (Some (new_handle sample_before)) (Some 5%nat) 0
          sample_inited with
  | Done _ w => w
  | _ => St_init
  end.
Definition sample_entry : SEC_OMX_COMPONENT_REGLIST :=
  reg_entry "/system/lib/omx/libOMX.SEC.AVC.Decoder.so"
    (sample_reg "OMX.SEC.FP.AVC.Decoder" "video_decoder.avc").

Lemma GetHandle_spec_witness :
  comps (world sample_before) !! 2%nat = None /\
  SEC_OMX_GetHandle (H := sample_env) (H0 := sample_libs 1) true
    (Some "OMX.SEC.FP.AVC.Decoder"%string) 0 (Some 5%nat) sample_before =
  Done (OMX_ErrorNone, Some 2%nat)
    sample_before<|gLoadComponentList ::= fun l => l ++
        [new_node sample_before "OMX.SEC.FP.AVC.Decoder" sample_entry]|>
      <|apis ::= <[2%nat := sample_api]>|><|world := sample_called|>.
Proof.
  apply (GetHandle_spec (H := sample_env) (H0 := sample_libs 1) (fun _ => eq_refl) sample_before
           "OMX.SEC.FP.AVC.Decoder" sample_entry 5 0 (sample_lib 1) sample_api sample_inited
           sample_called sample_init (table (sample_contents 1)) 1).
  all: by vm_compute.
Defined.
