(* ===== verification/FrameCheck.v ===== *)
(** * Finding the end of a frame in a stream

    Models the functions with which the decoders of
    [component/video/dec/{h264,mpeg4,vc1,vp8}] look for the end of a frame in the
    client's buffer ([Check_H264_Frame], [Check_Mpeg4_Frame], [Check_H263_Frame],
    [Check_Wmv_Frame], [Check_VP8_Frame]), the tests of the start of a frame and the
    rewriting of VC-1 streams.  A stream is the memory from a pointer on: a read past
    its end, or of a byte that was never written, is a fault.  Each function that
    searches is proved equal to a description of the boundary that it looks for. *)
From S2P Require Import Prelude Machine Bytes OmxEnums.

Definition stream := list (option Z).

Definition peek (l : stream) (i : Z) : fault + Z :=
  match zlookup l i with
  | None => inl OutOfBounds
  | Some None => inl Uninitialised
  | Some (Some b) => inr b
  end.

Definition res_bind {A B} (r : fault + A) (f : A -> fault + B) : fault + B :=
  match r with inl e => inl e | inr a => f a end.
Declare Scope res_scope.
Delimit Scope res_scope with res.
Open Scope res_scope.
Notation "'try' x ':=' c 'in' k" := (res_bind c (fun x => k))
  (at level 10, x binder, c at level 100, k at level 200) : res_scope.

(** A little-endian word. *)
Definition peek32 (l : stream) (i : Z) : fault + Z :=
  try a := peek l i in
  try b := peek l (i + 1) in
  try c := peek l (i + 2) in
  try d := peek l (i + 3) in
  inr (a + Z.shiftl b 8 + Z.shiftl c 16 + Z.shiftl d 24).

(** The result of [sec_checkInputFrame]: the returned [int] and [*pbEndOfFrame]. *)
Abbreviation verdict := (fault + Z * bool)%type.

(** ** H.264

    The build option [ADD_SPS_PPS_I_FRAME], which [S3D_SUPPORT] sets: parameter sets belong to
    the frame after them. *)
Class H264Build := { ADD_SPS_PPS_I_FRAME : bool }.

Module H264.
Section build.
Context `{H264Build}.

(** [(preFourByte << 8) + inputOneByte] *)
Definition push (w b : Z) : Z := u32 (u32 (Z.shiftl w 8) + b).
Definition start_code (preFourByte : Z) : bool :=
  ((preFourByte =? 1) || (u32 (Z.shiftl preFourByte 8) =? 0x100))%bool.
(** What is returned for a boundary; [-2] is an access unit delimiter, [-1] a slice. *)
Definition boundary (preFourByte accessUnitSize frameTypeBoundary : Z) : Z * bool :=
  let nextNaluSize := if frameTypeBoundary =? -1 then -6 else -5 in
  let nextNaluSize := if preFourByte =? 1 then nextNaluSize else nextNaluSize + 1 in
  (accessUnitSize + nextNaluSize, true).

Definition opening (naluType : Z) : bool :=
  if ADD_SPS_PPS_I_FRAME then ((naluType =? 1) || (naluType =? 5))%bool
  else ((naluType =? 1) || (naluType =? 5) || (naluType =? 7) || (naluType =? 8))%bool.
Definition slice (naluType : Z) : bool := ((naluType =? 1) || (naluType =? 5))%bool.

Fixpoint access_unit_loop (fuel : nat) (l : stream) (buffSize preFourByte accessUnitSize : Z) (naluStart : bool)
  : verdict :=
  match fuel with
  | O => inl Diverges
  | S fuel =>
      if accessUnitSize =? s32 buffSize then inr (accessUnitSize, false)
      else
        try inputOneByte := peek l accessUnitSize in
        let accessUnitSize := accessUnitSize + 1 in
        if start_code preFourByte then
          let naluType := Z.land inputOneByte 0x1F in
          if negb naluStart then
            access_unit_loop fuel l buffSize (push preFourByte inputOneByte) accessUnitSize (opening naluType)
          else if naluType =? 9 then inr (boundary preFourByte accessUnitSize (-2))
          else if slice naluType then
            if accessUnitSize =? s32 buffSize then inr (accessUnitSize - 1, false)
            else
              try inputOneByte := peek l accessUnitSize in
              let accessUnitSize := accessUnitSize + 1 in
              if 0x80 <=? inputOneByte then inr (boundary preFourByte accessUnitSize (-1))
              else access_unit_loop fuel l buffSize (push preFourByte inputOneByte) accessUnitSize naluStart
          else access_unit_loop fuel l buffSize (push preFourByte inputOneByte) accessUnitSize naluStart
        else access_unit_loop fuel l buffSize (push preFourByte inputOneByte) accessUnitSize naluStart
  end.

Definition Check_H264_Frame (pInputStream : stream) (buffSize flag : Z) (bPreviousFrameEOF : bool) : verdict :=
  access_unit_loop (S (length pInputStream)) pInputStream buffSize 0xFFFFFFFF 0 (negb bPreviousFrameEOF).

Definition Check_H264_StartCode (pInputStream : stream) (streamSize : Z) : fault + bool :=
  if streamSize <? 4 then inr false
  else
    try b0 := peek pInputStream 0 in
    if negb (b0 =? 0) then inr false
    else
      try b1 := peek pInputStream 1 in
      if negb (b1 =? 0) then inr false
      else
        try b2 := peek pInputStream 2 in
        if b2 =? 0 then
          try b3 := peek pInputStream 3 in inr (negb (b3 =? 0) && (Z.shiftr b3 3 =? 0))%bool
        else inr (Z.shiftr b2 3 =? 0).
End build.
End H264.

(** ** MPEG-4 and H.263 *)
Module Mpeg4.
Definition shift_in (startCode b : Z) : Z := Z.lor (u32 (Z.shiftl startCode 8)) b.

(** [while (!found) { read; len++; if (len > buffSize) goto EXIT; }]: the value of [len],
    and whether the loop found what it looks for.  [next w len] reads at [len] and yields
    the new value of the variables [w] of the loop. *)
Fixpoint seek {W} (found : W -> bool) (next : W -> Z -> fault + W) (fuel : nat) (buffSize : Z) (w : W) (len : Z)
  : verdict :=
  match fuel with
  | O => inl Diverges
  | S fuel =>
      if found w then inr (len, true)
      else
        try w := next w len in
        let len := len + 1 in
        if buffSize <? len then inr (len, false) else seek found next fuel buffSize w len
  end.

(** [while (startCode != 0x1B6)] *)
Definition seek_vop (l : stream) (buffSize len : Z) : verdict :=
  seek (fun startCode => startCode =? 0x1B6)
    (fun startCode len => try b := peek l len in inr (shift_in startCode b))
    (S (S (length l))) buffSize 0xFFFFFFFF len.

(** The static variables of the source: [gbFIMV1], whether [ghMFCHandle] is set, and the
    resolution last given to the driver for a FIMV1 stream. *)
Record globals := mkGlobals {
  gbFIMV1 : bool;
  ghMFCHandle : bool;
  resolution : option (Z * Z)
}.
Definition fimv1_header (g : globals) (pInputStream : stream) (flag : Z) : fault + bool :=
  if negb (Z.land flag OMX_BUFFERFLAG_CODECCONFIG =? 0) then
    try b := peek pInputStream 0 in inr ((b =? 0x03) && ghMFCHandle g)%bool
  else inr false.

Definition Check_Mpeg4_Frame (g : globals) (pInputStream : stream) (buffSize flag : Z)
    (bPreviousFrameEOF : bool) : fault + (Z * bool) * globals :=
  try header := fimv1_header g pInputStream flag in
  if (header : bool) then
    (* [BiWidth] and [BiHeight] of the [BitmapInfoHhr] at offset 1 *)
    try width := peek32 pInputStream 5 in
    try height := peek32 pInputStream 9 in
    inr ((s32 buffSize, true), mkGlobals true (ghMFCHandle g) (Some (width, height)))
  else if gbFIMV1 g then inr ((s32 buffSize, true), g)
  else
    try first := (if bPreviousFrameEOF then seek_vop pInputStream buffSize 0 else inr (0, true)) in
    if negb first.2 then inr ((s32 (u32 (first.1 - 1)), false), g)
    else
      try next := seek_vop pInputStream buffSize first.1 in
      if next.2 then inr ((s32 (u32 (next.1 - 4)), true), g)
      else inr ((s32 (u32 (next.1 - 1)), false), g).

(** H.263: [pType] looks at the byte after the one that is shifted in. *)
Definition psc (startCode pType : Z) : bool :=
  ((Z.shiftr (u32 (Z.shiftl startCode 8)) 10 =? 0x20) && (pType =? 0x02))%bool.
Definition seek_psc (l : stream) (buffSize len : Z) : verdict :=
  seek (fun w : Z * Z => psc w.1 w.2)
    (fun w len =>
       try b := peek l len in
       try b' := peek l (len + 1) in
       inr (shift_in w.1 b, Z.land b' 0x03))
    (S (S (length l))) buffSize (0xFFFFFFFF, 0) len.

Definition Check_H263_Frame (pInputStream : stream) (buffSize flag : Z) (bPreviousFrameEOF : bool) : verdict :=
  try first := (if bPreviousFrameEOF then seek_psc pInputStream buffSize 0 else inr (0, true)) in
  if negb first.2 then inr (s32 (u32 (first.1 - 1)), false)
  else
    try next := seek_psc pInputStream buffSize first.1 in
    if next.2 then inr (s32 (u32 (next.1 - 3)), true)
    else inr (s32 (u32 (next.1 - 1)), false).

Inductive CODEC_TYPE := CODEC_TYPE_H263 | CODEC_TYPE_MPEG4.
Definition Check_Stream_PrefixCode (g : globals) (pInputStream : stream) (streamSize : Z) (codecType : CODEC_TYPE)
  : fault + bool :=
  match codecType with
  | CODEC_TYPE_MPEG4 =>
      if gbFIMV1 g then inr true
      else if streamSize <? 3 then inr false
      else
        try b0 := peek pInputStream 0 in
        if negb (b0 =? 0) then inr false
        else
          try b1 := peek pInputStream 1 in
          if negb (b1 =? 0) then inr false
          else try b2 := peek pInputStream 2 in inr (b2 =? 1)
  | CODEC_TYPE_H263 => inr (0 <? streamSize)
  end.
End Mpeg4.

(** ** VC-1 *)
Module Vc1.
Inductive WMV_FORMAT := WMV_FORMAT_VC1 | WMV_FORMAT_WMV3 | WMV_FORMAT_UNKNOWN.
Definition wmv3 : Z := 0x33564d57.
Definition wvc1 : Z := 0x31435657.
Definition wmva : Z := 0x41564d57.

(** [BiCompression] of the header decides the static variable [gWvmFormat]; a stream
    of a known format comes with one frame per buffer. *)
Definition Check_Wmv_Frame (gWvmFormat : WMV_FORMAT) (pInputStream : stream) (buffSize flag : Z)
    (bPreviousFrameEOF : bool) : fault + (Z * bool) * WMV_FORMAT :=
  try announced :=
    (if negb (Z.land flag OMX_BUFFERFLAG_CODECCONFIG =? 0) then
       try compressionID := peek32 pInputStream 16 in
       inr (if compressionID =? wmv3 then Some WMV_FORMAT_WMV3
            else if ((compressionID =? wvc1) || (compressionID =? wmva))%bool then Some WMV_FORMAT_VC1
            else None)
     else inr None) in
  match announced with
  | Some format => inr ((s32 buffSize, true), format)
  | None =>
      match gWvmFormat with
      | WMV_FORMAT_UNKNOWN => inr ((-1, false), gWvmFormat)
      | _ => inr ((s32 buffSize, true), gWvmFormat)
      end
  end.

Definition Vc1_Check_Stream_PrefixCode (streamSize : Z) (wmvFormat : WMV_FORMAT) : bool :=
  match wmvFormat with
  | WMV_FORMAT_WMV3 => 0 <? streamSize
  | WMV_FORMAT_VC1 => 3 <? streamSize
  | WMV_FORMAT_UNKNOWN => false
  end.

Definition BITMAPINFOHEADER_SIZE : Z := 40.
Definition BITMAPINFOHEADER_ASFBINDING_SIZE : Z := 41.

(** [memcpy(dest + off, bytes, n)] of known bytes. *)
Definition poke (l : stream) (off : Z) (bytes : stream) : fault + stream :=
  if (off + zlength bytes <=? zlength l)
  then inr (take (Z.to_nat off) l ++ bytes ++ drop (Z.to_nat (off + zlength bytes)) l)
  else inl OutOfBounds.
Definition le32_bytes (x : Z) : stream :=
  Some <$> [Z.land x 0xFF; Z.land (Z.shiftr x 8) 0xFF; Z.land (Z.shiftr x 16) 0xFF; Z.land (Z.shiftr x 24) 0xFF].
Definition const_C5 : stream := Some <$> [0x00; 0x00; 0x00; 0xc5].
Definition const_04 : stream := Some <$> [0x04; 0x00; 0x00; 0x00].
Definition const_0C : stream := Some <$> [0x0C; 0x00; 0x00; 0x00].
Definition struct_B_1 : stream := Some <$> [0xB3; 0x19; 0x00; 0x00].
Definition struct_B_2 : stream := Some <$> [0x44; 0x62; 0x05; 0x00].
Definition struct_B_3 : stream := Some <$> [0x0F; 0x00; 0x00; 0x00].
Definition struct_C : stream := Some <$> [0x30; 0x00; 0x00; 0x00].

(** The stream and its size after the call, and the result.  The copy of the VC-1
    branch is a [memcpy] between overlapping areas when more than the header's size is
    copied: undefined, a fault of the model. *)
Definition Make_Stream_MetaData (pInputStream : stream) (pStreamSize : Z) (wmvFormat : WMV_FORMAT)
  : fault + (stream * Z * bool) :=
  match wmvFormat with
  | WMV_FORMAT_WMV3 =>
      if BITMAPINFOHEADER_SIZE <=? pStreamSize then
        try width := peek32 pInputStream 4 in
        try height := peek32 pInputStream 8 in
        try c :=
          (if BITMAPINFOHEADER_SIZE <? pStreamSize
           then if (BITMAPINFOHEADER_SIZE + 4 <=? zlength pInputStream)
                then inr (take 4 (drop (Z.to_nat BITMAPINFOHEADER_SIZE) pInputStream)) else inl OutOfBounds
           else inr struct_C) in
        try l := poke pInputStream 0 const_C5 in
        try l := poke l 4 const_04 in
        try l := poke l 8 c in
        try l := poke l 12 (le32_bytes height) in
        try l := poke l 16 (le32_bytes width) in
        try l := poke l 20 const_0C in
        try l := poke l 24 struct_B_1 in
        try l := poke l 28 struct_B_2 in
        try l := poke l 32 struct_B_3 in
        inr (l, 36, true)
      else inr (pInputStream, pStreamSize, false)
  | WMV_FORMAT_VC1 =>
      if BITMAPINFOHEADER_ASFBINDING_SIZE <=? pStreamSize then
        let n := pStreamSize - BITMAPINFOHEADER_ASFBINDING_SIZE in
        if zlength pInputStream <? pStreamSize then inl OutOfBounds
        else if BITMAPINFOHEADER_ASFBINDING_SIZE <? n then inl Overlap
        else
          try l := poke pInputStream 0
            (take (Z.to_nat n) (drop (Z.to_nat BITMAPINFOHEADER_ASFBINDING_SIZE) pInputStream)) in
          inr (l, n, true)
      else inr (pInputStream, pStreamSize, false)
  | WMV_FORMAT_UNKNOWN => inr (pInputStream, pStreamSize, false)
  end.

(** [memmove(p + 4, p, streamSize)] and the start code in front. *)
Definition Make_Stream_StartCode (pInputStream : stream) (streamSize : Z) (wmvFormat : WMV_FORMAT)
  : fault + (stream * bool) :=
  match wmvFormat with
  | WMV_FORMAT_WMV3 => inr (pInputStream, true)
  | WMV_FORMAT_VC1 =>
      if zlength pInputStream <? streamSize then inl OutOfBounds
      else
        try l := poke pInputStream 4 (take (Z.to_nat streamSize) pInputStream) in
        try l := poke l 0 (Some <$> [0x00; 0x00; 0x01; 0x0d]) in
        inr (l, true)
  | WMV_FORMAT_UNKNOWN => inr (pInputStream, false)
  end.
End Vc1.

(** ** VP8 *)
Module Vp8.
(** The test of a key frame's start code; a byte is read only when the one before it
    matched. *)
Definition key_frame_code (pInputStream : stream) : fault + bool :=
  try b3 := peek pInputStream 3 in
  if negb (b3 =? 0x9d) then inr false
  else
    try b4 := peek pInputStream 4 in
    if negb (b4 =? 0x01) then inr false
    else try b5 := peek pInputStream 5 in inr (b5 =? 0x2a).

Definition Check_VP8_Frame (pInputStream : stream) (buffSize flag : Z) (bPreviousFrameEOF : bool) : verdict :=
  try b0 := peek pInputStream 0 in
  if Z.land b0 0x01 =? 0 then
    try found := key_frame_code pInputStream in
    (* the resolution is read and logged *)
    try b6 := peek pInputStream 6 in
    try b7 := peek pInputStream 7 in
    try b8 := peek pInputStream 8 in
    try b9 := peek pInputStream 9 in
    inr (s32 buffSize, found)
  else inr (s32 buffSize, true).

Definition Check_VP8_StartCode (pInputStream : stream) (streamSize : Z) : fault + bool :=
  if streamSize <? 3 then inr false
  else
    try b0 := peek pInputStream 0 in
    if Z.land b0 0x01 =? 0 then key_frame_code pInputStream else inr true.
End Vp8.

(** ** Windows of four bytes

    The searches keep the last four bytes in a word that starts with all bits set. *)
Definition quad (a b c d : Z) : Z := a * 2 ^ 24 + b * 2 ^ 16 + c * 2 ^ 8 + d.
Definition padded (bs : bytes) : bytes := [255; 255; 255; 255] ++ bs.
Record window (bs : bytes) (k : nat) (a b c d : Z) : Prop := {
  win_a : padded bs !! k = Some a;
  win_b : padded bs !! S k = Some b;
  win_c : padded bs !! S (S k) = Some c;
  win_d : padded bs !! S (S (S k)) = Some d
}.

Lemma padded_bytes bs i x : Forall is_byte bs -> padded bs !! i = Some x -> is_byte x.
Proof.
  intros Hbs. apply (Forall_lookup_1 is_byte). unfold padded. unfold is_byte in *.
  repeat constructor; done || lia.
Qed.

Lemma window_start bs : window bs 0 255 255 255 255.
Proof. by split. Qed.
Lemma window_next bs k a b c d e : window bs k a b c d -> bs !! k = Some e -> window bs (S k) b c d e.
Proof. intros [] He. by split. Qed.

(** A byte of the window that cannot be padding. *)
Lemma padded_lookup bs i x : padded bs !! i = Some x -> x <> 255 -> (4 <= i)%nat /\ bs !! (i - 4)%nat = Some x.
Proof.
  intros Hx Hne. destruct (decide (i < 4)%nat) as [Hlt|Hge].
  - assert (i = 0 \/ i = 1 \/ i = 2 \/ i = 3)%nat as [-> | [-> | [-> | ->]]] by lia; by injection Hx as <-.
  - split; [lia|]. unfold padded in Hx. by rewrite lookup_app_r in Hx by (simpl; lia).
Qed.

Lemma quad_push a b c d e : is_byte b -> is_byte c -> is_byte d -> is_byte e ->
  H264.push (quad a b c d) e = quad b c d e.
Proof.
  unfold is_byte, H264.push, quad. intros. rewrite Z.shiftl_mul_pow2 by lia.
  replace ((a * 2 ^ 24 + b * 2 ^ 16 + c * 2 ^ 8 + d) * 2 ^ 8)
    with (b * 2 ^ 24 + c * 2 ^ 16 + d * 2 ^ 8 + a * 2 ^ 32) by lia.
  unfold u32, wrapu. rewrite Z.mod_add, (Z.mod_small (_ + d * _)) by lia. apply Z.mod_small. lia.
Qed.

Lemma quad_shift a b c d : is_byte b -> is_byte c -> is_byte d ->
  u32 (Z.shiftl (quad a b c d) 8) = quad b c d 0.
Proof.
  unfold is_byte, quad. intros. rewrite Z.shiftl_mul_pow2 by lia.
  replace ((a * 2 ^ 24 + b * 2 ^ 16 + c * 2 ^ 8 + d) * 2 ^ 8)
    with (b * 2 ^ 24 + c * 2 ^ 16 + d * 2 ^ 8 + a * 2 ^ 32) by lia.
  unfold u32, wrapu. rewrite Z.mod_add, Z.mod_small by lia. lia.
Qed.

Lemma quad_inj a b c d x y z t : is_byte a -> is_byte b -> is_byte c -> is_byte d ->
  is_byte x -> is_byte y -> is_byte z -> is_byte t ->
  quad a b c d = quad x y z t -> a = x /\ b = y /\ c = z /\ d = t.
Proof. unfold is_byte, quad. lia. Qed.

(** ** The first number with a property *)
Lemma find_seq_Some P n j :
  (j < n)%nat -> P j = true -> (forall i, (i < j)%nat -> P i = false) -> List.find P (seq 0 n) = Some j.
Proof.
  intros Hj HP Hmin. replace n with (j + S (n - S j))%nat by lia. rewrite seq_app. simpl.
  assert (forall m, (m <= j)%nat -> List.find P (seq 0 m ++ j :: seq (S j) (n - S j)) = Some j) as Hall; [|by apply Hall].
  intros m Hm. enough (forall l k, (forall i, In i l -> P i = false) -> List.find P (l ++ k) = List.find P k) as Hskip.
  { rewrite Hskip; [simpl; by rewrite HP|]. intros i Hi%in_seq. apply Hmin. lia. }
  induction l as [|x l IH]; intros k Hl; [done|]. simpl. rewrite Hl by by left. apply IH. intros i Hi. apply Hl. by right.
Qed.
Lemma find_seq_None P n : (forall i, (i < n)%nat -> P i = false) -> List.find P (seq 0 n) = None.
Proof.
  intros Hall. destruct (List.find P (seq 0 n)) as [i|] eqn:Hf; [|done].
  apply find_some in Hf as [Hi%in_seq HP]. rewrite Hall in HP by lia. done.
Qed.

(** ** The boundary of an H.264 access unit *)
Section h264_spec.
Context `{H264Build} (bs : bytes) (prev : bool).

(** [00 00 01] at [j], and the type of the NAL unit after it. *)
Definition code_at (j : nat) : bool := bool_decide (take 3 (drop j bs) = [0; 0; 1]).
Definition nal_type (j : nat) : option Z :=
  if code_at j then (fun b => Z.land b 0x1F) <$> bs !! (j + 3)%nat else None.
(** A unit that begins an access unit: a slice, or a parameter set unless these go with
    what follows. *)
Definition opens (j : nat) : bool :=
  match nal_type j with
  | Some t => bool_decide (t ∈ if ADD_SPS_PPS_I_FRAME then [1; 5] else [1; 5; 7; 8])
  | None => false
  end.
(** A delimiter, or the first slice of a picture ([first_mb_in_slice] is 0). *)
Definition closes (j : nat) : bool :=
  match nal_type j with
  | Some t =>
      ((t =? 9) || (bool_decide (t ∈ [1; 5]) && match bs !! (j + 4)%nat with Some b => 0x80 <=? b | None => false end))%bool
  | None => false
  end.
(** The next access unit starts at the unit [j]: it closes the current one, which has
    begun before. *)
Definition ends (j : nat) : bool := (closes j && (negb prev || existsb opens (seq 0 j)))%bool.
(** The start code with the [zero_byte] in front of it. *)
Definition unit_start (j : nat) : nat :=
  match j with
  | O => O
  | S i => match bs !! i with Some 0 => i | _ => j end
  end.
End h264_spec.

(** What the search knows of the last bytes: [5] is [00 00 00 01], [4] is [00 00 01]
    after something else, [1], [2], [3] count zeros. *)
Definition cls (a b c d : Z) : nat :=
  if ((b =? 0) && (c =? 0) && (d =? 1))%bool then (if a =? 0 then 5%nat else 4%nat)
  else if d =? 0 then (if c =? 0 then (if b =? 0 then 3%nat else 2%nat) else 1%nat) else 0%nat.

Definition delta (q : nat) (e : Z) : nat :=
  if e =? 0 then (match q with 1 => 2 | 2 | 3 => 3 | _ => 1 end)%nat
  else if e =? 1 then (match q with 3 => 5 | 2 => 4 | _ => 0 end)%nat else 0%nat.

Lemma cls_delta a b c d e : cls b c d e = delta (cls a b c d) e.
Proof.
  unfold cls, delta.
  destruct (Z.eqb_spec a 0), (Z.eqb_spec b 0), (Z.eqb_spec c 0), (Z.eqb_spec d 0), (Z.eqb_spec d 1),
    (Z.eqb_spec e 0), (Z.eqb_spec e 1); simpl; done || lia.
Qed.

(** A unit header is not part of a start code: leaving it out changes nothing. *)
Lemma delta_skip q h e : (4 <= q)%nat -> h <> 0 -> delta q e = delta (delta q h) e.
Proof.
  intros Hq Hh. unfold delta. rewrite (proj2 (Z.eqb_neq h 0)) by done.
  destruct q as [|[|[|[|[|[|q]]]]]]; try lia; by destruct (h =? 1), (e =? 0), (e =? 1).
Qed.

Lemma start_code_cls a b c d : is_byte a -> is_byte b -> is_byte c -> is_byte d ->
  H264.start_code (quad a b c d) = bool_decide (4 <= cls a b c d)%nat /\
  (quad a b c d =? 1) = bool_decide (cls a b c d = 5%nat).
Proof.
  intros. unfold H264.start_code. rewrite quad_shift by done. unfold cls, quad.
  unfold is_byte in *.
  destruct (Z.eqb_spec a 0), (Z.eqb_spec b 0), (Z.eqb_spec c 0), (Z.eqb_spec d 0), (Z.eqb_spec d 1); simpl; subst;
    try lia; split; repeat case_bool_decide; try lia;
    repeat (rewrite (proj2 (Z.eqb_neq _ _)) by lia || rewrite (proj2 (Z.eqb_eq _ _)) by lia); done || lia.
Qed.

Lemma window_code bs k a b c d : window bs k a b c d ->
  (4 <= cls a b c d)%nat <-> (3 <= k)%nat /\ code_at bs (k - 3) = true.
Proof.
  intros [Ha Hb Hc Hd]. unfold code_at. rewrite bool_decide_eq_true. split.
  - intros Hq. unfold cls in Hq.
    destruct (Z.eqb_spec b 0), (Z.eqb_spec c 0), (Z.eqb_spec d 1); simpl in Hq;
      try (destruct (d =? 0), (c =? 0), (b =? 0); lia); try (destruct (d =? 0); lia). subst.
    apply padded_lookup in Hb as [Hk Hb]; [|done]. apply padded_lookup in Hc as [_ Hc]; [|done].
    apply padded_lookup in Hd as [_ Hd]; [|done]. split; [lia|].
    rewrite (drop_S _ 0) by (rewrite <- Hb; f_equal; lia).
    rewrite (drop_S _ 0) by (rewrite <- Hc; f_equal; lia).
    rewrite (drop_S _ 1) by (rewrite <- Hd; f_equal; lia). done.
  - intros [Hk Htake].
    assert (forall i x, [0; 0; 1] !! i = Some x -> bs !! (k - 3 + i)%nat = Some x) as Hat.
    { intros i x Hi. rewrite <- lookup_drop. rewrite <- Htake in Hi.
      pose proof (lookup_lt_Some _ _ _ Hi) as Hlt. rewrite length_take in Hlt.
      by rewrite lookup_take_lt in Hi by lia. }
    unfold padded in *. rewrite lookup_app_r in Hb, Hc, Hd by (simpl; lia). simpl in Hb, Hc, Hd.
    pose proof (Hat 0%nat _ eq_refl) as H0. pose proof (Hat 1%nat _ eq_refl) as H1.
    pose proof (Hat 2%nat _ eq_refl) as H2.
    replace (k - 3 + 0)%nat with (k - 3)%nat in H0 by lia.
    replace (k - 3 + 1)%nat with (k - 2)%nat in H1 by lia.
    replace (k - 3 + 2)%nat with (k - 1)%nat in H2 by lia.
    rewrite Hb in H0. rewrite Hc in H1. rewrite Hd in H2. simplify_eq. unfold cls. simpl. by case_match; lia.
Qed.

Lemma peek_byte (bs : bytes) rest k b : bs !! k = Some b -> peek ((Some <$> bs) ++ rest) (Z.of_nat k) = inr b.
Proof.
  intros Hb. unfold peek. rewrite zlookup_of_nat, lookup_app_l, list_lookup_fmap, Hb; [done|].
  rewrite length_fmap. by eapply lookup_lt_Some.
Qed.

Lemma slice_types t : H264.slice t = bool_decide (t ∈ [1; 5]).
Proof.
  unfold H264.slice. apply eq_true_iff_eq. rewrite bool_decide_eq_true, !elem_of_cons, elem_of_nil,
    orb_true_iff, !Z.eqb_eq. tauto.
Qed.

Lemma opening_types `{H264Build} t :
  H264.opening t = bool_decide (t ∈ if ADD_SPS_PPS_I_FRAME then [1; 5] else [1; 5; 7; 8]).
Proof.
  unfold H264.opening. destruct ADD_SPS_PPS_I_FRAME; apply eq_true_iff_eq;
    rewrite bool_decide_eq_true, !elem_of_cons, elem_of_nil, !orb_true_iff, !Z.eqb_eq; tauto.
Qed.

Section h264_scan.
Context `{H264Build} (bs : bytes) (prev : bool) (rest : stream).
Hypothesis (Hbs : Forall is_byte bs) (Hlen : zlength bs < 2 ^ 31).

(** What the loop knows after [k] bytes. *)
Record scanned (k : nat) (pre : Z) (st : bool) : Prop := {
  sc_pre : exists a b c d a' b' c' d', window bs k a b c d /\
    is_byte a' /\ is_byte b' /\ is_byte c' /\ is_byte d' /\
    pre = quad a' b' c' d' /\ cls a' b' c' d' = cls a b c d;
  sc_started : st = (negb prev || existsb (opens bs) (seq 0 (k - 3)))%bool;
  sc_none : forall j, (j + 3 < k)%nat -> ends bs prev j = false
}.

Lemma scanned_start : scanned 0 0xFFFFFFFF (negb prev).
Proof.
  split.
  - exists 255, 255, 255, 255, 255, 255, 255, 255. split; [apply window_start|]. by unfold is_byte.
  - simpl. by rewrite orb_false_r.
  - lia.
Qed.

Lemma scanned_code k pre st : scanned k pre st ->
  H264.start_code pre = true <-> (3 <= k)%nat /\ code_at bs (k - 3) = true.
Proof.
  intros [(a & b & c & d & a' & b' & c' & d' & Hw & Ha & Hb & Hc & Hd & -> & Hcls) _ _].
  rewrite (proj1 (start_code_cls a' b' c' d' Ha Hb Hc Hd)), Hcls, bool_decide_eq_true. by apply window_code.
Qed.

(** The byte before the start code. *)
Lemma scanned_zero k pre st : scanned k pre st -> H264.start_code pre = true ->
  Z.of_nat (unit_start bs (k - 3)) = (if pre =? 1 then Z.of_nat k - 4 else Z.of_nat k - 3).
Proof.
  intros Hs Hcode. pose proof (proj1 (scanned_code _ _ _ Hs) Hcode) as [Hk Hat].
  destruct Hs as [(a & b & c & d & a' & b' & c' & d' & Hw & Ha & Hb & Hc & Hd & -> & Hcls) _ _].
  rewrite (proj2 (start_code_cls a' b' c' d' Ha Hb Hc Hd)), Hcls.
  assert (4 <= cls a b c d)%nat as Hq by by apply (window_code bs k).
  unfold cls in Hq |- *. destruct ((b =? 0) && (c =? 0) && (d =? 1))%bool; simpl.
  2: { by destruct (d =? 0), (c =? 0), (b =? 0); lia. }
  destruct (Z.eqb_spec a 0) as [->|Hne]; case_bool_decide; try lia.
  - pose proof (win_a _ _ _ _ _ _ Hw) as Hz. apply padded_lookup in Hz as [Hk4 Hz]; [|done].
    replace (k - 3)%nat with (S (k - 4)) by lia. simpl. rewrite Hz. lia.
  - destruct (k - 3)%nat as [|i] eqn:Hi; simpl; [lia|].
    pose proof (win_a _ _ _ _ _ _ Hw) as Hz. unfold padded in Hz. rewrite lookup_app_r in Hz by (simpl; lia).
    simpl in Hz. replace (k - 4)%nat with i in Hz by lia. rewrite Hz. destruct a; done || lia.
Qed.

Lemma scanned_nal k pre st b : scanned k pre st -> H264.start_code pre = true -> bs !! k = Some b ->
  nal_type bs (k - 3) = Some (Z.land b 0x1F).
Proof.
  intros Hs Hcode Hb. apply (scanned_code _ _ _ Hs) in Hcode as [Hk Hat]. unfold nal_type. rewrite Hat.
  replace (k - 3 + 3)%nat with k by lia. by rewrite Hb.
Qed.

Lemma seq_next k : (3 <= k)%nat -> seq 0 (S k - 3) = seq 0 (k - 3) ++ [(k - 3)%nat].
Proof. intros Hk. replace (S k - 3)%nat with (k - 3 + 1)%nat by lia. by rewrite seq_app. Qed.

Lemma scanned_next k pre st b st' :
  scanned k pre st -> bs !! k = Some b ->
  ((3 <= k)%nat -> ends bs prev (k - 3) = false /\ st' = (st || opens bs (k - 3))%bool) ->
  ((k < 3)%nat -> st' = st) ->
  scanned (S k) (H264.push pre b) st'.
Proof.
  intros [(a & b0 & c & d & a' & b' & c' & d' & Hw & Ha & Hb' & Hc & Hd & -> & Hcls) Hst Hnone] Hb Hge Hlt.
  assert (is_byte b) as Hbb by by apply (Forall_lookup_1 _ _ _ _ Hbs Hb).
  split.
  - exists b0, c, d, b, b', c', d', b. split; [by eapply window_next|]. split_and!; try done.
    + by apply quad_push.
    + by rewrite (cls_delta a'), (cls_delta a b0), Hcls.
  - destruct (decide (3 <= k)%nat) as [Hk|Hk].
    + destruct (Hge Hk) as [_ ->]. rewrite seq_next, existsb_app by done. simpl.
      by rewrite Hst, orb_false_r, orb_assoc.
    + rewrite Hlt, Hst by lia. by replace (S k - 3)%nat with (k - 3)%nat by lia.
  - intros j Hj. destruct (decide (j + 3 < k)%nat); [by apply Hnone|].
    replace j with (k - 3)%nat by lia. apply Hge. lia.
Qed.

(** The header of a slice is read past the window. *)
Lemma scanned_skip k pre st h e :
  scanned k pre st -> H264.start_code pre = true -> bs !! k = Some h -> bs !! S k = Some e ->
  H264.slice (Z.land h 0x1F) = true -> ends bs prev (k - 3) = false -> st = true ->
  scanned (S (S k)) (H264.push pre e) st.
Proof.
  intros Hs Hcode Hh He Hsl Hno ->. pose proof (proj1 (scanned_code _ _ _ Hs) Hcode) as [Hk Hat].
  assert (h <> 0) as Hh0 by by intros ->.
  assert (is_byte h /\ is_byte e) as [Hbh Hbe] by (split; eapply Forall_lookup_1; done).
  assert (scanned (S k) (H264.push pre h) true) as Hs1.
  { apply (scanned_next k pre true); [done|done| |done]. intros _. by split. }
  assert (H264.start_code (H264.push pre h) = false) as Hno1.
  { destruct Hs as [(? & ? & ? & ? & a & b & c & d & _ & Ha & Hb & Hc & Hd & -> & Hcls) _ _].
    rewrite (proj1 (start_code_cls a b c d Ha Hb Hc Hd)), bool_decide_eq_true in Hcode.
    rewrite quad_push, (proj1 (start_code_cls b c d h Hb Hc Hd Hbh)), (cls_delta a) by done.
    apply bool_decide_eq_false. unfold delta. rewrite (proj2 (Z.eqb_neq h 0)) by done.
    destruct (h =? 1); [|lia]. destruct (cls a b c d) as [|[|[|[|]]]]; lia. }
  assert (nal_type bs (S k - 3) = None) as Hnal.
  { unfold nal_type. destruct (code_at bs (S k - 3)) eqn:Hc; [|done].
    assert (H264.start_code (H264.push pre h) = true); [|congruence].
    apply (scanned_code _ _ _ Hs1). split; [lia|done]. }
  assert (scanned (S (S k)) (H264.push (H264.push pre h) e) true) as Hs2.
  { apply (scanned_next (S k) _ true); [done|done| |done]. intros _.
    unfold ends, closes. by rewrite Hnal. }
  destruct Hs2 as [(a & b & c & d & a2 & b2 & c2 & d2 & Hw & Ha2 & Hb2 & Hc2 & Hd2 & Heq & Hcls2) Hst Hnone].
  destruct Hs as [(? & ? & ? & ? & a1 & b1 & c1 & d1 & _ & Ha1 & Hb1 & Hc1 & Hd1 & -> & Hcls1) _ _].
  rewrite (proj1 (start_code_cls a1 b1 c1 d1 Ha1 Hb1 Hc1 Hd1)), bool_decide_eq_true in Hcode.
  rewrite !quad_push in Heq by done. apply quad_inj in Heq as (<- & <- & <- & <-); [|done..].
  split; [|done|done]. exists a, b, c, d, b1, c1, d1, e. split_and!; try done; [by apply quad_push|].
  rewrite <- Hcls2, (cls_delta a1 b1 c1 d1), (cls_delta b1 c1 d1 h), (cls_delta a1 b1 c1 d1). by apply delta_skip.
Qed.

(** The result of the search. *)
Definition access_unit (v : verdict) : Prop :=
  match List.find (ends bs prev) (seq 0 (length bs)) with
  | Some j => v = inr (Z.of_nat (unit_start bs j), true)
  | None => exists n, zlength bs - 1 <= n <= zlength bs /\ v = inr (n, false)
  end.

Lemma ends_found k pre st b : scanned k pre st -> H264.start_code pre = true -> bs !! k = Some b ->
  ends bs prev (k - 3) = true -> List.find (ends bs prev) (seq 0 (length bs)) = Some (k - 3)%nat.
Proof.
  intros Hs Hcode Hb He. apply find_seq_Some; [|done|].
  - apply lookup_lt_Some in Hb. lia.
  - intros i Hi. apply (sc_none _ _ _ Hs). lia.
Qed.

Lemma ends_beyond j : bs !! (j + 3)%nat = None -> ends bs prev j = false.
Proof. intros Hj. unfold ends, closes, nal_type. rewrite Hj. by destruct (code_at bs j). Qed.

Lemma scan_spec fuel : forall k pre st,
  scanned k pre st -> (k <= length bs)%nat -> (length bs - k < fuel)%nat ->
  access_unit (H264.access_unit_loop fuel ((Some <$> bs) ++ rest) (zlength bs) pre (Z.of_nat k) st).
Proof.
  unfold access_unit. induction fuel as [|fuel IH]; intros k pre st Hs Hk Hfuel; [lia|].
  cbn [H264.access_unit_loop]. unfold zlength in *. rewrite s32_small by lia.
  destruct (Z.eqb_spec (Z.of_nat k) (Z.of_nat (length bs))) as [Heq|Hne].
  { rewrite find_seq_None; [by eexists; split; [|done]; lia|]. intros j Hj.
    destruct (decide (j + 3 < k)%nat); [by apply (sc_none _ _ _ Hs)|]. apply ends_beyond, lookup_ge_None. lia. }
  destruct (lookup_lt_is_Some_2 bs k) as [b Hb]; [lia|]. rewrite (peek_byte bs rest k b) by done. cbn [res_bind].
  replace (Z.of_nat k + 1) with (Z.of_nat (S k)) by lia.
  assert (forall st', ((3 <= k)%nat -> ends bs prev (k - 3) = false /\ st' = (st || opens bs (k - 3))%bool) ->
    ((k < 3)%nat -> st' = st) ->
    access_unit (H264.access_unit_loop fuel ((Some <$> bs) ++ rest) (Z.of_nat (length bs)) (H264.push pre b) (Z.of_nat (S k)) st'))
    as Hgo.
  { intros st' H1 H2. apply IH; [by eapply scanned_next|lia|lia]. }
  unfold access_unit in Hgo. destruct (H264.start_code pre) eqn:Hcode.
  - pose proof (scanned_nal _ _ _ _ Hs Hcode Hb) as Hnal. pose proof (scanned_zero _ _ _ Hs Hcode) as Hzero.
    pose proof (proj1 (scanned_code _ _ _ Hs) Hcode) as [Hk3 _].
    pose proof (sc_started _ _ _ Hs) as Hst.
    assert (opens bs (k - 3) = H264.opening (Z.land b 31)) as Hopen
      by (unfold opens; by rewrite Hnal, opening_types).
    assert (ends bs prev (k - 3) = (closes bs (k - 3) && st)%bool) as Hends by (unfold ends; by rewrite Hst).
    assert (closes bs (k - 3) = ((Z.land b 31 =? 9) || (H264.slice (Z.land b 31) &&
      match bs !! S k with Some e => 0x80 <=? e | None => false end))%bool) as Hclose.
    { unfold closes. rewrite Hnal, slice_types. by replace (k - 3 + 4)%nat with (S k) by lia. }
    destruct st; cbn [negb].
    2: { apply Hgo; [|lia]. intros _. by rewrite Hends, Hopen, andb_false_r. }
    destruct (Z.land b 31 =? 9) eqn:Hnine.
    { rewrite (ends_found k pre true b), Hzero by (done || by rewrite Hends, Hclose).
      unfold H264.boundary. destruct (pre =? 1); simpl; do 2 f_equal; lia. }
    destruct (H264.slice (Z.land b 31)) eqn:Hslice.
    2: { apply Hgo; [|lia]. intros _. by rewrite Hends, Hclose. }
    destruct (Z.eqb_spec (Z.of_nat (S k)) (Z.of_nat (length bs))) as [Hend|Hmore].
    { rewrite find_seq_None; [by eexists; split; [|done]; lia|]. intros j Hj.
      destruct (decide (j + 3 < k)%nat); [by apply (sc_none _ _ _ Hs)|].
      destruct (decide (j = k - 3)%nat) as [->|]; [|apply ends_beyond, lookup_ge_None; lia].
      by rewrite Hends, Hclose, lookup_ge_None_2 by lia. }
    destruct (lookup_lt_is_Some_2 bs (S k)) as [e He]; [lia|].
    rewrite (peek_byte bs rest (S k) e) by done. cbn [res_bind]. rewrite He in Hclose.
    destruct (0x80 <=? e) eqn:Hfirst.
    { rewrite (ends_found k pre true b), Hzero by (done || by rewrite Hends, Hclose).
      unfold H264.boundary. destruct (pre =? 1); simpl; do 2 f_equal; lia. }
    replace (Z.of_nat (S k) + 1) with (Z.of_nat (S (S k))) by lia.
    apply IH; [|lia|lia]. apply (scanned_skip k pre true b e); try done. by rewrite Hends, Hclose.
  - apply Hgo; [|done]. intros Hk3.
    assert (nal_type bs (k - 3) = None) as Hnal.
    { unfold nal_type. destruct (code_at bs (k - 3)) eqn:Hc; [|done].
      assert (H264.start_code pre = true); [|congruence]. by apply (scanned_code _ _ _ Hs). }
    unfold ends, closes, opens. rewrite Hnal. by rewrite orb_false_r.
Qed.
End h264_scan.

Lemma H264_access_unit `{H264Build} bs prev rest flag :
  Forall is_byte bs -> zlength bs < 2 ^ 31 ->
  access_unit bs prev (H264.Check_H264_Frame ((Some <$> bs) ++ rest) (zlength bs) flag prev).
Proof.
  intros Hbs Hlen. unfold H264.Check_H264_Frame.
  apply (scan_spec bs prev rest Hbs Hlen _ 0); [apply scanned_start|lia|]. rewrite length_app, length_fmap. lia.
Qed.

(** C17: [Check_H264_Frame] finds the end of an access unit: the first NAL unit that is an
    access unit delimiter or a slice starting a new picture, after the unit has begun
    (with a slice of this buffer, or a parameter set unless the build option
    [ADD_SPS_PPS_I_FRAME] says that these go with what follows, or in an earlier buffer).  It returns
    the position of that unit's start code, of three or four bytes; without such a unit
    it reports that the frame goes on.  It terminates and reads only the [buffSize]
    bytes it was given. *)
Theorem Check_H264_Frame_spec `{H264Build} bs prev rest flag :
  Forall is_byte bs -> zlength bs < 2 ^ 31 ->
  match List.find (ends bs prev) (seq 0 (length bs)) with
  | Some j => H264.Check_H264_Frame ((Some <$> bs) ++ rest) (zlength bs) flag prev =
                inr (Z.of_nat (unit_start bs j), true)
  | None => exists n, zlength bs - 1 <= n <= zlength bs /\
              H264.Check_H264_Frame ((Some <$> bs) ++ rest) (zlength bs) flag prev = inr (n, false)
  end.
Proof. intros Hbs Hlen. by apply H264_access_unit. Qed.

(** ** Codes that do not overlap

    The searches of MPEG-4 and H.263 look for a code of [width] bytes, where [at_ j] says
    that it is at [j]. *)
Section codes.
Context (at_ : nat -> bool) (width len : nat).
Hypothesis (Hwidth : (0 < width)%nat) (Hinside : forall j, at_ j = true -> (j + width <= len)%nat).
Hypothesis (Hapart : forall i j, at_ i = true -> at_ j = true -> (i < j)%nat -> (i + width <= j)%nat).

Definition codes_from (k : nat) : list nat := List.filter at_ (seq k (len - k)).
(** The search from [from] on stops after [k] bytes. *)
Definition hit (from k : nat) : bool := (bool_decide (from + width <= k)%nat && at_ (k - width))%bool.

Lemma codes_from_head k j l : codes_from k = j :: l ->
  (k <= j)%nat /\ at_ j = true /\ (forall i, (k <= i < j)%nat -> at_ i = false) /\ l = codes_from (j + width).
Proof.
  unfold codes_from. intros Hc.
  assert (forall n k, List.filter at_ (seq k n) = j :: l ->
    (k <= j < k + n)%nat /\ at_ j = true /\ (forall i, (k <= i < j)%nat -> at_ i = false) /\
    l = List.filter at_ (seq (S j) (k + n - S j))) as Hgen.
  { clear k Hc. induction n as [|n IH]; intros k Hc; [done|]. simpl in Hc. destruct (at_ k) eqn:Hk.
    - injection Hc as -> <-. split; [lia|]. split; [done|]. split; [lia|]. do 2 f_equal. lia.
    - apply IH in Hc as (Hr & Hj & Hno & ->). split; [lia|]. split; [done|]. split; [|do 2 f_equal; lia].
      intros i Hi. destruct (decide (i = k)) as [->|]; [done|]. apply Hno. lia. }
  apply Hgen in Hc as (Hr & Hj & Hno & ->). split; [lia|]. split; [done|]. split; [done|].
  pose proof (Hinside j Hj). replace (k + (len - k) - S j)%nat with ((width - 1) + (len - (j + width)))%nat by lia.
  rewrite seq_app, List.filter_app.
  replace (List.filter at_ (seq (S j) (width - 1))) with (@nil nat).
  { simpl. do 2 f_equal. lia. }
  symmetry. assert (forall n, (n < width)%nat -> List.filter at_ (seq (S j) n) = []) as Hnil; [|apply Hnil; lia].
  induction n as [|n IH]; intros Hn; [done|]. rewrite seq_S, List.filter_app, IH by lia. simpl.
  destruct (at_ (S (j + n))) eqn:Hat; [|done]. pose proof (Hapart _ _ Hj Hat ltac:(lia)). lia.
Qed.

Lemma codes_from_nil k : codes_from k = [] -> forall i, (k <= i)%nat -> at_ i = false.
Proof.
  intros Hc i Hi. destruct (at_ i) eqn:Hat; [|done]. pose proof (Hinside i Hat).
  assert (In i (codes_from k)) as Hin; [|by rewrite Hc in Hin]. apply List.filter_In. split; [|done].
  apply in_seq. lia.
Qed.

(** The loop. *)
Context {W : Type} (found : W -> bool) (next : W -> Z -> fault + W) (inv : nat -> nat -> W -> Prop).
Hypothesis (Hfound : forall from k w, inv from k w -> found w = hit from k).
Hypothesis (Hnext : forall from k w, inv from k w -> (k <= len)%nat ->
  exists w', next w (Z.of_nat k) = inr w' /\ ((k < len)%nat -> inv from (S k) w')).

Lemma seek_spec from fuel : forall k w, inv from k w -> (from <= k <= len)%nat -> (len - k < fuel)%nat ->
  (forall i, (from <= i)%nat -> (i + width < k)%nat -> at_ i = false) ->
  Mpeg4.seek found next fuel (Z.of_nat len) w (Z.of_nat k) =
  match codes_from from with
  | j :: _ => inr (Z.of_nat (j + width), true)
  | [] => inr (Z.of_nat len + 1, false)
  end.
Proof.
  induction fuel as [|fuel IH]; intros k w Hinv Hk Hfuel Hno; [lia|]. simpl. rewrite (Hfound _ _ _ Hinv).
  destruct (hit from k) eqn:Hhit.
  { unfold hit in Hhit. zbool. destruct (codes_from from) as [|j l] eqn:Hc.
    { pose proof (codes_from_nil _ Hc (k - width) ltac:(lia)). congruence. }
    apply codes_from_head in Hc as (Hj & Hat & Hmin & _). do 3 f_equal.
    destruct (lt_eq_lt_dec j (k - width)) as [[Hlt| ->]|Hgt]; [|lia|].
    - rewrite (Hno j) in Hat by lia. done.
    - pose proof (Hmin (k - width)%nat ltac:(lia)). congruence. }
  destruct (Hnext _ _ _ Hinv ltac:(lia)) as (w' & -> & Hinv'). cbn [res_bind].
  destruct (Z.ltb_spec (Z.of_nat len) (Z.of_nat k + 1)).
  - destruct (codes_from from) as [|j l] eqn:Hc; [do 2 f_equal; lia|].
    apply codes_from_head in Hc as (Hj & Hat & _ & _). pose proof (Hinside _ Hat).
    destruct (decide (j + width < k)%nat) as [Hlt|Hge]; [by rewrite (Hno j) in Hat|].
    replace (k - width)%nat with j in Hhit by lia. unfold hit in Hhit.
    replace (k - width)%nat with j in Hhit by lia. rewrite Hat, bool_decide_eq_true_2 in Hhit by lia. done.
  - replace (Z.of_nat k + 1) with (Z.of_nat (S k)) by lia. apply IH; [apply Hinv'; lia|lia|lia|].
    intros i Hi Hik. destruct (decide (i + width < k)%nat); [by apply Hno|].
    unfold hit in Hhit. replace (k - width)%nat with i in Hhit by lia.
    rewrite bool_decide_eq_true_2 in Hhit by lia. done.
Qed.

(** What the two searches of a [Check_..._Frame] find: the second code of the buffer when
    a frame begins in it, the first one otherwise. *)
Lemma two_seeks (seek_from : Z -> verdict) (prev : bool) :
  (forall from, (from <= len)%nat -> seek_from (Z.of_nat from) =
     match codes_from from with
     | j :: _ => inr (Z.of_nat (j + width), true)
     | [] => inr (Z.of_nat len + 1, false)
     end) ->
  match codes_from 0 !! (if prev then 1 else 0)%nat with
  | Some j => exists e, (e + width <= len)%nat /\ (if prev then seek_from 0 else inr (0, true)) = inr (Z.of_nat e, true) /\
                seek_from (Z.of_nat e) = inr (Z.of_nat (j + width), true)
  | None => (prev = true /\ seek_from 0 = inr (Z.of_nat len + 1, false)) \/
      exists e, (e <= len)%nat /\ (if prev then seek_from 0 else inr (0, true)) = inr (Z.of_nat e, true) /\
        seek_from (Z.of_nat e) = inr (Z.of_nat len + 1, false)
  end.
Proof.
  intros Hseek. pose proof (Hseek 0%nat ltac:(lia)) as H0. change (Z.of_nat 0) with 0 in H0.
  destruct prev.
  - rewrite H0. destruct (codes_from 0) as [|j l] eqn:Hc; simpl; [by left|].
    apply codes_from_head in Hc as (_ & Hat & _ & ->). pose proof (Hinside _ Hat).
    destruct (codes_from (j + width)) as [|j2 l2] eqn:Hc2; simpl.
    + right. exists (j + width)%nat. split; [lia|]. split; [done|]. by rewrite Hseek, Hc2 by lia.
    + exists (j + width)%nat. apply codes_from_head in Hc2 as Hc2'. destruct Hc2' as (Hj2 & Hat2 & _).
      pose proof (Hinside _ Hat2). split; [lia|]. split; [done|]. by rewrite Hseek, Hc2 by lia.
  - destruct (codes_from 0) as [|j l] eqn:Hc; simpl.
    + right. exists 0%nat. split; [lia|]. by split.
    + exists 0%nat. apply codes_from_head in Hc as (_ & Hat & _). pose proof (Hinside _ Hat). split; [lia|]. by split.
Qed.
End codes.

Lemma quad_shift_in a b c d e : is_byte b -> is_byte c -> is_byte d -> is_byte e ->
  Mpeg4.shift_in (quad a b c d) e = quad b c d e.
Proof.
  intros Hb Hc Hd He. unfold Mpeg4.shift_in. rewrite quad_shift by done.
  replace (quad b c d 0) with (Z.shiftl (b * 2 ^ 16 + c * 2 ^ 8 + d) 8).
  2: { unfold quad. rewrite Z.shiftl_mul_pow2 by lia. lia. }
  rewrite <- Z.add_nocarry_lor.
  - unfold quad. rewrite Z.shiftl_mul_pow2 by lia. lia.
  - apply Z.bits_inj'. intros i Hi. rewrite Z.bits_0, Z.land_spec, Z.shiftl_spec by lia.
    destruct (Z.ltb_spec i 8); [by rewrite Z.testbit_neg_r by lia|].
    replace (Z.testbit e i) with false; [apply andb_false_r|]. symmetry. unfold is_byte in He.
    destruct (decide (e = 0)) as [->|]; [apply Z.bits_0|]. apply Z.bits_above_log2; [lia|].
    apply Z.lt_le_trans with 8; [|lia]. apply Z.log2_lt_pow2; lia.
Qed.

(** A list at a position. *)
Definition bytes_at (bs p : bytes) (j : nat) : bool := bool_decide (take (length p) (drop j bs) = p).
Lemma bytes_at_spec bs p j : bytes_at bs p j = true <-> forall i x, p !! i = Some x -> bs !! (j + i)%nat = Some x.
Proof.
  unfold bytes_at. rewrite bool_decide_eq_true. split.
  - intros Ht i x Hi. rewrite <- lookup_drop. rewrite <- Ht in Hi.
    pose proof (lookup_lt_Some _ _ _ Hi) as Hlt. rewrite length_take in Hlt. by rewrite lookup_take_lt in Hi by lia.
  - intros Hat. assert (length p <= length (drop j bs))%nat as Hle.
    { destruct p as [|y p]; [simpl; lia|]. destruct (lookup_lt_is_Some_2 (y :: p) (length p)) as [x Hx]; [simpl; lia|].
      apply Hat in Hx. apply lookup_lt_Some in Hx. rewrite length_drop. simpl. lia. }
    apply list_eq_same_length with (length p); [done|rewrite length_take; lia|].
    intros i x y Hi Hx Hy. rewrite lookup_take_lt, lookup_drop in Hx by done. apply Hat in Hy. congruence.
Qed.

(** ** The start codes of MPEG-4 *)
Section mpeg4_spec.
Context (bs : bytes) (x : Z) (rest : stream).
Hypothesis (Hbs : Forall is_byte bs) (Hlen : zlength bs < 2 ^ 31 - 1).

Definition vop_at : nat -> bool := bytes_at bs [0; 0; 1; 0xB6].
Definition vops : list nat := codes_from vop_at (length bs) 0.

Lemma vop_inside j : vop_at j = true -> (j + 4 <= length bs)%nat.
Proof.
  intros Hj. apply (proj1 (bytes_at_spec _ _ _)) with (i := 3%nat) (x := 0xB6) in Hj; [|done].
  apply lookup_lt_Some in Hj. lia.
Qed.

Lemma vop_apart i j : vop_at i = true -> vop_at j = true -> (i < j)%nat -> (i + 4 <= j)%nat.
Proof.
  intros Hi Hj Hlt. destruct (decide (i + 4 <= j)%nat) as [|Hge]; [done|exfalso].
  unfold vop_at in *. rewrite bytes_at_spec in Hi, Hj.
  pose proof (Hi 3%nat _ eq_refl) as H3. pose proof (Hi 2%nat _ eq_refl) as H2.
  assert (j = i + 1 \/ j = i + 2 \/ j = i + 3)%nat as [-> | [-> | ->]] by lia.
  - pose proof (Hj 1%nat _ eq_refl) as Hx. replace (i + 1 + 1)%nat with (i + 2)%nat in Hx by lia. congruence.
  - pose proof (Hj 0%nat _ eq_refl) as Hx. replace (i + 2 + 0)%nat with (i + 2)%nat in Hx by lia. congruence.
  - pose proof (Hj 0%nat _ eq_refl) as Hx. replace (i + 3 + 0)%nat with (i + 3)%nat in Hx by lia. congruence.
Qed.

Definition vop_inv (from k : nat) (w : Z) : Prop :=
  (from <= k)%nat /\ exists a b c d, window (drop from bs) (k - from) a b c d /\ w = quad a b c d.

Lemma window_bytes from k a b c d : window (drop from bs) k a b c d ->
  is_byte a /\ is_byte b /\ is_byte c /\ is_byte d.
Proof.
  intros []. assert (Forall is_byte (drop from bs)) by by apply Forall_drop. split_and!; by eapply padded_bytes.
Qed.

(** The last bytes of the window are those before [k]. *)
Lemma window_last from k a b c d i y : window (drop from bs) (k - from) a b c d -> (from <= k)%nat ->
  [a; b; c; d] !! i = Some y -> y <> 255 -> (from + 4 <= k + i)%nat /\ bs !! (k + i - 4)%nat = Some y.
Proof.
  intros [Ha Hb Hc Hd] Hk Hi Hy.
  assert (padded (drop from bs) !! (k - from + i)%nat = Some y) as Hp.
  { destruct i as [|[|[|[|i]]]]; simpl in Hi; simplify_eq; [rewrite <- Ha|rewrite <- Hb|rewrite <- Hc|rewrite <- Hd];
      f_equal; lia. }
  apply padded_lookup in Hp as [? Hp]; [|done]. split; [lia|]. rewrite lookup_drop in Hp. rewrite <- Hp. f_equal. lia.
Qed.
Lemma window_before from k a b c d i y z : window (drop from bs) (k - from) a b c d -> (from + 4 <= k + i)%nat ->
  [a; b; c; d] !! i = Some y -> bs !! (k + i - 4)%nat = Some z -> y = z.
Proof.
  intros [Ha Hb Hc Hd] Hk Hi Hz. assert (i < 4)%nat by by apply lookup_lt_Some in Hi.
  assert (padded (drop from bs) !! (k - from + i)%nat = Some y) as Hp.
  { destruct i as [|[|[|[|i]]]]; simpl in Hi; simplify_eq; [rewrite <- Ha|rewrite <- Hb|rewrite <- Hc|rewrite <- Hd];
      f_equal; lia. }
  unfold padded in Hp. rewrite lookup_app_r in Hp by (simpl; lia). rewrite lookup_drop in Hp.
  change (length [255; 255; 255; 255]) with 4%nat in Hp.
  replace (from + (k - from + i - 4))%nat with (k + i - 4)%nat in Hp by lia. congruence.
Qed.

Lemma vop_found from k w : vop_inv from k w -> (w =? 0x1B6) = hit vop_at 4 from k.
Proof.
  intros (Hk & a & b & c & d & Hw & ->). destruct (window_bytes _ _ _ _ _ _ Hw) as (Ha & Hb & Hc & Hd).
  unfold hit. apply eq_true_iff_eq. rewrite andb_true_iff, bool_decide_eq_true, Z.eqb_eq. split.
  - change 0x1B6 with (quad 0 0 1 0xB6). intros Hq. apply quad_inj in Hq as (-> & -> & -> & ->); try done.
    destruct (window_last from k 0 0 1 0xB6 0 0) as [? _]; [done|done|done|done|]. split; [lia|].
    apply bytes_at_spec. intros i y Hi. rewrite Nat.add_comm.
    destruct (window_last from k 0 0 1 0xB6 i y) as [? Hy]; [done|done|done| |].
    { by destruct i as [|[|[|[|i]]]]; simpl in Hi; simplify_eq. }
    rewrite <- Hy. f_equal. lia.
  - intros [Hle Hat]. unfold vop_at in Hat. rewrite bytes_at_spec in Hat.
    assert (forall i y z, [a; b; c; d] !! i = Some y -> [0; 0; 1; 0xB6] !! i = Some z -> y = z) as Heq.
    { intros i y z Hi Hz. eapply (window_before from k a b c d i); [done|lia|done|].
      rewrite <- (Hat i z Hz). f_equal. lia. }
    by rewrite (Heq 0%nat a 0), (Heq 1%nat b 0), (Heq 2%nat c 1), (Heq 3%nat d 0xB6).
Qed.

Abbreviation l := ((Some <$> bs) ++ Some x :: rest).
Lemma peek_after : peek l (Z.of_nat (length bs)) = inr x.
Proof. unfold peek. rewrite zlookup_of_nat, lookup_app_r; rewrite length_fmap; [|lia]. by rewrite Nat.sub_diag. Qed.

Lemma seek_vop_spec from : (from <= length bs)%nat ->
  Mpeg4.seek_vop l (zlength bs) (Z.of_nat from) =
  match codes_from vop_at (length bs) from with
  | j :: _ => inr (Z.of_nat (j + 4), true)
  | [] => inr (zlength bs + 1, false)
  end.
Proof.
  intros Hfrom. apply (seek_spec vop_at 4 (length bs) ltac:(lia) vop_inside vop_apart _ _ vop_inv).
  - apply vop_found.
  - intros fr k w (Hk & a & b & c & d & Hw & ->) Hle. destruct (window_bytes _ _ _ _ _ _ Hw) as (Ha & Hb & Hc & Hd).
    destruct (decide (k = length bs)) as [->|Hne].
    { rewrite peek_after. simpl. eexists. split; [done|]. lia. }
    destruct (lookup_lt_is_Some_2 bs k) as [e He]; [lia|]. rewrite (peek_byte bs _ k e) by done. simpl.
    eexists. split; [done|]. intros _. split; [lia|]. exists b, c, d, e. split.
    + replace (S k - fr)%nat with (S (k - fr)) by lia. eapply window_next; [done|].
      rewrite lookup_drop. rewrite <- He. f_equal. lia.
    + apply quad_shift_in; try done. by apply (Forall_lookup_1 _ _ _ _ Hbs He).
  - split; [done|]. rewrite Nat.sub_diag. exists 255, 255, 255, 255. split; [apply window_start|done].
  - lia.
  - rewrite length_app, length_fmap. simpl. lia.
  - lia.
Qed.
End mpeg4_spec.

Lemma Mpeg4_frame_end g bs x rest flag prev :
  Forall is_byte bs -> zlength bs < 2 ^ 31 - 1 -> Mpeg4.gbFIMV1 g = false ->
  Mpeg4.fimv1_header g ((Some <$> bs) ++ Some x :: rest) flag = inr false ->
  Mpeg4.Check_Mpeg4_Frame g ((Some <$> bs) ++ Some x :: rest) (zlength bs) flag prev =
  inr (match vops bs !! (if prev then 1 else 0)%nat with
       | Some j => (Z.of_nat j, true)
       | None => (zlength bs, false)
       end, g).
Proof.
  intros Hbs Hlen Hg Hh. unfold Mpeg4.Check_Mpeg4_Frame. rewrite Hh. cbn [res_bind]. rewrite Hg.
  assert (forall n, 0 <= n <= zlength bs -> s32 (u32 n) = n) as Hs.
  { intros n Hn. rewrite u32_id, s32_small by (unfold is_u32 in *; lia). done. }
  pose proof (zlength_nonneg bs).
  pose proof (two_seeks (vop_at bs) 4 (length bs) ltac:(lia) (vop_inside bs) (vop_apart bs)
    (Mpeg4.seek_vop ((Some <$> bs) ++ Some x :: rest) (zlength bs)) prev (seek_vop_spec bs x rest Hbs)) as Htwo.
  unfold vops. destruct (codes_from _ _ 0 !! _) as [j|] eqn:Hj.
  - destruct Htwo as (e & He & -> & Hnext). cbn [res_bind fst snd negb]. rewrite Hnext. cbn [res_bind fst snd].
    apply list_elem_of_lookup_2, list_elem_of_In, List.filter_In in Hj as [_ Hat]. apply vop_inside in Hat.
    unfold zlength in *. replace (Z.of_nat (j + 4) - 4) with (Z.of_nat j) by lia. rewrite Hs by lia. done.
  - destruct Htwo as [[-> ->]|(e & He & -> & Hnext)]; cbn [res_bind fst snd negb].
    + unfold zlength in *. by rewrite Z.add_simpl_r, Hs by lia.
    + rewrite Hnext. cbn [res_bind fst snd]. unfold zlength in *. by rewrite Z.add_simpl_r, Hs by lia.
Qed.

(** [Check_Mpeg4_Frame] finds the end of a frame: it returns the position of the
    second VOP start code of the buffer, or of the first one when the frame began in an
    earlier buffer, and reports that the frame goes on when there is none.  It
    terminates; it reads at most one byte after the [buffSize] given ones. *)
Theorem Check_Mpeg4_Frame_spec g bs x rest flag prev :
  Forall is_byte bs -> zlength bs < 2 ^ 31 - 1 -> Mpeg4.gbFIMV1 g = false ->
  Mpeg4.fimv1_header g ((Some <$> bs) ++ Some x :: rest) flag = inr false ->
  Mpeg4.Check_Mpeg4_Frame g ((Some <$> bs) ++ Some x :: rest) (zlength bs) flag prev =
  inr (match vops bs !! (if prev then 1 else 0)%nat with
       | Some j => (Z.of_nat j, true)
       | None => (zlength bs, false)
       end, g).
Proof. apply Mpeg4_frame_end. Qed.

(** The byte after the buffer is read: without one (a full buffer) the read is out of
    bounds. *)
Theorem Check_Mpeg4_Frame_overread g :
  Mpeg4.gbFIMV1 g = false ->
  Mpeg4.Check_Mpeg4_Frame g (Some <$> [0; 0; 1; 0xB6; 16]) 5 0 true = inl OutOfBounds.
Proof. intros Hg. unfold Mpeg4.Check_Mpeg4_Frame. simpl. rewrite Hg. by vm_compute. Qed.

(** ** The picture start code of H.263 *)
Section h263_spec.
Context (bs : bytes) (x y : Z) (rest : stream).
Hypothesis (Hbs : Forall is_byte bs) (Hx : is_byte x) (Hlen : zlength bs < 2 ^ 31 - 1).

(** 22 bits [0000 0000 0000 0000 1000 00] and the first two bits of [PTYPE] after the
    temporal reference, the last of which is in the byte after the code. *)
Definition psc_at (j : nat) : bool :=
  match take 4 (drop j (bs ++ [x])) with
  | [a; b; c; d] => ((a =? 0) && (b =? 0) && (Z.shiftr c 2 =? 0x20) && (Z.land d 0x03 =? 0x02))%bool
  | _ => false
  end.
Definition pscs : list nat := codes_from psc_at (length bs) 0.

Lemma psc_at_spec j : psc_at j = true <-> exists c d, bs !! j = Some 0 /\ bs !! (j + 1)%nat = Some 0 /\
  bs !! (j + 2)%nat = Some c /\ (bs ++ [x]) !! (j + 3)%nat = Some d /\ 128 <= c < 132 /\ Z.land d 3 = 2.
Proof.
  assert (forall c, Z.shiftr c 2 = 0x20 <-> 128 <= c < 132) as Hshift.
  { intros c. rewrite Z.shiftr_div_pow2 by lia. change (2 ^ 2) with 4.
    pose proof (Z.div_mod c 4 ltac:(lia)). pose proof (Z.mod_pos_bound c 4 ltac:(lia)). lia. }
  assert (forall i z, (i < length bs)%nat -> (bs ++ [x]) !! i = Some z <-> bs !! i = Some z) as Happ.
  { intros i z Hi. by rewrite lookup_app_l. }
  split.
  - unfold psc_at. destruct (take 4 (drop j (bs ++ [x]))) as [|a [|b [|c [|d [|]]]]] eqn:Ht; try done. intros Hcd. zbool. subst.
    assert (forall i z, [0; 0; c; d] !! i = Some z -> (bs ++ [x]) !! (j + i)%nat = Some z) as Hat.
    { apply bytes_at_spec. by apply bool_decide_eq_true. }
    pose proof (Hat 3%nat d eq_refl) as H3. apply lookup_lt_Some in H3 as Hlt. rewrite length_app in Hlt. simpl in Hlt.
    exists c, d. rewrite <- !Happ by lia. rewrite <- Hshift.
    pose proof (Hat 0%nat 0 eq_refl) as Hfirst. rewrite Nat.add_0_r in Hfirst. split_and!; try done; by apply Hat.
  - intros (c & d & H0 & H1 & H2 & H3 & Hc & Hd). apply lookup_lt_Some in H2 as Hlt.
    rewrite <- Happ in H0, H1, H2 by lia. unfold psc_at.
    assert (take 4 (drop j (bs ++ [x])) = [0; 0; c; d]) as ->.
    { apply (bool_decide_eq_true (take 4 _ = _)). apply (bytes_at_spec _ [0; 0; c; d]).
      intros [|[|[|[|i]]]] z Hz; simpl in Hz; simplify_eq; [by rewrite Nat.add_0_r|done..]. }
    rewrite (proj2 (Hshift c) Hc), Hd. done.
Qed.

Lemma psc_inside j : psc_at j = true -> (j + 3 <= length bs)%nat.
Proof. intros (c & d & _ & _ & Hc & _)%psc_at_spec. apply lookup_lt_Some in Hc. lia. Qed.

Lemma psc_apart i j : psc_at i = true -> psc_at j = true -> (i < j)%nat -> (i + 3 <= j)%nat.
Proof.
  intros (c & _ & _ & _ & Hc & _ & Hr & _)%psc_at_spec (_ & _ & H0 & H1 & _)%psc_at_spec Hlt.
  destruct (decide (i + 3 <= j)%nat) as [|Hge]; [done|exfalso].
  assert (j = i + 1 \/ j = i + 2)%nat as [-> | ->] by lia.
  - replace (i + 1 + 1)%nat with (i + 2)%nat in H1 by lia. simplify_eq. lia.
  - simplify_eq. lia.
Qed.

(** After [k] bytes the window ends before [k] and [pType] is of the byte at [k]. *)
Definition psc_inv (from k : nat) (w : Z * Z) : Prop :=
  (from <= k)%nat /\ (exists a b c d, window (drop from bs) (k - from) a b c d /\ w.1 = quad a b c d) /\
  (k = from \/ exists e, (bs ++ [x]) !! k = Some e /\ w.2 = Z.land e 3).

Lemma psc_quad a b c d t : is_byte a -> is_byte b -> is_byte c -> is_byte d ->
  Mpeg4.psc (quad a b c d) t = true <-> b = 0 /\ c = 0 /\ 128 <= d < 132 /\ t = 2.
Proof.
  intros Ha Hb Hc Hd. unfold Mpeg4.psc. rewrite quad_shift, Z.shiftr_div_pow2 by (done || lia).
  unfold quad, is_byte in *. rewrite andb_true_iff, !Z.eqb_eq. change (2 ^ 10) with 1024.
  pose proof (Z.div_mod (b * 2 ^ 24 + c * 2 ^ 16 + d * 2 ^ 8 + 0) 1024 ltac:(lia)).
  pose proof (Z.mod_pos_bound (b * 2 ^ 24 + c * 2 ^ 16 + d * 2 ^ 8 + 0) 1024 ltac:(lia)). lia.
Qed.

Lemma psc_found from k w : psc_inv from k w -> Mpeg4.psc w.1 w.2 = hit psc_at 3 from k.
Proof.
  intros (Hk & (a & b & c & d & Hw & ->) & Ht). destruct (window_bytes bs Hbs _ _ _ _ _ _ Hw) as (Ha & Hb & Hc & Hd).
  unfold hit. apply eq_true_iff_eq. rewrite andb_true_iff, bool_decide_eq_true, psc_quad by done. split.
  - intros (-> & -> & Hr & Ht2).
    destruct (window_last bs from k a 0 0 d 1 0) as [? H1]; [done|done|done|done|].
    destruct (window_last bs from k a 0 0 d 2 0) as [? H2]; [done|done|done|done|].
    destruct (window_last bs from k a 0 0 d 3 d) as [? H3]; [done|done|done|lia|].
    split; [lia|]. apply psc_at_spec. destruct Ht as [->|(e & He & Hw2)]; [lia|]. exists d, e.
    replace (k - 3 + 3)%nat with k by lia. rewrite <- Hw2.
    split_and!; try done || lia; [rewrite <- H1|rewrite <- H2|rewrite <- H3]; f_equal; lia.
  - intros [Hle (d' & e & H1 & H2 & H3 & He & Hr & Ht2)%psc_at_spec].
    replace (k - 3 + 3)%nat with k in He by lia.
    rewrite (window_before bs from k a b c d 1 b 0), (window_before bs from k a b c d 2 c 0),
      (window_before bs from k a b c d 3 d d'); try done || lia.
    + split_and!; try done || lia. destruct Ht as [->|(e' & He' & ->)]; [lia|]. congruence.
    + rewrite <- H3. f_equal. lia.
    + rewrite <- H2. f_equal. lia.
    + rewrite <- H1. f_equal. lia.
Qed.

Abbreviation l := ((Some <$> bs) ++ Some x :: Some y :: rest).
Lemma peek_ext k e : (bs ++ [x]) !! k = Some e -> peek l (Z.of_nat k) = inr e.
Proof.
  intros He. unfold peek. rewrite zlookup_of_nat. replace l with ((Some <$> (bs ++ [x])) ++ Some y :: rest).
  - rewrite lookup_app_l, list_lookup_fmap, He; [done|]. rewrite length_fmap. by eapply lookup_lt_Some.
  - by rewrite fmap_app, <- app_assoc.
Qed.

Lemma seek_psc_spec from : (from <= length bs)%nat ->
  Mpeg4.seek_psc l (zlength bs) (Z.of_nat from) =
  match codes_from psc_at (length bs) from with
  | j :: _ => inr (Z.of_nat (j + 3), true)
  | [] => inr (zlength bs + 1, false)
  end.
Proof.
  intros Hfrom. apply (seek_spec psc_at 3 (length bs) ltac:(lia) psc_inside psc_apart _ _ psc_inv).
  - apply psc_found.
  - intros fr k [w t] (Hk & (a & b & c & d & Hw & ->) & _) Hle. simpl in *.
    destruct (window_bytes bs Hbs _ _ _ _ _ _ Hw) as (Ha & Hb & Hc & Hd).
    destruct (lookup_lt_is_Some_2 (bs ++ [x]) k) as [e He]; [rewrite length_app; simpl; lia|].
    rewrite (peek_ext k e) by done. replace (Z.of_nat k + 1) with (Z.of_nat (S k)) by lia. cbn [res_bind].
    destruct (decide (k = length bs)) as [->|Hne].
    { unfold peek. rewrite zlookup_of_nat, lookup_app_r; rewrite length_fmap; [|lia].
      replace (S (length bs) - length bs)%nat with 1%nat by lia. simpl. eexists. split; [done|]. lia. }
    destruct (lookup_lt_is_Some_2 (bs ++ [x]) (S k)) as [e' He']; [rewrite length_app; simpl; lia|].
    rewrite (peek_ext (S k) e') by done. simpl. eexists. split; [done|]. intros _.
    rewrite lookup_app_l in He by lia. split; [lia|]. split; [|right; by exists e']. exists b, c, d, e. split.
    + replace (S k - fr)%nat with (S (k - fr)) by lia. eapply window_next; [done|].
      rewrite lookup_drop. rewrite <- He. f_equal. lia.
    + apply quad_shift_in; try done. by apply (Forall_lookup_1 _ _ _ _ Hbs He).
  - split; [done|]. split; [|by left]. rewrite Nat.sub_diag. exists 255, 255, 255, 255. split; [apply window_start|done].
  - lia.
  - rewrite length_app, length_fmap. simpl. lia.
  - lia.
Qed.
End h263_spec.

Lemma H263_frame_end bs x y rest flag prev :
  Forall is_byte bs -> zlength bs < 2 ^ 31 - 1 ->
  Mpeg4.Check_H263_Frame ((Some <$> bs) ++ Some x :: Some y :: rest) (zlength bs) flag prev =
  inr (match pscs bs x !! (if prev then 1 else 0)%nat with
       | Some j => (Z.of_nat j, true)
       | None => (zlength bs, false)
       end).
Proof.
  intros Hbs Hlen. unfold Mpeg4.Check_H263_Frame.
  assert (forall n, 0 <= n <= zlength bs -> s32 (u32 n) = n) as Hs.
  { intros n Hn. rewrite u32_id, s32_small by (unfold is_u32 in *; lia). done. }
  pose proof (zlength_nonneg bs).
  pose proof (two_seeks (psc_at bs x) 3 (length bs) ltac:(lia) (psc_inside bs x) (psc_apart bs x)
    (Mpeg4.seek_psc ((Some <$> bs) ++ Some x :: Some y :: rest) (zlength bs)) prev
    (seek_psc_spec bs x y rest Hbs)) as Htwo.
  unfold pscs. destruct (codes_from _ _ 0 !! _) as [j|] eqn:Hj.
  - destruct Htwo as (e & He & -> & Hnext). cbn [res_bind fst snd negb]. rewrite Hnext. cbn [res_bind fst snd].
    apply list_elem_of_lookup_2, list_elem_of_In, List.filter_In in Hj as [_ Hat]. apply psc_inside in Hat.
    unfold zlength in *. replace (Z.of_nat (j + 3) - 3) with (Z.of_nat j) by lia. rewrite Hs by lia. done.
  - destruct Htwo as [[-> ->]|(e & He & -> & Hnext)]; cbn [res_bind fst snd negb].
    + unfold zlength in *. by rewrite Z.add_simpl_r, Hs by lia.
    + rewrite Hnext. cbn [res_bind fst snd]. unfold zlength in *. by rewrite Z.add_simpl_r, Hs by lia.
Qed.

(** [Check_H263_Frame] finds the end of a frame in the same way by the picture start
    code (22 bits and the marker bits of [PTYPE]).  Two bytes after the [buffSize] given
    ones are read, and the first of them can decide whether the last three bytes of the
    buffer are a start code. *)
Theorem Check_H263_Frame_spec bs x y rest flag prev :
  Forall is_byte bs -> zlength bs < 2 ^ 31 - 1 ->
  Mpeg4.Check_H263_Frame ((Some <$> bs) ++ Some x :: Some y :: rest) (zlength bs) flag prev =
  inr (match pscs bs x !! (if prev then 1 else 0)%nat with
       | Some j => (Z.of_nat j, true)
       | None => (zlength bs, false)
       end).
Proof. apply H263_frame_end. Qed.

(** ** The interface of the decoder

    [sec_checkInputFrame] as the decoder calls it, and what the decoder relies on:  with
    [lookahead] known bytes after the given ones the call returns, and the end of a
    frame is inside of the buffer. *)
Class FrameChecker := sec_checkInputFrame : stream -> Z -> Z -> bool -> verdict.
Definition in_range (C : FrameChecker) (lookahead : nat) : Prop :=
  forall (bs more : bytes) (rest : stream) flags prev,
    Forall is_byte (bs ++ more) -> zlength bs < 2 ^ 31 - 1 -> length more = lookahead ->
    exists n eof, sec_checkInputFrame ((Some <$> bs ++ more) ++ rest) (zlength bs) flags prev = inr (n, eof) /\
      (eof = true -> 0 <= n <= zlength bs).
Class FrameCheckerLaws (C : FrameChecker) := {
  lookahead : nat;
  check_in_range : in_range C lookahead
}.

Definition H264_checker `{H264Build} : FrameChecker := H264.Check_H264_Frame.
Definition Mpeg4_checker (g : Mpeg4.globals) : FrameChecker := fun l n flags prev =>
  try v := Mpeg4.Check_Mpeg4_Frame g l n flags prev in inr v.1.
Definition H263_checker : FrameChecker := Mpeg4.Check_H263_Frame.
Definition Wmv_checker (f : Vc1.WMV_FORMAT) : FrameChecker := fun l n flags prev =>
  try v := Vc1.Check_Wmv_Frame f l n flags prev in inr v.1.
Definition VP8_checker : FrameChecker := Vp8.Check_VP8_Frame.

Lemma unit_start_le bs j : (unit_start bs j <= j)%nat.
Proof. destruct j as [|i]; simpl; [done|]. by repeat case_match; lia. Qed.

Lemma H264_in_range `{H264Build} : in_range H264_checker 0%nat.
Proof.
  intros bs more rest flags prev Hbs Hlen Hmore.
  apply nil_length_inv in Hmore as ->. rewrite app_nil_r in *.
  pose proof (H264_access_unit bs prev rest flags Hbs ltac:(lia)) as Hspec. unfold access_unit in Hspec.
  destruct (List.find _ _) as [j|] eqn:Hf.
  - eexists _, _. split; [exact Hspec|]. intros _. apply find_some in Hf as [Hj%in_seq _].
    pose proof (unit_start_le bs j). unfold zlength. lia.
  - destruct Hspec as (n & _ & Hn). by exists n, false.
Qed.
#[export] Instance H264_laws `{H264Build} : FrameCheckerLaws H264_checker := {| check_in_range := H264_in_range |}.

Lemma codes_from_le at_ len k i j : codes_from at_ len k !! i = Some j -> (j < len)%nat.
Proof.
  intros Hj%list_elem_of_lookup_2. apply list_elem_of_In, List.filter_In in Hj as [Hj%in_seq _]. lia.
Qed.

Lemma H263_in_range : in_range H263_checker 2.
Proof.
  intros bs more rest flags prev Hbs Hlen Hmore.
  destruct more as [|x [|y [|]]]; try done. apply Forall_app in Hbs as [Hbs _].
  unfold sec_checkInputFrame, H263_checker. rewrite fmap_app, <- app_assoc. simpl.
  rewrite (H263_frame_end bs x y rest flags prev Hbs Hlen).
  destruct (pscs bs x !! _) as [j|] eqn:Hj; eexists _, _; (split; [reflexivity|]); [|done].
  intros _. apply codes_from_le in Hj. unfold zlength. lia.
Qed.
#[export] Instance H263_laws : FrameCheckerLaws H263_checker := {| check_in_range := H263_in_range |}.

Lemma peek_more (l : bytes) (rest : stream) (i : Z) :
  0 <= i < zlength l -> exists b, peek ((Some <$> l) ++ rest) i = inr b.
Proof.
  intros Hi. unfold zlength in Hi. destruct (lookup_lt_is_Some_2 l (Z.to_nat i)) as [b Hb]; [lia|].
  exists b. rewrite <- (Z2Nat.id i) by lia. by apply peek_byte.
Qed.
Lemma peek32_more (l : bytes) (rest : stream) (i : Z) :
  0 <= i -> i + 4 <= zlength l -> exists w, peek32 ((Some <$> l) ++ rest) i = inr w.
Proof.
  intros Hi Hl. unfold peek32.
  destruct (peek_more l rest i) as [a ->]; [lia|]. destruct (peek_more l rest (i + 1)) as [b ->]; [lia|].
  destruct (peek_more l rest (i + 2)) as [c ->]; [lia|]. destruct (peek_more l rest (i + 3)) as [d ->]; [lia|].
  by eexists.
Qed.

(** The 13 bytes of the FIMV1 header are read in any case when the buffer is marked as
    codec configuration. *)
Lemma Mpeg4_in_range g : in_range (Mpeg4_checker g) 13.
Proof.
  intros bs more rest flags prev Hbs Hlen Hmore.
  pose proof (zlength_nonneg bs) as Hpos.
  assert (exists hd, Mpeg4.fimv1_header g ((Some <$> bs ++ more) ++ rest) flags = inr hd) as [hd Hhd].
  { unfold Mpeg4.fimv1_header. destruct (negb _); [|by eexists].
    destruct (peek_more (bs ++ more) rest 0) as [b ->]; [|by eexists]. rewrite zlength_app. unfold zlength at 2. lia. }
  unfold sec_checkInputFrame, Mpeg4_checker. destruct hd.
  { unfold Mpeg4.Check_Mpeg4_Frame. rewrite Hhd. cbn [res_bind].
    destruct (peek32_more (bs ++ more) rest 5) as [w ->]; [lia|rewrite zlength_app; unfold zlength at 2; lia|].
    destruct (peek32_more (bs ++ more) rest 9) as [h ->]; [lia|rewrite zlength_app; unfold zlength at 2; lia|].
    eexists _, _. split; [reflexivity|]. intros _. rewrite s32_small; lia. }
  destruct (Mpeg4.gbFIMV1 g) eqn:Hg.
  { unfold Mpeg4.Check_Mpeg4_Frame. rewrite Hhd. cbn [res_bind]. rewrite Hg.
    eexists _, _. split; [reflexivity|]. intros _. rewrite s32_small; lia. }
  destruct more as [|x more]; [done|]. apply Forall_app in Hbs as [Hbs _].
  rewrite fmap_app, <- app_assoc in *. simpl in *.
  rewrite (Mpeg4_frame_end g bs x _ flags prev Hbs Hlen Hg Hhd).
  destruct (vops bs !! _) as [j|] eqn:Hj; eexists _, _; (split; [reflexivity|]); [|done].
  intros _. apply codes_from_le in Hj. unfold zlength. lia.
Qed.
#[export] Instance Mpeg4_laws g : FrameCheckerLaws (Mpeg4_checker g) := {| check_in_range := Mpeg4_in_range g |}.

Lemma Wmv_in_range f : in_range (Wmv_checker f) 20.
Proof.
  intros bs more rest flags prev Hbs Hlen Hmore.
  pose proof (zlength_nonneg bs) as Hpos. unfold sec_checkInputFrame, Wmv_checker, Vc1.Check_Wmv_Frame.
  assert (s32 (zlength bs) = zlength bs) as Hs by (apply s32_small; lia). rewrite Hs.
  destruct (peek32_more (bs ++ more) rest 16) as [w ->]; [lia|rewrite zlength_app; unfold zlength at 2; lia|].
  simpl. destruct (negb _); simpl; repeat case_match; simpl; eexists _, _; (split; [reflexivity|]); done || lia.
Qed.
#[export] Instance Wmv_laws f : FrameCheckerLaws (Wmv_checker f) := {| check_in_range := Wmv_in_range f |}.

Lemma VP8_in_range : in_range VP8_checker 10.
Proof.
  intros bs more rest flags prev Hbs Hlen Hmore.
  pose proof (zlength_nonneg bs) as Hpos. unfold sec_checkInputFrame, VP8_checker, Vp8.Check_VP8_Frame.
  assert (forall i, 0 <= i < 10 -> exists b, peek ((Some <$> bs ++ more) ++ rest) i = inr b) as Hp.
  { intros i Hi. apply peek_more. rewrite zlength_app. unfold zlength at 2. lia. }
  assert (s32 (zlength bs) = zlength bs) as Hs by (apply s32_small; lia). rewrite Hs.
  destruct (Hp 0) as [b0 ->]; [lia|]. destruct (Hp 6) as [b6 ->]; [lia|]. destruct (Hp 7) as [b7 ->]; [lia|].
  destruct (Hp 8) as [b8 ->]; [lia|]. destruct (Hp 9) as [b9 ->]; [lia|].
  unfold Vp8.key_frame_code. destruct (Hp 3) as [b3 ->]; [lia|]. destruct (Hp 4) as [b4 ->]; [lia|].
  destruct (Hp 5) as [b5 ->]; [lia|].
  simpl. repeat case_match; simpl in *; simplify_eq; eexists _, _; (split; [reflexivity|]); done || lia.
Qed.
#[export] Instance VP8_laws : FrameCheckerLaws VP8_checker := {| check_in_range := VP8_in_range |}.

(** ** The streams of VC-1 *)

Lemma poke_next (pre suf bytes : stream) :
  zlength bytes <= zlength suf ->
  Vc1.poke (pre ++ suf) (zlength pre) bytes = inr (pre ++ bytes ++ drop (length bytes) suf).
Proof.
  unfold Vc1.poke, zlength. intros Hle. rewrite length_app, (proj2 (Z.leb_le _ _)) by lia. do 2 f_equal.
  - rewrite Nat2Z.id. by rewrite take_app_length.
  - f_equal. rewrite Z2Nat.inj_add, !Nat2Z.id by lia. by rewrite drop_app_add.
Qed.

(** [Make_Stream_StartCode] puts the frame start code in front of the frame and moves
    the frame as a whole: none of its bytes is lost, whatever its size, and nothing
    after it changes.  Room for the four bytes is what its callers check. *)
Theorem Make_Stream_StartCode_spec l n :
  0 <= n -> n + 4 <= zlength l ->
  Vc1.Make_Stream_StartCode l n Vc1.WMV_FORMAT_VC1 =
    inr ((Some <$> [0x00; 0x00; 0x01; 0x0d]) ++ take (Z.to_nat n) l ++ drop (Z.to_nat (n + 4)) l, true).
Proof.
  intros Hn Hl. unfold Vc1.Make_Stream_StartCode. rewrite (proj2 (Z.ltb_ge _ _)) by lia.
  unfold zlength in Hl. pose proof (poke_next (take 4 l) (drop 4 l) (take (Z.to_nat n) l)) as Hp.
  rewrite take_drop in Hp. unfold zlength in Hp. rewrite length_drop, !length_take in Hp.
  replace (Z.of_nat (4 `min` length l)) with 4 in Hp by lia. rewrite Hp by lia. cbn [res_bind].
  rewrite drop_drop.
  pose proof (poke_next [] (take 4 l ++ take (Z.to_nat n) l ++ drop (4 + Z.to_nat n `min` length l) l)
    (Some <$> [0x00; 0x00; 0x01; 0x0d])) as Hq. change (zlength (@nil (option Z))) with 0 in Hq. rewrite app_nil_l in Hq.
  rewrite Hq; cbn [res_bind].
  - change (length (Some <$> [0; 0; 1; 13])) with 4%nat.
    rewrite drop_app_length' by (rewrite length_take; lia).
    replace (4 + Z.to_nat n `min` length l)%nat with (Z.to_nat (n + 4)) by lia. done.
  - unfold zlength. rewrite length_app, length_take. change (length (Some <$> [0; 0; 1; 13])) with 4%nat. lia.
Qed.

(** For a WMV3 stream [Make_Stream_MetaData] replaces the bitmap header by the 36 bytes
    of the sequence layer: the height and the width of the header in that order, and
    the first four bytes after it as [STRUCT_C]. *)
Theorem Make_Stream_MetaData_WMV3 l n w h :
  40 < n -> 44 <= zlength l -> peek32 l 4 = inr w -> peek32 l 8 = inr h ->
  Vc1.Make_Stream_MetaData l n Vc1.WMV_FORMAT_WMV3 =
    inr (Vc1.const_C5 ++ Vc1.const_04 ++ take 4 (drop 40 l) ++ Vc1.le32_bytes h ++ Vc1.le32_bytes w ++
         Vc1.const_0C ++ Vc1.struct_B_1 ++ Vc1.struct_B_2 ++ Vc1.struct_B_3 ++ drop 36 l, 36, true).
Proof.
  intros Hn Hl Hw Hh. unfold Vc1.Make_Stream_MetaData, Vc1.BITMAPINFOHEADER_SIZE.
  rewrite (proj2 (Z.leb_le _ _)), Hw, Hh by lia. cbn [res_bind].
  rewrite (proj2 (Z.ltb_lt _ _)), (proj2 (Z.leb_le _ _)) by lia. cbn [res_bind].
  change (Z.to_nat 40) with 40%nat. set (c := take 4 (drop 40 l)).
  assert (length c = 4%nat) as Hc by (unfold c, zlength in *; rewrite length_take, length_drop; lia).
  assert (forall pre suf b, length b = 4%nat -> (4 <= length suf)%nat ->
    Vc1.poke (pre ++ suf) (zlength pre) b = inr ((pre ++ b) ++ drop 4 suf)) as Hpoke.
  { intros pre suf b Hb Hs. rewrite poke_next by (unfold zlength; lia). by rewrite Hb, <- app_assoc. }
  assert (forall k pre b, length pre = k -> length b = 4%nat -> (k <= 32)%nat ->
    Vc1.poke (pre ++ drop k l) (Z.of_nat k) b = inr ((pre ++ b) ++ drop (k + 4) l)) as Hstep.
  { intros k pre b Hk Hb Hle. subst k. rewrite <- drop_drop. unfold zlength in Hl. apply Hpoke; [done|].
    rewrite length_drop. lia. }
  assert (forall k pre b f, length pre = k -> length b = 4%nat -> (k <= 32)%nat ->
    res_bind (Vc1.poke (pre ++ drop k l) (Z.of_nat k) b) f = f ((pre ++ b) ++ drop (k + 4) l) :> fault + stream * Z * bool)
    as Hrun by (intros k pre b f H1 H2 H3; by rewrite Hstep).
  change l with ([] ++ drop 0 l) at 1.
  etransitivity; [apply (Hrun 0%nat _ Vc1.const_C5); rewrite ?length_app, ?Hc; done || lia|]. cbn [Nat.add].
  etransitivity; [apply (Hrun 4%nat _ Vc1.const_04); rewrite ?length_app, ?Hc; done || lia|]. cbn [Nat.add].
  etransitivity; [apply (Hrun 8%nat _ c); rewrite ?length_app, ?Hc; done || lia|]. cbn [Nat.add].
  etransitivity; [apply (Hrun 12%nat _ (Vc1.le32_bytes h)); rewrite ?length_app, ?Hc; done || lia|]. cbn [Nat.add].
  etransitivity; [apply (Hrun 16%nat _ (Vc1.le32_bytes w)); rewrite ?length_app, ?Hc; done || lia|]. cbn [Nat.add].
  etransitivity; [apply (Hrun 20%nat _ Vc1.const_0C); rewrite ?length_app, ?Hc; done || lia|]. cbn [Nat.add].
  etransitivity; [apply (Hrun 24%nat _ Vc1.struct_B_1); rewrite ?length_app, ?Hc; done || lia|]. cbn [Nat.add].
  etransitivity; [apply (Hrun 28%nat _ Vc1.struct_B_2); rewrite ?length_app, ?Hc; done || lia|]. cbn [Nat.add].
  etransitivity; [apply (Hrun 32%nat _ Vc1.struct_B_3); rewrite ?length_app, ?Hc; done || lia|]. cbn [Nat.add].
  rewrite <- !app_assoc. done.
Qed.

(** The copy of the VC-1 branch overlaps for more than 41 bytes after the header. *)
Theorem Make_Stream_MetaData_overlap l n :
  82 < n -> n <= zlength l -> Vc1.Make_Stream_MetaData l n Vc1.WMV_FORMAT_VC1 = inl Overlap.
Proof.
  intros Hn Hl. unfold Vc1.Make_Stream_MetaData, Vc1.BITMAPINFOHEADER_ASFBINDING_SIZE.
  rewrite (proj2 (Z.leb_le _ _)), (proj2 (Z.ltb_ge _ _)), (proj2 (Z.ltb_lt _ _)) by lia. done.
Qed.

(** ** Instances *)

(** A parameter set, a slice of the first picture and the start of the next one. *)
Definition sample_h264 : bytes :=
  [0; 0; 0; 1; 0x67; 0x42; 0; 0; 1; 0x65; 0x88; 0x21; 0; 0; 1; 0x65; 0x40; 0; 0; 0; 1; 0x41; 0x9A].
Definition sample_h264_build : H264Build := {| ADD_SPS_PPS_I_FRAME := false |}.
Lemma Check_H264_Frame_spec_witness :
  List.find (ends (H := sample_h264_build) sample_h264 true) (seq 0 23) = Some 6%nat /\
  H264.Check_H264_Frame (H := sample_h264_build) (Some <$> sample_h264) 23 0 true = inr (6, true) /\
  List.find (ends (H := sample_h264_build) (drop 6 sample_h264) false) (seq 0 17) = Some 0%nat /\
  H264.Check_H264_Frame (H := sample_h264_build) (Some <$> drop 12 sample_h264) 11 0 true = inr (5, true).
Proof.
  pose proof (Check_H264_Frame_spec (H := sample_h264_build) sample_h264 true [] 0) as H1.
  pose proof (Check_H264_Frame_spec (H := sample_h264_build) (drop 12 sample_h264) true [] 0) as H2.
  rewrite app_nil_r in H1, H2.
  split; [done|]. split; [apply H1; [repeat constructor; unfold is_byte; lia|done]|]. split; [done|].
  apply H2; [repeat constructor; unfold is_byte; lia|done].
Defined.

Definition sample_mpeg4 : bytes := [0; 0; 1; 0xB6; 0x10; 0x20; 0; 0; 1; 0xB6; 0x50].
Definition sample_globals : Mpeg4.globals := Mpeg4.mkGlobals false true None.
Lemma Check_Mpeg4_Frame_spec_witness :
  Mpeg4.Check_Mpeg4_Frame sample_globals ((Some <$> sample_mpeg4) ++ [Some 0]) 11 0 true =
    inr ((6, true), sample_globals).
Proof.
  apply (Check_Mpeg4_Frame_spec sample_globals sample_mpeg4 0 [] 0 true); try done.
  repeat constructor; unfold is_byte; lia.
Defined.

Definition sample_h263 : bytes := [0; 0; 0x80; 2; 8; 1; 0; 0; 0x82].
Lemma Check_H263_Frame_spec_witness :
  Mpeg4.Check_H263_Frame ((Some <$> sample_h263) ++ [Some 6; Some 0]) 9 0 true = inr (6, true).
Proof.
  apply (Check_H263_Frame_spec sample_h263 6 0 [] 0 true); [|done]. repeat constructor; unfold is_byte; lia.
Defined.

Lemma Make_Stream_StartCode_spec_witness :
  Vc1.Make_Stream_StartCode (Some <$> [1; 2; 3; 4; 5; 6; 7; 8; 9; 10; 11]) 6 Vc1.WMV_FORMAT_VC1 =
    inr (Some <$> [0; 0; 1; 13; 1; 2; 3; 4; 5; 6; 11], true).
Proof. by rewrite (Make_Stream_StartCode_spec (Some <$> [1; 2; 3; 4; 5; 6; 7; 8; 9; 10; 11]) 6). Defined.

(** A bitmap header of 352 by 288 and four bytes of [STRUCT_C]. *)
Definition sample_bitmap : stream :=
  Some <$> [40; 0; 0; 0; 0x60; 1; 0; 0; 0x20; 1; 0; 0] ++ replicate 28 0 ++ [0x4E; 0x29; 0x1A; 0x01].
Lemma Make_Stream_MetaData_WMV3_witness :
  Vc1.Make_Stream_MetaData sample_bitmap 44 Vc1.WMV_FORMAT_WMV3 =
    inr (Some <$> [0; 0; 0; 0xc5; 4; 0; 0; 0; 0x4E; 0x29; 0x1A; 0x01; 0x20; 1; 0; 0; 0x60; 1; 0; 0; 12; 0; 0; 0;
                   0xB3; 0x19; 0; 0; 0x44; 0x62; 5; 0; 0x0F; 0; 0; 0; 0; 0; 0; 0; 0x4E; 0x29; 0x1A; 0x01], 36, true).
Proof. by rewrite (Make_Stream_MetaData_WMV3 sample_bitmap 44 352 288). Defined.
