(* ===== verification/VdecBuffers.v ===== *)
(** * The buffers of the video decoder's ports

    Models the first part of [component/video/dec/SEC_OMX_Vdec.c]: the buffers a
    client assigns to a port ([SEC_OMX_UseBuffer]), has allocated for it
    ([SEC_OMX_AllocateBuffer]) and releases again ([SEC_OMX_FreeBuffer]), and the
    tunnel functions, which the decoder does not support.  The last buffer that fills a port posts
    [loadedResource], on which the transition to Idle and the enabling of a port
    wait; the last one that is released posts [unloadedResource]. *)
From S2P Require Import Prelude Machine OmxEnums OsalSync OsalQueue OmxTypes OmxState Focus.
From S2P Require Import OmxMemory PortFocus Samples.

Section buffers.
Context `{Env}.

(** ** Assigning a buffer to a port *)

(** [hComponent] as in [entry], for a function with a second result. *)
Definition entry_out {A} (hComponent : option nat) (out : A)
    (body : nat -> M St (OMX_ERRORTYPE * A)) : M St (OMX_ERRORTYPE * A) :=
  let* r := entry hComponent (fun _ => ret OMX_ErrorNone) in
  if is_err r then ret (r, out)
  else match hComponent with Some c => body c | None => ret (r, out) end.

(** The fields of the new header. *)
Definition header_init (i buffer size app : Z) : OMX_BUFFERHEADERTYPE :=
  let h := header_zero<|bh_header := INIT_SET_SIZE_VERSION sizeof_BUFFERHEADERTYPE|>
             <|pBuffer := buffer|><|nAllocLen := size|><|pAppPrivate := app|> in
  if i =? INPUT_PORT_INDEX then h<|nInputPortIndex := INPUT_PORT_INDEX|>
  else h<|nOutputPortIndex := OUTPUT_PORT_INDEX|>.

(** [for (i = 0; i < nBufferCountActual; i++)]: the first free slot takes the
    header [b]. *)
Definition assign_step (c : nat) (i : Z) (b : nat) (state buffer size app j : Z)
  : M St (option unit) :=
  let* st := load (cell (target (port c i)↘bufferStateAllocate) j) in
  if st =? BUFFER_STATE_FREE then
    store (cell (target (port c i)↘bufferHeader) j) (Some b) ;;;
    store (cell (target (port c i)↘bufferStateAllocate) j) state ;;;
    store (header b) (header_init i buffer size app) ;;;
    update (port c i)↘assignedBufferNum (fun n => u32 (n + 1)) ;;;
    let* p := load (port c i) in
    (if assignedBufferNum p =? nBufferCountActual (portDefinition p) then
       store (port c i)↘portDefinition↘bPopulated true ;;;
       SemaphorePost (port c i)↘loadedResource ;;; ret tt
     else ret tt) ;;;
    ret (Some tt)
  else ret None.
Definition assign_slot (c : nat) (i : Z) (b : nat) (state buffer size app : Z) : M St (option unit) :=
  let* count := load (port c i)↘portDefinition↘nBufferCountActual in
  for_exit 0 (Z.to_nat count) (assign_step c i b state buffer size app).

(** The error and [*ppBufferHdr], which is only written on success. *)
Definition SEC_OMX_UseBuffer (hComponent : option nat) (nPortIndex app size : Z) (buffer : Z)
  : M St (OMX_ERRORTYPE * option nat) :=
  entry_out hComponent None (fun c =>
    let* ports := load (pSECComponent c)↘portParam↘nPorts in
    if ports <=? nPortIndex then ret (OMX_ErrorBadPortIndex, None)
    else
      let* p := load (port c nPortIndex) in
      if negb (bool_decide (portState p = OMX_StateIdle))
      then ret (OMX_ErrorIncorrectStateOperation, None)
      else if (CHECK_PORT_TUNNELED p && CHECK_PORT_BUFFER_SUPPLIER p)%bool
      then ret (OMX_ErrorBadPortIndex, None)
      else
        let* h := malloc_header in
        match h with
        | None => ret (OMX_ErrorInsufficientResources, None)
        | Some b =>
            let* r := assign_slot c nPortIndex b
                        (Z.lor BUFFER_STATE_ASSIGNED HEADER_STATE_ALLOCATED) buffer size app in
            match r with
            | Some _ => ret (OMX_ErrorNone, Some b)
            | None => free_header b ;;; ret (OMX_ErrorInsufficientResources, None)
            end
        end).

Definition SEC_OMX_AllocateBuffer (hComponent : option nat) (nPortIndex app size : Z)
  : M St (OMX_ERRORTYPE * option nat) :=
  entry_out hComponent None (fun c =>
    let* ports := load (pSECComponent c)↘portParam↘nPorts in
    if ports <=? nPortIndex then ret (OMX_ErrorBadPortIndex, None)
    else
      let* p := load (port c nPortIndex) in
      if (CHECK_PORT_TUNNELED p && CHECK_PORT_BUFFER_SUPPLIER p)%bool
      then ret (OMX_ErrorBadPortIndex, None)
      else
        let* m := SEC_OSAL_Malloc size in
        match m with
        | None => ret (OMX_ErrorInsufficientResources, None)
        | Some a =>
            let* h := malloc_header in
            match h with
            | None => SEC_OSAL_Free a ;;; ret (OMX_ErrorInsufficientResources, None)
            | Some b =>
                let* r := assign_slot c nPortIndex b
                            (Z.lor BUFFER_STATE_ALLOCATED HEADER_STATE_ALLOCATED) a size app in
                match r with
                | Some _ => ret (OMX_ErrorNone, Some b)
                | None =>
                    free_header b ;;; SEC_OSAL_Free a ;;; ret (OMX_ErrorInsufficientResources, None)
                end
            end
        end).

(** ** Releasing a buffer *)

(** What the loop of [SEC_OMX_FreeBuffer] does with the slot [j], which has the
    header [hb] with the payload of [pBufferHdr]. *)
Definition release_slot (c : nat) (i j : Z) (hb b : nat) : M St unit :=
  let* st := load (cell (target (port c i)↘bufferStateAllocate) j) in
  (if negb (Z.land st BUFFER_STATE_ALLOCATED =? 0) then
     let* a := load (header hb)↘pBuffer in
     SEC_OSAL_Free a ;;;
     store (header hb)↘pBuffer 0 ;;;
     store (header b)↘pBuffer 0
   else ret tt) ;;;
  update (port c i)↘assignedBufferNum (fun n => u32 (n - 1)) ;;;
  (if negb (Z.land st HEADER_STATE_ALLOCATED =? 0) then
     free_header hb ;;;
     store (cell (target (port c i)↘bufferHeader) j) None
   else ret tt) ;;;
  store (cell (target (port c i)↘bufferStateAllocate) j) BUFFER_STATE_FREE.

(** [pBufferHdr] is dereferenced for every slot in use. *)
Definition release_step (c : nat) (i : Z) (pBufferHdr : option nat) (j : Z) : M St (option unit) :=
  let* st := load (cell (target (port c i)↘bufferStateAllocate) j) in
  let* hb := load (cell (target (port c i)↘bufferHeader) j) in
  match hb with
  | Some hb =>
      if negb (Z.lor st BUFFER_STATE_FREE =? 0) then
        let* own := load (header hb)↘pBuffer in
        match pBufferHdr with
        | None => fail NullDeref
        | Some b =>
            let* given := load (header b)↘pBuffer in
            if own =? given then release_slot c i j hb b ;;; ret (Some tt) else ret None
        end
      else ret None
  | None => ret None
  end.
Definition release_loop (c : nat) (i : Z) (pBufferHdr : option nat) : M St (option unit) :=
  let* count := load (port c i)↘portDefinition↘nBufferCountActual in
  for_exit 0 (Z.to_nat count) (release_step c i pBufferHdr).

Definition SEC_OMX_FreeBuffer (hComponent : option nat) (nPortIndex : Z) (pBufferHdr : option nat)
  : M St OMX_ERRORTYPE :=
  entry hComponent (fun c =>
    let* p := load (port c nPortIndex) in
    if (CHECK_PORT_TUNNELED p && CHECK_PORT_BUFFER_SUPPLIER p)%bool then ret OMX_ErrorBadPortIndex
    else
      (if (negb (bool_decide (portState p = OMX_StateLoaded))
           && negb (bool_decide (portState p = OMX_StateInvalid)))%bool
       then call_back c (EventPortError c OMX_ErrorPortUnpopulated nPortIndex) else ret tt) ;;;
      release_loop c nPortIndex pBufferHdr ;;;
      let* n := load (port c nPortIndex)↘assignedBufferNum in
      (if n =? 0 then
         SemaphorePost (port c nPortIndex)↘unloadedResource ;;;
         store (port c nPortIndex)↘portDefinition↘bPopulated false
       else ret tt) ;;;
      ret OMX_ErrorNone).

(** ** Tunnels are not supported *)
Definition SEC_OMX_AllocateTunnelBuffer (c : nat) (nPortIndex : Z) : M St OMX_ERRORTYPE :=
  ret OMX_ErrorTunnelingUnsupported.
Definition SEC_OMX_FreeTunnelBuffer (c : nat) (nPortIndex : Z) : M St OMX_ERRORTYPE :=
  ret OMX_ErrorTunnelingUnsupported.
Definition SEC_OMX_ComponentTunnelRequest (c : nat) (nPort : Z) (tunneled : option nat)
    (nTunneledPort : Z) : M St OMX_ERRORTYPE :=
  ret OMX_ErrorTunnelingUnsupported.
End buffers.

(** ** The slots of a port

    [port_slots p hs ss]: the two arrays of the port, of the same length, which
    covers the number of buffers of the port definition. *)
Definition port_slots (p : SEC_OMX_BASEPORT) (hs : list (option nat)) (ss : list Z) : Prop :=
  bufferHeader p = Ptr hs /\ bufferStateAllocate p = Ptr ss /\
  zlength hs = zlength ss /\ 0 <= nBufferCountActual (portDefinition p) <= zlength ss.

Abbreviation buffer_count p := (nBufferCountActual (portDefinition p)).

(** The first free slot among the buffers of the port. *)
Definition first_free (ss : list Z) (count : Z) : option nat :=
  fst <$> list_find (fun st => st = BUFFER_STATE_FREE) (take (Z.to_nat count) ss).

Section steps.
Context `{Env} (I : St -> Prop) (c : nat) (i : Z).

(** The port after the slot [j] is given to the header [b]. *)
Definition assigned (p : SEC_OMX_BASEPORT) (hs : list (option nat)) (ss : list Z) (j : nat) (b : nat)
    (state : Z) : SEC_OMX_BASEPORT :=
  let p' := p<|bufferHeader := Ptr (<[j := Some b]> hs)|>
             <|bufferStateAllocate := Ptr (<[j := state]> ss)|>
             <|assignedBufferNum := u32 (assignedBufferNum p + 1)|> in
  if u32 (assignedBufferNum p + 1) =? buffer_count p
  then p'<|portDefinition ::= fun d => d<|bPopulated := true|>|>
         <|loadedResource := (SEC_OSAL_SemaphorePost (loadedResource p)).2|>
  else p'.

Lemma assign_step_busy p hs ss b state buffer size app r s (j : nat) st :
  valid c s -> has_port i r -> port_slots p hs ss -> ss !! j = Some st -> st <> BUFFER_STATE_FREE ->
  wp I (assign_step c i b state buffer size app (Z.of_nat j) (at_port c i p r s))
    (fun x s' => x = None /\ s' = at_port c i p r s).
Proof.
  intros Hv Hi (_ & Hss & _) Hj Hst. unfold assign_step. apply wp_bind.
  eapply pwp_load; [apply _|done|done| |].
  { cbv beta. simpl. rewrite Hss. by rewrite zlookup_of_nat, Hj. }
  rewrite (proj2 (Z.eqb_neq _ _) Hst). by apply wp_ret.
Qed.

Lemma assign_step_free p hs ss b h0 state buffer size app r s (j : nat) Q :
  valid c s -> has_port i r -> port_slots p hs ss -> headers s !! b = Some h0 ->
  ss !! j = Some BUFFER_STATE_FREE ->
  Q (Some tt) (at_port c i (assigned p hs ss j b state) r
                 s<|headers ::= <[b := header_init i buffer size app]>|>) ->
  wp I (assign_step c i b state buffer size app (Z.of_nat j) (at_port c i p r s)) Q.
Proof.
  intros Hv Hi (Hhs & Hss & Hlen & Hcount) Hb Hj HQ. unfold assign_step. apply wp_bind.
  assert (is_Some (hs !! j)) as [h Hh].
  { apply lookup_lt_is_Some. apply lookup_lt_Some in Hj. unfold zlength in Hlen. lia. }
  eapply pwp_load; [apply _|done|done| |].
  { cbv beta. simpl. rewrite Hss. by rewrite zlookup_of_nat, Hj. }
  cbn [Z.eqb BUFFER_STATE_FREE]. apply wp_bind.
  eapply pwp_store; [apply _|done|done| |reflexivity|].
  { cbv beta. simpl. rewrite Hhs. by rewrite zlookup_of_nat, Hh. }
  simpl. rewrite Hhs, zinsert_of_nat. apply wp_bind.
  eapply pwp_store; [apply _|done|done| |reflexivity|].
  { cbv beta. simpl. rewrite Hss. by rewrite zlookup_of_nat, Hj. }
  simpl. rewrite Hss, zinsert_of_nat. apply wp_bind.
  eapply pwp_put_header; [done|]. apply wp_bind.
  eapply pwp_update; [apply _|fvalid|done|done|reflexivity|]. apply wp_bind.
  eapply pwp_load; [apply _|fvalid|done|reflexivity|]. apply wp_bind. simpl.
  unfold assigned in HQ. destruct (_ =? _).
  - apply wp_bind. eapply pwp_store; [apply _|fvalid|done|reflexivity|reflexivity|].
    apply wp_bind. eapply pwp_apply_at; [apply _|fvalid|done|reflexivity|apply surjective_pairing|reflexivity|].
    exact HQ.
  - exact HQ.
Qed.

Lemma first_free_Some ss count j :
  first_free ss count = Some j ->
  (j < Z.to_nat count)%nat /\ ss !! j = Some BUFFER_STATE_FREE /\
  forall k st, (k < j)%nat -> ss !! k = Some st -> st <> BUFFER_STATE_FREE.
Proof.
  unfold first_free. intros Hf. apply fmap_Some in Hf as ([j' st] & Hf & ->).
  apply list_find_Some in Hf as (Hj & -> & Hlt). apply lookup_take_Some in Hj as [Hj Hjlt]. simpl.
  split; [done|]. split; [done|]. intros k st Hk Hst. apply (Hlt k); [|done].
  apply lookup_take_Some. split; [done|lia].
Qed.

Lemma first_free_None ss count k st :
  first_free ss count = None -> (k < Z.to_nat count)%nat -> ss !! k = Some st -> st <> BUFFER_STATE_FREE.
Proof.
  unfold first_free. intros Hf Hk Hst. apply fmap_None in Hf. apply list_find_None in Hf.
  rewrite Forall_lookup in Hf. apply (Hf k). apply lookup_take_Some. by split.
Qed.

Lemma assign_slot_wp p hs ss b h0 state buffer size app r s Q :
  valid c s -> has_port i r -> port_slots p hs ss -> headers s !! b = Some h0 ->
  match first_free ss (buffer_count p) with
  | None => Q None (at_port c i p r s)
  | Some j =>
      Q (Some tt) (at_port c i (assigned p hs ss j b state) r
                     s<|headers ::= <[b := header_init i buffer size app]>|>)
  end ->
  wp I (assign_slot c i b state buffer size app (at_port c i p r s)) Q.
Proof.
  intros Hv Hi Hslots Hb HQ. pose proof Hslots as (_ & _ & _ & Hcount). unfold zlength in Hcount.
  unfold assign_slot. apply wp_bind. eapply pwp_load; [apply _|done|done|done|]. cbv beta.
  assert (forall n : nat, (n <= length ss)%nat ->
    (forall k st, (k < n)%nat -> ss !! k = Some st -> st <> BUFFER_STATE_FREE) ->
    forall j, 0 <= j < 0 + Z.of_nat n ->
      wp I (assign_step c i b state buffer size app j (at_port c i p r s))
        (fun x s' => x = None /\ s' = at_port c i p r s)) as Hskip.
  { intros n Hn Hbusy j Hj. destruct (lookup_lt_is_Some_2 ss (Z.to_nat j)) as [st Hst]; [lia|].
    rewrite <- (Z2Nat.id j) by lia. eapply assign_step_busy; [done..|]. eapply Hbusy; [|done]; lia. }
  destruct (first_free ss (buffer_count p)) as [j|] eqn:Hf.
  - apply first_free_Some in Hf as (Hj & Hst & Hbusy).
    replace (Z.to_nat (buffer_count p)) with (j + S (Z.to_nat (buffer_count p) - S j))%nat by lia.
    apply wp_for_exit_skip; [apply Hskip; [lia|done]|]. rewrite Z.add_0_l.
    apply wp_for_exit_S. eapply assign_step_free; [done..|]. exact HQ.
  - replace (Z.to_nat (buffer_count p)) with (Z.to_nat (buffer_count p) + 0)%nat by lia.
    apply wp_for_exit_skip; [apply Hskip; [lia|]|by apply wp_for_exit_0].
    intros k st Hk. by apply (first_free_None _ _ _ _ Hf).
Qed.

(** *** Release *)

(** The slot that holds a buffer with the payload [a]. *)
Definition carries (hm : gmap nat OMX_BUFFERHEADERTYPE) (a : Z) (x : option nat * Z) : bool :=
  match x.1 with
  | Some hb => negb (x.2 =? BUFFER_STATE_FREE) && bool_decide (pBuffer <$> hm !! hb = Some a)
  | None => false
  end.
Definition carrier (hm : gmap nat OMX_BUFFERHEADERTYPE) (a : Z) (hs : list (option nat)) (ss : list Z)
    (count : Z) : option nat :=
  fst <$> list_find (fun x => carries hm a x = true) (take (Z.to_nat count) (zip hs ss)).

(** The states [SEC_OMX_UseBuffer] and [SEC_OMX_AllocateBuffer] leave. *)
Definition STATE_USED : Z := Z.lor BUFFER_STATE_ASSIGNED HEADER_STATE_ALLOCATED.
Definition STATE_ALLOCATED : Z := Z.lor BUFFER_STATE_ALLOCATED HEADER_STATE_ALLOCATED.

Definition released (p : SEC_OMX_BASEPORT) (hs : list (option nat)) (ss : list Z) (j : nat)
  : SEC_OMX_BASEPORT :=
  p<|bufferHeader := Ptr (<[j := None]> hs)|><|bufferStateAllocate := Ptr (<[j := BUFFER_STATE_FREE]> ss)|>
   <|assignedBufferNum := u32 (assignedBufferNum p - 1)|>.

Definition no_payload (h : OMX_BUFFERHEADERTYPE) : OMX_BUFFERHEADERTYPE := h<|pBuffer := 0|>.

Lemma release_slot_used p hs ss (j : nat) hb h b r s Q :
  valid c s -> has_port i r -> port_slots p hs ss ->
  ss !! j = Some STATE_USED -> hs !! j = Some (Some hb) -> headers s !! hb = Some h ->
  Q tt (at_port c i (released p hs ss j) r s<|headers ::= delete hb|>) ->
  wp I (release_slot c i (Z.of_nat j) hb b (at_port c i p r s)) Q.
Proof.
  intros Hv Hi (Hhs & Hss & _) Hst Hj Hh HQ. unfold release_slot. apply wp_bind.
  eapply pwp_load; [apply _|done|done| |].
  { cbv beta. simpl. rewrite Hss. by rewrite zlookup_of_nat, Hst. }
  apply wp_bind. cbn. apply wp_bind.
  eapply pwp_update; [apply _|done|done|reflexivity|reflexivity|]. apply wp_bind, wp_bind.
  eapply pwp_free_header; [done|].
  eapply pwp_store; [apply _|fvalid|done| |reflexivity|].
  { cbv beta. simpl. rewrite Hhs. by rewrite zlookup_of_nat, Hj. }
  simpl. rewrite Hhs, zinsert_of_nat.
  eapply pwp_store; [apply _|fvalid|done| |reflexivity|].
  { cbv beta. simpl. rewrite Hss. by rewrite zlookup_of_nat, Hst. }
  simpl. rewrite Hss, zinsert_of_nat. exact HQ.
Qed.

(** [pSECPort->bufferHeader[i]->pBuffer = NULL; pBufferHdr->pBuffer = NULL;] when the
    first header is freed next; the two may be the same. *)
Lemma cleared_headers (hm : gmap nat OMX_BUFFERHEADERTYPE) hb b h h' x :
  hm !! b = Some h' ->
  delete hb (<[b := no_payload (if decide (b = hb) then no_payload h else h')]> (<[hb := x]> hm)) =
  delete hb (alter no_payload b hm).
Proof.
  intros Hb. apply map_eq. intros k. destruct (decide (k = hb)) as [->|Hk].
  { by rewrite !lookup_delete_eq. }
  rewrite !lookup_delete_ne by done. destruct (decide (k = b)) as [->|Hkb].
  - rewrite lookup_insert_eq, lookup_alter_eq, Hb. by rewrite decide_False.
  - rewrite lookup_insert_ne, lookup_insert_ne, lookup_alter_ne by done. done.
Qed.

(** The payload of a buffer the component allocated is freed with it. *)
Lemma release_slot_allocated p hs ss (j : nat) hb h b h' r s Q :
  valid c s -> has_port i r -> port_slots p hs ss ->
  ss !! j = Some STATE_ALLOCATED -> hs !! j = Some (Some hb) -> headers s !! hb = Some h ->
  headers s !! b = Some h' -> 0 < pBuffer h -> is_Some (memory s !! pBuffer h) ->
  Q tt (at_port c i (released p hs ss j) r
          s<|headers ::= fun m => delete hb (alter no_payload b m)|><|memory ::= delete (pBuffer h)|>) ->
  wp I (release_slot c i (Z.of_nat j) hb b (at_port c i p r s)) Q.
Proof.
  intros Hv Hi (Hhs & Hss & _) Hst Hj Hh Hb Ha Hm HQ. unfold release_slot. apply wp_bind.
  eapply pwp_load; [apply _|done|done| |].
  { cbv beta. simpl. rewrite Hss. by rewrite zlookup_of_nat, Hst. }
  apply wp_bind. cbn [negb STATE_ALLOCATED Z.lor Z.land Z.eqb BUFFER_STATE_ALLOCATED HEADER_STATE_ALLOCATED].
  change (Z.land STATE_ALLOCATED BUFFER_STATE_ALLOCATED) with 1.
  change (Z.land STATE_ALLOCATED HEADER_STATE_ALLOCATED) with 4. cbn [Z.eqb negb].
  apply wp_bind. eapply pwp_load_header; [done|]. apply wp_bind, pwp_Free; [done..|].
  apply wp_bind. eapply pwp_store_header; [done|].
  eapply pwp_store_header with (h := if decide (b = hb) then no_payload h else h').
  { simpl. case_decide; subst; [by rewrite lookup_insert_eq|by rewrite lookup_insert_ne]. }
  apply wp_bind.
  eapply pwp_update; [apply _|fvalid|done|reflexivity|reflexivity|]. apply wp_bind, wp_bind.
  eapply pwp_free_header with (h := no_payload h).
  { simpl. case_decide; subst; [by rewrite lookup_insert_eq|].
    rewrite lookup_insert_ne by done. by rewrite lookup_insert_eq. }
  eapply pwp_store; [apply _|fvalid|done| |reflexivity|].
  { cbv beta. simpl. rewrite Hhs. by rewrite zlookup_of_nat, Hj. }
  simpl. rewrite Hhs, zinsert_of_nat.
  eapply pwp_store; [apply _|fvalid|done| |reflexivity|].
  { cbv beta. simpl. rewrite Hss. by rewrite zlookup_of_nat, Hst. }
  simpl. rewrite Hss, zinsert_of_nat. 
  match goal with |- Q tt (at_port c i ?p1 r ?s1) => match type of HQ with Q tt (at_port c i ?p2 r ?s2) =>
    replace s1 with s2; [exact HQ|] end end.
  destruct s; simpl in *. unfold set_field; simpl. f_equal.
  symmetry. by apply cleared_headers.
Qed.

(** A slot is free, or holds a header that exists; the payload is the client's in a slot of
    [SEC_OMX_UseBuffer], and nothing is known of it, and a block that exists in a slot of
    [SEC_OMX_AllocateBuffer]. *)
Definition slot_ok (s : St) (hb : option nat) (st : Z) : Prop :=
  match hb with
  | None => st = BUFFER_STATE_FREE
  | Some b => exists h, headers s !! b = Some h /\
      (st = STATE_USED \/
       (st = STATE_ALLOCATED /\ 0 < pBuffer h /\ is_Some (memory s !! pBuffer h)))
  end.

(** The world after the release of a slot in the state [st] with the header [hb];
    the client gave the header [b] with the payload [a]. *)
Definition released_world (st : Z) (hb b : nat) (a : Z) (s : St) : St :=
  if st =? STATE_ALLOCATED
  then s<|headers ::= fun m => delete hb (alter no_payload b m)|><|memory ::= delete a|>
  else s<|headers ::= delete hb|>.

Lemma release_step_other p hs ss b h' r s (j : nat) hb st :
  valid c s -> has_port i r -> port_slots p hs ss -> headers s !! b = Some h' ->
  hs !! j = Some hb -> ss !! j = Some st -> slot_ok s hb st ->
  carries (headers s) (pBuffer h') (hb, st) <> true ->
  wp I (release_step c i (Some b) (Z.of_nat j) (at_port c i p r s))
    (fun x s' => x = None /\ s' = at_port c i p r s).
Proof.
  intros Hv Hi (Hhs & Hss & _) Hb Hj Hst Hok Hc. unfold release_step. apply wp_bind.
  eapply pwp_load; [apply _|done|done| |].
  { cbv beta. simpl. rewrite Hss. by rewrite zlookup_of_nat, Hst. }
  apply wp_bind. eapply pwp_load; [apply _|done|done| |].
  { cbv beta. simpl. rewrite Hhs. by rewrite zlookup_of_nat, Hj. }
  destruct hb as [hb|]; [|by apply wp_ret]. destruct Hok as (h & Hh & Hcase).
  unfold carries in Hc. simpl in Hc. rewrite Hh in Hc. simpl in Hc.
  assert (negb (st =? BUFFER_STATE_FREE) = true) as Hnf by (by destruct Hcase as [->|[-> _]]).
  rewrite Z.lor_0_r. change 0 with BUFFER_STATE_FREE. rewrite Hnf in *.
  apply wp_bind. eapply pwp_load_header; [done|]. apply wp_bind. eapply pwp_load_header; [done|].
  destruct (Z.eqb_spec (pBuffer h) (pBuffer h')) as [Heq|]; [|by apply wp_ret].
  exfalso. apply Hc. rewrite Heq. simpl. by rewrite bool_decide_true.
Qed.

Lemma release_step_match p hs ss b h' r s (j : nat) hb h st Q :
  valid c s -> has_port i r -> port_slots p hs ss -> headers s !! b = Some h' ->
  hs !! j = Some (Some hb) -> ss !! j = Some st -> slot_ok s (Some hb) st ->
  headers s !! hb = Some h -> pBuffer h = pBuffer h' ->
  Q (Some tt) (at_port c i (released p hs ss j) r (released_world st hb b (pBuffer h') s)) ->
  wp I (release_step c i (Some b) (Z.of_nat j) (at_port c i p r s)) Q.
Proof.
  intros Hv Hi Hslots Hb Hj Hst (h0 & Hh0 & Hcase) Hh Heq HQ. simplify_eq.
  pose proof Hslots as (Hhs & Hss & _). unfold release_step. apply wp_bind.
  eapply pwp_load; [apply _|done|done| |].
  { cbv beta. simpl. rewrite Hss. by rewrite zlookup_of_nat, Hst. }
  apply wp_bind. eapply pwp_load; [apply _|done|done| |].
  { cbv beta. simpl. rewrite Hhs. by rewrite zlookup_of_nat, Hj. }
  assert (negb (Z.lor st BUFFER_STATE_FREE =? 0) = true) as -> by (by destruct Hcase as [->|[-> _]]).
  apply wp_bind. eapply pwp_load_header; [done|]. apply wp_bind. eapply pwp_load_header; [done|].
  rewrite (proj2 (Z.eqb_eq _ _) Heq). apply wp_bind. destruct Hcase as [->|(-> & Hpos & Hm)].
  - eapply release_slot_used; [done..|]. exact HQ.
  - eapply release_slot_allocated; [done..|]. rewrite Heq. exact HQ.
Qed.

Lemma carrier_Some hm a hs ss count j :
  carrier hm a hs ss count = Some j ->
  (j < Z.to_nat count)%nat /\
  (exists hb st h, hs !! j = Some (Some hb) /\ ss !! j = Some st /\ st <> BUFFER_STATE_FREE /\
     hm !! hb = Some h /\ pBuffer h = a) /\
  forall k hb st, (k < j)%nat -> hs !! k = Some hb -> ss !! k = Some st -> carries hm a (hb, st) <> true.
Proof.
  unfold carrier. intros Hf. apply fmap_Some in Hf as ([j' x] & Hf & ->).
  apply list_find_Some in Hf as (Hj & Hx & Hlt). apply lookup_take_Some in Hj as [Hj Hjlt]. simpl.
  destruct x as [hb0 st]. apply lookup_zip_Some in Hj as [Hh Hs]. destruct hb0 as [hb|]; [|done]. simpl in *.
  unfold carries in Hx. simpl in Hx. apply andb_prop in Hx as [Hst Hp].
  apply bool_decide_eq_true in Hp. apply fmap_Some in Hp as (h & Hhm & ->).
  split; [done|]. split; [exists hb, st, h; split_and!; try done; by destruct (Z.eqb_spec st BUFFER_STATE_FREE)|].
  intros k hb' st' Hk Hh' Hs'. apply (Hlt k); [|done]. apply lookup_take_Some. split; [|lia].
  by apply lookup_zip_Some.
Qed.

Lemma carrier_None hm a hs ss count k hb st :
  carrier hm a hs ss count = None -> (k < Z.to_nat count)%nat ->
  hs !! k = Some hb -> ss !! k = Some st -> carries hm a (hb, st) <> true.
Proof.
  unfold carrier. intros Hf Hk Hh Hs. apply fmap_None, list_find_None in Hf.
  rewrite Forall_lookup in Hf. apply (Hf k). apply lookup_take_Some. split; [|done].
  by apply lookup_zip_Some.
Qed.

Lemma release_loop_wp p hs ss b h' r s Q :
  valid c s -> has_port i r -> port_slots p hs ss -> Forall2 (slot_ok s) hs ss ->
  headers s !! b = Some h' ->
  match carrier (headers s) (pBuffer h') hs ss (buffer_count p) with
  | None => Q None (at_port c i p r s)
  | Some j => forall hb st, hs !! j = Some (Some hb) -> ss !! j = Some st ->
      Q (Some tt) (at_port c i (released p hs ss j) r (released_world st hb b (pBuffer h') s))
  end ->
  wp I (release_loop c i (Some b) (at_port c i p r s)) Q.
Proof.
  intros Hv Hi Hslots Hok Hb HQ. pose proof Hslots as (_ & _ & Hlen & Hcount).
  unfold zlength in *.
  unfold release_loop. apply wp_bind. eapply pwp_load; [apply _|done|done|done|]. cbv beta.
  assert (forall n : nat, (n <= length ss)%nat ->
    (forall k hb st, (k < n)%nat -> hs !! k = Some hb -> ss !! k = Some st ->
       carries (headers s) (pBuffer h') (hb, st) <> true) ->
    forall j, 0 <= j < 0 + Z.of_nat n ->
      wp I (release_step c i (Some b) j (at_port c i p r s))
        (fun x s' => x = None /\ s' = at_port c i p r s)) as Hskip.
  { intros n Hn Hno j Hj. destruct (lookup_lt_is_Some_2 ss (Z.to_nat j)) as [st Hst]; [lia|].
    destruct (lookup_lt_is_Some_2 hs (Z.to_nat j)) as [hb Hhb]; [lia|].
    rewrite <- (Z2Nat.id j) by lia. eapply release_step_other; [done..| |].
    - by eapply Forall2_lookup_lr.
    - eapply Hno; [|done..]. lia. }
  destruct (carrier _ _ _ _ _) as [j|] eqn:Hf.
  - apply carrier_Some in Hf as (Hj & (hb & st & h & Hhb & Hst & _ & Hh & Heq) & Hno).
    replace (Z.to_nat (buffer_count p)) with (j + S (Z.to_nat (buffer_count p) - S j))%nat by lia.
    apply wp_for_exit_skip; [apply Hskip; [lia|done]|]. rewrite Z.add_0_l.
    apply wp_for_exit_S. eapply release_step_match; [done..| |done|done|].
    + by eapply (Forall2_lookup_lr (slot_ok s)).
    + by apply HQ.
  - replace (Z.to_nat (buffer_count p)) with (Z.to_nat (buffer_count p) + 0)%nat by lia.
    apply wp_for_exit_skip; [apply Hskip; [lia|]|by apply wp_for_exit_0].
    intros k hb st Hk. by apply (carrier_None _ _ _ _ _ _ _ _ Hf).
Qed.
End steps.

(** ** The operations *)
Section operations.
Context `{Env} (I : St -> Prop) (c : nat) (i : Z) (s : St) (r : SEC_OMX_BASECOMPONENT).
Context (p : SEC_OMX_BASEPORT) (hs : list (option nat)) (ss : list Z).
Hypothesis (Hlive : live c s) (Hr : look (pSECComponent c) s = inr r) (Hp : port_get i r = inr p).
Hypothesis (Hslots : port_slots p hs ss).

(** The buffers of a supplier port of a tunnel are not the client's. *)
Definition supplied (p : SEC_OMX_BASEPORT) : bool := CHECK_PORT_TUNNELED p && CHECK_PORT_BUFFER_SUPPLIER p.

Lemma wp_entry_out {A} (out : A) body Q :
  wp I (body c (at_port c i p r s)) Q -> wp I (entry_out (Some c) out body s) Q.
Proof.
  intros HQ. unfold entry_out. apply wp_bind. rewrite <- (set_sec_id c s r) by done.
  apply wp_entry; [done|]. apply wp_ret. simpl. rewrite set_sec_id by done.
  by rewrite (at_port_id c i p r s) in HQ.
Qed.

Lemma at_port_here s' : comps s' = comps s -> at_port c i p r s' = s'.
Proof. intros Hc. apply at_port_id; [|done]. rewrite <- Hr. simpl. by rewrite Hc. Qed.

(** The port after a slot is given away; without memory or a free slot nothing
    changes. *)
Lemma UseBuffer_wp app size buffer Q :
  i < nPorts (portParam r) -> portState p = OMX_StateIdle -> supplied p = false ->
  (os (oscalls s) = false \/ first_free ss (buffer_count p) = None ->
     Q (OMX_ErrorInsufficientResources, None) s<|oscalls ::= S|>) ->
  (forall j b, os (oscalls s) = true -> first_free ss (buffer_count p) = Some j -> headers s !! b = None ->
     Q (OMX_ErrorNone, Some b)
       (at_port c i (assigned p hs ss j b STATE_USED) r
          s<|oscalls ::= S|><|headers ::= <[b := header_init i buffer size app]>|>)) ->
  wp I (SEC_OMX_UseBuffer (Some c) i app size buffer s) Q.
Proof.
  intros Hi Hst Hsup HF HS. assert (has_port i r) as Hpi by by exists p.
  pose proof (live_valid c s Hlive) as Hv. unfold SEC_OMX_UseBuffer. apply wp_entry_out.
  apply wp_bind. eapply wp_load; [apply _|done|reflexivity|]. autorewrite with port.
  rewrite (proj2 (Z.leb_gt _ _)) by done. apply wp_bind.
  eapply pwp_load; [apply _|done|done|reflexivity|]. rewrite Hst. simpl.
  unfold supplied in Hsup. rewrite Hsup. apply wp_bind, pwp_malloc_header.
  { intros Hos. apply wp_ret. rewrite at_port_here by done. apply HF. by left. }
  intros Hos b Hb. apply wp_bind. eapply assign_slot_wp; [fvalid|done|done|simpl; by rewrite lookup_insert_eq|].
  destruct (first_free ss (buffer_count p)) as [j|] eqn:Hf.
  - apply wp_ret. rewrite headers_twice. by apply HS.
  - apply wp_bind. eapply pwp_free_header; [simpl; by rewrite lookup_insert_eq|]. apply wp_ret.
    rewrite headers_undo by done. rewrite at_port_here by done. apply HF. by right.
Qed.

Lemma AllocateBuffer_wp app size Q :
  i < nPorts (portParam r) -> supplied p = false ->
  (forall n, os (oscalls s) = false \/ os (S (oscalls s)) = false \/ first_free ss (buffer_count p) = None ->
     Q (OMX_ErrorInsufficientResources, None) s<|oscalls := n|>) ->
  (forall j b a, os (oscalls s) = true -> os (S (oscalls s)) = true ->
     first_free ss (buffer_count p) = Some j -> headers s !! b = None -> 0 < a -> memory s !! a = None ->
     Q (OMX_ErrorNone, Some b)
       (at_port c i (assigned p hs ss j b STATE_ALLOCATED) r
          s<|oscalls := S (S (oscalls s))|><|headers ::= <[b := header_init i a size app]>|>
           <|memory ::= <[a := replicate (Z.to_nat size) None]>|>)) ->
  wp I (SEC_OMX_AllocateBuffer (Some c) i app size s) Q.
Proof.
  intros Hi Hsup HF HS. assert (has_port i r) as Hpi by by exists p.
  pose proof (live_valid c s Hlive) as Hv. unfold SEC_OMX_AllocateBuffer. apply wp_entry_out.
  apply wp_bind. eapply wp_load; [apply _|done|reflexivity|]. autorewrite with port.
  rewrite (proj2 (Z.leb_gt _ _)) by done. apply wp_bind.
  eapply pwp_load; [apply _|done|done|reflexivity|].
  unfold supplied in Hsup. rewrite Hsup. apply wp_bind, pwp_Malloc.
  { intros Hos. apply wp_ret. rewrite at_port_here by done. apply HF. by left. }
  intros Hos a Ha Hm. apply wp_bind, pwp_malloc_header; simpl.
  { intros Hos'. apply wp_bind, pwp_Free; [done|simpl; by rewrite lookup_insert_eq|]. apply wp_ret.
    rewrite at_port_here by done. rewrite memory_undo_calls by done. apply HF. auto. }
  intros Hos' b Hb. apply wp_bind.
  eapply assign_slot_wp; [fvalid|done|done|simpl; by rewrite lookup_insert_eq|].
  destruct (first_free ss (buffer_count p)) as [j|] eqn:Hf.
  - apply wp_ret. rewrite headers_twice. by apply HS.
  - apply wp_bind. eapply pwp_free_header; [simpl; by rewrite lookup_insert_eq|].
    rewrite headers_undo by done. apply wp_bind, pwp_Free; [done|simpl; by rewrite lookup_insert_eq|].
    apply wp_ret. rewrite at_port_here by done. rewrite memory_undo_calls by done. apply HF. auto.
Qed.
(** The end of [SEC_OMX_FreeBuffer], and what it reports. *)
Definition settled (p : SEC_OMX_BASEPORT) : SEC_OMX_BASEPORT :=
  if assignedBufferNum p =? 0
  then p<|unloadedResource := (SEC_OSAL_SemaphorePost (unloadedResource p)).2|>
        <|portDefinition ::= fun d => d<|bPopulated := false|>|>
  else p.
Definition complained : list callback :=
  if (negb (bool_decide (portState p = OMX_StateLoaded))
      && negb (bool_decide (portState p = OMX_StateInvalid)))%bool
  then [EventPortError c OMX_ErrorPortUnpopulated i] else [].

Lemma FreeBuffer_end_wp p' s' Q :
  valid c s' ->
  Q OMX_ErrorNone (at_port c i (settled p') r s') ->
  wp I ((let* n := load (port c i)↘assignedBufferNum in
         (if n =? 0 then
            SemaphorePost (port c i)↘unloadedResource ;;;
            store (port c i)↘portDefinition↘bPopulated false
          else ret tt) ;;; ret OMX_ErrorNone) (at_port c i p' r s')) Q.
Proof.
  intros Hv HQ. assert (has_port i r) as Hpi by by exists p.
  apply wp_bind. eapply pwp_load; [apply _|done|done|reflexivity|]. apply wp_bind.
  unfold settled in HQ. destruct (assignedBufferNum p' =? 0); [|exact HQ].
  apply wp_bind. eapply pwp_apply_at; [apply _|done|done|reflexivity|apply surjective_pairing|reflexivity|].
  eapply pwp_store; [apply _|done|done|reflexivity|reflexivity|]. exact HQ.
Qed.

Lemma FreeBuffer_wp b h cb Q :
  supplied p = false -> pCallbacks r = Some cb -> Forall2 (slot_ok s) hs ss -> headers s !! b = Some h ->
  match carrier (headers s) (pBuffer h) hs ss (buffer_count p) with
  | None => Q OMX_ErrorNone (at_port c i (settled p) r s<|callbacks ::= fun k => k ++ complained|>)
  | Some j => forall hb st, hs !! j = Some (Some hb) -> ss !! j = Some st ->
      Q OMX_ErrorNone (at_port c i (settled (released p hs ss j)) r
        (released_world st hb b (pBuffer h) s<|callbacks ::= fun k => k ++ complained|>))
  end ->
  wp I (SEC_OMX_FreeBuffer (Some c) i (Some b) s) Q.
Proof.
  intros Hsup Hcb Hok Hb HQ. assert (has_port i r) as Hpi by by exists p.
  pose proof (live_valid c s Hlive) as Hv. unfold SEC_OMX_FreeBuffer.
  rewrite <- (set_sec_id c s r) by done. apply wp_entry; [done|]. rewrite set_sec_id by done.
  rewrite <- (at_port_id c i p r s) at 1 by done.
  apply wp_bind. eapply pwp_load; [apply _|done|done|reflexivity|].
  unfold supplied in Hsup. rewrite Hsup. apply wp_bind.
  set (s0 := s<|callbacks ::= fun k => k ++ complained|>) in *.
  assert (wp I ((if (negb (bool_decide (portState p = OMX_StateLoaded))
      && negb (bool_decide (portState p = OMX_StateInvalid)))%bool
    then call_back c (EventPortError c OMX_ErrorPortUnpopulated i) else ret tt) (at_port c i p r s))
    (fun _ s' => s' = at_port c i p r s0)) as Hcomplain.
  { unfold s0, complained. destruct (negb (bool_decide (portState p = OMX_StateLoaded)) && _)%bool.
    - by eapply pwp_call_back.
    - apply wp_ret. f_equal. destruct s; simpl. unfold set_field; simpl. by rewrite app_nil_r. }
  eapply wp_mono; [|exact Hcomplain]. intros [] s' ->. apply wp_bind.
  eapply (release_loop_wp _ _ _ p hs ss b h); [fvalid|done|done|exact Hok|done|].
  change (headers s0) with (headers s).
  destruct (carrier (headers s) (pBuffer h) hs ss (buffer_count p)) as [j|].
  - intros hb st Hhb Hst. apply FreeBuffer_end_wp; [unfold released_world, s0; destruct (st =? _); fvalid|].
    by apply HQ.
  - by apply FreeBuffer_end_wp; [fvalid|].
Qed.
End operations.

(** ** The invariant of the buffers of a component *)
Section invariant.
Context `{Env}.

(** The slot [j] of the port [i]. *)
Definition slot (r : SEC_OMX_BASECOMPONENT) (i : Z) (j : nat) (hb : option nat) (st : Z) : Prop :=
  exists p hs ss, port_get i r = inr p /\ port_slots p hs ss /\ hs !! j = Some hb /\ ss !! j = Some st.

Definition in_use (ss : list Z) (count : Z) : nat :=
  length (filter (fun st => st <> BUFFER_STATE_FREE) (take (Z.to_nat count) ss)).

Definition port_ok (s : St) (p : SEC_OMX_BASEPORT) : Prop :=
  exists hs ss, port_slots p hs ss /\ zlength ss = MAX_BUFFER_NUM /\
    assignedBufferNum p = Z.of_nat (in_use ss (buffer_count p)) /\ Forall2 (slot_ok s) hs ss.

(** The number of assigned buffers is the number of slots in use; every slot in use
    has a header of its own, and every allocated one a payload of its own. *)
Record buffers_ok (s : St) (r : SEC_OMX_BASECOMPONENT) : Prop := {
  ok_port i p : port_get i r = inr p -> port_ok s p;
  ok_header i j i' j' st st' b :
    slot r i j (Some b) st -> slot r i' j' (Some b) st' -> i = i' /\ j = j';
  ok_block i j i' j' b b' h h' :
    slot r i j (Some b) STATE_ALLOCATED -> slot r i' j' (Some b') STATE_ALLOCATED ->
    headers s !! b = Some h -> headers s !! b' = Some h' -> pBuffer h = pBuffer h' -> i = i' /\ j = j'
}.

Lemma port_slots_fun p hs ss hs' ss' : port_slots p hs ss -> port_slots p hs' ss' -> hs = hs' /\ ss = ss'.
Proof. intros (H1 & H2 & _) (H3 & H4 & _). rewrite H1 in H3. rewrite H2 in H4. by simplify_eq. Qed.

Lemma in_use_insert ss count j st st' :
  ss !! j = Some st -> (j < Z.to_nat count)%nat ->
  (in_use (<[j := st']> ss) count + (if decide (st = BUFFER_STATE_FREE) then 0 else 1) =
   in_use ss count + (if decide (st' = BUFFER_STATE_FREE) then 0 else 1))%nat.
Proof.
  unfold in_use. generalize (Z.to_nat count). intros n. revert j n.
  induction ss as [|x ss IH]; intros j n Hj Hn; [done|]. destruct n as [|n]; [lia|].
  destruct j as [|j]; simpl in *.
  - injection Hj as ->. rewrite !filter_cons. by repeat case_decide; simpl; try lia.
  - assert (j < n)%nat as Hjn by lia. specialize (IH j n Hj Hjn). rewrite !filter_cons.
    destruct (decide (x <> BUFFER_STATE_FREE)); simpl; lia.
Qed.

Lemma in_use_le ss count : (in_use ss count <= length ss)%nat.
Proof.
  unfold in_use. etrans; [apply length_filter|]. rewrite length_take. lia.
Qed.

(** A slot of a port that was replaced. *)
Lemma slot_put i p hs ss r i' j hb st :
  has_port i r -> port_slots p hs ss ->
  slot (port_put i p r) i' j hb st <->
  (i' = i /\ hs !! j = Some hb /\ ss !! j = Some st) \/ (i' <> i /\ slot r i' j hb st).
Proof.
  intros Hi Hs. unfold slot. destruct (decide (i' = i)) as [->|Hne].
  - rewrite port_get_put by done. split.
    + intros (p' & hs' & ss' & [= <-] & Hs' & ? & ?). left.
      destruct (port_slots_fun _ _ _ _ _ Hs Hs') as [<- <-]. done.
    + intros [(_ & ? & ?)|[? _]]; [|done]. by exists p, hs, ss.
  - rewrite port_get_put_ne by done. tauto.
Qed.

(** The slots do not depend on the other fields of the port. *)
Lemma port_slots_assigned p hs ss j b st :
  port_slots p hs ss -> port_slots (assigned p hs ss j b st) (<[j := Some b]> hs) (<[j := st]> ss).
Proof.
  intros (H1 & H2 & H3 & H4). unfold assigned, port_slots, zlength in *.
  destruct (_ =? _); simpl; rewrite !length_insert; done.
Qed.
Lemma port_slots_released p hs ss j :
  port_slots p hs ss ->
  port_slots (settled (released p hs ss j)) (<[j := None]> hs) (<[j := BUFFER_STATE_FREE]> ss).
Proof.
  intros (H1 & H2 & H3 & H4). unfold settled, released, port_slots, zlength in *.
  destruct (_ =? _); simpl; rewrite !length_insert; done.
Qed.

Lemma slot_state_ok s r i j hb st : buffers_ok s r -> slot r i j hb st -> slot_ok s hb st.
Proof.
  intros Hok (p & hs & ss & Hp & Hs & Hh & Hst).
  destruct (ok_port _ _ Hok i p Hp) as (hs' & ss' & Hs' & _ & _ & Hall).
  destruct (port_slots_fun _ _ _ _ _ Hs Hs') as [<- <-]. by eapply Forall2_lookup_lr.
Qed.

(** What a port looks like when another one is replaced, and when it is. *)
Lemma ports_ok_put s r i p :
  has_port i r -> port_ok s p -> (forall i' p', i' <> i -> port_get i' r = inr p' -> port_ok s p') ->
  forall i' p', port_get i' (port_put i p r) = inr p' -> port_ok s p'.
Proof.
  intros Hi Hp Hrest i' p' Hp'. destruct (decide (i' = i)) as [->|Hne].
  - rewrite port_get_put in Hp' by done. by injection Hp' as <-.
  - rewrite port_get_put_ne in Hp' by done. by eapply Hrest.
Qed.

Lemma port_ok_mono s s' p :
  (forall hb st, slot_ok s hb st -> slot_ok s' hb st) -> port_ok s p -> port_ok s' p.
Proof.
  intros Hmono (hs & ss & ? & ? & ? & Hall). exists hs, ss. split_and!; try done.
  eapply Forall2_impl; [exact Hall|]. intros. by apply Hmono.
Qed.

Lemma num_assigned p hs ss j b st :
  port_slots p hs ss -> zlength ss = MAX_BUFFER_NUM ->
  assignedBufferNum p = Z.of_nat (in_use ss (buffer_count p)) ->
  first_free ss (buffer_count p) = Some j -> st <> BUFFER_STATE_FREE ->
  buffer_count (assigned p hs ss j b st) = buffer_count p /\
  assignedBufferNum (assigned p hs ss j b st) =
    Z.of_nat (in_use (<[j := st]> ss) (buffer_count (assigned p hs ss j b st))).
Proof.
  intros Hs Hlen Hnum Hf Hst. apply first_free_Some in Hf as (Hj & Hfree & _).
  pose proof (in_use_insert ss (buffer_count p) j _ st Hfree Hj) as Hins.
  rewrite decide_True, decide_False in Hins by done.
  pose proof (in_use_le (<[j := st]> ss) (buffer_count p)) as Hle. rewrite length_insert in Hle.
  unfold zlength, MAX_BUFFER_NUM in Hlen.
  assert (u32 (assignedBufferNum p + 1) = Z.of_nat (in_use (<[j:=st]> ss) (buffer_count p))) as Hu.
  { rewrite u32_id by (unfold is_u32; lia). lia. }
  unfold assigned. destruct (_ =? _); simpl; done.
Qed.

(** A slot after an assignment is the new one or an old one. *)
Lemma slot_assigned r i p hs ss j b st i0 j0 hb0 st0 :
  port_get i r = inr p -> port_slots p hs ss ->
  slot (port_put i (assigned p hs ss j b st) r) i0 j0 hb0 st0 ->
  (i0 = i /\ j0 = j /\ hb0 = Some b /\ st0 = st) \/ slot r i0 j0 hb0 st0.
Proof.
  intros Hp Hs Hx. assert (has_port i r) as Hi by by exists p.
  apply (slot_put _ _ _ _ _ _ _ _ _ Hi (port_slots_assigned p hs ss j b st Hs)) in Hx
    as [(-> & Hx & Hy)|[? ?]]; [|auto].
  apply list_lookup_insert_Some in Hx as [(-> & <- & ?)|[Hne Hx]].
  - apply list_lookup_insert_Some in Hy as [(_ & <- & _)|[? _]]; [auto|done].
  - apply list_lookup_insert_Some in Hy as [(-> & _)|[_ Hy]]; [done|]. right. by exists p, hs, ss.
Qed.

(** A slot after a release is free or an old one other than the released one. *)
Lemma slot_released r i p hs ss j i0 j0 b0 st0 :
  port_get i r = inr p -> port_slots p hs ss ->
  slot (port_put i (settled (released p hs ss j)) r) i0 j0 (Some b0) st0 ->
  slot r i0 j0 (Some b0) st0 /\ ~ (i0 = i /\ j0 = j).
Proof.
  intros Hp Hs Hx. assert (has_port i r) as Hi by by exists p.
  apply (slot_put _ _ _ _ _ _ _ _ _ Hi (port_slots_released p hs ss j Hs)) in Hx
    as [(-> & Hx & Hy)|[? ?]]; [|split; [done|tauto]].
  apply list_lookup_insert_Some in Hx as [(-> & ? & ?)|[Hne Hx]]; [done|].
  apply list_lookup_insert_Some in Hy as [(-> & _)|[_ Hy]]; [done|].
  split; [by exists p, hs, ss|]. intros [_ ->]. done.
Qed.

Lemma assign_ok s s' r i p hs ss j b h st :
  buffers_ok s r -> port_get i r = inr p -> port_slots p hs ss ->
  first_free ss (buffer_count p) = Some j ->
  headers s !! b = None -> headers s' = <[b := h]> (headers s) ->
  (forall a, is_Some (memory s !! a) -> is_Some (memory s' !! a)) ->
  st = STATE_USED \/
    (st = STATE_ALLOCATED /\ 0 < pBuffer h /\ memory s !! pBuffer h = None /\ is_Some (memory s' !! pBuffer h)) ->
  buffers_ok s' (port_put i (assigned p hs ss j b st) r).
Proof.
  intros Hok Hp Hs Hf Hb Hh' Hm' Hst. assert (has_port i r) as Hi by by exists p.
  assert (forall hb st, slot_ok s hb st -> slot_ok s' hb st) as Hmono.
  { intros [b0|] st0; [|done]. intros (h0 & Hh0 & Hcase). exists h0.
    assert (b0 <> b) by (by intros ->; rewrite Hb in Hh0).
    rewrite Hh', lookup_insert_ne by done. split; [done|]. destruct Hcase as [?|(? & ? & ?)]; auto. }
  assert (st <> BUFFER_STATE_FREE) as Hnf by (by destruct Hst as [->|[-> _]]).
  pose proof (fun i0 j0 hb0 st0 => slot_assigned r i p hs ss j b st i0 j0 hb0 st0 Hp Hs) as Hslot.
  assert (forall i0 j0 st0, slot r i0 j0 (Some b) st0 -> False) as Hnew.
  { intros i0 j0 st0 Hx. apply (slot_state_ok s) in Hx as (h0 & Hh0 & _); [|done]. by rewrite Hb in Hh0. }
  split.
  - apply ports_ok_put; [done| |].
    + destruct (ok_port _ _ Hok i p Hp) as (hs0 & ss0 & Hs0 & Hlen & Hnum & Hall).
      destruct (port_slots_fun _ _ _ _ _ Hs Hs0) as [<- <-].
      destruct (num_assigned p hs ss j b st Hs Hlen Hnum Hf Hnf) as [Hc Hn].
      exists (<[j := Some b]> hs), (<[j := st]> ss). split; [by apply port_slots_assigned|].
      split; [unfold zlength; by rewrite length_insert|]. split; [done|]. apply Forall2_insert.
      * eapply Forall2_impl; [exact Hall|]. intros. by apply Hmono.
      * exists h. rewrite Hh', lookup_insert_eq. split; [done|]. destruct Hst as [?|(? & ? & _ & ?)]; auto.
    + intros i' p' Hne Hp'. eapply port_ok_mono; [exact Hmono|]. by eapply ok_port.
  - intros i1 j1 i2 j2 st1 st2 b0 H1 H2.
    apply Hslot in H1 as [(-> & -> & [= ->] & _)|H1], H2 as [(-> & -> & Heq & _)|H2].
    + done.
    + by apply Hnew in H2.
    + injection Heq as ->. by apply Hnew in H1.
    + by eapply ok_header.
  - assert (forall i1 j1 b1 h1, slot r i1 j1 (Some b1) STATE_ALLOCATED -> headers s' !! b1 = Some h1 ->
      headers s !! b1 = Some h1 /\ is_Some (memory s !! pBuffer h1)) as Hold.
    { intros i1 j1 b1 h1 H1 Hh1. pose proof H1 as H1'. apply (slot_state_ok s) in H1 as (h0 & Hh0 & Hcase); [|done].
      assert (b1 <> b) by (intros ->; by apply Hnew in H1').
      rewrite Hh', lookup_insert_ne in Hh1 by done. rewrite Hh0 in Hh1. injection Hh1 as ->.
      by destruct Hcase as [|(_ & _ & ?)]. }
    intros i1 j1 i2 j2 b1 b2 h1 h2 H1 H2 Hh1 Hh2 Heq.
    apply Hslot in H1 as [(-> & -> & [= ->] & <-)|H1], H2 as [(-> & -> & Heq2 & Heq3)|H2].
    + done.
    + destruct (Hold _ _ _ _ H2 Hh2) as [_ [x Hx]]. rewrite Hh', lookup_insert_eq in Hh1. simplify_eq.
      destruct Hst as [|(_ & _ & Hnone & _)]; [done|]. rewrite <- Heq in Hx. by rewrite Hnone in Hx.
    + injection Heq2 as ->. destruct (Hold _ _ _ _ H1 Hh1) as [_ [x Hx]].
      rewrite Hh', lookup_insert_eq in Hh2. injection Hh2 as ->. subst st.
      destruct Hst as [|(_ & _ & Hnone & _)]; [done|]. rewrite Heq in Hx. by rewrite Hnone in Hx.
    + destruct (Hold _ _ _ _ H1 Hh1) as [? _], (Hold _ _ _ _ H2 Hh2) as [? _]. by eapply ok_block.
Qed.

Lemma num_released p hs ss j st :
  port_slots p hs ss -> zlength ss = MAX_BUFFER_NUM ->
  assignedBufferNum p = Z.of_nat (in_use ss (buffer_count p)) ->
  ss !! j = Some st -> st <> BUFFER_STATE_FREE -> (j < Z.to_nat (buffer_count p))%nat ->
  assignedBufferNum (settled (released p hs ss j)) =
    Z.of_nat (in_use (<[j := BUFFER_STATE_FREE]> ss) (buffer_count (settled (released p hs ss j)))).
Proof.
  intros Hs Hlen Hnum Hj Hst Hlt.
  pose proof (in_use_insert ss (buffer_count p) j _ BUFFER_STATE_FREE Hj Hlt) as Hins.
  rewrite (decide_True _ _ (eq_refl BUFFER_STATE_FREE)), decide_False in Hins by done.
  pose proof (in_use_le ss (buffer_count p)) as Hle. unfold zlength, MAX_BUFFER_NUM in Hlen.
  assert (u32 (assignedBufferNum p - 1) = Z.of_nat (in_use (<[j:=BUFFER_STATE_FREE]> ss) (buffer_count p))) as Hu.
  { rewrite u32_id by (unfold is_u32; lia). lia. }
  unfold settled, released. destruct (_ =? _); simpl; done.
Qed.

(** The release of a slot leaves the others what they need. *)
Lemma released_slot_ok s r i j hb h b h' st i0 j0 b0 st0 :
  buffers_ok s r -> slot r i j (Some hb) st -> headers s !! hb = Some h -> headers s !! b = Some h' ->
  pBuffer h = pBuffer h' -> slot r i0 j0 (Some b0) st0 -> ~ (i0 = i /\ j0 = j) ->
  slot_ok (released_world st hb b (pBuffer h') s) (Some b0) st0 /\
  (st0 = STATE_ALLOCATED -> headers (released_world st hb b (pBuffer h') s) !! b0 = headers s !! b0).
Proof.
  intros Hok Hslot Hh Hb Heq H0 Hne. pose proof (slot_state_ok _ _ _ _ _ _ Hok H0) as (h0 & Hh0 & Hcase).
  assert (b0 <> hb) as Hb0 by (intros ->; apply Hne; by eapply ok_header).
  unfold released_world. destruct (Z.eqb_spec st STATE_ALLOCATED) as [->|_].
  - assert (st0 = STATE_ALLOCATED -> pBuffer h0 <> pBuffer h' /\ b0 <> b) as Hother.
    { intros ->. assert (pBuffer h0 <> pBuffer h') as Hp.
      { intros Hx. apply Hne. eapply ok_block; [done|exact H0|exact Hslot|done|done|]. by rewrite Hx, Heq. }
      split; [done|]. intros ->. rewrite Hb in Hh0. by injection Hh0 as ->. }
    simpl. split.
    + destruct Hcase as [->|(-> & Hpos & Hm)].
      * destruct (decide (b0 = b)) as [->|]; [exists (no_payload h0)|exists h0];
          rewrite lookup_delete_ne by done; [rewrite lookup_alter_eq, Hh0|rewrite lookup_alter_ne by done]; auto.
      * destruct (Hother eq_refl). exists h0. rewrite lookup_delete_ne, lookup_alter_ne by done.
        split; [done|]. right. by rewrite lookup_delete_ne by done.
    + intros Hst0. destruct (Hother Hst0). by rewrite lookup_delete_ne, lookup_alter_ne by done.
  - simpl. rewrite lookup_delete_ne by done. split; [|done]. exists h0. by split.
Qed.

Lemma release_ok s r i p hs ss j hb h b h' st :
  buffers_ok s r -> port_get i r = inr p -> port_slots p hs ss -> (j < Z.to_nat (buffer_count p))%nat ->
  hs !! j = Some (Some hb) -> ss !! j = Some st -> headers s !! hb = Some h -> headers s !! b = Some h' ->
  pBuffer h = pBuffer h' ->
  buffers_ok (released_world st hb b (pBuffer h') s) (port_put i (settled (released p hs ss j)) r).
Proof.
  intros Hok Hp Hs Hj Hhb Hst Hh Hb Heq. assert (has_port i r) as Hi by by exists p.
  assert (slot r i j (Some hb) st) as Hslot by by exists p, hs, ss.
  pose proof (fun i0 j0 b0 st0 => slot_released r i p hs ss j i0 j0 b0 st0 Hp Hs) as Hold.
  pose proof (fun i0 j0 b0 st0 => released_slot_ok s r i j hb h b h' st i0 j0 b0 st0 Hok Hslot Hh Hb Heq) as Hkeep.
  assert (forall i0 p0 hs0 ss0, port_get i0 r = inr p0 -> port_slots p0 hs0 ss0 ->
    forall k hb0 st0, hs0 !! k = Some hb0 -> ss0 !! k = Some st0 -> ~ (i0 = i /\ k = j) ->
    slot_ok (released_world st hb b (pBuffer h') s) hb0 st0) as Hcell.
  { intros i0 p0 hs0 ss0 Hp0 Hs0 k hb0 st0 Hk Hst0 Hne.
    assert (slot r i0 k hb0 st0) as Hsl by by exists p0, hs0, ss0.
    destruct hb0 as [b0|]; [by eapply Hkeep|exact (slot_state_ok _ _ _ _ _ _ Hok Hsl)]. }
  split.
  - apply ports_ok_put; [done| |].
    + destruct (ok_port _ _ Hok i p Hp) as (hs0 & ss0 & Hs0 & Hlen & Hnum & Hall).
      destruct (port_slots_fun _ _ _ _ _ Hs Hs0) as [<- <-].
      exists (<[j := None]> hs), (<[j := BUFFER_STATE_FREE]> ss). split; [by apply port_slots_released|].
      split; [unfold zlength; by rewrite length_insert|]. split.
      { eapply num_released; try done. intros ->. by apply (slot_state_ok s) in Hslot as (? & ? & [|[? _]]). }
      apply Forall2_same_length_lookup. split; [rewrite !length_insert; by eapply Forall2_length|].
      intros k hb0 st0 Hk Hst0. apply list_lookup_insert_Some in Hk as [(<- & <- & ?)|[Hne Hk]];
        apply list_lookup_insert_Some in Hst0 as [(? & ? & ?)|[? Hst0]]; try done.
      eapply Hcell; [done..|]. intros [_ ->]. done.
    + intros i' p' Hne Hp'. destruct (ok_port _ _ Hok i' p' Hp') as (hs0 & ss0 & Hs0 & Hlen & Hnum & Hall).
      exists hs0, ss0. split_and!; try done.
      apply Forall2_same_length_lookup. split; [by eapply Forall2_length|].
      intros k hb0 st0 Hk Hst0. eapply Hcell; [done..|]. by intros [? _].
  - intros i1 j1 i2 j2 st1 st2 b0 H1 H2. apply Hold in H1 as [H1 _], H2 as [H2 _]. by eapply ok_header.
  - intros i1 j1 i2 j2 b1 b2 h1 h2 H1 H2 Hh1 Hh2 Hpay. apply Hold in H1 as [H1 N1], H2 as [H2 N2].
    destruct (Hkeep _ _ _ _ H1 N1) as [_ E1], (Hkeep _ _ _ _ H2 N2) as [_ E2].
    rewrite E1 in Hh1 by done. rewrite E2 in Hh2 by done. by eapply ok_block.
Qed.
End invariant.

(** ** The operations keep the invariant *)
Inductive buffer_op :=
| OpUse (nPortIndex app size buffer : Z)
| OpAllocate (nPortIndex app size : Z)
| OpFree (nPortIndex : Z) (pBufferHdr : nat).

Section preservation.
Context `{Env}.

Definition run_op (c : nat) (op : buffer_op) : M St (OMX_ERRORTYPE * option nat) :=
  match op with
  | OpUse i app size buffer => SEC_OMX_UseBuffer (Some c) i app size buffer
  | OpAllocate i app size => SEC_OMX_AllocateBuffer (Some c) i app size
  | OpFree i b => let* r := SEC_OMX_FreeBuffer (Some c) i (Some b) in ret (r, None)
  end.

(** The client gives an index of the right type, and releases buffers of a port
    with a header that exists. *)
Definition op_ok (op : buffer_op) (s : St) (r : SEC_OMX_BASECOMPONENT) : Prop :=
  match op with
  | OpUse i _ _ _ | OpAllocate i _ _ => 0 <= i
  | OpFree i b => has_port i r /\ is_Some (headers s !! b)
  end.

Record vdec_ok (c : nat) (s : St) (r : SEC_OMX_BASECOMPONENT) : Prop := {
  vd_live : live c s;
  vd_look : look (pSECComponent c) s = inr r;
  vd_callbacks : is_Some (pCallbacks r);
  vd_ports i : 0 <= i < nPorts (portParam r) -> has_port i r;
  vd_buffers : buffers_ok s r
}.

Lemma buffers_ok_ext s s' r :
  headers s' = headers s -> memory s' = memory s -> buffers_ok s r -> buffers_ok s' r.
Proof.
  intros Hh Hm Hok. split.
  - intros i p Hp. eapply port_ok_mono; [|by eapply ok_port]. unfold slot_ok. by rewrite Hh, Hm.
  - apply (ok_header _ _ Hok).
  - rewrite Hh. apply (ok_block _ _ Hok).
Qed.

(** A change of the port that its slots do not see. *)
Lemma buffers_ok_slots s r i p p' :
  buffers_ok s r -> port_get i r = inr p ->
  bufferHeader p' = bufferHeader p -> bufferStateAllocate p' = bufferStateAllocate p ->
  buffer_count p' = buffer_count p -> assignedBufferNum p' = assignedBufferNum p ->
  buffers_ok s (port_put i p' r).
Proof.
  intros Hok Hp Hh Hst Hc Hn. assert (has_port i r) as Hi by by exists p.
  pose proof (ok_port _ _ Hok i p Hp) as (hs & ss & Hs & Hlen & Hnum & Hall).
  assert (port_slots p' hs ss) as Hs'.
  { destruct Hs as (? & ? & ? & ?). unfold port_slots. rewrite Hh, Hst, Hc. done. }
  assert (forall i0 j0 hb0 st0, slot (port_put i p' r) i0 j0 hb0 st0 -> slot r i0 j0 hb0 st0) as Hslot.
  { intros i0 j0 hb0 st0 Hx. apply (slot_put _ _ _ _ _ _ _ _ _ Hi Hs') in Hx as [(-> & ? & ?)|[_ ?]]; [|done].
    by exists p, hs, ss. }
  split.
  - apply ports_ok_put; [done| |intros; by eapply ok_port].
    exists hs, ss. rewrite Hn, Hc. done.
  - intros ??????? H1 H2. apply Hslot in H1, H2. by eapply ok_header.
  - intros ???????? H1 H2. apply Hslot in H1, H2. by eapply ok_block.
Qed.

(** A new port and a new world. *)
Lemma vdec_ok_put c s s' r i p :
  vdec_ok c s r -> has_port i r -> comps s' = comps s -> buffers_ok s' (port_put i p r) ->
  vdec_ok c (at_port c i p r s') (port_put i p r).
Proof.
  intros Hok Hi Hc Hb. assert (live c s') as Hl.
  { pose proof (vd_live _ _ _ Hok) as Hl. unfold live in *. by rewrite Hc. }
  split.
  - by apply live_set_sec.
  - apply look_sec. by apply live_valid.
  - autorewrite with port. by eapply vd_callbacks.
  - intros i'. autorewrite with port. intros Hi'. pose proof (vd_ports _ _ _ Hok i' Hi') as [p' Hp'].
    destruct (decide (i = i')) as [->|]; [by apply has_port_put|]. exists p'. by rewrite port_get_put_ne.
  - eapply buffers_ok_ext; [apply headers_set_sec|apply memory_set_sec|done].
Qed.

Lemma vdec_ok_world c s s' r :
  vdec_ok c s r -> comps s' = comps s -> headers s' = headers s -> memory s' = memory s -> vdec_ok c s' r.
Proof.
  intros [Hl Hr Hcb Hp Hb] Hc Hh Hm. split; [|..|by eapply buffers_ok_ext]; try done.
  - unfold live in *. by rewrite Hc.
  - rewrite <- Hr. simpl. by rewrite Hc.
Qed.

Lemma port_get_or i r : 0 <= i -> (forall i, 0 <= i < nPorts (portParam r) -> has_port i r) ->
  nPorts (portParam r) <= i \/ exists p, port_get i r = inr p.
Proof. intros Hi Hp. destruct (Z.le_gt_cases (nPorts (portParam r)) i); [by left|right]. apply Hp. lia. Qed.

(** A call that is refused before it allocates anything. *)
Lemma UseBuffer_refused I c i app size buffer s r Q :
  vdec_ok c s r ->
  (nPorts (portParam r) <= i \/
   exists p, i < nPorts (portParam r) /\ port_get i r = inr p /\
     (portState p <> OMX_StateIdle \/ supplied p = true)) ->
  (forall e, e <> OMX_ErrorNone -> Q (e, None) s) ->
  wp I (SEC_OMX_UseBuffer (Some c) i app size buffer s) Q.
Proof.
  intros Hok Hwhy HQ. pose proof (live_valid _ _ (vd_live _ _ _ Hok)) as Hv.
  pose proof (set_sec_id c s r (vd_look _ _ _ Hok)) as Hid.
  unfold SEC_OMX_UseBuffer, entry_out. rewrite <- Hid. apply wp_bind, wp_entry; [apply Hok|].
  apply wp_ret. cbn [is_err bool_decide]. apply wp_bind.
  eapply wp_load; [apply _|done|reflexivity|]. destruct Hwhy as [Hge|(p & Hlt & Hp & Hwhy)].
  { rewrite (proj2 (Z.leb_le _ _)) by done. apply wp_ret. rewrite Hid. by apply HQ. }
  rewrite (proj2 (Z.leb_gt _ _)) by done. apply wp_bind.
  eapply wp_load; [apply _|done|exact Hp|]. case_bool_decide; simpl.
  - destruct Hwhy as [|Hsup]; [done|]. unfold supplied in Hsup. rewrite Hsup. simpl. rewrite Hid. by apply HQ.
  - rewrite Hid. by apply HQ.
Qed.

Lemma AllocateBuffer_refused I c i app size s r Q :
  vdec_ok c s r ->
  (nPorts (portParam r) <= i \/
   exists p, i < nPorts (portParam r) /\ port_get i r = inr p /\ supplied p = true) ->
  (forall e, e <> OMX_ErrorNone -> Q (e, None) s) ->
  wp I (SEC_OMX_AllocateBuffer (Some c) i app size s) Q.
Proof.
  intros Hok Hwhy HQ. pose proof (live_valid _ _ (vd_live _ _ _ Hok)) as Hv.
  pose proof (set_sec_id c s r (vd_look _ _ _ Hok)) as Hid.
  unfold SEC_OMX_AllocateBuffer, entry_out. rewrite <- Hid. apply wp_bind, wp_entry; [apply Hok|].
  apply wp_ret. cbn [is_err bool_decide]. apply wp_bind.
  eapply wp_load; [apply _|done|reflexivity|]. destruct Hwhy as [Hge|(p & Hlt & Hp & Hsup)].
  { rewrite (proj2 (Z.leb_le _ _)) by done. apply wp_ret. rewrite Hid. by apply HQ. }
  rewrite (proj2 (Z.leb_gt _ _)) by done. apply wp_bind.
  eapply wp_load; [apply _|done|exact Hp|]. unfold supplied in Hsup. rewrite Hsup. simpl.
  rewrite Hid. by apply HQ.
Qed.

Lemma FreeBuffer_refused I c i b s r p Q :
  vdec_ok c s r -> port_get i r = inr p -> supplied p = true -> Q OMX_ErrorBadPortIndex s ->
  wp I (SEC_OMX_FreeBuffer (Some c) i b s) Q.
Proof.
  intros Hok Hp Hsup HQ. pose proof (live_valid _ _ (vd_live _ _ _ Hok)) as Hv.
  pose proof (set_sec_id c s r (vd_look _ _ _ Hok)) as Hid.
  unfold SEC_OMX_FreeBuffer. rewrite <- Hid. apply wp_entry; [apply Hok|]. apply wp_bind.
  eapply wp_load; [apply _|done|exact Hp|]. unfold supplied in Hsup. rewrite Hsup. simpl. by rewrite Hid.
Qed.

(** A successful allocation in detail. *)
Definition allocated_world (i a : Z) (b : nat) (size app : Z) (s : St) : St :=
  s<|oscalls := S (S (oscalls s))|><|headers ::= <[b := header_init i a size app]>|>
   <|memory ::= <[a := replicate (Z.to_nat size) None]>|>.

Lemma header_init_pBuffer i a size app : pBuffer (header_init i a size app) = a.
Proof. unfold header_init. by destruct (i =? _). Qed.

Lemma allocated_ok c i app size s r p hs ss j b a :
  vdec_ok c s r -> port_get i r = inr p -> port_slots p hs ss ->
  first_free ss (buffer_count p) = Some j -> headers s !! b = None -> 0 < a -> memory s !! a = None ->
  let r1 := port_put i (assigned p hs ss j b STATE_ALLOCATED) r in
  vdec_ok c (at_port c i (assigned p hs ss j b STATE_ALLOCATED) r (allocated_world i a b size app s)) r1.
Proof.
  intros Hok Hp Hs Hf Hb Ha Hm. apply (vdec_ok_put c s); [done|by exists p|done|].
  eapply (assign_ok s); [apply Hok|done|done|done|done|reflexivity| |].
  - simpl. intros a' [x Hx]. destruct (decide (a' = a)) as [->|]; [by rewrite Hm in Hx|].
    rewrite lookup_insert_ne by done. eauto.
  - right. rewrite header_init_pBuffer. simpl. rewrite lookup_insert_eq. eauto.
Qed.

(** The three operations one by one. *)
Lemma UseBuffer_ok I c i app size buffer s r :
  vdec_ok c s r -> 0 <= i ->
  wp I (SEC_OMX_UseBuffer (Some c) i app size buffer s) (fun _ s' => exists r', vdec_ok c s' r').
Proof.
  intros Hok Hi. destruct (port_get_or i r Hi (vd_ports _ _ _ Hok)) as [Hge|[p Hp]].
  { eapply UseBuffer_refused; [done|by left|]. intros. by exists r. }
  destruct (Z.le_gt_cases (nPorts (portParam r)) i) as [Hge|Hlt].
  { eapply UseBuffer_refused; [done|by left|]. intros. by exists r. }
  destruct (decide (portState p = OMX_StateIdle)) as [Hst|Hst], (supplied p) eqn:Hsup;
    try (eapply UseBuffer_refused; [done|right; exists p; split_and!; by auto|intros; by exists r]).
  pose proof (ok_port _ _ (vd_buffers _ _ _ Hok) i p Hp) as (hs & ss & Hs & Hrest).
  eapply (UseBuffer_wp I c i s r p hs ss); try apply Hok; try done.
  - intros _. exists r. by eapply vdec_ok_world.
  - intros j b _ Hf Hb. eexists. apply (vdec_ok_put c s); [done|by exists p|done|].
    eapply (assign_ok s); [apply Hok|done|done|done|done|reflexivity|done|by left].
Qed.

Lemma AllocateBuffer_ok I c i app size s r :
  vdec_ok c s r -> 0 <= i ->
  wp I (SEC_OMX_AllocateBuffer (Some c) i app size s) (fun _ s' => exists r', vdec_ok c s' r').
Proof.
  intros Hok Hi. destruct (port_get_or i r Hi (vd_ports _ _ _ Hok)) as [Hge|[p Hp]].
  { eapply AllocateBuffer_refused; [done|by left|]. intros. by exists r. }
  destruct (Z.le_gt_cases (nPorts (portParam r)) i) as [Hge|Hlt].
  { eapply AllocateBuffer_refused; [done|by left|]. intros. by exists r. }
  destruct (supplied p) eqn:Hsup.
  { eapply AllocateBuffer_refused; [done|right; by exists p|]. intros. by exists r. }
  pose proof (ok_port _ _ (vd_buffers _ _ _ Hok) i p Hp) as (hs & ss & Hs & Hrest).
  eapply (AllocateBuffer_wp I c i s r p hs ss); try apply Hok; try done.
  - intros n _. exists r. by eapply vdec_ok_world.
  - intros j b a _ _ Hf Hb Ha Hm. eexists. by eapply (allocated_ok c i app size s).
Qed.

Lemma FreeBuffer_ok I c i b s r :
  vdec_ok c s r -> has_port i r -> is_Some (headers s !! b) ->
  wp I (SEC_OMX_FreeBuffer (Some c) i (Some b) s) (fun _ s' => exists r', vdec_ok c s' r').
Proof.
  intros Hok [p Hp] [h Hb]. destruct (supplied p) eqn:Hsup.
  { eapply FreeBuffer_refused; [done..|]. by exists r. }
  pose proof (vd_buffers _ _ _ Hok) as Hbuf. destruct (vd_callbacks _ _ _ Hok) as [cb Hcb].
  pose proof (ok_port _ _ Hbuf i p Hp) as (hs & ss & Hs & Hlen & Hnum & Hall).
  eapply (FreeBuffer_wp I c i s r p hs ss); try apply Hok; try done.
  set (s0 := s<|callbacks ::= _|>). assert (buffers_ok s0 r) as Hbuf0 by by apply (buffers_ok_ext s).
  destruct (carrier _ _ _ _ _) as [j|] eqn:Hf.
  - apply carrier_Some in Hf as (Hj & (hb & st & h0 & Hhb & Hst & _ & Hh0 & Heq) & _).
    intros hb' st' Hhb' Hst'. rewrite Hhb in Hhb'. rewrite Hst in Hst'. simplify_eq.
    eexists. apply (vdec_ok_put c s); [done|by exists p| |].
    + unfold released_world. by destruct (_ =? _).
    + by eapply (release_ok s0).
  - eexists. apply (vdec_ok_put c s); [done|by exists p|done|]. unfold settled.
    destruct (Z.eqb_spec (assignedBufferNum p) 0); [|by rewrite port_put_id].
    by eapply (buffers_ok_slots s0).
Qed.

(** C5: every call of [SEC_OMX_UseBuffer] and [SEC_OMX_AllocateBuffer] with any port index, and
    every call of [SEC_OMX_FreeBuffer] with a port of the component and a header that exists
    (it checks neither, see [FreeBuffer_bad_port]), whatever the operating system answers, returns
    and leaves the buffers of both ports consistent: the number of assigned buffers is the
    number of slots in use, every slot in use has a header of its own that exists,
    and every slot of a buffer the component allocated has a payload of its own that exists.  Of the
    payload of a buffer that the client brought nothing is claimed: it is the client's. *)
Theorem buffers_invariant c op s r :
  vdec_ok c s r -> op_ok op s r ->
  exists res s' r', run_op c op s = Done res s' /\ vdec_ok c s' r'.
Proof.
  intros Hok Hop.
  enough (wp (fun _ => False) (run_op c op s) (fun _ s' => exists r', vdec_ok c s' r')) as Hwp.
  { apply wp_result in Hwp as (res & s' & Hrun & r' & Hok'). by exists res, s', r'. }
  destruct op as [i app size buffer|i app size|i b]; simpl in *.
  - by eapply UseBuffer_ok.
  - by eapply AllocateBuffer_ok.
  - apply wp_bind. destruct Hop as [Hi Hb]. eapply wp_mono; [|by eapply FreeBuffer_ok].
    intros e s' Hs'. by apply wp_ret.
Qed.

(** ** Allocation and release *)

Lemma AllocateBuffer_granted c i app size s r p hs ss j :
  vdec_ok c s r -> port_get i r = inr p -> port_slots p hs ss ->
  i < nPorts (portParam r) -> supplied p = false -> (forall n, os n = true) ->
  first_free ss (buffer_count p) = Some j ->
  exists b a, headers s !! b = None /\ 0 < a /\ memory s !! a = None /\
    SEC_OMX_AllocateBuffer (Some c) i app size s =
      Done (OMX_ErrorNone, Some b)
        (at_port c i (assigned p hs ss j b STATE_ALLOCATED) r (allocated_world i a b size app s)).
Proof.
  intros Hok Hp Hs Hi Hsup Hos Hf.
  enough (wp (fun _ => False) (SEC_OMX_AllocateBuffer (Some c) i app size s) (fun res s1 =>
    exists b a, headers s !! b = None /\ 0 < a /\ memory s !! a = None /\
      res = (OMX_ErrorNone, Some b) /\
      s1 = at_port c i (assigned p hs ss j b STATE_ALLOCATED) r (allocated_world i a b size app s))) as Hwp.
  { apply wp_result in Hwp as (res & s1 & -> & b & a & ? & ? & ? & -> & ->). by exists b, a. }
  eapply (AllocateBuffer_wp _ c i s r p hs ss); try apply Hok; try done.
  - intros n [Hx|[Hx|Hx]]; [by rewrite Hos in Hx..|by rewrite Hf in Hx].
  - intros j' b a _ _ Hf' Hb Ha Hm. rewrite Hf in Hf'. injection Hf' as <-. by exists b, a.
Qed.

(** The new buffer is the one that carries its payload. *)
Lemma carrier_allocated (s : St) hs ss count j b a h :
  Forall2 (slot_ok s) hs ss -> first_free ss count = Some j -> headers s !! b = None ->
  memory s !! a = None -> pBuffer h = a ->
  (forall b h, headers s !! b = Some h -> is_Some (memory s !! pBuffer h)) ->
  carrier (<[b := h]> (headers s)) a (<[j := Some b]> hs) (<[j := STATE_ALLOCATED]> ss) count = Some j.
Proof.
  intros Hall Hf Hb Hm Hh Hpay. apply first_free_Some in Hf as (Hj & Hfree & _).
  assert (j < length ss)%nat as Hlen by by eapply lookup_lt_Some.
  pose proof (Forall2_length _ _ _ Hall) as Hlen'.
  assert (forall k hb st, k <> j -> hs !! k = Some hb -> ss !! k = Some st ->
    carries (<[b := h]> (headers s)) a (hb, st) <> true) as Hother.
  { intros k [b0|] st Hk Hhb Hst; [|done].
    destruct (Forall2_lookup_lr _ _ _ _ _ _ Hall Hhb Hst) as (h0 & Hh0 & _).
    unfold carries. simpl. rewrite lookup_insert_ne by (intros ->; by rewrite Hb in Hh0). rewrite Hh0. simpl.
    rewrite bool_decide_false; [by rewrite andb_false_r|]. intros [= Hx].
    destruct (Hpay _ _ Hh0) as [x Hx']. by rewrite Hx, Hm in Hx'. }
  destruct (carrier _ _ _ _ _) as [k|] eqn:Hc.
  - apply carrier_Some in Hc as (_ & (hb & st & h0 & Hhb & Hst & Hnf & Hh0 & Hp0) & _).
    destruct (decide (k = j)) as [->|Hk]; [done|exfalso].
    rewrite list_lookup_insert_ne in Hhb by done. rewrite list_lookup_insert_ne in Hst by done.
    apply (Hother k (Some hb) st Hk Hhb Hst).
    unfold carries. simpl. rewrite Hh0. simpl. rewrite Hp0, bool_decide_true by done.
    by destruct (Z.eqb_spec st BUFFER_STATE_FREE).
  - exfalso. eapply (carrier_None _ _ _ _ _ j); [done..| | |].
    + by apply list_lookup_insert_eq; lia.
    + by apply list_lookup_insert_eq.
    + unfold carries. simpl. rewrite lookup_insert_eq. simpl. by rewrite Hh, bool_decide_true.
Qed.

(** The release undoes the assignment. *)
Lemma released_assigned p hs ss j b st :
  port_slots p hs ss -> hs !! j = Some None -> ss !! j = Some BUFFER_STATE_FREE ->
  0 <= assignedBufferNum p < 2 ^ 31 ->
  let p2 := settled (released (assigned p hs ss j b st) (<[j := Some b]> hs) (<[j := st]> ss) j) in
  port_slots p2 hs ss /\ assignedBufferNum p2 = assignedBufferNum p.
Proof.
  intros Hs Hh Hst Hn p2.
  pose proof (port_slots_released _ _ _ j (port_slots_assigned p hs ss j b st Hs)) as Hs2.
  assert (<[j := None]> (<[j := Some b]> hs) = hs) as Eh by (rewrite list_insert_insert_eq; by apply list_insert_id).
  assert (<[j := BUFFER_STATE_FREE]> (<[j := st]> ss) = ss) as Es
    by (rewrite list_insert_insert_eq; by apply list_insert_id).
  rewrite Eh, Es in Hs2. split; [exact Hs2|].
  assert (assignedBufferNum p2 = u32 (u32 (assignedBufferNum p + 1) - 1)) as ->.
  { unfold p2, settled, released, assigned. by repeat destruct (_ =? _). }
  rewrite (u32_id (_ + 1)) by (unfold is_u32; lia). rewrite u32_id by (unfold is_u32; lia). lia.
Qed.

Lemma released_allocated_world i a b size app s s1 f :
  headers s !! b = None -> memory s !! a = None ->
  headers s1 = headers (allocated_world i a b size app s) ->
  memory s1 = memory (allocated_world i a b size app s) ->
  headers (released_world STATE_ALLOCATED b b a s1<|callbacks ::= f|>) = headers s /\
  memory (released_world STATE_ALLOCATED b b a s1<|callbacks ::= f|>) = memory s.
Proof.
  intros Hb Hm H1 H2. unfold released_world. simpl. rewrite H1, H2. simpl. split.
  - rewrite alter_insert_eq. by apply delete_insert_id.
  - by apply delete_insert_id.
Qed.

(** C6: a buffer that was allocated and is released again leaves nothing behind: the
    headers, the memory and the slots of the port are those from before, and the
    number of assigned buffers as well.  The payloads of the buffers the client
    brought are blocks of memory of their own. *)
Theorem AllocateBuffer_FreeBuffer c i app size s r p hs ss :
  vdec_ok c s r -> port_get i r = inr p -> port_slots p hs ss ->
  i < nPorts (portParam r) -> supplied p = false -> (forall n, os n = true) ->
  (exists j, first_free ss (buffer_count p) = Some j) ->
  (forall b h, headers s !! b = Some h -> is_Some (memory s !! pBuffer h)) ->
  exists b s1 s2 r2 p2,
    SEC_OMX_AllocateBuffer (Some c) i app size s = Done (OMX_ErrorNone, Some b) s1 /\
    SEC_OMX_FreeBuffer (Some c) i (Some b) s1 = Done OMX_ErrorNone s2 /\
    headers s2 = headers s /\ memory s2 = memory s /\
    look (pSECComponent c) s2 = inr r2 /\ port_get i r2 = inr p2 /\ port_slots p2 hs ss /\
    assignedBufferNum p2 = assignedBufferNum p.
Proof.
  intros Hok Hp Hs Hi Hsup Hos [j Hf] Hpay.
  destruct (AllocateBuffer_granted c i app size s r p hs ss j) as (b & a & Hb & Ha & Hm & Hrun); [done..|].
  pose proof (allocated_ok c i app size s r p hs ss j b a Hok Hp Hs Hf Hb Ha Hm) as Hok1. simpl in Hok1.
  set (p1 := assigned p hs ss j b STATE_ALLOCATED) in *. set (r1 := port_put i p1 r) in *.
  set (w := allocated_world i a b size app s) in *. set (s1 := at_port c i p1 r w) in *.
  assert (port_get i r1 = inr p1) as Hp1 by (apply port_get_put; by exists p).
  pose proof (port_slots_assigned p hs ss j b STATE_ALLOCATED Hs) as Hs1. fold p1 in Hs1.
  destruct (ok_port _ _ (vd_buffers _ _ _ Hok) i p Hp) as (hs0 & ss0 & Hs0 & Hlen & Hnum & Hall).
  destruct (port_slots_fun _ _ _ _ _ Hs Hs0) as [<- <-].
  destruct (ok_port _ _ (vd_buffers _ _ _ Hok1) i p1 Hp1) as (hs1 & ss1 & Hs1' & _ & _ & Hall1).
  destruct (port_slots_fun _ _ _ _ _ Hs1 Hs1') as [<- <-].
  destruct (vd_callbacks _ _ _ Hok1) as [cb Hcb].
  assert (headers s1 = headers w) as Hhd by apply headers_set_sec.
  assert (memory s1 = memory w) as Hmd by apply memory_set_sec.
  assert (supplied p1 = false /\ buffer_count p1 = buffer_count p) as [Hsup1 Hcount].
  { unfold p1, assigned, supplied. by destruct (_ =? _). }
  exists b, s1.
  enough (wp (fun _ => False) (SEC_OMX_FreeBuffer (Some c) i (Some b) s1) (fun e s2 => exists r2 p2,
    e = OMX_ErrorNone /\ headers s2 = headers s /\ memory s2 = memory s /\
    look (pSECComponent c) s2 = inr r2 /\ port_get i r2 = inr p2 /\ port_slots p2 hs ss /\
    assignedBufferNum p2 = assignedBufferNum p)) as Hwp.
  { apply wp_result in Hwp as (e & s2 & Hrun2 & r2 & p2 & -> & ?). by exists s2, r2, p2. }
  eapply (FreeBuffer_wp _ c i s1 r1 p1); try apply Hok1; try done.
  { rewrite Hhd. apply lookup_insert_eq. }
  rewrite header_init_pBuffer, Hhd, Hcount. change (headers w) with (<[b:=header_init i a size app]> (headers s)).
  rewrite (carrier_allocated s hs ss (buffer_count p) j b a) by (done || apply header_init_pBuffer).
  apply first_free_Some in Hf as (_ & Hfree & _).
  destruct (lookup_lt_is_Some_2 hs j) as [hb Hhb].
  { rewrite (Forall2_length _ _ _ Hall). by eapply lookup_lt_Some. }
  destruct hb as [b0|].
  { by destruct (Forall2_lookup_lr _ _ _ _ _ _ Hall Hhb Hfree) as (? & ? & [|[]]). }
  intros hb st Hhb1 Hst1. rewrite list_lookup_insert_eq in Hhb1 by (by eapply lookup_lt_Some).
  rewrite list_lookup_insert_eq in Hst1 by (by eapply lookup_lt_Some). injection Hhb1 as <-. injection Hst1 as <-.
  pose proof (in_use_le ss (buffer_count p)) as Hle. unfold zlength, MAX_BUFFER_NUM in Hlen.
  destruct (released_assigned p hs ss j b STATE_ALLOCATED) as [Hs2 Hn2]; [done..|lia|].
  eexists _, _. split; [done|]. unfold at_port at 1 2. rewrite headers_set_sec, memory_set_sec.
  destruct (released_allocated_world i a b size app s s1 (fun k => k ++ complained c i p1)) as [-> ->]; [done..|].
  split; [done|]. split; [done|]. split; [apply look_sec, (valid_other _ s1); [done|]; apply live_valid, Hok1|].
  split; [apply port_get_put; by exists p1|]. done.
Qed.

(** ** Filling a port *)
Fixpoint allocate_n (c : nat) (i app size : Z) (n : nat) : M St (list OMX_ERRORTYPE) :=
  match n with
  | O => ret []
  | S n =>
      let* res := SEC_OMX_AllocateBuffer (Some c) i app size in
      let* l := allocate_n c i app size n in
      ret (res.1 :: l)
  end.

Lemma allocate_n_S c i app size n :
  allocate_n c i app size (S n) =
  let* res := SEC_OMX_AllocateBuffer (Some c) i app size in
  let* l := allocate_n c i app size n in ret (res.1 :: l).
Proof. done. Qed.

Lemma first_free_exists ss count :
  Z.of_nat (in_use ss count) < count -> count <= zlength ss -> exists j, first_free ss count = Some j.
Proof.
  intros Hlt Hle. destruct (first_free ss count) as [j|] eqn:Hf; [by exists j|exfalso].
  unfold first_free in Hf. apply fmap_None, list_find_None in Hf. unfold in_use, zlength in *.
  assert (forall l, Forall (fun st => ~ (st = BUFFER_STATE_FREE)) l ->
    length (filter (fun st => st <> BUFFER_STATE_FREE) l) = length l) as Hall.
  { induction 1 as [|x l Hx _ IH]; [done|]. rewrite filter_cons, decide_True by done. simpl. by rewrite IH. }
  rewrite (Hall _ Hf), length_take in Hlt. lia.
Qed.

(** The last of the missing [m] buffers fills the port. *)
Lemma allocate_n_fills c i app size v m : forall s r p,
  (forall n, os n = true) -> vdec_ok c s r -> port_get i r = inr p -> i < nPorts (portParam r) ->
  supplied p = false -> assignedBufferNum p + Z.of_nat (S m) = buffer_count p ->
  loadedResource p = Some v -> v < SEM_VALUE_MAX ->
  exists s' r' p', allocate_n c i app size (S m) s = Done (replicate (S m) OMX_ErrorNone) s' /\
    vdec_ok c s' r' /\ port_get i r' = inr p' /\ bPopulated (portDefinition p') = true /\
    loadedResource p' = Some (v + 1) /\ assignedBufferNum p' = buffer_count p /\
    buffer_count p' = buffer_count p.
Proof.
  induction m as [|m IH]; intros s r p Hos Hok Hp Hi Hsup Hn Hv Hmax;
    destruct (ok_port _ _ (vd_buffers _ _ _ Hok) i p Hp) as (hs & ss & Hs & Hlen & Hnum & _);
    pose proof Hs as (_ & _ & _ & Hcount);
    destruct (first_free_exists ss (buffer_count p)) as [j Hf]; [lia..| |lia|lia|];
    destruct (AllocateBuffer_granted c i app size s r p hs ss j) as (b & a & Hb & Ha & Hm & Hrun); try done;
    pose proof (allocated_ok c i app size s r p hs ss j b a Hok Hp Hs Hf Hb Ha Hm) as Hok1; simpl in Hok1;
    assert (port_get i (port_put i (assigned p hs ss j b STATE_ALLOCATED) r) =
            inr (assigned p hs ss j b STATE_ALLOCATED)) as Hp1 by (apply port_get_put; by exists p);
    unfold zlength, MAX_BUFFER_NUM in *;
    assert (u32 (assignedBufferNum p + 1) = assignedBufferNum p + 1) as Hu
      by (apply u32_id; unfold is_u32; lia).
  - eexists _, _, _. split; [|split; [exact Hok1|split; [exact Hp1|]]].
    + unfold allocate_n, bind. by rewrite Hrun.
    + unfold assigned. rewrite Hu, (proj2 (Z.eqb_eq _ _)) by lia. simpl. rewrite Hv. simpl.
      rewrite (proj2 (Z.eqb_neq v SEM_VALUE_MAX)) by lia. simpl. split_and!; done || lia.
  - set (p1 := assigned p hs ss j b STATE_ALLOCATED) in *.
    assert (buffer_count p1 = buffer_count p /\ assignedBufferNum p1 = assignedBufferNum p + 1 /\
      supplied p1 = supplied p /\ loadedResource p1 = loadedResource p) as (E1 & E2 & E3 & E4).
    { unfold p1, assigned. rewrite Hu, (proj2 (Z.eqb_neq _ (buffer_count p))) by lia. done. }
    edestruct (IH _ _ p1 Hos Hok1 Hp1) as (s' & r' & p' & Hrun' & Hok' & Hp' & ? & ? & ? & ?);
      [by autorewrite with port|by rewrite E3|rewrite E1, E2; lia|by rewrite E4|done|].
    exists s', r', p'. rewrite E1 in *. split_and!; try done.
    rewrite allocate_n_S. unfold bind at 1. rewrite Hrun. cbn [obind]. unfold bind at 1. by rewrite Hrun'.
Qed.

(** C7: a client that allocates as many buffers as the port has (and the system grants
    them) gets them all; with the last one the port is populated and
    [loadedResource], on which the transition to Idle waits, is posted once. *)
Theorem AllocateBuffer_populates c i app size s r p v :
  (forall n, os n = true) -> vdec_ok c s r -> port_get i r = inr p -> i < nPorts (portParam r) ->
  supplied p = false -> assignedBufferNum p = 0 -> 0 < buffer_count p ->
  loadedResource p = Some v -> v < SEM_VALUE_MAX ->
  exists s' r' p', allocate_n c i app size (Z.to_nat (buffer_count p)) s =
      Done (replicate (Z.to_nat (buffer_count p)) OMX_ErrorNone) s' /\
    look (pSECComponent c) s' = inr r' /\ port_get i r' = inr p' /\
    bPopulated (portDefinition p') = true /\ loadedResource p' = Some (v + 1) /\
    assignedBufferNum p' = buffer_count p.
Proof.
  intros Hos Hok Hp Hi Hsup Hn Hc Hv Hmax.
  destruct (allocate_n_fills c i app size v (Z.to_nat (buffer_count p) - 1) s r p)
    as (s' & r' & p' & Hrun & Hok' & ? & ? & ? & ? & _); try done; [lia|].
  replace (S (Z.to_nat (buffer_count p) - 1)) with (Z.to_nat (buffer_count p)) in Hrun by lia.
  exists s', r', p'. split; [done|]. split; [apply Hok'|]. done.
Qed.
End preservation.

(** ** What [SEC_OMX_FreeBuffer] does not check *)

(** The port index is not checked: an index beyond the ports reads outside of the
    array. *)
Theorem FreeBuffer_bad_port `{Env} c i b s r l :
  live c s -> look (pSECComponent c) s = inr r -> pSECPort r = Ptr l -> zlength l <= i ->
  SEC_OMX_FreeBuffer (Some c) i b s = Fault OutOfBounds.
Proof.
  intros Hl Hr Hp Hi. pose proof (live_valid _ _ Hl) as Hv. rewrite <- (set_sec_id c s r) by done.
  unfold SEC_OMX_FreeBuffer. rewrite run_entry by done. unfold bind at 1. rewrite run_load by done.
  unfold port_get. rewrite Hp, zlookup_None by auto. done.
Qed.

(** A header that carries no buffer of the port is released with success: the slots
    stay as they are, and when the port is empty [unloadedResource] is posted once
    more. *)
Theorem FreeBuffer_unknown `{Env} c i b s r p hs ss h :
  vdec_ok c s r -> port_get i r = inr p -> port_slots p hs ss -> supplied p = false ->
  headers s !! b = Some h -> carrier (headers s) (pBuffer h) hs ss (buffer_count p) = None ->
  SEC_OMX_FreeBuffer (Some c) i (Some b) s =
    Done OMX_ErrorNone
      (at_port c i (settled p) r s<|callbacks ::= fun k => k ++ complained c i p|>).
Proof.
  intros Hok Hp Hs Hsup Hb Hc. destruct (vd_callbacks _ _ _ Hok) as [cb Hcb].
  destruct (ok_port _ _ (vd_buffers _ _ _ Hok) i p Hp) as (hs0 & ss0 & Hs0 & _ & _ & Hall).
  destruct (port_slots_fun _ _ _ _ _ Hs Hs0) as [<- <-].
  enough (wp (fun _ => False) (SEC_OMX_FreeBuffer (Some c) i (Some b) s) (fun e s' => e = OMX_ErrorNone /\
    s' = at_port c i (settled p) r s<|callbacks ::= fun k => k ++ complained c i p|>)) as Hwp.
  { by apply wp_result in Hwp as (e & s' & -> & -> & ->). }
  eapply (FreeBuffer_wp _ c i s r p hs ss); try apply Hok; try done. by rewrite Hc.
Qed.

(** ** Instances *)

(** Ports without buffers. *)
Lemma empty_ports_ok s r :
  (forall i p, port_get i r = inr p ->
     port_slots p (replicate 20 None) (replicate 20 BUFFER_STATE_FREE) /\ assignedBufferNum p = 0) ->
  buffers_ok s r.
Proof.
  intros Hempty.
  assert (forall i j b st, slot r i j (Some b) st -> False) as Hno.
  { intros i j b st (p & hs & ss & Hp & Hs & Hh & _). destruct (Hempty i p Hp) as [Hs' _].
    destruct (port_slots_fun _ _ _ _ _ Hs Hs') as [-> _]. by apply lookup_replicate in Hh as []. }
  split.
  - intros i p Hp. destruct (Hempty i p Hp) as [Hs Hn].
    exists (replicate 20 None), (replicate 20 BUFFER_STATE_FREE). split; [done|]. split; [done|]. split.
    + rewrite Hn. unfold in_use. rewrite take_replicate. by induction (Z.to_nat _ `min` 20)%nat.
    + apply Forall2_same_length_lookup. split; [done|]. intros k hb st Hh Hst.
      apply lookup_replicate in Hh as [-> _], Hst as [-> _]. done.
  - intros ??????? Hx. by apply Hno in Hx.
  - intros ???????? Hx. by apply Hno in Hx.
Qed.

Definition sample_decoder : SEC_OMX_BASECOMPONENT := sample_idle_ports OMX_StateIdle.

Lemma sample_vdec_ok hs :
  vdec_ok (H := sample_env) 1 (sample_state sample_decoder hs) sample_decoder.
Proof.
  split.
  - apply sample_live.
  - done.
  - by eexists.
  - intros i Hi. change (nPorts (portParam sample_decoder)) with 2 in Hi.
    assert (i = 0 \/ i = 1) as [-> | ->] by lia; by eexists.
  - apply empty_ports_ok. intros i p. unfold port_get. simpl. unfold zlookup.
    destruct (Z.leb_spec 0 i); [|done].
    destruct (Z.to_nat i) as [|[|n]]; simpl; intros [= <-]; (split; [|done]); by split_and!.
Qed.

Lemma buffers_invariant_witness :
  exists res s' r', run_op (H := sample_env) 1 (OpAllocate 0 0 64) (sample_state sample_decoder ∅) = Done res s' /\
    vdec_ok (H := sample_env) 1 s' r'.
Proof.
  apply (buffers_invariant (H := sample_env) 1 (OpAllocate 0 0 64) _ sample_decoder).
  - apply sample_vdec_ok.
  - simpl. lia.
Defined.

Lemma AllocateBuffer_FreeBuffer_witness :
  exists b s1 s2 r2 p2,
    SEC_OMX_AllocateBuffer (H := sample_env) (Some 1%nat) 0 0 64 (sample_state sample_decoder ∅) =
      Done (OMX_ErrorNone, Some b) s1 /\
    SEC_OMX_FreeBuffer (H := sample_env) (Some 1%nat) 0 (Some b) s1 = Done OMX_ErrorNone s2 /\
    headers s2 = ∅ /\ memory s2 = ∅ /\
    look (pSECComponent 1) s2 = inr r2 /\ port_get 0 r2 = inr p2 /\
    port_slots p2 (replicate 20 None) (replicate 20 0) /\ assignedBufferNum p2 = 0.
Proof.
  apply (AllocateBuffer_FreeBuffer (H := sample_env) 1 0 0 64 (sample_state sample_decoder ∅) sample_decoder
           (sample_port 0 OMX_DirInput [] []) (replicate 20 None) (replicate 20 0)).
  - apply sample_vdec_ok.
  - done.
  - by split_and!.
  - done.
  - done.
  - done.
  - by exists 0%nat.
  - intros b h Hb. simpl in Hb. by rewrite lookup_empty in Hb.
Defined.

Lemma AllocateBuffer_populates_witness :
  exists s' r' p', allocate_n (H := sample_env) 1 0 0 64 4 (sample_state sample_decoder ∅) =
      Done (replicate 4 OMX_ErrorNone) s' /\
    look (pSECComponent 1) s' = inr r' /\ port_get 0 r' = inr p' /\
    bPopulated (portDefinition p') = true /\ loadedResource p' = Some (0 + 1) /\ assignedBufferNum p' = 4.
Proof.
  apply (AllocateBuffer_populates (H := sample_env) 1 0 0 64 (sample_state sample_decoder ∅) sample_decoder
           (sample_port 0 OMX_DirInput [] []) 0); try done. apply sample_vdec_ok.
Defined.
