(* ===== verification/AndroidBuffers.v ===== *)
(** * Android native buffers

    Models [osal/SEC_OSAL_Android.cpp], which the video components call for the OpenMAX
    extensions of Android: a port is switched to native buffers, a native buffer becomes a
    buffer of the port ([useAndroidNativeBuffer]), and a buffer is locked for the CPU or
    asked for its physical address through gralloc's mapper.  The mapper, the usage flags
    of gralloc, the sizes of the parameter structures and the values of
    [MetadataBufferType] belong to Android and are the class [AndroidMedia]. *)
From S2P Require Import Prelude Machine OmxEnums OsalSync OsalQueue OmxTypes OmxState Focus.
From S2P Require Import PortFocus OmxMemory Samples ResourceManager BasePort BaseComponent VdecBuffers.

(** What the file uses of Android.  The calls of the mapper return [None] when the C++
    method returns a non-zero status. *)
Class AndroidMedia := {
  sizeof_EnableAndroidNativeBuffersParams : Z;
  sizeof_GetAndroidNativeBufferUsageParams : Z;
  sizeof_UseAndroidNativeBufferParams : Z;
  sizeof_StoreMetaDataInBuffersParams : Z;
  GRALLOC_USAGE_SW_READ_OFTEN : Z;
  GRALLOC_USAGE_SW_WRITE_OFTEN : Z;
  GRALLOC_USAGE_YUV_ADDR : Z;
  mapper_lock : Z -> Z -> Z -> Z -> M St (option Z);
  mapper_unlock : Z -> M St bool;
  mapper_getphys : Z -> M St (option Z);
  kMetadataBufferTypeCameraSource : Z;
  kMetadataBufferTypeGrallocSource : Z;
  (* the build option of the same name *)
  S3D_SUPPORT : bool
}.

(** ** Colour formats *)
Definition OMX_COLOR_FormatUnused : Z := 0.
Definition OMX_COLOR_FormatYUV420Planar : Z := 19.
Definition OMX_COLOR_FormatYUV420SemiPlanar : Z := 21.
Definition OMX_SEC_COLOR_FormatNV12TPhysicalAddress : Z := 0x7F000001.
Definition OMX_SEC_COLOR_FormatNV12Tiled : Z := 0x7FC00002.
Definition OMX_SEC_COLOR_FormatANBYUV420SemiPlanar : Z := 0x100.

(** [OMX_SEC_COLOR_FormatNV12Tiled_SBS_LR] to [OMX_SEC_COLOR_FormatYUV420Planar_TB_RL],
    the twelve formats of stereoscopic frames. *)
Definition s3d_format (format : Z) : bool := (0x7FC00003 <=? format) && (format <=? 0x7FC0000E).

Section android.
Context `{Env} `{AndroidMedia}.

(** ** The mapper *)
Definition lock_usage (format : Z) : Z :=
  let sw := Z.lor GRALLOC_USAGE_SW_READ_OFTEN GRALLOC_USAGE_SW_WRITE_OFTEN in
  if ((format =? OMX_COLOR_FormatYUV420Planar) || (format =? OMX_COLOR_FormatYUV420SemiPlanar)
      || (S3D_SUPPORT && s3d_format format)
      || (format =? OMX_SEC_COLOR_FormatANBYUV420SemiPlanar))%bool
  then Z.lor sw GRALLOC_USAGE_YUV_ADDR
  else sw.

(** The error and [*vaddr], which the mapper writes when it succeeds. *)
Definition SEC_OSAL_LockANBHandle (handle width height format : Z) : M St (OMX_ERRORTYPE * option Z) :=
  let* vaddr := mapper_lock handle (lock_usage format) width height in
  match vaddr with
  | None => ret (OMX_ErrorUndefined, None)
  | Some a => ret (OMX_ErrorNone, Some a)
  end.

Definition SEC_OSAL_UnlockANBHandle (handle : Z) : M St OMX_ERRORTYPE :=
  let* ok := mapper_unlock handle in
  ret (if (ok : bool) then OMX_ErrorNone else OMX_ErrorUndefined).

Definition SEC_OSAL_GetPhysANBHandle (handle : Z) : M St (OMX_ERRORTYPE * option Z) :=
  let* paddr := mapper_getphys handle in
  match paddr with
  | None => ret (OMX_ErrorUndefined, None)
  | Some a => ret (OMX_ErrorNone, Some a)
  end.

(** The same for a native buffer, whose pointer is not checked.  [*pStride] is written
    whether or not the lock succeeds. *)
Definition SEC_OSAL_LockANB (pBuffer : option android_native_buffer_t) (width height format : Z)
  : M St (OMX_ERRORTYPE * Z * option Z) :=
  let* pANB := deref NullDeref pBuffer in
  let* '(r, vaddr) := SEC_OSAL_LockANBHandle (anb_handle pANB) width height format in
  ret (r, anb_stride pANB, vaddr).

Definition SEC_OSAL_UnlockANB (pBuffer : option android_native_buffer_t) : M St OMX_ERRORTYPE :=
  let* pANB := deref NullDeref pBuffer in SEC_OSAL_UnlockANBHandle (anb_handle pANB).

Definition SEC_OSAL_GetPhysANB (pBuffer : option android_native_buffer_t)
  : M St (OMX_ERRORTYPE * option Z) :=
  let* pANB := deref NullDeref pBuffer in SEC_OSAL_GetPhysANBHandle (anb_handle pANB).

(** ** A native buffer as a buffer of a port

    [pSECPort] is the port [i] of the component [c]. *)
Definition useAndroidNativeBuffer (c : nat) (i app size buffer : Z)
  : M St (OMX_ERRORTYPE * option nat) :=
  let* p := load (port c i) in
  if negb (bool_decide (portState p = OMX_StateIdle))
  then ret (OMX_ErrorIncorrectStateOperation, None)
  else if (CHECK_PORT_TUNNELED p && CHECK_PORT_BUFFER_SUPPLIER p)%bool
  then ret (OMX_ErrorBadPortIndex, None)
  else
    let* h := malloc_header in
    match h with
    | None => ret (OMX_ErrorInsufficientResources, None)
    | Some b =>
        let* r := assign_slot c i b
                    (Z.lor BUFFER_STATE_ASSIGNED HEADER_STATE_ALLOCATED) buffer size app in
        match r with
        | Some _ => ret (OMX_ErrorNone, Some b)
        | None => free_header b ;;; ret (OMX_ErrorInsufficientResources, None)
        end
    end.

(** [ALIGN(x, a)] *)
Definition ALIGN (x a : Z) : Z := Z.land (x + a - 1) (Z.lnot (a - 1)).

(** [ALIGN_TO_32B], [ALIGN_TO_128B], [ALIGN_TO_8KB] on [OMX_U32]. *)
Definition align_to (bits x : Z) : Z := u32 (Z.shiftl (Z.shiftr (u32 (x + (2 ^ bits - 1))) bits) bits).
Definition ALIGN_TO_32B := align_to 5.
Definition ALIGN_TO_128B := align_to 7.
Definition ALIGN_TO_8KB := align_to 13.

Lemma align_to_spec bits x : 0 <= bits -> 0 <= x -> x + 2 ^ bits - 1 < 2 ^ 32 ->
  exists k, align_to bits x = 2 ^ bits * k /\ x <= align_to bits x < x + 2 ^ bits.
Proof.
  intros Hb Hx Hm. pose proof (Z.pow_pos_nonneg 2 bits ltac:(lia) Hb) as Hp.
  unfold align_to. rewrite (u32_id (x + _)) by (unfold is_u32; lia).
  rewrite Z.shiftl_mul_pow2, Z.shiftr_div_pow2 by done. set (y := x + (2 ^ bits - 1)).
  pose proof (Z.div_mod y (2 ^ bits) ltac:(lia)) as Hd. pose proof (Z.mod_pos_bound y (2 ^ bits) Hp) as Hr.
  exists (y / 2 ^ bits). rewrite u32_id by (unfold is_u32; subst y; nia). subst y. nia.
Qed.

(** [nSizeBytes]: the planes are aligned for the Mali GPU.  The products are computed as
    [int] and converted to [OMX_U32]. *)
Definition anb_size (b : android_native_buffer_t) : Z :=
  u32 (u32 (ALIGN (anb_width b) 16 * ALIGN (anb_height b) 16)
       + ALIGN (Z.quot (anb_width b) 2) 16 * ALIGN (Z.quot (anb_height b) 2) 16 * 2).

(** ** Parameters *)

(** The opening of the parameter functions that check the state before the pointer to the
    structure. *)
Definition state_entry {A} (hComponent : option nat) (param : option A)
    (body : nat -> A -> M St (OMX_ERRORTYPE * A)) : M St (OMX_ERRORTYPE * option A) :=
  let* r := entry hComponent (fun c => unless_invalid c
    (ret (match param with None => OMX_ErrorBadParameter | Some _ => OMX_ErrorNone end))) in
  if is_err r then ret (r, param)
  else match hComponent, param with
       | Some c, Some a => let* '(r, a') := body c a in ret (r, Some a')
       | _, _ => ret (r, param)
       end.

(** The checks of a structure with a header and a port. *)
Definition anb_port_check (c : nat) (h : omx_header) (size i : Z) : M St OMX_ERRORTYPE :=
  let e := SEC_OMX_Check_SizeVersion (Some h) size in
  if is_err e then ret e
  else
    let* ports := load (pSECComponent c)↘portParam↘nPorts in
    ret (if ports <=? i then OMX_ErrorBadPortIndex else OMX_ErrorNone).

(** The same, and the port does not supply the buffers of a tunnel. *)
Definition anb_own_port (c : nat) (h : omx_header) (size i : Z)
    (body : SEC_OMX_BASEPORT -> M St (OMX_ERRORTYPE * option nat)) : M St (OMX_ERRORTYPE * option nat) :=
  let* e := anb_port_check c h size i in
  if is_err e then ret (e, None)
  else
    let* p := load (port c i) in
    if (CHECK_PORT_TUNNELED p && CHECK_PORT_BUFFER_SUPPLIER p)%bool
    then ret (OMX_ErrorBadPortIndex, None)
    else body p.

Definition get_anb_parameter (c : nat) (nIndex : OMX_INDEXTYPE) (param : omx_param)
  : M St (OMX_ERRORTYPE * omx_param) :=
  match nIndex with
  | OMX_IndexParamGetAndroidNativeBuffer =>
      match param with
      | ParamAndroidUsage p =>
          let* e := anb_port_check c (us_header p) sizeof_GetAndroidNativeBufferUsageParams
                      (us_nPortIndex p) in
          if is_err e then ret (e, param)
          else ret (OMX_ErrorNone, ParamAndroidUsage p<|us_nUsage ::= fun u => Z.lor u 0|>)
      | _ => fail BadCast
      end
  | _ => ret (OMX_ErrorUnsupportedIndex, param)
  end.
Definition SEC_OSAL_GetANBParameter (hComponent : option nat) (nIndex : OMX_INDEXTYPE)
    (param : option omx_param) : M St (OMX_ERRORTYPE * option omx_param) :=
  state_entry hComponent param (fun c a => get_anb_parameter c nIndex a).

(** The result of [SetANBParameter] has the structure, since
    [OMX_IndexParamUseAndroidNativeBuffer] writes through its [bufferHeader]. *)
Definition set_anb_parameter (c : nat) (nIndex : OMX_INDEXTYPE) (param : omx_param)
  : M St (OMX_ERRORTYPE * omx_param) :=
  match nIndex with
  | OMX_IndexParamEnableAndroidBuffers =>
      match param with
      | ParamAndroidFlag p =>
          let* '(e, _) := anb_own_port c (fl_header p) sizeof_EnableAndroidNativeBuffersParams
            (fl_nPortIndex p) (fun _ =>
              store (port c (fl_nPortIndex p))↘bIsANBEnabled (fl_enable p) ;;;
              ret (OMX_ErrorNone, None)) in
          ret (e, param)
      | _ => fail BadCast
      end
  | OMX_IndexParamUseAndroidNativeBuffer =>
      match param with
      | ParamAndroidBuffer p =>
          let* '(e, h) := anb_own_port c (ub_header p) sizeof_UseAndroidNativeBufferParams
            (ub_nPortIndex p) (fun q =>
              if negb (bool_decide (portState q = OMX_StateIdle))
              then ret (OMX_ErrorIncorrectStateOperation, None)
              else
                let* pANB := deref NullDeref (ub_nativeBuffer p) in
                useAndroidNativeBuffer c (ub_nPortIndex p) (ub_pAppPrivate p) (anb_size pANB)
                  (anb_address pANB)) in
          ret (e, ParamAndroidBuffer (match h with
                                      | None => p
                                      | Some b => p<|ub_bufferHeader := Some b|>
                                      end))
      | _ => fail BadCast
      end
  | OMX_IndexParamStoreMetaDataBuffer =>
      match param with
      | ParamAndroidFlag p =>
          let* '(e, _) := anb_own_port c (fl_header p) sizeof_StoreMetaDataInBuffersParams
            (fl_nPortIndex p) (fun _ =>
              store (port c (fl_nPortIndex p))↘bStoreMetaData (fl_enable p) ;;;
              ret (OMX_ErrorNone, None)) in
          ret (e, param)
      | _ => fail BadCast
      end
  | _ => ret (OMX_ErrorUnsupportedIndex, param)
  end.
Definition SEC_OSAL_SetANBParameter (hComponent : option nat) (nIndex : OMX_INDEXTYPE)
    (param : option omx_param) : M St (OMX_ERRORTYPE * option omx_param) :=
  state_entry hComponent param (fun c a => set_anb_parameter c nIndex a).

(** ** Meta data of an input buffer

    The payload of the buffer starts with the type; a pointer into it is the start of the
    block and an offset. *)
Inductive meta_pointer :=
| IntoBuffer (dataBuffer offset : Z)
| BufferHandle (handle : Z).

(** [memcpy] of a word of four bytes out of a block. *)
Definition load_word (a off : Z) : M St Z :=
  let* m := gets memory in
  match m !! a with
  | None => fail NullDeref
  | Some b =>
      if (0 <=? off) && (off + 4 <=? zlength b) then
        match mapM id (take 4 (drop (Z.to_nat off) b)) with
        | Some [b0; b1; b2; b3] => ret (b0 + 256 * (b1 + 256 * (b2 + 256 * b3)))
        | _ => fail Uninitialised
        end
      else fail OutOfBounds
  end.

(** What is stored to [ppBuf[0]], [ppBuf[1]]; a type and a pointer have four bytes. *)
Definition SEC_OSAL_GetInfoFromMetaData (pBuffer : SEC_OMX_DATA)
  : M St (OMX_ERRORTYPE * list meta_pointer) :=
  let* type := load_word (pd_dataBuffer pBuffer) 0 in
  if type =? kMetadataBufferTypeCameraSource then
    ret (OMX_ErrorNone, [IntoBuffer (pd_dataBuffer pBuffer) 4; IntoBuffer (pd_dataBuffer pBuffer) (4 + 4)])
  else if type =? kMetadataBufferTypeGrallocSource then
    let* h := load_word (pd_dataBuffer pBuffer) 4 in
    ret (OMX_ErrorNone, [BufferHandle h])
  else ret (OMX_ErrorNone, []).
End android.

(** ** The parameter functions on a component in order *)
Section android_facts.
Context `{Env} `{AndroidMedia} (c : nat) (s : St) (r : SEC_OMX_BASECOMPONENT).
Hypothesis (Hlive : live c s) (Hr : look (pSECComponent c) s = inr r).

Lemma valid_here : valid c s.
Proof. by apply live_valid. Qed.

Lemma state_entry_run {A} (a : A) body :
  state_entry (Some c) (Some a) body s =
  if decide (currentState r = OMX_StateInvalid) then Done (OMX_ErrorInvalidState, Some a) s
  else (let* '(e, a') := body c a in ret (e, Some a')) s.
Proof.
  rewrite <- (set_sec_id c s r Hr). unfold state_entry. unfold bind at 1. rewrite run_entry by done.
  case_decide as Hst.
  - unfold unless_invalid, bind. rewrite run_load by apply valid_here. simpl. by rewrite Hst.
  - by rewrite run_unless_invalid by (done || apply valid_here).
Qed.

(** The checks before the body, from left to right. *)
Lemma anb_own_port_run h size i p body :
  port_get i r = inr p ->
  anb_own_port c h size i body s =
    if is_err (SEC_OMX_Check_SizeVersion (Some h) size)
    then Done (SEC_OMX_Check_SizeVersion (Some h) size, None) s
    else if nPorts (portParam r) <=? i then Done (OMX_ErrorBadPortIndex, None) s
    else if supplied p then Done (OMX_ErrorBadPortIndex, None) s
    else body p s.
Proof.
  intros Hp. pose proof valid_here as Hv. rewrite <- (set_sec_id c s r Hr).
  unfold anb_own_port, anb_port_check.
  destruct (is_err (SEC_OMX_Check_SizeVersion (Some h) size)) eqn:He.
  { unfold bind. cbn [obind ret]. by rewrite He. }
  unfold bind at 1. unfold bind at 1. rewrite run_load by done. cbn [obind ret].
  destruct (Z.leb_spec (nPorts (portParam r)) i); [done|].
  change (is_err OMX_ErrorNone) with false. cbn iota.
  unfold bind at 1. rewrite (load_port_run _ _ _ _ p) by done. cbn [obind].
  fold (supplied p). by destruct (supplied p).
Qed.

(** Without the port the call is refused as well. *)
Lemma anb_own_port_absent h size i body :
  nPorts (portParam r) <= i ->
  exists e, e <> OMX_ErrorNone /\ anb_own_port c h size i body s = Done (e, None) s.
Proof.
  intros Hi. pose proof valid_here as Hv. rewrite <- (set_sec_id c s r Hr).
  unfold anb_own_port, anb_port_check. destruct (is_err (SEC_OMX_Check_SizeVersion (Some h) size)) eqn:He.
  { eexists. unfold bind. cbn [obind ret]. rewrite He. split; [|done].
    intros Heq. by rewrite Heq in He. }
  exists OMX_ErrorBadPortIndex. split; [done|].
  unfold bind at 1. unfold bind at 1. rewrite run_load by done. cbn [obind ret].
  by rewrite (proj2 (Z.leb_le _ _)).
Qed.

(** A native buffer is given to a port the way [SEC_OMX_UseBuffer] gives a buffer. *)
Lemma useAndroidNativeBuffer_run i p app size buffer :
  i < nPorts (portParam r) -> port_get i r = inr p ->
  useAndroidNativeBuffer c i app size buffer s = SEC_OMX_UseBuffer (Some c) i app size buffer s.
Proof.
  intros Hi Hp. pose proof valid_here as Hv. rewrite <- (set_sec_id c s r Hr).
  pose proof (load_port_run c i r s p Hv Hp) as Hload.
  unfold useAndroidNativeBuffer, SEC_OMX_UseBuffer, entry_out. run Hload. symmetry.
  unfold bind at 1. rewrite run_entry by done. cbn [obind ret].
  change (is_err OMX_ErrorNone) with false. cbn iota.
  unfold bind at 1. rewrite run_load by done. cbn [obind]. rewrite (proj2 (Z.leb_gt _ _)) by done.
  by run Hload.
Qed.
End android_facts.

(** ** Theorems *)
Section android_theorems.
Context `{Env} `{AndroidMedia}.

(** What the client finds in its structure after the answer [h]. *)
Definition with_header (q : UseAndroidNativeBufferParams) (h : option nat) : omx_param :=
  ParamAndroidBuffer (match h with None => q | Some b => q<|ub_bufferHeader := Some b|> end).

(** The answers of the body of [OMX_IndexParamUseAndroidNativeBuffer]. *)
Lemma use_anb_run c s r q b p :
  vdec_ok c s r -> ub_nPortIndex q < nPorts (portParam r) -> port_get (ub_nPortIndex q) r = inr p ->
  supplied p = false -> ub_nativeBuffer q = Some b -> 0 <= ub_nPortIndex q ->
  SEC_OMX_Check_SizeVersion (Some (ub_header q)) sizeof_UseAndroidNativeBufferParams = OMX_ErrorNone ->
  exists e h s' r',
    SEC_OMX_UseBuffer (Some c) (ub_nPortIndex q) (ub_pAppPrivate q) (anb_size b) (anb_address b) s
      = Done (e, h) s' /\
    set_anb_parameter c OMX_IndexParamUseAndroidNativeBuffer (ParamAndroidBuffer q) s
      = Done (e, with_header q h) s' /\ vdec_ok c s' r'.
Proof.
  intros Hok Hi Hp Hsup Hb Hi0 He. pose proof (vd_live _ _ _ Hok) as Hl. pose proof (vd_look _ _ _ Hok) as Hr.
  pose proof (UseBuffer_ok (fun _ => False) c (ub_nPortIndex q) (ub_pAppPrivate q) (anb_size b)
                (anb_address b) s r Hok Hi0) as Hwp.
  apply wp_result in Hwp as ([e h] & s' & Hrun & r' & Hok'). exists e, h, s', r'.
  split; [done|]. split; [|done].
  unfold set_anb_parameter. unfold bind at 1.
  rewrite (anb_own_port_run c s r Hl Hr _ _ _ p) by done. rewrite He. change (is_err OMX_ErrorNone) with false.
  cbn iota. rewrite (proj2 (Z.leb_gt _ _)) by done. rewrite Hsup, Hb. cbn [deref].
  rewrite <- (useAndroidNativeBuffer_run c s r Hl Hr _ p) in Hrun by done.
  case_bool_decide as Hidle; cbn [negb].
  - unfold bind at 1. cbn [obind ret]. by rewrite Hrun.
  - assert (useAndroidNativeBuffer c (ub_nPortIndex q) (ub_pAppPrivate q) (anb_size b) (anb_address b) s
            = Done (OMX_ErrorIncorrectStateOperation, None) s) as Hno.
    { rewrite <- (set_sec_id c s r Hr). unfold useAndroidNativeBuffer.
      run (load_port_run c (ub_nPortIndex q) r s p (live_valid _ _ Hl) Hp).
      by rewrite (bool_decide_eq_false_2 _ Hidle). }
    rewrite Hno in Hrun. by simplify_eq.
Qed.

(** C15: setting [OMX_IndexParamUseAndroidNativeBuffer] gives the native buffer to the port
    exactly as [SEC_OMX_UseBuffer] would, with the address of the native buffer as the
    payload and the size computed from its dimensions: same error, same header, same state
    afterwards, and the buffers of the ports stay consistent. *)
Theorem UseAndroidNativeBuffer_is_UseBuffer c s r q b p :
  vdec_ok c s r -> currentState r <> OMX_StateInvalid ->
  SEC_OMX_Check_SizeVersion (Some (ub_header q)) sizeof_UseAndroidNativeBufferParams = OMX_ErrorNone ->
  0 <= ub_nPortIndex q < nPorts (portParam r) -> port_get (ub_nPortIndex q) r = inr p ->
  supplied p = false -> ub_nativeBuffer q = Some b ->
  exists e h s' r',
    SEC_OMX_UseBuffer (Some c) (ub_nPortIndex q) (ub_pAppPrivate q) (anb_size b) (anb_address b) s
      = Done (e, h) s' /\
    SEC_OSAL_SetANBParameter (Some c) OMX_IndexParamUseAndroidNativeBuffer (Some (ParamAndroidBuffer q)) s
      = Done (e, Some (with_header q h)) s' /\ vdec_ok c s' r'.
Proof.
  intros Hok Hst He Hi Hp Hsup Hb.
  destruct (use_anb_run c s r q b p) as (e & h & s' & r' & Hrun & Hset & Hok'); try done; [lia..|].
  exists e, h, s', r'. split; [done|]. split; [|done]. unfold SEC_OSAL_SetANBParameter.
  rewrite (state_entry_run c s r) by apply Hok. rewrite decide_False by done. by run Hset.
Qed.

(** A structure of the type its index announces; the client gives a port number and a
    native buffer. *)
Definition anb_typed (nIndex : OMX_INDEXTYPE) (param : omx_param) : Prop :=
  match nIndex, param with
  | OMX_IndexParamEnableAndroidBuffers, ParamAndroidFlag p
  | OMX_IndexParamStoreMetaDataBuffer, ParamAndroidFlag p => 0 <= fl_nPortIndex p
  | OMX_IndexParamUseAndroidNativeBuffer, ParamAndroidBuffer p =>
      0 <= ub_nPortIndex p /\ is_Some (ub_nativeBuffer p)
  | OMX_IndexParamEnableAndroidBuffers, _ | OMX_IndexParamStoreMetaDataBuffer, _
  | OMX_IndexParamUseAndroidNativeBuffer, _ => False
  | _, _ => True
  end.

(** A flag of the port, which its slots do not see. *)
Lemma anb_flag_ok c s r h size i (f : SEC_OMX_BASEPORT -> bool) `{!Settable f} (v : bool) :
  vdec_ok c s r -> 0 <= i ->
  (forall p, bufferHeader p<|f := v|> = bufferHeader p /\ bufferStateAllocate p<|f := v|> = bufferStateAllocate p /\
     portDefinition p<|f := v|> = portDefinition p /\ assignedBufferNum p<|f := v|> = assignedBufferNum p) ->
  exists e s' r', anb_own_port c h size i (fun _ => store (port c i)↘f v ;;; ret (OMX_ErrorNone, None)) s
    = Done (e, None) s' /\ vdec_ok c s' r'.
Proof.
  intros Hok Hi Hf. pose proof (vd_live _ _ _ Hok) as Hl. pose proof (vd_look _ _ _ Hok) as Hr.
  destruct (Z.le_gt_cases (nPorts (portParam r)) i) as [Hge|Hlt].
  { destruct (anb_own_port_absent c s r Hl Hr h size i
      (fun _ => store (port c i)↘f v ;;; ret (OMX_ErrorNone, None)) Hge) as (e & _ & Hrun).
    by exists e, s, r. }
  destruct (vd_ports _ _ _ Hok i ltac:(lia)) as [p Hp].
  rewrite (anb_own_port_run c s r Hl Hr _ _ _ p) by done.
  repeat (case_match; [by eexists _, s, r|]).
  destruct (Hf p) as (F1 & F2 & F3 & F4).
  exists OMX_ErrorNone, (at_port c i p<|f := v|> r s), (port_put i p<|f := v|> r). split.
  - assert (store (port c i)↘f v s = Done tt (at_port c i p<|f := v|> r s)) as Hst; [|by run Hst].
    assert (wp (fun _ => False) (store (port c i)↘f v (at_port c i p r s))
              (fun _ s' => s' = at_port c i p<|f := v|> r s)) as Hwp.
    { eapply pwp_store; [apply _|by apply live_valid|by exists p|reflexivity|reflexivity|done]. }
    rewrite (at_port_id c i p r s) in Hwp by done. by destruct (wp_result _ _ Hwp) as ([] & s' & Hs & ->).
  - apply (vdec_ok_put c s); [done|by exists p|done|].
    eapply buffers_ok_slots; [apply Hok|done|done|done| |done]. by rewrite F3.
Qed.

Lemma set_anb_ok c s r nIndex param :
  vdec_ok c s r -> anb_typed nIndex param ->
  exists e a s' r', set_anb_parameter c nIndex param s = Done (e, a) s' /\ vdec_ok c s' r'.
Proof.
  intros Hok Ht. pose proof (vd_live _ _ _ Hok) as Hl. pose proof (vd_look _ _ _ Hok) as Hr.
  destruct nIndex; try (by eexists _, _, s, r); destruct param as [| | | | | |q|q|q| | | | | | | |]; try done.
  - destruct (anb_flag_ok c s r (fl_header q) sizeof_EnableAndroidNativeBuffersParams (fl_nPortIndex q)
      bIsANBEnabled (fl_enable q)) as (e & s' & r' & Hrun & Hok'); [done..|].
    eexists _, _, s', r'. split; [|done]. cbn [set_anb_parameter]. by run Hrun.
  - destruct Ht as [Hi [b Hb]]. cbn [set_anb_parameter].
    match goal with |- context [anb_own_port _ _ _ _ ?f] => set (body := f) end.
    destruct (Z.le_gt_cases (nPorts (portParam r)) (ub_nPortIndex q)) as [Hge|Hlt].
    { destruct (anb_own_port_absent c s r Hl Hr (ub_header q) sizeof_UseAndroidNativeBufferParams
        (ub_nPortIndex q) body Hge) as (e & _ & Hrun). eexists _, _, s, r. split; [|done]. by run Hrun. }
    destruct (vd_ports _ _ _ Hok (ub_nPortIndex q) ltac:(lia)) as [p Hp].
    destruct (is_err (SEC_OMX_Check_SizeVersion (Some (ub_header q)) sizeof_UseAndroidNativeBufferParams)) eqn:He.
    { eexists _, _, s, r. split; [|done]. unfold bind.
      rewrite (anb_own_port_run c s r Hl Hr _ _ _ p) by done. by rewrite He. }
    destruct (supplied p) eqn:Hsup.
    { eexists _, _, s, r. split; [|done]. unfold bind.
      rewrite (anb_own_port_run c s r Hl Hr _ _ _ p) by done. rewrite He, Hsup.
      by rewrite (proj2 (Z.leb_gt _ _)). }
    destruct (use_anb_run c s r q b p) as (e & h & s' & r' & _ & Hset & Hok'); try done.
    { apply bool_decide_eq_false in He. by apply dec_stable in He. }
    eexists _, _, s', r'. split; [exact Hset|done].
  - destruct (anb_flag_ok c s r (fl_header q) sizeof_StoreMetaDataInBuffersParams (fl_nPortIndex q)
      bStoreMetaData (fl_enable q)) as (e & s' & r' & Hrun & Hok'); [done..|].
    eexists _, _, s', r'. split; [|done]. cbn [set_anb_parameter]. by run Hrun.
Qed.

(** Every call of [SEC_OSAL_SetANBParameter] with a structure of the announced type returns,
    whatever the operating system answers, and keeps the buffers of the ports
    consistent. *)
Lemma SetANBParameter_invariant c s r nIndex param :
  vdec_ok c s r -> anb_typed nIndex param ->
  exists e a s' r', SEC_OSAL_SetANBParameter (Some c) nIndex (Some param) s = Done (e, a) s' /\ vdec_ok c s' r'.
Proof.
  intros Hok Ht. unfold SEC_OSAL_SetANBParameter. rewrite (state_entry_run c s r) by apply Hok.
  case_decide; [by eexists _, _, s, r|].
  destruct (set_anb_ok c s r nIndex param Hok Ht) as (e & a & s' & r' & Hrun & Hok').
  eexists _, _, s', r'. split; [|done]. by run Hrun.
Qed.
End android_theorems.

(** ** The size of a native buffer *)
Lemma ALIGN_16 x : ALIGN x 16 = (x + 15) / 16 * 16.
Proof.
  unfold ALIGN. replace (x + 16 - 1) with (x + 15) by lia. change (Z.lnot (16 - 1)) with (Z.lnot (Z.ones 4)).
  rewrite <- Z.ldiff_land, Z.ldiff_ones_r, Z.shiftl_mul_pow2, Z.shiftr_div_pow2 by lia. done.
Qed.
Lemma ALIGN_16_bounds x : x <= ALIGN x 16 <= x + 15.
Proof. rewrite ALIGN_16. pose proof (Z.div_mod (x + 15) 16). pose proof (Z.mod_pos_bound (x + 15) 16). lia. Qed.

(** [nSizeBytes] of a native buffer is at least a YUV 4:2:0 frame of its even
    dimensions, luma and two chroma planes, and at most the frame with fifteen more lines and
    columns in every plane; nothing is lost to the 32 bits for frames up to 16384 by 16384. *)
Theorem anb_size_bounds b :
  0 <= anb_width b <= 16384 -> 0 <= anb_height b <= 16384 ->
  anb_width b mod 2 = 0 -> anb_height b mod 2 = 0 ->
  anb_width b * anb_height b * 3 / 2 <= anb_size b <=
    (anb_width b + 15) * (anb_height b + 15) + 2 * ((anb_width b / 2 + 15) * (anb_height b / 2 + 15)).
Proof.
  intros Hw Hh Hw2 Hh2. unfold anb_size. set (w := anb_width b) in *. set (h := anb_height b) in *.
  rewrite !Z.quot_div_nonneg by lia.
  pose proof (ALIGN_16_bounds w) as A1. pose proof (ALIGN_16_bounds h) as A2.
  pose proof (ALIGN_16_bounds (w / 2)) as A3. pose proof (ALIGN_16_bounds (h / 2)) as A4.
  apply Z.div_exact in Hw2; [|lia]. apply Z.div_exact in Hh2; [|lia].
  set (x := w / 2) in *. set (y := h / 2) in *. clearbody x y w h. subst w h.
  assert (2 * x * (2 * y) * 3 / 2 = 6 * (x * y)) as ->.
  { replace (2 * x * (2 * y) * 3) with (6 * (x * y) * 2) by lia. by rewrite Z.div_mul. }
  generalize dependent (ALIGN (2 * x) 16). generalize dependent (ALIGN (2 * y) 16).
  generalize dependent (ALIGN x 16). generalize dependent (ALIGN y 16). intros d A4 a A3 e A2 g A1.
  assert (0 <= g * e <= 16399 * 16399) by nia. assert (0 <= a * d <= 8207 * 8207) by nia.
  rewrite (u32_id (g * e)) by (unfold is_u32; lia). rewrite u32_id by (unfold is_u32; lia).
  assert (2 * x * (2 * y) <= g * e <= (2 * x + 15) * (2 * y + 15)) by nia.
  assert (x * y <= a * d <= (x + 15) * (y + 15)) by nia. lia.
Qed.

Lemma anb_size_bounds_witness :
  let b := mkANB 4096 1280 720 1280 7 in
  anb_width b * anb_height b * 3 / 2 <= anb_size b <=
    (anb_width b + 15) * (anb_height b + 15) + 2 * ((anb_width b / 2 + 15) * (anb_height b / 2 + 15)).
Proof. intros b. apply (anb_size_bounds b); simpl; (reflexivity || lia). Defined.

(** ** Instances *)

(** An Android whose mapper grants every request. *)
Definition sample_media : AndroidMedia := {|
  sizeof_EnableAndroidNativeBuffersParams := 16;
  sizeof_GetAndroidNativeBufferUsageParams := 16;
  sizeof_UseAndroidNativeBufferParams := 24;
  sizeof_StoreMetaDataInBuffersParams := 16;
  GRALLOC_USAGE_SW_READ_OFTEN := 0x3;
  GRALLOC_USAGE_SW_WRITE_OFTEN := 0x30;
  GRALLOC_USAGE_YUV_ADDR := 0x8000000;
  mapper_lock := fun handle _ _ _ => ret (Some handle);
  mapper_unlock := fun _ => ret true;
  mapper_getphys := fun handle => ret (Some handle);
  kMetadataBufferTypeCameraSource := 0;
  kMetadataBufferTypeGrallocSource := 1;
  S3D_SUPPORT := false
|}.

Lemma UseAndroidNativeBuffer_is_UseBuffer_witness :
  let b := mkANB 4096 1280 720 1280 7 in
  let q := mkUseParams (INIT_SET_SIZE_VERSION 24) 1 0 None (Some b) in
  let s := sample_state sample_decoder ∅ in
  exists e h s' r',
    SEC_OMX_UseBuffer (H := sample_env) (Some 1%nat) 1 0 (anb_size b) 4096 s = Done (e, h) s' /\
    SEC_OSAL_SetANBParameter (H := sample_env) (H0 := sample_media) (Some 1%nat)
      OMX_IndexParamUseAndroidNativeBuffer (Some (ParamAndroidBuffer q)) s = Done (e, Some (with_header q h)) s' /\
    vdec_ok (H := sample_env) 1 s' r'.
Proof.
  intros b q s.
  apply (UseAndroidNativeBuffer_is_UseBuffer (H := sample_env) (H0 := sample_media) 1 s sample_decoder q b
    (sample_port 1 OMX_DirOutput [] [])); try done.
  apply sample_vdec_ok.
Defined.

(** The planar format is locked for the CPU with the flag for the addresses of the planes,
    the tiled one without; a stereoscopic one only when the library is built for it. *)
Lemma lock_usage_formats :
  lock_usage (H0 := sample_media) OMX_COLOR_FormatYUV420Planar = 0x8000033 /\
  lock_usage (H0 := sample_media) OMX_SEC_COLOR_FormatNV12Tiled = 0x33 /\
  lock_usage (H0 := sample_media) 0x7FC00003 = 0x33.
Proof. by vm_compute. Qed.
