(* ===== verification/VdecComponent.v ===== *)
(** * The video decoder component: parameters, construction, destruction

    Models the last part of [component/video/dec/SEC_OMX_Vdec.c]: the parameter and
    configuration functions a decoder installs over those of the base component, the names of
    the Android extensions (the code as built with [USE_ANB]), the size of the output frames,
    which the codecs update from the stream, and [SEC_OMX_VideoDecodeComponentInit] and [Deinit], which the
    codecs call when they are created and destroyed.  The functions that [ComponentInit]
    stores in the component are the table [VideoDec_ops] of [VdecProcess]. *)
From S2P Require Import Prelude Machine Bytes OmxEnums OsalSync OsalQueue OmxTypes OmxState Focus.
From S2P Require Import PortFocus OmxMemory Samples ResourceManager BasePort BaseComponent VdecBuffers AndroidBuffers.

(** ** Constants of [SEC_OMX_Vdec.h] and [SEC_OMX_Def.h] *)
Definition MAX_VIDEO_INPUTBUFFER_NUM : Z := 5.
Definition MAX_VIDEO_OUTPUTBUFFER_NUM : Z := 2.
Definition DEFAULT_FRAME_WIDTH : Z := 176.
Definition DEFAULT_FRAME_HEIGHT : Z := 144.
Definition DEFAULT_VIDEO_OUTPUT_BUFFER_SIZE : Z := DEFAULT_FRAME_WIDTH * DEFAULT_FRAME_HEIGHT * 3 / 2.
Definition INPUT_PORT_SUPPORTFORMAT_NUM_MAX : Z := 1.
Definition OUTPUT_PORT_SUPPORTFORMAT_NUM_MAX : Z := 4.
Definition MAX_OMX_MIMETYPE_SIZE : Z := 128.
Definition OMX_VIDEO_CodingUnused : Z := 0.

Definition SEC_INDEX_PARAM_ENABLE_ANB : string := "OMX.google.android.index.enableAndroidNativeBuffers".
Definition SEC_INDEX_PARAM_GET_ANB : string := "OMX.google.android.index.getAndroidNativeBufferUsage".
Definition SEC_INDEX_PARAM_USE_ANB : string := "OMX.google.android.index.useAndroidNativeBuffer".

(** The size of a structure that only the video components check. *)
Class VideoSizes := { sizeof_PORTFORMATTYPE : Z }.

Section vdec.
Context `{Env} `{ComponentOps} `{AndroidMedia} `{VideoSizes}.

(** ** Parameters *)

(** The colour formats of the output port, by [nIndex]. *)
Definition output_format (index : Z) : Z :=
  match index with
  | 0 => OMX_COLOR_FormatYUV420Planar
  | 1 => OMX_COLOR_FormatYUV420SemiPlanar
  | 2 => OMX_SEC_COLOR_FormatNV12TPhysicalAddress
  | _ => OMX_SEC_COLOR_FormatNV12Tiled
  end.

(** The part of the switch of [GetParameter] for the decoder's own indices; the indices
    of the base component are passed on with the handle. *)
Definition vdec_get_parameter (c : nat) (nParamIndex : OMX_INDEXTYPE) (param : omx_param)
  : M St (OMX_ERRORTYPE * omx_param) :=
  match nParamIndex with
  | OMX_IndexParamVideoInit =>
      match param with
      | ParamPort p =>
          let e := SEC_OMX_Check_SizeVersion (Some (pp_header p)) sizeof_PORT_PARAM_TYPE in
          if is_err e then ret (e, param)
          else
            let* pp := load (pSECComponent c)↘portParam in
            ret (OMX_ErrorNone,
                 ParamPort p<|nPorts := nPorts pp|><|nStartPortNumber := nStartPortNumber pp|>)
      | _ => fail BadCast
      end
  | OMX_IndexParamVideoPortFormat =>
      match param with
      | ParamVideoPortFormat f =>
          let portIndex := pf_nPortIndex f in
          let index := pf_nIndex f in
          let e := SEC_OMX_Check_SizeVersion (Some (pf_header f)) sizeof_PORTFORMATTYPE in
          if is_err e then ret (e, param)
          else
            let* ports := load (pSECComponent c)↘portParam↘nPorts in
            if ports <=? portIndex then ret (OMX_ErrorBadPortIndex, param)
            else if portIndex =? INPUT_PORT_INDEX then
              if INPUT_PORT_SUPPORTFORMAT_NUM_MAX - 1 <? index then ret (OMX_ErrorNoMore, param)
              else
                let* d := load (port c INPUT_PORT_INDEX)↘portDefinition in
                ret (OMX_ErrorNone, ParamVideoPortFormat
                  f<|pf_eCompressionFormat := eCompressionFormat (format_video d)|>
                   <|pf_eColorFormat := eColorFormat (format_video d)|>
                   <|pf_xFramerate := xFramerate (format_video d)|>)
            else if portIndex =? OUTPUT_PORT_INDEX then
              if OUTPUT_PORT_SUPPORTFORMAT_NUM_MAX - 1 <? index then ret (OMX_ErrorNoMore, param)
              else
                let* d := load (port c OUTPUT_PORT_INDEX)↘portDefinition in
                ret (OMX_ErrorNone, ParamVideoPortFormat
                  f<|pf_eCompressionFormat := OMX_VIDEO_CodingUnused|>
                   <|pf_eColorFormat := output_format index|>
                   <|pf_xFramerate := xFramerate (format_video d)|>)
            else ret (OMX_ErrorNone, param)
      | _ => fail BadCast
      end
  | OMX_IndexParamGetAndroidNativeBuffer =>
      let* '(e, a) := SEC_OSAL_GetANBParameter (Some c) nParamIndex (Some param) in
      ret (e, match a with Some a => a | None => param end)
  | _ =>
      let* '(e, a) := SEC_OMX_GetParameter (Some c) nParamIndex (Some param) in
      ret (e, match a with Some a => a | None => param end)
  end.
Definition SEC_OMX_VideoDecodeGetParameter (hComponent : option nat) (nParamIndex : OMX_INDEXTYPE)
    (param : option omx_param) : M St (OMX_ERRORTYPE * option omx_param) :=
  state_entry hComponent param (fun c a => vdec_get_parameter c nParamIndex a).

Definition vdec_set_parameter (c : nat) (nIndex : OMX_INDEXTYPE) (param : omx_param)
  : M St (OMX_ERRORTYPE * omx_param) :=
  match nIndex with
  | OMX_IndexParamVideoPortFormat =>
      match param with
      | ParamVideoPortFormat f =>
          let portIndex := pf_nPortIndex f in
          let e := SEC_OMX_Check_SizeVersion (Some (pf_header f)) sizeof_PORTFORMATTYPE in
          if is_err e then ret (e, param)
          else
            let* ports := load (pSECComponent c)↘portParam↘nPorts in
            if ports <=? portIndex then ret (OMX_ErrorBadPortIndex, param)
            else
              store (port c portIndex)↘portDefinition↘format_video↘eColorFormat (pf_eColorFormat f) ;;;
              store (port c portIndex)↘portDefinition↘format_video↘eCompressionFormat
                (pf_eCompressionFormat f) ;;;
              store (port c portIndex)↘portDefinition↘format_video↘xFramerate (pf_xFramerate f) ;;;
              ret (OMX_ErrorNone, param)
      | _ => fail BadCast
      end
  | OMX_IndexParamEnableAndroidBuffers | OMX_IndexParamUseAndroidNativeBuffer =>
      let* '(e, a) := SEC_OSAL_SetANBParameter (Some c) nIndex (Some param) in
      ret (e, match a with Some a => a | None => param end)
  | _ => let* e := SEC_OMX_SetParameter (Some c) nIndex (Some param) in ret (e, param)
  end.
Definition SEC_OMX_VideoDecodeSetParameter (hComponent : option nat) (nIndex : OMX_INDEXTYPE)
    (param : option omx_param) : M St (OMX_ERRORTYPE * option omx_param) :=
  state_entry hComponent param (fun c a => vdec_set_parameter c nIndex a).

(** ** The size of the output frames *)




(** ** Configuration *)
Definition SEC_OMX_VideoDecodeGetConfig (hComponent : option nat) (nIndex : OMX_INDEXTYPE)
    (config : option omx_param) : M St OMX_ERRORTYPE :=
  entry hComponent (fun c =>
    match config with
    | None => ret OMX_ErrorBadParameter
    | Some _ => unless_invalid c (SEC_OMX_GetConfig (Some c) nIndex config)
    end).

Definition SEC_OMX_VideoDecodeSetConfig (hComponent : option nat) (nIndex : OMX_INDEXTYPE)
    (config : option omx_param) : M St OMX_ERRORTYPE :=
  entry hComponent (fun c =>
    match config with
    | None => ret OMX_ErrorBadParameter
    | Some a => unless_invalid c (
        match nIndex with
        | OMX_IndexVendorThumbnailMode =>
            match a with
            | ParamBool b => store (as_decoder (target (pSECComponent c)↘hComponentHandle))↘bThumbnailMode b ;;; ret OMX_ErrorNone
            | _ => fail BadCast
            end
        | _ => SEC_OMX_SetConfig (Some c) nIndex config
        end)
    end).

(** The error and [*pIndexType]; [pIndexType]: the pointer is not NULL. *)
Definition SEC_OMX_VideoDecodeGetExtensionIndex (hComponent : option nat) (cParameterName : option string)
    (pIndexType : bool) : M St (OMX_ERRORTYPE * option OMX_INDEXTYPE) :=
  entry_out hComponent None (fun c =>
    match cParameterName with
    | None => ret (OMX_ErrorBadParameter, None)
    | Some name =>
        if negb pIndexType then ret (OMX_ErrorBadParameter, None)
        else
          let* st := load (pSECComponent c)↘currentState in
          if bool_decide (st = OMX_StateInvalid) then ret (OMX_ErrorInvalidState, None)
          else if bool_decide (name = SEC_INDEX_PARAM_ENABLE_ANB)
          then ret (OMX_ErrorNone, Some OMX_IndexParamEnableAndroidBuffers)
          else if bool_decide (name = SEC_INDEX_PARAM_GET_ANB)
          then ret (OMX_ErrorNone, Some OMX_IndexParamGetAndroidNativeBuffer)
          else if bool_decide (name = SEC_INDEX_PARAM_USE_ANB)
          then ret (OMX_ErrorNone, Some OMX_IndexParamUseAndroidNativeBuffer)
          else
            let* e := SEC_OMX_GetExtensionIndex (Some c) cParameterName pIndexType in
            ret (e, None)
    end).

(** ** Construction *)

(** [strcpy] into a block; NULL and an address that is not allocated fault, and so does a
    block without room for the terminating zero. *)
Definition SEC_OSAL_Strcpy (dest : Z) (src : string) : M St unit :=
  let l := string_bytes src ++ [0] in
  let* m := gets memory in
  match m !! dest with
  | None => fail NullDeref
  | Some d =>
      if Nat.leb (length l) (length d)
      then modify (fun s => s<|memory ::= <[dest := (Some <$> l) ++ drop (length l) d]>|>)
      else fail OutOfBounds
  end.

(** The members of [format.video] that are set after the MIME type. *)
Definition video_defaults (v : OMX_VIDEO_PORTDEFINITIONTYPE) : OMX_VIDEO_PORTDEFINITIONTYPE :=
  v<|pNativeRender := 0|><|bFlagErrorConcealment := false|><|eCompressionFormat := OMX_VIDEO_CodingUnused|>
   <|nFrameWidth := 0|><|nFrameHeight := 0|><|nStride := 0|><|nSliceHeight := 0|>
   <|nBitrate := 64000|><|xFramerate := Z.shiftl 15 16|><|eColorFormat := OMX_COLOR_FormatUnused|>
   <|pNativeWindow := 0|>.

(** One of the two blocks [Input port], [Output port]; the result of the allocation is not
    checked. *)
Definition init_video_port (c : nat) (i count size : Z) : M St unit :=
  update (port c i)↘portDefinition (fun d =>
    d<|nBufferCountActual := count|><|nBufferCountMin := count|><|nBufferSize := size|>
     <|eDomain := OMX_PortDomainVideo|>) ;;;
  let* a := SEC_OSAL_Malloc MAX_OMX_MIMETYPE_SIZE in
  let mime := default 0 a in
  store (port c i)↘portDefinition↘format_video↘cMIMEType mime ;;;
  SEC_OSAL_Strcpy mime "raw/video" ;;;
  update (port c i)↘portDefinition↘format_video video_defaults.

Definition SEC_OMX_VideoDecodeComponentInit (hComponent : option nat) : M St OMX_ERRORTYPE :=
  match hComponent with
  | None => ret OMX_ErrorBadParameter
  | Some c =>
      let* k := load (component c) in
      let r := SEC_OMX_Check_SizeVersion (Some (comp_header k)) sizeof_COMPONENTTYPE in
      if is_err r then ret r
      else
        let* r := SEC_OMX_BaseComponent_Constructor (Some c) in
        if is_err r then ret r
        else
          let* r := SEC_OMX_Port_Constructor (Some c) in
          if is_err r then SEC_OMX_BaseComponent_Destructor (Some c) ;;; ret r
          else
            let* ok := os_call in
            if negb ok then
              SEC_OMX_BaseComponent_Destructor (Some c) ;;; ret OMX_ErrorInsufficientResources
            else
              store (pSECComponent c)↘hComponentHandle (Ptr (VideoDec videodec_zero)) ;;;
              store (pSECComponent c)↘bSaveFlagEOS false ;;;
              init_video_port c INPUT_PORT_INDEX MAX_VIDEO_INPUTBUFFER_NUM 0 ;;;
              init_video_port c OUTPUT_PORT_INDEX MAX_VIDEO_OUTPUTBUFFER_NUM
                DEFAULT_VIDEO_OUTPUT_BUFFER_SIZE ;;;
              ret OMX_ErrorNone
  end.

(** ** Destruction *)
Definition SEC_OMX_VideoDecodeComponentDeinit (hComponent : option nat) : M St OMX_ERRORTYPE :=
  entry hComponent (fun c =>
    let* h := load (pSECComponent c)↘hComponentHandle in
    match h with
    | Dangling => fail NullDeref (* a double free *)
    | _ =>
        store (pSECComponent c)↘hComponentHandle Null ;;;
        for_from 0 (Z.to_nat ALL_PORT_NUM) (fun i =>
          let* a := load (port c i)↘portDefinition↘format_video↘cMIMEType in
          SEC_OSAL_Free a ;;;
          store (port c i)↘portDefinition↘format_video↘cMIMEType 0) ;;;
        SEC_OMX_Port_Destructor (Some c) ;;;
        SEC_OMX_BaseComponent_Destructor (Some c)
    end).
End vdec.

(** ** What the constructors leave *)
Section constructed.
Context `{Env} `{ComponentOps} (I : St -> Prop) (c : nat).
Hypothesis (Hos : forall n, os n = true).

(** The world in which the component has its zeroed private structure. *)
Definition with_private (k : OMX_COMPONENTTYPE) (s : St) : St :=
  s<|comps ::= <[c := k<|pComponentPrivate := Ptr component_zero|>]>|>.

Lemma with_private_live k s :
  SEC_OMX_Check_SizeVersion (Some (comp_header k)) sizeof_COMPONENTTYPE = OMX_ErrorNone ->
  live c (with_private k s).
Proof.
  intros He. eexists _, component_zero. split; [simpl; by rewrite lookup_insert_eq|]. by destruct k.
Qed.

Lemma wp_QueueCreate {A} (P : place (SEC_QUEUE A)) g u `{!Focus c P g u} r s q Q :
  valid c s -> g r = inr q -> nodes q = ∅ ->
  (forall q' n, queue_repr q' [] -> Q OMX_ErrorNone (set_sec c (u q' r) s<|oscalls := n|>)) ->
  wp I (QueueCreate P (set_sec c r s)) Q.
Proof.
  intros Hv Hg Hn HQ. unfold QueueCreate. rewrite focus_look by done. rewrite Hg.
  destruct (queue_create_none os (oscalls (set_sec c r s)) q Hos Hn) as (n' & q' & Hc & Hq').
  unfold SEC_OSAL_QueueCreate. rewrite Hc. simpl.
  replace ((set_sec c r s)<|oscalls := n'|>) with (set_sec c r s<|oscalls := n'|>)
    by (symmetry; apply set_sec_oscalls).
  erewrite focus_put; [by apply HQ|by apply (valid_other _ s)|done].
Qed.

Definition base_constructed (q : SEC_QUEUE SEC_OMX_MESSAGE) (id : nat) : SEC_OMX_BASECOMPONENT :=
  component_zero<|msgSemaphoreHandle := Some 0|><|compMutex := Some false|><|messageQ := q|>
    <|hMessageHandler := Some id|>.
Definition handler_started (id : nat) (s : St) : St :=
  s<|threads ::= <[id := mkThread SEC_OMX_MessageHandlerThread c false]>|>.

Lemma ThreadCreate_wp (P : place (option nat)) g u `{!Focus c P g u} r s a Q :
  valid c s -> g r = inr a ->
  (forall id n, Q OMX_ErrorNone (set_sec c (u (Some id) r) (handler_started id s<|oscalls := n|>))) ->
  wp I (SEC_OSAL_ThreadCreate P SEC_OMX_MessageHandlerThread c (set_sec c r s)) Q.
Proof.
  intros Hv Hg HQ. unfold SEC_OSAL_ThreadCreate. apply wp_bind, wp_gets.
  do 3 (apply wp_bind, wp_os_call; rewrite Hos; cbn [negb]).
  apply wp_bind. eapply wp_store; [apply _|by apply (valid_other _ s)|done|reflexivity|].
  apply wp_bind, wp_modify. apply wp_ret. rewrite set_sec_threads.
  rewrite oscalls_set_sec. apply (HQ (oscalls s) (S (S (S (oscalls s))))).
Qed.

Lemma BaseComponent_Constructor_wp s k Q :
  comps s !! c = Some k ->
  SEC_OMX_Check_SizeVersion (Some (comp_header k)) sizeof_COMPONENTTYPE = OMX_ErrorNone ->
  (forall q id n, queue_repr q [] ->
     Q OMX_ErrorNone (set_sec c (base_constructed q id) (handler_started id (with_private k s)<|oscalls := n|>))) ->
  wp I (SEC_OMX_BaseComponent_Constructor (Some c) s) Q.
Proof.
  intros Hk He HQ. pose proof (live_valid _ _ (with_private_live k s He)) as Hv.
  unfold SEC_OMX_BaseComponent_Constructor.
  assert (forall n, store (component c)↘pComponentPrivate (Ptr component_zero) s<|oscalls := n|>
            = Done tt (set_sec c component_zero (with_private k s)<|oscalls := n|>)) as Hw.
  { intros n. rewrite set_sec_id by (simpl; by rewrite lookup_insert_eq).
    unfold store. simpl. by rewrite Hk. }
  apply wp_bind. unfold os_call. cbn [wp]. rewrite Hos. cbn [negb].
  apply wp_bind. change (s<|oscalls ::= S|>) with (s<|oscalls := S (oscalls s)|>). rewrite Hw. cbn [wp].
  apply wp_bind. eapply wp_os_apply; [apply _|done|reflexivity| |reflexivity|].
  { unfold SEC_OSAL_SemaphoreCreate. rewrite !Hos. reflexivity. }
  change (is_err OMX_ErrorNone) with false. cbn iota.
  apply wp_bind. eapply wp_os_apply; [apply _|done|reflexivity| |reflexivity|].
  { unfold SEC_OSAL_MutexCreate. rewrite !Hos. reflexivity. }
  change (is_err OMX_ErrorNone) with false. cbn iota.
  apply wp_bind. eapply wp_store; [apply _|done|reflexivity|reflexivity|].
  apply wp_bind. eapply wp_QueueCreate; [apply _|done|reflexivity|reflexivity|]. intros q n Hq.
  apply wp_bind. eapply ThreadCreate_wp; [apply _|done|reflexivity|]. intros id n'.
  change (is_err OMX_ErrorNone) with false. cbn iota. apply wp_ret. exact (HQ q id n' Hq).
Qed.
End constructed.

(** ** The ports of a new decoder *)
Definition mime_block : block :=
  (Some <$> (string_bytes "raw/video" ++ [0])) ++ replicate 118 None.
Definition video_portdef (a count size : Z) (d : OMX_PARAM_PORTDEFINITIONTYPE) : OMX_PARAM_PORTDEFINITIONTYPE :=
  d<|nBufferCountActual := count|><|nBufferCountMin := count|><|nBufferSize := size|>
   <|eDomain := OMX_PortDomainVideo|><|format_video ::= fun v => video_defaults v<|cMIMEType := a|>|>.
Definition video_port (a count size : Z) (p : SEC_OMX_BASEPORT) : SEC_OMX_BASEPORT :=
  p<|portDefinition ::= video_portdef a count size|>.

Section video_ports.
Context `{Env} (I : St -> Prop) (c : nat).
Hypothesis (Hos : forall n, os n = true).

Lemma pwp_Strcpy i p r s a d str Q :
  memory s !! a = Some d -> (String.length str < length d)%nat ->
  Q tt (at_port c i p r s<|memory ::=
          <[a := (Some <$> (string_bytes str ++ [0])) ++ drop (S (String.length str)) d]>|>) ->
  wp I (SEC_OSAL_Strcpy a str (at_port c i p r s)) Q.
Proof.
  intros Hd Hlen HQ. assert (length (string_bytes str ++ [0]) = S (String.length str)) as Hl.
  { rewrite length_app. unfold string_bytes. rewrite length_fmap. simpl.
    rewrite Nat.add_1_r. f_equal. clear. by induction str as [|x str IH]; simpl; [|rewrite IH]. }
  unfold SEC_OSAL_Strcpy. apply wp_bind, wp_gets. unfold at_port in *. rewrite memory_set_sec, Hd, Hl.
  rewrite (proj2 (Nat.leb_le _ _)) by lia. apply wp_modify. by rewrite set_sec_memory.
Qed.

Lemma init_video_port_wp i count size p r s Q :
  valid c s -> has_port i r ->
  (forall a n, 0 < a -> memory s !! a = None ->
     Q tt (at_port c i (video_port a count size p) r s<|oscalls := n|><|memory ::= <[a := mime_block]>|>)) ->
  wp I (init_video_port c i count size (at_port c i p r s)) Q.
Proof.
  intros Hv Hi HQ. unfold init_video_port. apply wp_bind.
  eapply pwp_update; [apply _|done|done|reflexivity|reflexivity|].
  apply wp_bind, pwp_Malloc; [by rewrite Hos|]. intros _ a Ha Hm. cbn [default].
  apply wp_bind. eapply pwp_store; [apply _|fvalid|done|reflexivity|reflexivity|].
  apply wp_bind. eapply pwp_Strcpy; [simpl; by rewrite lookup_insert_eq|by apply Nat.ltb_lt|].
  eapply pwp_update; [apply _|fvalid|done|reflexivity|reflexivity|].
  rewrite memory_twice. exact (HQ a (S (oscalls s)) Ha Hm).
Qed.
End video_ports.

(** ** Theorems *)
Section vdec_theorems.
Context `{Env} `{ComponentOps} `{AndroidMedia} `{VideoSizes}.

(** The port of a new decoder has the defaults and no buffers. *)
Lemma video_port_empty a count size i dir p :
  0 <= count <= 20 -> fresh_port i dir p ->
  port_slots (video_port a count size p) (replicate 20 None) (replicate 20 BUFFER_STATE_FREE).
Proof.
  intros Hc (Hh & Hs & _). split; [exact Hh|]. split; [exact Hs|]. split; [done|].
  change (0 <= count <= 20). exact Hc.
Qed.

(** Two ports without buffers. *)
Lemma two_ports_ok s r q0 q1 :
  pSECPort r = Ptr [q0; q1] ->
  port_slots q0 (replicate 20 None) (replicate 20 BUFFER_STATE_FREE) -> assignedBufferNum q0 = 0 ->
  port_slots q1 (replicate 20 None) (replicate 20 BUFFER_STATE_FREE) -> assignedBufferNum q1 = 0 ->
  buffers_ok s r.
Proof.
  intros Hports Hs0 Ha0 Hs1 Ha1. apply empty_ports_ok. intros i p Hp. unfold port_get in Hp. rewrite Hports in Hp.
  unfold zlookup in Hp. destruct (Z.leb_spec 0 i); [|done].
  destruct (Z.to_nat i) as [|[|j]]; simpl in Hp; [by simplify_eq..|done].
Qed.

(** The component after [SEC_OMX_VideoDecodeComponentInit]. *)
Definition decoder_ready (s s' : St) (c : nat) (r : SEC_OMX_BASECOMPONENT) : Prop :=
  exists p0 p1 a0 a1, pSECPort r = Ptr [video_port a0 MAX_VIDEO_INPUTBUFFER_NUM 0 p0;
      video_port a1 MAX_VIDEO_OUTPUTBUFFER_NUM DEFAULT_VIDEO_OUTPUT_BUFFER_SIZE p1] /\
    fresh_port INPUT_PORT_INDEX OMX_DirInput p0 /\ fresh_port OUTPUT_PORT_INDEX OMX_DirOutput p1 /\
    0 < a0 /\ 0 < a1 /\ memory s !! a0 = None /\ a1 <> a0 /\ memory s !! a1 = None /\
    memory s' = <[a1 := mime_block]> (<[a0 := mime_block]> (memory s)).

(** C14: when the system grants every request, [SEC_OMX_VideoDecodeComponentInit] returns
    [OMX_ErrorNone] and leaves a component that the entry points accept, with the two ports of
    the decoder (five and two buffers of the default sizes, all slots free, video domain), a
    zeroed structure of the decoder, an empty message queue and a message handler thread; the
    MIME type of each port is in a block of its own, nothing else of the memory has changed, and
    the invariant of the buffers holds. *)
Theorem VideoDecodeComponentInit_spec c s k :
  (forall n, os n = true) -> comps s !! c = Some k ->
  SEC_OMX_Check_SizeVersion (Some (comp_header k)) sizeof_COMPONENTTYPE = OMX_ErrorNone ->
  exists s' r id, SEC_OMX_VideoDecodeComponentInit (Some c) s = Done OMX_ErrorNone s' /\
    live c s' /\ look (pSECComponent c) s' = inr r /\ decoder_ready s s' c r /\ buffers_ok s' r /\
    nPorts (portParam r) = 2 /\ hComponentHandle r = Ptr (VideoDec videodec_zero) /\ queue_repr (messageQ r) [] /\
    hMessageHandler r = Some id /\ threads s' !! id = Some (mkThread SEC_OMX_MessageHandlerThread c false) /\
    headers s' = headers s.
Proof.
  intros Hos Hk He. pose proof (with_private_live c k s He) as Hl.
  pose proof (live_valid _ _ Hl) as Hv.
  enough (wp (fun _ => False) (SEC_OMX_VideoDecodeComponentInit (Some c) s) (fun e s' => e = OMX_ErrorNone /\
    exists r id, live c s' /\ look (pSECComponent c) s' = inr r /\ decoder_ready s s' c r /\ buffers_ok s' r /\
      nPorts (portParam r) = 2 /\ hComponentHandle r = Ptr (VideoDec videodec_zero) /\ queue_repr (messageQ r) [] /\
      hMessageHandler r = Some id /\ threads s' !! id = Some (mkThread SEC_OMX_MessageHandlerThread c false) /\
      headers s' = headers s)) as Hwp.
  { destruct (wp_result _ _ Hwp) as (e & s' & Hrun & -> & r & id & Hrest). by exists s', r, id. }
  unfold SEC_OMX_VideoDecodeComponentInit. 
  assert (load (component c) s = Done k s) as Hload by (unfold load; simpl; by rewrite Hk).
  run Hload. cbv zeta. rewrite He.
  change (is_err OMX_ErrorNone) with false. cbn iota. apply wp_bind.
  eapply BaseComponent_Constructor_wp; [done..|]. intros q id n Hq.
  change (is_err OMX_ErrorNone) with false. cbn iota. apply wp_bind, Port_Constructor_wp; [done|exact Hl|].
  intros p0 p1 n' Hp0 Hp1. change (is_err OMX_ErrorNone) with false. cbn iota.
  apply wp_bind, wp_os_call. rewrite Hos. cbn [negb].
  apply wp_bind. eapply wp_store; [apply _|exact Hv|reflexivity|reflexivity|].
  apply wp_bind. eapply wp_store; [apply _|exact Hv|reflexivity|reflexivity|].
  unfold with_ports. cbn [set_field].
  match goal with |- wp _ (_ (set_sec c ?r1 ?s1)) _ =>
    rewrite <- (port_put_id INPUT_PORT_INDEX p0 r1) by done;
    change (set_sec c (port_put INPUT_PORT_INDEX p0 r1) s1) with (at_port c INPUT_PORT_INDEX p0 r1 s1) end.
  apply wp_bind, init_video_port_wp; [done|exact Hv|by eexists|]. intros a0 n0 Ha0 Hm0. simpl in Hm0.
  match goal with |- wp _ (_ (at_port c ?i ?q0 ?r1 ?s1)) _ =>
    change (at_port c i q0 r1 s1) with (set_sec c (port_put i q0 r1) s1);
    rewrite <- (port_put_id OUTPUT_PORT_INDEX p1 (port_put i q0 r1)) by done;
    change (set_sec c (port_put OUTPUT_PORT_INDEX p1 (port_put i q0 r1)) s1)
      with (at_port c OUTPUT_PORT_INDEX p1 (port_put i q0 r1) s1) end.
  apply wp_bind, init_video_port_wp; [done|exact Hv|by eexists|]. intros a1 n1 Ha1 Hm1. simpl in Hm1.
  apply wp_ret. split; [done|].
  assert (a1 <> a0) as Hne by (intros ->; by rewrite lookup_insert_eq in Hm1).
  rewrite lookup_insert_ne in Hm1 by done.
  eexists _, id. split; [apply live_set_sec; exact Hl|]. split; [apply look_sec; exact Hv|].
  split.
  { exists p0, p1, a0, a1. split; [reflexivity|]. unfold at_port. rewrite memory_set_sec. by split_and!. }
  split; [|unfold at_port; rewrite threads_set_sec, headers_set_sec; simpl; by rewrite lookup_insert_eq].
  eapply two_ports_ok; [reflexivity| |apply Hp0| |apply Hp1]; by eapply video_port_empty.
Qed.




(** The port after [OMX_IndexParamVideoPortFormat] is set. *)
Definition with_format (f : OMX_VIDEO_PARAM_PORTFORMATTYPE) (p : SEC_OMX_BASEPORT) : SEC_OMX_BASEPORT :=
  p<|portDefinition ::= fun d => d<|format_video ::= fun v =>
    v<|eColorFormat := pf_eColorFormat f|><|eCompressionFormat := pf_eCompressionFormat f|>
     <|xFramerate := pf_xFramerate f|>|>|>.

Lemma set_format_run c s r p f :
  live c s -> look (pSECComponent c) s = inr r ->
  SEC_OMX_Check_SizeVersion (Some (pf_header f)) sizeof_PORTFORMATTYPE = OMX_ErrorNone ->
  pf_nPortIndex f < nPorts (portParam r) -> port_get (pf_nPortIndex f) r = inr p ->
  vdec_set_parameter c OMX_IndexParamVideoPortFormat (ParamVideoPortFormat f) s =
    Done (OMX_ErrorNone, ParamVideoPortFormat f) (at_port c (pf_nPortIndex f) (with_format f p) r s).
Proof.
  intros Hl Hr He Hi Hp. pose proof (live_valid _ _ Hl) as Hv.
  assert (has_port (pf_nPortIndex f) r) as Hpi by by exists p.
  assert (wp (fun _ => False) (vdec_set_parameter c OMX_IndexParamVideoPortFormat (ParamVideoPortFormat f)
            (at_port c (pf_nPortIndex f) p r s))
            (fun x s' => x = (OMX_ErrorNone, ParamVideoPortFormat f) /\
               s' = at_port c (pf_nPortIndex f) (with_format f p) r s)) as Hwp.
  { cbn [vdec_set_parameter]. rewrite He. change (is_err OMX_ErrorNone) with false. cbn iota.
    apply wp_bind. eapply wp_load; [apply _|done|reflexivity|]. autorewrite with port.
    rewrite (proj2 (Z.leb_gt _ _)) by done.
    do 3 (apply wp_bind; eapply pwp_store; [apply _|fvalid|done|reflexivity|reflexivity|]).
    by apply wp_ret. }
  rewrite (at_port_id c (pf_nPortIndex f) p r s) in Hwp by done.
  by destruct (wp_result _ _ Hwp) as (x & s' & Hrun & -> & ->).
Qed.

(** What the client reads: the input port reports the formats it was given, the output port
    the entry [nIndex] of its table; both report their frame rate. *)
Definition reported_format (v : OMX_VIDEO_PORTDEFINITIONTYPE) (f : OMX_VIDEO_PARAM_PORTFORMATTYPE)
  : OMX_VIDEO_PARAM_PORTFORMATTYPE :=
  (if pf_nPortIndex f =? INPUT_PORT_INDEX
   then f<|pf_eCompressionFormat := eCompressionFormat v|><|pf_eColorFormat := eColorFormat v|>
   else f<|pf_eCompressionFormat := OMX_VIDEO_CodingUnused|><|pf_eColorFormat := output_format (pf_nIndex f)|>)
  <|pf_xFramerate := xFramerate v|>.
Definition formats_of (i : Z) : Z :=
  if i =? INPUT_PORT_INDEX then INPUT_PORT_SUPPORTFORMAT_NUM_MAX else OUTPUT_PORT_SUPPORTFORMAT_NUM_MAX.

Lemma get_format_run c s r p f :
  valid c s -> nPorts (portParam r) = 2 -> port_get (pf_nPortIndex f) r = inr p ->
  SEC_OMX_Check_SizeVersion (Some (pf_header f)) sizeof_PORTFORMATTYPE = OMX_ErrorNone ->
  0 <= pf_nPortIndex f < 2 -> pf_nIndex f < formats_of (pf_nPortIndex f) ->
  vdec_get_parameter c OMX_IndexParamVideoPortFormat (ParamVideoPortFormat f) (set_sec c r s) =
    Done (OMX_ErrorNone, ParamVideoPortFormat (reported_format (format_video (portDefinition p)) f)) (set_sec c r s).
Proof.
  intros Hv Hn Hp He Hi Hx. cbn [vdec_get_parameter]. cbv zeta. rewrite He.
  change (is_err OMX_ErrorNone) with false. cbn iota.
  unfold bind at 1. rewrite run_load by done. cbn [obind]. rewrite Hn.
  rewrite (proj2 (Z.leb_gt _ _)) by lia. unfold formats_of in Hx. unfold reported_format.
  destruct (Z.eqb_spec (pf_nPortIndex f) INPUT_PORT_INDEX) as [E|E].
  - rewrite (proj2 (Z.ltb_ge _ _)) by lia. rewrite E in Hp.
    unfold bind. rewrite run_load by done. cbv beta. rewrite Hp. done.
  - assert (pf_nPortIndex f = OUTPUT_PORT_INDEX) as E1 by (unfold INPUT_PORT_INDEX, OUTPUT_PORT_INDEX in *; lia).
    rewrite (proj2 (Z.eqb_eq _ _) E1), (proj2 (Z.ltb_ge _ _)) by lia. rewrite E1 in Hp.
    unfold bind. rewrite run_load by done. cbv beta. rewrite Hp. done.
Qed.

(** what is set by [OMX_IndexParamVideoPortFormat] and what is then reported agree on
    the input port; on the output port the frame rate is reported back, but the formats are
    those of the decoder's table at the client's [nIndex], whatever was set. *)
Theorem PortFormat_roundtrip c s r p f f' :
  live c s -> look (pSECComponent c) s = inr r -> currentState r <> OMX_StateInvalid ->
  nPorts (portParam r) = 2 -> 0 <= pf_nPortIndex f < 2 -> port_get (pf_nPortIndex f) r = inr p ->
  SEC_OMX_Check_SizeVersion (Some (pf_header f)) sizeof_PORTFORMATTYPE = OMX_ErrorNone ->
  SEC_OMX_Check_SizeVersion (Some (pf_header f')) sizeof_PORTFORMATTYPE = OMX_ErrorNone ->
  pf_nPortIndex f' = pf_nPortIndex f -> 0 <= pf_nIndex f' < formats_of (pf_nPortIndex f) ->
  exists s' g,
    SEC_OMX_VideoDecodeSetParameter (Some c) OMX_IndexParamVideoPortFormat (Some (ParamVideoPortFormat f)) s
      = Done (OMX_ErrorNone, Some (ParamVideoPortFormat f)) s' /\
    SEC_OMX_VideoDecodeGetParameter (Some c) OMX_IndexParamVideoPortFormat (Some (ParamVideoPortFormat f')) s'
      = Done (OMX_ErrorNone, Some (ParamVideoPortFormat g)) s' /\
    pf_xFramerate g = pf_xFramerate f /\
    pf_eColorFormat g = (if pf_nPortIndex f =? INPUT_PORT_INDEX then pf_eColorFormat f
                         else output_format (pf_nIndex f')) /\
    pf_eCompressionFormat g = (if pf_nPortIndex f =? INPUT_PORT_INDEX then pf_eCompressionFormat f
                               else OMX_VIDEO_CodingUnused).
Proof.
  intros Hl Hr Hst Hn Hi Hp He He' Hpi Hx. assert (has_port (pf_nPortIndex f) r) as Hhas by by exists p.
  set (p' := with_format f p).
  exists (at_port c (pf_nPortIndex f) p' r s), (reported_format (format_video (portDefinition p')) f'). split; [|split].
  - unfold SEC_OMX_VideoDecodeSetParameter. rewrite (state_entry_run c s r) by done.
    rewrite decide_False by done. run (set_format_run c s r p f Hl Hr He ltac:(lia) Hp). done.
  - unfold SEC_OMX_VideoDecodeGetParameter, at_port.
    rewrite (state_entry_run c _ (port_put (pf_nPortIndex f) p' r));
      [|by apply live_set_sec|apply look_sec; by apply live_valid].
    autorewrite with port. rewrite decide_False by done.
    assert (port_get (pf_nPortIndex f') (port_put (pf_nPortIndex f) p' r) = inr p') as Hp'
      by (rewrite Hpi; by apply port_get_put).
    assert (nPorts (portParam (port_put (pf_nPortIndex f) p' r)) = 2) as Hn' by by autorewrite with port.
    run (get_format_run c s _ p' f' (live_valid _ _ Hl) Hn' Hp' He' ltac:(by rewrite Hpi)
           ltac:(rewrite Hpi; lia)). done.
  - unfold reported_format. rewrite Hpi. by destruct (_ =? _).
Qed.
End vdec_theorems.

(** ** Instances *)
Definition sample_sizes : VideoSizes := {| sizeof_PORTFORMATTYPE := 28 |}.

(** A component that the core has just allocated. *)
Definition sample_new : St :=
  mkSt {[ 1%nat := mkComponent (INIT_SET_SIZE_VERSION 116) Null ]} ∅ [] [] [] [] (Some false) ∅ [] 100 ∅.

Lemma VideoDecodeComponentInit_spec_witness :
  exists s' r id,
    SEC_OMX_VideoDecodeComponentInit (H := sample_env) (Some 1%nat) sample_new = Done OMX_ErrorNone s' /\
    live (H := sample_env) 1 s' /\ look (pSECComponent 1) s' = inr r /\
    decoder_ready (H := sample_env) sample_new s' 1 r /\ buffers_ok s' r /\
    nPorts (portParam r) = 2 /\ hComponentHandle r = Ptr (VideoDec videodec_zero) /\ queue_repr (messageQ r) [] /\
    hMessageHandler r = Some id /\ threads s' !! id = Some (mkThread SEC_OMX_MessageHandlerThread 1 false) /\
    headers s' = headers sample_new.
Proof.
  apply (VideoDecodeComponentInit_spec (H := sample_env) 1 sample_new
           (mkComponent (INIT_SET_SIZE_VERSION 116) Null)); done.
Defined.

(** The two blocks for the MIME types are the last allocations of the construction; when
    either fails, [strcpy] writes to NULL. *)
Theorem mime_type_allocation_unchecked :
  SEC_OMX_VideoDecodeComponentInit (H := failing_env 155) (Some 1%nat) sample_new = Fault NullDeref /\
  SEC_OMX_VideoDecodeComponentInit (H := failing_env 156) (Some 1%nat) sample_new = Fault NullDeref.
Proof. by vm_compute. Qed.

(** Destruction joins the message handler thread: [Deinit] runs up to the join, then the
    thread to its end, then the rest of [Deinit]. *)
Definition finish_deinit (s : St) : option (OMX_ERRORTYPE * St) :=
  match SEC_OMX_VideoDecodeComponentDeinit (H := sample_env) (Some 1%nat) s with
  | Done e s => Some (e, s)
  | Fault _ => None
  | Blocked ready s k =>
      match map_to_list (threads s) with
      | [(id, _)] =>
          match MessageHandlerThread (H := sample_env) (H0 := sample_ops) 2 id (Some 1%nat) s with
          | Done true s =>
              if ready s then match k s with Done e s => Some (e, s) | _ => None end else None
          | _ => None
          end
      | _ => None
      end
  end.

(** Construction, what the client does with the component, destruction: the error of [Deinit]
    and the blocks and threads that are left. *)
Definition lifetime (client : M St unit) : option (OMX_ERRORTYPE * list Z * nat) :=
  match (SEC_OMX_VideoDecodeComponentInit (H := sample_env) (Some 1%nat) ;;;
         store (pSECComponent 1)↘currentState OMX_StateLoaded ;;; client) sample_new with
  | Done _ s =>
      match finish_deinit s with
      | Some (e, s) => Some (e, (map_to_list (memory s)).*1, size (threads s))
      | None => None
      end
  | _ => None
  end.

Lemma lifetime_leaves_nothing : lifetime (ret tt) = Some (OMX_ErrorNone, [], 0%nat).
Proof. by vm_compute. Qed.

(** [SEC_OMX_SetParameter] copies a port definition with its pointer to the MIME type.  A
    client that sets the definition of the input port with NULL there loses the decoder's block
    for ever; with a pointer of its own, here to a block the client has allocated, it has that
    block freed by [Deinit]. *)
Definition set_portdef (mime : Z) : M St unit :=
  let* d := load (port 1 INPUT_PORT_INDEX)↘portDefinition in
  let d' := d<|format_video ::= fun v => v<|cMIMEType := mime|>|> in
  let* '(e, _) := SEC_OMX_VideoDecodeSetParameter (H := sample_env) (H1 := sample_media) (H2 := sample_sizes)
    (Some 1%nat) OMX_IndexParamPortDefinition (Some (ParamPortDefinition d')) in
  if is_err e then fail Fatal else ret tt.

Theorem mime_type_pointer_replaced :
  lifetime (set_portdef 0) = Some (OMX_ErrorNone, [1], 0%nat) /\
  lifetime (let* a := SEC_OSAL_Malloc (H := sample_env) 16 in set_portdef (default 0 a))
    = Some (OMX_ErrorNone, [1], 0%nat) /\
  lifetime (let* _ := SEC_OSAL_Malloc (H := sample_env) 16 in ret tt) = Some (OMX_ErrorNone, [3], 0%nat).
Proof. by vm_compute. Qed.

Lemma PortFormat_roundtrip_witness :
  let f := mkPortFormat (INIT_SET_SIZE_VERSION 28) 1 0 0 OMX_SEC_COLOR_FormatNV12Tiled 1966080 in
  let s := sample_state sample_decoder ∅ in
  exists s' g,
    SEC_OMX_VideoDecodeSetParameter (H := sample_env) (H1 := sample_media) (H2 := sample_sizes) (Some 1%nat)
      OMX_IndexParamVideoPortFormat (Some (ParamVideoPortFormat f)) s
      = Done (OMX_ErrorNone, Some (ParamVideoPortFormat f)) s' /\
    SEC_OMX_VideoDecodeGetParameter (H := sample_env) (H1 := sample_media) (H2 := sample_sizes) (Some 1%nat)
      OMX_IndexParamVideoPortFormat (Some (ParamVideoPortFormat f)) s'
      = Done (OMX_ErrorNone, Some (ParamVideoPortFormat g)) s' /\
    pf_xFramerate g = 1966080 /\ pf_eColorFormat g = OMX_COLOR_FormatYUV420Planar /\ pf_eCompressionFormat g = 0.
Proof.
  intros f s.
  apply (PortFormat_roundtrip (H := sample_env) (H1 := sample_media) (H2 := sample_sizes) 1 s sample_decoder
           (sample_port 1 OMX_DirOutput [] []) f f); try done.
  apply sample_live.
Defined.

