(* ===== verification/VdecProcess.v ===== *)
(** * The processing thread of the video decoder

    Models the second part of [component/video/dec/SEC_OMX_Vdec.c]: the thread that
    takes buffers from the queues of the two ports, collects the input of a frame
    for the codec, runs the codec and gives the buffers back, as the functions the
    decoder installs in its base component.  [sec_checkInputFrame], which finds the end
    of a frame in the stream, is the interface [FrameChecker] with its laws; the
    decoding itself ([sec_mfc_bufferProcess]) is the interface [Codec]. *)
From S2P Require Import Prelude Machine OmxEnums OsalSync OsalQueue OmxTypes OmxState Focus.
From S2P Require Import PortFocus OmxMemory Samples BasePort VdecBuffers Bytes FrameCheck.

(** The decoding function that a codec component installs. *)
Class Codec := sec_mfc_bufferProcess : nat -> M St OMX_ERRORTYPE.

Definition has_flag (flags flag : Z) : bool := negb (Z.land flags flag =? 0).
Definition clear_flag (flags flag : Z) : Z := Z.land flags (u32 (Z.lnot flag)).

(** [SEC_OSAL_SignalWait(event, DEF_MAX_WAIT_TIME)] and [SEC_OSAL_SignalReset(event)]
    through a handle, which may dangle. *)
Definition SignalWait (P : place (ptr SEC_OSAL_THREADEVENT)) : M St OMX_ERRORTYPE :=
  let* h := load P in
  match h with
  | Dangling => fail NullDeref
  | Null => ret OMX_ErrorBadParameter
  | Ptr _ =>
      wait (fun s => match look P s with inr (Ptr e) => event_ready (Some e) | _ => true end) ;;;
      let* h := load P in
      match h with
      | Ptr e => ret (match event_mutex e with Some _ => OMX_ErrorNone | None => OMX_ErrorBadParameter end)
      | _ => fail NullDeref
      end
  end.
Definition SignalReset (P : place (ptr SEC_OSAL_THREADEVENT)) : M St OMX_ERRORTYPE :=
  let* h := load P in
  match h with
  | Dangling => fail NullDeref
  | Null => ret OMX_ErrorBadParameter
  | Ptr e =>
      let '(r, h') := SEC_OSAL_SignalReset (Some e) in
      store P (match h' with Some e' => Ptr e' | None => Null end) ;;; ret r
  end.

Section process.
Context `{Env} `{FrameChecker} `{Codec}.

(** The call of [sec_checkInputFrame] on the memory from the stream pointer on; its
    result is converted to [OMX_U32]. *)
Definition check_input (l : stream) (len flags : Z) (previousFrameEOF : bool) : M St (Z * bool) :=
  match sec_checkInputFrame l len flags previousFrameEOF with
  | inl e => fail e
  | inr (n, eof) => ret (u32 n, eof)
  end.

Definition SEC_Check_BufferProcess_State (c : nat) : M St bool :=
  let* r := load (pSECComponent c) in
  if bool_decide (currentState r = OMX_StateExecuting) then
    let* p0 := load (port c INPUT_PORT_INDEX) in
    if bool_decide (portState p0 = OMX_StateIdle) then
      let* p1 := load (port c OUTPUT_PORT_INDEX) in
      ret (bool_decide (portState p1 = OMX_StateIdle)
           && negb (bool_decide (transientState r = SEC_OMX_TransStateExecutingToIdle))
           && negb (bool_decide (transientState r = SEC_OMX_TransStateIdleToExecuting)))
    else ret false
  else ret false.

(** ** Resets *)
Definition databuffer_reset (d : SEC_OMX_DATABUFFER) : SEC_OMX_DATABUFFER :=
  d<|dataValid := false|><|db_dataLen := 0|><|db_remainDataLen := 0|><|db_usedDataLen := 0|>
   <|db_bufferHeader := None|><|db_nFlags := 0|><|db_timeStamp := 0|>.
Definition SEC_BufferReset (c : nat) (portIndex : Z) : M St OMX_ERRORTYPE :=
  update (databuffer c portIndex) databuffer_reset ;;; ret OMX_ErrorNone.

Definition data_reset (d : SEC_OMX_DATA) : SEC_OMX_DATA :=
  d<|pd_dataLen := 0|><|pd_remainDataLen := 0|><|pd_usedDataLen := 0|><|pd_nFlags := 0|><|pd_timeStamp := 0|>.
Definition SEC_DataReset (c : nat) (portIndex : Z) : M St OMX_ERRORTYPE :=
  update (data_of c portIndex) data_reset ;;; ret OMX_ErrorNone.

(** ** Giving buffers back *)

(** A paused component waits, unless a port is being flushed. *)
Definition pause_wait (c : nat) : M St unit :=
  let* st := load (pSECComponent c)↘currentState in
  if bool_decide (st = OMX_StatePause) then
    let* p0 := load (port c INPUT_PORT_INDEX) in
    let* p1 := load (port c OUTPUT_PORT_INDEX) in
    if (negb (CHECK_PORT_BEING_FLUSHED p0) && negb (CHECK_PORT_BEING_FLUSHED p1))%bool then
      SignalWait (pSECComponent c)↘pauseEvent ;;;
      SignalReset (pSECComponent c)↘pauseEvent ;;; ret tt
    else ret tt
  else ret tt.

(** The mark of the input port goes to the buffer; the mark of the buffer is
    reported, or passed on to the output. *)
Definition input_mark (c b : nat) : M St unit :=
  let* mark := load (port c INPUT_PORT_INDEX)↘markType in
  (match hMarkTargetComponent mark with
   | Some _ =>
       store (header b)↘bh_hMarkTargetComponent (hMarkTargetComponent mark) ;;;
       store (header b)↘bh_pMarkData (pMarkData mark) ;;;
       store (port c INPUT_PORT_INDEX)↘markType mark_zero
   | None => ret tt
   end) ;;;
  let* h := load (header b) in
  match bh_hMarkTargetComponent h with
  | Some t =>
      if bool_decide (t = c) then call_back c (EventMark c (bh_pMarkData h))
      else store (pSECComponent c)↘propagateMarkType (mkMark (Some t) (bh_pMarkData h))
  | None => ret tt
  end.

Definition SEC_InputBufferReturn (c : nat) : M St OMX_ERRORTYPE :=
  let* d := load (databuffer c INPUT_PORT_INDEX) in
  (match db_bufferHeader d with
   | Some b =>
       input_mark c b ;;;
       let* p := load (port c INPUT_PORT_INDEX) in
       if CHECK_PORT_TUNNELED p then OMX_FillThisBuffer (tunneledComponent p) b ;;; ret tt
       else
         store (header b)↘nFilledLen 0 ;;;
         call_back c (EmptyBufferDone c b)
   | None => ret tt
   end) ;;;
  pause_wait c ;;;
  update (databuffer c INPUT_PORT_INDEX) databuffer_reset ;;;
  ret OMX_ErrorNone.

Definition output_mark (c b : nat) : M St unit :=
  let* mark := load (pSECComponent c)↘propagateMarkType in
  match hMarkTargetComponent mark with
  | Some _ =>
      store (header b)↘bh_hMarkTargetComponent (hMarkTargetComponent mark) ;;;
      store (header b)↘bh_pMarkData (pMarkData mark) ;;;
      store (pSECComponent c)↘propagateMarkType mark_zero
  | None => ret tt
  end.

Definition SEC_OutputBufferReturn (c : nat) : M St OMX_ERRORTYPE :=
  let* d := load (databuffer c OUTPUT_PORT_INDEX) in
  (match db_bufferHeader d with
   | Some b =>
       update (header b) (fun h =>
         h<|nFilledLen := db_remainDataLen d|><|nOffset := 0|><|nFlags := db_nFlags d|>
          <|nTimeStamp := db_timeStamp d|>) ;;;
       output_mark c b ;;;
       (if has_flag (db_nFlags d) OMX_BUFFERFLAG_EOS
        then call_back c (EventBufferFlag c OUTPUT_PORT_INDEX (db_nFlags d)) else ret tt) ;;;
       let* p := load (port c OUTPUT_PORT_INDEX) in
       if CHECK_PORT_TUNNELED p then OMX_EmptyThisBuffer (tunneledComponent p) b ;;; ret tt
       else call_back c (FillBufferDone c b)
   | None => ret tt
   end) ;;;
  pause_wait c ;;;
  update (databuffer c OUTPUT_PORT_INDEX) databuffer_reset ;;;
  ret OMX_ErrorNone.

(** ** Taking buffers from the queue of a port *)

(** Both functions wait for the semaphore of the port and take the next buffer under
    the mutex of the data buffer; [take b h] stores what they note about it. *)
Definition buffer_get_queue (c : nat) (i : Z) (take : nat -> OMX_BUFFERHEADERTYPE -> M St unit)
  : M St OMX_ERRORTYPE :=
  let* st := load (pSECComponent c)↘currentState in
  if negb (bool_decide (st = OMX_StateExecuting)) then ret OMX_ErrorUndefined
  else
    SemaphoreWait (port c i)↘bufferSemID ;;;
    MutexLock (databuffer c i)↘bufferMutex ;;;
    let* d := load (databuffer c i) in
    if dataValid d then MutexUnlock (databuffer c i)↘bufferMutex ;;; ret OMX_ErrorNone
    else
      let* message := Dequeue (port c i)↘bufferQ in
      match message with
      | None => MutexUnlock (databuffer c i)↘bufferMutex ;;; ret OMX_ErrorUndefined
      | Some it =>
          let* b := message_buffer it in
          let* h := load (header b) in
          take b h ;;;
          MutexUnlock (databuffer c i)↘bufferMutex ;;; ret OMX_ErrorNone
      end.

Definition SEC_InputBufferGetQueue (c : nat) : M St OMX_ERRORTYPE :=
  buffer_get_queue c INPUT_PORT_INDEX (fun b h =>
    update (databuffer c INPUT_PORT_INDEX) (fun d =>
      d<|db_bufferHeader := Some b|><|db_allocSize := nAllocLen h|><|db_dataLen := nFilledLen h|>
       <|db_remainDataLen := nFilledLen h|><|db_usedDataLen := 0|><|dataValid := true|>
       <|db_nFlags := nFlags h|><|db_timeStamp := nTimeStamp h|>)).

Definition SEC_OutputBufferGetQueue (c : nat) : M St OMX_ERRORTYPE :=
  buffer_get_queue c OUTPUT_PORT_INDEX (fun b h =>
    update (databuffer c OUTPUT_PORT_INDEX) (fun d =>
      d<|db_bufferHeader := Some b|><|db_allocSize := nAllocLen h|><|db_dataLen := 0|>
       <|db_remainDataLen := 0|><|db_usedDataLen := 0|><|dataValid := true|>) ;;;
    update (data_of c OUTPUT_PORT_INDEX) (fun d =>
      d<|pd_dataBuffer := pBuffer h|><|pd_allocSize := nAllocLen h|>)).

(** ** The input of a frame *)

(** The end-of-stream flag: what becomes of the flags of the frame, of [flagEOF] and
    of [bSaveFlagEOS].  [bufFlags] are the flags of the buffer, [dataFlags] and
    [dataLen] those of the data collected so far. *)
Definition eos_flags (useFlagEOF saveFlagEOS : bool) (bufFlags dataFlags dataLen : Z)
    (wholeBuffer flagEOF : bool) : Z * bool * bool :=
  if useFlagEOF then
    if saveFlagEOS then (Z.lor dataFlags OMX_BUFFERFLAG_EOS, true, false)
    else (clear_flag dataFlags OMX_BUFFERFLAG_EOS, flagEOF, saveFlagEOS)
  else if (wholeBuffer && saveFlagEOS)%bool then
    if (has_flag bufFlags OMX_BUFFERFLAG_EOS
        && (has_flag dataFlags OMX_BUFFERFLAG_CODECCONFIG || (dataLen =? 0)))%bool
    then (Z.lor dataFlags OMX_BUFFERFLAG_EOS, true, false)
    else if (has_flag bufFlags OMX_BUFFERFLAG_EOS
             && negb (has_flag dataFlags OMX_BUFFERFLAG_CODECCONFIG) && negb (dataLen =? 0))%bool
    then (clear_flag dataFlags OMX_BUFFERFLAG_EOS, true, true)
    else (dataFlags, flagEOF, saveFlagEOS)
  else (clear_flag bufFlags OMX_BUFFERFLAG_EOS, flagEOF, saveFlagEOS).

(** [inputData] takes [copySize] bytes of the buffer. *)
Definition take_input (c : nat) (a copySize : Z) (u : SEC_OMX_DATABUFFER) (inp : SEC_OMX_DATA)
  : M St unit :=
  (if 0 <? copySize
   then SEC_OSAL_Memcpy (pd_dataBuffer inp) (pd_dataLen inp) a (db_usedDataLen u) copySize
   else ret tt) ;;;
  update (databuffer c INPUT_PORT_INDEX) (fun u =>
    u<|db_dataLen ::= fun n => u32 (n - copySize)|><|db_remainDataLen ::= fun n => u32 (n - copySize)|>
     <|db_usedDataLen ::= fun n => u32 (n + copySize)|>) ;;;
  update (data_of c INPUT_PORT_INDEX) (fun d =>
    d<|pd_dataLen ::= fun n => u32 (n + copySize)|><|pd_remainDataLen ::= fun n => u32 (n + copySize)|>).

(** The flags of the frame after the copy, and whether its end was found. *)
Definition settle_frame (c : nat) (previousFrameEOF wholeBuffer flagEOF : bool) : M St bool :=
  let* u := load (databuffer c INPUT_PORT_INDEX) in
  (if previousFrameEOF then
     update (data_of c INPUT_PORT_INDEX) (fun d =>
       d<|pd_timeStamp := db_timeStamp u|><|pd_nFlags := db_nFlags u|>)
   else ret tt) ;;;
  let* inp := load (data_of c INPUT_PORT_INDEX) in
  let* r := load (pSECComponent c) in
  let '(flags, flagEOF, save) :=
    eos_flags (bUseFlagEOF r) (bSaveFlagEOS r) (db_nFlags u) (pd_nFlags inp) (pd_dataLen inp)
      wholeBuffer flagEOF in
  store (data_of c INPUT_PORT_INDEX)↘pd_nFlags flags ;;;
  store (pSECComponent c)↘bSaveFlagEOS save ;;;
  (if (has_flag flags OMX_BUFFERFLAG_EOS && (pd_dataLen inp <=? 0) && flagEOF)%bool then
     update (data_of c INPUT_PORT_INDEX) (fun d =>
       d<|pd_dataLen := pd_previousDataLen d|><|pd_remainDataLen := pd_previousDataLen d|>)
   else ret tt) ;;;
  ret flagEOF.

(** The branch of [SEC_Preprocessor_InputData] for a valid buffer: [flagEOF]. *)
Definition preprocess_buffer (c : nat) (u : SEC_OMX_DATABUFFER) : M St bool :=
  match db_bufferHeader u with
  | None => fail NullDeref
  | Some b =>
      let* h := load (header b) in
      let* inp := load (data_of c INPUT_PORT_INDEX) in
      let* r := load (pSECComponent c) in
      let* m := gets memory in
      let stream := drop (Z.to_nat (db_usedDataLen u)) (default [] (m !! pBuffer h)) in
      let len := db_remainDataLen u in
      let previousFrameEOF := pd_dataLen inp =? 0 in
      let* check := (if bUseFlagEOF r then ret (len, true)
                     else check_input stream len (db_nFlags u) previousFrameEOF) in
      let '(checkedSize, flagEOF) := check in
      let copySize := if (flagEOF : bool) then checkedSize else len in
      (if has_flag (db_nFlags u) OMX_BUFFERFLAG_EOS
       then store (pSECComponent c)↘bSaveFlagEOS true else ret tt) ;;;
      let* flagEOF :=
        (if copySize <=? u32 (pd_allocSize inp - pd_dataLen inp) then
           take_input c (pBuffer h) copySize u inp ;;;
           settle_frame c previousFrameEOF (checkedSize =? len) flagEOF
         else
           SEC_DataReset c INPUT_PORT_INDEX ;;; ret false) in
      let* rest := load (databuffer c INPUT_PORT_INDEX)↘db_remainDataLen in
      (if rest =? 0 then SEC_InputBufferReturn c ;;; ret tt
       else store (databuffer c INPUT_PORT_INDEX)↘dataValid true) ;;;
      ret flagEOF
  end.

(** The first frame after a seek. *)
Definition note_start (c : nat) : M St unit :=
  let* inp := load (data_of c INPUT_PORT_INDEX) in
  update (pSECComponent c)↘checkTimeStamp (fun t =>
    if needSetStartTimeStamp t
    then mkTimeStamp false true (pd_timeStamp inp) (pd_nFlags inp) else t).

Definition SEC_Preprocessor_InputData (c : nat) : M St bool :=
  let* u := load (databuffer c INPUT_PORT_INDEX) in
  let* flagEOF := (if dataValid u then preprocess_buffer c u else ret false) in
  if (flagEOF : bool) then note_start c ;;; ret true else ret false.

(** ** The output of the codec *)

(** Whether the output is dropped: after a seek, everything before the first frame. *)
Definition drop_output (t : SEC_OMX_TIMESTAMP) (out : SEC_OMX_DATA) : bool :=
  if needCheckStartTimeStamp t
  then negb ((startTimeStamp t =? pd_timeStamp out) && (nStartFlags t =? pd_nFlags out))
  else needSetStartTimeStamp t.
Definition seen_start (t : SEC_OMX_TIMESTAMP) : SEC_OMX_TIMESTAMP :=
  if needCheckStartTimeStamp t then mkTimeStamp false false (-19761123) 0 else t.

Definition SEC_Postprocess_OutputData (c : nat) : M St bool :=
  let* u := load (databuffer c OUTPUT_PORT_INDEX) in
  if negb (dataValid u) then ret false
  else
    let* out := load (data_of c OUTPUT_PORT_INDEX) in
    let* t := load (pSECComponent c)↘checkTimeStamp in
    if drop_output t out then SEC_DataReset c OUTPUT_PORT_INDEX ;;; ret true
    else
      store (pSECComponent c)↘checkTimeStamp (seen_start t) ;;;
      if pd_remainDataLen out <=? u32 (db_allocSize u - db_dataLen u) then
        update (databuffer c OUTPUT_PORT_INDEX) (fun u =>
          u<|db_dataLen ::= fun n => u32 (n + pd_remainDataLen out)|>
           <|db_remainDataLen ::= fun n => u32 (n + pd_remainDataLen out)|>
           <|db_nFlags := pd_nFlags out|><|db_timeStamp := pd_timeStamp out|>) ;;;
        SEC_DataReset c OUTPUT_PORT_INDEX ;;;
        let* u := load (databuffer c OUTPUT_PORT_INDEX) in
        (if (0 <? db_remainDataLen u) || has_flag (db_nFlags u) OMX_BUFFERFLAG_EOS
         then SEC_OutputBufferReturn c ;;; ret tt else ret tt) ;;;
        ret true
      else SEC_DataReset c OUTPUT_PORT_INDEX ;;; ret false.

(** ** The loop of the thread *)

(** One round of the inner loop of [SEC_OMX_BufferProcess]; [true] leaves it. *)
Definition process_round (c : nat) : M St bool :=
  let in_mutex := (databuffer c INPUT_PORT_INDEX)↘bufferMutex in
  let out_mutex := (databuffer c OUTPUT_PORT_INDEX)↘bufferMutex in
  MutexLock out_mutex ;;;
  let* u := load (databuffer c OUTPUT_PORT_INDEX) in
  let* p1 := load (port c OUTPUT_PORT_INDEX) in
  MutexUnlock out_mutex ;;;
  let* leave :=
    (if (negb (dataValid u) && negb (CHECK_PORT_BEING_FLUSHED p1))%bool then
       let* r := SEC_OutputBufferGetQueue c in
       let* p0 := load (port c INPUT_PORT_INDEX) in
       let* p1 := load (port c OUTPUT_PORT_INDEX) in
       ret (bool_decide (r = OMX_ErrorUndefined)
            || negb (bool_decide (portState p0 = OMX_StateIdle))
            || negb (bool_decide (portState p1 = OMX_StateIdle)))
     else ret false) in
  if (leave : bool) then ret true
  else
    let* remain := load (pSECComponent c)↘remainOutputData in
    let* leave :=
      (if negb remain then
         let* again := load (pSECComponent c)↘reInputData in
         let* leave :=
           (if negb again then
              MutexLock in_mutex ;;;
              let* done := SEC_Preprocessor_InputData c in
              let* p0 := load (port c INPUT_PORT_INDEX) in
              MutexUnlock in_mutex ;;;
              if (negb done && negb (CHECK_PORT_BEING_FLUSHED p0))%bool
              then SEC_InputBufferGetQueue c ;;; ret true else ret false
            else ret false) in
         if (leave : bool) then ret true
         else
           MutexLock in_mutex ;;;
           MutexLock out_mutex ;;;
           let* r := sec_mfc_bufferProcess c in
           MutexUnlock out_mutex ;;;
           MutexUnlock in_mutex ;;;
           store (pSECComponent c)↘reInputData (bool_decide (r = OMX_ErrorInputDataDecodeYet)) ;;;
           ret false
       else ret false) in
    if (leave : bool) then ret true
    else
      MutexLock out_mutex ;;;
      let* done := SEC_Postprocess_OutputData c in
      store (pSECComponent c)↘remainOutputData (negb done) ;;;
      MutexUnlock out_mutex ;;;
      ret false.

(** The head of the outer loop: an idle or paused component waits for the event. *)
Definition idle_wait (c : nat) : M St unit :=
  let* r := load (pSECComponent c) in
  if ((bool_decide (currentState r = OMX_StatePause) || bool_decide (currentState r = OMX_StateIdle)
       || bool_decide (transientState r = SEC_OMX_TransStateLoadedToIdle)
       || bool_decide (transientState r = SEC_OMX_TransStateExecutingToIdle))
      && negb (bool_decide (transientState r = SEC_OMX_TransStateIdleToLoaded)))%bool
  then
    let* p0 := load (port c INPUT_PORT_INDEX) in
    let* p1 := load (port c OUTPUT_PORT_INDEX) in
    if (negb (CHECK_PORT_BEING_FLUSHED p0) && negb (CHECK_PORT_BEING_FLUSHED p1))%bool then
      SignalWait (pSECComponent c)↘pauseEvent ;;;
      SignalReset (pSECComponent c)↘pauseEvent ;;; ret tt
    else ret tt
  else ret tt.

(** The two loops, observed for a number of rounds; [true] when the thread has left
    them because [bExitBufferProcessThread] was set. *)
Fixpoint inner_rounds (n : nat) (c : nat) : M St nat :=
  match n with
  | O => ret O
  | S n =>
      let* go := SEC_Check_BufferProcess_State c in
      let* exit := load (pSECComponent c)↘bExitBufferProcessThread in
      if (go && negb exit)%bool then
        let* leave := process_round c in
        if (leave : bool) then ret n else inner_rounds n c
      else ret n
  end.
Fixpoint outer_rounds (fuel n : nat) (c : nat) : M St bool :=
  match fuel with
  | O => ret false
  | S fuel =>
      let* exit := load (pSECComponent c)↘bExitBufferProcessThread in
      if (exit : bool) then ret true
      else match n with
           | O => ret false
           | S n => idle_wait c ;;; let* n := inner_rounds (S n) c in outer_rounds fuel n c
           end
  end.
Definition SEC_OMX_BufferProcess (n : nat) (c : nat) : M St bool :=
  update (pSECComponent c) (fun r => r<|remainOutputData := false|><|reInputData := false|>) ;;;
  outer_rounds (S n) n c.
End process.

(** ** The functions a decoder installs *)
Definition VideoDec_ops `{Env} (init : nat -> M St OMX_ERRORTYPE)
    (terminate : option (nat -> M St OMX_ERRORTYPE)) : ComponentOps := {|
  sec_mfc_componentInit := init;
  sec_mfc_componentTerminate := terminate;
  sec_AllocateTunnelBuffer := SEC_OMX_AllocateTunnelBuffer;
  sec_FreeTunnelBuffer := SEC_OMX_FreeTunnelBuffer;
  sec_BufferReset := SEC_BufferReset;
  sec_InputBufferReturn := SEC_InputBufferReturn;
  sec_OutputBufferReturn := SEC_OutputBufferReturn
|}.

(** ** Symbolic execution of the data exchange *)
Ltac hstep :=
  lazymatch goal with
  | |- wp _ (load (header _) (set_sec _ _ _)) _ => eapply wp_load_header; [simpl; eassumption|]
  | |- wp _ (update (header _) _ (set_sec _ _ _)) _ => eapply wp_update_header; [simpl; eassumption|]
  | |- wp _ (store (member (header _) _) _ (set_sec _ _ _)) _ => eapply wp_store_header; [simpl; eassumption|]
  | |- wp _ (gets memory (set_sec _ _ _)) _ => apply wp_gets_memory
  | |- wp _ (match ?x with _ => _ end _) _ => fail
  | |- _ => wstep
  end; cbv beta.
Ltac hsteps := repeat hstep.

Section exchange.
Context `{Env} (I : St -> Prop) (c : nat) (r : SEC_OMX_BASECOMPONENT) (s : St).
Context (p0 p1 : SEC_OMX_BASEPORT) (u0 u1 : SEC_OMX_DATABUFFER) (x0 x1 : SEC_OMX_DATA) (cb : nat).
Hypothesis (Hv : valid c s) (Hcb : pCallbacks r = Some cb).
Hypothesis (Hports : pSECPort r = Ptr [p0; p1]) (Hbufs : secDataBuffer r = [u0; u1]).
Hypothesis (Hdata : processData r = [x0; x1]).

(** The component is not paused, or a port is being flushed. *)
Definition no_pause : Prop :=
  currentState r <> OMX_StatePause \/ bIsPortFlushed p0 = true \/ bIsPortFlushed p1 = true.

Lemma pause_wait_skip r' s' Q :
  valid c s' -> currentState r' = currentState r -> (exists p0' p1', pSECPort r' = Ptr [p0'; p1'] /\
    bIsPortFlushed p0' = bIsPortFlushed p0 /\ bIsPortFlushed p1' = bIsPortFlushed p1) -> no_pause ->
  Q tt (set_sec c r' s') -> wp I (pause_wait c (set_sec c r' s')) Q.
Proof.
  intros Hv' Hst (p0' & p1' & Hp' & Hf0 & Hf1) Hno HQ. unfold pause_wait. hsteps. rewrite Hst.
  case_bool_decide as Hb; [|done]. destruct Hno as [?|Hf]; [done|]. hsteps.
  unfold CHECK_PORT_BEING_FLUSHED. rewrite Hf0, Hf1. destruct Hf as [-> | ->]; simpl; [done|].
  by rewrite andb_false_r.
Qed.

(** The buffer the thread holds goes back to the client. *)
Lemma InputBufferReturn_wp b h Q :
  no_pause -> tunnelFlags p0 = 0 -> hMarkTargetComponent (markType p0) = None ->
  db_bufferHeader u0 = Some b -> headers s !! b = Some h -> bh_hMarkTargetComponent h = None ->
  Q OMX_ErrorNone (set_sec c r<|secDataBuffer := [databuffer_reset u0; u1]|>
    s<|headers ::= <[b := h<|nFilledLen := 0|>]>|><|callbacks ::= fun k => k ++ [EmptyBufferDone c b]|>) ->
  wp I (SEC_InputBufferReturn c (set_sec c r s)) Q.
Proof.
  intros Hno Htun Hmark Hb Hh Hhm HQ. unfold SEC_InputBufferReturn. hsteps. rewrite Hb.
  unfold input_mark. hsteps. simpl. rewrite Hmark. hsteps. rewrite Hhm. hsteps.
  destruct (no_tunnel p0 Htun) as [-> _]. hsteps.
  apply pause_wait_skip; [fvalid|done|by exists p0, p1|done|]. hsteps. exact HQ.
Qed.

Definition filled (u : SEC_OMX_DATABUFFER) (h : OMX_BUFFERHEADERTYPE) : OMX_BUFFERHEADERTYPE :=
  h<|nFilledLen := db_remainDataLen u|><|nOffset := 0|><|nFlags := db_nFlags u|><|nTimeStamp := db_timeStamp u|>.
Definition eos_event (u : SEC_OMX_DATABUFFER) : list callback :=
  if has_flag (db_nFlags u) OMX_BUFFERFLAG_EOS
  then [EventBufferFlag c OUTPUT_PORT_INDEX (db_nFlags u)] else [].

Lemma OutputBufferReturn_wp b h Q :
  no_pause -> tunnelFlags p1 = 0 -> hMarkTargetComponent (propagateMarkType r) = None ->
  db_bufferHeader u1 = Some b -> headers s !! b = Some h ->
  Q OMX_ErrorNone (set_sec c r<|secDataBuffer := [u0; databuffer_reset u1]|>
    s<|headers ::= <[b := filled u1 h]>|><|callbacks ::= fun k => k ++ eos_event u1 ++ [FillBufferDone c b]|>) ->
  wp I (SEC_OutputBufferReturn c (set_sec c r s)) Q.
Proof.
  intros Hno Htun Hmark Hb Hh HQ. unfold SEC_OutputBufferReturn. hsteps. rewrite Hb. hsteps.
  unfold output_mark. hsteps. rewrite Hmark. hsteps. unfold eos_event in HQ.
  destruct (has_flag (db_nFlags u1) OMX_BUFFERFLAG_EOS); hsteps;
    destruct (no_tunnel p1 Htun) as [-> _]; hsteps;
    (apply pause_wait_skip; [fvalid|done|by exists p0, p1|done|]); hsteps.
  - match goal with |- Q _ (set_sec c _ ?s1) => match type of HQ with Q _ (set_sec c _ ?s2) =>
      replace s1 with s2; [exact HQ|] end end.
    unfold set_field. simpl. by rewrite <- app_assoc.
  - exact HQ.
Qed.
End exchange.

(** ** Flushing a port of which the thread holds a buffer *)
Lemma foldl_emptied_lookup bs (hs : gmap nat OMX_BUFFERHEADERTYPE) b h :
  hs !! b = Some h -> exists n, foldl emptied hs bs !! b = Some h<|nFilledLen := n|>.
Proof.
  revert hs h. induction bs as [|x bs IH]; intros hs h Hb; simpl.
  { exists (nFilledLen h). rewrite Hb. by destruct h. }
  destruct (decide (b = x)) as [->|Hne].
  - destruct (IH (emptied hs x) h<|nFilledLen := 0|>) as [n Hn]; [|by exists n].
    unfold emptied. by rewrite lookup_alter_eq, Hb.
  - apply IH. unfold emptied. by rewrite lookup_alter_ne.
Qed.

Section flush_held.
Context `{Env} (init : nat -> M St OMX_ERRORTYPE) (terminate : option (nat -> M St OMX_ERRORTYPE)).
Context (I : St -> Prop) (c : nat) (i : Z) (r : SEC_OMX_BASECOMPONENT) (cb : nat).
Context (p : SEC_OMX_BASEPORT) (s : St) (l : list queue_item) (bs : list nat).
Hypothesis (Hv : valid c s) (Hi : has_port i r) (Hcb : pCallbacks r = Some cb).
Hypothesis (Hsem : sem_ok (bufferSemID p)) (Htun : tunnelFlags p = 0).
Hypothesis (Hq : queue_repr (bufferQ p) l) (Hsub : submissions l bs).
Hypothesis (Hhs : Forall (fun b => is_Some (headers s !! b)) bs).

Abbreviation ops := (VideoDec_ops init terminate).

(** The port and the world after the queued buffers were given back. *)
Definition unqueued (p' : SEC_OMX_BASEPORT) : Prop :=
  exists q n, queue_repr q [] /\ p' = p<|bufferSemID := sem_rounds (bufferSemID p) n|><|bufferQ := q|>.
Definition unqueued_world : St :=
  s<|headers ::= fun hs => foldl emptied hs bs|><|callbacks ::= fun k => k ++ (buffer_done c i <$> bs)|>.

Lemma FlushPort_held_wp u d r2 (f : St -> St) Q :
  zlookup (secDataBuffer r) i = Some u -> dataValid u = true -> zlookup (processData r2) i = Some d ->
  (forall s', comps (f s') = comps s') -> has_port i r2 -> pCallbacks r2 = Some cb ->
  (i = INPUT_PORT_INDEX \/ i = OUTPUT_PORT_INDEX) ->
  (forall p', unqueued p' ->
     wp I ((if i =? INPUT_PORT_INDEX then SEC_InputBufferReturn c else SEC_OutputBufferReturn c)
             (at_port c i p' r unqueued_world))
       (fun _ s'' => s'' = at_port c i p' r2 (f unqueued_world))) ->
  (forall q, queue_repr q [] ->
     Q OMX_ErrorNone
       (set_sec c (port_put i p<|bufferSemID := sem_zero (bufferSemID p)|><|bufferQ := q|> r2)
          <|processData ::= zinsert i
             d<|pd_dataLen := 0|><|pd_nFlags := 0|><|pd_remainDataLen := 0|><|pd_timeStamp := 0|>
              <|pd_usedDataLen := 0|>|> (f unqueued_world))) ->
  wp I (SEC_OMX_FlushPort (H0 := ops) c i (at_port c i p r s)) Q.
Proof.
  intros Hu Hval Hd Hf Hi2 Hcb2 Hio Hheld HQ. unfold SEC_OMX_FlushPort. apply wp_bind.
  eapply flush_loop_spec; [done|done| |done..|].
  { apply Nat.lt_succ_r. by destruct Hq as (? & _ & _ & ? & _). }
  intros q n Hq'. fold unqueued_world. set (p' := p<|bufferSemID := _|><|bufferQ := q|>).
  assert (unqueued p') as Hp' by by exists q, n.
  assert (valid c unqueued_world) as Hvw by by apply (valid_other _ s).
  apply wp_bind. unfold flush_held. apply wp_bind. unfold at_port at 1.
  eapply wp_load; [apply _|done| |].
  { unfold cell_get. autorewrite with port. by rewrite Hu. }
  apply wp_bind. fold (at_port c i p' r unqueued_world).
  eapply pwp_load; [apply _|done|done|reflexivity|]. rewrite Hval.
  destruct (no_tunnel p' Htun) as [-> ->]. simpl.
  assert (forall Q' : unit -> St -> Prop, Q' tt (at_port c i p' r2 (f unqueued_world)) ->
    wp I ((if i =? INPUT_PORT_INDEX then SEC_InputBufferReturn c ;;; ret tt
           else if i =? OUTPUT_PORT_INDEX then SEC_OutputBufferReturn c ;;; ret tt else ret tt)
          (at_port c i p' r unqueued_world)) Q') as Hret.
  { intros Q' HQ'. specialize (Hheld p' Hp').
    destruct Hio as [-> | ->]; simpl in *; apply wp_bind; (eapply wp_mono; [|exact Hheld]);
      intros e s'' ->; by apply wp_ret. }
  apply Hret. apply wp_bind.
  eapply (flush_tail_spec I c i r2);
    [done|apply (valid_other _ unqueued_world); [apply Hf|done]|simpl; by apply sem_rounds_ok|done|done|done|].
  intros q2 Hq2. apply wp_ret.
  replace (sem_zero (bufferSemID p')) with (sem_zero (bufferSemID p)); [by apply HQ|].
  unfold p'. simpl. by destruct (bufferSemID p).
Qed.
End flush_held.

(** The buffer of port [i] that the thread holds, when it goes back. *)
Definition held_header (i : Z) (u : SEC_OMX_DATABUFFER) (h : OMX_BUFFERHEADERTYPE) : OMX_BUFFERHEADERTYPE :=
  if i =? OUTPUT_PORT_INDEX then filled u h else h<|nFilledLen := 0|>.
Definition held_done (c : nat) (i : Z) (u : SEC_OMX_DATABUFFER) (b : nat) : list callback :=
  if i =? OUTPUT_PORT_INDEX then eos_event c u ++ [FillBufferDone c b] else [EmptyBufferDone c b].
Definition give_back (c : nat) (i : Z) (u : SEC_OMX_DATABUFFER) (b : nat) (h : OMX_BUFFERHEADERTYPE) (s : St) : St :=
  s<|headers ::= <[b := held_header i u h]>|><|callbacks ::= fun k => k ++ held_done c i u b|>.

(** A component whose ports and buffers are [ps], [us], and no mark is on its way. *)
Definition unmarked (r : SEC_OMX_BASECOMPONENT) (p0 p1 : SEC_OMX_BASEPORT) : Prop :=
  pSECPort r = Ptr [p0; p1] /\ hMarkTargetComponent (markType p0) = None /\
  hMarkTargetComponent (propagateMarkType r) = None.

Section flush_claim.
Context `{Env} (init : nat -> M St OMX_ERRORTYPE) (terminate : option (nat -> M St OMX_ERRORTYPE)).

Lemma input_held_wp I c r p0 p1 u0 u1 cb p' w b h n :
  valid c w -> pCallbacks r = Some cb -> unmarked r p0 p1 -> secDataBuffer r = [u0; u1] ->
  no_pause r p0 p1 -> db_bufferHeader u0 = Some b ->
  headers w !! b = Some h<|nFilledLen := n|> -> bh_hMarkTargetComponent h = None ->
  tunnelFlags p' = 0 -> markType p' = markType p0 -> bIsPortFlushed p' = bIsPortFlushed p0 ->
  wp I (SEC_InputBufferReturn c (at_port c 0 p' r w))
    (fun _ s'' => s'' = at_port c 0 p' r<|secDataBuffer := [databuffer_reset u0; u1]|> (give_back c 0 u0 b h w)).
Proof.
  intros Hv Hcb (Hports & Hm & Hpm) Hbufs Hno Hb Hh Hmark Htun Hmt Hfl.
  unfold at_port. assert (port_put 0 p' r = r<|pSECPort := Ptr [p'; p1]|>) as Hput.
  { unfold port_put. by rewrite Hports. }
  rewrite Hput. eapply (InputBufferReturn_wp I c _ _ p' p1 u0 u1 cb);
    [done|done|done|done| |done|by rewrite Hmt|done|done|done|].
  - unfold no_pause in *. simpl. by rewrite Hfl.
  - unfold port_put. simpl. rewrite Hports. by destruct h.
Qed.

Lemma output_held_wp I c r p0 p1 u0 u1 cb p' w b h n :
  valid c w -> pCallbacks r = Some cb -> unmarked r p0 p1 -> secDataBuffer r = [u0; u1] ->
  no_pause r p0 p1 -> db_bufferHeader u1 = Some b ->
  headers w !! b = Some h<|nFilledLen := n|> -> tunnelFlags p' = 0 -> bIsPortFlushed p' = bIsPortFlushed p1 ->
  wp I (SEC_OutputBufferReturn c (at_port c 1 p' r w))
    (fun _ s'' => s'' = at_port c 1 p' r<|secDataBuffer := [u0; databuffer_reset u1]|> (give_back c 1 u1 b h w)).
Proof.
  intros Hv Hcb (Hports & Hm & Hpm) Hbufs Hno Hb Hh Htun Hfl.
  unfold at_port. assert (port_put 1 p' r = r<|pSECPort := Ptr [p0; p']|>) as Hput.
  { unfold port_put. by rewrite Hports. }
  rewrite Hput. eapply (OutputBufferReturn_wp I c _ _ p0 p' u0 u1 cb);
    [done|done|done|done| |done|done|done|done|].
  - unfold no_pause in *. simpl. by rewrite Hfl.
  - unfold port_put. simpl. rewrite Hports. by destruct h.
Qed.

(** C10: flushing a port of the decoder returns every buffer of it exactly once: first
    the queued ones in the order of submission, then the one the processing thread is
    working on.  Afterwards the queue and the semaphore are empty and the thread
    holds nothing of the port.  This is [SEC_OMX_FlushPort] with the functions that
    the decoder installs. *)
Theorem decoder_flush_returns_all c i s r p0 p1 u0 u1 x0 x1 cb p u l bs b h :
  i = INPUT_PORT_INDEX \/ i = OUTPUT_PORT_INDEX ->
  look (pSECComponent c) s = inr r -> pCallbacks r = Some cb -> unmarked r p0 p1 ->
  secDataBuffer r = [u0; u1] -> processData r = [x0; x1] -> no_pause r p0 p1 ->
  port_get i r = inr p -> sem_ok (bufferSemID p) -> tunnelFlags p = 0 ->
  queue_repr (bufferQ p) l -> submissions l bs -> Forall (fun b => is_Some (headers s !! b)) bs ->
  zlookup (secDataBuffer r) i = Some u -> dataValid u = true -> db_bufferHeader u = Some b ->
  headers s !! b = Some h -> bh_hMarkTargetComponent h = None ->
  exists s' r' p', SEC_OMX_FlushPort (H0 := VideoDec_ops init terminate) c i s = Done OMX_ErrorNone s' /\
    look (pSECComponent c) s' = inr r' /\ port_get i r' = inr p' /\
    queue_repr (bufferQ p') [] /\ bufferSemID p' = sem_zero (bufferSemID p) /\
    zlookup (secDataBuffer r') i = Some (databuffer_reset u) /\
    callbacks s' = callbacks s ++ (buffer_done c i <$> bs) ++ held_done c i u b /\
    headers s' = <[b := held_header i u h]> (foldl emptied (headers s) bs).
Proof.
  intros Hio Hl Hcb Hun Hbufs Hdata Hno Hp Hsem Htun Hq Hsub Hhs Hu Hval Hb Hh Hmark.
  pose proof (look_valid _ _ _ Hl) as Hv. assert (has_port i r) as Hi by by exists p.
  destruct (foldl_emptied_lookup bs (headers s) b h Hh) as [n Hn].
  set (r2 := r<|secDataBuffer := zinsert i (databuffer_reset u) (secDataBuffer r)|>).
  assert (exists d, zlookup (processData r) i = Some d) as [d Hd].
  { rewrite Hdata. destruct Hio as [-> | ->]; by eexists. }
  assert (wp (fun _ => False) (SEC_OMX_FlushPort (H0 := VideoDec_ops init terminate) c i (at_port c i p r s))
    (fun e s' => e = OMX_ErrorNone /\ exists q, queue_repr q [] /\
       s' = set_sec c (port_put i p<|bufferSemID := sem_zero (bufferSemID p)|><|bufferQ := q|> r2)
              <|processData ::= zinsert i
                 d<|pd_dataLen := 0|><|pd_nFlags := 0|><|pd_remainDataLen := 0|><|pd_timeStamp := 0|>
                  <|pd_usedDataLen := 0|>|> (give_back c i u b h (unqueued_world c i s bs)))) as Hwp.
  { eapply (FlushPort_held_wp init terminate _ c i r cb p s l bs) with (r2 := r2) (f := give_back c i u b h); try done.
    - intros p' (q & m & Hq' & ->). subst r2. unfold port_get in Hp. destruct Hun as (Hports & Hun').
      rewrite Hports, Hbufs in *. destruct Hio as [-> | ->]; cbn in Hu, Hp; injection Hu as <-; injection Hp as <-.
      + by eapply (input_held_wp _ c r p0 p1).
      + by eapply (output_held_wp _ c r p0 p1).
    - intros q Hq'. split; [done|]. by exists q. }
  rewrite (at_port_id c i p r s) in Hwp by done.
  destruct (wp_result _ _ Hwp) as (e & s' & Hrun & -> & q & Hq' & ->).
  eexists _, _, _. split; [exact Hrun|]. split; [apply look_sec; unfold give_back, unqueued_world; fvalid|].
  split; [exact (port_get_put i _ r2 Hi)|]. split; [done|]. split; [done|].
  rewrite callbacks_set_sec, headers_set_sec. simpl. autorewrite with port. simpl.
  rewrite zlookup_zinsert by (by eapply zlookup_Some_range). rewrite decide_True by done.
  rewrite <- app_assoc. done.
Qed.
End flush_claim.

(** ** Collecting the input of a frame *)

(** What [settle_frame] makes of the collected data. *)
Definition settle_data (r : SEC_OMX_BASECOMPONENT) (previousFrameEOF wholeBuffer flagEOF : bool)
    (u : SEC_OMX_DATABUFFER) (x : SEC_OMX_DATA) : SEC_OMX_DATA * bool * bool :=
  let x := if previousFrameEOF then x<|pd_timeStamp := db_timeStamp u|><|pd_nFlags := db_nFlags u|> else x in
  let '(flags, eof, save) :=
    eos_flags (bUseFlagEOF r) (bSaveFlagEOS r) (db_nFlags u) (pd_nFlags x) (pd_dataLen x) wholeBuffer flagEOF in
  let x' := x<|pd_nFlags := flags|> in
  ((if (has_flag flags OMX_BUFFERFLAG_EOS && (pd_dataLen x <=? 0) && eof)%bool
    then x'<|pd_dataLen := pd_previousDataLen x|><|pd_remainDataLen := pd_previousDataLen x|> else x'),
   eof, save).

Definition consumed (n : Z) (u : SEC_OMX_DATABUFFER) : SEC_OMX_DATABUFFER :=
  u<|db_dataLen := u32 (db_dataLen u - n)|><|db_remainDataLen := u32 (db_remainDataLen u - n)|>
   <|db_usedDataLen := u32 (db_usedDataLen u + n)|>.
Definition extended (n : Z) (x : SEC_OMX_DATA) : SEC_OMX_DATA :=
  x<|pd_dataLen := u32 (pd_dataLen x + n)|><|pd_remainDataLen := u32 (pd_remainDataLen x + n)|>.

(** The memory after [n] bytes from the offset [soff] of the block [src] were written
    to the offset [doff] of the block [dest]. *)
Definition copied (dest doff : Z) (d src : block) (soff n : Z) (s : St) : St :=
  if 0 <? n
  then s<|memory ::= <[dest := take (Z.to_nat doff) d ++ take (Z.to_nat n) (drop (Z.to_nat soff) src) ++
                               drop (Z.to_nat (doff + n)) d]>|>
  else s.

Section collect.
Context `{Env} (I : St -> Prop) (c : nat) (r : SEC_OMX_BASECOMPONENT) (s : St).
Context (u0 u1 : SEC_OMX_DATABUFFER) (x0 x1 : SEC_OMX_DATA).
Hypothesis (Hv : valid c s) (Hbufs : secDataBuffer r = [u0; u1]) (Hdata : processData r = [x0; x1]).

Lemma settle_frame_wp prev whole eof Q :
  (forall x' eof' save', settle_data r prev whole eof u0 x0 = (x', eof', save') ->
     Q eof' (set_sec c r<|processData := [x'; x1]|><|bSaveFlagEOS := save'|> s)) ->
  wp I (settle_frame c prev whole eof (set_sec c r s)) Q.
Proof.
  intros HQ. unfold settle_frame. unfold settle_data in HQ. hsteps.
  destruct prev; hsteps; simpl in *;
    destruct (eos_flags _ _ _ _ _ _ _) as [[flags eof'] save]; hsteps; simpl in *;
    destruct (_ && _ && _)%bool; hsteps; by apply (HQ _ eof' save).
Qed.

Lemma take_input_wp a n d sb Q :
  0 <= n < 2 ^ 31 -> pd_dataBuffer x0 <> a -> memory s !! pd_dataBuffer x0 = Some d -> memory s !! a = Some sb ->
  0 <= db_usedDataLen u0 -> db_usedDataLen u0 + n <= zlength sb ->
  0 <= pd_dataLen x0 -> pd_dataLen x0 + n <= zlength d ->
  Q tt (set_sec c r<|secDataBuffer := [consumed n u0; u1]|><|processData := [extended n x0; x1]|>
          (copied (pd_dataBuffer x0) (pd_dataLen x0) d sb (db_usedDataLen u0) n s)) ->
  wp I (take_input c a n u0 x0 (set_sec c r s)) Q.
Proof.
  intros Hn Hne Hd Hs ???? HQ. unfold take_input. apply wp_bind. unfold copied in HQ.
  destruct (Z.ltb_spec 0 n).
  - eapply wp_Memcpy; [lia|by left|done|done|lia|lia|lia|lia|]. hsteps. exact HQ.
  - hsteps. exact HQ.
Qed.
End collect.

(** A frame is being collected: the buffer of the client with what is left of it, and
    the memory of the codec with room after what it has. *)
Record collecting (s : St) (u : SEC_OMX_DATABUFFER) (x : SEC_OMX_DATA) (b : nat)
    (h : OMX_BUFFERHEADERTYPE) (sb d : block) : Prop := {
  co_valid : dataValid u = true;
  co_held : db_bufferHeader u = Some b;
  co_header : headers s !! b = Some h;
  co_unmarked : bh_hMarkTargetComponent h = None;
  co_src : memory s !! pBuffer h = Some sb;
  co_dest : memory s !! pd_dataBuffer x = Some d;
  co_apart : pBuffer h <> pd_dataBuffer x;
  co_rest : 0 <= db_usedDataLen u /\ 0 <= db_remainDataLen u /\
            db_usedDataLen u + db_remainDataLen u <= zlength sb < 2 ^ 31;
  co_room : 0 <= pd_dataLen x /\ pd_dataLen x <= pd_allocSize x /\ pd_allocSize x <= zlength d < 2 ^ 31
}.

Section preprocess.
Context `{Env} `{C : FrameChecker}.

(** How much of the buffer is taken, and whether it ends the frame. *)
Definition checked (r : SEC_OMX_BASECOMPONENT) (u : SEC_OMX_DATABUFFER) (x : SEC_OMX_DATA) (sb : block)
  : verdict :=
  if bUseFlagEOF r then inr (db_remainDataLen u, true)
  else
    try v := sec_checkInputFrame (drop (Z.to_nat (db_usedDataLen u)) sb) (db_remainDataLen u) (db_nFlags u)
               (pd_dataLen x =? 0) in
    inr (u32 v.1, v.2).
Definition copy_size (u : SEC_OMX_DATABUFFER) (v : Z * bool) : Z :=
  if v.2 then v.1 else db_remainDataLen u.

Section run.
Context (I : St -> Prop) (c : nat) (r : SEC_OMX_BASECOMPONENT) (s : St).
Context (p0 p1 : SEC_OMX_BASEPORT) (u0 u1 : SEC_OMX_DATABUFFER) (x0 x1 : SEC_OMX_DATA) (cb : nat).
Context (b : nat) (h : OMX_BUFFERHEADERTYPE) (sb d : block).
Hypothesis (Hv : valid c s) (Hcb : pCallbacks r = Some cb) (Hun : unmarked r p0 p1).
Hypothesis (Hbufs : secDataBuffer r = [u0; u1]) (Hdata : processData r = [x0; x1]).
Hypothesis (Hno : no_pause r p0 p1) (Htun : tunnelFlags p0 = 0).
Hypothesis (Hco : collecting s u0 x0 b h sb d).
Context (v : Z * bool).
Hypothesis (Hcheck : checked r u0 x0 sb = inr v).

Lemma check_wp Q :
  Q v (set_sec c r s) ->
  wp I ((if bUseFlagEOF r then ret (db_remainDataLen u0, true)
         else check_input (drop (Z.to_nat (db_usedDataLen u0)) sb) (db_remainDataLen u0) (db_nFlags u0)
                (pd_dataLen x0 =? 0)) (set_sec c r s)) Q.
Proof.
  intros HQ. unfold checked in Hcheck. unfold check_input. destruct (bUseFlagEOF r).
  - injection Hcheck as <-. by apply wp_ret.
  - destruct (sec_checkInputFrame _ _ _ _) as [e|[n eof]]; [done|]. injection Hcheck as <-. by apply wp_ret.
Qed.

(** The component with [bSaveFlagEOS] noted. *)
Definition saved_eos : SEC_OMX_BASECOMPONENT :=
  if has_flag (db_nFlags u0) OMX_BUFFERFLAG_EOS then r<|bSaveFlagEOS := true|> else r.

(** The frame takes [n] bytes; the buffer goes back when it is used up. *)
Definition collected (n : Z) (x' : SEC_OMX_DATA) (save : bool) (s' : St) : Prop :=
  let w := copied (pd_dataBuffer x0) (pd_dataLen x0) d sb (db_usedDataLen u0) n s in
  if db_remainDataLen u0 =? n
  then s' = set_sec c r<|secDataBuffer := [databuffer_reset (consumed n u0); u1]|><|processData := [x'; x1]|>
              <|bSaveFlagEOS := save|>
            w<|headers ::= <[b := h<|nFilledLen := 0|>]>|><|callbacks ::= fun k => k ++ [EmptyBufferDone c b]|>
  else s' = set_sec c r<|secDataBuffer := [(consumed n u0)<|dataValid := true|>; u1]|><|processData := [x'; x1]|>
              <|bSaveFlagEOS := save|> w.

Lemma preprocess_fits Q :
  0 <= copy_size u0 v <= db_remainDataLen u0 ->
  copy_size u0 v <= pd_allocSize x0 - pd_dataLen x0 ->
  (forall eof x' eof' save s',
     settle_data saved_eos (pd_dataLen x0 =? 0) (v.1 =? db_remainDataLen u0) eof
       (consumed (copy_size u0 v) u0) (extended (copy_size u0 v) x0) = (x', eof', save) ->
     eof = v.2 -> collected (copy_size u0 v) x' save s' -> Q eof' s') ->
  wp I (preprocess_buffer c u0 (set_sec c r s)) Q.
Proof.
  destruct Hco as [Hval Hheld Hhdr Hmark Hsrc Hdest Hne Hrest Hroom]. destruct Hun as (Hports & Hmk & _).
  intros Hn Hfits HQ. unfold preprocess_buffer. rewrite Hheld. hsteps. rewrite Hsrc. simpl.
  apply check_wp. unfold copy_size in *. destruct v as [m eof]. cbn [fst snd] in *. set (n := if eof then m else db_remainDataLen u0) in *.
  assert (wp I ((if has_flag (db_nFlags u0) OMX_BUFFERFLAG_EOS
                 then store (pSECComponent c)↘bSaveFlagEOS true else ret tt) (set_sec c r s))
            (fun _ s' => s' = set_sec c saved_eos s)) as Hsave.
  { unfold saved_eos. destruct (has_flag _ _); hsteps; done. }
  apply wp_bind. eapply wp_mono; [|exact Hsave]. intros [] s1 ->. apply wp_bind.
  rewrite u32_id by (unfold is_u32; lia). rewrite (proj2 (Z.leb_le _ _)) by lia. apply wp_bind.
  assert (secDataBuffer saved_eos = [u0; u1] /\ processData saved_eos = [x0; x1] /\
    pSECPort saved_eos = Ptr [p0; p1]) as (Hb1 & Hd1 & Hp1).
  { unfold saved_eos. by destruct (has_flag _ _). }
  eapply (take_input_wp I c saved_eos s u0 u1 x0 x1); [done..|lia|by apply not_eq_sym|done|done|lia|lia|lia|lia|].
  set (w := copied _ _ _ _ _ _ _) in *.
  assert (valid c w /\ headers w !! b = Some h) as [Hvw Hhw].
  { unfold w, copied. destruct (0 <? n); [split; [fvalid|done]|done]. }
  set (r1 := saved_eos<|secDataBuffer := _|><|processData := _|>).
  eapply (settle_frame_wp I c r1 w (consumed n u0) u1 (extended n x0) x1); [done..|].
  intros x' eof' save Hset. specialize (HQ eof x' eof' save). unfold collected in HQ. cbn [fst snd] in HQ.
  fold w in HQ. set (r2 := r1<|processData := _|><|bSaveFlagEOS := save|>).
  assert (pSECPort r2 = Ptr [p0; p1] /\ currentState r2 = currentState r /\ pCallbacks r2 = pCallbacks r)
    as (Hp2 & Hst2 & Hcb2).
  { unfold r2, r1, saved_eos. by destruct (has_flag _ _). }
  hsteps. simpl. rewrite u32_id by (unfold is_u32; lia).
  destruct (Z.eqb_spec (db_remainDataLen u0) n) as [Heq|Hneq].
  - rewrite (proj2 (Z.eqb_eq _ _)) by lia. hsteps.
    eapply (InputBufferReturn_wp I c r2 w p0 p1 (consumed n u0) u1 cb);
      [done|by rewrite Hcb2|done|done| |done|done|done|done|done|].
    + unfold no_pause in *. by rewrite Hst2.
    + hsteps. apply HQ; [done|done|]. unfold r2, r1, saved_eos. by destruct (has_flag _ _).
  - rewrite (proj2 (Z.eqb_neq _ _)) by lia. hsteps. apply HQ; [done|done|].
    unfold r2, r1, saved_eos. by destruct (has_flag _ _).
Qed.

(** A piece that does not fit: the frame is given up and the buffer stays as it is. *)
Lemma preprocess_too_large Q :
  0 <= copy_size u0 v <= db_remainDataLen u0 ->
  pd_allocSize x0 - pd_dataLen x0 < copy_size u0 v ->
  Q false (set_sec c saved_eos<|processData := [data_reset x0; x1]|>
             <|secDataBuffer := [u0<|dataValid := true|>; u1]|> s) ->
  wp I (preprocess_buffer c u0 (set_sec c r s)) Q.
Proof.
  destruct Hco as [Hval Hheld Hhdr Hmark Hsrc Hdest Hne Hrest Hroom]. destruct Hun as (Hports & _).
  intros Hn Hbig HQ. unfold preprocess_buffer. rewrite Hheld. hsteps. rewrite Hsrc. simpl.
  apply check_wp. unfold copy_size in *. destruct v as [m eof]. cbn [fst snd] in *. set (n := if eof then m else db_remainDataLen u0) in *.
  rewrite u32_id by (unfold is_u32; lia). rewrite (proj2 (Z.leb_gt _ _)) by lia.
  unfold saved_eos in HQ. unfold SEC_DataReset.
  destruct (has_flag (db_nFlags u0) OMX_BUFFERFLAG_EOS); hsteps;
    rewrite (proj2 (Z.eqb_neq _ _)) by (simpl; lia); hsteps; exact HQ.
Qed.

(** The last part of [SEC_Preprocessor_InputData]. *)
Definition started (eof : bool) (r' : SEC_OMX_BASECOMPONENT) (x : SEC_OMX_DATA) : SEC_OMX_BASECOMPONENT :=
  if eof then r'<|checkTimeStamp ::= fun t =>
    if needSetStartTimeStamp t then mkTimeStamp false true (pd_timeStamp x) (pd_nFlags x) else t|>
  else r'.

Lemma Preprocessor_wp Q :
  wp I (preprocess_buffer c u0 (set_sec c r s)) (fun eof s' => exists r' x' x1' w,
    s' = set_sec c r' w /\ valid c w /\ processData r' = [x'; x1'] /\ Q eof (set_sec c (started eof r' x') w)) ->
  wp I (SEC_Preprocessor_InputData c (set_sec c r s)) Q.
Proof.
  intros HQ. unfold SEC_Preprocessor_InputData. hsteps. rewrite (co_valid _ _ _ _ _ _ _ Hco).
  eapply wp_mono; [|exact HQ]. intros eof s' (r' & x' & x1' & w & -> & Hvw & Hd' & HQ').
  destruct eof; [|exact HQ']. unfold note_start. hsteps. exact HQ'.
Qed.
End run.

(** The bytes collected for the frame, and what is left of the client's buffer. *)
Definition frame_of (s : St) (x : SEC_OMX_DATA) : block :=
  take (Z.to_nat (pd_dataLen x)) (default [] (memory s !! pd_dataBuffer x)).
Definition rest_of (s : St) (u : SEC_OMX_DATABUFFER) (h : OMX_BUFFERHEADERTYPE) : block :=
  take (Z.to_nat (db_remainDataLen u)) (drop (Z.to_nat (db_usedDataLen u)) (default [] (memory s !! pBuffer h))).

Lemma frame_of_copied s u x b h sb d n x' :
  collecting s u x b h sb d -> 0 <= n <= db_remainDataLen u -> n <= pd_allocSize x - pd_dataLen x ->
  pd_dataLen x' = pd_dataLen x + n -> pd_dataBuffer x' = pd_dataBuffer x ->
  frame_of (copied (pd_dataBuffer x) (pd_dataLen x) d sb (db_usedDataLen u) n s) x' =
  frame_of s x ++ take (Z.to_nat n) (rest_of s u h).
Proof.
  intros [_ _ _ _ Hsrc Hdest Hne Hrest Hroom] Hn Hfits Hlen Hbuf. unfold frame_of, rest_of, zlength in *.
  rewrite Hlen, Hbuf, Hsrc, Hdest. simpl. rewrite take_take, Nat.min_l by lia.
  unfold copied. destruct (Z.ltb_spec 0 n).
  - simpl. rewrite lookup_insert_eq. simpl. rewrite Z2Nat.inj_add by lia.
    rewrite take_app_ge by (rewrite length_take; lia). f_equal. rewrite length_take.
    rewrite take_app_le by (rewrite length_take, length_drop; lia). rewrite take_take. f_equal. lia.
  - rewrite Hdest. simpl. replace n with 0 by lia. by rewrite Z.add_0_r, take_0, app_nil_r.
Qed.

Lemma rest_of_copied s u x b h sb d n u' :
  collecting s u x b h sb d -> 0 <= n <= db_remainDataLen u ->
  db_usedDataLen u' = db_usedDataLen u + n -> db_remainDataLen u' = db_remainDataLen u - n ->
  rest_of (copied (pd_dataBuffer x) (pd_dataLen x) d sb (db_usedDataLen u) n s) u' h =
  drop (Z.to_nat n) (rest_of s u h).
Proof.
  intros [_ _ _ _ Hsrc Hdest Hne Hrest Hroom] Hn Hused Hremain. unfold rest_of.
  replace (memory (copied _ _ _ _ _ _ _) !! pBuffer h) with (memory s !! pBuffer h).
  - rewrite Hused, Hremain, Hsrc. simpl. rewrite Z2Nat.inj_add, Z2Nat.inj_sub by lia.
    rewrite <- drop_drop, take_drop_commute. do 2 f_equal. lia.
  - unfold copied. destruct (0 <? n); [|done]. simpl. by rewrite lookup_insert_ne.
Qed.

Lemma settle_data_frame r prev whole eof u x x' eof' save :
  settle_data r prev whole eof u x = (x', eof', save) -> 0 < pd_dataLen x ->
  pd_dataLen x' = pd_dataLen x /\ pd_dataBuffer x' = pd_dataBuffer x /\ (eof = true -> eof' = true).
Proof.
  unfold settle_data, eos_flags. intros Hs Hx.
  assert ((pd_dataLen x <=? 0) = false) as Hle by (apply Z.leb_gt; lia).
  destruct prev, (bUseFlagEOF r), (bSaveFlagEOS r), whole; simpl in Hs; rewrite ?Hle, ?andb_false_r in Hs;
    repeat (case_match; simpl in Hs; rewrite ?Hle, ?andb_false_r in Hs); by simplify_eq.
Qed.

(** What one call takes: [n] bytes, after which the frame is [eof]. *)
Definition takes (c : nat) (s s' : St) (r : SEC_OMX_BASECOMPONENT) (u0 u1 : SEC_OMX_DATABUFFER)
    (x0 x1 : SEC_OMX_DATA) (b : nat) (h : OMX_BUFFERHEADERTYPE) (n : Z) : Prop :=
  exists r' u' x', look (pSECComponent c) s' = inr r' /\ secDataBuffer r' = [u'; u1] /\
    processData r' = [x'; x1] /\
    frame_of s' x' = frame_of s x0 ++ take (Z.to_nat n) (rest_of s u0 h) /\
    if db_remainDataLen u0 =? n
    then dataValid u' = false /\ db_bufferHeader u' = None /\
         callbacks s' = callbacks s ++ [EmptyBufferDone c b] /\
         headers s' = <[b := h<|nFilledLen := 0|>]> (headers s)
    else dataValid u' = true /\ db_bufferHeader u' = Some b /\ callbacks s' = callbacks s /\
         headers s' = headers s /\ rest_of s' u' h = drop (Z.to_nat n) (rest_of s u0 h).

Lemma collected_takes c s r p0 p1 u0 u1 x0 x1 b h sb d n x' save s' eof :
  valid c s -> unmarked r p0 p1 -> collecting s u0 x0 b h sb d ->
  0 <= n <= db_remainDataLen u0 -> n <= pd_allocSize x0 - pd_dataLen x0 ->
  pd_dataLen x' = pd_dataLen x0 + n -> pd_dataBuffer x' = pd_dataBuffer x0 ->
  collected c r s u0 u1 x0 x1 b h sb d n x' save s' ->
  exists r' w, s' = set_sec c r' w /\ valid c w /\ processData r' = [x'; x1] /\
    takes c s (set_sec c (started eof r' x') w) r u0 u1 x0 x1 b h n.
Proof.
  intros Hv Hun Hco Hn Hfits Hlen Hbuf Hcol.
  pose proof (co_rest _ _ _ _ _ _ _ Hco) as Hrest.
  pose proof (frame_of_copied _ _ _ _ _ _ _ n x' Hco Hn Hfits Hlen Hbuf) as Hframe.
  unfold collected in Hcol. set (w := copied _ _ _ _ _ _ _) in *.
  assert (valid c w /\ headers w = headers s /\ callbacks w = callbacks s) as (Hvw & Hhw & Hcw).
  { unfold w, copied. destruct (0 <? n); [split; [fvalid|done]|done]. }
  destruct (db_remainDataLen u0 =? n) eqn:Heq; subst s'; eexists _, _; (split; [reflexivity|]);
    (split; [fvalid|]); (split; [done|]); unfold takes; rewrite Heq;
    eexists _, _, _; (split; [apply look_sec; fvalid|]);
    unfold started, frame_of; rewrite memory_set_sec, callbacks_set_sec, headers_set_sec; simpl; rewrite Hhw, Hcw.
  - by destruct eof.
  - assert (rest_of w (consumed n u0) h = drop (Z.to_nat n) (rest_of s u0 h)) as Hr.
    { eapply rest_of_copied; [done|done|..]; simpl; apply u32_id; unfold is_u32; lia. }
    destruct eof; (split; [done|]); (split; [done|]); (split; [done|]);
      (split_and!; [done|apply Hco|done|done|]); unfold rest_of; by rewrite memory_set_sec.
Qed.

(** The laws of the interface bound what is taken. *)
Lemma check_granted `{!FrameCheckerLaws C} r u x sb bs more rest :
  0 <= db_remainDataLen u < 2 ^ 31 - 1 ->
  drop (Z.to_nat (db_usedDataLen u)) sb = (Some <$> bs ++ more) ++ rest -> zlength bs = db_remainDataLen u ->
  Forall is_byte (bs ++ more) -> length more = lookahead ->
  exists v, checked r u x sb = inr v /\ 0 <= copy_size u v <= db_remainDataLen u.
Proof.
  intros Hrem Hsb Hlen Hbytes Hmore. unfold checked. destruct (bUseFlagEOF r).
  { eexists. split; [done|]. unfold copy_size. simpl. lia. }
  rewrite Hsb, <- Hlen.
  destruct (check_in_range bs more rest (db_nFlags u) (pd_dataLen x =? 0)) as (n & eof & -> & Hn); [done|lia|done|].
  eexists. split; [done|]. unfold copy_size. simpl. destruct eof; [|lia]. specialize (Hn eq_refl).
  rewrite u32_id; [lia|]. unfold is_u32. lia.
Qed.

(** C8: the thread collects a frame from the client's buffers: with a frame checker that
    obeys its laws, and room for the rest of the buffer, a call takes the piece that the
    checker found.  Afterwards the codec's memory holds what it had followed by exactly
    the next bytes of the stream, what is left of the buffer are the bytes after them,
    and the buffer goes back to the client, once, when nothing is left of it; otherwise
    it stays for the next call.  A piece with the end of the frame completes the frame. *)
Theorem Preprocessor_collects `{!FrameCheckerLaws C} c s r p0 p1 u0 u1 x0 x1 cb b h sb d bs more rest :
  look (pSECComponent c) s = inr r -> pCallbacks r = Some cb -> unmarked r p0 p1 ->
  secDataBuffer r = [u0; u1] -> processData r = [x0; x1] -> no_pause r p0 p1 -> tunnelFlags p0 = 0 ->
  collecting s u0 x0 b h sb d ->
  drop (Z.to_nat (db_usedDataLen u0)) sb = (Some <$> bs ++ more) ++ rest -> zlength bs = db_remainDataLen u0 ->
  zlength bs < 2 ^ 31 - 1 -> Forall is_byte (bs ++ more) -> length more = lookahead ->
  db_remainDataLen u0 <= pd_allocSize x0 - pd_dataLen x0 ->
  exists v, checked r u0 x0 sb = inr v /\
    (0 < pd_dataLen x0 + copy_size u0 v ->
     exists eof s', SEC_Preprocessor_InputData c s = Done eof s' /\ (v.2 = true -> eof = true) /\
       takes c s s' r u0 u1 x0 x1 b h (copy_size u0 v)).
Proof.
  intros Hl Hcb Hun Hbufs Hdata Hno Htun Hco Hsb Hlen Hmax Hbytes Hmore Hroom.
  pose proof (look_valid _ _ _ Hl) as Hv.
  pose proof (co_rest _ _ _ _ _ _ _ Hco) as Hrest. pose proof (co_room _ _ _ _ _ _ _ Hco) as Halloc.
  destruct (check_granted r u0 x0 sb bs more rest) as (v & Hcheck & Hn); [lia|done..|].
  exists v. split; [done|]. intros Hpos.
  enough (wp (fun _ => False) (SEC_Preprocessor_InputData c (set_sec c r s)) (fun eof s' =>
    (v.2 = true -> eof = true) /\ takes c s s' r u0 u1 x0 x1 b h (copy_size u0 v))) as Hwp.
  { rewrite set_sec_id in Hwp by done. apply wp_result in Hwp as (eof & s' & Hrun & ?). by exists eof, s'. }
  eapply Preprocessor_wp; [done..|].
  eapply (preprocess_fits _ c r s p0 p1 u0 u1 x0 x1 cb b h sb d); [done..|lia|].
  intros eof x' eof' save s' Hset -> Hcol.
  apply settle_data_frame in Hset as (Hlen' & Hbuf & Heof); [|simpl; rewrite u32_id by (unfold is_u32; lia); lia].
  simpl in Hlen', Hbuf. rewrite u32_id in Hlen' by (unfold is_u32; lia).
  destruct (collected_takes c s r p0 p1 u0 u1 x0 x1 b h sb d (copy_size u0 v) x' save s' eof')
    as (r' & w & -> & Hvw & Hd & Htakes); try done; [lia|].
  exists r', x', x1, w. done.
Qed.

(** A piece that does not fit: the frame is given up, nothing is returned to the
    client and the buffer stays as it is, to be taken again by the next call. *)
Theorem Preprocessor_too_large c s r p0 p1 u0 u1 x0 x1 cb b h sb d v :
  look (pSECComponent c) s = inr r -> pCallbacks r = Some cb -> unmarked r p0 p1 ->
  secDataBuffer r = [u0; u1] -> processData r = [x0; x1] -> no_pause r p0 p1 -> tunnelFlags p0 = 0 ->
  collecting s u0 x0 b h sb d -> checked r u0 x0 sb = inr v ->
  0 <= copy_size u0 v <= db_remainDataLen u0 ->
  pd_allocSize x0 - pd_dataLen x0 < copy_size u0 v ->
  SEC_Preprocessor_InputData c s =
    Done false (set_sec c (saved_eos r u0)<|processData := [data_reset x0; x1]|> s).
Proof.
  intros Hl Hcb Hun Hbufs Hdata Hno Htun Hco Hcheck Hn Hbig.
  pose proof (look_valid _ _ _ Hl) as Hv.
  enough (wp (fun _ => False) (SEC_Preprocessor_InputData c (set_sec c r s)) (fun eof s' =>
    eof = false /\ s' = set_sec c (saved_eos r u0)<|processData := [data_reset x0; x1]|> s)) as Hwp.
  { rewrite set_sec_id in Hwp by done. by apply wp_result in Hwp as (eof & s' & -> & -> & ->). }
  eapply Preprocessor_wp; [done..|].
  eapply (preprocess_too_large _ c r s p0 p1 u0 u1 x0 x1 b h sb d); [done..|].
  assert (u0<|dataValid := true|> = u0) as ->.
  { pose proof (co_valid _ _ _ _ _ _ _ Hco) as Hval. destruct u0. simpl in *. by subst. }
  eexists _, _, _, _. split; [reflexivity|]. split; [done|]. split; [reflexivity|].
  unfold started, saved_eos. by destruct (has_flag _ _), r; simpl in *; subst.
Qed.
End preprocess.

(** ** Delivering the output of the codec *)

(** The output buffer with the decoded data. *)
Definition delivered (u : SEC_OMX_DATABUFFER) (x : SEC_OMX_DATA) : SEC_OMX_DATABUFFER :=
  u<|db_dataLen := pd_remainDataLen x|><|db_remainDataLen := pd_remainDataLen x|>
   <|db_nFlags := pd_nFlags x|><|db_timeStamp := pd_timeStamp x|>.

Section postprocess.
Context `{Env} (c : nat) (s : St) (r : SEC_OMX_BASECOMPONENT).
Context (p0 p1 : SEC_OMX_BASEPORT) (u0 u1 : SEC_OMX_DATABUFFER) (x0 x1 : SEC_OMX_DATA) (cb : nat).
Context (b : nat) (h : OMX_BUFFERHEADERTYPE).

(** C9: a decoded picture is delivered once: unless it precedes the first frame after a
    seek, the output buffer goes to the client with the length, the flags and the time
    stamp that the codec reported, an end of stream is announced before it, and the
    thread is ready for the next buffer.  The buffer was fresh and large enough. *)
Theorem Postprocess_delivers :
  look (pSECComponent c) s = inr r -> pCallbacks r = Some cb -> unmarked r p0 p1 ->
  secDataBuffer r = [u0; u1] -> processData r = [x0; x1] -> no_pause r p0 p1 -> tunnelFlags p1 = 0 ->
  dataValid u1 = true -> db_bufferHeader u1 = Some b -> headers s !! b = Some h ->
  db_dataLen u1 = 0 -> db_remainDataLen u1 = 0 -> is_u32 (db_allocSize u1) ->
  drop_output (checkTimeStamp r) x1 = false -> 0 <= pd_remainDataLen x1 <= db_allocSize u1 ->
  0 < pd_remainDataLen x1 \/ has_flag (pd_nFlags x1) OMX_BUFFERFLAG_EOS = true ->
  SEC_Postprocess_OutputData c s =
    Done true (set_sec c
      r<|checkTimeStamp := seen_start (checkTimeStamp r)|>
       <|secDataBuffer := [u0; databuffer_reset (delivered u1 x1)]|><|processData := [x0; data_reset x1]|>
      s<|headers ::= <[b := h<|nFilledLen := pd_remainDataLen x1|><|nOffset := 0|><|nFlags := pd_nFlags x1|>
                             <|nTimeStamp := pd_timeStamp x1|>]>|>
       <|callbacks ::= fun k => k ++
           (if has_flag (pd_nFlags x1) OMX_BUFFERFLAG_EOS
            then [EventBufferFlag c OUTPUT_PORT_INDEX (pd_nFlags x1)] else []) ++ [FillBufferDone c b]|>).
Proof.
  intros Hl Hcb (Hports & Hm & Hpm) Hbufs Hdata Hno Htun Hval Hb Hh Hlen Hrem Halloc Hdrop Hfits Hsome.
  pose proof (look_valid _ _ _ Hl) as Hv. rewrite <- (set_sec_id c s r) at 1 by done.
  match goal with |- _ = Done true ?s1 => enough (wp (fun _ => False)
    (SEC_Postprocess_OutputData c (set_sec c r s)) (fun e s' => e = true /\ s' = s1)) as Hwp end.
  { by apply wp_result in Hwp as (e & s' & -> & -> & ->). }
  unfold SEC_Postprocess_OutputData, SEC_DataReset. hsteps. rewrite Hval. simpl. hsteps. rewrite Hdrop. hsteps.
  rewrite Hlen, Z.sub_0_r, u32_id, (proj2 (Z.leb_le _ _)) by (done || lia). hsteps. simpl.
  rewrite Hrem, Z.add_0_l, u32_id by (unfold is_u32 in *; lia).
  replace ((0 <? pd_remainDataLen x1) || has_flag (pd_nFlags x1) OMX_BUFFERFLAG_EOS)%bool with true.
  2: { symmetry. apply orb_true_iff. destruct Hsome; [left; lia|by right]. }
  hsteps. eapply (OutputBufferReturn_wp _ c _ s p0 p1 u0 (delivered u1 x1) cb); try done.
  unfold delivered, set_field. simpl. rewrite Hlen, Hrem, Z.add_0_l, u32_id by (unfold is_u32 in *; lia). done.
Qed.

(** pictures before the first frame after a seek are dropped: neither the buffer nor
    the client sees anything of them, and the buffer stays for the next picture. *)
Theorem Postprocess_drops :
  look (pSECComponent c) s = inr r -> secDataBuffer r = [u0; u1] -> processData r = [x0; x1] ->
  dataValid u1 = true -> drop_output (checkTimeStamp r) x1 = true ->
  SEC_Postprocess_OutputData c s = Done true (set_sec c r<|processData := [x0; data_reset x1]|> s).
Proof.
  intros Hl Hbufs Hdata Hval Hdrop.
  pose proof (look_valid _ _ _ Hl) as Hv. rewrite <- (set_sec_id c s r) at 1 by done.
  match goal with |- _ = Done true ?s1 => enough (wp (fun _ => False)
    (SEC_Postprocess_OutputData c (set_sec c r s)) (fun e s' => e = true /\ s' = s1)) as Hwp end.
  { by apply wp_result in Hwp as (e & s' & -> & -> & ->). }
  unfold SEC_Postprocess_OutputData, SEC_DataReset. hsteps. rewrite Hval. simpl. hsteps. rewrite Hdrop. hsteps.
  done.
Qed.
End postprocess.

(** ** Instances *)

Definition sample_in : SEC_OMX_DATABUFFER :=
  databuffer_zero<|bufferMutex := Some false|><|dataValid := true|><|db_bufferHeader := Some 5%nat|>
    <|db_allocSize := 25|><|db_dataLen := 23|><|db_usedDataLen := 2|><|db_remainDataLen := 23|>.
Definition sample_out : SEC_OMX_DATABUFFER :=
  databuffer_zero<|bufferMutex := Some false|><|dataValid := true|><|db_bufferHeader := Some 6%nat|>
    <|db_allocSize := 1024|>.
Definition sample_frame (alloc : Z) : SEC_OMX_DATA :=
  data_zero<|pd_dataBuffer := 8192|><|pd_allocSize := alloc|><|pd_dataLen := 1|><|pd_remainDataLen := 1|>.
Definition sample_picture : SEC_OMX_DATA :=
  data_zero<|pd_remainDataLen := 600|><|pd_nFlags := 1|><|pd_timeStamp := 40000|>.
Definition sample_source : block := Some <$> [1; 2] ++ sample_h264.
Definition sample_codec_memory : block := Some 9 :: replicate 31 None.

(** An executing decoder that holds buffer 5 of the input and buffer 6 of the output. *)
Definition sample_busy (alloc : Z) (t : SEC_OMX_TIMESTAMP) (l : list queue_item) : SEC_OMX_BASECOMPONENT :=
  (sample_component OMX_StateExecuting [] (sample_port 0 OMX_DirInput [] l) (sample_port 1 OMX_DirOutput [] []))
    <|secDataBuffer := [sample_in; sample_out]|><|processData := [sample_frame alloc; sample_picture]|>
    <|checkTimeStamp := t|>.
Definition sample_exchange (alloc : Z) (t : SEC_OMX_TIMESTAMP) (l : list queue_item) : St :=
  (sample_state (sample_busy alloc t l)
     {[ 5%nat := sample_header 0 0; 6%nat := sample_header 0 0; 9%nat := sample_header 0 0 ]})
    <|memory := {[ 4096 := sample_source; 8192 := sample_codec_memory ]}|>.
Definition no_seek : SEC_OMX_TIMESTAMP := mkTimeStamp false false 0 0.

Lemma sample_collecting alloc t l : 1 <= alloc <= 32 ->
  collecting (sample_exchange alloc t l) sample_in (sample_frame alloc) 5 (sample_header 0 0)
    sample_source sample_codec_memory.
Proof. intros Ha. split; try done; unfold zlength; simpl; lia. Qed.

Lemma sample_unpaused alloc t l p0 p1 : no_pause (sample_busy alloc t l) p0 p1.
Proof. by left. Qed.

(** With the checker of H.264: the parameter set is taken, the slice stays. *)
Lemma Preprocessor_collects_witness :
  exists s' r' u' x',
    SEC_Preprocessor_InputData (H := sample_env) (H0 := H264_checker (H := sample_h264_build)) 1 (sample_exchange 32 no_seek []) = Done true s' /\
    look (pSECComponent 1) s' = inr r' /\ secDataBuffer r' = [u'; sample_out] /\
    processData r' = [x'; sample_picture] /\
    frame_of s' x' = Some <$> [9; 0; 0; 0; 1; 0x67; 0x42] /\ callbacks s' = [] /\
    rest_of s' u' (sample_header 0 0) = Some <$> drop 6 sample_h264.
Proof.
  destruct (Preprocessor_collects (H := sample_env) (C := H264_checker (H := sample_h264_build)) 1 (sample_exchange 32 no_seek [])
    (sample_busy 32 no_seek []) (sample_port 0 OMX_DirInput [] []) (sample_port 1 OMX_DirOutput [] [])
    sample_in sample_out (sample_frame 32) sample_picture 0 5 (sample_header 0 0) sample_source sample_codec_memory
    sample_h264 [] []) as (v & Hv & Hrun); try done.
  - apply sample_unpaused.
  - repeat constructor; unfold is_byte; lia.
  - vm_compute in Hv. injection Hv as <-.
    destruct Hrun as (eof & s' & Hrun & He & r' & u' & x' & Hl & Hb & Hd & Hf & _ & _ & Hk & _ & Hrest); [done|].
    exists s', r', u', x'. rewrite Hrun, He, Hf, Hk, Hrest by reflexivity.
    split_and!; try assumption; vm_compute; reflexivity.
Defined.

Lemma Postprocess_delivers_witness :
  SEC_Postprocess_OutputData (H := sample_env) 1 (sample_exchange 32 no_seek []) =
    Done true (set_sec 1
      (sample_busy 32 no_seek [])<|checkTimeStamp := no_seek|>
        <|secDataBuffer := [sample_in; databuffer_reset (delivered sample_out sample_picture)]|>
        <|processData := [sample_frame 32; data_reset sample_picture]|>
      (sample_exchange 32 no_seek [])
        <|headers ::= <[6%nat := (sample_header 0 0)<|nFilledLen := 600|><|nOffset := 0|><|nFlags := 1|>
                                 <|nTimeStamp := 40000|>]>|>
        <|callbacks ::= fun k => k ++ [EventBufferFlag 1 OUTPUT_PORT_INDEX 1] ++ [FillBufferDone 1 6]|>).
Proof.
  apply (Postprocess_delivers (H := sample_env) 1 (sample_exchange 32 no_seek []) (sample_busy 32 no_seek [])
    (sample_port 0 OMX_DirInput [] []) (sample_port 1 OMX_DirOutput [] [])
    sample_in sample_out (sample_frame 32) sample_picture 0 6 (sample_header 0 0)); try done.
  - apply sample_unpaused.
  - by left.
Defined.

Lemma Postprocess_drops_witness :
  SEC_Postprocess_OutputData (H := sample_env) 1 (sample_exchange 32 (mkTimeStamp false true 80000 0) []) =
    Done true (set_sec 1 (sample_busy 32 (mkTimeStamp false true 80000 0) [])
      <|processData := [sample_frame 32; data_reset sample_picture]|>
      (sample_exchange 32 (mkTimeStamp false true 80000 0) [])).
Proof.
  by apply (Postprocess_drops (H := sample_env) 1 _ _ sample_in sample_out (sample_frame 32) sample_picture).
Defined.

Definition sample_waiting : list queue_item :=
  [ItemMessage (mkMessage SEC_OMX_CommandEmptyBuffer 0 (Some (PtrBuffer 9)))].
Lemma decoder_flush_returns_all_witness :
  exists s' r' p',
    SEC_OMX_FlushPort (H := sample_env)
      (H0 := VideoDec_ops (H := sample_env) (fun _ => ret OMX_ErrorNone) None) 1 0
      (sample_exchange 32 no_seek sample_waiting) = Done OMX_ErrorNone s' /\
    look (pSECComponent 1) s' = inr r' /\ port_get 0 r' = inr p' /\ queue_repr (bufferQ p') [] /\
    callbacks s' = [EmptyBufferDone 1 9; EmptyBufferDone 1 5].
Proof.
  destruct (decoder_flush_returns_all (H := sample_env) (fun _ => ret OMX_ErrorNone) None 1 0
    (sample_exchange 32 no_seek sample_waiting) (sample_busy 32 no_seek sample_waiting)
    (sample_port 0 OMX_DirInput [] sample_waiting) (sample_port 1 OMX_DirOutput [] [])
    sample_in sample_out (sample_frame 32) sample_picture 0 (sample_port 0 OMX_DirInput [] sample_waiting)
    sample_in sample_waiting [9%nat] 5 (sample_header 0 0))
    as (s' & r' & p' & Hrun & Hl & Hp & Hq & _ & _ & Hk & _); try done.
  - by left.
  - apply sample_unpaused.
  - apply sample_queue_with_repr. unfold ring_size, MAX_QUEUE_ELEMENTS. simpl. lia.
  - by repeat constructor.
  - by repeat constructor; eexists.
  - by exists s', r', p'.
Defined.
