(* ===== verification/VencProcess.v ===== *)
(** * The processing thread of the video encoder

    Models [component/video/enc/SEC_OMX_Venc.c] up to its parameter functions.  The buffers
    of the ports, the tunnel functions, the state test, the resets and the return of
    buffers are the decoder's, line for line, and get their names here as aliases.  What the
    encoder does in its own way is modelled: it hands the payload of a buffer to the codec
    frame by frame ([SEC_Preprocessor_InputData]), copies what the codec has encoded into the
    client's buffer ([SEC_Postprocess_OutputData]) and returns the input buffer after the
    codec has run.  The two conversions that are written in assembly, and the build options,
    are the class [EncoderBuild]. *)
From S2P Require Import Prelude Machine OmxEnums OsalSync OsalQueue OmxTypes OmxState Focus.
From S2P Require Import PortFocus OmxMemory Samples BasePort VdecBuffers AndroidBuffers VdecProcess.

Class EncoderBuild := {
  USE_STOREMETADATA : bool;
  USE_METADATABUFFERTYPE : bool;
  (* [csc_interleave_memcpy_neon(dest, src1, src2, n)], a pointer into a block with its offset *)
  csc_interleave_memcpy_neon : Z -> Z * Z -> Z * Z -> Z -> M St unit;
  (* [csc_ARGB8888_to_YUV420SP_NEON(y, uv, rgb, width, height)] *)
  csc_ARGB8888_to_YUV420SP_NEON : Z -> Z -> Z -> Z -> Z -> M St unit
}.

Definition OMX_BUFFERFLAG_ENDOFFRAME : Z := 0x10.
Definition OMX_SEC_COLOR_FormatNV12LPhysicalAddress : Z := 0x7F000002.
Definition OMX_SEC_COLOR_FormatNV12LVirtualAddress : Z := 0x7F000003.
Definition OMX_COLOR_FormatAndroidOpaque : Z := 0x7F000789.

(** ** The functions the encoder has from the decoder *)
Section copies.
Context `{Env}.
Definition enc_UseBuffer := SEC_OMX_UseBuffer.
Definition enc_AllocateBuffer := SEC_OMX_AllocateBuffer.
Definition enc_FreeBuffer := SEC_OMX_FreeBuffer.
Definition enc_AllocateTunnelBuffer := SEC_OMX_AllocateTunnelBuffer.
Definition enc_FreeTunnelBuffer := SEC_OMX_FreeTunnelBuffer.
Definition enc_ComponentTunnelRequest := SEC_OMX_ComponentTunnelRequest.
Definition enc_Check_BufferProcess_State := SEC_Check_BufferProcess_State.
Definition enc_InputBufferReturn := SEC_InputBufferReturn.
Definition enc_OutputBufferReturn := SEC_OutputBufferReturn.
Definition enc_BufferReset := SEC_BufferReset.
Definition enc_DataReset := SEC_DataReset.
End copies.

(** The encoder's structure behind [hComponentHandle]. *)
Definition encoder (c : nat) : place SEC_OMX_VIDEOENC_COMPONENT :=
  as_encoder (target (pSECComponent c)↘hComponentHandle).

Section encoder.
Context `{Env} `{AndroidMedia} `{EncoderBuild} `{Codec}.

(** ** The size of the output buffers *)
Definition enc_UpdateFrameSize (c : nat) : M St unit :=
  let* p0 := load (port c INPUT_PORT_INDEX) in
  let* p1 := load (port c OUTPUT_PORT_INDEX) in
  let inp := format_video (portDefinition p0) in
  let out := format_video (portDefinition p1) in
  if (negb (nFrameWidth out =? nFrameWidth inp) || negb (nFrameHeight out =? nFrameHeight inp))%bool then
    let width := nStride inp in
    let height := nSliceHeight inp in
    update (port c OUTPUT_PORT_INDEX)↘portDefinition (fun d =>
      (d<|format_video ::= fun v => v<|nFrameWidth := nFrameWidth inp|><|nFrameHeight := nFrameHeight inp|>
            <|nStride := width|><|nSliceHeight := height|>|>)
       <|nBufferSize ::= fun n =>
           if (negb (width =? 0) && negb (height =? 0))%bool then u32 (width * height * 3) / 2 else n|>)
  else ret tt.

(** ** Taking buffers from the queues *)
Definition enc_InputBufferGetQueue (c : nat) : M St OMX_ERRORTYPE :=
  buffer_get_queue c INPUT_PORT_INDEX (fun b h =>
    update (databuffer c INPUT_PORT_INDEX) (fun d =>
      d<|db_bufferHeader := Some b|><|db_allocSize := nAllocLen h|><|db_dataLen := nFilledLen h|>
       <|db_remainDataLen := nFilledLen h|><|db_usedDataLen := 0|><|dataValid := true|>
       <|db_nFlags := nFlags h|><|db_timeStamp := nTimeStamp h|>) ;;;
    update (data_of c INPUT_PORT_INDEX) (fun d =>
      d<|pd_dataBuffer := pBuffer h|><|pd_allocSize := nAllocLen h|>)).

Definition enc_OutputBufferGetQueue (c : nat) : M St OMX_ERRORTYPE :=
  buffer_get_queue c OUTPUT_PORT_INDEX (fun b h =>
    update (databuffer c OUTPUT_PORT_INDEX) (fun d =>
      d<|db_bufferHeader := Some b|><|db_allocSize := nAllocLen h|><|db_dataLen := 0|>
       <|db_remainDataLen := 0|><|db_usedDataLen := 0|><|dataValid := true|>)).

(** ** The input of a frame *)

(** [(width * height * 3) / 2] on [int], converted to [OMX_U32]. *)
Definition yuv420_size (v : OMX_VIDEO_PORTDEFINITIONTYPE) : Z :=
  u32 (Z.quot (s32 (s32 (nFrameWidth v) * s32 (nFrameHeight v) * 3)) 2).

Definition oneFrameSize (v : OMX_VIDEO_PORTDEFINITIONTYPE) : Z :=
  let width := s32 (nFrameWidth v) in
  let height := s32 (nFrameHeight v) in
  if existsb (Z.eqb (eColorFormat v))
       [OMX_COLOR_FormatYUV420SemiPlanar; OMX_COLOR_FormatYUV420Planar;
        OMX_SEC_COLOR_FormatNV12TPhysicalAddress; OMX_SEC_COLOR_FormatNV12LPhysicalAddress]
  then yuv420_size v
  else if eColorFormat v =? OMX_SEC_COLOR_FormatNV12LVirtualAddress
  then u32 (ALIGN (ALIGN width 16 * ALIGN height 16) 2048
            + ALIGN (ALIGN width 16 * ALIGN (Z.shiftr height 1) 8) 2048)
  else 0.

(** How much of the buffer is taken ([checkedSize]), its length, [flagEOF] and [flagEOS].

    With [bUseFlagEOF] a buffer is a frame; an empty one becomes a frame of the size of the
    picture with the end-of-stream flag. *)
Definition whole_buffer (c : nat) (remain : Z) : M St (Z * Z * bool * bool) :=
  let* len :=
    (if remain =? 0 then
       let* p := load (port c INPUT_PORT_INDEX) in
       let n := yuv420_size (format_video (portDefinition p)) in
       update (databuffer c INPUT_PORT_INDEX) (fun u =>
         u<|db_remainDataLen := n|><|db_dataLen := n|><|db_nFlags ::= fun f => Z.lor f OMX_BUFFERFLAG_EOS|>) ;;;
       ret n
     else ret remain) in
  let* flags := load (databuffer c INPUT_PORT_INDEX)↘db_nFlags in
  ret (len, len, true, has_flag flags OMX_BUFFERFLAG_EOS).

(** Without it the end of a frame is found by its size; [collected]: the bytes the frame
    has already.  The last buffer of the stream ends a frame in any case. *)
Definition find_frame (one collected remain flags : Z) (previousFrameEOF : bool) : Z * Z * bool * bool :=
  let rest := if previousFrameEOF then one else u32 (one - collected) in
  let '(checkedSize, flagEOF) := if rest <=? remain then (rest, true) else (0, false) in
  if (negb flagEOF && has_flag flags OMX_BUFFERFLAG_EOS)%bool
  then (checkedSize, remain, true, true) else (checkedSize, remain, flagEOF, false).

(** The pointer that [SEC_OSAL_GetInfoFromMetaData] stored first, as a handle. *)
Definition first_handle (l : list meta_pointer) : M St Z :=
  match l with
  | BufferHandle h :: _ => ret h
  | IntoBuffer a off :: _ => ret (u32 (a + off))
  | [] => fail Uninitialised
  end.

(** The frame at the offset [off] of the block [a] goes to the codec's input frame. *)
Definition copy_frame (c : nat) (a off : Z) : M St unit :=
  let* p := load (port c INPUT_PORT_INDEX) in
  let v := format_video (portDefinition p) in
  let color := eColorFormat v in
  let width := nFrameWidth v in
  let height := nFrameHeight v in
  let* e := load (encoder c) in
  let* buf := deref OutOfBounds (zlookup (MFCEncInputBuffer e) (enc_indexInputBuffer e)) in
  let luma := u32 (width * height) in
  if negb (bStoreMetaData p) then
    if color =? OMX_COLOR_FormatYUV420Planar then
      SEC_OSAL_Memcpy (YVirAddr buf) 0 a off luma ;;;
      csc_interleave_memcpy_neon (CVirAddr buf) (a, off + luma) (a, off + u32 (luma * 5) / 4) (luma / 4)
    else if color =? OMX_COLOR_FormatYUV420SemiPlanar then
      SEC_OSAL_Memcpy (YVirAddr buf) 0 a off luma ;;;
      SEC_OSAL_Memcpy (CVirAddr buf) 0 a (off + luma) (luma / 2)
    else if color =? OMX_SEC_COLOR_FormatNV12Tiled then
      let y := ALIGN_TO_8KB (u32 (ALIGN_TO_128B width * ALIGN_TO_32B height)) in
      SEC_OSAL_Memcpy (YVirAddr buf) 0 a off y ;;;
      SEC_OSAL_Memcpy (CVirAddr buf) 0 a (off + y)
        (ALIGN_TO_8KB (u32 (ALIGN_TO_128B width * ALIGN_TO_32B (height / 2))))
    else ret tt
  else if (USE_METADATABUFFERTYPE && (color =? OMX_COLOR_FormatAndroidOpaque))%bool then
    let* inp := load (data_of c INPUT_PORT_INDEX) in
    let* '(_, ppBuf) := SEC_OSAL_GetInfoFromMetaData inp in
    let* handle := first_handle ppBuf in
    let* '(_, pOutBuffer) := SEC_OSAL_LockANBHandle handle width height OMX_COLOR_FormatAndroidOpaque in
    let* rgb := deref Uninitialised pOutBuffer in
    csc_ARGB8888_to_YUV420SP_NEON (YVirAddr buf) (CVirAddr buf) rgb width height ;;;
    SEC_OSAL_UnlockANBHandle handle ;;; ret tt
  else ret tt.

(** Frames in formats the codec reads where they are need no copy. *)
Definition read_in_place (color : Z) : bool :=
  existsb (Z.eqb color) [OMX_SEC_COLOR_FormatNV12TPhysicalAddress; OMX_SEC_COLOR_FormatNV12LPhysicalAddress;
                         OMX_SEC_COLOR_FormatNV12LVirtualAddress].

(** [inputData] is charged with [copySize] bytes of the buffer. *)
Definition enc_take_input (c : nat) (a off copySize : Z) (flagEOF : bool) : M St unit :=
  let* p := load (port c INPUT_PORT_INDEX) in
  (if (negb (read_in_place (eColorFormat (format_video (portDefinition p)))) && flagEOF)%bool
   then copy_frame c a off else ret tt) ;;;
  update (databuffer c INPUT_PORT_INDEX) (fun u =>
    u<|db_dataLen ::= fun n => u32 (n - copySize)|><|db_remainDataLen ::= fun n => u32 (n - copySize)|>
     <|db_usedDataLen ::= fun n => u32 (n + copySize)|>) ;;;
  update (data_of c INPUT_PORT_INDEX) (fun d =>
    d<|pd_dataLen ::= fun n => u32 (n + copySize)|><|pd_remainDataLen ::= fun n => u32 (n + copySize)|>).

(** The flags of the frame, [flagEOF] and [bSaveFlagEOS] afterwards. *)
Definition enc_eos_flags (useFlagEOF saveFlagEOS : bool) (bufFlags dataFlags : Z) (wholeBuffer flagEOF : bool)
  : Z * bool * bool :=
  if useFlagEOF then
    if saveFlagEOS then (Z.lor dataFlags OMX_BUFFERFLAG_EOS, true, false) else (dataFlags, flagEOF, saveFlagEOS)
  else if (wholeBuffer && saveFlagEOS)%bool then (Z.lor dataFlags OMX_BUFFERFLAG_EOS, true, false)
  else (clear_flag bufFlags OMX_BUFFERFLAG_EOS, flagEOF, saveFlagEOS).

Definition enc_settle_frame (c : nat) (previousFrameEOF wholeBuffer flagEOF : bool) : M St bool :=
  let* u := load (databuffer c INPUT_PORT_INDEX) in
  (if previousFrameEOF then
     update (data_of c INPUT_PORT_INDEX) (fun d =>
       d<|pd_timeStamp := db_timeStamp u|><|pd_nFlags := db_nFlags u|>)
   else ret tt) ;;;
  let* inp := load (data_of c INPUT_PORT_INDEX) in
  let* r := load (pSECComponent c) in
  let '(flags, flagEOF, save) :=
    enc_eos_flags (bUseFlagEOF r) (bSaveFlagEOS r) (db_nFlags u) (pd_nFlags inp) wholeBuffer flagEOF in
  store (data_of c INPUT_PORT_INDEX)↘pd_nFlags flags ;;;
  store (pSECComponent c)↘bSaveFlagEOS save ;;;
  ret flagEOF.

(** The branch for a valid buffer: [flagEOF] and [flagEOS]. *)
Definition enc_preprocess_buffer (c : nat) (u : SEC_OMX_DATABUFFER) : M St (bool * bool) :=
  let* b := deref NullDeref (db_bufferHeader u) in
  let* h := load (header b) in
  update (pSECComponent c)↘bUseFlagEOF (fun f => f || has_flag (db_nFlags u) OMX_BUFFERFLAG_ENDOFFRAME)%bool ;;;
  let* inp := load (data_of c INPUT_PORT_INDEX) in
  let* useFlagEOF := load (pSECComponent c)↘bUseFlagEOF in
  let previousFrameEOF := pd_dataLen inp =? 0 in
  let* check :=
    (if (useFlagEOF : bool) then whole_buffer c (db_remainDataLen u)
     else
       let* p := load (port c INPUT_PORT_INDEX) in
       ret (find_frame (oneFrameSize (format_video (portDefinition p))) (pd_dataLen inp)
              (db_remainDataLen u) (db_nFlags u) previousFrameEOF)) in
  let '(checkedSize, len, flagEOF, flagEOS) := check in
  let copySize := if (flagEOF : bool) then checkedSize else len in
  let* flags := load (databuffer c INPUT_PORT_INDEX)↘db_nFlags in
  (if has_flag flags OMX_BUFFERFLAG_EOS
   then store (pSECComponent c)↘bSaveFlagEOS true else ret tt) ;;;
  let* flagEOF :=
    (if copySize <=? u32 (pd_allocSize inp - pd_dataLen inp) then
       enc_take_input c (pBuffer h) (db_usedDataLen u) copySize flagEOF ;;;
       enc_settle_frame c previousFrameEOF (checkedSize =? len) flagEOF
     else
       SEC_DataReset c INPUT_PORT_INDEX ;;; ret false) in
  let* rest := load (databuffer c INPUT_PORT_INDEX)↘db_remainDataLen in
  (if rest =? 0 then
     if (flagEOF : bool) then ret tt else SEC_InputBufferReturn c ;;; ret tt
   else store (databuffer c INPUT_PORT_INDEX)↘dataValid true) ;;;
  ret (flagEOF, flagEOS).

Definition enc_Preprocessor_InputData (c : nat) : M St bool :=
  let* u := load (databuffer c INPUT_PORT_INDEX) in
  let* flags := (if dataValid u then enc_preprocess_buffer c u else ret (false, false)) in
  let '(flagEOF, flagEOS) := flags in
  if (flagEOF : bool) then note_start c ;;; ret true
  else if (flagEOS : bool) then
    let* u := load (databuffer c INPUT_PORT_INDEX) in
    store (databuffer c OUTPUT_PORT_INDEX)↘db_nFlags (db_nFlags u) ;;;
    SEC_OutputBufferReturn c ;;; ret false
  else ret false.

(** ** The output of the codec *)
Definition enc_drop_output (t : SEC_OMX_TIMESTAMP) (out : SEC_OMX_DATA) : bool :=
  if needCheckStartTimeStamp t then negb (startTimeStamp t =? pd_timeStamp out) else needSetStartTimeStamp t.

Definition enc_Postprocess_OutputData (c : nat) : M St bool :=
  let* u := load (databuffer c OUTPUT_PORT_INDEX) in
  if negb (dataValid u) then ret false
  else
    let* out := load (data_of c OUTPUT_PORT_INDEX) in
    let* t := load (pSECComponent c)↘checkTimeStamp in
    if enc_drop_output t out then SEC_DataReset c OUTPUT_PORT_INDEX ;;; ret true
    else
      store (pSECComponent c)↘checkTimeStamp (seen_start t) ;;;
      if pd_remainDataLen out <=? u32 (db_allocSize u - db_dataLen u) then
        let copySize := pd_remainDataLen out in
        (if 0 <? copySize then
           let* b := deref NullDeref (db_bufferHeader u) in
           let* h := load (header b) in
           SEC_OSAL_Memcpy (pBuffer h) (db_dataLen u) (pd_dataBuffer out) (pd_usedDataLen out) copySize
         else ret tt) ;;;
        update (databuffer c OUTPUT_PORT_INDEX) (fun u =>
          u<|db_dataLen ::= fun n => u32 (n + copySize)|><|db_remainDataLen ::= fun n => u32 (n + copySize)|>
           <|db_nFlags := pd_nFlags out|><|db_timeStamp := pd_timeStamp out|>) ;;;
        SEC_DataReset c OUTPUT_PORT_INDEX ;;;
        let* u := load (databuffer c OUTPUT_PORT_INDEX) in
        (if (0 <? db_remainDataLen u) || has_flag (db_nFlags u) OMX_BUFFERFLAG_EOS
         then SEC_OutputBufferReturn c ;;; ret tt else ret tt) ;;;
        ret true
      else SEC_DataReset c OUTPUT_PORT_INDEX ;;; ret false.

(** ** The loop of the thread *)

(** The codec runs and the input buffer goes back when it is used up. *)
Definition encode_round (c : nat) : M St unit :=
  let in_mutex := (databuffer c INPUT_PORT_INDEX)↘bufferMutex in
  let out_mutex := (databuffer c OUTPUT_PORT_INDEX)↘bufferMutex in
  MutexLock in_mutex ;;;
  MutexLock out_mutex ;;;
  let* r := sec_mfc_bufferProcess c in
  let* rest := load (databuffer c INPUT_PORT_INDEX)↘db_remainDataLen in
  (if rest =? 0 then SEC_InputBufferReturn c ;;; ret tt
   else store (databuffer c INPUT_PORT_INDEX)↘dataValid true) ;;;
  MutexUnlock out_mutex ;;;
  MutexUnlock in_mutex ;;;
  store (pSECComponent c)↘reInputData (bool_decide (r = OMX_ErrorInputDataEncodeYet)).

(** One round of the inner loop; [true] leaves it. *)
Definition enc_process_round (c : nat) : M St bool :=
  let in_mutex := (databuffer c INPUT_PORT_INDEX)↘bufferMutex in
  let out_mutex := (databuffer c OUTPUT_PORT_INDEX)↘bufferMutex in
  MutexLock out_mutex ;;;
  let* u := load (databuffer c OUTPUT_PORT_INDEX) in
  let* p1 := load (port c OUTPUT_PORT_INDEX) in
  MutexUnlock out_mutex ;;;
  let* leave :=
    (if (negb (dataValid u) && negb (CHECK_PORT_BEING_FLUSHED p1))%bool then
       let* r := enc_OutputBufferGetQueue c in
       let* p0 := load (port c INPUT_PORT_INDEX) in
       let* p1 := load (port c OUTPUT_PORT_INDEX) in
       ret (bool_decide (r = OMX_ErrorUndefined)
            || negb (bool_decide (portState p0 = OMX_StateIdle))
            || negb (bool_decide (portState p1 = OMX_StateIdle)))
     else ret false) in
  if (leave : bool) then ret true
  else
    let* remain := load (pSECComponent c)↘remainOutputData in
    let* leave :=
      (if negb remain then
         let* again := load (pSECComponent c)↘reInputData in
         let* leave :=
           (if negb again then
              MutexLock in_mutex ;;;
              let* done := enc_Preprocessor_InputData c in
              let* p0 := load (port c INPUT_PORT_INDEX) in
              MutexUnlock in_mutex ;;;
              if (negb done && negb (CHECK_PORT_BEING_FLUSHED p0))%bool
              then enc_InputBufferGetQueue c ;;; ret true else ret false
            else ret false) in
         if (leave : bool) then ret true else encode_round c ;;; ret false
       else ret false) in
    if (leave : bool) then ret true
    else
      MutexLock out_mutex ;;;
      let* done := enc_Postprocess_OutputData c in
      store (pSECComponent c)↘remainOutputData (negb done) ;;;
      MutexUnlock out_mutex ;;;
      ret false.

(** The two loops, observed for a number of rounds as in [VdecProcess]. *)
Fixpoint enc_inner_rounds (n : nat) (c : nat) : M St nat :=
  match n with
  | O => ret O
  | S n =>
      let* go := SEC_Check_BufferProcess_State c in
      let* exit := load (pSECComponent c)↘bExitBufferProcessThread in
      if (go && negb exit)%bool then
        let* leave := enc_process_round c in
        if (leave : bool) then ret n else enc_inner_rounds n c
      else ret n
  end.
Fixpoint enc_outer_rounds (fuel n : nat) (c : nat) : M St bool :=
  match fuel with
  | O => ret false
  | S fuel =>
      let* exit := load (pSECComponent c)↘bExitBufferProcessThread in
      if (exit : bool) then ret true
      else match n with
           | O => ret false
           | S n => idle_wait c ;;; let* n := enc_inner_rounds (S n) c in enc_outer_rounds fuel n c
           end
  end.
Definition enc_BufferProcess (n : nat) (c : nat) : M St bool :=
  update (pSECComponent c) (fun r => r<|remainOutputData := false|><|reInputData := false|>) ;;;
  enc_outer_rounds (S n) n c.
End encoder.

(** ** Reasoning about the encoder's structure *)
#[export] Instance focus_encoder c : Focus c (encoder c)
  (fun r => match hComponentHandle r with
            | Ptr (VideoEnc e) => inr e | Ptr (VideoDec _) => inl BadCast | _ => inl NullDeref end)
  (fun e r => r<|hComponentHandle := Ptr (VideoEnc e)|>).
Proof.
  assert (Focus c (target (pSECComponent c)↘hComponentHandle) _ _) as HF by apply _.
  unfold encoder. split.
  - intros r s Hv. cbn [look as_encoder]. rewrite (focus_look (Focus := HF)) by done.
    by destruct (hComponentHandle r) as [| |[]].
  - intros r s v a Hv Hg. cbn [put as_encoder]. destruct (hComponentHandle r) as [| |[d|e]] eqn:Hh; try done.
    rewrite (focus_put (Focus := HF) r s (VideoEnc v) (VideoEnc e)) by (rewrite ?Hh; done). done.
Qed.

Lemma wp_load_encoder `{Env} I c r s e Q :
  valid c s -> hComponentHandle r = Ptr (VideoEnc e) -> Q e (set_sec c r s) ->
  wp I (load (encoder c) (set_sec c r s)) Q.
Proof. intros Hv Hh HQ. eapply wp_load; [apply focus_encoder|done|simpl; by rewrite Hh|done]. Qed.

(** ** A frame of the client reaches the codec *)

(** [n] bytes of the block at [a] from the offset [off] on. *)
Definition bytes_at (s : St) (a off n : Z) : block :=
  take (Z.to_nat n) (drop (Z.to_nat off) (default [] (memory s !! a))).

(** The thread holds the buffer [b] of the client with a whole picture in it, in the
    format that is copied plane by plane (NV12, in the buffer itself and not behind metadata),
    and has room for the picture.  The client does not mark the ends of the frames
    ([OMX_BUFFERFLAG_ENDOFFRAME]), so that the size of the picture decides, and nothing of
    the picture has been taken from an earlier buffer. *)
Record frame_ready (s : St) (r : SEC_OMX_BASECOMPONENT) (p : SEC_OMX_BASEPORT) (e : SEC_OMX_VIDEOENC_COMPONENT)
    (buf : MFC_ENC_INPUT_BUFFER) (u : SEC_OMX_DATABUFFER) (x : SEC_OMX_DATA) (b : nat)
    (h : OMX_BUFFERHEADERTYPE) (sb yb cb : block) (w ht : Z) : Prop := {
  fr_valid : dataValid u = true;
  fr_held : db_bufferHeader u = Some b;
  fr_header : headers s !! b = Some h;
  fr_src : memory s !! pBuffer h = Some sb;
  fr_handle : hComponentHandle r = Ptr (VideoEnc e);
  fr_input : zlookup (MFCEncInputBuffer e) (enc_indexInputBuffer e) = Some buf;
  fr_luma : memory s !! YVirAddr buf = Some yb;
  fr_chroma : memory s !! CVirAddr buf = Some cb;
  fr_apart : YVirAddr buf <> pBuffer h /\ CVirAddr buf <> pBuffer h /\ CVirAddr buf <> YVirAddr buf;
  fr_format : eColorFormat (format_video (portDefinition p)) = OMX_COLOR_FormatYUV420SemiPlanar /\
              bStoreMetaData p = false;
  fr_size : nFrameWidth (format_video (portDefinition p)) = w /\ nFrameHeight (format_video (portDefinition p)) = ht;
  fr_bounds : 0 < w /\ 0 < ht /\ 2 <= w * ht /\ w * ht * 3 < 2 ^ 31;
  fr_flags : bUseFlagEOF r = false /\ has_flag (db_nFlags u) OMX_BUFFERFLAG_ENDOFFRAME = false;
  fr_rest : 0 <= db_usedDataLen u /\ w * ht * 3 / 2 <= db_remainDataLen u /\
            db_usedDataLen u + db_remainDataLen u <= zlength sb < 2 ^ 31;
  fr_fresh : pd_dataLen x = 0 /\ pd_remainDataLen x = 0 /\ w * ht * 3 / 2 <= pd_allocSize x < 2 ^ 31;
  fr_room : w * ht <= zlength yb /\ w * ht / 2 <= zlength cb
}.

Lemma yuv420_size_eq v : 0 < nFrameWidth v -> 0 < nFrameHeight v ->
  nFrameWidth v * nFrameHeight v * 3 < 2 ^ 31 ->
  yuv420_size v = nFrameWidth v * nFrameHeight v * 3 / 2.
Proof.
  intros Hw Hh Hs. unfold yuv420_size. set (a := nFrameWidth v) in *. set (d := nFrameHeight v) in *.
  assert (a <= a * d /\ d <= a * d) as [] by nia. rewrite (s32_small a), (s32_small d) by lia.
  assert (0 < a * d) by lia. clearbody a d. generalize dependent (a * d). intros m ????.
  rewrite s32_small, Z.quot_div_nonneg by lia. apply u32_id. unfold is_u32.
  Z.to_euclidean_division_equations. lia.
Qed.

Section take_frame.
Context `{Env} `{AndroidMedia} `{EncoderBuild} `{Codec}.
Context (I : St -> Prop) (c : nat) (s : St) (r : SEC_OMX_BASECOMPONENT) (p0 p1 : SEC_OMX_BASEPORT).
Context (e : SEC_OMX_VIDEOENC_COMPONENT) (buf : MFC_ENC_INPUT_BUFFER) (u0 u1 : SEC_OMX_DATABUFFER).
Context (x0 x1 : SEC_OMX_DATA) (b : nat) (h : OMX_BUFFERHEADERTYPE) (sb yb cb : block) (w ht : Z).
Hypothesis (Hv : valid c s) (Hports : pSECPort r = Ptr [p0; p1]).
Hypothesis (Hbufs : secDataBuffer r = [u0; u1]) (Hdata : processData r = [x0; x1]).
Hypothesis (Hready : frame_ready s r p0 e buf u0 x0 b h sb yb cb w ht).

(** The memory with the planes of the picture in the codec's input frame. *)
Definition planes_copied : St :=
  s<|memory ::= <[YVirAddr buf := take (Z.to_nat (w * ht)) (drop (Z.to_nat (db_usedDataLen u0)) sb) ++
                                  drop (Z.to_nat (w * ht)) yb]>|>
   <|memory ::= <[CVirAddr buf := take (Z.to_nat (w * ht / 2)) (drop (Z.to_nat (db_usedDataLen u0 + w * ht)) sb) ++
                                  drop (Z.to_nat (w * ht / 2)) cb]>|>.

Lemma copy_frame_wp Q :
  Q tt (set_sec c r planes_copied) ->
  wp I (copy_frame c (pBuffer h) (db_usedDataLen u0) (set_sec c r s)) Q.
Proof.
  destruct Hready as [_ _ _ Hsrc Hh Hin Hy Hc (Hne1 & Hne2 & Hne3) [Hf Hm] [Hw Hht] (? & ? & ? & ?) _ Hrest _ [Hry Hrc]].
  intros HQ. unfold copy_frame. hsteps. eapply wp_load_encoder; [done..|]. hsteps. rewrite Hin. hsteps.
  rewrite Hm. cbn [negb]. rewrite Hf, Hw, Hht.
  assert (u32 (w * ht) = w * ht) as -> by (apply u32_id; unfold is_u32; lia).
  unfold planes_copied in HQ. generalize dependent (w * ht). intros k Hrest ? ? ? ? HQ.
  assert (0 < k / 2 <= k /\ k + k / 2 <= k * 3 / 2) as [] by (Z.to_euclidean_division_equations; lia).
  cbn [deref]. hsteps. rewrite Z.eqb_refl.
  change (OMX_COLOR_FormatYUV420SemiPlanar =? OMX_COLOR_FormatYUV420Planar) with false.
  apply wp_bind. eapply wp_Memcpy; [lia|by left|done|done|lia|lia|lia|lia|].
  eapply wp_Memcpy; [lia|by left|simpl; by rewrite lookup_insert_ne|simpl; by rewrite lookup_insert_ne|lia..|].
  exact HQ.
Qed.

End take_frame.

(** The end of stream, noted from an earlier buffer or from this one, and where it goes: with
    the last picture of the buffer. *)
Definition eos_noted (r : SEC_OMX_BASECOMPONENT) (u : SEC_OMX_DATABUFFER) : bool :=
  bSaveFlagEOS r || has_flag (db_nFlags u) OMX_BUFFERFLAG_EOS.
Definition eos_passed (r : SEC_OMX_BASECOMPONENT) (u : SEC_OMX_DATABUFFER) (n : Z) : bool :=
  (n =? db_remainDataLen u) && eos_noted r u.

Lemma eos_noted_eq r u :
  r<|bSaveFlagEOS := eos_noted r u|> =
    if has_flag (db_nFlags u) OMX_BUFFERFLAG_EOS then r<|bSaveFlagEOS := true|> else r.
Proof. unfold eos_noted. destruct (has_flag _ _), r as [], bSaveFlagEOS; reflexivity. Qed.

Lemma has_EOS_lor f : has_flag (Z.lor f OMX_BUFFERFLAG_EOS) OMX_BUFFERFLAG_EOS = true.
Proof.
  unfold has_flag. rewrite (land_flag _ 0), Z.lor_spec by done. change (Z.testbit OMX_BUFFERFLAG_EOS 0) with true.
  apply orb_true_r.
Qed.
Lemma has_EOS_clear f : has_flag (clear_flag f OMX_BUFFERFLAG_EOS) OMX_BUFFERFLAG_EOS = false.
Proof.
  unfold has_flag, clear_flag. rewrite (land_flag _ 0), Z.land_spec by done.
  change (Z.testbit (u32 _) 0) with false. apply andb_false_r.
Qed.

Section preprocess_frame.
Context `{Env} `{AndroidMedia} `{EncoderBuild} `{Codec}.
Context (I : St -> Prop) (c : nat) (s : St) (r : SEC_OMX_BASECOMPONENT) (p0 p1 : SEC_OMX_BASEPORT).
Context (e : SEC_OMX_VIDEOENC_COMPONENT) (buf : MFC_ENC_INPUT_BUFFER) (u0 u1 : SEC_OMX_DATABUFFER).
Context (x0 x1 : SEC_OMX_DATA) (b : nat) (h : OMX_BUFFERHEADERTYPE) (sb yb cb : block) (w ht : Z).
Hypothesis (Hv : valid c s) (Hports : pSECPort r = Ptr [p0; p1]).
Hypothesis (Hbufs : secDataBuffer r = [u0; u1]) (Hdata : processData r = [x0; x1]).
Hypothesis (Hready : frame_ready s r p0 e buf u0 x0 b h sb yb cb w ht).


Definition picture_size : Z := w * ht * 3 / 2.
Definition frame_data : SEC_OMX_DATA :=
  (extended picture_size x0)<|pd_timeStamp := db_timeStamp u0|>
    <|pd_nFlags := if eos_passed r u0 picture_size then Z.lor (db_nFlags u0) OMX_BUFFERFLAG_EOS
                   else clear_flag (db_nFlags u0) OMX_BUFFERFLAG_EOS|>.
Definition eos_kept : bool := eos_noted r u0 && negb (picture_size =? db_remainDataLen u0).

Lemma picture_facts :
  oneFrameSize (format_video (portDefinition p0)) = picture_size /\ is_u32 picture_size /\
  picture_size <= db_remainDataLen u0 /\ is_u32 (db_remainDataLen u0) /\ picture_size <= pd_allocSize x0 /\
  is_u32 (pd_allocSize x0) /\ 0 < picture_size.
Proof using Hready.
  clear I. destruct Hready as [_ _ _ _ _ _ _ _ _ [Hf _] [Hw Hht] (? & ? & ? & ?) _ Hrest (? & ? & ?) _].
  unfold oneFrameSize. rewrite Hf. cbn [existsb]. rewrite Z.eqb_refl. cbn [orb].
  rewrite yuv420_size_eq by (rewrite ?Hw, ?Hht; lia). rewrite Hw, Hht. fold picture_size in *.
  assert (3 <= picture_size < 2 ^ 31) by (unfold picture_size; Z.to_euclidean_division_equations; lia).
  unfold is_u32. lia.
Qed.

Lemma frame_ready_noted : frame_ready s r<|bSaveFlagEOS := eos_noted r u0|> p0 e buf u0 x0 b h sb yb cb w ht.
Proof using Hready. clear I. destruct Hready as [H1' H2' H3' H4' H5' H6' H7' H8' H9' H10' H11' H12' H13' H14' H15' H16']. split; assumption. Qed.

Lemma preprocess_picture_wp Q :
  Q (true, false) (set_sec c r<|secDataBuffer := [(consumed picture_size u0); u1]|>
                             <|processData := [frame_data; x1]|><|bSaveFlagEOS := eos_kept|>
                     (planes_copied s buf u0 sb yb cb w ht)) ->
  wp I (enc_preprocess_buffer c u0 (set_sec c r s)) Q.
Proof.
  destruct picture_facts as (Hone & Hps & Hle & Hru & Hal & Hau & Hpos).
  pose proof Hready as [Hval Hheld Hhdr _ _ _ _ _ _ [Hf _] _ _ (Huf & Heof) _ (Hx & Hxr & _) _].
  intros HQ. unfold enc_preprocess_buffer. rewrite Hheld. cbn [deref]. hsteps. rewrite Heof, Huf. hsteps.
  assert (r<|bUseFlagEOF := false || false|> = r) as ->.
  { clear -Huf. destruct r. simpl in Huf. by subst. }
  change (false || false)%bool with false. cbn match. hsteps. rewrite Hone, Hx.
  unfold find_frame. rewrite Z.eqb_refl, (proj2 (Z.leb_le _ _)) by done. cbn [negb andb]. hsteps.
  assert (wp I ((if has_flag (db_nFlags u0) OMX_BUFFERFLAG_EOS
                 then store (pSECComponent c)↘bSaveFlagEOS true else ret tt) (set_sec c r s))
            (fun _ s' => s' = set_sec c r<|bSaveFlagEOS := eos_noted r u0|> s)) as Hsave.
  { rewrite eos_noted_eq. destruct (has_flag (db_nFlags u0) OMX_BUFFERFLAG_EOS).
    - hsteps. reflexivity.
    - apply wp_ret. reflexivity. }
  eapply wp_mono; [|exact Hsave]. intros [] s1 ->. apply wp_bind.
  rewrite Z.sub_0_r, (u32_id (pd_allocSize x0)), (proj2 (Z.leb_le _ _)) by done. cbn match. apply wp_bind.
  unfold enc_take_input. hsteps. rewrite Hf. change (read_in_place _) with false. cbn [negb andb]. hsteps.
  eapply copy_frame_wp; [exact Hv|exact Hports|exact frame_ready_noted|]. assert (valid c (planes_copied s buf u0 sb yb cb w ht)) as Hvp by fvalid.
  hsteps. unfold enc_settle_frame. hsteps. unfold enc_eos_flags. simpl. rewrite Huf.
  match goal with |- wp _ ((let '(_, _) := ?t in _) _) _ =>
    replace t with (pd_nFlags frame_data, true, eos_kept)
      by (unfold frame_data, eos_kept, eos_passed; simpl; destruct (_ =? _), (eos_noted r u0); reflexivity) end.
  hsteps. simpl.
  assert (u0<|dataValid := true|> = u0) as Hu by (clear -Hval; destruct u0; simpl in *; by subst).
  unfold frame_data, consumed, extended in HQ |- *. rewrite <- Hu in HQ.
  destruct (_ =? 0); hsteps; [rewrite Hu in HQ|]; exact HQ.
Qed.

Lemma enc_Preprocessor_wp Q :
  wp I (enc_preprocess_buffer c u0 (set_sec c r s)) (fun eof s' => exists r' x' x1' w',
    s' = set_sec c r' w' /\ valid c w' /\ processData r' = [x'; x1'] /\ eof.1 = true /\
    Q true (set_sec c (started true r' x') w')) ->
  wp I (enc_Preprocessor_InputData c (set_sec c r s)) Q.
Proof.
  intros HQ. unfold enc_Preprocessor_InputData. hsteps. rewrite (fr_valid _ _ _ _ _ _ _ _ _ _ _ _ _ _ Hready).
  eapply wp_mono; [|exact HQ]. intros [eof eos] s' (r' & x' & x1' & w' & -> & Hvw & Hd' & He & HQ').
  simpl in He. subst eof. hsteps. unfold note_start. hsteps. exact HQ'.
Qed.
End preprocess_frame.

Section encoder_claims.
Context `{Env} `{AndroidMedia} `{EncoderBuild} `{Codec}.

(** C11: in the format NV12 ([OMX_COLOR_FormatYUV420SemiPlanar], with the picture in the buffer
    and not behind metadata), and for a client that does not mark the ends of its frames, the
    encoder's thread hands the codec exactly the next picture of the client's buffer:
    with a whole picture in the buffer and no part of one collected before, the luma plane of the
    codec's input frame holds the next [w * ht] bytes and the chroma plane the [w * ht / 2] bytes
    after them, the buffer is charged with exactly the picture, the frame gets its length and the
    time stamp of the buffer, and the buffer stays with the thread, for the codec, whether it is
    used up or not.  An end of stream, of this buffer or noted before, goes to the codec with the
    last picture of the buffer and not earlier.  It does not hold for a picture in two buffers
    ([split_picture_copied_from_last_buffer]), nor for the tiled format, whose pictures
    are taken to have no bytes. *)
Theorem encoder_takes_frame c s r p0 p1 e buf u0 u1 x0 x1 b h sb yb cb w ht :
  look (pSECComponent c) s = inr r -> pSECPort r = Ptr [p0; p1] -> secDataBuffer r = [u0; u1] ->
  processData r = [x0; x1] -> frame_ready s r p0 e buf u0 x0 b h sb yb cb w ht ->
  exists s' r' u' x', enc_Preprocessor_InputData c s = Done true s' /\
    look (pSECComponent c) s' = inr r' /\ secDataBuffer r' = [u'; u1] /\ processData r' = [x'; x1] /\
    bytes_at s' (YVirAddr buf) 0 (w * ht) = bytes_at s (pBuffer h) (db_usedDataLen u0) (w * ht) /\
    bytes_at s' (CVirAddr buf) 0 (w * ht / 2) =
      bytes_at s (pBuffer h) (db_usedDataLen u0 + w * ht) (w * ht / 2) /\
    dataValid u' = true /\ db_bufferHeader u' = Some b /\
    db_usedDataLen u' = db_usedDataLen u0 + w * ht * 3 / 2 /\
    db_remainDataLen u' = db_remainDataLen u0 - w * ht * 3 / 2 /\
    pd_dataLen x' = w * ht * 3 / 2 /\ pd_timeStamp x' = db_timeStamp u0 /\
    has_flag (pd_nFlags x') OMX_BUFFERFLAG_EOS =
      (bSaveFlagEOS r || has_flag (db_nFlags u0) OMX_BUFFERFLAG_EOS)
        && (db_remainDataLen u0 =? w * ht * 3 / 2) /\
    callbacks s' = callbacks s /\ headers s' = headers s.
Proof.
  intros Hl Hports Hbufs Hdata Hready. pose proof (look_valid _ _ _ Hl) as Hv.
  edestruct picture_facts as (_ & Hps & Hle & Hru & _); [exact Hready|].
  set (w' := planes_copied s buf u0 sb yb cb w ht).
  assert (wp (fun _ => False) (enc_Preprocessor_InputData c (set_sec c r s)) (fun a s' => a = true /\
    s' = set_sec c (started true r<|secDataBuffer := [consumed (picture_size w ht) u0; u1]|>
           <|processData := [frame_data r u0 x0 w ht; x1]|><|bSaveFlagEOS := eos_kept r u0 w ht|>
           (frame_data r u0 x0 w ht)) w')) as Hwp.
  { eapply enc_Preprocessor_wp; [done..|].
    eapply (preprocess_picture_wp _ c s r p0 p1); [done..|]. eexists _, _, _, _. split; [reflexivity|].
    split; [fvalid|]. done. }
  rewrite set_sec_id in Hwp by done. apply wp_result in Hwp as (a & s' & Hrun & -> & ->).
  destruct Hready as [Hval Hheld _ Hsrc _ _ Hy Hc (Hne1 & Hne2 & Hne3) _ _ (? & ? & ? & ?) _ Hrest (Hx & _) [Hry Hrc]].
  assert (0 <= w * ht / 2 /\ w * ht <= w * ht * 3 / 2 /\ 0 <= w * ht + w * ht / 2 <= w * ht * 3 / 2) as (? & ? & ?)
    by (clear -H5; Z.to_euclidean_division_equations; lia).
  eexists _, _, _, _. split; [exact Hrun|]. split; [apply look_sec; fvalid|]. split; [done|]. split; [done|].
  unfold bytes_at. rewrite memory_set_sec, callbacks_set_sec, headers_set_sec. unfold zlength in *.
  unfold w', planes_copied. simpl. rewrite lookup_insert_eq, lookup_insert_ne, lookup_insert_eq, Hsrc by done.
  cbn [default id]. rewrite !drop_0. split_and!; try done.
  - by rewrite take_app_le, take_take, Nat.min_id by (rewrite length_take, length_drop; lia).
  - by rewrite take_app_le, take_take, Nat.min_id by (rewrite length_take, length_drop; lia).
  - apply u32_id. unfold is_u32, picture_size in *. lia.
  - apply u32_id. unfold is_u32, picture_size in *. lia.
  - rewrite Hx. apply u32_id. done.
  - unfold frame_data, eos_passed, eos_noted, picture_size. simpl. rewrite (Z.eqb_sym (db_remainDataLen u0)).
    rewrite (andb_comm (_ || _)). destruct (_ && _)%bool; [apply has_EOS_lor|apply has_EOS_clear].
Qed.

(** C12: the encoded frame reaches the client: unless it precedes the first frame after a seek,
    and if the client's buffer has room and does not overlap with what the codec reported,
    the client's buffer starts with exactly the bytes the codec reported, it goes to the client
    once, with their length, flags and time stamp, an end of stream is announced before it, and
    the thread is ready for the next buffer. *)
Theorem enc_Postprocess_delivers c s r p0 p1 u0 u1 x0 x1 cb b h d sb n :
  look (pSECComponent c) s = inr r -> pCallbacks r = Some cb -> unmarked r p0 p1 ->
  secDataBuffer r = [u0; u1] -> processData r = [x0; x1] -> no_pause r p0 p1 -> tunnelFlags p1 = 0 ->
  dataValid u1 = true -> db_bufferHeader u1 = Some b -> headers s !! b = Some h ->
  db_dataLen u1 = 0 -> db_remainDataLen u1 = 0 -> is_u32 (db_allocSize u1) ->
  enc_drop_output (checkTimeStamp r) x1 = false -> pd_remainDataLen x1 = n -> 0 < n < 2 ^ 31 -> n <= db_allocSize u1 ->
  memory s !! pBuffer h = Some d -> memory s !! pd_dataBuffer x1 = Some sb ->
  pBuffer h <> pd_dataBuffer x1 \/ n <= pd_usedDataLen x1 ->
  0 <= pd_usedDataLen x1 -> pd_usedDataLen x1 + n <= zlength sb -> n <= zlength d ->
  exists s' r' h', enc_Postprocess_OutputData c s = Done true s' /\
    look (pSECComponent c) s' = inr r' /\ processData r' = [x0; data_reset x1] /\
    secDataBuffer r' = [u0; databuffer_reset (delivered u1 x1)] /\
    headers s' = <[b := h']> (headers s) /\ pBuffer h' = pBuffer h /\ nFilledLen h' = n /\
    nFlags h' = pd_nFlags x1 /\ nTimeStamp h' = pd_timeStamp x1 /\
    bytes_at s' (pBuffer h) 0 n = bytes_at s (pd_dataBuffer x1) (pd_usedDataLen x1) n /\
    callbacks s' = callbacks s ++
      (if has_flag (pd_nFlags x1) OMX_BUFFERFLAG_EOS
       then [EventBufferFlag c OUTPUT_PORT_INDEX (pd_nFlags x1)] else []) ++ [FillBufferDone c b].
Proof.
  intros Hl Hcb (Hports & Hm & Hpm) Hbufs Hdata Hno Htun Hval Hb Hh Hlen Hrem Halloc Hdrop Hn Hpos Hfits
    Hd Hsb Happ Hused Hsrc Hdest.
  pose proof (look_valid _ _ _ Hl) as Hv.
  set (w := s<|memory ::= <[pBuffer h := take (Z.to_nat n) (drop (Z.to_nat (pd_usedDataLen x1)) sb) ++
                                          drop (Z.to_nat n) d]>|>).
  enough (wp (fun _ => False) (enc_Postprocess_OutputData c (set_sec c r s)) (fun e s' => e = true /\
    s' = set_sec c
      r<|checkTimeStamp := seen_start (checkTimeStamp r)|>
       <|secDataBuffer := [u0; databuffer_reset (delivered u1 x1)]|><|processData := [x0; data_reset x1]|>
      w<|headers ::= <[b := filled (delivered u1 x1) h]>|>
       <|callbacks ::= fun k => k ++ eos_event c (delivered u1 x1) ++ [FillBufferDone c b]|>)) as Hwp.
  { rewrite set_sec_id in Hwp by done. apply wp_result in Hwp as (e & s' & Hrun & -> & ->).
    eexists _, _, _. split; [exact Hrun|]. split; [apply look_sec; fvalid|].
    unfold bytes_at. rewrite headers_set_sec, memory_set_sec, callbacks_set_sec. simpl.
    rewrite lookup_insert_eq, Hsb. cbn [default id]. rewrite drop_0. unfold zlength in *.
    rewrite take_app_le, take_take, Nat.min_id by (rewrite length_take, length_drop; lia). done. }
  unfold enc_Postprocess_OutputData, SEC_DataReset. hsteps. rewrite Hval. cbn [negb]. hsteps. rewrite Hdrop. hsteps.
  rewrite Hlen, Z.sub_0_r, u32_id, Hn, (proj2 (Z.leb_le _ _)), (proj2 (Z.ltb_lt _ _)) by (done || lia).
  rewrite Hb. cbn [deref]. hsteps. eapply wp_Memcpy; [lia|lia|done|done|lia..|]. fold w.
  assert (valid c w) as Hvw by fvalid. hsteps. simpl.
  rewrite Hrem, Z.add_0_l, u32_id, (proj2 (Z.ltb_lt _ _)) by (unfold is_u32 in *; lia). cbn [orb].
  hsteps. eapply (OutputBufferReturn_wp _ c _ w p0 p1 u0 (delivered u1 x1) cb); try done.
  { unfold delivered, set_field. simpl. rewrite Hlen, Hrem, Z.add_0_l, Hn, u32_id by (unfold is_u32 in *; lia). done. }
Qed.

(** ** The last frame of a stream *)

(** The last buffer holds [db_remainDataLen u] bytes, less than a picture of the size [one]. *)
Record partial_frame (r : SEC_OMX_BASECOMPONENT) (p : SEC_OMX_BASEPORT) (u : SEC_OMX_DATABUFFER)
    (x : SEC_OMX_DATA) : Prop := {
  pf_valid : dataValid u = true;
  pf_format : read_in_place (eColorFormat (format_video (portDefinition p))) = true;
  pf_flags : bUseFlagEOF r = false /\ has_flag (db_nFlags u) OMX_BUFFERFLAG_ENDOFFRAME = false /\
             has_flag (db_nFlags u) OMX_BUFFERFLAG_EOS = true;
  pf_short : 0 < db_remainDataLen u < oneFrameSize (format_video (portDefinition p));
  pf_words : is_u32 (db_dataLen u) /\ is_u32 (db_remainDataLen u) /\ is_u32 (db_usedDataLen u);
  pf_fresh : pd_dataLen x = 0 /\ pd_remainDataLen x = 0 /\ is_u32 (pd_allocSize x);
  pf_seek : needSetStartTimeStamp (checkTimeStamp r) = false
}.

Definition empty_frame (u : SEC_OMX_DATABUFFER) (x : SEC_OMX_DATA) : SEC_OMX_DATA :=
  x<|pd_timeStamp := db_timeStamp u|><|pd_nFlags := clear_flag (db_nFlags u) OMX_BUFFERFLAG_EOS|>.

Lemma partial_frame_step c s r p0 p1 u0 u1 x0 x1 b h :
  look (pSECComponent c) s = inr r -> pSECPort r = Ptr [p0; p1] -> secDataBuffer r = [u0; u1] ->
  processData r = [x0; x1] -> db_bufferHeader u0 = Some b -> headers s !! b = Some h ->
  partial_frame r p0 u0 x0 ->
  enc_Preprocessor_InputData c s =
    Done true (set_sec c r<|bSaveFlagEOS := true|><|processData := [empty_frame u0 x0; x1]|> s).
Proof.
  intros Hl Hports Hbufs Hdata Hheld Hhdr [Hval Hfmt (Huf & Heof & Heos) Hshort (Hd & Hr & Hu) (Hx & Hxr & Hxa) Hseek].
  pose proof (look_valid _ _ _ Hl) as Hv.
  enough (wp (fun _ => False) (enc_Preprocessor_InputData c (set_sec c r s)) (fun e s' => e = true /\
    s' = set_sec c r<|bSaveFlagEOS := true|><|processData := [empty_frame u0 x0; x1]|> s)) as Hwp.
  { rewrite set_sec_id in Hwp by done. by apply wp_result in Hwp as (e & s' & -> & -> & ->). }
  unfold enc_Preprocessor_InputData. hsteps. rewrite Hval. unfold enc_preprocess_buffer. hsteps.
  rewrite Hheld. cbn [deref]. hsteps. rewrite Heof, Huf. hsteps.
  assert (r<|bUseFlagEOF := false || false|> = r) as ->.
  { clear -Huf. destruct r. simpl in Huf. by subst. }
  change (false || false)%bool with false. cbn match. hsteps. rewrite Hx. unfold find_frame.
  rewrite Z.eqb_refl, (proj2 (Z.leb_gt _ _)), Heos by lia. cbn [negb andb]. hsteps. rewrite Heos. hsteps.
  rewrite Z.sub_0_r, (u32_id (pd_allocSize x0)), (proj2 (Z.leb_le _ _)) by (unfold is_u32 in *; done || lia).
  cbn match. unfold enc_take_input. hsteps. rewrite Hfmt. cbn [negb andb]. hsteps.
  match goal with |- context [[?v; u1]] => assert (v = u0) as -> end.
  { unfold set_field. simpl. rewrite !Z.sub_0_r, Z.add_0_r, !u32_id by done. by destruct u0. }
  match goal with |- context [[?v; x1]] => assert (v = x0) as -> end.
  { unfold set_field. simpl. rewrite Hx, Hxr, !Z.add_0_r, !u32_id by done. clear -Hx Hxr. destruct x0. simpl in *. by subst. }
  unfold enc_settle_frame. hsteps. unfold enc_eos_flags. cbn [bUseFlagEOF bSaveFlagEOS set_field].
  rewrite Huf, (proj2 (Z.eqb_neq 0 _)) by lia. cbn [andb]. hsteps.
  rewrite (proj2 (Z.eqb_neq _ _)) by lia. hsteps. unfold note_start. hsteps. split; [done|].
  rewrite Hseek. replace (u0<|dataValid := true|>) with u0 by (clear -Hval; destruct u0; simpl in *; by subst).
  f_equal. unfold empty_frame. clear -Hbufs. destruct r. simpl in *. by subst.
Qed.

(** When the last buffer of a stream ends inside of a picture, and the codec reads the pictures
    where they are, the thread reports a frame of which nothing was taken and forgets the
    end-of-stream flag; the buffer is as before, so that the next call does the same: the
    buffer never goes back to the client and the end of the stream never reaches the codec. *)
Theorem encoder_repeats_partial_frame c s r p0 p1 u0 u1 x0 x1 b h :
  look (pSECComponent c) s = inr r -> pSECPort r = Ptr [p0; p1] -> secDataBuffer r = [u0; u1] ->
  processData r = [x0; x1] -> db_bufferHeader u0 = Some b -> headers s !! b = Some h ->
  partial_frame r p0 u0 x0 ->
  exists s' r' x', enc_Preprocessor_InputData c s = Done true s' /\
    enc_Preprocessor_InputData c s' = Done true s' /\
    look (pSECComponent c) s' = inr r' /\ secDataBuffer r' = [u0; u1] /\ processData r' = [x'; x1] /\
    pd_dataLen x' = 0 /\ pd_nFlags x' = clear_flag (db_nFlags u0) OMX_BUFFERFLAG_EOS /\
    callbacks s' = callbacks s.
Proof.
  intros Hl Hports Hbufs Hdata Hheld Hhdr Hpf. pose proof (look_valid _ _ _ Hl) as Hv.
  rewrite (partial_frame_step c s r p0 p1 u0 u1 x0 x1 b h) by done.
  set (r' := r<|bSaveFlagEOS := true|><|processData := [empty_frame u0 x0; x1]|>).
  assert (look (pSECComponent c) (set_sec c r' s) = inr r') as Hl' by by apply look_sec.
  eexists _, r', (empty_frame u0 x0). split; [done|]. split.
  - rewrite (partial_frame_step c (set_sec c r' s) r' p0 p1 u0 u1 (empty_frame u0 x0) x1 b h);
      [|done..|by rewrite headers_set_sec|by destruct Hpf].
    by rewrite set_sec_twice.
  - rewrite callbacks_set_sec. destruct Hpf as [_ _ _ _ _ (Hx & _) _]. done.
Qed.
End encoder_claims.

(** ** Instances *)

(** A build without the conversions in assembly. *)
Definition sample_encoder_build : EncoderBuild := {|
  USE_STOREMETADATA := false;
  USE_METADATABUFFERTYPE := false;
  csc_interleave_memcpy_neon := fun _ _ _ _ => ret tt;
  csc_ARGB8888_to_YUV420SP_NEON := fun _ _ _ _ _ => ret tt
|}.

Definition sample_input (format flags n : Z) : SEC_OMX_DATABUFFER * SEC_OMX_BASEPORT :=
  (databuffer_zero<|bufferMutex := Some false|><|dataValid := true|><|db_bufferHeader := Some 5%nat|>
     <|db_allocSize := 25|><|db_dataLen := n|><|db_usedDataLen := 2|><|db_remainDataLen := n|>
     <|db_nFlags := flags|><|db_timeStamp := 40000|>,
   (sample_port 0 OMX_DirInput [] [])<|portDefinition ::= fun d =>
     d<|format_video := video_zero<|nFrameWidth := 2|><|nFrameHeight := 2|><|eColorFormat := format|>|>|>).
Definition sample_encoder : SEC_OMX_VIDEOENC_COMPONENT :=
  videoenc_zero<|MFCEncInputBuffer := [mkEncInput 8192 12288]|>.
Definition sample_encoded : SEC_OMX_DATA :=
  data_zero<|pd_dataBuffer := 16384|><|pd_remainDataLen := 3|><|pd_nFlags := 1|><|pd_timeStamp := 40000|>.
Definition sample_collected : SEC_OMX_DATA := data_zero<|pd_allocSize := 64|>.

(** An executing encoder that holds buffer 5 of the input, for pictures of 2 by 2, and
    buffer 6 of the output. *)
Definition sample_encoding (format flags n : Z) : SEC_OMX_BASECOMPONENT :=
  (sample_component OMX_StateExecuting [] (sample_input format flags n).2 (sample_port 1 OMX_DirOutput [] []))
    <|secDataBuffer := [(sample_input format flags n).1; sample_out]|>
    <|processData := [sample_collected; sample_encoded]|>
    <|hComponentHandle := Ptr (VideoEnc sample_encoder)|>.
Definition sample_pictures : block := Some <$> [0; 0; 11; 12; 13; 14; 21; 22; 31; 32].
Definition sample_encode (format flags n : Z) : St :=
  (sample_state (sample_encoding format flags n)
     {[ 5%nat := sample_header 0 0; 6%nat := (sample_header 0 0)<|pBuffer := 20480|> ]})
    <|memory := {[ 4096 := sample_pictures; 8192 := replicate 8 None; 12288 := replicate 8 None;
                   16384 := Some <$> [7; 8; 9]; 20480 := replicate 4 None ]}|>.

Lemma encoder_takes_frame_witness :
  exists s' r' u' x',
    enc_Preprocessor_InputData (H := sample_env) (H0 := sample_media) (H1 := sample_encoder_build) 1
      (sample_encode OMX_COLOR_FormatYUV420SemiPlanar 0 8) = Done true s' /\
    look (pSECComponent 1) s' = inr r' /\ secDataBuffer r' = [u'; sample_out] /\
    processData r' = [x'; sample_encoded] /\
    bytes_at s' 8192 0 4 = Some <$> [11; 12; 13; 14] /\ bytes_at s' 12288 0 2 = Some <$> [21; 22] /\
    db_remainDataLen u' = 2 /\ pd_dataLen x' = 6.
Proof.
  destruct (encoder_takes_frame (H := sample_env) (H0 := sample_media) (H1 := sample_encoder_build) 1
    (sample_encode OMX_COLOR_FormatYUV420SemiPlanar 0 8) (sample_encoding OMX_COLOR_FormatYUV420SemiPlanar 0 8)
    (sample_input OMX_COLOR_FormatYUV420SemiPlanar 0 8).2 (sample_port 1 OMX_DirOutput [] [])
    sample_encoder (mkEncInput 8192 12288) (sample_input OMX_COLOR_FormatYUV420SemiPlanar 0 8).1 sample_out
    sample_collected sample_encoded 5 (sample_header 0 0) sample_pictures (replicate 8 None) (replicate 8 None) 2 2)
    as (s' & r' & u' & x' & Hrun & Hl & Hb & Hd & Hy & Hc & _ & _ & _ & Hn & Hx & _);
    [reflexivity..|split; repeat split; reflexivity || discriminate|].
  exists s', r', u', x'. split; [exact Hrun|]. split; [exact Hl|]. split; [exact Hb|]. split; [exact Hd|].
  split; [exact Hy|]. split; [exact Hc|]. by split; [rewrite Hn|rewrite Hx].
Defined.

Lemma enc_Postprocess_delivers_witness :
  exists s' r',
    enc_Postprocess_OutputData (H := sample_env) 1 (sample_encode OMX_COLOR_FormatYUV420SemiPlanar 0 8) = Done true s' /\
    look (pSECComponent 1) s' = inr r' /\ processData r' = [sample_collected; data_reset sample_encoded] /\
    bytes_at s' 20480 0 3 = Some <$> [7; 8; 9] /\
    callbacks s' = [EventBufferFlag 1 OUTPUT_PORT_INDEX 1; FillBufferDone 1 6].
Proof.
  destruct (enc_Postprocess_delivers (H := sample_env) 1
    (sample_encode OMX_COLOR_FormatYUV420SemiPlanar 0 8) (sample_encoding OMX_COLOR_FormatYUV420SemiPlanar 0 8)
    (sample_input OMX_COLOR_FormatYUV420SemiPlanar 0 8).2 (sample_port 1 OMX_DirOutput [] [])
    (sample_input OMX_COLOR_FormatYUV420SemiPlanar 0 8).1 sample_out sample_collected sample_encoded
    0 6 ((sample_header 0 0)<|pBuffer := 20480|>) (replicate 4 None) (Some <$> [7; 8; 9]) 3)
    as (s' & r' & h' & Hrun & Hl & Hd & _ & _ & _ & _ & _ & _ & Hbytes & Hk); try done.
  - by left.
  - by left.
  - exists s', r'. change 20480 with (pBuffer (sample_header 0 0)<|pBuffer := 20480|>). by rewrite Hbytes, Hk.
Defined.

(** The codec is offered an empty frame for the last byte of the stream, again and again. *)
Lemma encoder_repeats_partial_frame_witness :
  exists s' r' x',
    enc_Preprocessor_InputData (H := sample_env) (H0 := sample_media) (H1 := sample_encoder_build) 1
      (sample_encode OMX_SEC_COLOR_FormatNV12LPhysicalAddress 1 3) = Done true s' /\
    enc_Preprocessor_InputData (H := sample_env) (H0 := sample_media) (H1 := sample_encoder_build) 1 s' = Done true s' /\
    look (pSECComponent 1) s' = inr r' /\ processData r' = [x'; sample_encoded] /\
    pd_dataLen x' = 0 /\ pd_nFlags x' = 0 /\ callbacks s' = [].
Proof.
  destruct (encoder_repeats_partial_frame (H := sample_env) (H0 := sample_media) (H1 := sample_encoder_build) 1
    (sample_encode OMX_SEC_COLOR_FormatNV12LPhysicalAddress 1 3) (sample_encoding OMX_SEC_COLOR_FormatNV12LPhysicalAddress 1 3)
    (sample_input OMX_SEC_COLOR_FormatNV12LPhysicalAddress 1 3).2 (sample_port 1 OMX_DirOutput [] [])
    (sample_input OMX_SEC_COLOR_FormatNV12LPhysicalAddress 1 3).1 sample_out sample_collected sample_encoded
    5 (sample_header 0 0)) as (s' & r' & x' & Hrun & Hrun' & Hl & _ & Hd & Hx & Hf & Hk);
    [reflexivity..|split; repeat split; reflexivity || discriminate|].
  exists s', r', x'. split; [exact Hrun|]. split; [exact Hrun'|]. split; [exact Hl|]. split; [exact Hd|].
  rewrite Hx, Hf, Hk. repeat split; reflexivity.
Defined.

(** A picture of which the client sent the first three bytes in the buffer before: the thread
    charges this buffer with the other three, but copies the whole picture from it, so that
    the codec sees none of the first buffer and three bytes of this one in two pictures. *)
Definition sample_half_sent : St :=
  let s := sample_encode OMX_COLOR_FormatYUV420SemiPlanar 0 8 in
  set_sec 1 (sample_encoding OMX_COLOR_FormatYUV420SemiPlanar 0 8)
    <|processData := [sample_collected<|pd_dataLen := 3|><|pd_remainDataLen := 3|>; sample_encoded]|> s.
Lemma split_picture_copied_from_last_buffer :
  match enc_Preprocessor_InputData (H := sample_env) (H0 := sample_media) (H1 := sample_encoder_build) 1
          sample_half_sent with
  | Done true s' =>
      bytes_at s' 8192 0 4 = Some <$> [11; 12; 13; 14] /\ bytes_at s' 12288 0 2 = Some <$> [21; 22] /\
      match look (databuffer 1 INPUT_PORT_INDEX) s' with
      | inr u => bytes_at s' 4096 (db_usedDataLen u) (db_remainDataLen u) = Some <$> [14; 21; 22; 31; 32]
      | inl _ => False
      end
  | _ => False
  end.
Proof. vm_compute. repeat split. Qed.
