(* ===== verification/VencComponent.v ===== *)
(** * The video encoder component: parameters, configuration, construction

    Models the rest of [component/video/enc/SEC_OMX_Venc.c]: what a client configures of an
    encoder (bit rate, quantization, intra refresh, formats), the port definition whose frame
    size follows to the output port, and [SEC_OMX_VideoEncodeComponentInit] and [Deinit].  The
    steps both video components share are those of [VdecComponent]. *)
From S2P Require Import Prelude Machine Bytes OmxEnums OsalSync OsalQueue OmxTypes OmxState Focus.
From S2P Require Import PortFocus OmxMemory Samples ResourceManager BasePort BaseComponent VdecBuffers AndroidBuffers.
From S2P Require Import VdecComponent VdecProcess VencProcess.

(** ** Constants of [SEC_OMX_Venc.h] *)
Definition enc_MAX_VIDEO_INPUTBUFFER_NUM : Z := 5.
Definition enc_MAX_VIDEO_OUTPUTBUFFER_NUM : Z := 4.
Definition enc_DEFAULT_VIDEO_OUTPUT_BUFFER_SIZE : Z :=
  ALIGN_TO_8KB (u32 (ALIGN_TO_128B DEFAULT_FRAME_WIDTH * ALIGN_TO_32B DEFAULT_FRAME_HEIGHT))
  + ALIGN_TO_8KB (u32 (ALIGN_TO_128B DEFAULT_FRAME_WIDTH * ALIGN_TO_32B (DEFAULT_FRAME_HEIGHT / 2))).
Definition enc_INPUT_PORT_SUPPORTFORMAT_NUM_MAX : Z := 7.
Definition enc_OUTPUT_PORT_SUPPORTFORMAT_NUM_MAX : Z := 1.
Definition MAX_INPUT_METADATA_BUFFER_SIZE : Z := 64.
Definition OMX_Video_ControlRateDisable : Z := 0.
Definition OMX_VIDEO_IntraRefreshCyclic : Z := 0.
Definition SEC_INDEX_PARAM_STORE_METADATA_BUFFER : string := "OMX.google.android.index.storeMetaDataInBuffers".

(** The size of a structure that only the encoder checks. *)
Class EncoderSizes := { sizeof_INTRAREFRESHTYPE : Z }.

Section venc.
Context `{Env} `{ComponentOps} `{AndroidMedia} `{VideoSizes} `{EncoderBuild} `{EncoderSizes}.

(** ** Parameters *)

(** The colour formats of the input port, by [nIndex]. *)
Definition input_format (index : Z) : Z :=
  match index with
  | 0 => OMX_COLOR_FormatYUV420Planar
  | 1 => OMX_SEC_COLOR_FormatNV12TPhysicalAddress
  | 2 => OMX_SEC_COLOR_FormatNV12LPhysicalAddress
  | 3 => OMX_COLOR_FormatYUV420SemiPlanar
  | 4 => OMX_SEC_COLOR_FormatNV12Tiled
  | 5 => OMX_SEC_COLOR_FormatNV12LVirtualAddress
  | _ => OMX_COLOR_FormatAndroidOpaque
  end.

(** Indices without a case of their own go to the base component. *)
Definition base_get_parameter (c : nat) (i : OMX_INDEXTYPE) (param : omx_param) : M St (OMX_ERRORTYPE * omx_param) :=
  let* '(e, a) := SEC_OMX_GetParameter (Some c) i (Some param) in
  ret (e, match a with Some a => a | None => param end).

Definition venc_get_parameter (c : nat) (nParamIndex : OMX_INDEXTYPE) (param : omx_param)
  : M St (OMX_ERRORTYPE * omx_param) :=
  match nParamIndex with
  | OMX_IndexParamVideoInit =>
      match param with
      | ParamPort p =>
          let e := SEC_OMX_Check_SizeVersion (Some (pp_header p)) sizeof_PORT_PARAM_TYPE in
          if is_err e then ret (e, param)
          else
            let* pp := load (pSECComponent c)↘portParam in
            ret (OMX_ErrorNone,
                 ParamPort p<|nPorts := nPorts pp|><|nStartPortNumber := nStartPortNumber pp|>)
      | _ => fail BadCast
      end
  | OMX_IndexParamVideoPortFormat =>
      match param with
      | ParamVideoPortFormat f =>
          let portIndex := pf_nPortIndex f in
          let index := pf_nIndex f in
          let e := SEC_OMX_Check_SizeVersion (Some (pf_header f)) sizeof_PORTFORMATTYPE in
          if is_err e then ret (e, param)
          else
            let* ports := load (pSECComponent c)↘portParam↘nPorts in
            if ports <=? portIndex then ret (OMX_ErrorBadPortIndex, param)
            else if portIndex =? INPUT_PORT_INDEX then
              if enc_INPUT_PORT_SUPPORTFORMAT_NUM_MAX - 1 <? index then ret (OMX_ErrorNoMore, param)
              else
                let* d := load (port c INPUT_PORT_INDEX)↘portDefinition in
                ret (OMX_ErrorNone, ParamVideoPortFormat
                  f<|pf_eCompressionFormat := OMX_VIDEO_CodingUnused|>
                   <|pf_eColorFormat := input_format index|>
                   <|pf_xFramerate := xFramerate (format_video d)|>)
            else if portIndex =? OUTPUT_PORT_INDEX then
              if enc_OUTPUT_PORT_SUPPORTFORMAT_NUM_MAX - 1 <? index then ret (OMX_ErrorNoMore, param)
              else
                let* d := load (port c OUTPUT_PORT_INDEX)↘portDefinition in
                ret (OMX_ErrorNone, ParamVideoPortFormat
                  f<|pf_eCompressionFormat := eCompressionFormat (format_video d)|>
                   <|pf_eColorFormat := eColorFormat (format_video d)|>
                   <|pf_xFramerate := xFramerate (format_video d)|>)
            else ret (OMX_ErrorNone, param)
      | _ => fail BadCast
      end
  | OMX_IndexParamVideoBitrate =>
      match param with
      | ParamBitrate b =>
          if negb (br_nPortIndex b =? OUTPUT_PORT_INDEX) then ret (OMX_ErrorBadPortIndex, param)
          else
            let* rate := load (cell (encoder c)↘eControlRate (br_nPortIndex b)) in
            let* d := load (port c (br_nPortIndex b))↘portDefinition in
            ret (OMX_ErrorNone, ParamBitrate (mkBitrate (br_nPortIndex b) rate (nBitrate (format_video d))))
      | _ => fail BadCast
      end
  | OMX_IndexParamVideoQuantization =>
      match param with
      | ParamQuantization portIndex _ =>
          if negb (portIndex =? OUTPUT_PORT_INDEX) then ret (OMX_ErrorBadPortIndex, param)
          else
            let* q := load (encoder c)↘quantization in
            ret (OMX_ErrorNone, ParamQuantization portIndex q)
      | _ => fail BadCast
      end
  | OMX_IndexParamPortDefinition =>
      match param with
      | ParamPortDefinition d =>
          let portIndex := nPortIndex d in
          let* ports := load (pSECComponent c)↘portParam↘nPorts in
          if ports <=? portIndex then ret (OMX_ErrorBadPortIndex, param)
          else
            let e := SEC_OMX_Check_SizeVersion (Some (pd_header d)) sizeof_PORTDEFINITIONTYPE in
            if is_err e then ret (e, param)
            else
              let* p := load (port c portIndex) in
              let d := portDefinition p in
              ret (OMX_ErrorNone, ParamPortDefinition
                (if (USE_STOREMETADATA && (portIndex =? 0) && bStoreMetaData p
                     && negb (eColorFormat (format_video d) =? OMX_SEC_COLOR_FormatNV12LVirtualAddress))%bool
                 then d<|nBufferSize := MAX_INPUT_METADATA_BUFFER_SIZE|> else d))
      | _ => fail BadCast
      end
  | OMX_IndexParamVideoIntraRefresh =>
      match param with
      | ParamIntraRefresh p =>
          let e := SEC_OMX_Check_SizeVersion (Some (ir_header p)) sizeof_INTRAREFRESHTYPE in
          if is_err e then ret (e, param)
          else if negb (ir_nPortIndex p =? OUTPUT_PORT_INDEX) then ret (OMX_ErrorBadPortIndex, param)
          else
            let* ir := load (encoder c)↘intraRefresh in
            ret (OMX_ErrorNone, ParamIntraRefresh
              p<|ir_eRefreshMode := eRefreshMode ir|><|ir_nAirMBs := nAirMBs ir|>
               <|ir_nAirRef := nAirRef ir|><|ir_nCirMBs := nCirMBs ir|>)
      | _ => fail BadCast
      end
  | _ => base_get_parameter c nParamIndex param
  end.
Definition SEC_OMX_VideoEncodeGetParameter (hComponent : option nat) (nParamIndex : OMX_INDEXTYPE)
    (param : option omx_param) : M St (OMX_ERRORTYPE * option omx_param) :=
  state_entry hComponent param (fun c a => venc_get_parameter c nParamIndex a).

(** [OMX_IndexParamPortDefinition]: a definition of the input port also gives the output port
    its frame size. *)
Definition enc_set_port_definition (c : nat) (d : OMX_PARAM_PORTDEFINITIONTYPE) : M St OMX_ERRORTYPE :=
  let portIndex := nPortIndex d in
  let* r := load (pSECComponent c) in
  if nPorts (portParam r) <=? portIndex then ret OMX_ErrorBadPortIndex
  else
    let e := SEC_OMX_Check_SizeVersion (Some (pd_header d)) sizeof_PORTDEFINITIONTYPE in
    if is_err e then ret e
    else
      let* p := load (port c portIndex) in
      if (is_running (currentState r) && bEnabled (portDefinition p))%bool
      then ret OMX_ErrorIncorrectStateOperation
      else if nBufferCountActual d <? nBufferCountMin (portDefinition p) then ret OMX_ErrorBadParameter
      else
        store (port c portIndex)↘portDefinition d ;;;
        (if portIndex =? INPUT_PORT_INDEX then enc_UpdateFrameSize c else ret tt) ;;;
        ret OMX_ErrorNone.

Definition venc_set_parameter (c : nat) (nIndex : OMX_INDEXTYPE) (param : omx_param)
  : M St (OMX_ERRORTYPE * omx_param) :=
  match nIndex with
  | OMX_IndexParamVideoPortFormat =>
      (* the same statements as in the decoder *)
      vdec_set_parameter c OMX_IndexParamVideoPortFormat param
  | OMX_IndexParamVideoBitrate =>
      match param with
      | ParamBitrate b =>
          if negb (br_nPortIndex b =? OUTPUT_PORT_INDEX) then ret (OMX_ErrorBadPortIndex, param)
          else
            store (cell (encoder c)↘eControlRate (br_nPortIndex b)) (br_eControlRate b) ;;;
            store (port c (br_nPortIndex b))↘portDefinition↘format_video↘nBitrate (br_nTargetBitrate b) ;;;
            ret (OMX_ErrorNone, param)
      | _ => fail BadCast
      end
  | OMX_IndexParamVideoQuantization =>
      match param with
      | ParamQuantization portIndex q =>
          if negb (portIndex =? OUTPUT_PORT_INDEX) then ret (OMX_ErrorBadPortIndex, param)
          else store (encoder c)↘quantization q ;;; ret (OMX_ErrorNone, param)
      | _ => fail BadCast
      end
  | OMX_IndexParamPortDefinition =>
      match param with
      | ParamPortDefinition d => let* e := enc_set_port_definition c d in ret (e, param)
      | _ => fail BadCast
      end
  | OMX_IndexParamStoreMetaDataBuffer =>
      if USE_STOREMETADATA then
        let* '(e, a) := SEC_OSAL_SetANBParameter (Some c) nIndex (Some param) in
        ret (e, match a with Some a => a | None => param end)
      else let* e := SEC_OMX_SetParameter (Some c) nIndex (Some param) in ret (e, param)
  | OMX_IndexParamVideoIntraRefresh =>
      match param with
      | ParamIntraRefresh p =>
          let e := SEC_OMX_Check_SizeVersion (Some (ir_header p)) sizeof_INTRAREFRESHTYPE in
          if is_err e then ret (e, param)
          else if negb (ir_nPortIndex p =? OUTPUT_PORT_INDEX) then ret (OMX_ErrorBadPortIndex, param)
          else if ir_eRefreshMode p =? OMX_VIDEO_IntraRefreshCyclic then
            update (encoder c)↘intraRefresh (fun ir =>
              ir<|eRefreshMode := ir_eRefreshMode p|><|nCirMBs := ir_nCirMBs p|>) ;;;
            ret (OMX_ErrorNone, param)
          else ret (OMX_ErrorUnsupportedSetting, param)
      | _ => fail BadCast
      end
  | _ => let* e := SEC_OMX_SetParameter (Some c) nIndex (Some param) in ret (e, param)
  end.
Definition SEC_OMX_VideoEncodeSetParameter (hComponent : option nat) (nIndex : OMX_INDEXTYPE)
    (param : option omx_param) : M St (OMX_ERRORTYPE * option omx_param) :=
  state_entry hComponent param (fun c a => venc_set_parameter c nIndex a).

(** ** Configuration *)
Definition config_entry (hComponent : option nat) (config : option omx_param)
    (body : nat -> omx_param -> M St (OMX_ERRORTYPE * omx_param)) : M St (OMX_ERRORTYPE * option omx_param) :=
  match hComponent, config with
  | Some _, Some _ => state_entry hComponent config body
  | _, _ => ret (OMX_ErrorBadParameter, config)
  end.

(** The default case of both functions. *)
Definition base_config (c : nat) (nIndex : OMX_INDEXTYPE) (config : omx_param) : M St (OMX_ERRORTYPE * omx_param) :=
  let* e := SEC_OMX_SetConfig (Some c) nIndex (Some config) in ret (e, config).

Definition venc_get_config (c : nat) (nIndex : OMX_INDEXTYPE) (config : omx_param) : M St (OMX_ERRORTYPE * omx_param) :=
  match nIndex with
  | OMX_IndexConfigVideoBitrate =>
      match config with
      | ConfigBitrate portIndex _ =>
          if negb (portIndex =? OUTPUT_PORT_INDEX) then ret (OMX_ErrorBadPortIndex, config)
          else
            let* d := load (port c portIndex)↘portDefinition in
            ret (OMX_ErrorNone, ConfigBitrate portIndex (nBitrate (format_video d)))
      | _ => fail BadCast
      end
  | OMX_IndexConfigVideoFramerate =>
      match config with
      | ConfigFramerate portIndex _ =>
          if negb (portIndex =? OUTPUT_PORT_INDEX) then ret (OMX_ErrorBadPortIndex, config)
          else
            let* d := load (port c portIndex)↘portDefinition in
            ret (OMX_ErrorNone, ConfigFramerate portIndex (xFramerate (format_video d)))
      | _ => fail BadCast
      end
  | _ => base_config c nIndex config
  end.
Definition SEC_OMX_VideoEncodeGetConfig (hComponent : option nat) (nIndex : OMX_INDEXTYPE)
    (config : option omx_param) : M St (OMX_ERRORTYPE * option omx_param) :=
  config_entry hComponent config (fun c a => venc_get_config c nIndex a).

Definition venc_set_config (c : nat) (nIndex : OMX_INDEXTYPE) (config : omx_param) : M St (OMX_ERRORTYPE * omx_param) :=
  match nIndex with
  | OMX_IndexConfigVideoBitrate =>
      match config with
      | ConfigBitrate portIndex rate =>
          if negb (portIndex =? OUTPUT_PORT_INDEX) then ret (OMX_ErrorBadPortIndex, config)
          else
            store (port c portIndex)↘portDefinition↘format_video↘nBitrate rate ;;; ret (OMX_ErrorNone, config)
      | _ => fail BadCast
      end
  | OMX_IndexConfigVideoFramerate =>
      match config with
      | ConfigFramerate portIndex rate =>
          if negb (portIndex =? OUTPUT_PORT_INDEX) then ret (OMX_ErrorBadPortIndex, config)
          else
            store (port c portIndex)↘portDefinition↘format_video↘xFramerate rate ;;; ret (OMX_ErrorNone, config)
      | _ => fail BadCast
      end
  | OMX_IndexConfigVideoIntraVOPRefresh =>
      match config with
      | ConfigIntraVOP portIndex vop =>
          if negb (portIndex =? OUTPUT_PORT_INDEX) then ret (OMX_ErrorBadPortIndex, config)
          else store (encoder c)↘IntraRefreshVOP vop ;;; ret (OMX_ErrorNone, config)
      | _ => fail BadCast
      end
  | _ => base_config c nIndex config
  end.
Definition SEC_OMX_VideoEncodeSetConfig (hComponent : option nat) (nIndex : OMX_INDEXTYPE)
    (config : option omx_param) : M St (OMX_ERRORTYPE * option omx_param) :=
  config_entry hComponent config (fun c a => venc_set_config c nIndex a).

Definition SEC_OMX_VideoEncodeGetExtensionIndex (hComponent : option nat) (cParameterName : option string)
    (pIndexType : bool) : M St (OMX_ERRORTYPE * option OMX_INDEXTYPE) :=
  entry_out hComponent None (fun c =>
    match cParameterName with
    | None => ret (OMX_ErrorBadParameter, None)
    | Some name =>
        if negb pIndexType then ret (OMX_ErrorBadParameter, None)
        else
          let* st := load (pSECComponent c)↘currentState in
          if bool_decide (st = OMX_StateInvalid) then ret (OMX_ErrorInvalidState, None)
          else if (USE_STOREMETADATA && bool_decide (name = SEC_INDEX_PARAM_STORE_METADATA_BUFFER))%bool
          then ret (OMX_ErrorNone, Some OMX_IndexParamStoreMetaDataBuffer)
          else
            let* e := SEC_OMX_GetExtensionIndex (Some c) cParameterName pIndexType in
            ret (e, None)
    end).

(** ** Construction and destruction *)
Definition SEC_OMX_VideoEncodeComponentInit (hComponent : option nat) : M St OMX_ERRORTYPE :=
  match hComponent with
  | None => ret OMX_ErrorBadParameter
  | Some c =>
      let* k := load (component c) in
      let r := SEC_OMX_Check_SizeVersion (Some (comp_header k)) sizeof_COMPONENTTYPE in
      if is_err r then ret r
      else
        let* r := SEC_OMX_BaseComponent_Constructor (Some c) in
        if is_err r then ret r
        else
          let* r := SEC_OMX_Port_Constructor (Some c) in
          if is_err r then SEC_OMX_BaseComponent_Destructor (Some c) ;;; ret r
          else
            let* ok := os_call in
            if negb ok then
              SEC_OMX_BaseComponent_Destructor (Some c) ;;; ret OMX_ErrorInsufficientResources
            else
              store (pSECComponent c)↘hComponentHandle (Ptr (VideoEnc videoenc_zero)) ;;;
              store (pSECComponent c)↘bSaveFlagEOS false ;;;
              update (encoder c) (fun e =>
                e<|configChange := false|><|quantization := mkQuantization 20 20 20|>) ;;;
              init_video_port c INPUT_PORT_INDEX enc_MAX_VIDEO_INPUTBUFFER_NUM 0 ;;;
              store (cell (encoder c)↘eControlRate INPUT_PORT_INDEX) OMX_Video_ControlRateDisable ;;;
              store (port c INPUT_PORT_INDEX)↘bStoreMetaData false ;;;
              init_video_port c OUTPUT_PORT_INDEX enc_MAX_VIDEO_OUTPUTBUFFER_NUM
                enc_DEFAULT_VIDEO_OUTPUT_BUFFER_SIZE ;;;
              store (cell (encoder c)↘eControlRate OUTPUT_PORT_INDEX) OMX_Video_ControlRateDisable ;;;
              ret OMX_ErrorNone
  end.

Definition SEC_OMX_VideoEncodeComponentDeinit (hComponent : option nat) : M St OMX_ERRORTYPE :=
  SEC_OMX_VideoDecodeComponentDeinit hComponent.
End venc.

(** ** The settings of an encoder

    What the client configures, apart from the formats: the specification of the functions
    above for the indices that only an encoder has. *)
Record enc_settings := mkSettings {
  st_controlRate : Z;
  st_bitrate : Z;
  st_framerate : Z;
  st_quantization : quantization_t;
  st_intraRefresh : intra_refresh_t;
  st_intraVOP : bool
}.
#[export] Instance enc_settings_eta : RecEta enc_settings := fun r =>
  mkSettings (st_controlRate r) (st_bitrate r) (st_framerate r) (st_quantization r) (st_intraRefresh r)
    (st_intraVOP r).

Inductive enc_request :=
| SetBitrate (controlRate target : Z)
| SetQuantization (q : quantization_t)
| SetIntraRefresh (p : OMX_VIDEO_PARAM_INTRAREFRESHTYPE)
| ConfigureBitrate (rate : Z)
| ConfigureFramerate (rate : Z)
| ConfigureIntraVOP (vop : bool).

Section settings.
Context `{Env} `{ComponentOps} `{AndroidMedia} `{VideoSizes} `{EncoderBuild} `{EncoderSizes}.

(** What a request does; only the cyclic intra refresh is accepted, and of it only the number
    of macroblocks. *)
Definition answer (st : enc_settings) (q : enc_request) : OMX_ERRORTYPE * enc_settings :=
  match q with
  | SetBitrate rate target => (OMX_ErrorNone, st<|st_controlRate := rate|><|st_bitrate := target|>)
  | SetQuantization q => (OMX_ErrorNone, st<|st_quantization := q|>)
  | SetIntraRefresh p =>
      let e := SEC_OMX_Check_SizeVersion (Some (ir_header p)) sizeof_INTRAREFRESHTYPE in
      if is_err e then (e, st)
      else if negb (ir_nPortIndex p =? OUTPUT_PORT_INDEX) then (OMX_ErrorBadPortIndex, st)
      else if ir_eRefreshMode p =? OMX_VIDEO_IntraRefreshCyclic
      then (OMX_ErrorNone, st<|st_intraRefresh ::= fun ir =>
              ir<|eRefreshMode := ir_eRefreshMode p|><|nCirMBs := ir_nCirMBs p|>|>)
      else (OMX_ErrorUnsupportedSetting, st)
  | ConfigureBitrate rate => (OMX_ErrorNone, st<|st_bitrate := rate|>)
  | ConfigureFramerate rate => (OMX_ErrorNone, st<|st_framerate := rate|>)
  | ConfigureIntraVOP vop => (OMX_ErrorNone, st<|st_intraVOP := vop|>)
  end.

(** The call of the client. *)
Definition issue (c : nat) (q : enc_request) : M St OMX_ERRORTYPE :=
  let* '(e, _) := match q with
    | SetBitrate rate target =>
        SEC_OMX_VideoEncodeSetParameter (Some c) OMX_IndexParamVideoBitrate
          (Some (ParamBitrate (mkBitrate OUTPUT_PORT_INDEX rate target)))
    | SetQuantization q =>
        SEC_OMX_VideoEncodeSetParameter (Some c) OMX_IndexParamVideoQuantization
          (Some (ParamQuantization OUTPUT_PORT_INDEX q))
    | SetIntraRefresh p =>
        SEC_OMX_VideoEncodeSetParameter (Some c) OMX_IndexParamVideoIntraRefresh (Some (ParamIntraRefresh p))
    | ConfigureBitrate rate =>
        SEC_OMX_VideoEncodeSetConfig (Some c) OMX_IndexConfigVideoBitrate
          (Some (ConfigBitrate OUTPUT_PORT_INDEX rate))
    | ConfigureFramerate rate =>
        SEC_OMX_VideoEncodeSetConfig (Some c) OMX_IndexConfigVideoFramerate
          (Some (ConfigFramerate OUTPUT_PORT_INDEX rate))
    | ConfigureIntraVOP vop =>
        SEC_OMX_VideoEncodeSetConfig (Some c) OMX_IndexConfigVideoIntraVOPRefresh
          (Some (ConfigIntraVOP OUTPUT_PORT_INDEX vop))
    end in
  ret e.
Fixpoint issue_all (c : nat) (qs : list enc_request) : M St (list OMX_ERRORTYPE) :=
  match qs with
  | [] => ret []
  | q :: qs => let* e := issue c q in let* es := issue_all c qs in ret (e :: es)
  end.
Fixpoint answers (st : enc_settings) (qs : list enc_request) : list OMX_ERRORTYPE * enc_settings :=
  match qs with
  | [] => ([], st)
  | q :: qs => let '(e, st) := answer st q in let '(es, st) := answers st qs in (e :: es, st)
  end.

(** The encoder [c] has the settings [st]. *)
Record configured (c : nat) (st : enc_settings) (s : St) (r : SEC_OMX_BASECOMPONENT) (p0 p1 : SEC_OMX_BASEPORT)
    (e : SEC_OMX_VIDEOENC_COMPONENT) (rate0 : Z) : Prop := {
  cf_live : live c s;
  cf_look : look (pSECComponent c) s = inr r;
  cf_state : currentState r <> OMX_StateInvalid;
  cf_ports : pSECPort r = Ptr [p0; p1];
  cf_handle : hComponentHandle r = Ptr (VideoEnc e);
  cf_rates : eControlRate e = [rate0; st_controlRate st];
  cf_bitrate : nBitrate (format_video (portDefinition p1)) = st_bitrate st;
  cf_framerate : xFramerate (format_video (portDefinition p1)) = st_framerate st;
  cf_quantization : quantization e = st_quantization st;
  cf_intra : intraRefresh e = st_intraRefresh st;
  cf_vop : IntraRefreshVOP e = st_intraVOP st
}.
Definition has_settings (c : nat) (st : enc_settings) (s : St) : Prop :=
  exists r p0 p1 e rate0, configured c st s r p0 p1 e rate0.

(** What the client reads, and that reading changes nothing. *)
Definition reports (c : nat) (st : enc_settings) (s : St) : Prop :=
  (forall a b, SEC_OMX_VideoEncodeGetParameter (Some c) OMX_IndexParamVideoBitrate
     (Some (ParamBitrate (mkBitrate OUTPUT_PORT_INDEX a b))) s =
     Done (OMX_ErrorNone, Some (ParamBitrate (mkBitrate OUTPUT_PORT_INDEX (st_controlRate st) (st_bitrate st)))) s) /\
  (forall q, SEC_OMX_VideoEncodeGetParameter (Some c) OMX_IndexParamVideoQuantization
     (Some (ParamQuantization OUTPUT_PORT_INDEX q)) s =
     Done (OMX_ErrorNone, Some (ParamQuantization OUTPUT_PORT_INDEX (st_quantization st))) s) /\
  (forall p, SEC_OMX_Check_SizeVersion (Some (ir_header p)) sizeof_INTRAREFRESHTYPE = OMX_ErrorNone ->
     ir_nPortIndex p = OUTPUT_PORT_INDEX ->
     SEC_OMX_VideoEncodeGetParameter (Some c) OMX_IndexParamVideoIntraRefresh (Some (ParamIntraRefresh p)) s =
     Done (OMX_ErrorNone, Some (ParamIntraRefresh
       (let ir := st_intraRefresh st in
        mkIntraParam (ir_header p) OUTPUT_PORT_INDEX (eRefreshMode ir) (nAirMBs ir) (nAirRef ir) (nCirMBs ir)))) s) /\
  (forall a, SEC_OMX_VideoEncodeGetConfig (Some c) OMX_IndexConfigVideoBitrate
     (Some (ConfigBitrate OUTPUT_PORT_INDEX a)) s =
     Done (OMX_ErrorNone, Some (ConfigBitrate OUTPUT_PORT_INDEX (st_bitrate st))) s) /\
  (forall a, SEC_OMX_VideoEncodeGetConfig (Some c) OMX_IndexConfigVideoFramerate
     (Some (ConfigFramerate OUTPUT_PORT_INDEX a)) s =
     Done (OMX_ErrorNone, Some (ConfigFramerate OUTPUT_PORT_INDEX (st_framerate st))) s).
End settings.

Ltac enc_get := unfold port_get, port_put, cell_get; simpl;
  repeat match goal with
  | H : pSECPort ?r = _ |- context [pSECPort ?r] => rewrite H; simpl
  | H : hComponentHandle ?r = _ |- context [hComponentHandle ?r] => rewrite H; simpl
  | H : eControlRate ?r = _ |- context [eControlRate ?r] => rewrite H; simpl
  end; rewrite ?zinsert_0, ?zinsert_1; collapse; reflexivity.
Ltac estep :=
  lazymatch goal with
  | |- wp _ (bind _ _ _) _ => apply wp_bind
  | |- wp _ (ret _ _) _ => apply wp_ret
  | |- wp _ (load _ (set_sec _ _ _)) _ => eapply wp_load; [apply _|fvalid|enc_get|]
  | |- wp _ (store _ _ (set_sec _ _ _)) _ => eapply wp_store; [apply _|fvalid|enc_get|enc_get|]
  | |- wp _ (update _ _ (set_sec _ _ _)) _ => eapply wp_update; [apply _|fvalid|enc_get|enc_get|]
  end; cbv beta.

(** The settings after a step, read off the new component. *)
Ltac settle := eexists _, _, _, _, _; split;
  [by apply live_set_sec|by apply look_sec|done|simpl; first [reflexivity|eassumption]|simpl; first [reflexivity|eassumption]
  |simpl; first [reflexivity|eassumption]|simpl; congruence..].

Section refinement.
Context `{Env} `{ComponentOps} `{AndroidMedia} `{VideoSizes} `{EncoderBuild} `{EncoderSizes}.

Lemma enc_set_runs c s r (e : OMX_ERRORTYPE) (body : nat -> omx_param -> M St (OMX_ERRORTYPE * omx_param)) a (Q : St -> Prop) :
  live c s -> look (pSECComponent c) s = inr r -> currentState r <> OMX_StateInvalid ->
  wp (fun _ => False) (body c a (set_sec c r s)) (fun x s' => x.1 = e /\ Q s') ->
  exists s', (let* '(e, _) := state_entry (Some c) (Some a) body in ret e) s = Done e s' /\ Q s'.
Proof.
  intros Hl Hr Hst Hwp. rewrite set_sec_id in Hwp by done.
  apply wp_result in Hwp as ([e' a'] & s' & Hrun & He & HQ). simpl in He. subst e'.
  exists s'. split; [|done]. unfold bind at 1. rewrite (state_entry_run c s r) by done.
  rewrite decide_False by done. by run Hrun.
Qed.

Lemma issue_step c st s q : has_settings c st s ->
  exists s', issue c q s = Done (answer st q).1 s' /\ has_settings c (answer st q).2 s'.
Proof.
  intros (r & p0 & p1 & e & rate0 & [Hl Hr Hst Hp Hh Hra Hbr Hfr Hqu Hir Hvo]).
  pose proof (live_valid _ _ Hl) as Hv.
  destruct q; unfold issue; (eapply enc_set_runs; [exact Hl|exact Hr|exact Hst|]); cbn [venc_set_parameter venc_set_config];
    try change (negb _) with false; cbn match.
  3: { cbn [answer]. cbv zeta.
       assert (has_settings c st (set_sec c r s)) as Hsame.
       { rewrite set_sec_id by done. by exists r, p0, p1, e, rate0. }
       destruct (is_err _); [by estep|]. destruct (negb _); [by estep|].
       destruct (_ =? OMX_VIDEO_IntraRefreshCyclic); [|by estep].
       repeat estep. split; [done|]. by settle. }
  all: repeat estep; (split; [done|]); by settle.
Qed.

Lemma enc_get_runs c s r (body : nat -> omx_param -> M St (OMX_ERRORTYPE * omx_param)) a reply :
  live c s -> look (pSECComponent c) s = inr r -> currentState r <> OMX_StateInvalid ->
  wp (fun _ => False) (body c a (set_sec c r s)) (fun x s' => x = (OMX_ErrorNone, reply) /\ s' = set_sec c r s) ->
  state_entry (Some c) (Some a) body s = Done (OMX_ErrorNone, Some reply) s.
Proof.
  intros Hl Hr Hst Hwp. rewrite set_sec_id in Hwp by done.
  apply wp_result in Hwp as (x & s' & Hrun & -> & ->).
  rewrite (state_entry_run c s r) by done. rewrite decide_False by done. by run Hrun.
Qed.

Lemma settings_reported c st s : has_settings c st s -> reports c st s.
Proof.
  intros (r & p0 & p1 & e & rate0 & [Hl Hr Hst Hp Hh Hra Hbr Hfr Hqu Hir Hvo]).
  pose proof (live_valid _ _ Hl) as Hv. unfold reports.
  split_and!; intros; (eapply enc_get_runs; [exact Hl|exact Hr|exact Hst|]); cbn [venc_get_parameter venc_get_config].
  3: { match goal with E : SEC_OMX_Check_SizeVersion _ _ = _, P : ir_nPortIndex _ = _ |- _ => rewrite E, P end.
       change (is_err OMX_ErrorNone) with false. change (negb _) with false. cbn match. repeat estep.
       rewrite Hir. destruct p. simpl in *. by subst. }
  all: change (negb _) with false; cbn match; repeat estep;
    cbn [br_nPortIndex]; (split; [|done]); congruence.
Qed.

(** C13: the functions by which a client configures an encoder implement its settings: any
    sequence of requests is answered, one by one, as the settings say (an intra refresh
    other than the cyclic one is refused and changes nothing), and afterwards every getter
    reports exactly what the requests left, whichever of the two ways of setting the bit
    rate was used; nothing faults and reading changes nothing. *)
Theorem encoder_settings_refine c st s qs :
  has_settings c st s ->
  exists s', issue_all c qs s = Done (answers st qs).1 s' /\ has_settings c (answers st qs).2 s' /\
    reports c (answers st qs).2 s'.
Proof.
  revert st s. induction qs as [|q qs IH]; intros st s Hs; cbn [issue_all answers].
  { exists s. split_and!; [done..|]. by apply settings_reported. }
  destruct (issue_step c st s q Hs) as (s1 & Hrun & Hs1). destruct (answer st q) as [e st1]. simpl in *.
  destruct (IH st1 s1 Hs1) as (s2 & Hrun2 & Hs2 & Hrep). destruct (answers st1 qs) as [es st2]. simpl in *.
  exists s2. split; [|done]. run Hrun. by run Hrun2.
Qed.
End refinement.

(** ** Construction *)
Lemma init_port_wp `{Env} (I : St -> Prop) c i count size p r s Q :
  (forall n, os n = true) -> valid c s -> port_get i r = inr p ->
  (forall a n, 0 < a -> memory s !! a = None ->
     Q tt (set_sec c (port_put i (video_port a count size p) r) s<|oscalls := n|><|memory ::= <[a := mime_block]>|>)) ->
  wp I (init_video_port c i count size (set_sec c r s)) Q.
Proof.
  intros Hos Hv Hp HQ. rewrite <- (port_put_id i p r) by done.
  apply (init_video_port_wp I c Hos i count size p r s Q Hv); [by exists p|exact HQ].
Qed.

Section construction.
Context `{Env} `{ComponentOps} `{AndroidMedia} `{VideoSizes} `{EncoderBuild} `{EncoderSizes}.

Definition default_settings : enc_settings :=
  mkSettings OMX_Video_ControlRateDisable 64000 (Z.shiftl 15 16) (mkQuantization 20 20 20)
    (mkIntraRefresh 0 0 0 0) false.
Definition new_encoder : SEC_OMX_VIDEOENC_COMPONENT :=
  videoenc_zero<|configChange := false|><|quantization := mkQuantization 20 20 20|>
    <|eControlRate := [OMX_Video_ControlRateDisable; OMX_Video_ControlRateDisable]|>.

(** The component after [SEC_OMX_VideoEncodeComponentInit]. *)
Definition encoder_ready (s s' : St) (c : nat) (r : SEC_OMX_BASECOMPONENT) : Prop :=
  exists p0 p1 a0 a1,
    pSECPort r = Ptr [(video_port a0 enc_MAX_VIDEO_INPUTBUFFER_NUM 0 p0)<|bStoreMetaData := false|>;
      video_port a1 enc_MAX_VIDEO_OUTPUTBUFFER_NUM enc_DEFAULT_VIDEO_OUTPUT_BUFFER_SIZE p1] /\
    fresh_port INPUT_PORT_INDEX OMX_DirInput p0 /\ fresh_port OUTPUT_PORT_INDEX OMX_DirOutput p1 /\
    0 < a0 /\ 0 < a1 /\ memory s !! a0 = None /\ a1 <> a0 /\ memory s !! a1 = None /\
    memory s' = <[a1 := mime_block]> (<[a0 := mime_block]> (memory s)).

(** when the system grants every request, [SEC_OMX_VideoEncodeComponentInit] returns
    [OMX_ErrorNone] and leaves a component that the entry points accept, with the two ports of
    the encoder (five and four buffers, all slots free) and the invariant of the buffers; once
    the codec has declared it loaded it has the default settings: no rate control, 64000 bits
    and 15 frames per second, quantization 20.  Nothing but the blocks of the MIME types was
    added to the memory. *)
Theorem VideoEncodeComponentInit_spec c s k :
  (forall n, os n = true) -> comps s !! c = Some k ->
  SEC_OMX_Check_SizeVersion (Some (comp_header k)) sizeof_COMPONENTTYPE = OMX_ErrorNone ->
  exists s' r, SEC_OMX_VideoEncodeComponentInit (Some c) s = Done OMX_ErrorNone s' /\
    live c s' /\ look (pSECComponent c) s' = inr r /\ encoder_ready s s' c r /\ buffers_ok s' r /\
    hComponentHandle r = Ptr (VideoEnc new_encoder) /\
    has_settings c default_settings (set_sec c r<|currentState := OMX_StateLoaded|> s') /\ headers s' = headers s.
Proof.
  intros Hos Hk He. pose proof (with_private_live c k s He) as Hl.
  pose proof (live_valid _ _ Hl) as Hv.
  enough (wp (fun _ => False) (SEC_OMX_VideoEncodeComponentInit (Some c) s) (fun e s' => e = OMX_ErrorNone /\
    exists r, live c s' /\ look (pSECComponent c) s' = inr r /\ encoder_ready s s' c r /\ buffers_ok s' r /\
      hComponentHandle r = Ptr (VideoEnc new_encoder) /\
      has_settings c default_settings (set_sec c r<|currentState := OMX_StateLoaded|> s') /\ headers s' = headers s)) as Hwp.
  { destruct (wp_result _ _ Hwp) as (e & s' & Hrun & -> & r & Hrest). by exists s', r. }
  unfold SEC_OMX_VideoEncodeComponentInit.
  assert (load (component c) s = Done k s) as Hload by (unfold load; simpl; by rewrite Hk).
  run Hload. cbv zeta. rewrite He.
  change (is_err OMX_ErrorNone) with false. cbn iota. apply wp_bind.
  eapply BaseComponent_Constructor_wp; [done..|]. intros q id n Hq.
  change (is_err OMX_ErrorNone) with false. cbn iota. apply wp_bind, Port_Constructor_wp; [done|exact Hl|].
  intros p0 p1 n' Hp0 Hp1. change (is_err OMX_ErrorNone) with false. cbn iota.
  apply wp_bind, wp_os_call. rewrite Hos. cbn [negb]. unfold with_ports.
  do 3 (apply wp_bind; estep).
  apply wp_bind. eapply init_port_wp; [done|exact Hv|reflexivity|]. intros a0 n0 Ha0 Hm0. simpl in Hm0.
  do 2 (apply wp_bind; estep).
  apply wp_bind. eapply init_port_wp; [done|exact Hv|reflexivity|]. intros a1 n1 Ha1 Hm1. simpl in Hm1.
  apply wp_bind; estep. apply wp_ret. split; [done|].
  assert (a1 <> a0) as Hne by (intros ->; by rewrite lookup_insert_eq in Hm1).
  rewrite lookup_insert_ne in Hm1 by done.
  eexists _. split; [apply live_set_sec; exact Hl|]. split; [apply look_sec; exact Hv|].
  split.
  { exists p0, p1, a0, a1. split; [reflexivity|]. rewrite memory_set_sec. by split_and!. }
  split.
  { eapply two_ports_ok; [reflexivity| |apply Hp0| |apply Hp1]; by eapply video_port_empty. }
  split; [reflexivity|]. rewrite headers_set_sec. split; [|done].
  rewrite set_sec_twice.
  eexists _, _, _, _, _. split; [apply live_set_sec; exact Hl|apply look_sec; exact Hv|done|reflexivity..].
Qed.
End construction.

(** ** The frame size follows the input *)
Section frame_size.
Context `{Env} `{ComponentOps} `{AndroidMedia} `{VideoSizes} `{EncoderBuild} `{EncoderSizes}.

(** The output port after the definition [d] of the input port was set. *)
Definition sized_like (d : OMX_VIDEO_PORTDEFINITIONTYPE) (out : OMX_PARAM_PORTDEFINITIONTYPE) : OMX_PARAM_PORTDEFINITIONTYPE :=
  if (negb (nFrameWidth (format_video out) =? nFrameWidth d) || negb (nFrameHeight (format_video out) =? nFrameHeight d))%bool
  then (out<|format_video ::= fun v => v<|nFrameWidth := nFrameWidth d|><|nFrameHeight := nFrameHeight d|>
             <|nStride := nStride d|><|nSliceHeight := nSliceHeight d|>|>)
         <|nBufferSize ::= fun n =>
            if (negb (nStride d =? 0) && negb (nSliceHeight d =? 0))%bool
            then u32 (nStride d * nSliceHeight d * 3) / 2 else n|>
  else out.

(** the definition of the input port decides the size of the encoded frames: a definition
    that is refused changes nothing; one that is accepted becomes the definition of the input
    port, and afterwards the output port has its frame width and height, with the stride, the
    slice height and the buffer size that belong to them if the frame size has changed; nothing
    else of the component changes. *)
Theorem input_definition_sizes_output c s r p0 p1 d :
  live c s -> look (pSECComponent c) s = inr r -> currentState r <> OMX_StateInvalid ->
  pSECPort r = Ptr [p0; p1] -> nPortIndex d = INPUT_PORT_INDEX ->
  let e := portdef_answer (currentState r) (nPorts (portParam r)) (portDefinition p0) d in
  exists s', SEC_OMX_VideoEncodeSetParameter (Some c) OMX_IndexParamPortDefinition (Some (ParamPortDefinition d)) s
      = Done (e, Some (ParamPortDefinition d)) s' /\
    if is_err e then s' = s
    else
      let out := sized_like (format_video d) (portDefinition p1) in
      s' = set_sec c r<|pSECPort := Ptr [p0<|portDefinition := d|>; p1<|portDefinition := out|>]|> s /\
      nFrameWidth (format_video out) = nFrameWidth (format_video d) /\
      nFrameHeight (format_video out) = nFrameHeight (format_video d).
Proof.
  intros Hl Hr Hst Hports Hi e. pose proof (live_valid _ _ Hl) as Hv.
  assert (nFrameWidth (format_video (sized_like (format_video d) (portDefinition p1))) = nFrameWidth (format_video d) /\
    nFrameHeight (format_video (sized_like (format_video d) (portDefinition p1))) = nFrameHeight (format_video d)) as Hout.
  { unfold sized_like. destruct (Z.eqb_spec (nFrameWidth (format_video (portDefinition p1))) (nFrameWidth (format_video d)));
      destruct (Z.eqb_spec (nFrameHeight (format_video (portDefinition p1))) (nFrameHeight (format_video d))); done. }
  set (r' := r<|pSECPort := Ptr [p0<|portDefinition := d|>; p1<|portDefinition := sized_like (format_video d) (portDefinition p1)|>]|>).
  exists (if is_err e then s else set_sec c r' s). split; [|by destruct (is_err e)].
  unfold SEC_OMX_VideoEncodeSetParameter. rewrite (state_entry_run c s r) by done. rewrite decide_False by done.
  enough (venc_set_parameter c OMX_IndexParamPortDefinition (ParamPortDefinition d) s =
    Done (e, ParamPortDefinition d) (if is_err e then s else set_sec c r' s)) as Hrun by by run Hrun.
  cbn [venc_set_parameter].
  enough (wp (fun _ => False) (enc_set_port_definition c d (set_sec c r s)) (fun a s' => a = e /\
    s' = if is_err e then s else set_sec c r' s)) as Hwp.
  { rewrite set_sec_id in Hwp by done. apply wp_result in Hwp as (a & s' & Hrun & -> & ->). by run Hrun. }
  unfold enc_set_port_definition. subst e. unfold portdef_answer. rewrite Hi. cbv zeta. rewrite set_sec_id by done.
  rewrite <- (set_sec_id c s r Hr) at 1. do 2 estep.
  destruct (_ <=? _); [estep; by rewrite set_sec_id|].
  destruct (is_err _) eqn:He; [estep; by rewrite He, set_sec_id|]. do 2 estep.
  destruct (is_running _ && _)%bool; [estep; by rewrite set_sec_id|].
  destruct (_ <? _); [estep; by rewrite set_sec_id|].
  do 2 estep. rewrite Z.eqb_refl. estep. unfold enc_UpdateFrameSize. do 4 estep. cbn [portDefinition set_field].
  unfold r', sized_like. destruct (negb _ || negb _)%bool; repeat estep; (split; [done|]); [done|].
  cbn [is_err]. by destruct p1.
Qed.
End frame_size.

(** ** Instances *)
Definition sample_encoder_sizes : EncoderSizes := {| sizeof_INTRAREFRESHTYPE := 32 |}.

(** A loaded encoder with the default settings. *)
Definition sample_loaded_encoder : SEC_OMX_BASECOMPONENT :=
  (sample_component OMX_StateLoaded [] (sample_port 0 OMX_DirInput [] [])
     (sample_port 1 OMX_DirOutput [] [])<|portDefinition ::= fun d => d<|format_video := video_defaults video_zero|>|>)
    <|hComponentHandle := Ptr (VideoEnc new_encoder)|>.
Lemma sample_has_settings : has_settings (H := sample_env) 1 default_settings (sample_state sample_loaded_encoder ∅).
Proof.
  eexists sample_loaded_encoder, _, _, _, _. split; [apply sample_live|apply sample_look|done|reflexivity..].
Qed.

Lemma encoder_settings_refine_witness :
  let qs := [SetBitrate 2 128000; SetIntraRefresh (mkIntraParam (INIT_SET_SIZE_VERSION 32) 1 1 5 5 5);
             ConfigureBitrate 256000; SetQuantization (mkQuantization 10 12 14)] in
  let st := mkSettings 2 256000 (Z.shiftl 15 16) (mkQuantization 10 12 14) (mkIntraRefresh 0 0 0 0) false in
  exists s',
    issue_all (H := sample_env) (H1 := sample_media) (H2 := sample_sizes) (H3 := sample_encoder_build)
      (H4 := sample_encoder_sizes) 1 qs (sample_state sample_loaded_encoder ∅) =
      Done [OMX_ErrorNone; OMX_ErrorUnsupportedSetting; OMX_ErrorNone; OMX_ErrorNone] s' /\
    has_settings (H := sample_env) 1 st s' /\
    reports (H := sample_env) (H2 := sample_sizes) (H3 := sample_encoder_build) (H4 := sample_encoder_sizes) 1 st s'.
Proof.
  intros qs st.
  exact (encoder_settings_refine (H := sample_env) (H1 := sample_media) (H2 := sample_sizes)
    (H3 := sample_encoder_build) (H4 := sample_encoder_sizes) 1 default_settings
    (sample_state sample_loaded_encoder ∅) qs sample_has_settings).
Defined.

Lemma VideoEncodeComponentInit_spec_witness :
  exists s' r,
    SEC_OMX_VideoEncodeComponentInit (H := sample_env) (Some 1%nat) sample_new = Done OMX_ErrorNone s' /\
    live (H := sample_env) 1 s' /\ look (pSECComponent 1) s' = inr r /\
    encoder_ready (H := sample_env) sample_new s' 1 r /\ buffers_ok s' r /\
    hComponentHandle r = Ptr (VideoEnc new_encoder) /\
    has_settings (H := sample_env) 1 default_settings (set_sec 1 r<|currentState := OMX_StateLoaded|> s') /\
    headers s' = headers sample_new.
Proof.
  apply (VideoEncodeComponentInit_spec (H := sample_env) 1 sample_new
           (mkComponent (INIT_SET_SIZE_VERSION 116) Null)); done.
Defined.

Definition sample_size : OMX_PARAM_PORTDEFINITIONTYPE :=
  (sample_portdef 0 OMX_DirInput)<|format_video :=
    video_zero<|nFrameWidth := 640|><|nFrameHeight := 480|><|nStride := 640|><|nSliceHeight := 480|>|>.
Lemma input_definition_sizes_output_witness :
  exists s' r' p1',
    SEC_OMX_VideoEncodeSetParameter (H := sample_env) (H1 := sample_media) (H2 := sample_sizes)
      (H3 := sample_encoder_build) (H4 := sample_encoder_sizes) (Some 1%nat) OMX_IndexParamPortDefinition
      (Some (ParamPortDefinition sample_size)) (sample_state sample_loaded_encoder ∅)
      = Done (OMX_ErrorNone, Some (ParamPortDefinition sample_size)) s' /\
    look (pSECComponent 1) s' = inr r' /\ port_get OUTPUT_PORT_INDEX r' = inr p1' /\
    nFrameWidth (format_video (portDefinition p1')) = 640 /\ nBufferSize (portDefinition p1') = 460800.
Proof.
  destruct (input_definition_sizes_output (H := sample_env) (H1 := sample_media) (H2 := sample_sizes)
    (H3 := sample_encoder_build) (H4 := sample_encoder_sizes) 1 (sample_state sample_loaded_encoder ∅)
    sample_loaded_encoder (sample_port 0 OMX_DirInput [] [])
    (sample_port 1 OMX_DirOutput [] [])<|portDefinition ::= fun d => d<|format_video := video_defaults video_zero|>|>
    sample_size) as (s' & Hrun & Hs); [apply sample_live|apply sample_look|done|done|done|].
  change (portdef_answer _ _ _ _) with OMX_ErrorNone in Hrun, Hs. change (is_err OMX_ErrorNone) with false in Hs.
  destruct Hs as (-> & Hw & _). eexists _, _, _. split; [exact Hrun|].
  split; [apply look_sec; eexists _, _; done|]. split; [reflexivity|]. split; [exact Hw|reflexivity].
Defined.

(** The getter has no case for the refresh of intra pictures and passes the index to the
    setter of the base component, which refuses it as the getter would. *)
Lemma intra_refresh_unreadable :
  SEC_OMX_VideoEncodeGetConfig (H := sample_env) (Some 1%nat) OMX_IndexConfigVideoIntraVOPRefresh
    (Some (ConfigIntraVOP 1 false)) (sample_state sample_loaded_encoder ∅) =
  Done (OMX_ErrorUnsupportedIndex, Some (ConfigIntraVOP 1 false)) (sample_state sample_loaded_encoder ∅).
Proof. by vm_compute. Qed.
