(* ===== verification/DtbImage.v ===== *)
(** * The device tree image: [dtbimg.c], [mkdtbimg.c] and [unpackdtbhimg.c]

    [load_dtbh_block] collects the device tree blobs of a directory into one
    block: a header, a table of entries, and the blobs, each on a page boundary.
    [unpackdtbhimg] takes such a block apart.  The values of [samsung_dtbh.h]
    that every device provides, the parser [libfdt] and the sorting function of
    the C library are parameters.  An allocation that fails ends the program
    and is not modelled; neither is the [#ifdef DTBH_MODEL] check, which the
    example header leaves out. *)
From S2P Require Import Prelude Machine Bytes.

Class Dtbh := {
  DTBH_MAGIC : bytes;
  DTBH_VERSION : Z;
  DTBH_PLATFORM : string;
  DTBH_SUBTYPE : string;
  DTBH_PLATFORM_CODE : Z;
  DTBH_SUBTYPE_CODE : Z;
  DTBH_MAGIC_length : length DTBH_MAGIC = 4%nat;
  DTBH_VERSION_u32 : is_u32 DTBH_VERSION;
  DTBH_PLATFORM_CODE_u32 : is_u32 DTBH_PLATFORM_CODE;
  DTBH_SUBTYPE_CODE_u32 : is_u32 DTBH_SUBTYPE_CODE
}.

(** [fdt_getprop] on the root node: the value of the property, or the (negative)
    length that goes with a NULL result. *)
Class Fdt := {
  fdt_check_header : bytes -> bool;
  fdt_getprop : bytes -> string -> bytes + Z;
  fdt_getprop_bytes : forall dtb name l, fdt_getprop dtb name = inl l -> Forall is_byte l
}.

Definition DT_HEADER_PHYS_SIZE : Z := 12.
Definition DT_ENTRY_PHYS_SIZE : Z := 4 * 8.

(** [de_blob]: the blob, by its number in the list of blobs. *)
Record dt_entry := mkEntry {
  de_chip : Z; de_platform : Z; de_subtype : Z; de_hw_rev : Z; de_hw_rev_end : Z;
  de_offset : Z; de_size : Z; de_space : Z; de_blob : nat
}.
#[export] Instance dt_entry_eta : RecEta dt_entry := fun e =>
  mkEntry (de_chip e) (de_platform e) (de_subtype e) (de_hw_rev e) (de_hw_rev_end e)
    (de_offset e) (de_size e) (de_space e) (de_blob e).

(** The difference of the two [uint32_t], as the [int] the function returns. *)
Definition dt_entry_cmp (a b : dt_entry) : Z :=
  if negb (de_chip a =? de_chip b) then s32 (u32 (de_chip a - de_chip b))
  else s32 (u32 (de_hw_rev a - de_hw_rev b)).

(** What [qsort] promises for any comparison function. *)
Class Qsort := {
  qsort : (dt_entry -> dt_entry -> Z) -> list dt_entry -> list dt_entry;
  qsort_perm : forall cmp l, qsort cmp l ≡ₚ l
}.

(** [strcmp(data, s) == 0], [None] when the comparison runs off the data. *)
Fixpoint strcmp_eq (data : bytes) (s : list Z) : option bool :=
  match data, s with
  | [], _ => None
  | b :: _, [] => Some (b =? 0)
  | b :: data, c :: s => if b =? c then strcmp_eq data s else Some false
  end.
(** [ntohl(prop[0])] *)
Definition ntohl_first (prop : bytes + Z) : tool Z :=
  match prop with
  | inr _ => Crash NullDeref
  | inl (a :: b :: c :: d :: _) => Ret (16777216 * a + 65536 * b + 256 * c + d)
  | inl _ => Crash OutOfBounds
  end.

(** The file's size is kept in an [int]: a size from 2 GB on is negative or cut
    off.  [content] is [None] when the file cannot be opened or read. *)
Definition load_file (content : option bytes) : option bytes :=
  c ← content;
  let sz := s32 (zlength c) in
  if sz <? 0 then None else Some (take (Z.to_nat sz) c).

Section dtb.
Context `{Dtbh} `{Fdt} `{Qsort}.

(** ** Collecting the blobs *)

Definition prop_len (prop : bytes + Z) : Z :=
  match prop with inl l => zlength l | inr e => e end.
Definition prop_is (prop : bytes + Z) (s : string) : tool bool :=
  match prop with
  | inr _ => Crash NullDeref
  | inl l => match strcmp_eq l (string_bytes s) with Some b => Ret b | None => Crash OutOfBounds end
  end.

(** [namlen < 4 || strcmp(&d_name[namlen - 4], ".dtb")] *)
Definition is_dtb_name (d_name : string) : bool :=
  let namlen := String.length d_name in
  (4 <=? namlen)%nat && bool_decide (String.substring (namlen - 4) 4 d_name = ".dtb"%string).

(** The body of the directory loop: the entry made from a file (with blob number
    [k]), or nothing when it is skipped. *)
Definition read_dtb (k : nat) (d_name : string) (content : option bytes)
  : tool (option (dt_entry * bytes)) :=
  if negb (is_dtb_name d_name) then Ret None
  else
    match content with
    | None => Exit 1
    | Some dtb =>
        if negb (fdt_check_header dtb) then Ret None
        else
          let prop_chip := fdt_getprop dtb "model_info-chip" in
          if negb (prop_len prop_chip mod 4 =? 0) then Ret None
          else
            do ok <- prop_is (fdt_getprop dtb "model_info-platform") DTBH_PLATFORM ;
            if negb ok then Ret None
            else
              do ok <- prop_is (fdt_getprop dtb "model_info-subtype") DTBH_SUBTYPE ;
              if negb ok then Ret None
              else
                let prop_hw_rev := fdt_getprop dtb "model_info-hw_rev" in
                if negb (prop_len prop_hw_rev mod 4 =? 0) then Ret None
                else
                  let prop_hw_rev_end := fdt_getprop dtb "model_info-hw_rev_end" in
                  if negb (prop_len prop_hw_rev_end mod 4 =? 0) then Ret None
                  else
                    do chip <- ntohl_first prop_chip ;
                    do hw_rev <- ntohl_first prop_hw_rev ;
                    do hw_rev_end <- ntohl_first prop_hw_rev_end ;
                    Ret (Some (mkEntry chip DTBH_PLATFORM_CODE DTBH_SUBTYPE_CODE hw_rev hw_rev_end
                                 0 0 0x20 k, dtb))
    end.

(** The variables of the loop. *)
Record scan := mkScan {
  sc_blobs : list bytes;
  sc_entries : list dt_entry;
  sc_count : Z;
  sc_hdr_sz : Z;
  sc_blob_sz : Z
}.

Definition scan_add (pagesize : Z) (st : scan) (e : dt_entry) (dtb : bytes) : scan :=
  let entry_count := u32 (sc_count st + 1) in
  mkScan (sc_blobs st ++ [dtb]) (sc_entries st ++ [e]) entry_count
    (u32 (sc_hdr_sz st + u32 (entry_count * DT_ENTRY_PHYS_SIZE)))
    (u32 (sc_blob_sz st + page_align pagesize (zlength dtb))).

Fixpoint scan_dir (pagesize : Z) (files : list (string * option bytes)) (st : scan) : tool scan :=
  match files with
  | [] => Ret st
  | (d_name, content) :: files =>
      do r <- read_dtb (length (sc_blobs st)) d_name (load_file content) ;
      match r with
      | None => scan_dir pagesize files st
      | Some (e, dtb) => scan_dir pagesize files (scan_add pagesize st e dtb)
      end
  end.

(** ** Building the block *)

(** [blob->offset], from [offset] on. *)
Fixpoint blob_offsets (pagesize offset : Z) (blobs : list bytes) : list Z :=
  match blobs with
  | [] => []
  | b :: blobs => offset :: blob_offsets pagesize (u32 (offset + page_align pagesize (zlength b))) blobs
  end.

(** [entry->offset = entry->blob->offset; entry->size = ...] *)
Definition locate (pagesize : Z) (offs : list Z) (blobs : list bytes) (e : dt_entry)
  : option dt_entry :=
  off ← offs !! de_blob e; b ← blobs !! de_blob e;
  Some e<|de_offset := off|><|de_size := page_align pagesize (zlength b)|>.

Definition entry_bytes (e : dt_entry) : bytes :=
  le32 (de_chip e) ++ le32 (de_platform e) ++ le32 (de_subtype e) ++ le32 (de_hw_rev e)
  ++ le32 (de_hw_rev_end e) ++ le32 (de_offset e) ++ le32 (de_size e) ++ le32 (de_space e).

Fixpoint write_entries (offset : Z) (es : list dt_entry) (dtbh : bytes) : tool (bytes * Z) :=
  match es with
  | [] => Ret (dtbh, offset)
  | e :: es =>
      do dtbh <- mem_write offset (entry_bytes e) dtbh ;
      write_entries (u32 (offset + DT_ENTRY_PHYS_SIZE)) es dtbh
  end.

Fixpoint write_blobs (pagesize offset : Z) (blobs : list bytes) (dtbh : bytes) : tool bytes :=
  match blobs with
  | [] => Ret dtbh
  | b :: blobs =>
      do dtbh <- mem_write offset b dtbh ;
      write_blobs pagesize (u32 (offset + page_align pagesize (zlength b))) blobs dtbh
  end.

(** Everything after the directory was read; [None]: no blob was found. *)
Definition build_block (pagesize : Z) (st : scan) : tool (option bytes) :=
  if sc_count st =? 0 then Ret None
  else
    let hdr_sz := page_align pagesize (u32 (sc_hdr_sz st + 4)) in
    let sorted := qsort dt_entry_cmp (sc_entries st) in
    let offs := blob_offsets pagesize hdr_sz (sc_blobs st) in
    match mapM (locate pagesize offs (sc_blobs st)) sorted with
    | None => Crash NullDeref
    | Some es =>
        do dtbh <- mem_write 0 DTBH_MAGIC (zeros (u32 (hdr_sz + sc_blob_sz st))) ;
        do dtbh <- mem_write 4 (le32 DTBH_VERSION) dtbh ;
        do dtbh <- mem_write 8 (le32 (sc_count st)) dtbh ;
        do written <- write_entries DT_HEADER_PHYS_SIZE es dtbh ;
        let '(dtbh, offset) := written in
        do dtbh <- write_blobs pagesize (u32 (offset + u32 (pagesize - page_rest pagesize offset)))
                     (sc_blobs st) dtbh ;
        Ret (Some dtbh)
    end.

Definition scan_init : scan := mkScan [] [] 0 DT_HEADER_PHYS_SIZE 0.

(** [files]: the directory, [None] when it cannot be opened, and the content of
    each file, [None] when it cannot be read. *)
Definition load_dtbh_block (files : option (list (string * option bytes))) (pagesize : Z)
  : tool (option bytes) :=
  match files with
  | None => Exit 1
  | Some files => do st <- scan_dir pagesize files scan_init ; build_block pagesize st
  end.

(** ** Taking it apart *)

(** A file that [unpackdtbhimg] writes: the numbers its name is made of and its
    content, [None] when the read was short. *)
Record dumped := mkDumped {
  dm_chip : Z; dm_platform : Z; dm_subtype : Z; dm_hw_rev : Z; dm_hw_rev_end : Z;
  dm_data : option bytes
}.

Definition header_word (header : bytes) (off : nat) : tool Z :=
  match word_at header off with Some x => Ret x | None => Crash OutOfBounds end.

(** [fseek(offset)] and [fread(size, 1)] *)
Definition read_at (img : bytes) (offset size : Z) : option bytes :=
  if size =? 0 then Some []
  else if offset + size <=? zlength img
  then Some (take (Z.to_nat size) (drop (Z.to_nat offset) img)) else None.

Definition dump_entry (img header : bytes) (i : nat) : tool dumped :=
  let at_ k := header_word header (12 + 32 * i + 4 * k) in
  do chip <- at_ 0%nat ; do platform <- at_ 1%nat ; do subtype <- at_ 2%nat ;
  do hw_rev <- at_ 3%nat ; do hw_rev_end <- at_ 4%nat ; do offset <- at_ 5%nat ;
  do size <- at_ 6%nat ; do space <- at_ 7%nat ;
  Ret (mkDumped chip platform subtype hw_rev hw_rev_end (read_at img offset size)).

Fixpoint dump_entries (img header : bytes) (i n : nat) : tool (list dumped) :=
  match n with
  | O => Ret []
  | S n => do d <- dump_entry img header i ; do ds <- dump_entries img header (S i) n ; Ret (d :: ds)
  end.

(** From the opening of the file on. *)
Definition unpackdtbhimg (img : bytes) (page_size : Z) : tool (list dumped) :=
  if ((page_size <=? 0) || (zlength img <? page_size))%bool then Exit 1
  else
    let header := take (Z.to_nat page_size) img in
    do entry_count <- header_word header 8 ;
    dump_entries img header 0 (Z.to_nat entry_count).

(** ** The command lines

    [argv[argc]] is NULL, so the value of a last single argument is NULL. *)
Record mkdtb_opts := mkMkdtbOpts {
  mo_dtimg : option string; mo_dt_dir : option string; mo_pagesize : Z
}.
#[local] Instance mkdtb_opts_eta : RecEta mkdtb_opts := fun o =>
  mkMkdtbOpts (mo_dtimg o) (mo_dt_dir o) (mo_pagesize o).

Definition mkdtb_arg (h : host) (o : mkdtb_opts) (arg : string) (val : option string)
  : tool mkdtb_opts :=
  if (bool_decide (arg = "--output"%string) || bool_decide (arg = "-o"%string))%bool
  then Ret o<|mo_dtimg := val|>
  else if bool_decide (arg = "--dt_dir"%string) then Ret o<|mo_dt_dir := val|>
  else if bool_decide (arg = "-p"%string) then Ret o
  else if bool_decide (arg = "-s"%string) then
    match val with
    | None => Crash NullDeref
    | Some val =>
        let pagesize := u32 (strtol val 10) in
        Ret o<|mo_pagesize := if pagesize =? 0 then 2048 else pagesize|>
    end
  else if bool_decide (is_Some (h_dirs h !! arg)) then Ret o<|mo_dt_dir := Some arg|>
  else Exit 1.

Fixpoint mkdtb_args (h : host) (o : mkdtb_opts) (argv : list string) : tool mkdtb_opts :=
  match argv with
  | [] => Ret o
  | arg :: argv =>
      match argv with
      | [] => mkdtb_arg h o arg None
      | val :: argv => do o <- mkdtb_arg h o arg (Some val) ; mkdtb_args h o argv
      end
  end.

(** The exit code of [main] and the host afterwards; the returns before the output
    file is opened are [Exit]. *)
Definition mkdtbimg (h : host) (argv : list string) : tool (Z * host) :=
  do o <- mkdtb_args h (mkMkdtbOpts None None 0) argv ;
  match mo_dtimg o, mo_dt_dir o with
  | None, _ => Exit 1
  | Some _, None => Exit 1
  | Some dtimg, Some dt_dir =>
      do dt_data <- load_dtbh_block (h_dirs h !! dt_dir) (mo_pagesize o) ;
      match dt_data with
      | None => Exit 1
      | Some dt_data =>
          if negb (h_creat_ok h dtimg) then Exit 1
          else
            match write_fd h [] dt_data with
            | Some out => Ret (0, h<|h_files ::= <[dtimg := out]>|>)
            | None => Ret (1, h<|h_files ::= delete dtimg|>)
            end
      end
  end.

Record undtb_opts := mkUndtbOpts {
  uo_dtbhimg : option string; uo_output_dir : option string; uo_page_size : Z
}.
#[local] Instance undtb_opts_eta : RecEta undtb_opts := fun o =>
  mkUndtbOpts (uo_dtbhimg o) (uo_output_dir o) (uo_page_size o).

(** Any other argument is passed over. *)
Definition undtb_arg (o : undtb_opts) (arg : string) (val : option string) : tool undtb_opts :=
  if (bool_decide (arg = "--input"%string) || bool_decide (arg = "-i"%string))%bool
  then Ret o<|uo_dtbhimg := val|>
  else if (bool_decide (arg = "--output"%string) || bool_decide (arg = "-o"%string))%bool
  then Ret o<|uo_output_dir := val|>
  else if (bool_decide (arg = "--pagesize"%string) || bool_decide (arg = "-p"%string))%bool
  then match val with None => Crash NullDeref | Some val => Ret o<|uo_page_size := atoi val|> end
  else Ret o.

Fixpoint undtb_args (o : undtb_opts) (argv : list string) : tool undtb_opts :=
  match argv with
  | [] => Ret o
  | arg :: argv =>
      match argv with
      | [] => undtb_arg o arg None
      | val :: argv => do o <- undtb_arg o arg (Some val) ; undtb_args o argv
      end
  end.

Definition unpackdtbhimg_main (h : host) (argv : list string) : tool (list dumped) :=
  do o <- undtb_args (mkUndtbOpts None None 2048) argv ;
  match uo_dtbhimg o, uo_output_dir o with
  | Some dtbhimg, Some _ =>
      match h_files h !! dtbhimg with
      | None => Exit 1
      | Some img => unpackdtbhimg img (uo_page_size o)
      end
  | _, _ => Exit 1
  end.

(** ** What the scan collects *)
Definition ids_u32 (e : dt_entry) : Prop :=
  is_u32 (de_chip e) /\ is_u32 (de_platform e) /\ is_u32 (de_subtype e) /\
  is_u32 (de_hw_rev e) /\ is_u32 (de_hw_rev_end e) /\ is_u32 (de_space e).

Fixpoint page_sum (f : Z -> Z) (l : list bytes) : Z :=
  match l with [] => 0 | b :: l => f (zlength b) + page_sum f l end.

Lemma page_sum_app f l k : page_sum f (l ++ k) = page_sum f l + page_sum f k.
Proof. induction l as [|b l IH]; cbn [page_sum app]; [done|]. rewrite IH. lia. Qed.

Record scan_ok (p : Z) (st : scan) : Prop := {
  ok_length : length (sc_entries st) = length (sc_blobs st);
  ok_count : sc_count st = u32 (zlength (sc_blobs st));
  ok_hdr : sc_hdr_sz st = u32 (12 + 16 * zlength (sc_blobs st) * (zlength (sc_blobs st) + 1));
  ok_blobs : sc_blob_sz st = u32 (page_sum (page_align p) (sc_blobs st));
  ok_entries : Forall ids_u32 (sc_entries st);
  ok_index : forall i e, sc_entries st !! i = Some e -> de_blob e = i
}.

Lemma ntohl_u32 dtb name x : ntohl_first (fdt_getprop dtb name) = Ret x -> is_u32 x.
Proof.
  destruct (fdt_getprop dtb name) as [l|] eqn:Hp; simpl; [|done].
  pose proof (fdt_getprop_bytes _ _ _ Hp) as Hb.
  destruct l as [|a [|b [|c [|d l]]]]; try done. intros [= <-].
  do 4 (apply Forall_cons in Hb as [? Hb]). unfold is_byte, is_u32 in *. lia.
Qed.

Lemma read_dtb_ok k name content e dtb :
  read_dtb k name content = Ret (Some (e, dtb)) -> ids_u32 e /\ de_blob e = k.
Proof.
  unfold read_dtb, tbind. intros Hr.
  repeat (case_match; simplify_eq/=; try done).
  unfold ids_u32. simpl. pose proof DTBH_PLATFORM_CODE_u32. pose proof DTBH_SUBTYPE_CODE_u32.
  split_and!; try done; by eapply ntohl_u32.
Qed.

Lemma u32_add_l a b : u32 (u32 a + b) = u32 (a + b).
Proof. unfold u32, wrapu. by rewrite Zplus_mod_idemp_l. Qed.
Lemma u32_add_r a b : u32 (a + u32 b) = u32 (a + b).
Proof. unfold u32, wrapu. by rewrite Zplus_mod_idemp_r. Qed.
Lemma u32_mul_l a b : u32 (u32 a * b) = u32 (a * b).
Proof. unfold u32, wrapu. by rewrite Zmult_mod_idemp_l. Qed.

Lemma scan_add_ok p st e dtb :
  scan_ok p st -> ids_u32 e -> de_blob e = length (sc_blobs st) -> scan_ok p (scan_add p st e dtb).
Proof.
  intros [Hl Hc Hh Hb He Hi] Hu Hk. split; simpl.
  - rewrite !length_app. simpl. lia.
  - rewrite Hc, u32_add_l. by rewrite zlength_app.
  - rewrite Hh, Hc, zlength_app. unfold DT_ENTRY_PHYS_SIZE.
    rewrite (u32_add_l (zlength _)), u32_mul_l, u32_add_l, u32_add_r. f_equal.
    change (zlength [dtb]) with 1. lia.
  - rewrite Hb, u32_add_l, page_sum_app. cbn [page_sum]. by rewrite Z.add_0_r.
  - apply Forall_app. split; [done|]. by apply Forall_singleton.
  - intros i x Hx. apply lookup_app_Some in Hx as [Hx|[Hle Hx]]; [by apply Hi|].
    apply list_lookup_singleton_Some in Hx as [Hz <-]. lia.
Qed.

Lemma scan_dir_ok p files : forall st st',
  scan_ok p st -> scan_dir p files st = Ret st' -> scan_ok p st'.
Proof.
  induction files as [|[name content] files IH]; intros st st' Hok Hs; simpl in Hs; [by simplify_eq|].
  destruct (read_dtb _ _ _) as [[[e dtb]|]| |] eqn:Hr; simpl in Hs; try done.
  - apply read_dtb_ok in Hr as [Hu Hk]. eapply IH; [|exact Hs]. by apply scan_add_ok.
  - by eapply IH.
Qed.

Lemma scan_init_ok p : scan_ok p scan_init.
Proof. by split. Qed.
(** ** The layout of the block *)
Section layout.
Context (p : Z) (Hp : is_page p).

(** The blobs in their pages. *)
Definition body (l : list bytes) : bytes := l ≫= padded p.
Definition pages (l : list bytes) : Z := page_sum (round_up p) l.

Lemma round_up_nonneg n : 0 <= n -> 0 <= round_up p n.
Proof. intros. pose proof (is_page_pos p Hp). pose proof (round_up_bounds p n). lia. Qed.

Lemma pages_nonneg l : 0 <= pages l.
Proof.
  induction l as [|b l IH]; unfold pages in *; cbn [page_sum]; [lia|].
  pose proof (round_up_nonneg (zlength b) (zlength_nonneg b)). lia.
Qed.

Lemma zlength_body l : zlength (body l) = pages l.
Proof.
  pose proof (is_page_pos p Hp). unfold body, pages.
  induction l as [|b l IH]; [done|]. rewrite bind_cons. cbn [page_sum].
  rewrite zlength_app, zlength_padded by lia. by rewrite IH.
Qed.

Lemma pages_fit b l : p + pages (b :: l) < 2 ^ 32 ->
  page_align p (zlength b) = round_up p (zlength b) /\ p + pages l < 2 ^ 32.
Proof.
  intros Hmax. pose proof (is_page_pos p Hp). pose proof (zlength_nonneg b).
  pose proof (round_up_bounds p (zlength b) ltac:(lia)). pose proof (pages_nonneg l).
  pose proof (round_up_nonneg (zlength b)).
  unfold pages in *. cbn [page_sum] in Hmax. split; [|lia]. apply page_align_round; [done|lia|lia].
Qed.

Lemma page_sum_align l : p + pages l < 2 ^ 32 -> page_sum (page_align p) l = pages l.
Proof.
  induction l as [|b l IH]; intros Hmax; [done|].
  apply pages_fit in Hmax as [Hb Hl]. unfold pages in *. cbn [page_sum]. by rewrite Hb, IH.
Qed.

Lemma blob_offsets_lookup l : forall off i b,
  0 <= off -> off + pages l < 2 ^ 32 -> p + pages l < 2 ^ 32 -> l !! i = Some b ->
  blob_offsets p off l !! i = Some (off + pages (take i l)).
Proof.
  induction l as [|b0 l IH]; intros off i b Hoff Hmax Hfit Hi; [done|].
  pose proof (pages_fit _ _ Hfit) as [Hb Hl]. pose proof (pages_nonneg l).
  pose proof (round_up_nonneg (zlength b0) (zlength_nonneg b0)).
  destruct i as [|i]; cbn [blob_offsets take].
  - simpl. f_equal. unfold pages. simpl. lia.
  - simpl. rewrite Hb. unfold pages in *. cbn [page_sum] in *.
    rewrite u32_id by (unfold is_u32; lia). erewrite IH; [f_equal; lia|lia|lia|lia|done].
Qed.

Lemma body_lookup l : forall i b, l !! i = Some b ->
  exists rest, drop (Z.to_nat (pages (take i l))) (body l) = padded p b ++ rest.
Proof.
  induction l as [|b0 l IH]; intros i b Hi; [done|]. destruct i as [|i]; simpl in Hi.
  - simplify_eq. by exists (body l).
  - destruct (IH i b Hi) as [rest Hr]. exists rest. unfold body. rewrite bind_cons.
    cbn [take]. fold (body l). unfold pages in *. cbn [page_sum].
    pose proof (round_up_nonneg (zlength b0) (zlength_nonneg b0)).
    pose proof (pages_nonneg (take i l)). unfold pages in *.
    rewrite Z2Nat.inj_add by lia. rewrite <- drop_drop.
    rewrite drop_app_length'; [done|]. pose proof (is_page_pos p Hp).
    pose proof (zlength_padded p b0 ltac:(lia)) as Hz. unfold zlength in Hz at 1. lia.
Qed.

Lemma write_blobs_run l : forall pre,
  zlength pre + pages l < 2 ^ 32 -> p + pages l < 2 ^ 32 ->
  write_blobs p (zlength pre) l (pre ++ zeros (pages l)) = Ret (pre ++ body l).
Proof.
  induction l as [|b l IH]; intros pre Hmax Hfit.
  { done. }
  pose proof (pages_fit _ _ Hfit) as [Hb Hl]. pose proof (is_page_pos p Hp) as Hpos.
  pose proof (round_up_bounds p (zlength b) ltac:(lia)) as Hr. pose proof (pages_nonneg l) as Hnn.
  pose proof (zlength_nonneg pre) as Hpre. pose proof (zlength_nonneg b) as Hzb.
  unfold pages in Hmax, Hfit. cbn [page_sum] in Hmax, Hfit. fold (pages l) in Hmax, Hfit.
  cbn [write_blobs]. replace (pages (b :: l)) with (round_up p (zlength b) + pages l) by done.
  rewrite mem_write_next by lia. cbn [tbind]. rewrite Hb, u32_id by (unfold is_u32; lia).
  replace (pre ++ b ++ zeros (round_up p (zlength b) + pages l - zlength b))
    with ((pre ++ padded p b) ++ zeros (pages l)).
  2: { unfold padded. rewrite <- !app_assoc. f_equal. f_equal. rewrite <- zeros_add by lia. f_equal. lia. }
  replace (zlength pre + round_up p (zlength b)) with (zlength (pre ++ padded p b))
    by (rewrite zlength_app, zlength_padded by lia; done).
  rewrite IH; [|rewrite zlength_app, zlength_padded by lia; lia|done].
  rewrite <- app_assoc. done.
Qed.

Lemma write_entries_run es : forall pre n,
  zlength pre + 32 * zlength es < 2 ^ 32 -> 32 * zlength es <= n ->
  write_entries (zlength pre) es (pre ++ zeros n) =
    Ret (pre ++ (es ≫= entry_bytes) ++ zeros (n - 32 * zlength es),
         zlength pre + 32 * zlength es).
Proof.
  induction es as [|e es IH]; intros pre n Hmax Hn.
  { change (zlength (A := dt_entry) []) with 0. cbn. do 2 f_equal; [|lia]. do 2 f_equal. lia. }
  assert (zlength (e :: es) = 1 + zlength es) as Hl by (unfold zlength; simpl length; lia).
  pose proof (zlength_nonneg es). pose proof (zlength_nonneg pre). cbn [write_entries].
  assert (zlength (entry_bytes e) = 32) as He by done.
  rewrite mem_write_next by lia. cbn [tbind]. rewrite He. unfold DT_ENTRY_PHYS_SIZE.
  rewrite u32_id by (unfold is_u32; lia).
  replace (zlength pre + 4 * 8) with (zlength (pre ++ entry_bytes e)) by (rewrite zlength_app; lia).
  rewrite app_assoc, IH by (rewrite ?zlength_app; lia). rewrite bind_cons.
  rewrite zlength_app, Hl, <- !app_assoc. do 2 f_equal; [|lia]. do 4 f_equal. lia.
Qed.
End layout.
(** ** Reading the entries back *)
Definition words_u32 (e : dt_entry) : Prop :=
  ids_u32 e /\ is_u32 (de_offset e) /\ is_u32 (de_size e).

Lemma header_word_at A R k : header_word (A ++ R) (length A + k) = header_word R k.
Proof.
  unfold header_word, word_at. by rewrite drop_app_add.
Qed.

Lemma header_word_le32 l k x :
  take 4 (drop k l) = le32 x -> is_u32 x -> header_word l k = Ret x.
Proof. intros Hl Hx. unfold header_word, word_at. by rewrite Hl, of_le32_le32. Qed.

Lemma dump_entry_run img A e B i :
  length A = (12 + 32 * i)%nat -> words_u32 e ->
  dump_entry img (A ++ entry_bytes e ++ B) i =
    Ret (mkDumped (de_chip e) (de_platform e) (de_subtype e) (de_hw_rev e) (de_hw_rev_end e)
           (read_at img (de_offset e) (de_size e))).
Proof.
  intros HA ((? & ? & ? & ? & ? & ?) & ? & ?). unfold dump_entry. rewrite <- HA.
  rewrite !header_word_at.
  rewrite (header_word_le32 _ _ (de_chip e)) by done. cbn [tbind].
  rewrite (header_word_le32 _ _ (de_platform e)) by done. cbn [tbind].
  rewrite (header_word_le32 _ _ (de_subtype e)) by done. cbn [tbind].
  rewrite (header_word_le32 _ _ (de_hw_rev e)) by done. cbn [tbind].
  rewrite (header_word_le32 _ _ (de_hw_rev_end e)) by done. cbn [tbind].
  rewrite (header_word_le32 _ _ (de_offset e)) by done. cbn [tbind].
  rewrite (header_word_le32 _ _ (de_size e)) by done. cbn [tbind].
  by rewrite (header_word_le32 _ _ (de_space e)) by done.
Qed.

Lemma dump_entries_run img B es : forall A i,
  length A = (12 + 32 * i)%nat -> Forall words_u32 es ->
  dump_entries img (A ++ (es ≫= entry_bytes) ++ B) i (length es) =
    Ret ((fun e => mkDumped (de_chip e) (de_platform e) (de_subtype e) (de_hw_rev e)
                     (de_hw_rev_end e) (read_at img (de_offset e) (de_size e))) <$> es).
Proof.
  induction es as [|e es IH]; intros A i HA Hes; [done|].
  apply Forall_cons in Hes as [He Hes]. rewrite bind_cons, <- app_assoc. cbn [dump_entries length].
  rewrite dump_entry_run by done. cbn [tbind]. rewrite (app_assoc A).
  rewrite IH; [done| |done]. rewrite length_app, HA. change (length (entry_bytes e)) with 32%nat. lia.
Qed.

(** ** The whole block *)
Lemma mapM_all {A B} (f : A -> option B) g l :
  Forall (fun x => f x = Some (g x)) l -> mapM f l = Some (g <$> l).
Proof. induction 1 as [|x l Hx _ IH]; [done|]. cbn. rewrite Hx. cbn. by rewrite IH. Qed.

Section block.
Context (p : Z) (st : scan).
Hypothesis (Hp : is_page p) (Hok : scan_ok p st) (Hne : sc_blobs st <> []).

(** The header, with its size as the scan computes it, fits in one page, and the
    block in 32 bits. *)
Hypothesis Hhdr : 16 + 16 * zlength (sc_blobs st) * (zlength (sc_blobs st) + 1) <= p.
Hypothesis Hmax : p + pages p (sc_blobs st) < 2 ^ 32.

Definition blob_of (e : dt_entry) : bytes := default [] (sc_blobs st !! de_blob e).
Definition located (e : dt_entry) : dt_entry :=
  e<|de_offset := p + pages p (take (de_blob e) (sc_blobs st))|>
   <|de_size := round_up p (zlength (blob_of e))|>.
Definition sorted_entries : list dt_entry := qsort dt_entry_cmp (sc_entries st).

(** The image: the header page and the pages of the blobs. *)
Definition image : bytes :=
  ((DTBH_MAGIC ++ le32 DTBH_VERSION ++ le32 (zlength (sc_blobs st)))
   ++ ((located <$> sorted_entries) ≫= entry_bytes)
   ++ zeros (p - 12 - 32 * zlength (sc_blobs st)))
  ++ body p (sc_blobs st).

Lemma count_pos : 0 < zlength (sc_blobs st).
Proof. destruct (sc_blobs st); [done|]. unfold zlength. simpl. lia. Qed.

Lemma sorted_index e : e ∈ sorted_entries -> exists b, sc_blobs st !! de_blob e = Some b /\ ids_u32 e.
Proof.
  intros He. unfold sorted_entries in He. rewrite (qsort_perm dt_entry_cmp (sc_entries st)) in He.
  pose proof (proj1 (Forall_forall _ _) (ok_entries p st Hok) e He) as Hu.
  apply list_elem_of_lookup in He as [i Hi]. rewrite (ok_index p st Hok i e Hi).
  apply lookup_lt_Some in Hi. rewrite (ok_length p st Hok) in Hi.
  apply lookup_lt_is_Some in Hi as [b Hb]. by exists b.
Qed.

Lemma length_sorted : length sorted_entries = length (sc_blobs st).
Proof.
  unfold sorted_entries. rewrite (Permutation_length (qsort_perm dt_entry_cmp (sc_entries st))).
  apply Hok.
Qed.

Lemma pages_take i b : sc_blobs st !! i = Some b ->
  pages p (take i (sc_blobs st)) + round_up p (zlength b) <= pages p (sc_blobs st).
Proof.
  intros Hi. rewrite <- (take_drop_middle _ _ _ Hi) at 2. unfold pages. rewrite page_sum_app.
  cbn [page_sum]. pose proof (pages_nonneg p Hp (drop (S i) (sc_blobs st))). unfold pages in *. lia.
Qed.

Lemma located_words e : e ∈ sorted_entries -> words_u32 (located e).
Proof.
  intros He. destruct (sorted_index e He) as (b & Hb & Hu). split; [exact Hu|]. simpl.
  unfold blob_of. rewrite Hb. simpl. pose proof (pages_take _ _ Hb).
  pose proof (pages_nonneg p Hp (take (de_blob e) (sc_blobs st))). pose proof (is_page_pos p Hp).
  pose proof (round_up_nonneg p Hp (zlength b) (zlength_nonneg b)). unfold is_u32. lia.
Qed.

Lemma header_size : page_align p (u32 (sc_hdr_sz st + 4)) = p.
Proof.
  pose proof count_pos. pose proof (is_page_pos p Hp). pose proof (is_page_half p Hp).
  rewrite (ok_hdr p st Hok). set (n := zlength (sc_blobs st)) in *.
  assert (0 <= 16 * n * (n + 1)) as Hm by (apply Z.mul_nonneg_nonneg; lia).
  generalize dependent (16 * n * (n + 1)). intros m Hm' Hm.
  rewrite u32_add_l, u32_id by (unfold is_u32; lia).
  rewrite page_align_round; [|done|lia|lia]. unfold round_up.
  replace (12 + m + 4 + p - 1) with (15 + m + 1 * p) by lia.
  rewrite Z.div_add, Z.div_small by lia. lia.
Qed.

Lemma locate_all :
  mapM (locate p (blob_offsets p p (sc_blobs st)) (sc_blobs st)) sorted_entries
  = Some (located <$> sorted_entries).
Proof.
  apply mapM_all, Forall_forall. intros e He. destruct (sorted_index e He) as (b & Hb & _).
  pose proof (is_page_pos p Hp). pose proof (pages_take _ _ Hb) as Ht.
  pose proof (pages_nonneg p Hp (take (de_blob e) (sc_blobs st))).
  pose proof (zlength_nonneg b). pose proof (round_up_bounds p (zlength b)).
  unfold locate, located, blob_of. erewrite blob_offsets_lookup by (done || lia).
  rewrite Hb. simpl. rewrite page_align_round; [done|done|lia|lia].
Qed.

Lemma header_small : 12 + 32 * zlength (sc_blobs st) < p.
Proof. pose proof count_pos. nia. Qed.

Lemma zlength_entries (es : list dt_entry) : zlength (es ≫= entry_bytes) = 32 * zlength es.
Proof.
  induction es as [|e es IH]; [done|]. rewrite bind_cons, zlength_app, IH.
  change (zlength (entry_bytes e)) with 32. unfold zlength. rewrite length_cons. lia.
Qed.

Lemma zlength_located : zlength (located <$> sorted_entries) = zlength (sc_blobs st).
Proof. unfold zlength. by rewrite length_fmap, length_sorted. Qed.

Lemma build_block_run : build_block p st = Ret (Some image).
Proof.
  pose proof count_pos as Hpos. pose proof (is_page_pos p Hp) as Hpp.
  pose proof (pages_nonneg p Hp (sc_blobs st)) as Hnn. pose proof header_small as Hsmall.
  unfold build_block.
  rewrite (ok_count p st Hok), u32_id by (unfold is_u32; lia).
  rewrite (proj2 (Z.eqb_neq _ _)) by lia. rewrite header_size. fold sorted_entries.
  rewrite locate_all, (ok_blobs p st Hok), page_sum_align, u32_add_r, u32_id by (done || unfold is_u32; lia).
  pose proof zlength_located as Hlen.
  assert (zlength DTBH_MAGIC = 4) as Hmagic by (unfold zlength; by rewrite DTBH_MAGIC_length).
  unfold image. set (n := zlength (sc_blobs st)) in *. set (pg := pages p (sc_blobs st)) in *.
  rewrite mem_write_start by lia. cbn [tbind]. rewrite Hmagic.
  rewrite <- Hmagic at 1. rewrite mem_write_next by (change (zlength (le32 _)) with 4; lia).
  cbn [tbind]. change (zlength (le32 DTBH_VERSION)) with 4. rewrite app_assoc.
  replace 8 with (zlength (DTBH_MAGIC ++ le32 DTBH_VERSION)) by (rewrite zlength_app, Hmagic; done).
  rewrite mem_write_next by (change (zlength (le32 _)) with 4; lia). cbn [tbind].
  change (zlength (le32 n)) with 4. rewrite app_assoc, <- (app_assoc DTBH_MAGIC).
  set (hd := DTBH_MAGIC ++ le32 DTBH_VERSION ++ le32 n).
  assert (zlength hd = 12) as Hhd by (unfold hd; rewrite !zlength_app, Hmagic; done).
  change DT_HEADER_PHYS_SIZE with 12. rewrite <- Hhd at 1.
  rewrite write_entries_run by (rewrite Hlen, ?Hhd; lia). rewrite Hlen, Hhd. cbn [tbind].
  rewrite page_rest_mod by done. rewrite Z.mod_small by lia.
  rewrite (u32_id (p - _)) by (unfold is_u32; lia). rewrite u32_id by (unfold is_u32; lia).
  replace (12 + 32 * n + (p - (12 + 32 * n))) with p by lia.
  replace (p + pg - 4 - 4 - 4 - 32 * n) with ((p - 12 - 32 * n) + pg) by lia.
  rewrite zeros_add, !app_assoc, <- (app_assoc hd) by lia.
  set (pre := hd ++ _ ++ _).
  assert (zlength pre = p) as Hpre.
  { unfold pre. rewrite !zlength_app, Hhd, zlength_entries, Hlen, zlength_zeros by lia. lia. }
  rewrite <- Hpre at 2. by rewrite write_blobs_run by (done || rewrite Hpre; done).
Qed.
Lemma zlength_header_page :
  zlength ((DTBH_MAGIC ++ le32 DTBH_VERSION ++ le32 (zlength (sc_blobs st)))
    ++ ((located <$> sorted_entries) ≫= entry_bytes)
    ++ zeros (p - 12 - 32 * zlength (sc_blobs st))) = p.
Proof.
  pose proof header_small. assert (zlength DTBH_MAGIC = 4) as Hmagic by (unfold zlength; by rewrite DTBH_MAGIC_length).
  rewrite !zlength_app, zlength_entries, zlength_located, zlength_zeros, Hmagic by lia.
  change (zlength (le32 _)) with 4. lia.
Qed.

Lemma read_blob e : e ∈ sorted_entries ->
  read_at image (de_offset (located e)) (de_size (located e)) = Some (padded p (blob_of e)).
Proof.
  intros He. destruct (sorted_index e He) as (b & Hb & _). pose proof (is_page_pos p Hp).
  unfold read_at, located, blob_of. rewrite Hb. simpl.
  pose proof (zlength_padded p b ltac:(lia)) as Hz. pose proof (pages_take _ _ Hb).
  pose proof (pages_nonneg p Hp (take (de_blob e) (sc_blobs st))).
  destruct (Z.eqb_spec (round_up p (zlength b)) 0) as [H0'|Hne'].
  { rewrite H0' in Hz. by destruct (padded p b). }
  unfold image. rewrite zlength_app, zlength_header_page, zlength_body by done.
  rewrite (proj2 (Z.leb_le _ _)) by lia. f_equal.
  destruct (body_lookup p Hp _ _ _ Hb) as [rest Hrest].
  rewrite Z2Nat.inj_add by lia.
  replace (Z.to_nat p) with (length ((DTBH_MAGIC ++ le32 DTBH_VERSION ++ le32 (zlength (sc_blobs st)))
    ++ ((located <$> sorted_entries) ≫= entry_bytes)
    ++ zeros (p - 12 - 32 * zlength (sc_blobs st)))).
  2: { pose proof zlength_header_page as Hh. unfold zlength in Hh at 1. lia. }
  rewrite drop_app_add, Hrest. unfold zlength in Hz at 1.
  by rewrite take_app_length' by lia.
Qed.

Lemma unpack_image :
  unpackdtbhimg image p =
    Ret ((fun e => mkDumped (de_chip e) (de_platform e) (de_subtype e) (de_hw_rev e)
                     (de_hw_rev_end e) (Some (padded p (blob_of e)))) <$> sorted_entries).
Proof.
  pose proof (is_page_pos p Hp). pose proof (pages_nonneg p Hp (sc_blobs st)). pose proof count_pos.
  pose proof zlength_header_page as Hpage. pose proof header_small.
  unfold unpackdtbhimg. rewrite (proj2 (Z.leb_gt _ _)) by lia. unfold image at 1.
  rewrite zlength_app, Hpage, zlength_body, (proj2 (Z.ltb_ge _ _)) by (done || lia). cbn [orb].
  assert (take (Z.to_nat p) image = (DTBH_MAGIC ++ le32 DTBH_VERSION ++ le32 (zlength (sc_blobs st)))
    ++ ((located <$> sorted_entries) ≫= entry_bytes)
    ++ zeros (p - 12 - 32 * zlength (sc_blobs st))) as ->.
  { unfold image. apply take_app_length'. unfold zlength in Hpage at 1. lia. }
  set (hd := DTBH_MAGIC ++ le32 DTBH_VERSION ++ le32 (zlength (sc_blobs st))).
  rewrite (header_word_le32 _ _ (zlength (sc_blobs st))); [|unfold hd|unfold is_u32; lia].
  2: { rewrite (app_assoc DTBH_MAGIC), <- app_assoc, (drop_app_length' (DTBH_MAGIC ++ _)); [done|].
       rewrite length_app, DTBH_MAGIC_length. done. }
  cbn [tbind].
  replace (Z.to_nat (zlength (sc_blobs st))) with (length (located <$> sorted_entries)).
  2: { pose proof zlength_located as Hl. unfold zlength in *. lia. }
  rewrite dump_entries_run.
  - f_equal. rewrite <- list_fmap_compose. apply list_fmap_ext. intros i e Hi.
    apply list_elem_of_lookup_2 in Hi. unfold compose. by rewrite read_blob.
  - unfold hd. rewrite length_app, DTBH_MAGIC_length. done.
  - apply Forall_fmap, Forall_forall. intros e He. by apply located_words.
Qed.
End block.
(** C30: [unpackdtbhimg] takes apart what [load_dtbh_block] builds: for a directory
    with [n] valid blobs, at least one, such that the size of the header as the code adds it
    up, 16 + 16 n (n + 1), is at most a page (ten blobs in a page of 2048 bytes), and
    a block below 4 GB, the block is built, and unpacking it with the same page size
    writes, for every entry in the order of the sort, its identification and
    its blob followed by the zeros that fill its last page.  With more blobs the offsets
    in the table can be wrong even if the entries fit in the page
    ([dtb_offsets_wrong]). *)
Theorem dtb_roundtrip p files st :
  is_page p -> scan_dir p files scan_init = Ret st -> sc_blobs st <> [] ->
  16 + 16 * zlength (sc_blobs st) * (zlength (sc_blobs st) + 1) <= p ->
  p + pages p (sc_blobs st) < 2 ^ 32 ->
  exists img, load_dtbh_block (Some files) p = Ret (Some img) /\
    zlength img = p + pages p (sc_blobs st) /\
    unpackdtbhimg img p =
      Ret ((fun e => mkDumped (de_chip e) (de_platform e) (de_subtype e) (de_hw_rev e)
                       (de_hw_rev_end e) (Some (padded p (blob_of st e))))
           <$> qsort dt_entry_cmp (sc_entries st)).
Proof.
  intros Hp Hs Hne Hhdr Hmax. pose proof (scan_dir_ok p files _ _ (scan_init_ok p) Hs) as Hok.
  exists (image p st). split; [|split].
  - simpl. rewrite Hs. simpl. by apply build_block_run.
  - unfold image. rewrite zlength_app, zlength_header_page, zlength_body by done. done.
  - by apply unpack_image.
Qed.
(** ** Page size 0 *)
Lemma page_align_0 n : page_align 0 n = 0.
Proof. unfold page_align. change (u32 (Z.lnot (u32 (0 - 1)))) with 0. apply Z.land_0_r. Qed.

Lemma page_sum_0 l : page_sum (page_align 0) l = 0.
Proof. induction l as [|b l IH]; [done|]. cbn [page_sum]. by rewrite page_align_0, IH. Qed.

Lemma length_blob_offsets p l : forall off, length (blob_offsets p off l) = length l.
Proof. induction l as [|b l IH]; intros off; [done|]. simpl. by rewrite IH. Qed.

Lemma locate_some p st hdr_sz es : scan_ok p st -> es ⊆ sc_entries st ->
  is_Some (mapM (locate p (blob_offsets p hdr_sz (sc_blobs st)) (sc_blobs st)) es).
Proof.
  intros Hok Hes. apply mapM_is_Some, Forall_forall. intros e He. apply Hes in He.
  apply list_elem_of_lookup in He as [i Hi]. unfold compose, locate. rewrite (ok_index p st Hok i e Hi).
  apply lookup_lt_Some in Hi. rewrite (ok_length p st Hok) in Hi.
  destruct (lookup_lt_is_Some_2 (blob_offsets p hdr_sz (sc_blobs st)) i) as [off ->].
  { by rewrite length_blob_offsets. }
  by destruct (lookup_lt_is_Some_2 (sc_blobs st) i Hi) as [b ->].
Qed.

Lemma build_block_0 st : scan_ok 0 st -> sc_count st <> 0 -> build_block 0 st = Crash OutOfBounds.
Proof.
  intros Hok Hc. unfold build_block. rewrite (proj2 (Z.eqb_neq _ _)) by done.
  rewrite page_align_0, (ok_blobs 0 st Hok), page_sum_0.
  destruct (locate_some 0 st 0 (qsort dt_entry_cmp (sc_entries st)) Hok) as [es ->].
  { intros e. by rewrite (qsort_perm dt_entry_cmp (sc_entries st)). }
  assert (zlength DTBH_MAGIC = 4) as Hm by (unfold zlength; by rewrite DTBH_MAGIC_length).
  unfold mem_write. by rewrite Hm.
Qed.

(** [mkdtbimg] sets its default page size only after [-s].  Called with an output
    file and a directory alone, as its usage text says, it passes the page size 0:
    every aligned size is then 0, and for a directory with any valid blob the
    header is copied into an allocation of no bytes. *)
Theorem mkdtbimg_pagesize_zero h out dir files st :
  dir ∉ ["--output"; "-o"; "--dt_dir"; "-p"; "-s"]%string ->
  h_dirs h !! dir = Some files ->
  scan_dir 0 files scan_init = Ret st -> sc_count st <> 0 ->
  mkdtbimg h ["-o"; out; dir]%string = Crash OutOfBounds.
Proof.
  intros Hdir Hfiles Hs Hc. apply not_elem_of_cons in Hdir as [? Hdir].
  repeat (apply not_elem_of_cons in Hdir as [? Hdir]).
  unfold mkdtbimg. cbn [mkdtb_args]. unfold mkdtb_arg at 1. cbn [tbind].
  rewrite bool_decide_eq_false_2, bool_decide_eq_true_2 by done. cbn [orb tbind].
  unfold mkdtb_arg. repeat rewrite (bool_decide_eq_false_2 (dir = _)) by done. cbn [orb].
  rewrite bool_decide_eq_true_2 by (by rewrite Hfiles). cbn.
  rewrite Hfiles. cbn. rewrite Hs. cbn. rewrite build_block_0; [done| |done].
  by eapply scan_dir_ok, Hs.
Qed.
End dtb.

(** ** On concrete blobs *)
Definition sample_dtbh : Dtbh.
Proof.
  refine {| DTBH_MAGIC := [68; 84; 66; 72]; DTBH_VERSION := 2; DTBH_PLATFORM := "k3g";
            DTBH_SUBTYPE := "k3g_eur_open"; DTBH_PLATFORM_CODE := 0x1e92;
            DTBH_SUBTYPE_CODE := 0x7d64f612 |}; (done || by unfold is_u32).
Defined.

(** Blobs whose first two bytes are the chip and the revision. *)
Definition sample_getprop (dtb : bytes) (name : string) : bytes + Z :=
  if bool_decide (name = "model_info-platform"%string) then inl (string_bytes "k3g" ++ [0])
  else if bool_decide (name = "model_info-subtype"%string) then inl (string_bytes "k3g_eur_open" ++ [0])
  else match dtb with
       | chip :: rev :: _ =>
           if bool_decide (name = "model_info-chip"%string) then inl [0; 0; 0; chip mod 256]
           else inl [0; 0; 0; rev mod 256]
       | _ => inr (-1)
       end.
Definition sample_fdt : Fdt.
Proof.
  refine {| fdt_check_header := fun dtb => bool_decide (dtb <> []); fdt_getprop := sample_getprop |}.
  intros dtb name l. unfold sample_getprop, is_byte.
  pose proof (fun x => Z.mod_pos_bound x 256 ltac:(lia)) as Hm.
  repeat case_bool_decide; try (intros [= <-]; repeat constructor; simpl; lia).
  all: destruct dtb as [|chip [|rev dtb]]; try done.
  all: intros [= <-]; repeat constructor; try lia; apply Hm.
Defined.

(** Insertion by the comparison function. *)
Fixpoint insert_by (cmp : dt_entry -> dt_entry -> Z) (x : dt_entry) (l : list dt_entry) : list dt_entry :=
  match l with
  | [] => [x]
  | y :: l' => if cmp x y <=? 0 then x :: l else y :: insert_by cmp x l'
  end.
Lemma insert_by_perm cmp x l : insert_by cmp x l ≡ₚ x :: l.
Proof.
  induction l as [|y l IH]; [done|]. simpl. case_match; [done|].
  rewrite IH. apply Permutation_swap.
Qed.
Definition sample_qsort : Qsort.
Proof.
  refine {| qsort := fun cmp => foldr (insert_by cmp) [] |}.
  intros cmp l. induction l as [|x l IH]; [done|]. simpl. by rewrite insert_by_perm, IH.
Defined.

Definition sample_files : list (string * option bytes) :=
  [("a.dtb", Some [7; 2; 65; 66]); ("notes.txt", None); ("b.dtb", Some [5; 1; 67])]%string.
Definition sample_scan : scan :=
  match scan_dir (H := sample_dtbh) (H0 := sample_fdt) 2048 sample_files scan_init with
  | Ret st => st
  | _ => scan_init
  end.

Lemma dtb_roundtrip_witness :
  exists img,
    load_dtbh_block (H := sample_dtbh) (H0 := sample_fdt) (H1 := sample_qsort)
      (Some sample_files) 2048 = Ret (Some img) /\
    zlength img = 2048 + pages 2048 [[7; 2; 65; 66]; [5; 1; 67]] /\
    unpackdtbhimg img 2048 =
      Ret [mkDumped 5 0x1e92 0x7d64f612 1 1 (Some (padded 2048 [5; 1; 67]));
           mkDumped 7 0x1e92 0x7d64f612 2 2 (Some (padded 2048 [7; 2; 65; 66]))].
Proof.
  apply (dtb_roundtrip (H := sample_dtbh) (H0 := sample_fdt) (H1 := sample_qsort) 2048 sample_files
           sample_scan); [|done..]. exists 11. done.
Defined.

(** Eleven small blobs, numbered by their revision. *)
Definition eleven_files : list (string * option bytes) :=
  (fun i => ("x.dtb"%string, Some [7; Z.of_nat i])) <$> seq 1 11.

(** The size of the header is added up as [entry_count * DT_ENTRY_PHYS_SIZE] in
    every round of the loop, so it grows with the square of the number of blobs.
    With eleven blobs and pages of 2048 bytes the offsets in the table are one
    page beyond the blobs: the blob unpacked for the first entry is the second
    one, and the last entry gets an empty page. *)
Theorem dtb_offsets_wrong :
  match load_dtbh_block (H := sample_dtbh) (H0 := sample_fdt) (H1 := sample_qsort)
          (Some eleven_files) 2048 with
  | Ret (Some img) =>
      match unpackdtbhimg img 2048 with
      | Ret ds =>
          dm_hw_rev <$> ds = Z.of_nat <$> seq 1 11 /\
          (fun d => take 2 <$> dm_data d) <$> ds
            = (Some <$> ((fun i => [7; Z.of_nat i]) <$> seq 2 10)) ++ [Some [0; 0]]
      | _ => False
      end
  | _ => False
  end.
Proof. vm_compute. done. Qed.


Lemma mkdtbimg_pagesize_zero_witness :
  mkdtbimg (H := sample_dtbh) (H0 := sample_fdt) (H1 := sample_qsort)
    (mkHost ∅ {["dtbs" := sample_files]} (fun _ => true) (fun _ _ => true))
    ["-o"; "dt.img"; "dtbs"]%string = Crash OutOfBounds.
Proof.
  destruct (scan_dir (H := sample_dtbh) (H0 := sample_fdt) 0 sample_files scan_init) as [st| |] eqn:Hs;
    [|exfalso; by vm_compute in Hs..].
  apply (mkdtbimg_pagesize_zero (H := sample_dtbh) (H0 := sample_fdt) (H1 := sample_qsort) _ _ _
           sample_files st); [by apply (bool_decide_unpack _)|done|exact Hs|].
  vm_compute in Hs. by injection Hs as <-.
Defined.
