(* ===== verification/BootImage.v ===== *)
(** * The boot image: [bootimg.h], [mkbootimg.c] and [unpackbootimg.c]

    [mkbootimg] writes a header page and the kernel, the ramdisk, the second
    stage, the device tree image and the signature after it; [unpackbootimg]
    reads them back.  SHA-1 is a parameter.  Allocations succeed, the names
    of the files fit in [PATH_MAX], and [unpackbootimg] can create its output
    files. *)
From Stdlib Require Import Ascii.
From stdpp Require Import pretty.
From S2P Require Import Prelude Machine Bytes DtbImage.

(** ** The header *)
Definition BOOT_MAGIC : bytes := string_bytes "ANDROID!".
Definition BOOT_MAGIC_SIZE : Z := 8.
Definition BOOT_NAME_SIZE : Z := 16.
Definition BOOT_ARGS_SIZE : Z := 512.

Record boot_img_hdr := mkHdr {
  magic : bytes;
  kernel_size : Z; kernel_addr : Z;
  ramdisk_size : Z; ramdisk_addr : Z;
  second_size : Z; second_addr : Z;
  tags_addr : Z; page_size : Z; dt_size : Z; unused : Z;
  name : bytes;
  cmdline : bytes;
  id : bytes               (* 8 words, as their 32 bytes *)
}.
Definition sizeof_hdr : Z := 608.

(** The header as it lies in memory, and back. *)
Definition hdr_bytes (h : boot_img_hdr) : bytes :=
  magic h ++ le32 (kernel_size h) ++ le32 (kernel_addr h) ++ le32 (ramdisk_size h)
  ++ le32 (ramdisk_addr h) ++ le32 (second_size h) ++ le32 (second_addr h) ++ le32 (tags_addr h)
  ++ le32 (page_size h) ++ le32 (dt_size h) ++ le32 (unused h) ++ name h ++ cmdline h ++ id h.

Definition hdr_of_bytes (l : bytes) : boot_img_hdr :=
  let w k := default 0 (word_at l (8 + 4 * k)) in
  mkHdr (take 8 l) (w 0%nat) (w 1%nat) (w 2%nat) (w 3%nat) (w 4%nat) (w 5%nat) (w 6%nat) (w 7%nat)
    (w 8%nat) (w 9%nat) (take 16 (drop 48 l)) (take 512 (drop 64 l)) (take 32 (drop 576 l)).

(** SHA-1 of what the calls of [SHA1_Update] were given, one after the other. *)
Class Sha1 := {
  sha1 : bytes -> bytes;
  length_sha1 : forall l, length (sha1 l) = 20%nat
}.

(** ** [mkbootimg]: the arguments *)
Record boot_opts := mkBootOpts {
  bo_bootimg : option string; bo_kernel_fn : option string; bo_ramdisk_fn : option string;
  bo_second_fn : option string; bo_cmdline : string; bo_board : string;
  bo_dt_dir : option string; bo_dt_fn : option string; bo_sig_fn : option string;
  bo_pagesize : Z; bo_base : Z; bo_kernel_offset : Z; bo_ramdisk_offset : Z;
  bo_second_offset : Z; bo_tags_offset : Z
}.
#[local] Instance boot_opts_eta : RecEta boot_opts := fun o =>
  mkBootOpts (bo_bootimg o) (bo_kernel_fn o) (bo_ramdisk_fn o) (bo_second_fn o) (bo_cmdline o)
    (bo_board o) (bo_dt_dir o) (bo_dt_fn o) (bo_sig_fn o) (bo_pagesize o) (bo_base o)
    (bo_kernel_offset o) (bo_ramdisk_offset o) (bo_second_offset o) (bo_tags_offset o).

Definition boot_defaults : boot_opts :=
  mkBootOpts None None None None "" "" None None None 2048
    0x10000000 0x00008000 0x01000000 0x00f00000 0x00000100.

Definition page_sizes : list Z := [2048; 4096; 8192; 16384; 32768; 65536; 131072].

Definition boot_arg (o : boot_opts) (arg val : string) : tool boot_opts :=
  let arg_is s := bool_decide (arg = s) in
  if arg_is "--output"%string || arg_is "-o"%string then Ret o<|bo_bootimg := Some val|>
  else if arg_is "--kernel"%string then Ret o<|bo_kernel_fn := Some val|>
  else if arg_is "--ramdisk"%string then Ret o<|bo_ramdisk_fn := Some val|>
  else if arg_is "--second"%string then Ret o<|bo_second_fn := Some val|>
  else if arg_is "--cmdline"%string then Ret o<|bo_cmdline := val|>
  else if arg_is "--base"%string then Ret o<|bo_base := u32 (strtoul val 16)|>
  else if arg_is "--kernel_offset"%string then Ret o<|bo_kernel_offset := u32 (strtoul val 16)|>
  else if arg_is "--ramdisk_offset"%string then Ret o<|bo_ramdisk_offset := u32 (strtoul val 16)|>
  else if arg_is "--second_offset"%string then Ret o<|bo_second_offset := u32 (strtoul val 16)|>
  else if arg_is "--tags_offset"%string then Ret o<|bo_tags_offset := u32 (strtoul val 16)|>
  else if arg_is "--board"%string then Ret o<|bo_board := val|>
  else if arg_is "--pagesize"%string then
    let pagesize := u32 (strtoul val 10) in
    if bool_decide (pagesize ∈ page_sizes) then Ret o<|bo_pagesize := pagesize|> else Exit (-1)
  else if arg_is "--dt_dir"%string then Ret o<|bo_dt_dir := Some val|>
  else if arg_is "--dt"%string then Ret o<|bo_dt_fn := Some val|>
  else if arg_is "--signature"%string then Ret o<|bo_sig_fn := Some val|>
  else Exit 1.

Fixpoint boot_args (o : boot_opts) (argv : list string) : tool boot_opts :=
  match argv with
  | [] => Ret o
  | arg :: argv =>
      match argv with
      | [] => Exit 1
      | val :: argv => do o <- boot_arg o arg val ; boot_args o argv
      end
  end.

(** The checks before anything is loaded: the output, the kernel and the ramdisk. *)
Definition boot_check (o : boot_opts) : tool (string * string * string) :=
  if bool_decide (is_Some (bo_dt_dir o)) && bool_decide (is_Some (bo_dt_fn o)) then Exit 1
  else
    match bo_bootimg o, bo_kernel_fn o, bo_ramdisk_fn o with
    | Some bootimg, Some kernel_fn, Some ramdisk_fn =>
        if BOOT_NAME_SIZE <=? Z.of_nat (String.length (bo_board o)) then Exit 1
        else if BOOT_ARGS_SIZE - 1 <? Z.of_nat (String.length (bo_cmdline o)) then Exit 1
        else Ret (bootimg, kernel_fn, ramdisk_fn)
    | _, _, _ => Exit 1
    end.

Section boot.
Context `{Dtbh} `{Fdt} `{Qsort} `{Sha1}.

(** ** [mkbootimg]: loading *)
Record boot_data := mkBootData {
  bd_kernel : bytes; bd_ramdisk : bytes; bd_second : option bytes;
  bd_dt : option bytes; bd_sig : option bytes
}.

Definition load_named (h : host) (fn : string) : tool bytes :=
  match load_file (h_files h !! fn) with Some data => Ret data | None => Exit 1 end.
Definition load_opt (h : host) (fn : option string) : tool (option bytes) :=
  match fn with None => Ret None | Some fn => do data <- load_named h fn ; Ret (Some data) end.

Definition load_dt_dir (h : host) (o : boot_opts) : tool (option bytes) :=
  match bo_dt_dir o with
  | None => Ret None
  | Some dt_dir =>
      do dt <- load_dtbh_block (h_dirs h !! dt_dir) (bo_pagesize o) ;
      match dt with None => Exit 1 | Some dt => Ret (Some dt) end
  end.

Definition boot_load (h : host) (o : boot_opts) (kernel_fn ramdisk_fn : string) : tool boot_data :=
  do kernel <- load_named h kernel_fn ;
  do ramdisk <- (if bool_decide (ramdisk_fn = "NONE"%string) then Ret [] else load_named h ramdisk_fn) ;
  do second <- load_opt h (bo_second_fn o) ;
  do dt <- load_dt_dir h o ;
  do dt <- (match bo_dt_fn o with None => Ret dt | Some _ => load_opt h (bo_dt_fn o) end) ;
  do sig <- load_opt h (bo_sig_fn o) ;
  Ret (mkBootData kernel ramdisk second dt sig).

(** ** [mkbootimg]: the header *)
Definition opt_size (d : option bytes) : Z := zlength (default [] d).

(** [strcpy] into a field of zeros. *)
Definition str_field (size : Z) (s : string) : bytes :=
  string_bytes s ++ zeros (size - zlength (string_bytes s)).

Definition boot_id (d : boot_data) : bytes :=
  sha1 (bd_kernel d ++ le32 (zlength (bd_kernel d))
        ++ bd_ramdisk d ++ le32 (zlength (bd_ramdisk d))
        ++ default [] (bd_second d) ++ le32 (opt_size (bd_second d))
        ++ match bd_dt d with Some dt => dt ++ le32 (zlength dt) | None => [] end) ++ zeros 12.

Definition boot_header (o : boot_opts) (d : boot_data) : boot_img_hdr :=
  mkHdr BOOT_MAGIC
    (zlength (bd_kernel d)) (u32 (bo_base o + bo_kernel_offset o))
    (zlength (bd_ramdisk d)) (u32 (bo_base o + bo_ramdisk_offset o))
    (opt_size (bd_second d)) (u32 (bo_base o + bo_second_offset o))
    (u32 (bo_base o + bo_tags_offset o)) (bo_pagesize o) (opt_size (bd_dt d)) 0
    (str_field BOOT_NAME_SIZE (bo_board o)) (str_field BOOT_ARGS_SIZE (bo_cmdline o)) (boot_id d).

(** ** [mkbootimg]: writing

    A write takes the content of the output so far; [Ret None] is [goto fail]. *)
Definition put (h : host) (data out : bytes) : tool (option bytes) := Ret (write_fd h out data).

(** The zeros come from an array of 131072 bytes. *)
Definition write_padding (h : host) (pagesize itemsize : Z) (out : bytes) : tool (option bytes) :=
  if page_rest pagesize itemsize =? 0 then Ret (Some out)
  else
    let count := u32 (pagesize - page_rest pagesize itemsize) in
    if 131072 <? count then Crash OutOfBounds else put h (zeros count) out.

Definition put_signature (h : host) (sig out : bytes) : tool (option bytes) :=
  if zlength sig <? 256 then Crash OutOfBounds else put h (take 256 sig) out.

Fixpoint run_writes (fs : list (bytes -> tool (option bytes))) (out : bytes) : tool (option bytes) :=
  match fs with
  | [] => Ret (Some out)
  | f :: fs =>
      match f out with
      | Ret (Some out) => run_writes fs out
      | r => r
      end
  end.

Definition write_image (h : host) (pagesize : Z) (hdr : boot_img_hdr) (d : boot_data)
  : tool (option bytes) :=
  run_writes
    ([put h (hdr_bytes hdr); write_padding h pagesize sizeof_hdr;
      put h (bd_kernel d); write_padding h pagesize (kernel_size hdr);
      put h (bd_ramdisk d); write_padding h pagesize (ramdisk_size hdr)]
     ++ match bd_second d with
        | Some second => [put h second; write_padding h pagesize (ramdisk_size hdr)]
        | None => []
        end
     ++ match bd_dt d with
        | Some dt => [put h dt; write_padding h pagesize (dt_size hdr)]
        | None => []
        end
     ++ match bd_sig d with Some sig => [put_signature h sig] | None => [] end) [].

(** The exit code and the host afterwards; the returns before the output is
    opened are [Exit]. *)
Definition mkbootimg (h : host) (argv : list string) : tool (Z * host) :=
  do o <- boot_args boot_defaults argv ;
  do fns <- boot_check o ;
  let '(bootimg, kernel_fn, ramdisk_fn) := fns in
  do d <- boot_load h o kernel_fn ramdisk_fn ;
  if negb (h_creat_ok h bootimg) then Exit 1
  else
    do r <- write_image h (bo_pagesize o) (boot_header o d) d ;
    match r with
    | Some out => Ret (0, h<|h_files ::= <[bootimg := out]>|>)
    | None => Ret (1, h<|h_files ::= delete bootimg|>)
    end.
End boot.

(** ** [unpackbootimg]: reading

    [fread(buf, size, 1, f)] at a position: what was read, [None] when the file
    ends before (the buffer is then not filled), and the position after. *)
Definition fread (f : bytes) (pos size : Z) : option bytes * Z :=
  if pos + size <=? zlength f
  then (Some (take (Z.to_nat size) (drop (Z.to_nat pos) f)), pos + size)
  else (None, Z.max pos (zlength f)).

(** The position after the padding; the buffer has [pagesize] bytes. *)
Definition read_padding (f : bytes) (pos itemsize pagesize : Z) : tool Z :=
  if page_rest pagesize itemsize =? 0 then Ret pos
  else
    let count := u32 (pagesize - page_rest pagesize itemsize) in
    let got := Z.max 0 (Z.min count (zlength f - pos)) in
    if Z.max 0 pagesize <? got then Crash OutOfBounds else Ret (pos + got).

(** One round of the search: the bytes at [i] go over the first bytes of [tmp]. *)
Definition magic_round (f tmp : bytes) (i : nat) : bytes :=
  let got := take 8 (drop i f) in got ++ drop (length got) tmp.

Fixpoint find_magic (f tmp : bytes) (i rounds : nat) : option nat :=
  match rounds with
  | O => None
  | S rounds =>
      let tmp := magic_round f tmp i in
      if bool_decide (take 8 tmp = BOOT_MAGIC) then Some i else find_magic f tmp (S i) rounds
  end.

(** A C string: up to its terminator, which has to be there. *)
Fixpoint c_string (l : bytes) : option bytes :=
  match l with
  | [] => None
  | b :: l => if b =? 0 then Some [] else cons b <$> c_string l
  end.

(** [%08x] *)
Definition hex_digit (d : Z) : Z := if d <? 10 then 48 + d else 87 + d.
Definition hex8 (x : Z) : bytes :=
  (fun k => hex_digit (x / 16 ^ k mod 16)) <$> [7; 6; 5; 4; 3; 2; 1; 0].

(** [basename]: the last component, without the slashes after it. *)
Fixpoint last_component (rev : list Ascii.ascii) : list Ascii.ascii :=
  match rev with
  | [] => []
  | c :: rev => if bool_decide (c = "/"%char) then [] else last_component rev ++ [c]
  end.
Fixpoint strip_slashes (rev : list Ascii.ascii) : list Ascii.ascii :=
  match rev with
  | c :: rev' => if bool_decide (c = "/"%char) then strip_slashes rev' else rev
  | [] => []
  end.
Definition basename (s : string) : string :=
  let chars := String.list_ascii_of_string s in
  match last_component (strip_slashes (rev chars)) with
  | [] => if bool_decide (chars = []) then "." else "/"
  | l => String.string_of_list_ascii l
  end.

(** ** [unpackbootimg]: the program *)
Record unboot_opts := mkUnbootOpts {
  ub_directory : option string; ub_filename : option string; ub_pagesize : Z
}.
#[local] Instance unboot_opts_eta : RecEta unboot_opts := fun o =>
  mkUnbootOpts (ub_directory o) (ub_filename o) (ub_pagesize o).

Definition unboot_arg (o : unboot_opts) (arg : string) (val : option string) : tool unboot_opts :=
  let arg_is s := bool_decide (arg = s) in
  if arg_is "--input"%string || arg_is "-i"%string then Ret o<|ub_filename := val|>
  else if arg_is "--output"%string || arg_is "-o"%string then Ret o<|ub_directory := val|>
  else if arg_is "--pagesize"%string || arg_is "-p"%string then
    match val with
    | None => Crash NullDeref
    | Some val => Ret o<|ub_pagesize := s32 (strtoul val 16)|>
    end
  else Exit 0.

Fixpoint unboot_args (o : unboot_opts) (argv : list string) : tool unboot_opts :=
  match argv with
  | [] => Ret o
  | arg :: argv =>
      match argv with
      | [] => unboot_arg o arg None
      | val :: argv => do o <- unboot_arg o arg (Some val) ; unboot_args o argv
      end
  end.

(** The files written so far with their contents ([None]: the buffer was not
    filled), and how the run ended. *)
Definition unpacked : Type := list (string * option bytes) * tool Z.

Definition continue_with {A} (log : list (string * option bytes)) (m : tool A) (k : A -> unpacked)
  : unpacked :=
  match m with
  | Ret a => k a
  | Exit n => (log, Exit n)
  | Crash e => (log, Crash e)
  end.

(** The strings of [-cmdline], [-base], [-ramdisk_offset], [-second_offset],
    [-tags_offset] and [-pagesize]. *)
Definition string_files (path : string -> string) (header : boot_img_hdr) (cmd : bytes)
  : list (string * option bytes) :=
  let offset x := hex8 (u32 (x - kernel_addr header + 0x8000)) in
  let file suffix (s : bytes) := (path suffix, Some (s ++ [10])) in
  [file "-cmdline" cmd;
   file "-base" (hex8 (u32 (kernel_addr header - 0x8000)));
   file "-ramdisk_offset" (offset (ramdisk_addr header));
   file "-second_offset" (offset (second_addr header));
   file "-tags_offset" (offset (tags_addr header));
   file "-pagesize" (string_bytes (pretty (s32 (page_size header))))]%string.

(** [ramdisk[0] == 0x02 && ramdisk[1] == 0x21] *)
Definition ramdisk_suffix (ramdisk : option bytes) : tool string :=
  match ramdisk with
  | None => Crash Uninitialised
  | Some [] => Crash OutOfBounds
  | Some (b0 :: r) =>
      if b0 =? 0x02 then
        match r with
        | [] => Crash OutOfBounds
        | b1 :: _ => Ret (if b1 =? 0x21 then "-ramdisk.lz4"%string else "-ramdisk.gz"%string)
        end
      else Ret "-ramdisk.gz"%string
  end.

(** After the magic was found at [i].  The second stage is written to the stream
    [r], which [fclose] has released, so nothing after it is reached. *)
Definition unpack_from (f : bytes) (path : string -> string) (pagesize : Z) (i : nat) : unpacked :=
  let '(raw, pos) := fread f (Z.of_nat i) sizeof_hdr in
  continue_with [] (match raw with Some raw => Ret raw | None => Crash Uninitialised end) (fun raw =>
  let header := hdr_of_bytes raw in
  continue_with [] (match c_string (cmdline header ++ id header) with
                    | Some s => Ret s | None => Crash OutOfBounds end) (fun cmd =>
  let pagesize := if pagesize =? 0 then s32 (page_size header) else pagesize in
  let log := string_files path header cmd in
  continue_with log (read_padding f pos sizeof_hdr pagesize) (fun pos =>
  let '(kernel, pos) := fread f pos (kernel_size header) in
  let log := log ++ [(path "-zImage"%string, kernel)] in
  continue_with log (read_padding f pos (kernel_size header) pagesize) (fun pos =>
  let '(ramdisk, pos) := fread f pos (ramdisk_size header) in
  continue_with log (ramdisk_suffix ramdisk) (fun suffix =>
  let log := log ++ [(path suffix, ramdisk)] in
  continue_with log (read_padding f pos (ramdisk_size header) pagesize) (fun pos =>
  let '(second, pos) := fread f pos (second_size header) in
  (log ++ [(path "-second"%string, Some [])], Crash NullDeref))))))).

(** [tmp]: what the stack holds at first. *)
Definition unpackbootimg (h : host) (tmp : bytes) (argv : list string) : unpacked :=
  continue_with [] (unboot_args (mkUnbootOpts (Some "./"%string) None 0) argv) (fun o =>
  match ub_filename o with
  | None => ([], Exit 0)
  | Some filename =>
      match h_files h !! filename with
      | None => ([], Crash NullDeref)
      | Some f =>
          match find_magic f tmp 0 513 with
          | None => ([], Exit 1)
          | Some i =>
              match ub_directory o with
              | None => ([], Crash NullDeref)
              | Some directory =>
                  unpack_from f (fun suffix => directory +:+ "/" +:+ basename filename +:+ suffix)%string
                    (ub_pagesize o) i
              end
          end
      end
  end).

(** ** What the writes leave *)
Lemma round_up_pad p n : 0 < p ->
  round_up p n - n = if n mod p =? 0 then 0 else p - n mod p.
Proof.
  intros Hp. unfold round_up. pose proof (Z.div_mod n p ltac:(lia)) as Hd.
  pose proof (Z.mod_pos_bound n p ltac:(lia)).
  destruct (Z.eqb_spec (n mod p) 0).
  - replace (n + p - 1) with ((p - 1) + n / p * p) by lia. rewrite Z.div_add, Z.div_small by lia. lia.
  - replace (n + p - 1) with ((n mod p - 1) + (n / p + 1) * p) by lia.
    rewrite Z.div_add, Z.div_small by lia. lia.
Qed.

Definition second_pad (p : Z) (d : boot_data) : Z :=
  round_up p (zlength (bd_ramdisk d)) - zlength (bd_ramdisk d).

(** The bytes [write_image] appends. *)
Definition image_written (p : Z) (hdr : boot_img_hdr) (d : boot_data) : bytes :=
  padded p (hdr_bytes hdr) ++ padded p (bd_kernel d) ++ padded p (bd_ramdisk d)
  ++ match bd_second d with Some s => s ++ zeros (second_pad p d) | None => [] end
  ++ match bd_dt d with Some dt => padded p dt | None => [] end
  ++ match bd_sig d with Some sig => take 256 sig | None => [] end.

(** The layout [bootimg.h] documents: every part starts on a page. *)
Definition layout (p : Z) (hdr : boot_img_hdr) (d : boot_data) : bytes :=
  padded p (hdr_bytes hdr) ++ padded p (bd_kernel d) ++ padded p (bd_ramdisk d)
  ++ padded p (default [] (bd_second d)) ++ padded p (default [] (bd_dt d))
  ++ default [] (take 256 <$> bd_sig d).

(** A write that, when it goes through, appends [data]. *)
Definition appends (f : bytes -> tool (option bytes)) (data : bytes) : Prop :=
  forall out out', f out = Ret (Some out') -> out' = out ++ data.

Lemma run_writes_appends fs ds : Forall2 appends fs ds -> appends (run_writes fs) (concat ds).
Proof.
  induction 1 as [|f d fs ds Hf _ IH]; intros out out'; simpl.
  - intros [= <-]. by rewrite app_nil_r.
  - destruct (f out) as [[mid|]| |] eqn:Hm; try done.
    intros Hr. apply IH in Hr as ->. apply Hf in Hm as ->. by rewrite app_assoc.
Qed.

Lemma put_appends h data : appends (put h data) data.
Proof. intros out out' [= Hw]. by eapply write_fd_Some. Qed.

Lemma put_signature_appends h sig : appends (put_signature h sig) (take 256 sig).
Proof. intros out out'. unfold put_signature. case_match; [done|]. apply put_appends. Qed.

Lemma write_padding_appends h p n : is_page p -> appends (write_padding h p n) (zeros (round_up p n - n)).
Proof.
  intros Hp out out'. pose proof (is_page_pos p Hp) as Hpos. unfold write_padding.
  rewrite page_rest_mod, round_up_pad by (done || lia). pose proof (Z.mod_pos_bound n p ltac:(lia)).
  destruct (Z.eqb_spec (n mod p) 0).
  - intros [= <-]. change (zeros 0) with (@nil Z). by rewrite app_nil_r.
  - rewrite u32_id by (unfold is_u32; lia). case_match; [done|]. apply put_appends.
Qed.

Lemma page_sizes_page p : p ∈ page_sizes -> is_page p /\ 2048 <= p <= 131072.
Proof.
  unfold page_sizes. rewrite !elem_of_cons, elem_of_nil.
  intros [->|[->|[->|[->|[->|[->|[->|[]]]]]]]]; (split; [|lia]);
    [exists 11|exists 12|exists 13|exists 14|exists 15|exists 16|exists 17]; done.
Qed.

Lemma padded_nil p : 0 < p -> padded p [] = [].
Proof.
  intros Hp. unfold padded. change (zlength (@nil Z)) with 0. rewrite round_up_pad by lia.
  by rewrite Z.mod_0_l by lia.
Qed.

(** [write_image] writes [image_written] once the sizes in the header are those of
    the parts. *)
Record sized (hdr : boot_img_hdr) (d : boot_data) : Prop := {
  sized_hdr : zlength (hdr_bytes hdr) = sizeof_hdr;
  sized_kernel : kernel_size hdr = zlength (bd_kernel d);
  sized_ramdisk : ramdisk_size hdr = zlength (bd_ramdisk d);
  sized_dt : dt_size hdr = opt_size (bd_dt d)
}.

Lemma write_image_run h p hdr d img : is_page p -> sized hdr d ->
  write_image h p hdr d = Ret (Some img) -> img = image_written p hdr d.
Proof.
  intros Hp [Hh Hk Hr Hdt] Hw.
  pose proof (put_appends h) as Hput. pose proof (fun n => write_padding_appends h p n Hp) as Hpad.
  unfold write_image in Hw. rewrite Hk, Hr, Hdt, <- Hh in Hw.
  eapply run_writes_appends in Hw.
  2: { repeat apply Forall2_app.
       - repeat (apply Forall2_cons; split; [solve [apply Hput | apply Hpad]|]). apply Forall2_nil. done.
       - instantiate (1 := match bd_second d with
           | Some s => [s; zeros (second_pad p d)] | None => [] end).
         destruct (bd_second d); [|done]. repeat constructor; [apply Hput|apply Hpad].
       - instantiate (1 := match bd_dt d with
           | Some s => [s; zeros (round_up p (zlength s) - zlength s)] | None => [] end).
         destruct (bd_dt d); [|done]. repeat constructor; [apply Hput|apply Hpad].
       - instantiate (1 := match bd_sig d with Some s => [take 256 s] | None => [] end).
         destruct (bd_sig d); [|done]. repeat constructor. apply put_signature_appends. }
  rewrite Hw. unfold image_written, padded. cbn [app concat]. rewrite !concat_app.
  destruct (bd_second d), (bd_dt d), (bd_sig d);
    cbn [concat app]; rewrite ?app_nil_r, <- ?app_assoc; done.
Qed.

(** ** The header round trip *)
Record hdr_ok (h : boot_img_hdr) : Prop := {
  ok_words : Forall is_u32 [kernel_size h; kernel_addr h; ramdisk_size h; ramdisk_addr h;
    second_size h; second_addr h; tags_addr h; page_size h; dt_size h; unused h];
  ok_magic : length (magic h) = 8%nat;
  ok_name : length (name h) = 16%nat;
  ok_cmdline : length (cmdline h) = 512%nat;
  ok_id : length (id h) = 32%nat
}.

Lemma zlength_hdr h : hdr_ok h -> zlength (hdr_bytes h) = sizeof_hdr.
Proof.
  intros [_ Hm Hn Hc Hi]. unfold zlength, hdr_bytes. rewrite !length_app, !length_le32.
  unfold sizeof_hdr. lia.
Qed.

(** The fields after the magic, one by one. *)
Lemma word_at_shift A l k n : length A = n -> word_at (A ++ l) (n + k) = word_at l k.
Proof. intros <-. unfold word_at. by rewrite drop_app_add. Qed.
Lemma word_at_next x l k : word_at (le32 x ++ l) (4 * S k) = word_at l (4 * k).
Proof. rewrite Nat.mul_succ_r, Nat.add_comm. by apply word_at_shift. Qed.
Lemma word_at_here x l : is_u32 x -> word_at (le32 x ++ l) (4 * 0) = Some x.
Proof. apply (word_at_app []). Qed.
Lemma drop_next (A l : bytes) n k : length A = n -> drop (n + k) (A ++ l) = drop k l.
Proof. intros <-. apply drop_app_add. Qed.

Lemma drop_words h : length (magic h) = 8%nat ->
  drop 48 (hdr_bytes h) = name h ++ cmdline h ++ id h.
Proof. intros Hm. unfold hdr_bytes. by rewrite (drop_next (magic h) _ 8 40) by done. Qed.

Lemma hdr_roundtrip h : hdr_ok h -> hdr_of_bytes (hdr_bytes h) = h.
Proof.
  intros [Hw Hm Hn Hc Hi]. decompose_Forall_hyps. unfold hdr_of_bytes.
  assert (drop 64 (hdr_bytes h) = cmdline h ++ id h) as ->.
  { rewrite <- (drop_drop _ 16 48), drop_words, (drop_app_length' (name h)) by done. done. }
  assert (drop 576 (hdr_bytes h) = id h) as ->.
  { rewrite <- (drop_drop _ 528 48), drop_words, app_assoc by done. apply drop_app_length'.
    rewrite length_app. lia. }
  rewrite drop_words by done.
  rewrite (take_app_length' (name h)), (take_app_length' (cmdline h)), (take_ge (id h)) by (done || lia).
  unfold hdr_bytes. rewrite (take_app_length' (magic h)) by done.
  repeat rewrite (word_at_shift (magic h)) by done.
  rewrite !word_at_next, !word_at_here by done. by destruct h.
Qed.

(** ** What the arguments and the files can be *)
Lemma boot_arg_page o arg val o' :
  bo_pagesize o ∈ page_sizes -> boot_arg o arg val = Ret o' -> bo_pagesize o' ∈ page_sizes.
Proof.
  intros Hp Hr. unfold boot_arg in Hr. repeat (case_match; simplify_eq/=; try done).
  by case_bool_decide.
Qed.

(** What every argument keeps, the command line keeps. *)
Lemma boot_args_keep (P : boot_opts -> Prop) :
  (forall o arg val o', P o -> boot_arg o arg val = Ret o' -> P o') ->
  forall argv o o', P o -> boot_args o argv = Ret o' -> P o'.
Proof.
  intros Harg argv.
  induction argv as [argv IH] using (well_founded_induction (well_founded_ltof _ (@length string))).
  intros o o' Ho. destruct argv as [|arg [|val argv]]; cbn [boot_args]; [by intros [= <-]|done|].
  destruct (boot_arg o arg val) as [o1| |] eqn:Ha; cbn [tbind]; try done.
  apply IH; [unfold ltof; simpl; lia|]. by eapply Harg.
Qed.

Lemma boot_args_page argv : forall o o',
  bo_pagesize o ∈ page_sizes -> boot_args o argv = Ret o' -> bo_pagesize o' ∈ page_sizes.
Proof. apply (boot_args_keep (fun o => bo_pagesize o ∈ page_sizes)). intros *. apply boot_arg_page. Qed.

(** The numbers on the command line are 32 bits wide. *)
Record numbers_ok (o : boot_opts) : Prop := {
  base_u32 : is_u32 (bo_base o);
  ramdisk_offset_u32 : is_u32 (bo_ramdisk_offset o);
  second_offset_u32 : is_u32 (bo_second_offset o);
  tags_offset_u32 : is_u32 (bo_tags_offset o)
}.

Lemma boot_args_numbers argv o : boot_args boot_defaults argv = Ret o -> numbers_ok o.
Proof.
  apply (boot_args_keep numbers_ok); [|split; unfold is_u32; simpl; lia].
  intros o1 arg val o2 [? ? ? ?]. unfold boot_arg.
  repeat case_match; intros Hr; try done; injection Hr as <-; split; simpl; by auto using u32_range.
Qed.

Lemma load_file_size c data : load_file c = Some data -> zlength data < 2 ^ 31.
Proof.
  destruct c as [c|]; [|done]. unfold load_file. simpl.
  destruct (Z.ltb_spec (s32 (zlength c)) 0); [done|]. intros [= <-].
  assert (s32 (zlength c) < 2 ^ 31) by apply s32_range.
  unfold zlength at 1. rewrite length_take. lia.
Qed.

Lemma write_entries_size es : forall off l l' off',
  write_entries off es l = Ret (l', off') -> zlength l' = zlength l.
Proof.
  induction es as [|e es IH]; intros off l l' off'; cbn [write_entries]; [by intros [= <- <-]|].
  destruct (mem_write off (entry_bytes e) l) as [l1| |] eqn:Hw; cbn [tbind]; try done.
  intros Hr. apply IH in Hr as ->. by eapply mem_write_size.
Qed.

Lemma write_blobs_size p bs : forall off l l', write_blobs p off bs l = Ret l' -> zlength l' = zlength l.
Proof.
  induction bs as [|b bs IH]; intros off l l'; cbn [write_blobs]; [by intros [= <-]|].
  destruct (mem_write off b l) as [l1| |] eqn:Hw; cbn [tbind]; try done.
  intros Hr. apply IH in Hr as ->. by eapply mem_write_size.
Qed.

Ltac step_bind Hr :=
  match type of Hr with
  | tbind ?m _ = _ => let E := fresh "E" in destruct m eqn:E; cbn [tbind] in Hr; [|done..]
  end.

Section sizes.
Context `{Dtbh} `{Fdt} `{Qsort} `{Sha1}.

Lemma load_dtbh_block_size files p img :
  load_dtbh_block files p = Ret (Some img) -> is_u32 (zlength img).
Proof.
  intros Hr. destruct files as [files|]; [|done]. cbn [load_dtbh_block] in Hr. step_bind Hr.
  unfold build_block in Hr. case_match; [done|]. case_match; [|done].
  do 4 step_bind Hr. destruct a3 as [l1 off]. step_bind Hr. simplify_eq.
  repeat match goal with
  | E : mem_write _ _ _ = _ |- _ => apply mem_write_size in E
  | E : write_entries _ _ _ = _ |- _ => apply write_entries_size in E
  | E : write_blobs _ _ _ _ = _ |- _ => apply write_blobs_size in E
  end.
  set (n := u32 (_ + sc_blob_sz _)) in *. assert (is_u32 n) as Hn by apply u32_range.
  rewrite zlength_zeros in * by apply Hn. congruence.
Qed.

Lemma load_size h fn data : load_named h fn = Ret data -> is_u32 (zlength data).
Proof.
  unfold load_named. case_match eqn:Hl; [|done]. intros [= <-]. apply load_file_size in Hl.
  unfold is_u32. pose proof (zlength_nonneg l). lia.
Qed.

Lemma load_opt_size h fn data : load_opt h fn = Ret data -> is_u32 (opt_size data).
Proof.
  destruct fn as [fn|]; cbn [load_opt]; intros Hr; [|by injection Hr as <-].
  step_bind Hr. injection Hr as <-. by eapply load_size.
Qed.

Lemma load_dt_dir_size h o data : load_dt_dir h o = Ret data -> is_u32 (opt_size data).
Proof.
  unfold load_dt_dir. case_match; intros Hr; [|by injection Hr as <-].
  step_bind Hr. case_match; [|done]. injection Hr as <-. simplify_eq. by eapply load_dtbh_block_size.
Qed.

Record data_ok (d : boot_data) : Prop := {
  data_kernel : is_u32 (zlength (bd_kernel d));
  data_ramdisk : is_u32 (zlength (bd_ramdisk d));
  data_second : is_u32 (opt_size (bd_second d));
  data_dt : is_u32 (opt_size (bd_dt d))
}.

Lemma boot_load_ok h o k r d : boot_load h o k r = Ret d -> data_ok d.
Proof.
  unfold boot_load. intros Hr. do 6 step_bind Hr. injection Hr as <-. split; simpl.
  - by eapply load_size.
  - case_bool_decide; [by simplify_eq|]. by eapply load_size.
  - by eapply load_opt_size.
  - destruct (bo_dt_fn o); [by eapply load_opt_size|]. simplify_eq. by eapply load_dt_dir_size.
Qed.

Lemma length_string_bytes s : length (string_bytes s) = String.length s.
Proof. unfold string_bytes. rewrite length_fmap. induction s; simpl; congruence. Qed.

Lemma length_str_field n s : Z.of_nat (String.length s) < Z.of_nat n ->
  length (str_field (Z.of_nat n) s) = n.
Proof.
  intros Hs. unfold str_field, zeros, zlength.
  rewrite length_app, length_replicate, length_string_bytes. lia.
Qed.

Lemma boot_check_sizes o r : boot_check o = Ret r ->
  Z.of_nat (String.length (bo_board o)) < 16 /\ Z.of_nat (String.length (bo_cmdline o)) < 512.
Proof.
  unfold boot_check, BOOT_NAME_SIZE, BOOT_ARGS_SIZE. intros Hr.
  repeat (case_match; try done). lia.
Qed.

Lemma boot_header_ok o d r : bo_pagesize o ∈ page_sizes -> boot_check o = Ret r -> data_ok d ->
  hdr_ok (boot_header o d).
Proof.
  intros Hp Hc [Hk Hr Hs Hd]. apply boot_check_sizes in Hc as [Hb Hcmd].
  apply page_sizes_page in Hp as [_ Hp]. split; simpl.
  - repeat (apply Forall_cons_2;
      [first [exact Hk | exact Hr | exact Hs | exact Hd | apply u32_range | unfold is_u32; lia]|]).
    by apply Forall_nil_2.
  - done.
  - by apply (length_str_field 16).
  - by apply (length_str_field 512).
  - unfold boot_id. by rewrite length_app, length_sha1.
Qed.

Lemma boot_header_sized o d : hdr_ok (boot_header o d) -> sized (boot_header o d) d.
Proof. intros Hok. split; [by apply zlength_hdr|done..]. Qed.

(** A run of [mkbootimg] up to the writes. *)
Record boot_run (h : host) (argv : list string) (o : boot_opts) (bootimg : string) (d : boot_data)
  : Prop := {
  run_args : boot_args boot_defaults argv = Ret o;
  run_load : exists k r, boot_check o = Ret (bootimg, k, r) /\ boot_load h o k r = Ret d
}.

Lemma boot_run_ok h argv o bootimg d : boot_run h argv o bootimg d ->
  is_page (bo_pagesize o) /\ 2048 <= bo_pagesize o <= 131072 /\ hdr_ok (boot_header o d).
Proof.
  intros [Ha (k & r & Hc & Hl)].
  assert (bo_pagesize o ∈ page_sizes) as Hp.
  { eapply boot_args_page; [|exact Ha]. by apply (bool_decide_unpack _). }
  pose proof (page_sizes_page _ Hp) as [? ?]. split_and!; try done || lia.
  eapply boot_header_ok; [done..|]. by eapply boot_load_ok.
Qed.

Lemma mkbootimg_inv h argv c h' : mkbootimg h argv = Ret (c, h') ->
  exists o bootimg d, boot_run h argv o bootimg d /\
    ((c = 0 /\ h' = h<|h_files ::= <[bootimg := image_written (bo_pagesize o) (boot_header o d) d]>|>) \/
     (c = 1 /\ h' = h<|h_files ::= delete bootimg|>)).
Proof.
  unfold mkbootimg. intros Hr. step_bind Hr. rename a into o. step_bind Hr.
  destruct a as [[bootimg k] r]. step_bind Hr. rename a into d. case_match; [done|].
  step_bind Hr. assert (boot_run h argv o bootimg d) as Hrun by (split; eauto).
  exists o, bootimg, d. split; [done|].
  destruct (boot_run_ok _ _ _ _ _ Hrun) as (Hp & _ & Hok).
  case_match; injection Hr as <- <-; [|by right]. left. split; [done|]. simplify_eq.
  match goal with E : write_image _ _ _ _ = _ |- _ => apply write_image_run in E as -> end;
    [done..|]. by apply boot_header_sized.
Qed.

(** The padding after the second stage is computed from the ramdisk; it is the
    right one when the two sizes leave the same rest. *)
Lemma image_layout p hdr d : 0 < p ->
  match bd_second d with
  | Some s => zlength s mod p = zlength (bd_ramdisk d) mod p
  | None => True
  end -> image_written p hdr d = layout p hdr d.
Proof.
  intros Hp Hs. unfold image_written, layout. do 3 f_equal. f_equal.
  - destruct (bd_second d) as [s|]; simpl; [|by rewrite padded_nil].
    unfold padded, second_pad. do 2 f_equal. rewrite !round_up_pad by lia. by rewrite Hs.
  - f_equal; [destruct (bd_dt d); simpl; [done|by rewrite padded_nil]|by destruct (bd_sig d)].
Qed.

(** C27: a run of [mkbootimg] that gets as far as opening its output has accepted
    arguments (a page size of the list, a board name and a command line that fit)
    and has loaded the kernel and the ramdisk; it either returns 0 with an output
    file laid out as [bootimg.h] documents (the header with the sizes, addresses
    and hash, then every part on a page boundary), provided the second stage is
    absent or fills its last page like the ramdisk, or returns 1 with no output
    file left behind. *)
Theorem mkbootimg_layout h argv c h' : mkbootimg h argv = Ret (c, h') ->
  exists o bootimg d, boot_run h argv o bootimg d /\ hdr_ok (boot_header o d) /\
    ((c = 0 /\ exists img, h' = h<|h_files ::= <[bootimg := img]>|> /\
       (match bd_second d with
        | Some s => zlength s mod bo_pagesize o = zlength (bd_ramdisk d) mod bo_pagesize o
        | None => True
        end -> img = layout (bo_pagesize o) (boot_header o d) d)) \/
     (c = 1 /\ h_files h' !! bootimg = None)).
Proof.
  intros Hr. destruct (mkbootimg_inv _ _ _ _ Hr) as (o & bootimg & d & Hrun & Hres).
  exists o, bootimg, d. destruct (boot_run_ok _ _ _ _ _ Hrun) as (_ & Hp & Hok).
  split_and!; [done..|]. destruct Hres as [[-> ->]|[-> ->]]; [left|right; split; [done|]].
  - split; [done|]. eexists. split; [done|]. intros Hs. apply image_layout; [lia|done].
  - apply lookup_delete_eq.
Qed.

(** ** Reading the parts back *)
Lemma fread_part A l B : fread (A ++ l ++ B) (zlength A) (zlength l) = (Some l, zlength (A ++ l)).
Proof.
  unfold fread. rewrite !zlength_app, (proj2 (Z.leb_le _ _)) by (pose proof (zlength_nonneg B); lia).
  unfold zlength. by rewrite !Nat2Z.id, drop_app_length, take_app_length.
Qed.

Lemma read_padding_part p A l B : is_page p ->
  read_padding (A ++ padded p l ++ B) (zlength (A ++ l)) (zlength l) p = Ret (zlength (A ++ padded p l)).
Proof.
  intros Hp. pose proof (is_page_pos p Hp) as Hpos. unfold read_padding.
  rewrite page_rest_mod by done. pose proof (Z.mod_pos_bound (zlength l) p ltac:(lia)).
  pose proof (round_up_pad p (zlength l) ltac:(lia)) as Hpad. pose proof (zlength_nonneg B).
  rewrite !zlength_app, zlength_padded by lia.
  destruct (Z.eqb_spec (zlength l mod p) 0); [f_equal; lia|].
  rewrite u32_id by (unfold is_u32; lia).
  rewrite Z.min_l, !Z.max_r by lia. rewrite (proj2 (Z.ltb_ge _ _)) by lia. f_equal. lia.
Qed.

(** A part and the zeros after it. *)
Lemma fread_padded p A l B :
  fread (A ++ padded p l ++ B) (zlength A) (zlength l) = (Some l, zlength (A ++ l)).
Proof. unfold padded. rewrite <- (app_assoc l). apply fread_part. Qed.

Lemma fread_first p l B : fread (padded p l ++ B) 0 (zlength l) = (Some l, zlength l).
Proof. exact (fread_padded p [] l B). Qed.
Lemma read_padding_first p l B : is_page p ->
  read_padding (padded p l ++ B) (zlength l) (zlength l) p = Ret (zlength (padded p l)).
Proof. exact (read_padding_part p [] l B). Qed.

Lemma c_string_zero s l : Forall (fun b => b <> 0) s -> c_string (s ++ 0 :: l) = Some s.
Proof.
  induction 1 as [|b s Hb _ IH]; [done|]. simpl. by rewrite (proj2 (Z.eqb_neq _ _)), IH by done.
Qed.

Lemma c_string_field n s l : Z.of_nat (String.length s) < Z.of_nat n ->
  Forall (fun b => b <> 0) (string_bytes s) ->
  c_string (str_field (Z.of_nat n) s ++ l) = Some (string_bytes s).
Proof.
  intros Hlen Hs. pose proof (length_str_field n s Hlen) as Hf. unfold str_field in *.
  rewrite length_app in Hf. unfold zeros in *. destruct (Z.to_nat _) as [|m] eqn:Hm.
  - exfalso. unfold zlength in Hm. rewrite length_string_bytes in *. lia.
  - simpl. rewrite <- app_assoc. simpl. by apply c_string_zero.
Qed.

Lemma unboot_args_run f dir :
  unboot_args (mkUnbootOpts (Some "./"%string) None 0) ["-i"; f; "-o"; dir]%string =
    Ret (mkUnbootOpts (Some dir) (Some f) 0).
Proof. done. Qed.

Lemma find_magic_0 l tmp n : find_magic (BOOT_MAGIC ++ l) tmp 0 (S n) = Some 0%nat.
Proof. done. Qed.

(** What is written for a header, a kernel and a ramdisk that were read in full. *)
Definition unpacked_files (path : string -> string) (hdr : boot_img_hdr) (cmd kernel ramdisk : bytes)
  : list (string * option bytes) :=
  string_files path hdr cmd ++
  [(path "-zImage", Some kernel);
   (path (match ramdisk with 0x02 :: 0x21 :: _ => "-ramdisk.lz4" | _ => "-ramdisk.gz" end), Some ramdisk);
   (path "-second", Some [])]%string.

Lemma ramdisk_suffix_run r : 2 <= zlength r ->
  ramdisk_suffix (Some r) =
    Ret (match r with 0x02 :: 0x21 :: _ => "-ramdisk.lz4"%string | _ => "-ramdisk.gz"%string end).
Proof.
  destruct r as [|b0 [|b1 r]]; unfold zlength; cbn [length]; try lia. intros _. cbn [ramdisk_suffix].
  destruct (Z.eqb_spec b0 2) as [->|Hb0].
  - destruct (Z.eqb_spec b1 33) as [->|Hb1]; [done|]. by repeat case_match.
  - by repeat case_match.
Qed.

Lemma unpack_from_run p path hdr cmd kernel ramdisk rest :
  is_page p -> 2048 <= p <= 131072 -> hdr_ok hdr -> page_size hdr = p ->
  kernel_size hdr = zlength kernel -> ramdisk_size hdr = zlength ramdisk -> 2 <= zlength ramdisk ->
  c_string (cmdline hdr ++ id hdr) = Some cmd ->
  unpack_from (padded p (hdr_bytes hdr) ++ padded p kernel ++ padded p ramdisk ++ rest) path 0 0 =
    (unpacked_files path hdr cmd kernel ramdisk, Crash NullDeref).
Proof.
  intros Hp Hpp Hok Hps Hks Hrs Hr Hcmd. pose proof (zlength_hdr hdr Hok) as Hz.
  unfold unpack_from. rewrite <- Hz.
  change (Z.of_nat 0) with 0. rewrite fread_first. cbn [continue_with]. rewrite hdr_roundtrip by done.
  rewrite Hcmd. cbn [continue_with]. rewrite Hps, (s32_small p), Z.eqb_refl by lia.
  rewrite read_padding_first by done. cbn [continue_with].
  rewrite Hks, (fread_padded p (padded p (hdr_bytes hdr))). rewrite read_padding_part by done.
  cbn [continue_with]. rewrite Hrs. rewrite (app_assoc (padded p (hdr_bytes hdr))).
  rewrite (fread_padded p (_ ++ _) ramdisk), ramdisk_suffix_run by done. cbn [continue_with].
  rewrite read_padding_part by done. cbn [continue_with]. case_match.
  unfold unpacked_files. by rewrite <- !app_assoc.
Qed.

Lemma mkbootimg_run h argv h' o bootimg d :
  mkbootimg h argv = Ret (0, h') -> boot_run h argv o bootimg d ->
  is_page (bo_pagesize o) /\ 2048 <= bo_pagesize o <= 131072 /\ hdr_ok (boot_header o d) /\
  h' = h<|h_files ::= <[bootimg := image_written (bo_pagesize o) (boot_header o d) d]>|>.
Proof.
  intros Hm Hrun. destruct (mkbootimg_inv _ _ _ _ Hm) as (o' & b' & d' & Hrun' & Hres).
  destruct (boot_run_ok _ _ _ _ _ Hrun) as (Hp & Hpp & Hok). split_and!; try done || lia.
  destruct Hrun as [Ha (k & r & Hc & Hl)], Hrun' as [Ha' (k' & r' & Hc' & Hl')].
  rewrite Ha in Ha'. injection Ha' as <-. rewrite Hc in Hc'. injection Hc' as <- <- <-.
  rewrite Hl in Hl'. injection Hl' as <-. by destruct Hres as [[_ ->]|[? _]].
Qed.

(** The files [unpackbootimg] writes when the command line is [cmd] and the numbers are
    [base], the three offsets and the page size, each on a line of its own. *)
Definition parts_files (path : string -> string) (cmd : string) (base ramdisk_offset second_offset
    tags_offset page : Z) (kernel ramdisk : bytes) : list (string * option bytes) :=
  let file suffix (line : bytes) := (path suffix, Some (line ++ [10])) in
  [file "-cmdline" (string_bytes cmd);
   file "-base" (hex8 base);
   file "-ramdisk_offset" (hex8 ramdisk_offset);
   file "-second_offset" (hex8 second_offset);
   file "-tags_offset" (hex8 tags_offset);
   file "-pagesize" (string_bytes (pretty page));
   (path "-zImage", Some kernel);
   (path (match ramdisk with 0x02 :: 0x21 :: _ => "-ramdisk.lz4" | _ => "-ramdisk.gz" end), Some ramdisk);
   (path "-second", Some [])]%string.

(** The header of an image does not say what the kernel's offset was: the base that is
    reported is the one that goes with the default. *)
Definition with_numbers (o : boot_opts) (base ramdisk_offset second_offset tags_offset : Z) : boot_opts :=
  o<|bo_base := base|><|bo_kernel_offset := 0x8000|><|bo_ramdisk_offset := ramdisk_offset|>
   <|bo_second_offset := second_offset|><|bo_tags_offset := tags_offset|>.

Lemma u32_sub_l a b : u32 (u32 a - b) = u32 (a - b).
Proof. apply Zminus_mod_idemp_l. Qed.
Lemma u32_sub_r a b : u32 (a - u32 b) = u32 (a - b).
Proof. apply Zminus_mod_idemp_r. Qed.

Lemma offset_reported base kernel_offset offset :
  u32 (u32 (base + offset) - u32 (base + kernel_offset) + 0x8000) = u32 (offset - kernel_offset + 0x8000).
Proof.
  rewrite <- u32_add_l, u32_sub_r, u32_sub_l, u32_add_l. f_equal. lia.
Qed.

Lemma address_again base kernel_offset offset :
  u32 (u32 (base + kernel_offset - 0x8000) + u32 (offset - kernel_offset + 0x8000)) = u32 (base + offset).
Proof. rewrite u32_add_l, u32_add_r. f_equal. lia. Qed.

Lemma unpacked_parts path o d :
  is_page (bo_pagesize o) -> 2048 <= bo_pagesize o <= 131072 ->
  let reported x := u32 (x - bo_kernel_offset o + 0x8000) in
  unpacked_files path (boot_header o d) (string_bytes (bo_cmdline o)) (bd_kernel d) (bd_ramdisk d) =
    parts_files path (bo_cmdline o) (u32 (bo_base o + bo_kernel_offset o - 0x8000))
      (reported (bo_ramdisk_offset o)) (reported (bo_second_offset o)) (reported (bo_tags_offset o))
      (bo_pagesize o) (bd_kernel d) (bd_ramdisk d).
Proof.
  intros _ Hp reported. unfold unpacked_files, parts_files, string_files. cbn [boot_header kernel_addr
    ramdisk_addr second_addr tags_addr page_size app].
  by rewrite u32_sub_l, !offset_reported, s32_small by lia.
Qed.

(** C26: [unpackbootimg] gets back what [mkbootimg] put in, whatever the search buffer
    held before: the command line, the page size, the kernel and the ramdisk (named
    after its compression) as they were given, and a base and three offsets from which
    [mkbootimg], with its default offset of the kernel, makes the same header again.  These
    are the base and the offsets that were given if the offset of the kernel was the
    default, 0x8000; if not they are shifted, since the header holds addresses only.
    The run then stops in an undefined state: the second stage, and after it the device tree
    and the signature, go to the stream of the ramdisk, which is closed, and
    the file made for the second stage stays empty.  The command line has no zero
    byte, and the ramdisk at least two bytes. *)
Theorem mkbootimg_unpackbootimg h argv h' o bootimg d tmp dir :
  mkbootimg h argv = Ret (0, h') -> boot_run h argv o bootimg d ->
  Forall (fun b => b <> 0) (string_bytes (bo_cmdline o)) -> 2 <= zlength (bd_ramdisk d) ->
  exists base ramdisk_offset second_offset tags_offset,
    unpackbootimg h' tmp ["-i"; bootimg; "-o"; dir]%string =
      (parts_files (fun suffix => dir +:+ "/" +:+ basename bootimg +:+ suffix)%string (bo_cmdline o)
         base ramdisk_offset second_offset tags_offset (bo_pagesize o) (bd_kernel d) (bd_ramdisk d),
       Crash NullDeref) /\
    boot_header (with_numbers o base ramdisk_offset second_offset tags_offset) d = boot_header o d /\
    (bo_kernel_offset o = 0x8000 ->
       base = bo_base o /\ ramdisk_offset = bo_ramdisk_offset o /\
       second_offset = bo_second_offset o /\ tags_offset = bo_tags_offset o).
Proof.
  intros Hm Hrun Hcmd Hram. destruct (mkbootimg_run _ _ _ _ _ _ Hm Hrun) as (Hp & Hpp & Hok & ->).
  destruct Hrun as [Ha (k & r & Hc & _)]. apply boot_check_sizes in Hc as [_ Hlen].
  eexists _, _, _, _. split; [|split].
  - unfold unpackbootimg. rewrite unboot_args_run.
    cbn [continue_with ub_filename ub_directory ub_pagesize h_files]. simpl h_files.
    rewrite lookup_insert_eq. unfold image_written, padded at 1. unfold hdr_bytes at 1.
    rewrite <- !app_assoc. cbn [magic boot_header]. rewrite find_magic_0.
    rewrite <- unpacked_parts by done. apply unpack_from_run; try done. by apply (c_string_field 512).
  - unfold boot_header, with_numbers. cbn. rewrite !address_again. f_equal.
    rewrite u32_add_l. f_equal. lia.
  - intros Hk. rewrite Hk. apply boot_args_numbers in Ha as [? ? ? ?].
    split_and!; rewrite <- u32_id by done; f_equal; lia.
Qed.

(** ** The numbers in the files

    A line with eight digits is a number that [strtoul] reads back. *)
Definition hex_char (d : Z) : Ascii.ascii := Ascii.ascii_of_N (Z.to_N (hex_digit d)).

(** The sixteen digits. *)
Ltac each_digit d :=
  destruct d; [|do 4 try match goal with p : positive |- _ => destruct p; try lia end|lia].

Lemma digit_of_hex d : 0 <= d < 16 -> digit_of 16 (hex_char d) = Some d.
Proof. intros Hd. each_digit d; reflexivity. Qed.

Lemma digits_hex l : Forall (fun d => 0 <= d < 16) l -> forall acc,
  digits 16 acc (hex_char <$> l) = foldl (fun a d => 16 * a + d) acc l.
Proof. induction 1 as [|d l Hd _ IH]; intros acc; simpl; [done|]. by rewrite digit_of_hex, IH. Qed.

(** No digit is a space, a sign or an x. *)
Lemma number_hex d1 d2 l : 0 <= d1 < 16 -> 0 <= d2 < 16 ->
  number 16 (String.string_of_list_ascii (hex_char <$> d1 :: d2 :: l)) =
    (false, digits 16 0 (hex_char <$> d1 :: d2 :: l)).
Proof.
  intros H1' H2'. unfold number. rewrite String.list_ascii_of_string_of_list_ascii.
  change (hex_char <$> d1 :: d2 :: l) with (hex_char d1 :: hex_char d2 :: (hex_char <$> l)).
  generalize (hex_char <$> l). clear l. intros l.
  assert (skip_space (hex_char d1 :: hex_char d2 :: l) = hex_char d1 :: hex_char d2 :: l) as ->
    by (each_digit d1; reflexivity).
  assert (skip_sign (hex_char d1 :: hex_char d2 :: l) = (false, hex_char d1 :: hex_char d2 :: l)) as ->
    by (each_digit d1; reflexivity).
  f_equal. f_equal. each_digit d1; try reflexivity. each_digit d2; destruct l; reflexivity.
Qed.

Theorem hex8_reads_back x : is_u32 x ->
  strtoul (String.string_of_list_ascii ((fun b => Ascii.ascii_of_N (Z.to_N b)) <$> hex8 x)) 16 = x.
Proof.
  unfold is_u32. intros Hx. unfold hex8, strtoul.
  change ((fun b => Ascii.ascii_of_N (Z.to_N b)) <$>
    ((fun k => hex_digit (x / 16 ^ k mod 16)) <$> [7; 6; 5; 4; 3; 2; 1; 0]))
    with (hex_char <$> ((fun k => x / 16 ^ k mod 16) <$> [7; 6; 5; 4; 3; 2; 1; 0])).
  assert (forall k, 0 <= x / 16 ^ k mod 16 < 16) as Hd by (intros; by apply Z.mod_pos_bound).
  assert (foldl (fun a d => 16 * a + d) 0
    ((fun k => x / 16 ^ k mod 16) <$> [7; 6; 5; 4; 3; 2; 1; 0]) = x) as Hsum.
  { simpl. rewrite Z.div_1_r. change (Z.pow_pos 16 7) with (16 * 16 ^ 6).
    Z.to_euclidean_division_equations. lia. }
  set (l := (fun k => x / 16 ^ k mod 16) <$> [5; 4; 3; 2; 1; 0]) in *.
  change ((fun k => x / 16 ^ k mod 16) <$> [7; 6; 5; 4; 3; 2; 1; 0])
    with (x / 16 ^ 7 mod 16 :: x / 16 ^ 6 mod 16 :: l) in *.
  rewrite number_hex, digits_hex, Hsum by (try apply Hd; repeat constructor; apply Hd).
  by rewrite (proj2 (Z.leb_gt _ _)) by lia.
Qed.

(** After the second stage the padding is computed from the size of the ramdisk.
    When the two sizes do not leave the same rest, the device tree image, which
    follows, does not start on a page boundary, against the layout [bootimg.h]
    documents and a boot loader relies on. *)
Theorem mkbootimg_dt_misplaced h argv h' o bootimg d second dt :
  mkbootimg h argv = Ret (0, h') -> boot_run h argv o bootimg d ->
  bd_second d = Some second -> bd_dt d = Some dt ->
  zlength second mod bo_pagesize o <> zlength (bd_ramdisk d) mod bo_pagesize o ->
  exists sig, let p := bo_pagesize o in
    let before := padded p (hdr_bytes (boot_header o d)) ++ padded p (bd_kernel d)
                  ++ padded p (bd_ramdisk d) ++ second ++ zeros (second_pad p d) in
    h_files h' !! bootimg = Some (before ++ padded p dt ++ sig) /\ zlength before mod p <> 0.
Proof.
  intros Hm Hrun Hs Hdt Hne. destruct (mkbootimg_run _ _ _ _ _ _ Hm Hrun) as (Hp & Hpp & Hok & ->).
  eexists. cbn zeta. split.
  - simpl h_files. rewrite lookup_insert_eq. unfold image_written. rewrite Hs, Hdt, <- !app_assoc. done.
  - pose proof (round_up_bounds (bo_pagesize o) (zlength (bd_ramdisk d)) ltac:(lia)) as Hb.
    rewrite !zlength_app, !zlength_padded, zlength_zeros by (unfold second_pad; lia).
    unfold second_pad, round_up in *. intros H0'. apply Z.mod_divide in H0' as [q Hq]; [|lia].
    apply Hne. set (p := bo_pagesize o) in *. set (r := zlength (bd_ramdisk d)) in *.
    set (a := (_ + p - 1) / p) in Hq at 1. set (b := (_ + p - 1) / p) in Hq at 1.
    set (c := (r + p - 1) / p) in Hq.
    replace (zlength second) with (r + (q - a - b - c - c) * p) by lia. by rewrite Z.mod_add by lia.
Qed.
End sizes.

(** ** A concrete image *)
Definition sample_sha1 : Sha1.
Proof. refine {| sha1 := fun l => replicate 20 (zlength l mod 256) |}. intros l. apply length_replicate. Defined.

Definition sample_host : host :=
  mkHost {["zImage" := [1; 2; 3]; "rd" := [0x1f; 0x8b; 8]; "2nd" := [9; 9; 9; 9; 9]; "dt" := [4; 5]]}%string
    ∅ (fun _ => true) (fun _ _ => true).
Definition sample_argv : list string :=
  ["--kernel"; "zImage"; "--ramdisk"; "rd"; "--cmdline"; "console=ttySAC2"; "--base"; "0x40000000";
   "--dt"; "dt"; "-o"; "boot.img"]%string.

Definition ret_or {A} (a : A) (m : tool A) : A := match m with Ret x => x | _ => a end.
Definition sample_boot_opts (argv : list string) : boot_opts := ret_or boot_defaults (boot_args boot_defaults argv).
Definition sample_data (argv : list string) : boot_data :=
  ret_or (mkBootData [] [] None None None)
    (boot_load (H := sample_dtbh) (H0 := sample_fdt) (H1 := sample_qsort) sample_host
       (sample_boot_opts argv) "zImage" "rd").
Definition sample_out (argv : list string) : host :=
  snd (ret_or (0, sample_host)
    (mkbootimg (H := sample_dtbh) (H0 := sample_fdt) (H1 := sample_qsort) (H2 := sample_sha1) sample_host argv)).

Lemma mkbootimg_layout_witness :
  exists o bootimg d, boot_run (H := sample_dtbh) (H0 := sample_fdt) (H1 := sample_qsort)
      sample_host sample_argv o bootimg d /\ hdr_ok (boot_header (H2 := sample_sha1) o d) /\
    ((0 = 0 /\ exists img, sample_out sample_argv = sample_host<|h_files ::= <[bootimg := img]>|> /\
       (match bd_second d with
        | Some s => zlength s mod bo_pagesize o = zlength (bd_ramdisk d) mod bo_pagesize o
        | None => True
        end -> img = layout (bo_pagesize o) (boot_header (H2 := sample_sha1) o d) d)) \/
     (0 = 1 /\ h_files (sample_out sample_argv) !! bootimg = None)).
Proof.
  apply (mkbootimg_layout (H := sample_dtbh) (H0 := sample_fdt) (H1 := sample_qsort) (H2 := sample_sha1)).
  vm_compute. reflexivity.
Defined.

Definition text_line (s : string) : bytes := string_bytes s ++ [10].

Lemma mkbootimg_unpackbootimg_witness :
  exists base ramdisk_offset second_offset tags_offset,
  unpackbootimg (sample_out sample_argv) [] ["-i"; "boot.img"; "-o"; "out"]%string =
    ([("out/boot.img-cmdline", Some (text_line "console=ttySAC2"));
      ("out/boot.img-base", Some (hex8 base ++ [10])%list);
      ("out/boot.img-ramdisk_offset", Some (hex8 ramdisk_offset ++ [10])%list);
      ("out/boot.img-second_offset", Some (hex8 second_offset ++ [10])%list);
      ("out/boot.img-tags_offset", Some (hex8 tags_offset ++ [10])%list);
      ("out/boot.img-pagesize", Some (text_line "2048"));
      ("out/boot.img-zImage", Some [1; 2; 3]);
      ("out/boot.img-ramdisk.gz", Some [0x1f; 0x8b; 8]);
      ("out/boot.img-second", Some [])]%string, Crash NullDeref) /\
  boot_header (H2 := sample_sha1)
    (with_numbers (sample_boot_opts sample_argv) base ramdisk_offset second_offset tags_offset)
    (sample_data sample_argv) =
  boot_header (H2 := sample_sha1) (sample_boot_opts sample_argv) (sample_data sample_argv) /\
  (0x8000 = 0x8000 ->
     base = 0x40000000 /\ ramdisk_offset = 0x1000000 /\ second_offset = 0xf00000 /\ tags_offset = 0x100).
Proof.
  apply (mkbootimg_unpackbootimg (H := sample_dtbh) (H0 := sample_fdt) (H1 := sample_qsort)
    (H2 := sample_sha1) sample_host sample_argv _ (sample_boot_opts sample_argv) "boot.img"
    (sample_data sample_argv)).
  - vm_compute. reflexivity.
  - split; [vm_compute; reflexivity|]. exists "zImage"%string, "rd"%string.
    split; vm_compute; reflexivity.
  - vm_compute. repeat constructor; done.
  - vm_compute. done.
Defined.

Definition second_argv : list string := sample_argv ++ ["--second"; "2nd"]%string.

Lemma mkbootimg_dt_misplaced_witness :
  exists sig, let p := 2048 in let d := sample_data second_argv in
    let before := padded p (hdr_bytes (boot_header (H2 := sample_sha1) (sample_boot_opts second_argv) d))
                  ++ padded p [1; 2; 3] ++ padded p [0x1f; 0x8b; 8]
                  ++ [9; 9; 9; 9; 9] ++ zeros (second_pad p d) in
    h_files (sample_out second_argv) !! "boot.img"%string = Some (before ++ padded p [4; 5] ++ sig) /\
    zlength before mod p <> 0.
Proof.
  apply (mkbootimg_dt_misplaced (H := sample_dtbh) (H0 := sample_fdt) (H1 := sample_qsort)
    (H2 := sample_sha1) sample_host second_argv _ (sample_boot_opts second_argv) "boot.img"
    (sample_data second_argv)).
  - vm_compute. reflexivity.
  - split; [vm_compute; reflexivity|]. exists "zImage"%string, "rd"%string.
    split; vm_compute; reflexivity.
  - vm_compute. reflexivity.
  - vm_compute. reflexivity.
  - vm_compute. done.
Defined.
