(* ===== verification/Edid.v ===== *)
(** * EDID of an HDMI sink

    Models [src/exynos4/hal/libhdmi/libsForhdmi]: the reference-counted access to the DDC
    bus ([libddc/libddc.c]) and the library on top of it ([libedid/libedid.c]) that reads
    the EDID of the display and answers which modes the display supports.  The bus and the
    allocator are the interface [Sink]: what the [n]-th call of the system yields.  An
    access outside of the EDID memory or a table is a fault. *)
From S2P Require Import Prelude Machine Bytes.

(** ** The system *)
Class Sink := {
  open_dev : nat -> Z;                          (* [open]: a descriptor, negative on failure *)
  close_dev : nat -> bool;                      (* [close] succeeds *)
  i2c_read : nat -> Z -> Z -> option bytes;     (* [ioctl(I2C_RDWR)]: segment, offset, 128 bytes *)
  malloc_ok : nat -> bool
}.
(** A successful transfer fills the buffer of one block. *)
Class SinkLaws `{Sink} := {
  i2c_read_block : forall n seg off l, i2c_read n seg off = Some l -> length l = 128%nat /\ Forall is_byte l
}.

(** ** State: the static variables of the two libraries *)
Record EdidSt := mkEdidSt {
  ddc_fd : Z;
  ref_cnt : Z;
  gEdidData : option bytes;
  gExtensions : Z;
  aVIC : bytes;
  calls : nat                                   (* calls of the system so far *)
}.
#[export] Instance EdidSt_eta : RecEta EdidSt := fun s =>
  mkEdidSt (ddc_fd s) (ref_cnt s) (gEdidData s) (gExtensions s) (aVIC s) (calls s).

(** ** Constants of [edid.h] *)
Definition SIZEOFEDIDBLOCK : Z := 0x80.
Definition EDID_EXTENSION_NUMBER_POS : Z := 0x7E.
Definition EDID_TIMING_EXT_REV_NUMBER_POS : Z := 1.
Definition EDID_DETAILED_TIMING_OFFSET_POS : Z := 2.
Definition EDID_DATA_BLOCK_START_POS : Z := 4.
Definition EDID_TIMING_EXT_TAG_VAL : Z := 0x02.
Definition EDID_BLOCK_MAP_EXT_TAG_VAL : Z := 0xF0.
Definition EDID_SHORT_AUD_DEC_TAG_VAL : Z := Z.shiftl 1 5.
Definition EDID_SHORT_VID_DEC_TAG_VAL : Z := Z.shiftl 2 5.
Definition EDID_VSDB_TAG_VAL : Z := Z.shiftl 3 5.
Definition EDID_EXTENDED_TAG_VAL : Z := Z.shiftl 7 5.
Definition EDID_EXTENDED_COLORIMETRY_VAL : Z := 5.
Definition EDID_EXTENDED_COLORIMETRY_BLOCK_LEN : Z := 3.
Definition EDID_TAG_CODE_MASK : Z := 0xE0.
Definition EDID_DATA_BLOCK_SIZE_MASK : Z := 0x1F.
Definition EDID_VSDB_MIN_LENGTH_VAL : Z := 5.
Definition EDID_ET_POS : Z := 0x23.
Definition EDID_ET_640x480p_VAL : Z := 0x20.
Definition EDID_DTD_START_ADDR : Z := 0x36.
Definition EDID_DTD_BYTE_LENGTH : Z := 18.
Definition EDID_DTD_TOTAL_LENGTH : Z := 72.
Definition EDID_SVD_VIC_MASK : Z := 0x7F.
Definition EDID_COLOR_SPACE_POS : Z := 3.
Definition EDID_YCBCR444_CS_MASK : Z := Z.shiftl 1 5.
Definition EDID_YCBCR422_CS_MASK : Z := Z.shiftl 1 4.
Definition EDID_DC_36_VAL : Z := Z.shiftl 1 5.
Definition EDID_DC_30_VAL : Z := Z.shiftl 1 4.
Definition EDID_DC_YCBCR_VAL : Z := Z.shiftl 1 3.
Definition EDID_DC_POS : Z := 6.
Definition EDID_DC_MASK : Z := 0x78.
Definition EDID_XVYCC601_MASK : Z := 1.
Definition EDID_XVYCC709_MASK : Z := 2.
Definition EDID_SAD_CODE_MASK : Z := 0x78.
Definition EDID_SAD_CHANNEL_MASK : Z := 0x07.
Definition EDID_CEC_PHYICAL_ADDR : Z := 4.
Definition EDID_HDMI_EXT_POS : Z := 8.
Definition EDID_HDMI_3D_PRESENT_POS : Z := 13.
Definition EDID_HDMI_3D_PRESENT_MASK : Z := Z.shiftl 1 7.
Definition EDID_HDMI_3D_MULTI_PRESENT_MASK : Z := 0x60.
Definition EDID_HDMI_3D_MULTI_PRESENT_BIT : Z := 5.
Definition EDID_3D_STRUCTURE_ONLY_EXIST : Z := Z.shiftl 1 5.
Definition EDID_3D_STRUCTURE_MASK_EXIST : Z := Z.shiftl 1 6.
Definition EDID_HDMI_EXT_LENGTH_POS : Z := 14.
Definition EDID_MAX_TMDS_POS : Z := 7.
Definition EDID_HDMI_VIDEO_PRESENT_MASK : Z := Z.shiftl 1 5.
Definition EDID_HDMI_LATENCY_MASK : Z := 0xC0.
Definition EDID_HDMI_LATENCY_POS : Z := 6.
Definition EDID_HDMI_VSDB_VIC_LEN_BIT : Z := 5.
Definition EDID_HDMI_VSDB_VIC_LEN_MASK : Z := 0xE0.
Definition EDID_HDMI_VSDB_3D_LEN_MASK : Z := 0x1F.
Definition EDID_HDMI_2D_VIC_ORDER_MASK : Z := 0xF0.
Definition EDID_HDMI_3D_STRUCTURE_MASK : Z := 0x0F.
Definition NUM_OF_VIC_FOR_3D : Z := 16.

(** ** The table of timings *)
Record edid_params := mkParams {
  HTotal : Z; HBlank : Z; VTotal : Z; VBlank : Z; VIC : Z; VIC16_9 : Z; interlaced : Z; PixelClock : Z
}.
Definition aVideoParams : list edid_params := [
  mkParams 800 160 525 45 1 1 0 2520; mkParams 858 138 525 45 2 3 0 2702;
  mkParams 1650 370 750 30 4 4 0 7425; mkParams 2200 280 1125 22 5 5 1 7425;
  mkParams 1716 276 525 22 6 7 1 7425; mkParams 1716 276 262 22 8 9 0 2702;
  mkParams 3432 552 525 22 10 11 1 5405; mkParams 3432 552 262 22 12 13 0 5405;
  mkParams 1716 276 525 45 14 15 0 5405; mkParams 2200 280 1125 45 16 16 0 14850;
  mkParams 864 144 625 49 17 18 0 2700; mkParams 1980 700 750 30 19 19 0 7425;
  mkParams 2640 720 1125 22 20 20 1 7425; mkParams 1728 288 625 24 21 22 1 2700;
  mkParams 1728 288 312 24 23 24 0 2700; mkParams 3456 576 625 24 25 26 1 5400;
  mkParams 3456 576 312 24 27 28 0 5400; mkParams 1728 288 625 49 29 30 0 5400;
  mkParams 2640 720 1125 45 31 31 0 14850; mkParams 2750 830 1125 45 32 32 0 7425;
  mkParams 2640 720 1125 45 33 33 0 7425; mkParams 2200 280 1125 45 34 34 0 7425;
  mkParams 3432 552 525 45 35 36 0 10810; mkParams 3456 576 625 49 37 38 0 10800;
  mkParams 2304 384 1250 85 39 39 1 7200; mkParams 2640 720 1125 22 40 40 1 14850;
  mkParams 1980 700 750 30 41 41 0 14850; mkParams 864 144 625 49 42 43 0 5400;
  mkParams 1728 288 625 24 44 45 1 5400; mkParams 2200 280 1125 22 46 46 1 14850;
  mkParams 1650 370 750 30 47 47 0 14850; mkParams 858 138 525 54 48 49 0 5405;
  mkParams 1716 276 525 22 50 51 1 5405; mkParams 864 144 625 49 52 53 0 10800;
  mkParams 1728 288 625 24 54 55 1 10800; mkParams 858 138 525 45 56 57 0 10810;
  mkParams 1716 276 525 22 58 59 1 10810; mkParams 3960 2680 750 30 61 61 0 7425;
  mkParams 3300 2020 750 30 62 62 0 7425].

(** [enum VideoFormat]: the index of the table.  Named are those the code names. *)
Definition v640x480p_60Hz : Z := 0.
Definition v1280x720p_60Hz : Z := 2.
Definition v1920x1080i_60Hz : Z := 3.
Definition v1280x720p_50Hz : Z := 11.
Definition v1920x1080i_50Hz : Z := 12.
Definition v1920x1080p_24Hz : Z := 19.
Definition v1920x1080i_50Hz_1250 : Z := 24.
Definition v1280x720p_24Hz : Z := 37.
Definition v1280x720p_25Hz : Z := 38.
Definition v1280x720p_30Hz : Z := 39.

(** [enum HDMI3DVideoStructure] *)
Definition HDMI_2D_VIDEO_FORMAT : Z := -1.
Definition HDMI_3D_FP_FORMAT : Z := 0.
Definition HDMI_3D_TB_FORMAT : Z := 6.
Definition HDMI_VIC_FORMAT : Z := 7.
Definition HDMI_3D_SSH_FORMAT : Z := 8.

Definition edid_3d : list (Z * Z) := [
  (v1920x1080p_24Hz, HDMI_3D_FP_FORMAT); (v1280x720p_60Hz, HDMI_3D_FP_FORMAT);
  (v1920x1080i_60Hz, HDMI_3D_SSH_FORMAT); (v1920x1080p_24Hz, HDMI_3D_TB_FORMAT);
  (v1280x720p_60Hz, HDMI_3D_TB_FORMAT); (v1280x720p_50Hz, HDMI_3D_FP_FORMAT);
  (v1920x1080i_50Hz, HDMI_3D_SSH_FORMAT); (v1280x720p_50Hz, HDMI_3D_TB_FORMAT)].

Inductive ColorSpace := HDMI_CS_RGB | HDMI_CS_YCBCR444 | HDMI_CS_YCBCR422.
Inductive ColorDepth := HDMI_CD_36 | HDMI_CD_30 | HDMI_CD_24.
Inductive HDMIMode := DVI | HDMI.
Inductive HDMIColorimetry :=
| HDMI_COLORIMETRY_NO_DATA
| HDMI_COLORIMETRY_ITU601
| HDMI_COLORIMETRY_ITU709
| HDMI_COLORIMETRY_EXTENDED_xvYCC601
| HDMI_COLORIMETRY_EXTENDED_xvYCC709.
Inductive PixelAspectRatio := HDMI_PIXEL_RATIO_AS_PICTURE | HDMI_PIXEL_RATIO_4_3 | HDMI_PIXEL_RATIO_16_9.

Record HDMIVideoParameter := mkVideoParameter {
  mode : HDMIMode;
  resolution : Z;
  colorSpace : ColorSpace;
  colorDepth : ColorDepth;
  colorimetry : HDMIColorimetry;
  pixelAspectRatio : PixelAspectRatio;
  hdmi_3d_format : Z
}.
(** [formatCode], [channelNum], [sampleFreq] and [wordLength] are the values of the
    enumerations of [audio.h]. *)
Record HDMIAudioParameter := mkAudioParameter {
  formatCode : Z;
  wordLength : Z;
  sampleFreq : Z;
  channelNum : Z
}.
Definition LPCM_FORMAT : Z := 1.
Definition WORD_20 : Z := 4.
Definition WORD_24 : Z := 8.

Section edid.
Context `{Sink}.
Abbreviation E := (M EdidSt).

(** The next call of the system. *)
Definition syscall {A} (f : nat -> A) : E A :=
  fun s => Done (f (calls s)) s<|calls ::= S|>.

(** ** [libddc.c] *)
Definition DDCFileAvailable : E bool := gets (fun s => 0 <=? ddc_fd s).
Definition DDCOpen : E bool :=
  let* n := gets ref_cnt in
  if 0 <? n then modify (fun s => s<|ref_cnt := u32 (n + 1)|>) ;;; ret true
  else
    let* fd := syscall open_dev in
    modify (fun s => s<|ddc_fd := fd|><|ref_cnt := u32 (n + 1)|>) ;;;
    ret (0 <=? fd).
Definition DDCClose : E bool :=
  let* n := gets ref_cnt in
  if n =? 0 then ret true
  else if 1 <? n then modify (fun s => s<|ref_cnt := n - 1|>) ;;; ret true
  else
    let* ok := syscall close_dev in
    modify (fun s => s<|ref_cnt := n - 1|><|ddc_fd := -1|>) ;;;
    ret ok.
(** [EDDCRead] of one block from the EDID address. *)
Definition EDDCRead (segment offset : Z) : E (option bytes) :=
  let* open := DDCFileAvailable in
  if negb open then ret None else syscall (fun n => i2c_read n (u8 segment) (u8 offset)).

(** ** Reading the EDID *)
Definition CalcChecksum (buffer : bytes) : bool :=
  fold_left (fun sum b => u8 (sum + b)) buffer 0 =? 0.

Definition ReadEDIDBlock (blockNum : Z) : E (option bytes) :=
  let* block := EDDCRead (blockNum / 2) (blockNum mod 2 * SIZEOFEDIDBLOCK) in
  ret (match block with
       | Some l => if CalcChecksum l then Some l else None
       | None => None
       end).

Definition EDIDValid : E bool := gets (fun s => match gEdidData s with Some _ => true | None => false end).
Definition EDIDReset : E unit := modify (fun s => s<|gEdidData := None|>).

(** [gEdidData[i]] *)
Definition data (i : Z) : E Z :=
  let* d := gets gEdidData in
  match d with
  | None => fail NullDeref
  | Some l => deref OutOfBounds (zlookup l i)
  end.

(** The loop over the extensions: [true] when all of them were read.  The memory is
    filled block by block. *)
Definition read_extension (block : Z) : E (option unit) :=
  let* l := ReadEDIDBlock block in
  match l with
  | None => EDIDReset ;;; ret (Some tt)
  | Some l => modify (fun s => s<|gEdidData ::= fmap (fun d => d ++ l)|>) ;;; ret None
  end.

Definition EDIDRead : E bool :=
  let* valid := EDIDValid in
  if (valid : bool) then ret true
  else
    let* temp := ReadEDIDBlock 0 in
    match temp with
    | None => ret false
    | Some temp =>
        let* n := deref OutOfBounds (zlookup temp EDID_EXTENSION_NUMBER_POS) in
        modify (fun s => s<|gExtensions := n|>) ;;;
        let* ok := syscall malloc_ok in
        if negb ok then ret false
        else
          modify (fun s => s<|gEdidData := Some temp|>) ;;;
          let* failed := for_exit 1 (Z.to_nat n) read_extension in
          match failed with
          | Some _ => ret false
          | None =>
              if 1 <? n then
                let* tag := data SIZEOFEDIDBLOCK in
                if negb (tag =? EDID_BLOCK_MAP_EXT_TAG_VAL) then EDIDReset ;;; ret false else ret true
              else ret true
          end
    end.

Definition EDIDOpen : E bool := DDCOpen.
Definition EDIDClose : E bool := EDIDReset ;;; DDCClose.

(** ** The data blocks of an extension *)

(** [!EDIDValid() || (extension > gExtensions)] *)
Definition unavailable (extension : Z) : E bool :=
  let* valid := EDIDValid in
  let* n := gets gExtensions in
  ret (negb valid || (n <? extension))%bool.

(** [while (addr < end) { tag, blockLen; body; addr += blockLen; }] *)
Fixpoint walk {R} (fuel : nat) (addr stop : Z) (body : Z -> Z -> Z -> E (option R)) : E (option R) :=
  match fuel with
  | O => fail Diverges
  | S fuel =>
      if addr <? stop then
        let* b := data addr in
        let tag := Z.land b EDID_TAG_CODE_MASK in
        let blockLen := Z.land b EDID_DATA_BLOCK_SIZE_MASK + 1 in
        let* r := body addr tag blockLen in
        match r with
        | Some _ => ret r
        | None => walk fuel (addr + blockLen) stop body
        end
      else ret None
  end.
(** The data blocks lie between offset 4 and the offset of the detailed timings. *)
Definition data_blocks {R} (extension : Z) (body : Z -> Z -> Z -> E (option R)) : E (option R) :=
  let start := extension * SIZEOFEDIDBLOCK in
  let* dtd := data (start + EDID_DETAILED_TIMING_OFFSET_POS) in
  walk 256 (start + EDID_DATA_BLOCK_START_POS) (start + dtd) body.

(** [data(addr) == v && k] *)
Definition data_is (addr v : Z) (k : E bool) : E bool :=
  let* b := data addr in if b =? v then k else ret false.

Definition is_vsdb (addr tag blockLen : Z) : E (option Z) :=
  let* found :=
    (if tag =? EDID_VSDB_TAG_VAL then
       data_is (addr + 1) 0x03 (data_is (addr + 2) 0x0C (data_is (addr + 3) 0x00
         (ret (EDID_VSDB_MIN_LENGTH_VAL <? blockLen))))
     else ret false) in
  ret (if (found : bool) then Some addr else None).

Definition GetVSDBOffset (extension : Z) : E Z :=
  let* no := unavailable extension in
  if (no : bool) then ret 0
  else
    let* r := data_blocks extension is_vsdb in
    ret (default 0 r).

(** [for (i = 1; i <= gExtensions; i++)] with a body that may return. *)
Definition for_extensions {R} (body : Z -> E (option R)) : E (option R) :=
  let* n := gets gExtensions in
  for_exit 1 (Z.to_nat n) body.

Definition CheckHDMIMode : E bool :=
  let* ok := EDIDRead in
  if negb ok then ret false
  else
    let* r := for_extensions (fun i =>
      let* off := GetVSDBOffset i in ret (if 0 <? off then Some tt else None)) in
    ret (bool_decide (r = Some tt)).

Definition IsTimingExtension (extension : Z) : E bool :=
  let* no := unavailable extension in
  if (no : bool) then ret false
  else
    let* tag := data (extension * SIZEOFEDIDBLOCK) in
    if tag =? EDID_TIMING_EXT_TAG_VAL then
      let* rev := data (extension * SIZEOFEDIDBLOCK + EDID_TIMING_EXT_REV_NUMBER_POS) in
      if rev =? 3 then ret true
      else
        let* hdmi := CheckHDMIMode in
        ret (negb hdmi && negb (rev =? 2))%bool
    else ret false.

(** ** Video *)
Definition params_of (videoFormat : Z) : E edid_params :=
  deref OutOfBounds (zlookup aVideoParams videoFormat).

(** The fields of the detailed timing descriptor at [i]. *)
Record timing := mkTiming { pixelclock : Z; hblank : Z; hactive : Z; vblank : Z; vactive : Z }.
Definition read_timing (i clock : Z) : E timing :=
  let* b4 := data (i + 4) in
  let* b3 := data (i + 3) in
  let* b2 := data (i + 2) in
  let* b7 := data (i + 7) in
  let* b6 := data (i + 6) in
  let* b5 := data (i + 5) in
  ret (mkTiming clock
    (Z.lor (Z.shiftl (Z.land b4 0xF) 8) b3)
    (Z.lor (Z.shiftl (Z.land b4 0xF0) 4) b2)
    (Z.lor (Z.shiftl (Z.land b7 0x0F) 8) b6)
    (Z.lor (Z.shiftl (Z.land b7 0xF0) 4) b5)).

(** The active lines that a format has in one field; [VIC] is compared with an index of
    the enumeration. *)
Definition active_lines (p : edid_params) : Z :=
  if interlaced p =? 1 then
    if VIC p =? v1920x1080i_50Hz_1250 then u32 (VTotal p - VBlank p * 2) / 2
    else u32 (VTotal p - VBlank p * 2 - 1) / 2
  else u32 (VTotal p - VBlank p).
Definition timing_matches (p : edid_params) (t : timing) : bool :=
  (hblank t =? HBlank p) && (vblank t =? VBlank p) && (hactive t =? u32 (HTotal p - HBlank p))
  && (vactive t =? active_lines p) && (pixelclock t / 100 =? PixelClock p / 100).

(** [for (i = StartOffset; i < EndOffset; i += 18)] *)
Fixpoint dtd_loop (fuel : nat) (i stop : Z) (videoFormat : Z) : E bool :=
  match fuel with
  | O => fail Diverges
  | S fuel =>
      if i <? stop then
        let* hi := data (i + 1) in
        let* lo := data i in
        let clock := Z.lor (Z.shiftl hi 8) lo in
        if clock =? 0 then dtd_loop fuel (i + EDID_DTD_BYTE_LENGTH) stop videoFormat
        else
          let* t := read_timing i clock in
          let* p := params_of videoFormat in
          let* _flags := data (i + 17) in
          if timing_matches p t then ret true
          else dtd_loop fuel (i + EDID_DTD_BYTE_LENGTH) stop videoFormat
      else ret false
  end.

Definition IsContainVideoDTD (extension videoFormat : Z) : E bool :=
  let* no := unavailable extension in
  if (no : bool) then ret false
  else if extension =? 0 then
    dtd_loop 16 EDID_DTD_START_ADDR (EDID_DTD_START_ADDR + EDID_DTD_TOTAL_LENGTH) videoFormat
  else
    let* d := data (extension * SIZEOFEDIDBLOCK + EDID_DETAILED_TIMING_OFFSET_POS) in
    dtd_loop 16 (extension * SIZEOFEDIDBLOCK + d) ((extension + 1) * SIZEOFEDIDBLOCK) videoFormat.

(** [for (i = 1; i < blockLen; i++)]: the codes of a video data block. *)
Definition svd_contains (vic addr blockLen : Z) : E (option unit) :=
  for_exit 1 (Z.to_nat (blockLen - 1)) (fun i =>
    let* b := data (addr + i) in
    ret (if Z.land b EDID_SVD_VIC_MASK =? vic then Some tt else None)).

(** [DTDStartAddr] is read before the EDID is checked. *)
Definition IsContainVIC (extension vic : Z) : E bool :=
  let* dtd := data (extension * SIZEOFEDIDBLOCK + EDID_DETAILED_TIMING_OFFSET_POS) in
  let* no := unavailable extension in
  if (no : bool) then ret false
  else
    let* r := walk 256 (extension * SIZEOFEDIDBLOCK + EDID_DATA_BLOCK_START_POS)
                (extension * SIZEOFEDIDBLOCK + dtd)
                (fun addr tag blockLen =>
                   if tag =? EDID_SHORT_VID_DEC_TAG_VAL then svd_contains vic addr blockLen else ret None) in
    ret (bool_decide (r = Some tt)).

Definition vic_of (p : edid_params) (ratio : PixelAspectRatio) : Z :=
  match ratio with HDMI_PIXEL_RATIO_16_9 => VIC16_9 p | _ => VIC p end.

Definition CheckResolution (videoFormat : Z) (pixelRatio : PixelAspectRatio) : E bool :=
  let* ok := EDIDRead in
  if negb ok then ret false
  else
    let* established :=
      (if videoFormat =? v640x480p_60Hz then
         let* b := data EDID_ET_POS in ret (negb (Z.land b EDID_ET_640x480p_VAL =? 0))
       else ret false) in
    if (established : bool) then ret true
    else
      let* dtd := IsContainVideoDTD 0 videoFormat in
      if (dtd : bool) then ret true
      else
        let* p := params_of videoFormat in
        let vic := vic_of p pixelRatio in
        let* r := for_extensions (fun i =>
          let* timing := IsTimingExtension i in
          if negb timing then ret None
          else
            let* c := IsContainVIC i vic in
            if (c : bool) then ret (Some tt)
            else let* c := IsContainVideoDTD i videoFormat in ret (if (c : bool) then Some tt else None)) in
        ret (bool_decide (r = Some tt)).

(** ** The vendor specific data block *)

(** A timing extension with an HDMI block: the address of the block. *)
Definition timing_vsdb (i : Z) : E (option Z) :=
  let* timing := IsTimingExtension i in
  if negb timing then ret None
  else let* a := GetVSDBOffset i in ret (if 0 <? a then Some a else None).
Definition block_length (a : Z) : E Z :=
  let* b := data a in ret (Z.land b EDID_DATA_BLOCK_SIZE_MASK).

Definition supports_depth (deepColor : Z) (depth : ColorDepth) (space : ColorSpace) : bool :=
  match space with
  | HDMI_CS_YCBCR444 => negb (Z.land deepColor EDID_DC_YCBCR_VAL =? 0)
  | _ => true
  end &&
  match depth with
  | HDMI_CD_36 => negb (Z.land deepColor EDID_DC_36_VAL =? 0)
  | HDMI_CD_30 => negb (Z.land deepColor EDID_DC_30_VAL =? 0)
  | HDMI_CD_24 => false
  end.

Definition CheckColorDepth (depth : ColorDepth) (space : ColorSpace) : E bool :=
  match depth with
  | HDMI_CD_24 => ret true
  | _ =>
      let* ok := EDIDRead in
      if negb ok then ret false
      else
        let* r := for_extensions (fun i =>
          let* a := timing_vsdb i in
          match a with
          | None => ret None
          | Some a =>
              let* len := block_length a in
              if EDID_DC_POS <=? len then
                let* b := data (a + EDID_DC_POS) in
                ret (Some (supports_depth (Z.land b EDID_DC_MASK) depth space))
              else ret None
          end) in
        ret (default false r)
  end.

Definition CheckColorSpace (space : ColorSpace) : E bool :=
  match space with
  | HDMI_CS_RGB => ret true
  | _ =>
      let* ok := EDIDRead in
      if negb ok then ret false
      else
        let* r := for_extensions (fun i =>
          let* timing := IsTimingExtension i in
          if negb timing then ret None
          else
            let* cs := data (i * SIZEOFEDIDBLOCK + EDID_COLOR_SPACE_POS) in
            let mask := match space with
                        | HDMI_CS_YCBCR444 => EDID_YCBCR444_CS_MASK
                        | _ => EDID_YCBCR422_CS_MASK
                        end in
            ret (if negb (Z.land cs mask =? 0) then Some tt else None)) in
        ret (bool_decide (r = Some tt))
  end.

(** The colorimetry data block answers; [metadata] has to be present. *)
Definition colorimetry_block (color : HDMIColorimetry) (addr tag blockLen : Z) : E (option bool) :=
  if tag =? EDID_EXTENDED_TAG_VAL then
    let* ext := data (addr + 1) in
    if ((ext =? EDID_EXTENDED_COLORIMETRY_VAL) && (blockLen - 1 =? EDID_EXTENDED_COLORIMETRY_BLOCK_LEN))%bool then
      let* c := data (addr + 2) in
      let* metadata := data (addr + 3) in
      ret (Some (match color with
                 | HDMI_COLORIMETRY_EXTENDED_xvYCC601 =>
                     negb (Z.land c EDID_XVYCC601_MASK =? 0) && negb (metadata =? 0)
                 | HDMI_COLORIMETRY_EXTENDED_xvYCC709 =>
                     negb (Z.land c EDID_XVYCC709_MASK =? 0) && negb (metadata =? 0)
                 | _ => false
                 end)%bool)
    else ret None
  else ret None.

Definition CheckColorimetry (color : HDMIColorimetry) : E bool :=
  match color with
  | HDMI_COLORIMETRY_NO_DATA | HDMI_COLORIMETRY_ITU601 | HDMI_COLORIMETRY_ITU709 => ret true
  | _ =>
      let* ok := EDIDRead in
      if negb ok then ret false
      else
        let* r := for_extensions (fun i =>
          let* timing := IsTimingExtension i in
          if negb timing then ret None else data_blocks i (colorimetry_block color)) in
        ret (default false r)
  end.

Definition GetMaxTMDS : E Z :=
  let* r := for_extensions (fun i =>
    let* a := timing_vsdb i in
    match a with
    | None => ret None
    | Some a =>
        let* len := block_length a in
        if EDID_MAX_TMDS_POS <=? len then let* b := data (a + EDID_MAX_TMDS_POS) in ret (Some b) else ret None
    end) in
  ret (default 0 r).

Definition EDIDGetCECPhysicalAddress : E (option Z) :=
  let* ok := EDIDRead in
  if negb ok then ret None
  else
    for_extensions (fun i =>
      let* a := timing_vsdb i in
      match a with
      | None => ret None
      | Some a =>
          let* hi := data (a + EDID_CEC_PHYICAL_ADDR) in
          let* lo := data (a + EDID_CEC_PHYICAL_ADDR + 1) in
          ret (Some (Z.lor (Z.shiftl hi 8) lo))
      end).

(** ** 3D formats *)

(** One code is stored: [aVIC[vic_count++] = code]; the loops stop at sixteen. *)
Definition save_code (vic_count code : Z) : E Z :=
  let* a := gets aVIC in
  let* _cell := deref OutOfBounds (zlookup a vic_count) in
  modify (fun s => s<|aVIC := zinsert vic_count code a|>) ;;;
  ret (vic_count + 1).

Definition save_block (addr tag blockLen vic_count : Z) : E Z :=
  if tag =? EDID_SHORT_VID_DEC_TAG_VAL then
    for_fold 1 (Z.to_nat (blockLen - 1)) vic_count (fun edid_index n =>
      if n <? NUM_OF_VIC_FOR_3D then
        let* b := data (addr + edid_index) in save_code n (Z.land b EDID_SVD_VIC_MASK)
      else ret n)
  else ret vic_count.

(** [while (ExtAddr < StartAddr + DTDStartAddr)], which has no other way out. *)
Fixpoint save_blocks (fuel : nat) (addr stop vic_count : Z) : E Z :=
  match fuel with
  | O => fail Diverges
  | S fuel =>
      if addr <? stop then
        let* b := data addr in
        let blockLen := Z.land b EDID_DATA_BLOCK_SIZE_MASK + 1 in
        let* n := save_block addr (Z.land b EDID_TAG_CODE_MASK) blockLen vic_count in
        save_blocks fuel (addr + blockLen) stop n
      else ret vic_count
  end.

Definition SaveVIC : E unit :=
  let* n := gets gExtensions in
  let* _count := for_fold 1 (Z.to_nat n) 0 (fun extension vic_count =>
    if vic_count <? NUM_OF_VIC_FOR_3D then
      let start := extension * SIZEOFEDIDBLOCK in
      let* dtd := data (start + EDID_DETAILED_TIMING_OFFSET_POS) in
      save_blocks 256 (start + EDID_DATA_BLOCK_START_POS) (start + dtd) vic_count
    else ret vic_count) in
  ret tt.

(** [1 << n] on [int] *)
Definition shl1 (n : Z) : E Z :=
  if ((0 <=? n) && (n <? 32))%bool then ret (u32 (Z.shiftl 1 n)) else fail BadShift.

(** [for (i = 0; i < stop; i++)] whose body may return.  [stop] can be as large as an
    [int], the bodies leave the EDID memory long before. *)
Fixpoint count_to (fuel : nat) (i stop : Z) (body : Z -> E bool) : E bool :=
  match fuel with
  | O => fail Diverges
  | S fuel =>
      if i <? stop then
        let* r := body i in
        if (r : bool) then ret true else count_to fuel (i + 1) stop body
      else ret false
  end.

(** What one extension decides: the function returns, or the outer loop goes on from the
    value [edid_index] has then.  The inner loops use the same variable. *)
Inductive verdict := Returns (b : bool) | Continues (edid_index : Z).

Definition latency_offset (b : Z) : Z :=
  let l := Z.shiftr (Z.land b EDID_HDMI_LATENCY_MASK) EDID_HDMI_LATENCY_POS in
  if l =? 0 then 4 else if l =? 3 then 0 else 2.

(** The HDMI_VIC list is read from its length byte on. *)
Definition hdmi_vic_listed (a len vic : Z) : E bool :=
  count_to 8 0 len (fun j =>
    let* b := data (a + EDID_HDMI_EXT_LENGTH_POS + j) in ret (vic =? b)).

Definition mandatory_3d (resolution format : Z) : bool :=
  existsb (fun e => (fst e =? resolution) && (snd e =? format))%bool edid_3d.

(** [3D_Structure_ALL] and the mask; the mask starts with all of its bits set. *)
Definition structure_all (a viclen multi : Z) : E (Z * Z) :=
  if ((multi =? EDID_3D_STRUCTURE_ONLY_EXIST) || (multi =? EDID_3D_STRUCTURE_MASK_EXIST))%bool then
    let* hi := data (a + EDID_HDMI_EXT_LENGTH_POS + viclen + 1) in
    let* lo := data (a + EDID_HDMI_EXT_LENGTH_POS + viclen + 2) in
    let structure := Z.lor (Z.shiftl hi 8) lo in
    if multi =? EDID_3D_STRUCTURE_MASK_EXIST then
      let* mhi := data (a + EDID_HDMI_EXT_LENGTH_POS + viclen + 3) in
      let* mlo := data (a + EDID_HDMI_EXT_LENGTH_POS + viclen + 4) in
      ret (structure, Z.lor (Z.lor 0xFFFF (Z.shiftl mhi 8)) mlo)
    else ret (structure, 0xFFFF)
  else ret (0, 0xFFFF).

Definition masked_vic (mask vic : Z) : E bool :=
  count_to 17 0 NUM_OF_VIC_FOR_3D (fun j =>
    let* bit := shl1 j in
    if Z.land mask bit =? 0 then ret false
    else
      let* a := gets aVIC in
      let* v := deref OutOfBounds (zlookup a j) in
      ret (vic =? v)).

(** The 3D extra data: the order of the code is not shifted down, and the structure is
    compared as a bit with the number of the format. *)
Definition extra_3d (a viclen multi len format vic : Z) : E bool :=
  count_to (Z.to_nat 32769) 0 (s32 (len / 2)) (fun j =>
    let* b := data (a + EDID_HDMI_EXT_LENGTH_POS + viclen
                    + Z.shiftr multi EDID_HDMI_3D_MULTI_PRESENT_BIT * 2 + j * 2) in
    let* order := shl1 (Z.land b EDID_HDMI_2D_VIC_ORDER_MASK) in
    let* structure := shl1 (Z.land b EDID_HDMI_3D_STRUCTURE_MASK) in
    if structure =? format then
      let* l := gets aVIC in
      let* v := deref OutOfBounds (zlookup l order) in
      ret (vic =? v)
    else ret false).

(** The mandatory formats, when the 3D_present bit is set. *)
Definition mandatory_step (v : HDMIVideoParameter) (present edid_index : Z) : E verdict :=
  if present =? 0 then ret (Continues edid_index)
  else
    let* ok := CheckResolution (resolution v) (pixelAspectRatio v) in
    ret (if (ok : bool) then
           if mandatory_3d (resolution v) (hdmi_3d_format v) then Returns true
           else Continues (zlength edid_3d)
         else Continues edid_index).

Definition multi_step (v : HDMIVideoParameter) (a viclen multi vic edid_index : Z) : E verdict :=
  if multi =? 0 then ret (Continues edid_index)
  else
    let* sm := structure_all a viclen multi in
    let* bit := shl1 (hdmi_3d_format v) in
    if Z.land (fst sm) bit =? 0 then ret (Continues edid_index)
    else
      let* ok := masked_vic (snd sm) vic in
      ret (if (ok : bool) then Returns true else Continues NUM_OF_VIC_FOR_3D).

Definition extra_step (v : HDMIVideoParameter) (a viclen multi len3d vic edid_index : Z) : E verdict :=
  let len := u32 (len3d - Z.shiftr multi EDID_HDMI_3D_MULTI_PRESENT_BIT * 2) in
  if len =? 0 then ret (Continues edid_index)
  else
    let* ok := extra_3d a viclen multi len (hdmi_3d_format v) vic in
    ret (if (ok : bool) then Returns true else Continues (Z.max 0 (s32 (len / 2)))).

Definition then_step (r : verdict) (k : Z -> E verdict) : E verdict :=
  match r with Returns b => ret (Returns b) | Continues i => k i end.

(** The body of the loop for the vendor block at [vsdb]. *)
Definition block_3d (v : HDMIVideoParameter) (vic vsdb edid_index : Z) : E verdict :=
  let* len := block_length vsdb in
  if len <? EDID_HDMI_EXT_POS then ret (Returns false)
  else
    let* b := data (vsdb + EDID_HDMI_EXT_POS) in
    let latency := latency_offset b in
    let a := vsdb - latency in
    let* lens := data (a + EDID_HDMI_EXT_LENGTH_POS) in
    let viclen := Z.shiftr (Z.land lens EDID_HDMI_VSDB_VIC_LEN_MASK) EDID_HDMI_VSDB_VIC_LEN_BIT in
    if hdmi_3d_format v =? HDMI_VIC_FORMAT then
      let* ok := hdmi_vic_listed a viclen vic in ret (Returns ok)
    else
      let len3d := Z.land lens EDID_HDMI_VSDB_3D_LEN_MASK in
      let* bits :=
        (if EDID_HDMI_3D_PRESENT_POS - latency <=? len then data (a + EDID_HDMI_3D_PRESENT_POS) else ret 0) in
      let multi := Z.land bits EDID_HDMI_3D_MULTI_PRESENT_MASK in
      let* r := mandatory_step v (Z.land bits EDID_HDMI_3D_PRESENT_MASK) edid_index in
      let* r := then_step r (multi_step v a viclen multi vic) in
      if EDID_HDMI_EXT_LENGTH_POS - latency <=? len then
        then_step r (extra_step v a viclen multi len3d vic)
      else ret r.

(** [for (edid_index = 1; edid_index <= gExtensions; edid_index++)] *)
Fixpoint loop_3d (fuel : nat) (v : HDMIVideoParameter) (vic edid_index : Z) : E bool :=
  match fuel with
  | O => fail Diverges
  | S fuel =>
      let* n := gets gExtensions in
      if edid_index <=? n then
        let* a := timing_vsdb edid_index in
        let* r := match a with
                  | None => ret (Continues edid_index)
                  | Some a => block_3d v vic a edid_index
                  end in
        match r with
        | Returns b => ret b
        | Continues i => loop_3d fuel v vic (i + 1)
        end
      else ret false
  end.

Definition EDID3DFormatSupport (fuel : nat) (v : HDMIVideoParameter) : E bool :=
  let* p := params_of (resolution v) in
  let vic := vic_of p (pixelAspectRatio v) in
  if hdmi_3d_format v =? HDMI_2D_VIDEO_FORMAT then ret true
  else
    let* ok := EDIDRead in
    if negb ok then ret false
    else
      SaveVIC ;;;
      loop_3d fuel v vic 1.

(** ** The questions of the clients *)
Definition EDIDHDMIModeSupport (v : HDMIVideoParameter) : E bool :=
  let* ok := EDIDRead in
  if negb ok then ret false
  else match mode v with HDMI => CheckHDMIMode | DVI => ret true end.

(** [TMDSClock *= 1.5] and [*= 1.25] are truncated to integers. *)
Definition TMDSClock (p : edid_params) (depth : ColorDepth) : Z :=
  let clock := PixelClock p / 100 in
  match depth with
  | HDMI_CD_36 => clock * 3 / 2
  | HDMI_CD_30 => clock * 5 / 4
  | HDMI_CD_24 => clock
  end.

Definition EDIDVideoResolutionSupport (fuel : nat) (v : HDMIVideoParameter) : E bool :=
  let* ok := EDIDRead in
  if negb ok then ret false
  else
    let* tmds := GetMaxTMDS in
    let max := tmds * 5 in
    let* p := params_of (resolution v) in
    if (negb (max =? 0) && (max <? TMDSClock p (colorDepth v)))%bool then ret false
    else
      let* ok := CheckResolution (resolution v) (pixelAspectRatio v) in
      if negb ok then ret false
      else EDID3DFormatSupport fuel v.

Definition EDIDColorDepthSupport (v : HDMIVideoParameter) : E bool :=
  let* ok := EDIDRead in
  if negb ok then ret false else CheckColorDepth (colorDepth v) (colorSpace v).
Definition EDIDColorSpaceSupport (v : HDMIVideoParameter) : E bool :=
  let* ok := EDIDRead in
  if negb ok then ret false else CheckColorSpace (colorSpace v).
Definition EDIDColorimetrySupport (v : HDMIVideoParameter) : E bool :=
  let* ok := EDIDRead in
  if negb ok then ret false else CheckColorimetry (colorimetry v).

(** ** Audio *)

(** A short audio descriptor: [Some r] when it decides the answer [r]. *)
Definition sad_answer (a : HDMIAudioParameter) (b0 b1 b2 : Z) : option Z :=
  let audioFormat := Z.land b0 EDID_SAD_CODE_MASK in
  let channels := Z.land b0 EDID_SAD_CHANNEL_MASK in
  if (negb (Z.land audioFormat (Z.shiftl (formatCode a) 3) =? 0)
      && (u32 (channelNum a - 1) <=? channels)
      && negb (Z.land b1 (Z.shiftl 1 (sampleFreq a)) =? 0))%bool then
    Some (if audioFormat =? LPCM_FORMAT then
            if wordLength a <=? WORD_20 then Z.land b2 2
            else if wordLength a <=? WORD_24 then Z.land b2 4 else 0
          else 1)
  else None.

(** [for (j = 1; j < blockLen; j += 3)] *)
Fixpoint sad_loop (fuel : nat) (a : HDMIAudioParameter) (addr j blockLen : Z) : E (option Z) :=
  match fuel with
  | O => fail Diverges
  | S fuel =>
      if j <? blockLen then
        let* b0 := data (addr + j) in
        let* b1 := data (addr + j + 1) in
        let* b2 := data (addr + j + 2) in
        match sad_answer a b0 b1 b2 with
        | Some r => ret (Some r)
        | None => sad_loop fuel a addr (j + 3) blockLen
        end
      else ret None
  end.

Definition EDIDAudioModeSupport (a : HDMIAudioParameter) : E Z :=
  let* ok := EDIDRead in
  if negb ok then ret 0
  else
    let* r := for_extensions (fun i =>
      let* timing := IsTimingExtension i in
      if negb timing then ret None
      else data_blocks i (fun addr tag blockLen =>
             if tag =? EDID_SHORT_AUD_DEC_TAG_VAL then sad_loop 32 a addr 1 blockLen else ret None)) in
    ret (default 0 r).
End edid.
