(* ===== verification/EdidSpec.v ===== *)
(** * The EDID library against the structure of an EDID

    The memory of the library as the encoding of what an EDID is made of: a base block and
    the extensions, a timing extension with its list of data blocks and its detailed
    timings.  The theorems state that the code of [Edid], which works on addresses, answers
    what can be read off that structure, that reading the EDID yields blocks whose checksums
    hold, and where the code leaves the memory or does not return. *)
From S2P Require Import Prelude Machine Bytes Edid.

(** ** Structure of an EDID *)
Record block := Block { b_tag : Z; payload : bytes }.
Definition encode_block (b : block) : bytes := (b_tag b * 32 + zlength (payload b)) :: payload b.
Definition encode_blocks (bs : list block) : bytes := concat (encode_block <$> bs).

(** Tag and length fit their bits, a vendor block has an identifier, an audio block whole
    descriptors. *)
Definition block_ok (b : block) : Prop :=
  0 <= b_tag b < 8 /\ zlength (payload b) <= 31 /\
  (b_tag b = 3 -> 3 <= zlength (payload b)) /\ (b_tag b = 1 -> zlength (payload b) mod 3 = 0).

Inductive extension :=
| Cea (flags : Z) (blocks : list block) (rest : bytes)   (* timing extension, revision 3 *)
| Other (l : bytes).                                     (* block map and the like *)
Definition encode_ext (e : extension) : bytes :=
  match e with
  | Cea flags bs rest => [2; 3; 4 + zlength (encode_blocks bs); flags] ++ encode_blocks bs ++ rest
  | Other l => l
  end.
Definition ext_ok (e : extension) : Prop :=
  length (encode_ext e) = 128%nat /\
  match e with
  | Cea _ bs _ => Forall block_ok bs
  | Other l => l !! 0%nat <> Some 2
  end.

(** The library has read [base] and the extensions [exts]. *)
Definition has_read (s : EdidSt) (base : bytes) (exts : list extension) : Prop :=
  gEdidData s = Some (base ++ concat (encode_ext <$> exts)) /\
  gExtensions s = zlength exts /\ length base = 128%nat /\ Forall ext_ok exts.

(** The first answer of a list. *)
Fixpoint first_some {A R} (f : A -> option R) (l : list A) : option R :=
  match l with
  | [] => None
  | a :: l => match f a with Some r => Some r | None => first_some f l end
  end.

(** ** Access to the memory *)
Section access.
Context `{Sink}.

Lemma data_lookup s l n b :
  gEdidData s = Some l -> l !! n = Some b -> data (Z.of_nat n) s = Done b s.
Proof. intros Hl Hb. unfold data, bind, gets. simpl. by rewrite Hl, zlookup_of_nat, Hb. Qed.

(** The bytes of [l] lie at address [a]. *)
Definition bytes_at (s : EdidSt) (a : Z) (l : bytes) : Prop :=
  forall j x, l !! j = Some x -> data (a + Z.of_nat j) s = Done x s.
Abbreviation block_at s a b := (bytes_at s a (encode_block b)).

Lemma bytes_at_mid s l pre m post :
  gEdidData s = Some l -> l = pre ++ m ++ post -> bytes_at s (zlength pre) m.
Proof.
  intros Hl -> j x Hj. unfold zlength. rewrite <-Nat2Z.inj_add.
  eapply data_lookup; [done|]. rewrite lookup_app_r by lia.
  rewrite lookup_app_l by (apply lookup_lt_Some in Hj; lia). rewrite <-Hj. f_equal. lia.
Qed.

Lemma bytes_at_app s a l k :
  bytes_at s a (l ++ k) -> bytes_at s a l /\ bytes_at s (a + zlength l) k.
Proof.
  intros Hb. split; intros j x Hj.
  - apply Hb. by apply lookup_app_l_Some.
  - unfold zlength. rewrite <-Z.add_assoc, <-Nat2Z.inj_add. apply Hb.
    rewrite lookup_app_r by lia. rewrite <-Hj. f_equal. lia.
Qed.

Lemma bytes_at_cons s a b l :
  bytes_at s a (b :: l) -> data a s = Done b s /\ bytes_at s (a + 1) l.
Proof.
  intros Hb. split.
  - rewrite <-(Z.add_0_r a). by apply (Hb 0%nat).
  - intros j x Hj. replace (a + 1 + Z.of_nat j) with (a + Z.of_nat (S j)) by lia. by apply Hb.
Qed.

Lemma bytes_at_get s a l j :
  bytes_at s a l -> 0 <= j < zlength l -> data (a + j) s = Done (nth (Z.to_nat j) l 0) s.
Proof.
  intros Hb Hj. unfold zlength in Hj. rewrite <-(Z2Nat.id j) at 1 by lia. apply Hb.
  destruct (lookup_lt_is_Some_2 l (Z.to_nat j)) as [x Hx]; [lia|].
  by rewrite Hx, (nth_lookup_Some _ _ _ _ Hx).
Qed.

(** The header byte of a block. *)
Lemma header_bits t n :
  0 <= t < 8 -> 0 <= n <= 31 ->
  Z.land (t * 32 + n) EDID_TAG_CODE_MASK = t * 32 /\ Z.land (t * 32 + n) EDID_DATA_BLOCK_SIZE_MASK = n.
Proof.
  intros Ht Hn.
  assert (Forall (fun t => Forall (fun n =>
    Z.land (t * 32 + n) EDID_TAG_CODE_MASK = t * 32 /\ Z.land (t * 32 + n) EDID_DATA_BLOCK_SIZE_MASK = n)
    (seqZ 0 32)) (seqZ 0 8)) as Hall by (apply (bool_decide_unpack _); vm_compute; exact I).
  rewrite Forall_forall in Hall. specialize (Hall t ltac:(apply elem_of_seqZ; lia)).
  rewrite Forall_forall in Hall. apply Hall, elem_of_seqZ. lia.
Qed.

Lemma block_at_header s a b :
  block_ok b -> block_at s a b ->
  exists h, data a s = Done h s /\ Z.land h EDID_TAG_CODE_MASK = b_tag b * 32 /\
            Z.land h EDID_DATA_BLOCK_SIZE_MASK = zlength (payload b) /\ bytes_at s (a + 1) (payload b).
Proof.
  intros (Ht & Hl & _) [Hh Hp]%bytes_at_cons. eexists. split; [exact Hh|].
  pose proof (header_bits (b_tag b) (zlength (payload b)) Ht ltac:(pose proof (zlength_nonneg (payload b)); lia)).
  tauto.
Qed.

(** ** The walk over the data blocks *)

(** The first answer, where a block is judged with its address. *)
Fixpoint first_block {R} (f : Z -> block -> option R) (a : Z) (bs : list block) : option R :=
  match bs with
  | [] => None
  | b :: bs =>
      match f a b with Some r => Some r | None => first_block f (a + zlength (payload b) + 1) bs end
  end.

Lemma zlength_encode_block b : zlength (encode_block b) = zlength (payload b) + 1.
Proof. unfold zlength, encode_block. simpl. lia. Qed.

Lemma encode_blocks_cons b bs : encode_blocks (b :: bs) = encode_block b ++ encode_blocks bs.
Proof. done. Qed.

Lemma encode_blocks_length bs : (length bs <= length (encode_blocks bs))%nat.
Proof.
  induction bs as [|b bs IH]; [done|]. unfold encode_blocks in *. cbn. rewrite length_app. lia.
Qed.

Lemma walk_blocks {R} s (f : Z -> block -> option R) body : forall bs a fuel,
  (length bs < fuel)%nat -> Forall block_ok bs -> bytes_at s a (encode_blocks bs) ->
  (forall a b, b ∈ bs -> block_ok b -> block_at s a b ->
     body a (b_tag b * 32) (zlength (payload b) + 1) s = Done (f a b) s) ->
  walk fuel a (a + zlength (encode_blocks bs)) body s = Done (first_block f a bs) s.
Proof.
  induction bs as [|b bs IH]; intros a fuel Hf Hok Hat Hb; (destruct fuel as [|fuel]; [simpl in Hf; lia|]).
  { cbn. by rewrite Z.add_0_r, Z.ltb_irrefl. }
  apply Forall_cons in Hok as [Hok Hoks].
  rewrite encode_blocks_cons in Hat |- *. apply bytes_at_app in Hat as [Hat Hrest].
  rewrite zlength_app. rewrite zlength_encode_block in Hrest |- *.
  pose proof (zlength_nonneg (payload b)). pose proof (zlength_nonneg (encode_blocks bs)).
  cbn [walk first_block]. rewrite (proj2 (Z.ltb_lt _ _)) by lia.
  destruct (block_at_header s a b Hok Hat) as (h & Hh & Htag & Hlen & _).
  unfold bind at 1. rewrite Hh. cbn [obind]. unfold bind at 1. rewrite Htag, Hlen.
  rewrite Hb by (done || constructor). cbn [obind]. destruct (f a b); [done|].
  replace (a + (zlength (payload b) + 1 + zlength (encode_blocks bs)))
    with (a + (zlength (payload b) + 1) + zlength (encode_blocks bs)) by lia.
  rewrite IH; [f_equal; f_equal; lia|simpl in Hf; lia|done|done|].
  intros a' b' Hin. apply Hb. by constructor.
Qed.

(** ** The loop over the extensions *)
Definition ext_addr (i : nat) : Z := (Z.of_nat i + 1) * SIZEOFEDIDBLOCK.

Lemma length_concat_exts exts :
  Forall ext_ok exts -> length (concat (encode_ext <$> exts)) = (128 * length exts)%nat.
Proof.
  induction 1 as [|e exts [He _] Hok IH]; [done|]. cbn [fmap list_fmap concat length].
  rewrite length_app, IH, He. lia.
Qed.

Lemma ext_at s base exts i e :
  has_read s base exts -> exts !! i = Some e ->
  ext_ok e /\ bytes_at s (ext_addr i) (encode_ext e) /\ unavailable (Z.of_nat i + 1) s = Done false s.
Proof.
  intros (Hd & Hn & Hbase & Hok) Hi.
  split; [by eapply Forall_lookup_1|]. split.
  - apply list_elem_of_split_length in Hi as (l1 & l2 & -> & ->).
    rewrite fmap_app, concat_app in Hd. cbn [fmap list_fmap concat] in Hd.
    replace (ext_addr (length l1)) with (zlength (base ++ concat (encode_ext <$> l1))).
    { eapply bytes_at_mid; [exact Hd|]. rewrite <-!app_assoc. done. }
    apply Forall_app in Hok as [Hok _]. unfold zlength, ext_addr, SIZEOFEDIDBLOCK.
    rewrite length_app, Hbase, length_concat_exts by done. lia.
  - unfold unavailable, EDIDValid, bind, gets. cbn. rewrite Hd, Hn. unfold ret. cbn.
    apply lookup_lt_Some in Hi. unfold zlength. by rewrite (proj2 (Z.ltb_ge _ _)) by lia.
Qed.

Lemma for_exts {R} s base exts (f : extension -> option R) body :
  has_read s base exts ->
  (forall i e, exts !! i = Some e -> body (Z.of_nat i + 1) s = Done (f e) s) ->
  for_extensions body s = Done (first_some f exts) s.
Proof.
  intros (_ & Hn & _ & _) Hb. unfold for_extensions, bind at 1, gets. cbn [obind].
  rewrite Hn. unfold zlength. rewrite Nat2Z.id.
  assert (forall k l, drop k exts = l -> for_exit (Z.of_nat k + 1) (length l) body s = Done (first_some f l) s) as Hk.
  { intros k l. revert k. induction l as [|e l IH]; intros k Hl; [done|].
    cbn [length first_some]. rewrite for_exit_S. unfold bind at 1.
    assert (exts !! k = Some e) as He by (rewrite <-(Nat.add_0_r k), <-lookup_drop, Hl; done).
    rewrite (Hb k e He). cbn [obind]. destruct (f e); [done|].
    replace (Z.of_nat k + 1 + 1) with (Z.of_nat (S k) + 1) by lia. apply IH.
    replace (S k) with (k + 1)%nat by lia. rewrite <-drop_drop, Hl. done. }
  by apply (Hk 0%nat).
Qed.

Lemma EDIDRead_valid s base exts : has_read s base exts -> EDIDRead s = Done true s.
Proof. intros (Hd & _). unfold EDIDRead, EDIDValid, bind, gets. cbn. by rewrite Hd. Qed.

(** ** The timing extensions *)
Definition is_cea (e : extension) : bool := match e with Cea _ _ _ => true | Other _ => false end.

Lemma IsTimingExtension_spec s base exts i e :
  has_read s base exts -> exts !! i = Some e -> IsTimingExtension (Z.of_nat i + 1) s = Done (is_cea e) s.
Proof.
  intros Hr Hi. destruct (ext_at s base exts i e Hr Hi) as ((Hlen & He) & Hat & Hav).
  unfold IsTimingExtension, bind. rewrite Hav. cbn [obind]. fold (ext_addr i).
  destruct e as [flags bs rest|l]; cbn [encode_ext is_cea] in *.
  - apply bytes_at_cons in Hat as [H0 [H1 _]%bytes_at_cons]. rewrite H0. cbn.
    unfold EDID_TIMING_EXT_REV_NUMBER_POS. by rewrite H1.
  - destruct l as [|b l]; [done|]. apply bytes_at_cons in Hat as [H0 _]. rewrite H0. cbn.
    unfold EDID_TIMING_EXT_TAG_VAL. rewrite (proj2 (Z.eqb_neq b 2)); [done|]. intros ->. by apply He.
Qed.

Lemma cea_blocks s base exts i flags bs rest :
  has_read s base exts -> exts !! i = Some (Cea flags bs rest) ->
  Forall block_ok bs /\ (length bs < 256)%nat /\
  data (ext_addr i + EDID_DETAILED_TIMING_OFFSET_POS) s = Done (4 + zlength (encode_blocks bs)) s /\
  data (ext_addr i + EDID_COLOR_SPACE_POS) s = Done flags s /\
  bytes_at s (ext_addr i + EDID_DATA_BLOCK_START_POS) (encode_blocks bs) /\
  bytes_at s (ext_addr i + 4 + zlength (encode_blocks bs)) rest.
Proof.
  intros Hr Hi. destruct (ext_at s base exts i _ Hr Hi) as ((Hlen & He) & Hat & _).
  cbn [encode_ext] in *. pose proof (encode_blocks_length bs).
  split; [done|]. split.
  { cbn [app length] in Hlen. rewrite length_app in Hlen. lia. }
  assert (bytes_at s (ext_addr i) [2; 3; 4 + zlength (encode_blocks bs); flags]) as Hhead.
  { by apply bytes_at_app in Hat as [? _]. }
  apply bytes_at_app in Hat as [_ Hat]. change (zlength [_; _; _; _]) with 4 in Hat.
  apply bytes_at_app in Hat as [Hbs Hrest].
  split; [by apply (Hhead 2%nat)|]. split; [by apply (Hhead 3%nat)|]. by split.
Qed.

Lemma data_blocks_spec {R} s base exts i flags bs rest (f : Z -> block -> option R) body :
  has_read s base exts -> exts !! i = Some (Cea flags bs rest) ->
  (forall a b, b ∈ bs -> block_ok b -> block_at s a b ->
     body a (b_tag b * 32) (zlength (payload b) + 1) s = Done (f a b) s) ->
  data_blocks (Z.of_nat i + 1) body s = Done (first_block f (ext_addr i + 4) bs) s.
Proof.
  intros Hr Hi Hb. destruct (cea_blocks _ _ _ _ _ _ _ Hr Hi) as (Hok & Hf & Hd & _ & Hat & _).
  unfold data_blocks, bind. fold (ext_addr i). rewrite Hd. cbn [obind]. rewrite Z.add_assoc.
  by apply walk_blocks.
Qed.

(** A judgement that does not depend on the address. *)
Lemma first_block_some {R} (g : block -> option R) bs : forall a,
  first_block (fun _ => g) a bs = first_some g bs.
Proof. induction bs as [|b bs IH]; intros a; cbn; [done|]. by destruct (g b). Qed.
End access.

(** ** The vendor block of HDMI *)
Definition is_hdmi (b : block) : bool :=
  (b_tag b =? 3) && bool_decide (take 3 (payload b) = [0x03; 0x0C; 0x00]) && (5 <=? zlength (payload b)).
Definition hdmi_block (e : extension) : option block :=
  match e with
  | Cea _ bs _ => first_some (fun b => if is_hdmi b then Some b else None) bs
  | Other _ => None
  end.
Definition byte_of (b : block) (j : Z) : Z := nth (Z.to_nat j) (payload b) 0.

Lemma bind_done {S A B} (m : M S A) (f : A -> M S B) s a s' :
  m s = Done a s' -> bind m f s = f a s'.
Proof. intros Hm. unfold bind. by rewrite Hm. Qed.
Ltac run H := rewrite (bind_done _ _ _ _ _ H).

Section vsdb.
Context `{Sink}.

Lemma is_vsdb_spec s a b :
  block_ok b -> bytes_at s a (encode_block b) ->
  is_vsdb a (b_tag b * 32) (zlength (payload b) + 1) s = Done (if is_hdmi b then Some a else None) s.
Proof.
  intros (Ht & Hl & Hv & _) Hat. unfold is_vsdb, is_hdmi.
  destruct (Z.eqb_spec (b_tag b) 3) as [E|E]; cycle 1.
  { rewrite (proj2 (Z.eqb_neq _ _)); [done|]. change EDID_VSDB_TAG_VAL with 96. lia. }
  specialize (Hv E). rewrite E. cbn [Z.eqb andb]. apply bytes_at_cons in Hat as [_ Hat].
  destruct (payload b) as [|b0 [|b1 [|b2 l]]]; try (unfold zlength in Hv; simpl in Hv; lia).
  apply bytes_at_cons in Hat as [H0 Hat]. apply bytes_at_cons in Hat as [H1 Hat].
  apply bytes_at_cons in Hat as [H2 _].
  replace (a + 1 + 1) with (a + 2) in * by lia. replace (a + 2 + 1) with (a + 3) in * by lia.
  change (_ =? EDID_VSDB_TAG_VAL) with true. cbv iota. unfold data_is, bind.
  rewrite H0. cbn [obind]. destruct (Z.eqb_spec b0 3) as [->|]; cycle 1.
  { rewrite bool_decide_false by (cbn; congruence). done. }
  rewrite H1. cbn [obind]. destruct (Z.eqb_spec b1 12) as [->|]; cycle 1.
  { rewrite bool_decide_false by (cbn; congruence). done. }
  rewrite H2. cbn [obind]. destruct (Z.eqb_spec b2 0) as [->|]; cycle 1.
  { rewrite bool_decide_false by (cbn; congruence). done. }
  rewrite bool_decide_true by done. unfold ret, EDID_VSDB_MIN_LENGTH_VAL. cbn [obind andb].
  replace (5 <? zlength _ + 1) with (5 <=? zlength (3 :: 12 :: 0 :: l)); [done|].
  destruct (Z.leb_spec 5 (zlength (3 :: 12 :: 0 :: l))), (Z.ltb_spec 5 (zlength (3 :: 12 :: 0 :: l) + 1)); lia.
Qed.

(** The address the walk finds is that of the first HDMI block. *)
Lemma first_vsdb s : forall bs a,
  bytes_at s a (encode_blocks bs) ->
  match first_some (fun b => if is_hdmi b then Some b else None) bs with
  | Some b => exists a', first_block (fun a b => if is_hdmi b then Some a else None) a bs = Some a' /\
                         a <= a' /\ bytes_at s a' (encode_block b) /\ b ∈ bs
  | None => first_block (fun a b => if is_hdmi b then Some a else None) a bs = None
  end.
Proof.
  induction bs as [|b bs IH]; intros a Hat; [done|].
  rewrite encode_blocks_cons in Hat. apply bytes_at_app in Hat as [Hb Hat].
  rewrite zlength_encode_block in Hat. cbn [first_some first_block].
  destruct (is_hdmi b); [exists a; split_and!; [done|lia|done|by constructor]|].
  rewrite Z.add_assoc in Hat. specialize (IH _ Hat). destruct (first_some _ bs) as [b'|]; [|done].
  destruct IH as (a' & -> & ? & ? & ?). pose proof (zlength_nonneg (payload b)).
  exists a'. split_and!; [done|lia|done|by constructor].
Qed.

Lemma GetVSDBOffset_spec s base exts i flags bs rest :
  has_read s base exts -> exts !! i = Some (Cea flags bs rest) ->
  GetVSDBOffset (Z.of_nat i + 1) s =
  Done (default 0 (first_block (fun a b => if is_hdmi b then Some a else None) (ext_addr i + 4) bs)) s.
Proof.
  intros Hr Hi. destruct (ext_at _ _ _ _ _ Hr Hi) as (_ & _ & Hav).
  unfold GetVSDBOffset. run Hav. cbv iota. erewrite bind_done; [reflexivity|].
  eapply data_blocks_spec; [done..|]. intros. by apply is_vsdb_spec.
Qed.

Lemma timing_vsdb_spec s base exts i e :
  has_read s base exts -> exts !! i = Some e ->
  match hdmi_block e with
  | Some b => exists a, timing_vsdb (Z.of_nat i + 1) s = Done (Some a) s /\
                        block_ok b /\ bytes_at s a (encode_block b) /\ 5 <= zlength (payload b)
  | None => timing_vsdb (Z.of_nat i + 1) s = Done None s
  end.
Proof.
  intros Hr Hi. unfold timing_vsdb. run (IsTimingExtension_spec _ _ _ _ _ Hr Hi).
  destruct e as [flags bs rest|l]; cbn [is_cea negb hdmi_block]; [|done].
  destruct (cea_blocks _ _ _ _ _ _ _ Hr Hi) as (Hok & _ & _ & _ & Hat & _).
  run (GetVSDBOffset_spec _ _ _ _ _ _ _ Hr Hi).
  pose proof (first_vsdb s bs _ Hat) as Hf. unfold EDID_DATA_BLOCK_START_POS in Hf.
  destruct (first_some _ bs) as [b|] eqn:E; cycle 1.
  { rewrite Hf. done. }
  destruct Hf as (a' & -> & Ha & Hb & Hin). cbn. unfold ext_addr, SIZEOFEDIDBLOCK in Ha.
  rewrite (proj2 (Z.ltb_lt _ _)) by lia. exists a'. split_and!; [done| |done|].
  - rewrite Forall_forall in Hok. by apply Hok.
  - revert E. clear. induction bs as [|c bs IH]; cbn; [done|].
    destruct (is_hdmi c) eqn:Hc; [|done]. intros [= ->].
    unfold is_hdmi in Hc. apply andb_prop in Hc as [_ Hc]. by apply Z.leb_le.
Qed.

(** A question answered by the HDMI blocks of the extensions. *)
Lemma for_vsdb {R} s base exts (g : block -> option R) (body : Z -> M EdidSt (option R)) :
  has_read s base exts ->
  (forall a b, block_ok b -> bytes_at s a (encode_block b) -> 5 <= zlength (payload b) -> body a s = Done (g b) s) ->
  for_extensions (fun i =>
    let* a := timing_vsdb i in match a with None => ret None | Some a => body a end) s
  = Done (first_some (fun e => hdmi_block e ≫= g) exts) s.
Proof.
  intros Hr Hb. eapply for_exts; [done|]. intros i e Hi.
  pose proof (timing_vsdb_spec _ _ _ _ _ Hr Hi) as Ht. destruct (hdmi_block e) as [b|].
  - destruct Ht as (a & Ht & Hok & Hat & Hlen). run Ht. cbn. by apply Hb.
  - run Ht. done.
Qed.

Lemma block_at_byte s a b j :
  bytes_at s a (encode_block b) -> 0 <= j < zlength (payload b) ->
  data (a + (j + 1)) s = Done (byte_of b j) s.
Proof.
  intros [_ Hat]%bytes_at_cons Hj. replace (a + (j + 1)) with (a + 1 + j) by lia. by apply bytes_at_get.
Qed.

Lemma block_length_spec s a b :
  block_ok b -> bytes_at s a (encode_block b) -> block_length a s = Done (zlength (payload b)) s.
Proof.
  intros Hok Hat. destruct (block_at_header s a b Hok Hat) as (h & Hh & _ & Hlen & _).
  unfold block_length. run Hh. by rewrite Hlen.
Qed.

(** The physical address of the HDMI block. *)
Definition cec_address (b : block) : Z := Z.lor (Z.shiftl (byte_of b 3) 8) (byte_of b 4).
Definition deep_color (b : block) : option Z :=
  if 6 <=? zlength (payload b) then Some (Z.land (byte_of b 5) EDID_DC_MASK) else None.

(** On an EDID that was read, the CEC address is that of the first timing extension
    with an HDMI vendor block, two bytes of its payload, and there is none when no
    extension has such a block. *)
Theorem EDIDGetCECPhysicalAddress_spec s base exts :
  has_read s base exts ->
  EDIDGetCECPhysicalAddress s = Done (first_some (fun e => cec_address <$> hdmi_block e) exts) s.
Proof.
  intros Hr. unfold EDIDGetCECPhysicalAddress. run (EDIDRead_valid _ _ _ Hr). cbn [negb]. cbv iota.
  etransitivity; [apply (for_vsdb s base exts (fun b => Some (cec_address b))); [done|]|].
  - intros a b Hok Hat Hlen. run (block_at_byte s a b 3 Hat ltac:(lia)).
    rewrite <-Z.add_assoc. run (block_at_byte s a b 4 Hat ltac:(lia)). done.
  - done.
Qed.


(** The colour depth question is answered by the first HDMI block that has the
    deep colour byte, 24 bits are always supported. *)
Theorem CheckColorDepth_spec s base exts depth space :
  has_read s base exts ->
  CheckColorDepth depth space s =
  Done (match depth with
        | HDMI_CD_24 => true
        | _ => match first_some (fun e => hdmi_block e ≫= deep_color) exts with
               | Some dc => supports_depth dc depth space
               | None => false
               end
        end) s.
Proof.
  intros Hr. assert (forall d, for_extensions (fun i =>
      let* a := timing_vsdb i in
      match a with
      | None => ret None
      | Some a =>
          let* len := block_length a in
          if EDID_DC_POS <=? len then
            let* b := data (a + EDID_DC_POS) in
            ret (Some (supports_depth (Z.land b EDID_DC_MASK) d space))
          else ret None
      end) s = Done (first_some (fun e => hdmi_block e ≫= fun b =>
                 (fun dc => supports_depth dc d space) <$> deep_color b) exts) s) as Hfor.
  { intros d. apply (for_vsdb s base exts); [done|]. intros a b Hok Hat Hlen.
    run (block_length_spec s a b Hok Hat). unfold EDID_DC_POS, deep_color.
    destruct (Z.leb_spec 6 (zlength (payload b))); [|done].
    run (block_at_byte s a b 5 Hat ltac:(lia)). done. }
  assert (forall d, first_some (fun e => hdmi_block e ≫= fun b => (fun dc => supports_depth dc d space) <$> deep_color b) exts
    = (fun dc => supports_depth dc d space) <$> first_some (fun e => hdmi_block e ≫= deep_color) exts) as Hmap.
  { intros d. clear. induction exts as [|e exts IH]; cbn; [done|]. rewrite IH.
    destruct (hdmi_block e) as [b|]; cbn; [|done]. by destruct (deep_color b). }
  unfold CheckColorDepth. destruct depth; [| |done];
    (run (EDIDRead_valid _ _ _ Hr); cbn [negb]; cbv iota; erewrite bind_done by apply Hfor; rewrite Hmap;
     by destruct (first_some _ exts)).
Qed.
End vsdb.

(** ** Audio descriptors *)
Fixpoint sads (l : bytes) : list (Z * Z * Z) :=
  match l with
  | x :: y :: z :: l => (x, y, z) :: sads l
  | _ => []
  end.
Definition block_audio (a : HDMIAudioParameter) (b : block) : option Z :=
  if b_tag b =? 1 then first_some (fun '(x, y, z) => sad_answer a x y z) (sads (payload b)) else None.
Definition ext_audio (a : HDMIAudioParameter) (e : extension) : option Z :=
  match e with Cea _ bs _ => first_some (block_audio a) bs | Other _ => None end.


(** The descriptors of 18 bytes at the start of [l]. *)
Fixpoint dtds (n : nat) (l : bytes) : list bytes :=
  match n with
  | O => []
  | S n => if (18 <=? length l)%nat then take 18 l :: dtds n (drop 18 l) else []
  end.
Definition byte (d : bytes) (j : nat) : Z := nth j d 0.
Definition clock_of (d : bytes) : Z := Z.lor (Z.shiftl (byte d 1) 8) (byte d 0).
Definition timing_of (d : bytes) : timing :=
  mkTiming (clock_of d)
    (Z.lor (Z.shiftl (Z.land (byte d 4) 0xF) 8) (byte d 3))
    (Z.lor (Z.shiftl (Z.land (byte d 4) 0xF0) 4) (byte d 2))
    (Z.lor (Z.shiftl (Z.land (byte d 7) 0x0F) 8) (byte d 6))
    (Z.lor (Z.shiftl (Z.land (byte d 7) 0xF0) 4) (byte d 5)).
Definition dtd_matches (p : edid_params) (d : bytes) : bool :=
  negb (clock_of d =? 0) && timing_matches p (timing_of d).



Section video.
Context `{Sink}.

Lemma sad_loop_spec s a addr : forall l j fuel,
  bytes_at s (addr + j) l -> zlength l mod 3 = 0 -> zlength l < 3 * Z.of_nat fuel ->
  sad_loop fuel a addr j (j + zlength l) s = Done (first_some (fun '(x, y, z) => sad_answer a x y z) (sads l)) s.
Proof.
  intros l j fuel. revert l j. induction fuel as [|fuel IH]; intros l j Hat Hm Hf.
  { pose proof (zlength_nonneg l). lia. }
  destruct l as [|x [|y [|z l]]]; [|done|done|].
  { cbn [sad_loop sads first_some]. change (zlength []) with 0. by rewrite Z.add_0_r, Z.ltb_irrefl. }
  apply bytes_at_cons in Hat as [Hx [Hy [Hz Hat]%bytes_at_cons]%bytes_at_cons].
  replace (zlength (x :: y :: z :: l)) with (3 + zlength l) in * by (unfold zlength; simpl; lia).
  pose proof (zlength_nonneg l). cbn [sad_loop sads first_some]. rewrite (proj2 (Z.ltb_lt _ _)) by lia.
  run Hx. run Hy. replace (addr + j + 2) with (addr + j + 1 + 1) by lia. run Hz.
  destruct (sad_answer a x y z); [done|]. rewrite Z.add_assoc. apply IH; [|Z.div_mod_to_equations; lia|lia].
  by replace (addr + (j + 3)) with (addr + j + 1 + 1 + 1) by lia.
Qed.

(** The answer about an audio format is that of the first short audio descriptor, over
    all audio blocks of all timing extensions, that decides it. *)
Theorem EDIDAudioModeSupport_spec s base exts a :
  has_read s base exts ->
  EDIDAudioModeSupport a s = Done (default 0 (first_some (ext_audio a) exts)) s.
Proof.
  intros Hr. unfold EDIDAudioModeSupport. run (EDIDRead_valid _ _ _ Hr). cbn [negb]. cbv iota.
  erewrite bind_done; [reflexivity|]. eapply for_exts; [done|]. intros i e Hi.
  run (IsTimingExtension_spec _ _ _ _ _ Hr Hi). destruct e as [flags bs rest|l]; [|done]. cbn [is_cea negb ext_audio].
  rewrite <-(first_block_some (block_audio a) bs (ext_addr i + 4)).
  eapply data_blocks_spec; [done..|]. intros a' b _ (Ht & Hl & _ & Hm) Hat.
  unfold block_audio. change EDID_SHORT_AUD_DEC_TAG_VAL with 32.
  destruct (Z.eqb_spec (b_tag b) 1) as [E|E]; cycle 1.
  { rewrite (proj2 (Z.eqb_neq _ _)) by lia. done. }
  rewrite E. cbn [Z.mul Z.eqb Pos.mul Pos.eqb]. rewrite Z.add_comm.
  apply bytes_at_cons in Hat as [_ Hat]. apply sad_loop_spec; [done|auto|lia].
Qed.




(** ** Detailed timings *)
Lemma read_timing_spec s i d c :
  bytes_at s i d -> length d = 18%nat -> c = clock_of d -> read_timing i c s = Done (timing_of d) s.
Proof.
  intros Hat Hd ->. assert (forall j, 0 <= j < 18 -> data (i + j) s = Done (nth (Z.to_nat j) d 0) s) as Hj.
  { intros j ?. apply bytes_at_get; [done|]. unfold zlength. lia. }
  unfold read_timing. run (Hj 4 ltac:(lia)). run (Hj 3 ltac:(lia)). run (Hj 2 ltac:(lia)).
  run (Hj 7 ltac:(lia)). run (Hj 6 ltac:(lia)). run (Hj 5 ltac:(lia)). done.
Qed.




Lemma dtd_loop_step s fmt p d i stop fuel :
  zlookup aVideoParams fmt = Some p -> bytes_at s i d -> length d = 18%nat -> i < stop ->
  dtd_loop (S fuel) i stop fmt s =
  if dtd_matches p d then Done true s else dtd_loop fuel (i + 18) stop fmt s.
Proof.
  intros Hp Hat Hd Hi. cbn [dtd_loop]. rewrite (proj2 (Z.ltb_lt _ _)) by lia.
  assert (forall j, 0 <= j < 18 -> data (i + j) s = Done (nth (Z.to_nat j) d 0) s) as Hj.
  { intros j ?. apply bytes_at_get; [done|]. unfold zlength. lia. }
  pose proof (Hj 0 ltac:(lia)) as H0. rewrite Z.add_0_r in H0.
  run (Hj 1 ltac:(lia)). run H0. fold (byte d 1) (byte d 0). change (nth (Z.to_nat 1) d 0) with (byte d 1).
  change (nth (Z.to_nat 0) d 0) with (byte d 0). fold (clock_of d). unfold dtd_matches.
  destruct (clock_of d =? 0); cbn [negb andb]; [done|].
  run (read_timing_spec s i d _ Hat Hd eq_refl). unfold params_of. rewrite Hp. cbn [deref]. unfold bind at 1. cbn [ret obind].
  run (Hj 17 ltac:(lia)). by destruct (timing_matches p _).
Qed.





End video.

(** ** Reading the EDID *)
Section reading.
Context `{SinkLaws}.

Lemma CalcChecksum_sum l : CalcChecksum l = (foldr Z.add 0 l mod 256 =? 0).
Proof.
  unfold CalcChecksum. f_equal.
  assert (forall a, fold_left (fun sum b => u8 (sum + b)) l (u8 a) = u8 (a + foldr Z.add 0 l)) as Ha.
  { induction l as [|b l IH]; intros a; cbn [fold_left foldr]; [by rewrite Z.add_0_r|].
    replace (u8 (u8 a + b)) with (u8 (a + b)) by (unfold u8, wrapu; by rewrite Z.add_mod_idemp_l).
    rewrite IH. f_equal. lia. }
  exact (Ha 0).
Qed.

(** A block the display sent: its checksum holds. *)
Definition sent (n : nat) (k : Z) (l : bytes) : Prop :=
  length l = 128%nat /\ Forall is_byte l /\ foldr Z.add 0 l mod 256 = 0 /\
  i2c_read n (k / 2) (k mod 2 * 128) = Some l.

Lemma ReadEDIDBlock_spec k s :
  0 <= k < 256 ->
  exists r n, ReadEDIDBlock k s = Done r s<|calls := n|> /\
    (calls s <= n)%nat /\
    (forall l, r = Some l -> n = S (calls s) /\ sent (calls s) k l).
Proof.
  intros Hk. unfold ReadEDIDBlock, EDDCRead, DDCFileAvailable, bind, gets, syscall. cbn [obind].
  destruct (0 <=? ddc_fd s); cbn [negb ret obind]; cycle 1.
  { exists None, (calls s). split_and!; [by destruct s|done|done]. }
  assert (0 <= k / 2 < 128) by (split; [apply Z.div_pos|apply Z.div_lt_upper_bound]; lia).
  pose proof (Z.mod_pos_bound k 2 ltac:(lia)).
  replace (u8 (k / 2)) with (k / 2) by (symmetry; apply Z.mod_small; lia).
  replace (u8 _) with (k mod 2 * 128) by (symmetry; apply Z.mod_small; unfold SIZEOFEDIDBLOCK; lia).
  eexists _, (S (calls s)). split_and!; [reflexivity|lia|]. intros l Hl. split; [done|].
  destruct (i2c_read _ _ _) as [l'|] eqn:E; [|done]. destruct (CalcChecksum l') eqn:Hc; [|done].
  injection Hl as ->. rewrite CalcChecksum_sum in Hc. apply Z.eqb_eq in Hc.
  destruct (i2c_read_block _ _ _ _ E). by split_and!.
Qed.

(** What is unchanged by reading. *)
Definition same_bus (s s' : EdidSt) : Prop :=
  ddc_fd s' = ddc_fd s /\ ref_cnt s' = ref_cnt s /\ aVIC s' = aVIC s.
(** [k] blocks are in the memory, sent one after the other. *)
Definition blocks_in (s : EdidSt) (blocks : list bytes) : Prop :=
  gEdidData s = Some (concat blocks) /\
  forall k l, blocks !! k = Some l -> exists n, (n < calls s)%nat /\ sent n (Z.of_nat k) l.

Lemma blocks_in_snoc s s' blocks l :
  blocks_in s blocks -> (calls s <= calls s')%nat ->
  gEdidData s' = Some (concat blocks ++ l) ->
  (exists n, (n < calls s')%nat /\ sent n (zlength blocks) l) -> blocks_in s' (blocks ++ [l]).
Proof.
  intros [_ Hb] Hc Hd Hl. split; [by rewrite concat_app, concat_cons, concat_nil, app_nil_r|].
  intros k x [Hk|[Hk Hx]]%lookup_app_Some.
  - destruct (Hb k x Hk) as (n & ? & ?). exists n. split; [lia|done].
  - destruct (k - length blocks)%nat as [|j] eqn:Ej; [|done]. injection Hx as <-.
    replace (Z.of_nat k) with (zlength blocks) by (unfold zlength; lia). done.
Qed.

Lemma read_extensions s0 s first n :
  blocks_in s [first] -> 0 <= n < 256 -> same_bus s0 s -> gExtensions s = n ->
  wp (fun _ => False) (for_exit 1 (Z.to_nat n) read_extension s) (fun r s' =>
    same_bus s0 s' /\ gExtensions s' = n /\
    match r with
    | Some _ => gEdidData s' = None
    | None => exists rest, zlength rest = n /\ blocks_in s' (first :: rest)
    end).
Proof.
  intros Hb Hn Hbus Hext.
  apply (wp_for_exit _ (fun i st => same_bus s0 st /\ gExtensions st = n /\
           exists rest, zlength rest = i - 1 /\ blocks_in st (first :: rest))).
  - split_and!; [done..|]. by exists [].
  - intros i st Hi (Hbus' & Hext' & rest & Hrest & Hin). unfold read_extension.
    destruct (ReadEDIDBlock_spec i st ltac:(lia)) as (r & m & Hrd & Hm & Hr). run Hrd. clear Hrd.
    destruct r as [l|]; cycle 1. { cbn. by split_and!. }
    destruct (Hr l eq_refl) as [-> Hl]. cbn. split_and!; [done..|].
    exists (rest ++ [l]). split; [rewrite zlength_app, Hrest; change (zlength [l]) with 1; lia|].
    change (blocks_in (set_field gEdidData (fmap (fun d => d ++ l)) st<|calls := S (calls st)|>) ((first :: rest) ++ [l])).
    eapply blocks_in_snoc; [exact Hin|cbn; lia| |].
    + destruct Hin as [Hd _]. cbn. by rewrite Hd.
    + exists (calls st). split; [cbn; lia|].
      replace (zlength (first :: rest)) with i by (unfold zlength in *; simpl; lia). done.
  - intros st (Hbus' & Hext' & rest & Hrest & Hin). split_and!; [done..|]. exists rest. split; [lia|done].
Qed.

Lemma EDIDRead_cases s :
  gEdidData s = None ->
  exists ok s', EDIDRead s = Done ok s' /\ same_bus s s' /\
    if ok : bool then
      exists first rest, blocks_in s' (first :: rest) /\ zlength rest = gExtensions s' /\
        nth 126 first 0 = gExtensions s' /\
        (1 < gExtensions s' -> exists l, rest !! 0%nat = Some l /\ nth 0 l 0 = EDID_BLOCK_MAP_EXT_TAG_VAL)
    else gEdidData s' = None.
Proof.
  intros Hnone. unfold EDIDRead, EDIDValid. unfold bind at 1, gets at 1. cbn [obind]. rewrite Hnone.
  destruct (ReadEDIDBlock_spec 0 s ltac:(lia)) as (r & m & Hrd & Hm & Hr). cbv iota. run Hrd. clear Hrd.
  destruct r as [first|]; cycle 1. { eexists false, _. split; [reflexivity|]. by split_and!. }
  destruct (Hr first eq_refl) as [-> Hsent]. pose proof Hsent as (Hlen & Hbytes & _).
  destruct (lookup_lt_is_Some_2 first 126) as [n Hn]; [lia|].
  pose proof (Forall_lookup_1 _ _ _ _ Hbytes Hn) as Hnb. unfold is_byte in Hnb.
  change (zlookup first EDID_EXTENSION_NUMBER_POS) with (first !! 126%nat). rewrite Hn. cbn [deref].
  unfold bind at 1. cbn [ret obind]. unfold bind at 1. cbn [modify obind]. unfold bind at 1, syscall. cbn [obind].
  destruct (malloc_ok _); cbn [negb]; cycle 1. { eexists false, _. split; [reflexivity|]. by split_and!. }
  unfold bind at 1. cbn [modify obind].
  set (s1 := set_field gEdidData _ _). assert (blocks_in s1 [first]) as Hb1.
  { split; [cbn; by rewrite app_nil_r|]. intros [|k] l; [|done]. intros [= <-]. exists (calls s).
    split; [cbn; lia|done]. }
  assert (same_bus s s1 /\ gExtensions s1 = n) as [Hbus1 Hext1] by done.
  pose proof (read_extensions s s1 first n Hb1 ltac:(lia) Hbus1 Hext1) as Hw. clearbody s1.
  destruct (wp_result _ _ Hw) as (r & s2 & Hfor & Hbus2 & Hext2 & Hres). run Hfor. clear Hw Hfor.
  destruct r as [[]|]; [by eexists false, _|]. destruct Hres as (rest & Hrest & Hin).
  assert (nth 126 first 0 = n) as Hnth by (by apply nth_lookup_Some).
  destruct (Z.ltb_spec 1 n) as [H1|H1]; cycle 1.
  { eexists true, _. split; [reflexivity|]. split; [done|]. exists first, rest. split_and!; [done|lia..|lia]. }
  destruct rest as [|l rest]; [unfold zlength in Hrest; simpl in Hrest; lia|].
  assert (length l = 128%nat) as Hl by (destruct Hin as [_ Hin]; by destruct (Hin 1%nat l eq_refl) as (? & ? & ? & _)).
  assert (data SIZEOFEDIDBLOCK s2 = Done (nth 0 l 0) s2) as Hdat.
  { change SIZEOFEDIDBLOCK with (Z.of_nat 128). destruct Hin as [Hd _].
    eapply data_lookup; [exact Hd|]. cbn [concat]. rewrite lookup_app_r by lia. rewrite Hlen.
    destruct l; [done|]. done. }
  run Hdat. destruct (Z.eqb_spec (nth 0 l 0) EDID_BLOCK_MAP_EXT_TAG_VAL) as [E|E]; cbn [negb].
  - eexists true, _. split; [reflexivity|]. split; [done|]. exists first, (l :: rest). split_and!; [done|lia..|].
    intros _. by exists l.
  - eexists false, _. split; [reflexivity|]. by split_and!.
Qed.

Lemma EDIDRead_sound s :
  gEdidData s = None ->
  exists ok s', EDIDRead s = Done ok s' /\
    if ok : bool then exists blocks, blocks_in s' blocks else gEdidData s' = None.
Proof.
  intros Hnone. destruct (EDIDRead_cases s Hnone) as ([] & s' & Hr & _ & Hok); eexists _, _; (split; [done|]).
  - destruct Hok as (first & rest & Hin & _). by exists (first :: rest).
  - done.
Qed.

(** C38: Reading the EDID ends, without a fault: either with every block the base block
    announces in memory, each sent by the display under its number and with a valid
    checksum, and a block map first when there are several extensions; or with no EDID. *)
Theorem EDIDRead_spec s :
  gEdidData s = None ->
  exists ok s', EDIDRead s = Done ok s' /\ same_bus s s' /\
    if ok : bool then
      exists first rest, blocks_in s' (first :: rest) /\ zlength rest = gExtensions s' /\
        nth 126 first 0 = gExtensions s' /\
        (1 < gExtensions s' -> exists l, rest !! 0%nat = Some l /\ nth 0 l 0 = EDID_BLOCK_MAP_EXT_TAG_VAL)
    else gEdidData s' = None.
Proof. apply EDIDRead_cases. Qed.
End reading.

(** ** Where the code does something else *)
Section findings.
Context `{Sink}.

(** An open that failed is counted: the next one succeeds without a device. *)
Theorem DDCOpen_after_failure s :
  ref_cnt s = 0 -> open_dev (calls s) < 0 ->
  exists s1 s2, DDCOpen s = Done false s1 /\ DDCOpen s1 = Done true s2 /\ ddc_fd s2 < 0.
Proof.
  intros Hr Ho. unfold DDCOpen at 1, bind, gets. cbn [obind]. rewrite Hr. cbn.
  eexists _, _. split.
  { f_equal. by apply Z.leb_gt. }
  unfold DDCOpen, bind, gets. cbn [obind]. cbn. by split.
Qed.

(** The word length of an LPCM format is never looked at: the code of a descriptor is
    masked but not shifted before it is compared. *)
Theorem sad_answer_word_length a b0 b1 b2 r : sad_answer a b0 b1 b2 = Some r -> r = 1.
Proof.
  unfold sad_answer. destruct (_ && _)%bool; [|done].
  destruct (Z.eqb_spec (Z.land b0 EDID_SAD_CODE_MASK) LPCM_FORMAT) as [E|]; [|by intros [= <-]].
  apply (f_equal (fun x => Z.testbit x 0)) in E. rewrite Z.land_spec in E. cbn in E.
  by rewrite andb_false_r in E.
Qed.

(** Formats are compared by their common bits: MPEG1 (3) is found where LPCM (1) is offered. *)
Theorem sad_answer_other_format b1 b2 :
  Z.testbit b1 0 = true -> sad_answer (mkAudioParameter 3 0 0 2) 0x09 b1 b2 = Some 1.
Proof.
  intros Hb. unfold sad_answer. cbn [formatCode channelNum sampleFreq].
  change (Z.land 0x09 EDID_SAD_CODE_MASK) with 8. change (Z.shiftl 1 0) with 1.
  replace (Z.land b1 1 =? 0) with false; [reflexivity|]. symmetry. apply Z.eqb_neq.
  intros E. apply (f_equal (fun x => Z.testbit x 0)) in E. rewrite Z.land_spec, Hb in E. done.
Qed.

(** The table has no row for 720p at 24 Hz: the formats after it have the row of the next. *)
Theorem aVideoParams_shifted :
  VIC <$> zlookup aVideoParams v1280x720p_24Hz = Some 61 /\
  VIC <$> zlookup aVideoParams v1280x720p_25Hz = Some 62 /\
  zlookup aVideoParams v1280x720p_30Hz = None.
Proof. done. Qed.

(** One byte left after the whole descriptors of the last extension: the loop takes it for
    a descriptor and reads beyond the memory. *)
Lemma dtd_loop_overread s fmt p l : forall n (x : Z) d i stop fuel,
  gEdidData s = Some l -> zlookup aVideoParams fmt = Some p ->
  bytes_at s i (d ++ [x]) -> stop = i + zlength d + 1 -> zlength l = stop -> 0 <= i ->
  length d = (18 * n)%nat -> (n < fuel)%nat -> existsb (dtd_matches p) (dtds n d) = false ->
  dtd_loop fuel i stop fmt s = Fault OutOfBounds.
Proof.
  induction n as [|n IH]; intros x d i stop fuel Hl Hp Hat -> Hs Hi Hd Hf He; (destruct fuel as [|fuel]; [lia|]).
  { destruct d; [|done]. cbn [app] in Hat. change (zlength []) with 0 in *.
    cbn [dtd_loop]. rewrite (proj2 (Z.ltb_lt _ _)) by lia. unfold bind at 1, data, bind, gets. cbn [obind].
    rewrite Hl. cbn [obind]. rewrite zlookup_None by lia. done. }
  rewrite <-(take_drop 18 d), <-app_assoc in Hat. apply bytes_at_app in Hat as [Hat Hrest].
  assert (length (take 18 d) = 18%nat) as Hlen by (rewrite length_take; lia).
  cbn [dtds] in He. rewrite (proj2 (Nat.leb_le _ _)) in He by lia. cbn [existsb] in He.
  apply orb_false_elim in He as [He0 He].
  rewrite (dtd_loop_step s fmt p (take 18 d)) by (done || unfold zlength; lia). rewrite He0.
  unfold zlength in Hrest, Hs |- *. rewrite Hlen in Hrest.
  apply (IH x (drop 18 d)); [done|done|done| |unfold zlength; lia|lia|rewrite length_drop; lia|lia|done].
  unfold zlength. rewrite length_drop. lia.
Qed.
End findings.

(** The extension whose detailed timings leave one byte, a checksum that is not read as
    such. *)
Theorem IsContainVideoDTD_overread `{Sink} s base flags bs d x fmt p n :
  has_read s base [Cea flags bs (d ++ [x])] -> length d = (18 * n)%nat ->
  zlookup aVideoParams fmt = Some p -> existsb (dtd_matches p) (dtds n d) = false ->
  IsContainVideoDTD 1 fmt s = Fault OutOfBounds.
Proof.
  intros Hr Hd Hp He. destruct (cea_blocks s base _ 0 _ _ _ Hr eq_refl) as (_ & _ & Hoff & _ & _ & Hat).
  destruct (ext_at s base _ 0 _ Hr eq_refl) as ((Hlen & _) & _ & Hav). unfold IsContainVideoDTD.
  change 1 with (Z.of_nat 0 + 1). run Hav. cbv iota. rewrite (proj2 (Z.eqb_neq _ _)) by lia.
  fold (ext_addr 0). run Hoff. rewrite Z.add_assoc. destruct Hr as (Hdat & _ & Hb & _).
  cbn [encode_ext] in Hlen. rewrite !length_app in Hlen. simpl length in Hlen.
  assert (ext_addr 0 = 128) as Ha by done. rewrite Ha in *.
  eapply dtd_loop_overread; [exact Hdat|exact Hp|exact Hat| | | |exact Hd|lia|exact He].
  - unfold SIZEOFEDIDBLOCK, zlength. lia.
  - unfold SIZEOFEDIDBLOCK, zlength. rewrite length_app, Hb. cbn [fmap list_fmap concat]. rewrite app_nil_r.
    cbn [encode_ext]. rewrite !length_app. simpl length. lia.
  - pose proof (zlength_nonneg (encode_blocks bs)). lia.
Qed.

(** ** A display *)
Definition example_blocks : list block := [
  Block 2 [0x90; 0x04];                                       (* 1080p60 native, 720p60 *)
  Block 1 [0x09; 0x07; 0x07];                                 (* LPCM, 2 channels, 32-48 kHz *)
  Block 4 [0x01; 0x00; 0x00];                                 (* speakers *)
  Block 3 [0x03; 0x0C; 0x00; 0x10; 0x00; 0x38; 0x1E]].        (* HDMI, address 1.0.0.0, 150 MHz *)
Definition with_checksum (l : bytes) : bytes := l ++ [(256 - foldr Z.add 0 l mod 256) mod 256].
Definition example_base : bytes := with_checksum (replicate 126 0 ++ [1]).
Definition example_ext : extension :=
  Cea 0x70 example_blocks (drop 23 (with_checksum (take 127 (encode_ext (Cea 0x70 example_blocks (replicate 110 0)))))).

#[export] Instance example_sink : Sink := {|
  open_dev := fun _ => 3;
  close_dev := fun _ => true;
  i2c_read := fun _ seg off =>
    if (seg =? 0) && (off =? 0) then Some example_base
    else if (seg =? 0) && (off =? 128) then Some (encode_ext example_ext) else None;
  malloc_ok := fun _ => true
|}.
#[export] Instance example_sink_laws : SinkLaws.
Proof.
  constructor. intros n seg off l. cbn. intros Hl.
  assert (l = example_base \/ l = encode_ext example_ext) as [-> | ->]
    by (repeat case_match; simplify_eq; auto);
    (split; [reflexivity|]; apply (bool_decide_unpack (Forall (fun b => 0 <= b < 256) _)); vm_compute; exact I).
Qed.
Definition edid_init : EdidSt := mkEdidSt (-1) 0 None 0 (replicate 16 0) 0.
Definition edid_opened : EdidSt := mkEdidSt 3 1 None 0 (replicate 16 0) 1.
Definition edid_read : EdidSt :=
  mkEdidSt 3 1 (Some (example_base ++ encode_ext example_ext)) 1 (replicate 16 0) 4.

Lemma example_has_read : has_read edid_read example_base [example_ext].
Proof.
  split_and!; [vm_compute; reflexivity|reflexivity|reflexivity|].
  apply Forall_singleton. split; [reflexivity|]. unfold example_ext. repeat constructor; cbn; try done; lia.
Qed.

Lemma EDIDRead_spec_witness :
  exists ok s', EDIDRead edid_opened = Done ok s' /\ same_bus edid_opened s' /\ ok = true.
Proof.
  destruct (EDIDRead_spec edid_opened eq_refl) as (ok & s' & Hr & Hb & _).
  exists ok, s'. split; [done|]. split; [done|]. vm_compute in Hr. by injection Hr.
Defined.
Lemma EDIDGetCECPhysicalAddress_spec_witness :
  EDIDGetCECPhysicalAddress edid_read = Done (Some 0x1000) edid_read.
Proof. rewrite (EDIDGetCECPhysicalAddress_spec edid_read _ _ example_has_read). vm_compute. reflexivity. Defined.
Lemma CheckColorDepth_spec_witness :
  CheckColorDepth HDMI_CD_36 HDMI_CS_RGB edid_read = Done true edid_read.
Proof. rewrite (CheckColorDepth_spec edid_read _ _ HDMI_CD_36 HDMI_CS_RGB example_has_read). vm_compute. reflexivity. Defined.
Lemma EDIDAudioModeSupport_spec_witness :
  EDIDAudioModeSupport (mkAudioParameter 1 0 2 2) edid_read = Done 1 edid_read.
Proof. rewrite (EDIDAudioModeSupport_spec edid_read _ _ _ example_has_read). vm_compute. reflexivity. Defined.
Definition example_video (fmt : Z) (depth : ColorDepth) (format3d : Z) : HDMIVideoParameter :=
  mkVideoParameter HDMI fmt HDMI_CS_RGB depth HDMI_COLORIMETRY_NO_DATA HDMI_PIXEL_RATIO_16_9 format3d.

(** A vendor block whose length of 3D data is odd by one: the inner loop sets the index of
    the extension back to 0, and the search starts again for ever. *)
Definition loop_blocks : list block :=
  [Block 3 [0x03; 0x0C; 0x00; 0x10; 0x00; 0x38; 0x1E; 0x20; 0x00; 0x01]].
Definition loop_ext : extension := Cea 0x70 loop_blocks (replicate 113 0).
Definition loop_display : EdidSt :=
  mkEdidSt 3 1 (Some (example_base ++ encode_ext loop_ext)) 1 (replicate 16 0) 4.
(** The question about a 3D format of this display does not return, however long it
    runs. *)
Theorem EDID3DFormatSupport_diverges fuel :
  EDID3DFormatSupport fuel (example_video 2 HDMI_CD_24 HDMI_3D_TB_FORMAT) loop_display = Fault Diverges.
Proof.
  assert (timing_vsdb 1 loop_display = Done (Some 132) loop_display) as Ht by (vm_compute; reflexivity).
  assert (block_3d (example_video 2 HDMI_CD_24 HDMI_3D_TB_FORMAT) 4 132 1 loop_display
          = Done (Continues 0) loop_display) as Hb by (vm_compute; reflexivity).
  assert (params_of 2 loop_display = Done (mkParams 1650 370 750 30 4 4 0 7425) loop_display) as Hp by reflexivity.
  assert (SaveVIC loop_display = Done tt loop_display) as Hs by (vm_compute; reflexivity).
  assert (EDIDRead loop_display = Done true loop_display) as Hr by reflexivity.
  unfold EDID3DFormatSupport. cbn [resolution example_video]. run Hp.
  cbn [hdmi_3d_format pixelAspectRatio vic_of VIC16_9 example_video]. change (_ =? HDMI_2D_VIDEO_FORMAT) with false.
  cbv iota. run Hr. cbn [negb]. run Hs. clear Hp Hs Hr.
  induction fuel as [|fuel IH]; [done|]. cbn [loop_3d]. unfold bind at 1, gets. cbn [obind].
  change (1 <=? gExtensions loop_display) with true. cbv iota. run Ht. run Hb. exact IH.
Qed.
