(* ===== verification/EdidTotal.v ===== *)
(** * The questions of the EDID library return

    Whatever bytes the display sends, the queries of [Edid] other than the one about 3D
    formats leave their loops: each data block is at least one byte long, each descriptor
    18 bytes, and the area they lie in is described by one byte.  A query may still leave
    the EDID memory ([OutOfBounds]), which [EdidSpec] excludes on a well-formed EDID. *)
From S2P Require Import Prelude Machine Bytes Edid EdidSpec.

Create HintDb edid_ret.

Definition bytes_ok (s : EdidSt) : Prop :=
  forall l, gEdidData s = Some l -> Forall is_byte l.

(** [m] returns, with a value that satisfies [Q], or faults in bounded time; the memory
    holds bytes before and after. *)
Definition returns {A} (m : M EdidSt A) (Q : A -> Prop) : Prop :=
  forall s, bytes_ok s ->
  match m s with
  | Done a s' => bytes_ok s' /\ Q a
  | Fault e => e <> Diverges
  | Blocked _ _ _ => False
  end.
Abbreviation returns_any m := (returns m (fun _ => True)).

Lemma edid_returns_bind {A B} (m : M EdidSt A) (f : A -> M EdidSt B) Q R :
  returns m Q -> (forall a, Q a -> returns (f a) R) -> returns (bind m f) R.
Proof.
  intros Hm Hf s Hs. specialize (Hm s Hs). unfold bind. destruct (m s) as [a s'|e|]; cbn; [|done|done].
  destruct Hm as [Hs' Ha]. exact (Hf a Ha s' Hs').
Qed.
Lemma returns_weaken {A} (m : M EdidSt A) (Q : A -> Prop) : returns m Q -> returns_any m.
Proof. intros Hm s Hs. specialize (Hm s Hs). destruct (m s); naive_solver. Qed.
Lemma edid_returns_bind' {A B} (m : M EdidSt A) (f : A -> M EdidSt B) R :
  returns_any m -> (forall a, returns (f a) R) -> returns (bind m f) R.
Proof. intros Hm Hf. eapply edid_returns_bind; [exact Hm|auto]. Qed.
Lemma edid_returns_ret {A} (a : A) (Q : A -> Prop) : Q a -> returns (ret a) Q.
Proof. intros Ha s Hs. by split. Qed.
Lemma edid_returns_ret' {A} (a : A) : returns_any (ret a).
Proof. by apply edid_returns_ret. Qed.
Lemma edid_returns_gets {A} (f : EdidSt -> A) : returns_any (gets f).
Proof. intros s Hs. by split. Qed.
Lemma returns_deref {A} e (o : option A) : e <> Diverges -> returns_any (deref e o).
Proof. intros He s Hs. destruct o; by cbn. Qed.
Lemma returns_for {R} n (body : Z -> M EdidSt (option R)) : forall lo,
  (forall i, returns_any (body i)) -> returns_any (for_exit lo n body).
Proof.
  induction n as [|n IH]; intros lo Hb; [apply edid_returns_ret'|]. rewrite for_exit_S.
  apply edid_returns_bind'; [done|]. intros [r|]; [apply edid_returns_ret'|by apply IH].
Qed.
Lemma returns_fold {A} n (body : Z -> A -> M EdidSt A) : forall lo a,
  (forall i a, returns_any (body i a)) -> returns_any (for_fold lo n a body).
Proof.
  induction n as [|n IH]; intros lo a Hb; [apply edid_returns_ret'|]. rewrite for_fold_S.
  apply edid_returns_bind'; [done|]. intros a'. by apply IH.
Qed.
#[export] Hint Resolve edid_returns_ret' edid_returns_gets returns_for returns_fold : edid_ret.

(** Follow the structure of the code down to the calls. *)
Ltac ret_step :=
  match goal with
  | |- returns_any (bind _ _) => apply edid_returns_bind'; [|intros ?]
  | |- returns_any (if ?b then _ else _) => destruct b
  | |- returns_any (match ?x with _ => _ end) => destruct x
  | |- returns_any (for_exit _ _ _) => apply returns_for; intros ?
  | |- returns_any (for_fold _ _ _ _) => apply returns_fold; intros ? ?
  | |- returns_any (deref _ _) => by apply returns_deref
  | |- returns_any _ => solve [auto with edid_ret]
  end.
Ltac ret_solve := repeat ret_step.

Section total.
Context `{SinkLaws}.

Lemma returns_data i : returns (data i) is_byte.
Proof.
  intros s Hs. unfold data, bind, gets. cbn. destruct (gEdidData s) as [l|] eqn:E; [|done].
  destruct (zlookup l i) as [b|] eqn:Hb; [|done]. cbn. split; [done|].
  unfold zlookup in Hb. destruct (0 <=? i); [|done].
  exact (Forall_lookup_1 _ _ _ _ (Hs l E) Hb).
Qed.
Lemma returns_data' i : returns_any (data i).
Proof. eapply returns_weaken, returns_data. Qed.
#[local] Hint Resolve returns_data' : edid_ret.

Lemma returns_EDIDRead : returns_any EDIDRead.
Proof.
  intros s Hs. destruct (gEdidData s) as [l|] eqn:E.
  { unfold EDIDRead, EDIDValid, bind, gets. cbn. rewrite E. cbn. by split. }
  destruct (EDIDRead_sound s E) as (ok & s' & -> & Hok). split; [|done].
  intros l Hl. destruct ok; [|congruence]. destruct Hok as (blocks & Hd & Hb).
  rewrite Hd in Hl. injection Hl as <-. apply Forall_concat, Forall_lookup. intros k x Hk.
  by destruct (Hb k x Hk) as (n & _ & _ & ? & _).
Qed.
#[local] Hint Resolve returns_EDIDRead : edid_ret.

Lemma returns_unavailable e : returns_any (unavailable e).
Proof. unfold unavailable, EDIDValid. ret_solve. Qed.
#[local] Hint Resolve returns_unavailable : edid_ret.

(** ** The loops *)
Lemma block_len_pos b : 0 < Z.land b EDID_DATA_BLOCK_SIZE_MASK + 1 <= 32.
Proof.
  change EDID_DATA_BLOCK_SIZE_MASK with (Z.ones 5). rewrite Z.land_ones by lia.
  pose proof (Z.mod_pos_bound b (2 ^ 5) ltac:(lia)). lia.
Qed.

Lemma returns_walk {R} (body : Z -> Z -> Z -> M EdidSt (option R)) stop :
  (forall a t l, l <= 32 -> returns_any (body a t l)) ->
  forall fuel a, stop - a < Z.of_nat fuel -> 0 < Z.of_nat fuel -> returns_any (walk fuel a stop body).
Proof.
  intros Hb. induction fuel as [|fuel IH]; intros a Hf Hp; [lia|]. cbn [walk].
  destruct (Z.ltb_spec a stop); [|apply edid_returns_ret']. apply edid_returns_bind'; [apply returns_data'|intros b].
  pose proof (block_len_pos b). apply edid_returns_bind'; [apply Hb; lia|intros [r|]; [apply edid_returns_ret'|]].
  apply IH; lia.
Qed.
Lemma returns_data_blocks {R} (body : Z -> Z -> Z -> M EdidSt (option R)) e :
  (forall a t l, l <= 32 -> returns_any (body a t l)) -> returns_any (data_blocks e body).
Proof.
  intros Hb. eapply edid_returns_bind; [apply returns_data|]. unfold is_byte. intros d Hd.
  apply returns_walk; [done| |lia]. unfold EDID_DATA_BLOCK_START_POS. lia.
Qed.
Lemma returns_dtd_loop fmt stop : forall fuel i,
  stop - i <= 18 * (Z.of_nat fuel - 1) -> 0 < Z.of_nat fuel -> returns_any (dtd_loop fuel i stop fmt).
Proof.
  induction fuel as [|fuel IH]; intros i Hf Hp; [lia|]. cbn [dtd_loop].
  destruct (Z.ltb_spec i stop); [|apply edid_returns_ret'].
  assert (returns_any (dtd_loop fuel (i + EDID_DTD_BYTE_LENGTH) stop fmt)) by (apply IH; unfold EDID_DTD_BYTE_LENGTH; lia).
  unfold read_timing, params_of. ret_solve.
Qed.
Lemma returns_sad_loop p a blockLen : forall fuel j,
  blockLen - j <= 3 * (Z.of_nat fuel - 1) -> 0 < Z.of_nat fuel -> returns_any (sad_loop fuel p a j blockLen).
Proof.
  induction fuel as [|fuel IH]; intros j Hf Hp; [lia|]. cbn [sad_loop].
  destruct (Z.ltb_spec j blockLen); [|apply edid_returns_ret'].
  assert (returns_any (sad_loop fuel p a (j + 3) blockLen)) by (apply IH; lia). ret_solve.
Qed.
Lemma returns_save_code n c : returns_any (save_code n c).
Proof.
  unfold save_code. ret_solve. intros s Hs. by split.
Qed.
#[local] Hint Resolve returns_save_code : edid_ret.
Lemma returns_save_blocks stop : forall fuel a n,
  stop - a < Z.of_nat fuel -> 0 < Z.of_nat fuel -> returns_any (save_blocks fuel a stop n).
Proof.
  induction fuel as [|fuel IH]; intros a n Hf Hp; [lia|]. cbn [save_blocks].
  destruct (Z.ltb_spec a stop); [|apply edid_returns_ret']. apply edid_returns_bind'; [apply returns_data'|intros b].
  apply edid_returns_bind'; [|intros n'; pose proof (block_len_pos b); apply IH; lia].
  unfold save_block. ret_solve.
Qed.

(** ** The functions *)
Lemma returns_GetVSDBOffset e : returns_any (GetVSDBOffset e).
Proof.
  unfold GetVSDBOffset. ret_step; [ret_solve|]. ret_step; [ret_solve|]. ret_step; [|ret_solve].
  apply returns_data_blocks. intros. unfold is_vsdb, data_is. ret_solve.
Qed.
#[local] Hint Resolve returns_GetVSDBOffset : edid_ret.
Lemma returns_for_extensions {R} (body : Z -> M EdidSt (option R)) :
  (forall i, returns_any (body i)) -> returns_any (for_extensions body).
Proof. intros Hb. unfold for_extensions. ret_step; [ret_solve|]. by apply returns_for. Qed.
Lemma returns_CheckHDMIMode : returns_any CheckHDMIMode.
Proof.
  unfold CheckHDMIMode. ret_step; [ret_solve|]. ret_step; [ret_solve|]. ret_step; [|ret_solve].
  apply returns_for_extensions. intros. ret_solve.
Qed.
#[local] Hint Resolve returns_CheckHDMIMode : edid_ret.
Lemma returns_IsTimingExtension e : returns_any (IsTimingExtension e).
Proof. unfold IsTimingExtension. ret_solve. Qed.
#[local] Hint Resolve returns_IsTimingExtension : edid_ret.
Lemma returns_IsContainVIC e vic : returns_any (IsContainVIC e vic).
Proof.
  unfold IsContainVIC. eapply edid_returns_bind; [apply returns_data|]. unfold is_byte. intros d Hd.
  ret_step; [ret_solve|]. ret_step; [ret_solve|]. ret_step; [|ret_solve].
  apply returns_walk; [|unfold EDID_DATA_BLOCK_START_POS; lia|lia]. intros. unfold svd_contains. ret_solve.
Qed.
Lemma returns_IsContainVideoDTD e fmt : returns_any (IsContainVideoDTD e fmt).
Proof.
  unfold IsContainVideoDTD. ret_step; [ret_solve|]. ret_step; [ret_solve|]. ret_step.
  - apply returns_dtd_loop; [|lia]. unfold EDID_DTD_TOTAL_LENGTH. lia.
  - eapply edid_returns_bind; [apply returns_data|]. unfold is_byte. intros d Hd.
    apply returns_dtd_loop; [|lia]. unfold SIZEOFEDIDBLOCK. lia.
Qed.
#[local] Hint Resolve returns_IsContainVIC returns_IsContainVideoDTD : edid_ret.

Lemma returns_CheckResolution fmt ratio : returns_any (CheckResolution fmt ratio).
Proof.
  unfold CheckResolution, params_of. repeat first [ret_step | apply returns_for_extensions; intros ?].
Qed.
#[local] Hint Resolve returns_CheckResolution : edid_ret.
Lemma returns_timing_vsdb i : returns_any (timing_vsdb i).
Proof. unfold timing_vsdb. ret_solve. Qed.
#[local] Hint Resolve returns_timing_vsdb : edid_ret.
Lemma returns_block_length a : returns_any (block_length a).
Proof. unfold block_length. ret_solve. Qed.
#[local] Hint Resolve returns_block_length : edid_ret.

Ltac query := repeat first [ret_step | apply returns_for_extensions; intros ?].

(** C40: Whatever the display sends, no question other than the one about 3D formats loops
    for ever: the fuel of every loop is enough, for every extension number and parameter. *)
Theorem EDID_queries_return (v : HDMIVideoParameter) (a : HDMIAudioParameter) :
  returns_any (CheckResolution (resolution v) (pixelAspectRatio v)) /\
  returns_any (EDIDHDMIModeSupport v) /\ returns_any (EDIDColorDepthSupport v) /\
  returns_any (EDIDColorSpaceSupport v) /\ returns_any (EDIDColorimetrySupport v) /\
  returns_any (EDIDAudioModeSupport a) /\ returns_any EDIDGetCECPhysicalAddress /\
  returns_any GetMaxTMDS /\ returns_any SaveVIC.
Proof.
  split_and!.
  - auto with edid_ret.
  - unfold EDIDHDMIModeSupport. query.
  - unfold EDIDColorDepthSupport, CheckColorDepth. query.
  - unfold EDIDColorSpaceSupport, CheckColorSpace. query.
  - unfold EDIDColorimetrySupport, CheckColorimetry. query;
      (apply returns_data_blocks; intros; unfold colorimetry_block; query).
  - unfold EDIDAudioModeSupport. query. apply returns_data_blocks. intros. query. apply returns_sad_loop; lia.
  - unfold EDIDGetCECPhysicalAddress. query.
  - unfold GetMaxTMDS. query.
  - unfold SaveVIC. ret_step; [ret_solve|]. ret_step; [|ret_solve]. ret_step. ret_step; [|ret_solve].
    eapply edid_returns_bind; [apply returns_data|]. unfold is_byte. intros d Hd.
    apply returns_save_blocks; [unfold EDID_DATA_BLOCK_START_POS; lia|lia].
Qed.
End total.

Lemma EDID_queries_return_witness :
  match EDIDAudioModeSupport (mkAudioParameter 1 0 2 2) edid_opened with
  | Done r _ => r = 1
  | _ => False
  end /\ returns_any (EDIDAudioModeSupport (mkAudioParameter 1 0 2 2)).
Proof.
  split; [vm_compute; reflexivity|].
  apply (EDID_queries_return (example_video 2 HDMI_CD_24 HDMI_2D_VIDEO_FORMAT) (mkAudioParameter 1 0 2 2)).
Defined.
