(* ===== verification/AudioTypes.v ===== *)
(** * Data of the audio HAL

    Models the data of [src/audio]: the sound devices, the use cases and streams of
    [audio_hw.h], the voice session of [voice.h] and the tables of [audio_hw.c].  The
    constants of Android's [system/audio.h] and the behaviour of the sound libraries
    (tinyalsa, tinycompress, audio_route, the amplifier and the radio client) are the
    interfaces [AudioApi] and [AudioHw].  What the HAL tells the hardware is recorded as a
    list of calls, [hw]. *)
From S2P Require Import Prelude Machine.

(** ** The platform *)

(** The constants of [system/audio.h] the code uses; device constants are bit masks. *)
Class AudioApi := {
  AUDIO_DEVICE_OUT_EARPIECE : Z;
  AUDIO_DEVICE_OUT_SPEAKER : Z;
  AUDIO_DEVICE_OUT_WIRED_HEADSET : Z;
  AUDIO_DEVICE_OUT_WIRED_HEADPHONE : Z;
  AUDIO_DEVICE_OUT_BLUETOOTH_SCO : Z;
  AUDIO_DEVICE_OUT_BLUETOOTH_SCO_HEADSET : Z;
  AUDIO_DEVICE_OUT_BLUETOOTH_SCO_CARKIT : Z;
  AUDIO_DEVICE_OUT_ALL_SCO : Z;
  AUDIO_DEVICE_BIT_IN : Z;
  AUDIO_DEVICE_IN_COMMUNICATION : Z;
  AUDIO_DEVICE_IN_BUILTIN_MIC : Z;
  AUDIO_DEVICE_IN_BLUETOOTH_SCO_HEADSET : Z;
  AUDIO_DEVICE_IN_WIRED_HEADSET : Z;
  AUDIO_DEVICE_IN_AUX_DIGITAL : Z;
  AUDIO_DEVICE_IN_VOICE_CALL : Z;
  AUDIO_DEVICE_IN_BACK_MIC : Z;
  AUDIO_OUTPUT_FLAG_PRIMARY : Z;
  AUDIO_OUTPUT_FLAG_DEEP_BUFFER : Z;
  AUDIO_OUTPUT_FLAG_COMPRESS_OFFLOAD : Z;
  AUDIO_OUTPUT_FLAG_NON_BLOCKING : Z;
  AUDIO_INPUT_FLAG_FAST : Z;
  AUDIO_SOURCE_DEFAULT : Z;
  AUDIO_SOURCE_MIC : Z;
  AUDIO_SOURCE_CAMCORDER : Z;
  AUDIO_SOURCE_VOICE_RECOGNITION : Z;
  AUDIO_SOURCE_VOICE_COMMUNICATION : Z;
  AUDIO_MODE_NORMAL : Z;
  AUDIO_MODE_IN_CALL : Z;
  AUDIO_MODE_IN_COMMUNICATION : Z;
  AUDIO_FORMAT_PCM_16_BIT : Z;
  AUDIO_FORMAT_MP3 : Z;
  AUDIO_FORMAT_AAC : Z;
  AUDIO_FORMAT_MAIN_MASK : Z;
  AUDIO_CHANNEL_IN_FRONT : Z;
  AUDIO_CHANNEL_IN_BACK : Z;
  AUDIO_CHANNEL_IN_STEREO : Z;
  AUDIO_CHANNEL_IN_RIGHT : Z;
  audio_channel_count_from_in_mask : Z -> Z;
  audio_bytes_per_sample : Z -> Z
}.
Definition AUDIO_DEVICE_NONE : Z := 0.

Definition ENOENT : Z := 2.
Definition EIO : Z := 5.
Definition ENOMEM : Z := 12.
Definition EEXIST : Z := 17.
Definition ENODEV : Z := 19.
Definition EINVAL : Z := 22.
Definition ENOSYS : Z := 38.

(** [devices & m] *)
Definition has (devices m : Z) : bool := negb (Z.land devices m =? 0).
(** [devices & ~m] on 32 bits *)
Definition without (devices m : Z) : Z := Z.land devices (u32 (Z.lnot m)).
(** [__builtin_popcount] *)
Definition popcount (x : Z) : Z :=
  zlength (filter (fun i => Z.testbit x i = true) (seqZ 0 32)).

(** ** Sound devices *)
Definition SND_DEVICE_NONE : Z := 0.
Definition SND_DEVICE_OUT_EARPIECE : Z := 1.
Definition SND_DEVICE_OUT_SPEAKER : Z := 2.
Definition SND_DEVICE_OUT_HEADPHONES : Z := 3.
Definition SND_DEVICE_OUT_SPEAKER_AND_HEADPHONES : Z := 4.
Definition SND_DEVICE_OUT_VOICE_EARPIECE : Z := 5.
Definition SND_DEVICE_OUT_VOICE_EARPIECE_WB : Z := 6.
Definition SND_DEVICE_OUT_VOICE_SPEAKER : Z := 7.
Definition SND_DEVICE_OUT_VOICE_SPEAKER_WB : Z := 8.
Definition SND_DEVICE_OUT_VOICE_HEADPHONES : Z := 9.
Definition SND_DEVICE_OUT_VOICE_HEADPHONES_WB : Z := 10.
Definition SND_DEVICE_OUT_VOICE_BT_SCO : Z := 11.
Definition SND_DEVICE_OUT_VOICE_BT_SCO_WB : Z := 12.
Definition SND_DEVICE_OUT_HDMI : Z := 13.
Definition SND_DEVICE_OUT_SPEAKER_AND_HDMI : Z := 14.
Definition SND_DEVICE_OUT_BT_SCO : Z := 15.
Definition SND_DEVICE_MIN : Z := SND_DEVICE_OUT_EARPIECE.
Definition SND_DEVICE_OUT_BEGIN : Z := SND_DEVICE_MIN.
Definition SND_DEVICE_OUT_END : Z := 16.
Definition SND_DEVICE_IN_BEGIN : Z := SND_DEVICE_OUT_END.
Definition SND_DEVICE_IN_EARPIECE_MIC : Z := 16.
Definition SND_DEVICE_IN_SPEAKER_MIC : Z := 17.
Definition SND_DEVICE_IN_HEADSET_MIC : Z := 18.
Definition SND_DEVICE_IN_EARPIECE_MIC_AEC : Z := 19.
Definition SND_DEVICE_IN_SPEAKER_MIC_AEC : Z := 20.
Definition SND_DEVICE_IN_HEADSET_MIC_AEC : Z := 21.
Definition SND_DEVICE_IN_VOICE_MIC : Z := 22.
Definition SND_DEVICE_IN_VOICE_EARPIECE_MIC : Z := 23.
Definition SND_DEVICE_IN_VOICE_EARPIECE_MIC_WB : Z := 24.
Definition SND_DEVICE_IN_VOICE_SPEAKER_MIC : Z := 25.
Definition SND_DEVICE_IN_VOICE_SPEAKER_MIC_WB : Z := 26.
Definition SND_DEVICE_IN_VOICE_HEADSET_MIC : Z := 27.
Definition SND_DEVICE_IN_VOICE_HEADSET_MIC_WB : Z := 28.
Definition SND_DEVICE_IN_VOICE_BT_SCO_MIC : Z := 29.
Definition SND_DEVICE_IN_VOICE_BT_SCO_MIC_WB : Z := 30.
Definition SND_DEVICE_IN_HDMI_MIC : Z := 31.
Definition SND_DEVICE_IN_BT_SCO_MIC : Z := 32.
Definition SND_DEVICE_IN_CAMCORDER_MIC : Z := 33.
Definition SND_DEVICE_IN_VOICE_REC_HEADSET_MIC : Z := 34.
Definition SND_DEVICE_IN_VOICE_REC_MIC : Z := 35.
Definition SND_DEVICE_MAX : Z := 36.

Definition device_table : list string := [
  "none"; "earpiece"; "speaker"; "headphones"; "speaker-and-headphones"; "voice-earpiece";
  "voice-earpiece-wb"; "voice-speaker"; "voice-speaker-wb"; "voice-headphones";
  "voice-headphones-wb"; "voice-bt-sco-headset"; "voice-bt-sco-headset-wb"; "hdmi";
  "speaker-and-hdmi"; "bt-sco-headset"; "earpiece-mic"; "speaker-mic"; "headset-mic";
  "earpiece-mic"; "voice-speaker-mic"; "headset-mic"; "voice-mic"; "voice-earpiece-mic";
  "voice-earpiece-mic-wb"; "voice-speaker-mic"; "voice-speaker-mic-wb"; "voice-headset-mic";
  "voice-headset-mic-wb"; "voice-bt-sco-mic"; "voice-bt-sco-mic-wb"; "hdmi-mic"; "bt-sco-mic";
  "camcorder-mic"; "voice-rec-headset-mic"; "voice-rec-mic"]%string.

(** [get_snd_device_name]: NULL outside of the table. *)
Definition get_snd_device_name (d : Z) : option string :=
  if ((d =? SND_DEVICE_NONE) || ((SND_DEVICE_MIN <=? d) && (d <? SND_DEVICE_MAX)))%bool
  then zlookup device_table d else None.

(** ** Use cases *)
Definition USECASE_AUDIO_PLAYBACK : Z := 0.
Definition USECASE_AUDIO_PLAYBACK_MULTI_CH : Z := 1.
Definition USECASE_AUDIO_PLAYBACK_OFFLOAD : Z := 2.
Definition USECASE_AUDIO_PLAYBACK_DEEP_BUFFER : Z := 3.
Definition USECASE_AUDIO_CAPTURE : Z := 4.
Definition USECASE_VOICE_CALL : Z := 5.
Definition AUDIO_USECASE_MAX : Z := 6.

(** [usecase_type_t]: bits, so that several types can be asked for at once. *)
Definition PCM_PLAYBACK : Z := 0x1.
Definition PCM_CAPTURE : Z := 0x2.
Definition VOICE_CALL : Z := 0x4.
Definition PCM_CAPTURE_LOW_LATENCY : Z := 0x10.

Inductive offload_state_t :=
| OFFLOAD_STATE_IDLE
| OFFLOAD_STATE_PLAYING
| OFFLOAD_STATE_PAUSED
| OFFLOAD_STATE_PAUSED_FLUSHED.
#[export] Instance offload_state_eq_dec : EqDecision offload_state_t.
Proof. solve_decision. Defined.

Inductive offload_cmd :=
| OFFLOAD_CMD_EXIT
| OFFLOAD_CMD_DRAIN
| OFFLOAD_CMD_PARTIAL_DRAIN
| OFFLOAD_CMD_WAIT_FOR_BUFFER.
#[export] Instance offload_cmd_eq_dec : EqDecision offload_cmd.
Proof. solve_decision. Defined.

(** ** Streams *)

(** The fields of [struct pcm_config] the HAL looks at. *)
Record pcm_config := mkConfig { channels : Z; rate : Z; period_size : Z; period_count : Z }.
Record pcm_device_profile := mkProfile {
  pp_config : pcm_config;
  pp_card : Z;
  pp_id : Z;
  pp_type : Z;
  pp_devices : Z
}.
(** A PCM of a stream: the index of its profile, the open handle or NULL, the last status. *)
Record pcm_device := mkPcm { pd_profile : pcm_device_profile; pd_pcm : option nat; pd_status : Z }.

(** A stream is known by its address. *)
Inductive stream_ref := OutStream (k : nat) | InStream (k : nat).
#[export] Instance stream_ref_eq_dec : EqDecision stream_ref.
Proof. solve_decision. Defined.

Record stream_out := mkOut {
  out_lock : bool;                      (* the mutex is locked *)
  out_config : pcm_config;
  out_pcm_dev_list : list pcm_device;
  out_compr : option nat;
  out_standby : bool;
  out_sample_rate : Z;
  out_devices : Z;
  out_flags : Z;
  out_usecase : Z;
  out_muted : bool;
  out_written : Z;
  out_non_blocking : bool;
  out_offload_state : offload_state_t;
  out_cmd_list : list offload_cmd;
  out_thread_blocked : bool;
  out_callback : bool;                  (* a callback is installed *)
  out_gapless : Z * Z;                  (* encoder delay and padding *)
  out_send_new_metadata : bool;
  out_echo : option nat;
  out_echo_generation : Z;
  out_thread : bool                     (* the offload thread runs *)
}.
#[export] Instance stream_out_eta : RecEta stream_out := fun o =>
  mkOut (out_lock o) (out_config o) (out_pcm_dev_list o) (out_compr o) (out_standby o) (out_sample_rate o)
    (out_devices o) (out_flags o) (out_usecase o) (out_muted o) (out_written o) (out_non_blocking o)
    (out_offload_state o) (out_cmd_list o) (out_thread_blocked o) (out_callback o) (out_gapless o)
    (out_send_new_metadata o) (out_echo o) (out_echo_generation o) (out_thread o).

(** An effect on a recording: its handle, and the main and auxiliary channels it supports. *)
Record effect_info := mkEffect { fx_handle : nat; fx_channel_configs : list (Z * Z) }.

Record stream_in := mkIn {
  in_lock : bool;
  in_config : pcm_config;
  in_pcm_dev_list : list pcm_device;
  in_standby : bool;
  in_source : Z;
  in_devices : Z;
  in_usecase : Z;
  in_usecase_type : Z;
  in_enable_aec : bool;
  in_requested_rate : Z;
  in_resampler : option nat;
  in_read_buf : bool;                   (* allocated *)
  in_echo : option nat;
  in_aux_channels_changed : bool;
  in_main_channels : Z;
  in_aux_channels : Z;
  in_preprocessors : list effect_info    (* the first [num_preprocessors] *)
}.
#[export] Instance stream_in_eta : RecEta stream_in := fun i =>
  mkIn (in_lock i) (in_config i) (in_pcm_dev_list i) (in_standby i) (in_source i) (in_devices i) (in_usecase i)
    (in_usecase_type i) (in_enable_aec i) (in_requested_rate i) (in_resampler i) (in_read_buf i) (in_echo i)
    (in_aux_channels_changed i) (in_main_channels i) (in_aux_channels i) (in_preprocessors i).

(** [uc_ptr] is the address of the use case, [uc_mixer_list] the cards of its mixers. *)
Record audio_usecase := mkUsecase {
  uc_ptr : nat;
  uc_id : Z;
  uc_type : Z;
  uc_devices : Z;
  uc_out : Z;                           (* [out_snd_device] *)
  uc_in : Z;                            (* [in_snd_device] *)
  uc_stream : stream_ref;
  uc_mixer_list : list Z
}.
#[export] Instance audio_usecase_eta : RecEta audio_usecase := fun u =>
  mkUsecase (uc_ptr u) (uc_id u) (uc_type u) (uc_devices u) (uc_out u) (uc_in u) (uc_stream u) (uc_mixer_list u).

(** ** The voice session *)
Record voice_session := mkSession {
  pcm_voice_rx : option nat;
  pcm_voice_tx : option nat;
  wb_amr_type : Z;
  two_mic_control : bool;
  two_mic_disabled : bool;
  out_device : Z
}.
#[export] Instance voice_session_eta : RecEta voice_session := fun v =>
  mkSession (pcm_voice_rx v) (pcm_voice_tx v) (wb_amr_type v) (two_mic_control v) (two_mic_disabled v) (out_device v).

(** ** Calls of the hardware *)
Inductive AudioPath :=
| SOUND_AUDIO_PATH_EARPIECE
| SOUND_AUDIO_PATH_HEADSET
| SOUND_AUDIO_PATH_SPEAKER
| SOUND_AUDIO_PATH_BLUETOOTH
| SOUND_AUDIO_PATH_HEADPHONE.
Inductive SoundType :=
| SOUND_TYPE_VOICE
| SOUND_TYPE_SPEAKER
| SOUND_TYPE_HEADSET
| SOUND_TYPE_BTVOICE.

Inductive hw :=
| RouteApply (card : Z) (path : string)           (* [audio_route_apply_and_update_path] *)
| RouteReset (card : Z) (path : string)           (* [audio_route_reset_and_update_path] *)
| AmpEnableOutput (d : Z) (enable : bool)
| AmpEnableInput (d : Z) (enable : bool)
| AmpSetInput (d : Z)
| AmpSetOutput (d : Z)
| AmpSetMode (m : Z)
| AmpOutputStart (offload : bool)
| AmpOutputStandby
| AmpInputStart
| AmpInputStandby
| PcmOpen (card id : Z) (c : pcm_config)
| PcmClose (h : option nat)
| PcmStart (h : option nat)
| PcmStop (h : option nat)
| PcmWrite (h : nat) (bytes : Z)
| CompressOpen
| CompressClose (h : nat)
| CompressStop (h : nat)
| CompressStart (h : option nat)
| CompressPause (h : nat)
| CompressResume (h : nat)
| CompressWrite (h : option nat) (bytes : Z)
| CompressMetadata (h : option nat) (m : Z * Z)
| CompressNonblock (h : option nat) (b : bool)
| RilPath (p : AudioPath)
| RilVolume (t : SoundType)
| RilMute (b : bool)
| RilClockStop
| RilTwoMic (on : bool)
| EffectConfigure (fx : nat) (main aux : Z)
| EffectReverse (fx : nat)
| FxStart (k : nat)                                 (* [visualizer_hal_start_output] *)
| FxStop (k : nat)
| EchoWrite (h : nat)
| EchoRelease (h : nat)
| EchoWriteStop (h : nat)
| EchoReadStop (h : nat)
| ResamplerRelease (h : nat)
| ResamplerReset (h : nat).

(** ** The device *)
Record AudioSt := mkAudio {
  mode : Z;
  active_input : option nat;
  primary_output : option nat;
  mic_mute : bool;
  bt_sco_active : bool;
  pcm_sco_rx : option nat;
  pcm_sco_tx : option nat;
  in_call : bool;
  bluetooth_nrec : bool;
  bluetooth_wb : bool;
  screen_off : bool;
  session : voice_session;
  snd_dev_ref_cnt : list Z;
  usecase_list : list audio_usecase;
  mixer_list : list Z;                  (* cards *)
  echo_reference : option nat;
  echo_reference_generation : Z;
  offload_fx : bool;                    (* the effects library is loaded *)
  amp : bool;                           (* there is an amplifier *)
  playback_period : Z;                  (* period size of [pcm_device_playback] *)
  low_latency_period : Z;               (* of [pcm_device_capture_low_latency] *)
  adev_lock : bool;
  lock_inputs : bool;
  outs : gmap nat stream_out;           (* allocated streams *)
  ins : gmap nat stream_in;
  next_addr : nat;                      (* fresh addresses and handles *)
  sys_calls : nat;                      (* calls answered by the system so far *)
  hw_log : list hw
}.
#[export] Instance AudioSt_eta : RecEta AudioSt := fun s =>
  mkAudio (mode s) (active_input s) (primary_output s) (mic_mute s) (bt_sco_active s) (pcm_sco_rx s) (pcm_sco_tx s)
    (in_call s) (bluetooth_nrec s) (bluetooth_wb s) (screen_off s) (session s) (snd_dev_ref_cnt s) (usecase_list s)
    (mixer_list s) (echo_reference s) (echo_reference_generation s) (offload_fx s) (amp s)
    (playback_period s) (low_latency_period s) (adev_lock s)
    (lock_inputs s) (outs s) (ins s) (next_addr s) (sys_calls s) (hw_log s).

(** ** The system

    The answers of the [n]-th call: whether [calloc] gives memory, what [pcm_open] and
    [compress_open] return (NULL, a handle that is not ready, a ready handle), the status of
    the others. *)
Inductive open_answer := OpenNull | OpenNotReady | OpenReady.
Class AudioHw := {
  calloc_ok : nat -> bool;
  pcm_answer : nat -> open_answer;
  status : nat -> Z;
  resampler_status : nat -> Z;                    (* [create_resampler] *)
  mixer_ok : nat -> bool;                         (* [mixer_open] *)
  route_ok : nat -> bool;                         (* [audio_route_init] *)
  written_bytes : nat -> Z -> Z;                  (* [compress_write] *)
  fx_is_aec : nat -> bool;                        (* the effect cancels echo *)
  fx_has_reverse : nat -> bool;                   (* its [process_reverse] is not NULL *)
  fx_supported : nat -> Z * Z * list (Z * Z)      (* status, and status and configurations replied *)
}.

Abbreviation A := (M AudioSt).
Section system.
Context `{HW : AudioHw}.
Definition syscall {B} (f : nat -> B) : A B :=
  fun s => Done (f (sys_calls s)) s<|sys_calls ::= S|>.
(** A fresh address. *)
Definition fresh : A nat := fun s => Done (next_addr s) s<|next_addr ::= S|>.
Definition tell (e : hw) : A unit := modify (fun s => s<|hw_log ::= fun l => l ++ [e]|>).
(** [calloc]: a fresh address, or NULL. *)
Definition calloc : A (option nat) :=
  let* ok := syscall calloc_ok in
  if (ok : bool) then let* p := fresh in ret (Some p) else ret None.
(** [pcm_open]: the handle, and whether it is ready. *)
Definition pcm_open (card id : Z) (c : pcm_config) : A (option nat * bool) :=
  tell (PcmOpen card id c) ;;;
  let* a := syscall pcm_answer in
  match a with
  | OpenNull => ret (None, false)
  | OpenNotReady => let* h := fresh in ret (Some h, false)
  | OpenReady => let* h := fresh in ret (Some h, true)
  end.

(** Streams by address: a freed one is dangling. *)
Definition the_out (k : nat) : A stream_out :=
  let* m := gets outs in deref NullDeref (m !! k).
Definition the_in (k : nat) : A stream_in :=
  let* m := gets ins in deref NullDeref (m !! k).
Definition set_out (k : nat) (f : stream_out -> stream_out) : A unit :=
  let* o := the_out k in modify (fun s => s<|outs ::= <[k := f o]>|>).
Definition set_in (k : nat) (f : stream_in -> stream_in) : A unit :=
  let* i := the_in k in modify (fun s => s<|ins ::= <[k := f i]>|>).
Definition with_session (f : voice_session -> voice_session) : A unit :=
  modify (fun s => s<|session ::= f|>).
End system.
