(* ===== verification/AudioVoice.v ===== *)
(** * Voice sessions

    Models [src/audio/voice.c]: what the modem is told about the output device, the PCMs of
    a call and of a Bluetooth headset.  The radio client of [ril_interface.c] is reduced to
    the calls it makes; the audience chip ([AUDIENCE_EARSMART_IC]) is not compiled in. *)
From S2P Require Import Prelude Machine AudioTypes.

(** [samsung_audio.h] *)
Definition SOUND_CARD : Z := 0.
Definition SOUND_PLAYBACK_VOICE_DEVICE : Z := 1.
Definition SOUND_CAPTURE_VOICE_DEVICE : Z := 1.
Definition SOUND_PLAYBACK_SCO_DEVICE : Z := 2.
Definition SOUND_CAPTURE_SCO_DEVICE : Z := 2.

Definition pcm_config_voicecall : pcm_config := mkConfig 2 8000 256 2.
Definition pcm_config_voicecall_wideband : pcm_config := mkConfig 2 16000 256 2.
Definition pcm_config_voice_sco : pcm_config := mkConfig 1 8000 168 2.
Definition pcm_config_voice_sco_wb : pcm_config := mkConfig 1 16000 168 2.

Section voice.
Context `{API : AudioApi} `{HW : AudioHw}.

Definition is_sco_device (d : Z) : bool :=
  (d =? AUDIO_DEVICE_OUT_BLUETOOTH_SCO) || (d =? AUDIO_DEVICE_OUT_BLUETOOTH_SCO_HEADSET)
  || (d =? AUDIO_DEVICE_OUT_BLUETOOTH_SCO_CARKIT).

Definition set_voice_session_audio_path : A unit :=
  let* v := gets session in
  tell (RilPath (if out_device v =? AUDIO_DEVICE_OUT_SPEAKER then SOUND_AUDIO_PATH_SPEAKER
                 else if out_device v =? AUDIO_DEVICE_OUT_EARPIECE then SOUND_AUDIO_PATH_EARPIECE
                 else if out_device v =? AUDIO_DEVICE_OUT_WIRED_HEADSET then SOUND_AUDIO_PATH_HEADSET
                 else if out_device v =? AUDIO_DEVICE_OUT_WIRED_HEADPHONE then SOUND_AUDIO_PATH_HEADPHONE
                 else if is_sco_device (out_device v) then SOUND_AUDIO_PATH_BLUETOOTH
                 else SOUND_AUDIO_PATH_EARPIECE)).

Definition prepare_voice_session (active_out_devices : Z) : A unit :=
  with_session (fun v =>
    v<|out_device := active_out_devices|>
     <|two_mic_control := negb (two_mic_disabled v) &&
         ((active_out_devices =? AUDIO_DEVICE_OUT_EARPIECE) || (active_out_devices =? AUDIO_DEVICE_OUT_SPEAKER))|>).

Definition voice_session_uses_twomic (v : voice_session) : bool :=
  if two_mic_disabled v then false else two_mic_control v.

Definition voice_session_uses_wideband (s : AudioSt) : bool :=
  if has (out_device (session s)) AUDIO_DEVICE_OUT_ALL_SCO then bluetooth_wb s
  else 1 <=? wb_amr_type (session s).

(** The first PCM that is not ready stays in [pcm_voice_rx]: its error path closes the
    other one. *)
Definition start_voice_session : A Z :=
  let* v := gets session in
  if (bool_decide (is_Some (pcm_voice_rx v)) || bool_decide (is_Some (pcm_voice_tx v)))%bool then ret 0
  else
    let config := if 1 <=? wb_amr_type v then pcm_config_voicecall_wideband else pcm_config_voicecall in
    let* rx := pcm_open SOUND_CARD SOUND_PLAYBACK_VOICE_DEVICE config in
    with_session (fun v => v<|pcm_voice_rx := rx.1|>) ;;;
    if (bool_decide (is_Some rx.1) && negb rx.2)%bool then
      let* v := gets session in
      tell (PcmClose (pcm_voice_tx v)) ;;;
      with_session (fun v => v<|pcm_voice_tx := None|>) ;;;
      ret (- ENOMEM)
    else
      let* tx := pcm_open SOUND_CARD SOUND_CAPTURE_VOICE_DEVICE config in
      with_session (fun v => v<|pcm_voice_tx := tx.1|>) ;;;
      if (bool_decide (is_Some tx.1) && negb tx.2)%bool then
        let* v := gets session in
        tell (PcmClose (pcm_voice_rx v)) ;;;
        with_session (fun v => v<|pcm_voice_rx := None|>) ;;;
        ret (- ENOMEM)
      else
        tell (PcmStart rx.1) ;;;
        tell (PcmStart tx.1) ;;;
        let* v := gets session in
        tell (RilTwoMic (two_mic_control v)) ;;;
        ret 0.

(** [pcm_stop], [pcm_close] of an open PCM *)
Definition stop_and_close (h : option nat) : A unit :=
  match h with
  | None => ret tt
  | Some _ => tell (PcmStop h) ;;; tell (PcmClose h)
  end.

Definition stop_voice_session : A unit :=
  tell RilClockStop ;;;
  let* v := gets session in
  stop_and_close (pcm_voice_rx v) ;;;
  with_session (fun v => v<|pcm_voice_rx := None|>) ;;;
  stop_and_close (pcm_voice_tx v) ;;;
  with_session (fun v => v<|pcm_voice_tx := None|>) ;;;
  with_session (fun v => v<|out_device := AUDIO_DEVICE_NONE|>).

Definition stop_voice_session_bt_sco : A unit :=
  let* rx := gets pcm_sco_rx in
  stop_and_close rx ;;;
  modify (fun s => s<|pcm_sco_rx := None|>) ;;;
  let* tx := gets pcm_sco_tx in
  stop_and_close tx ;;;
  modify (fun s => s<|pcm_sco_tx := None|>) ;;;
  let* m := gets mode in
  if m =? AUDIO_MODE_IN_CALL then ret tt else stop_voice_session.

(** [err_sco_rx] *)
Definition close_sco_rx : A unit :=
  let* rx := gets pcm_sco_rx in
  tell (PcmClose rx) ;;;
  modify (fun s => s<|pcm_sco_rx := None|>).

Definition start_voice_session_bt_sco : A unit :=
  let* s := get in
  if (bool_decide (is_Some (pcm_sco_rx s)) || bool_decide (is_Some (pcm_sco_tx s)))%bool then ret tt
  else
    let config := if bluetooth_wb s then pcm_config_voice_sco_wb else pcm_config_voice_sco in
    let* rx := pcm_open SOUND_CARD SOUND_PLAYBACK_SCO_DEVICE config in
    modify (fun s => s<|pcm_sco_rx := rx.1|>) ;;;
    if (bool_decide (is_Some rx.1) && negb rx.2)%bool then close_sco_rx
    else
      let* tx := pcm_open SOUND_CARD SOUND_CAPTURE_SCO_DEVICE config in
      modify (fun s => s<|pcm_sco_tx := tx.1|>) ;;;
      if (bool_decide (is_Some tx.1) && negb tx.2)%bool then
        tell (PcmClose tx.1) ;;;
        modify (fun s => s<|pcm_sco_tx := None|>) ;;;
        close_sco_rx
      else
        tell (PcmStart rx.1) ;;;
        tell (PcmStart tx.1) ;;;
        if mode s =? AUDIO_MODE_IN_CALL then ret tt
        else let* _r := start_voice_session in ret tt.

Definition set_voice_session_volume : A unit :=
  let* v := gets session in
  tell (RilVolume (if out_device v =? AUDIO_DEVICE_OUT_EARPIECE then SOUND_TYPE_VOICE
                   else if out_device v =? AUDIO_DEVICE_OUT_SPEAKER then SOUND_TYPE_SPEAKER
                   else if ((out_device v =? AUDIO_DEVICE_OUT_WIRED_HEADSET)
                            || (out_device v =? AUDIO_DEVICE_OUT_WIRED_HEADPHONE))%bool then SOUND_TYPE_HEADSET
                   else if is_sco_device (out_device v) then SOUND_TYPE_BTVOICE
                   else SOUND_TYPE_VOICE)).
Definition set_voice_session_mic_mute (state : bool) : A unit := tell (RilMute state).
End voice.
