(* ===== verification/AudioRoute.v ===== *)
(** * Routing of the audio HAL

    Models the selection of sound devices and their reference counts in
    [src/audio/audio_hw.c]: [get_output_snd_device] to [select_devices].  Whatever the
    streams do, the count of a sound device is the number of use cases that use it
    ([refs_ok]), and all playback use cases share one output, all captures one input
    ([one_backend]). *)
From S2P Require Import Prelude Machine AudioTypes AudioVoice.

(** Reading an output stream through a pointer to an input stream: the code does so for
    the stream of a voice call.  [junk] is what the memory holds there. *)
Class Memory := { junk : nat -> stream_in }.

Section route.
Context `{API : AudioApi} `{HW : AudioHw} `{MEM : Memory}.

(** ** Finding use cases *)
Definition get_usecase_from_id (uc_id' : Z) : A (option audio_usecase) :=
  gets (fun s => find (fun u => uc_id u =? uc_id') (usecase_list s)).
Definition get_usecase_from_type (type : Z) : A (option audio_usecase) :=
  gets (fun s => find (fun u => has (uc_type u) type) (usecase_list s)).

(** The use case behind a pointer. *)
Definition the_uc (p : nat) : A audio_usecase :=
  let* l := gets usecase_list in
  deref NullDeref (find (fun u => (uc_ptr u =? p)%nat) l).
Definition set_uc (p : nat) (f : audio_usecase -> audio_usecase) : A unit :=
  modify (fun s => s<|usecase_list ::= fmap (fun u => if (uc_ptr u =? p)%nat then f u else u)|>).

(** ** Choice of the sound device *)
Definition is_headphone (d : Z) : bool :=
  has d AUDIO_DEVICE_OUT_WIRED_HEADPHONE || has d AUDIO_DEVICE_OUT_WIRED_HEADSET.

(** The device of a voice call, [SND_DEVICE_NONE] when none matches. *)
Definition voice_output (wideband : bool) (d : Z) : Z :=
  if is_headphone d then
    if wideband then SND_DEVICE_OUT_VOICE_HEADPHONES_WB else SND_DEVICE_OUT_VOICE_HEADPHONES
  else if has d AUDIO_DEVICE_OUT_ALL_SCO then
    if wideband then SND_DEVICE_OUT_VOICE_BT_SCO_WB else SND_DEVICE_OUT_VOICE_BT_SCO
  else if has d AUDIO_DEVICE_OUT_SPEAKER then
    if wideband then SND_DEVICE_OUT_VOICE_SPEAKER_WB else SND_DEVICE_OUT_VOICE_SPEAKER
  else if has d AUDIO_DEVICE_OUT_EARPIECE then
    if wideband then SND_DEVICE_OUT_VOICE_EARPIECE_WB else SND_DEVICE_OUT_VOICE_EARPIECE
  else SND_DEVICE_NONE.

Definition media_output (d : Z) : Z :=
  if popcount d =? 2 then
    if (d =? Z.lor AUDIO_DEVICE_OUT_WIRED_HEADPHONE AUDIO_DEVICE_OUT_SPEAKER)
    then SND_DEVICE_OUT_SPEAKER_AND_HEADPHONES
    else if (d =? Z.lor AUDIO_DEVICE_OUT_WIRED_HEADSET AUDIO_DEVICE_OUT_SPEAKER)
    then SND_DEVICE_OUT_SPEAKER_AND_HEADPHONES
    else SND_DEVICE_NONE
  else if negb (popcount d =? 1) then SND_DEVICE_NONE
  else if is_headphone d then SND_DEVICE_OUT_HEADPHONES
  else if has d AUDIO_DEVICE_OUT_SPEAKER then SND_DEVICE_OUT_SPEAKER
  else if has d AUDIO_DEVICE_OUT_ALL_SCO then SND_DEVICE_OUT_BT_SCO
  else if has d AUDIO_DEVICE_OUT_EARPIECE then SND_DEVICE_OUT_EARPIECE
  else SND_DEVICE_NONE.

Definition get_output_snd_device (s : AudioSt) (d : Z) : Z :=
  if ((d =? AUDIO_DEVICE_NONE) || has d AUDIO_DEVICE_BIT_IN)%bool then SND_DEVICE_NONE
  else
    let voice := if mode s =? AUDIO_MODE_IN_CALL then voice_output (voice_session_uses_wideband s) d
                 else SND_DEVICE_NONE in
    if negb (voice =? SND_DEVICE_NONE) then voice else media_output d.

(** The microphone of a call with output [out]. *)
Definition voice_input (wideband twomic : bool) (out : Z) : Z :=
  let d := if has out AUDIO_DEVICE_OUT_WIRED_HEADSET then SND_DEVICE_IN_VOICE_HEADSET_MIC
           else SND_DEVICE_IN_VOICE_MIC in
  let near := has out AUDIO_DEVICE_OUT_EARPIECE || has out AUDIO_DEVICE_OUT_WIRED_HEADPHONE in
  let d := if twomic then
             if near then SND_DEVICE_IN_VOICE_EARPIECE_MIC
             else if has out AUDIO_DEVICE_OUT_SPEAKER then SND_DEVICE_IN_VOICE_SPEAKER_MIC else d
           else d in
  let d := if wideband then
             let d := if has out AUDIO_DEVICE_OUT_WIRED_HEADSET then SND_DEVICE_IN_VOICE_HEADSET_MIC_WB else d in
             if twomic then
               if near then SND_DEVICE_IN_VOICE_EARPIECE_MIC_WB
               else if has out AUDIO_DEVICE_OUT_SPEAKER then SND_DEVICE_IN_VOICE_SPEAKER_MIC_WB else d
             else d
           else d in
  if has out AUDIO_DEVICE_OUT_ALL_SCO then
    if wideband then SND_DEVICE_IN_VOICE_BT_SCO_MIC_WB else SND_DEVICE_IN_VOICE_BT_SCO_MIC
  else d.

(** The choice by the source of the recording, and the input device as it is left. *)
Definition source_input (input : option stream_in) (source in_device out : Z) : Z * Z :=
  if source =? AUDIO_SOURCE_CAMCORDER then
    (if (has in_device AUDIO_DEVICE_IN_BUILTIN_MIC || has in_device AUDIO_DEVICE_IN_BACK_MIC)%bool
     then SND_DEVICE_IN_CAMCORDER_MIC else SND_DEVICE_NONE, in_device)
  else if source =? AUDIO_SOURCE_VOICE_RECOGNITION then
    (if has in_device AUDIO_DEVICE_IN_BUILTIN_MIC then SND_DEVICE_IN_VOICE_REC_MIC
     else if has in_device AUDIO_DEVICE_IN_WIRED_HEADSET then SND_DEVICE_IN_VOICE_REC_HEADSET_MIC
     else SND_DEVICE_NONE, in_device)
  else if ((source =? AUDIO_SOURCE_VOICE_COMMUNICATION) || (source =? AUDIO_SOURCE_MIC))%bool then
    let in_device := if has out AUDIO_DEVICE_OUT_SPEAKER then AUDIO_DEVICE_IN_BACK_MIC else in_device in
    (match input with
     | Some i =>
         if in_enable_aec i then
           if has in_device AUDIO_DEVICE_IN_BACK_MIC then SND_DEVICE_IN_SPEAKER_MIC_AEC
           else if has in_device AUDIO_DEVICE_IN_BUILTIN_MIC then
             if has out AUDIO_DEVICE_OUT_WIRED_HEADPHONE then SND_DEVICE_IN_SPEAKER_MIC_AEC
             else SND_DEVICE_IN_EARPIECE_MIC_AEC
           else if has in_device AUDIO_DEVICE_IN_WIRED_HEADSET then SND_DEVICE_IN_HEADSET_MIC_AEC
           else SND_DEVICE_NONE
         else SND_DEVICE_NONE
     | None => SND_DEVICE_NONE
     end, in_device)
  else (SND_DEVICE_NONE, in_device).

Definition default_input (in_device out : Z) : Z :=
  if (negb (in_device =? AUDIO_DEVICE_NONE) && negb (has in_device AUDIO_DEVICE_IN_VOICE_CALL)
      && negb (has in_device AUDIO_DEVICE_IN_COMMUNICATION))%bool then
    if has in_device AUDIO_DEVICE_IN_BUILTIN_MIC then SND_DEVICE_IN_EARPIECE_MIC
    else if has in_device AUDIO_DEVICE_IN_BACK_MIC then SND_DEVICE_IN_SPEAKER_MIC
    else if has in_device AUDIO_DEVICE_IN_WIRED_HEADSET then SND_DEVICE_IN_HEADSET_MIC
    else if has in_device AUDIO_DEVICE_IN_BLUETOOTH_SCO_HEADSET then SND_DEVICE_IN_BT_SCO_MIC
    else if has in_device AUDIO_DEVICE_IN_AUX_DIGITAL then SND_DEVICE_IN_HDMI_MIC
    else SND_DEVICE_IN_EARPIECE_MIC
  else if has out AUDIO_DEVICE_OUT_EARPIECE then SND_DEVICE_IN_EARPIECE_MIC
  else if has out AUDIO_DEVICE_OUT_WIRED_HEADSET then SND_DEVICE_IN_HEADSET_MIC
  else if has out AUDIO_DEVICE_OUT_SPEAKER then SND_DEVICE_IN_SPEAKER_MIC
  else if has out AUDIO_DEVICE_OUT_WIRED_HEADPHONE then SND_DEVICE_IN_EARPIECE_MIC
  else if has out AUDIO_DEVICE_OUT_BLUETOOTH_SCO_HEADSET then SND_DEVICE_IN_BT_SCO_MIC
  else SND_DEVICE_IN_EARPIECE_MIC.

(** [(struct stream_in * )usecase->stream] of the first capture or voice call. *)
Definition as_input (r : stream_ref) : A stream_in :=
  match r with
  | InStream k => the_in k
  | OutStream k => let* _o := the_out k in ret (junk k)
  end.
Definition active_capture : A (option stream_in) :=
  let* u := get_usecase_from_type (Z.lor PCM_CAPTURE VOICE_CALL) in
  match u with
  | None => ret None
  | Some u => let* i := as_input (uc_stream u) in ret (Some i)
  end.

Definition input_device (s : AudioSt) (input : option stream_in) (out : Z) : Z :=
  let source := match input with None => AUDIO_SOURCE_DEFAULT | Some i => in_source i end in
  let in_device := match input with
                   | None => AUDIO_DEVICE_NONE
                   | Some i => without (in_devices i) AUDIO_DEVICE_BIT_IN
                   end in
  if mode s =? AUDIO_MODE_IN_CALL then
    if out =? AUDIO_DEVICE_NONE then SND_DEVICE_NONE
    else voice_input (voice_session_uses_wideband s) (voice_session_uses_twomic (session s)) out
  else
    let r := source_input input source in_device out in
    if ((negb (source =? AUDIO_SOURCE_CAMCORDER)) && negb (source =? AUDIO_SOURCE_VOICE_RECOGNITION)
        && negb (source =? AUDIO_SOURCE_VOICE_COMMUNICATION) && negb (source =? AUDIO_SOURCE_MIC)
        && (source =? AUDIO_SOURCE_DEFAULT))%bool then SND_DEVICE_NONE
    else if negb (r.1 =? SND_DEVICE_NONE) then r.1
    else default_input r.2 out.
Definition get_input_snd_device (out : Z) : A Z :=
  let* input := active_capture in
  gets (fun s => input_device s input out).

(** ** Reference counted sound devices *)
Definition amplifier_enable_devices (d : Z) (enable : bool) : A unit :=
  let* a := gets amp in
  if (a : bool) then
    tell (if ((SND_DEVICE_OUT_BEGIN <? d) && (d <? SND_DEVICE_OUT_END))%bool
          then AmpEnableOutput d enable else AmpEnableInput d enable)
  else ret tt.
Definition amplifier_set_input_devices (d : Z) : A unit :=
  let* a := gets amp in if (a : bool) then tell (AmpSetInput d) else ret tt.
Definition amplifier_set_output_devices (d : Z) : A unit :=
  let* a := gets amp in if (a : bool) then tell (AmpSetOutput d) else ret tt.

Fixpoint for_each {B} (l : list B) (f : B -> A unit) : A unit :=
  match l with
  | [] => ret tt
  | b :: l => f b ;;; for_each l f
  end.

Definition ref_cnt_of (d : Z) : A Z :=
  let* l := gets snd_dev_ref_cnt in deref OutOfBounds (zlookup l d).
Definition set_ref_cnt (d n : Z) : A unit :=
  modify (fun s => s<|snd_dev_ref_cnt ::= zinsert d n|>).

(** A device other than the combination; [cards] are the mixers of the use case. *)
Definition enable_one (cards : list Z) (d : Z) : A Z :=
  match get_snd_device_name d with
  | None => ret (- EINVAL)
  | Some name =>
      let* n := ref_cnt_of d in
      set_ref_cnt d (s32 (n + 1)) ;;;
      if 1 <? s32 (n + 1) then ret 0
      else
        for_each cards (fun card =>
          amplifier_enable_devices d true ;;;
          tell (RouteApply card name)) ;;;
        ret 0
  end.
Definition enable_snd_device (cards : list Z) (d : Z) : A Z :=
  if d =? SND_DEVICE_OUT_SPEAKER_AND_HEADPHONES then
    let* _r := enable_one cards SND_DEVICE_OUT_SPEAKER in
    let* _r := enable_one cards SND_DEVICE_OUT_HEADPHONES in
    ret 0
  else enable_one cards d.

(** The output path is applied again after an input path was reset. *)
Definition cycle_output (card d : Z) (out_uc : option audio_usecase) : A unit :=
  match out_uc with
  | Some u =>
      if SND_DEVICE_IN_BEGIN <? d then
        let* name := deref NullDeref (get_snd_device_name (uc_out u)) in
        tell (RouteApply card name)
      else ret tt
  | None => ret tt
  end.
Definition disable_one (cards : list Z) (d : Z) : A Z :=
  let* out_uc := get_usecase_from_type PCM_PLAYBACK in
  match get_snd_device_name d with
  | None => ret (- EINVAL)
  | Some name =>
      let* n := ref_cnt_of d in
      if n <=? 0 then ret (- EINVAL)
      else
        set_ref_cnt d (n - 1) ;;;
        (if n - 1 =? 0 then
           for_each cards (fun card =>
             tell (RouteReset card name) ;;;
             cycle_output card d out_uc ;;;
             amplifier_enable_devices d false)
         else ret tt) ;;;
        ret 0
  end.
Definition disable_snd_device (cards : list Z) (d : Z) : A Z :=
  if d =? SND_DEVICE_OUT_SPEAKER_AND_HEADPHONES then
    let* _r := disable_one cards SND_DEVICE_OUT_SPEAKER in
    let* _r := disable_one cards SND_DEVICE_OUT_HEADPHONES in
    ret 0
  else disable_one cards d.

(** ** Keeping the use cases together *)
Definition snd_device_of (type : Z) (u : audio_usecase) : Z :=
  if type =? PCM_PLAYBACK then uc_out u else uc_in u.
Definition set_snd_device (type d : Z) (u : audio_usecase) : audio_usecase :=
  if type =? PCM_PLAYBACK then u<|uc_out := d|> else u<|uc_in := d|>.

(** [switch_device]: the identifiers of the use cases of the type on another device. *)
Definition to_switch (p : nat) (type d : Z) (l : list audio_usecase) : list Z :=
  uc_id <$> List.filter (fun u => (uc_type u =? type) && negb (uc_ptr u =? p)%nat
                                  && negb (snd_device_of type u =? d))%bool l.

Definition switch_one (type d : Z) (ids : list Z) (p : nat) : A unit :=
  let* u := the_uc p in
  if bool_decide (uc_id u ∈ ids) then
    let* _r := disable_snd_device (uc_mixer_list u) (snd_device_of type u) in
    let* _r := enable_snd_device (uc_mixer_list u) d in
    set_uc p (set_snd_device type d)
  else ret tt.

Definition check_and_route_usecases (p : nat) (type d : Z) : A unit :=
  let* l := gets usecase_list in
  for_each (uc_ptr <$> l) (switch_one type d (to_switch p type d l)).

(** ** Selection *)

(** The devices of an active call, for the other use cases. *)
Definition call_devices (u : audio_usecase) : A (Z * Z) :=
  let* call := gets in_call in
  if (negb (uc_type u =? VOICE_CALL) && call)%bool then
    let* v := get_usecase_from_id USECASE_VOICE_CALL in
    ret (match v with Some v => (uc_out v, uc_in v) | None => (SND_DEVICE_NONE, SND_DEVICE_NONE) end)
  else ret (SND_DEVICE_NONE, SND_DEVICE_NONE).

Definition out_of (r : stream_ref) : A (nat * stream_out) :=
  match r with
  | OutStream k => let* o := the_out k in ret (k, o)
  | InStream _ => fail BadCast
  end.

(** The modem is told when the output of a call changes. *)
Definition update_audio_path : A unit :=
  let* call := gets in_call in
  if (call : bool) then set_voice_session_audio_path else ret tt.

(** From the chosen devices on: disable the old ones, enable the new ones. *)
Definition apply_devices (p : nat) (out inp : Z) : A Z :=
  let* u := the_uc p in
  if ((out =? uc_out u) && (inp =? uc_in u))%bool then ret 0
  else
    (if negb (uc_out u =? SND_DEVICE_NONE)
     then let* _r := disable_snd_device (uc_mixer_list u) (uc_out u) in ret tt else ret tt) ;;;
    (if negb (uc_in u =? SND_DEVICE_NONE)
     then let* _r := disable_snd_device (uc_mixer_list u) (uc_in u) in ret tt else ret tt) ;;;
    (if negb (out =? SND_DEVICE_NONE) then
       update_audio_path ;;;
       check_and_route_usecases p PCM_PLAYBACK out ;;;
       let* _r := enable_snd_device (uc_mixer_list u) out in ret tt
     else ret tt) ;;;
    (if negb (inp =? SND_DEVICE_NONE) then
       check_and_route_usecases p PCM_CAPTURE inp ;;;
       let* _r := enable_snd_device (uc_mixer_list u) inp in ret tt
     else ret tt) ;;;
    set_uc p (fun u => u<|uc_in := inp|><|uc_out := out|>) ;;;
    amplifier_set_input_devices inp ;;;
    amplifier_set_output_devices out ;;;
    ret 0.

(** The branch of a capture. *)
Definition capture_device (input : option stream_in) : A Z :=
  let* i := deref NullDeref input in
  let* primary := gets primary_output in
  match primary with
  | Some k =>
      if in_source i =? AUDIO_SOURCE_VOICE_COMMUNICATION then
        let* o := the_out k in
        if out_standby o then get_input_snd_device AUDIO_DEVICE_NONE
        else get_input_snd_device (out_devices o)
      else get_input_snd_device AUDIO_DEVICE_NONE
  | None => get_input_snd_device AUDIO_DEVICE_NONE
  end.

Fixpoint select_devices (fuel : nat) (id : Z) : A Z :=
  match fuel with
  | O => fail Diverges
  | S fuel =>
      let* input := active_capture in
      let* u := get_usecase_from_id id in
      match u with
      | None => ret (- EINVAL)
      | Some u =>
          let p := uc_ptr u in
          let* vc := call_devices u in
          if uc_type u =? VOICE_CALL then
            let* ko := out_of (uc_stream u) in
            set_uc p (fun u => u<|uc_devices := out_devices ko.2|>) ;;;
            prepare_voice_session (out_devices ko.2) ;;;
            let* out := gets (fun s => get_output_snd_device s (out_devices ko.2)) in
            let* inp := get_input_snd_device (out_devices ko.2) in
            apply_devices p out inp
          else if uc_type u =? PCM_PLAYBACK then
            let* ko := out_of (uc_stream u) in
            set_uc p (fun u => u<|uc_devices := out_devices ko.2|>) ;;;
            if vc.1 =? SND_DEVICE_NONE then
              let* out := gets (fun s => get_output_snd_device s (out_devices ko.2)) in
              let* primary := gets primary_output in
              (match input with
               | Some i =>
                   if (bool_decide (primary = Some ko.1)
                       && (in_source i =? AUDIO_SOURCE_VOICE_COMMUNICATION))%bool
                   then let* _r := select_devices fuel (in_usecase i) in ret tt
                   else ret tt
               | None => ret tt
               end) ;;;
              apply_devices p out SND_DEVICE_NONE
            else apply_devices p vc.1 SND_DEVICE_NONE
          else if uc_type u =? PCM_CAPTURE then
            let* i := as_input (uc_stream u) in
            set_uc p (fun u => u<|uc_devices := in_devices i|>) ;;;
            let* inp := (if vc.2 =? SND_DEVICE_NONE then capture_device input else ret vc.2) in
            apply_devices p SND_DEVICE_NONE inp
          else apply_devices p vc.1 vc.2
      end
  end.
End route.
