(* ===== verification/AudioRouteInv.v ===== *)
(** * The reference counts of the sound devices

    The invariant of the routing of [AudioRoute]: the reference count of every sound device
    is the number of uses by the active use cases, and the use cases of one backend are on
    one device.  [select_devices] returns and keeps it. *)
From S2P Require Import Prelude Machine AudioTypes AudioVoice AudioRoute.

(** ** What the use cases demand *)
Definition eq1 (a b : Z) : Z := if a =? b then 1 else 0.
(** How often a use case on sound device [x] counts for device [d]: the combination counts
    for its two parts. *)
Definition cnt (x d : Z) : Z :=
  if x =? SND_DEVICE_NONE then 0
  else if x =? SND_DEVICE_OUT_SPEAKER_AND_HEADPHONES
  then eq1 d SND_DEVICE_OUT_SPEAKER + eq1 d SND_DEVICE_OUT_HEADPHONES
  else eq1 d x.
Definition use1 (u : audio_usecase) (d : Z) : Z := cnt (uc_out u) d + cnt (uc_in u) d.
Definition demand (l : list audio_usecase) (d : Z) : Z := foldr (fun u n => use1 u d + n) 0 l.

Definition others (p : nat) (l : list audio_usecase) : list audio_usecase :=
  List.filter (fun u => negb (uc_ptr u =? p)%nat) l.
Definition at_ptr (p : nat) (f : audio_usecase -> audio_usecase) (l : list audio_usecase) : list audio_usecase :=
  (fun u => if (uc_ptr u =? p)%nat then f u else u) <$> l.
Definition find_ptr (p : nat) (l : list audio_usecase) : option audio_usecase :=
  find (fun u => (uc_ptr u =? p)%nat) l.

Definition valid_device (d : Z) : Prop := 0 <= d < SND_DEVICE_MAX.
Definition sound_out (d : Z) : Prop := SND_DEVICE_NONE <= d < SND_DEVICE_OUT_END.
Definition sound_in (d : Z) : Prop := d = SND_DEVICE_NONE \/ SND_DEVICE_IN_BEGIN <= d < SND_DEVICE_MAX.
Definition uc_valid (u : audio_usecase) : Prop := sound_out (uc_out u) /\ sound_in (uc_in u).
(** A device of the kind that [set_snd_device] sets. *)
Definition device_for (type d : Z) : Prop := if type =? PCM_PLAYBACK then sound_out d else sound_in d.
Lemma sound_out_valid d : sound_out d -> valid_device d.
Proof. unfold sound_out, valid_device. change SND_DEVICE_OUT_END with 16. change SND_DEVICE_MAX with 36. change SND_DEVICE_NONE with 0. lia. Qed.
Lemma sound_in_valid d : sound_in d -> valid_device d.
Proof. unfold sound_in, valid_device. change SND_DEVICE_IN_BEGIN with 16. change SND_DEVICE_MAX with 36. change SND_DEVICE_NONE with 0. lia. Qed.
Lemma device_for_valid type d : device_for type d -> valid_device d.
Proof. unfold device_for. destruct (type =? _); [apply sound_out_valid|apply sound_in_valid]. Qed.

Lemma cnt_bounds x d : 0 <= cnt x d <= 1.
Proof.
  unfold cnt, eq1. destruct (x =? _); [lia|]. destruct (x =? _); [|destruct (d =? x); lia].
  destruct (Z.eqb_spec d SND_DEVICE_OUT_SPEAKER), (Z.eqb_spec d SND_DEVICE_OUT_HEADPHONES); subst; try done; lia.
Qed.
Lemma use1_bounds u d : 0 <= use1 u d <= 2.
Proof. unfold use1. pose proof (cnt_bounds (uc_out u) d). pose proof (cnt_bounds (uc_in u) d). lia. Qed.
Lemma demand_bounds l d : 0 <= demand l d <= 2 * zlength l.
Proof.
  induction l as [|u l IH]; [done|]. cbn [demand foldr]. fold (demand l d). pose proof (use1_bounds u d).
  unfold zlength in *. simpl length. lia.
Qed.

Lemma find_ptr_Some p l u : find_ptr p l = Some u -> uc_ptr u = p /\ u ∈ l.
Proof.
  unfold find_ptr. intros Hf. apply find_some in Hf as [Hin Hp].
  split; [by apply Nat.eqb_eq|by apply list_elem_of_In].
Qed.
Lemma others_ge p l d : demand (others p l) d <= demand l d.
Proof.
  induction l as [|u l IH]; [done|]. cbn [others List.filter demand foldr]. fold (demand l d).
  destruct (uc_ptr u =? p)%nat; cbn [negb demand foldr]; fold (others p l); pose proof (use1_bounds u d).
  - fold (demand (others p l) d). lia.
  - fold (demand (others p l) d). lia.
Qed.
Lemma others_notin p l : p ∉ (uc_ptr <$> l) -> others p l = l.
Proof.
  induction l as [|u l IH]; [done|]. rewrite fmap_cons, not_elem_of_cons. intros [Hu Hl].
  cbn [others List.filter]. rewrite (proj2 (Nat.eqb_neq _ _)) by done. cbn [negb]. f_equal. by apply IH.
Qed.
Lemma at_ptr_notin p f l : p ∉ (uc_ptr <$> l) -> at_ptr p f l = l.
Proof.
  induction l as [|u l IH]; [done|]. rewrite fmap_cons, not_elem_of_cons. intros [Hu Hl].
  unfold at_ptr in *. rewrite fmap_cons, IH by done. by rewrite (proj2 (Nat.eqb_neq _ _)) by done.
Qed.

(** The demand split at one use case. *)
Lemma demand_split l p u d :
  NoDup (uc_ptr <$> l) -> find_ptr p l = Some u -> demand l d = use1 u d + demand (others p l) d.
Proof.
  induction l as [|v l IH]; [done|]. rewrite fmap_cons, NoDup_cons. intros [Hv Hnd].
  unfold find_ptr. cbn [find]. cbn [others List.filter demand foldr]. fold (demand l d) (others p l).
  destruct (Nat.eqb_spec (uc_ptr v) p) as [Hp|Hp]; cbn [negb].
  - intros [= ->]. subst p. by rewrite others_notin.
  - intros Hf. cbn [demand foldr]. fold (demand (others p l) d). rewrite (IH Hnd Hf). lia.
Qed.
Lemma demand_at_ptr l p u f d :
  NoDup (uc_ptr <$> l) -> find_ptr p l = Some u ->
  demand (at_ptr p f l) d = demand l d - use1 u d + use1 (f u) d.
Proof.
  induction l as [|v l IH]; [done|]. rewrite fmap_cons, NoDup_cons. intros [Hv Hnd].
  unfold find_ptr, at_ptr. cbn [find]. rewrite fmap_cons. cbn [demand foldr]. fold (at_ptr p f l).
  fold (demand l d) (demand (at_ptr p f l) d).
  destruct (Nat.eqb_spec (uc_ptr v) p) as [Hp|Hp].
  - intros [= ->]. subst p. rewrite at_ptr_notin by done. lia.
  - intros Hf. rewrite (IH Hnd Hf). lia.
Qed.
Lemma others_at_ptr p q f l :
  (forall u, uc_ptr (f u) = uc_ptr u) -> others p (at_ptr q f l) = at_ptr q f (others p l).
Proof.
  intros Hf. unfold others, at_ptr. induction l as [|u l IH]; [done|]. rewrite fmap_cons. cbn [List.filter].
  assert (uc_ptr (if (uc_ptr u =? q)%nat then f u else u) = uc_ptr u) as -> by (destruct (_ =? q)%nat; [apply Hf|done]).
  destruct (uc_ptr u =? p)%nat; cbn [negb]; [done|]. rewrite fmap_cons. by f_equal.
Qed.
Lemma others_at_self p f l :
  (forall u, uc_ptr (f u) = uc_ptr u) -> others p (at_ptr p f l) = others p l.
Proof.
  intros Hf. rewrite others_at_ptr by done. apply at_ptr_notin.
  intros (u & Hu & Hin)%list_elem_of_fmap. apply list_elem_of_In, filter_In in Hin as [_ Hin].
  by rewrite <-Hu, Nat.eqb_refl in Hin.
Qed.
Lemma find_others p q l : p <> q -> find_ptr q (others p l) = find_ptr q l.
Proof.
  intros Hpq. unfold find_ptr, others. induction l as [|u l IH]; [done|]. cbn [List.filter find].
  destruct (Nat.eqb_spec (uc_ptr u) p) as [Hp|Hp]; cbn [negb].
  - rewrite IH. by rewrite (proj2 (Nat.eqb_neq (uc_ptr u) q)) by congruence.
  - cbn [find]. by rewrite IH.
Qed.
Lemma others_NoDup p l : NoDup (uc_ptr <$> l) -> NoDup (uc_ptr <$> others p l).
Proof.
  induction l as [|u l IH]; [done|]. rewrite fmap_cons, NoDup_cons. intros [Hu Hnd]. cbn [others List.filter].
  destruct (uc_ptr u =? p)%nat; cbn [negb]; [by apply IH|]. rewrite fmap_cons. apply NoDup_cons. split; [|by apply IH].
  intros (v & Hv & Hin)%list_elem_of_fmap. apply Hu, list_elem_of_fmap. exists v. split; [done|].
  apply list_elem_of_In, filter_In in Hin as [Hin _]. by apply list_elem_of_In.
Qed.

(** ** Enabling and disabling *)

(** The table of counts holds [f]. *)
Definition refs_are (s : AudioSt) (f : Z -> Z) : Prop :=
  zlength (snd_dev_ref_cnt s) = SND_DEVICE_MAX /\
  forall d, valid_device d -> zlookup (snd_dev_ref_cnt s) d = Some (f d).
Definition small (f : Z -> Z) : Prop := forall d, 0 <= f d < 1000.

(** Only the counts and the calls of the hardware changed. *)
Definition counts_only (s s' : AudioSt) : Prop :=
  s' = s<|snd_dev_ref_cnt := snd_dev_ref_cnt s'|><|hw_log := hw_log s'|>.
Lemma counts_only_refl s : counts_only s s.
Proof. by destruct s. Qed.
Lemma counts_only_trans s1 s2 s3 : counts_only s1 s2 -> counts_only s2 s3 -> counts_only s1 s3.
Proof. unfold counts_only. intros -> ->. done. Qed.
Lemma counts_only_log s e : counts_only s (s<|hw_log := e|>).
Proof. by destruct s. Qed.

Lemma refs_are_ext s f g : (forall d, valid_device d -> f d = g d) -> refs_are s f -> refs_are s g.
Proof. intros Hfg [Hl Hf]. split; [done|]. intros d Hd. rewrite <-Hfg by done. by apply Hf. Qed.
Lemma refs_are_log s f e : refs_are s f -> refs_are (s<|hw_log := e|>) f.
Proof. by destruct s. Qed.

Lemma refs_are_set s f d n :
  refs_are s f -> valid_device d ->
  refs_are (s<|snd_dev_ref_cnt ::= zinsert d n|>) (fun x => if x =? d then n else f x).
Proof.
  intros [Hl Hf] Hd. split; [cbn; by rewrite zlength_zinsert|]. intros x Hx. cbn.
  rewrite zlookup_zinsert by (rewrite Hl; exact Hd). destruct (Z.eqb_spec x d) as [->|Hn].
  - by rewrite decide_True.
  - rewrite decide_False by done. by apply Hf.
Qed.

Section counts.
Context `{API : AudioApi} `{HW : AudioHw}.


Lemma device_name d : valid_device d -> exists n, get_snd_device_name d = Some n.
Proof.
  intros [H0 Hm]. unfold get_snd_device_name.
  replace ((d =? SND_DEVICE_NONE) || ((SND_DEVICE_MIN <=? d) && (d <? SND_DEVICE_MAX)))%bool with true.
  - apply zlookup_in_range. split; [done|]. exact Hm.
  - symmetry. apply orb_true_iff. destruct (Z.eqb_spec d SND_DEVICE_NONE) as [|Hn]; [by left|right].
    unfold SND_DEVICE_NONE, SND_DEVICE_MIN, SND_DEVICE_OUT_EARPIECE in *.
    apply andb_true_iff. split; [apply Z.leb_le; lia|by apply Z.ltb_lt].
Qed.

(** A loop that only makes calls. *)
Lemma for_each_log {B} (l : list B) (f : B -> A unit) :
  (forall b s, exists s', f b s = Done tt s' /\ exists e, s' = s<|hw_log := e|>) ->
  forall s, exists s', for_each l f s = Done tt s' /\ exists e, s' = s<|hw_log := e|>.
Proof.
  intros Hf. induction l as [|b l IH]; intros s.
  - exists s. split; [done|]. exists (hw_log s). by destruct s.
  - cbn [for_each]. destruct (Hf b s) as (s1 & H1 & e1 & ->). rewrite (bind_runs _ _ _ _ _ H1).
    destruct (IH (s<|hw_log := e1|>)) as (s2 & H2 & e2 & ->). eexists. split; [exact H2|]. by exists e2.
Qed.
Lemma amplifier_log d b s : exists s', amplifier_enable_devices d b s = Done tt s' /\ exists e, s' = s<|hw_log := e|>.
Proof.
  unfold amplifier_enable_devices, bind, gets. cbn [obind]. destruct (amp s); eexists; (split; [reflexivity|]).
  - by eexists.
  - exists (hw_log s). by destruct s.
Qed.

Lemma enable_one_spec cards d s f :
  refs_are s f -> small f -> valid_device d ->
  exists s', enable_one cards d s = Done 0 s' /\ counts_only s s' /\ refs_are s' (fun x => f x + eq1 x d).
Proof.
  intros Hr Hs Hd. unfold enable_one. destruct (device_name d Hd) as [name ->].
  unfold ref_cnt_of. unfold bind at 1, bind at 1, gets at 1. cbn [obind]. rewrite (proj2 Hr d Hd). cbn [deref ret obind].
  specialize (Hs d). rewrite s32_small by lia. unfold bind at 1, set_ref_cnt. cbn [modify obind].
  set (s1 := set_field snd_dev_ref_cnt _ s).
  assert (refs_are s1 (fun x => f x + eq1 x d)) as Hr1.
  { eapply refs_are_ext; [|by apply refs_are_set]. intros x _. unfold eq1. cbn. destruct (Z.eqb_spec x d); subst; lia. }
  assert (counts_only s s1) as Hc1 by (by destruct s).
  destruct (1 <? f d + 1); [by exists s1|].
  destruct (for_each_log cards (fun card => amplifier_enable_devices d true ;;; tell (RouteApply card name))) with (s := s1)
    as (s2 & H2 & e & ->).
  { intros card s0. destruct (amplifier_log d true s0) as (s' & Hs' & e & ->). rewrite (bind_runs _ _ _ _ _ Hs').
    eexists. split; [reflexivity|]. by eexists. }
  rewrite (bind_runs _ _ _ _ _ H2). eexists. split; [reflexivity|]. split; [|done].
  eapply counts_only_trans; [exact Hc1|apply counts_only_log].
Qed.

Lemma eq1_bounds a b : 0 <= eq1 a b <= 1.
Proof. unfold eq1. destruct (a =? b); lia. Qed.

Lemma enable_spec cards x s f :
  refs_are s f -> (forall d, 0 <= f d < 900) -> valid_device x -> x <> SND_DEVICE_NONE ->
  exists s', enable_snd_device cards x s = Done 0 s' /\ counts_only s s' /\ refs_are s' (fun d => f d + cnt x d).
Proof.
  intros Hr Hs Hx Hn. unfold enable_snd_device, cnt. rewrite (proj2 (Z.eqb_neq _ _) Hn).
  destruct (x =? SND_DEVICE_OUT_SPEAKER_AND_HEADPHONES).
  - destruct (enable_one_spec cards SND_DEVICE_OUT_SPEAKER s f Hr) as (s1 & H1 & Hc1 & Hr1); [intros d; specialize (Hs d); lia|done|].
    rewrite (bind_runs _ _ _ _ _ H1).
    destruct (enable_one_spec cards SND_DEVICE_OUT_HEADPHONES s1 _ Hr1) as (s2 & H2 & Hc2 & Hr2);
      [intros d; specialize (Hs d); pose proof (eq1_bounds d SND_DEVICE_OUT_SPEAKER); lia|done|].
    rewrite (bind_runs _ _ _ _ _ H2). exists s2. split; [done|]. split; [by eapply counts_only_trans|].
    eapply refs_are_ext; [|exact Hr2]. intros. cbn beta. lia.
  - destruct (enable_one_spec cards x s f Hr) as (s1 & H1 & Hc1 & Hr1); [intros d; specialize (Hs d); lia|done|]. by exists s1.
Qed.

Lemma cycle_log card d u s :
  match u with Some u => valid_device (uc_out u) | None => True end ->
  exists s', cycle_output card d u s = Done tt s' /\ exists e, s' = s<|hw_log := e|>.
Proof.
  intros Hu. assert (exists e, s = s<|hw_log := e|>) as Hs by (exists (hw_log s); by destruct s).
  destruct u as [u|]; cbn [cycle_output]; [|by exists s]. destruct (_ <? d); [|by exists s].
  destruct (device_name _ Hu) as [n ->]. eexists. split; [reflexivity|]. by eexists.
Qed.

Lemma disable_one_spec cards d s f :
  refs_are s f -> valid_device d -> Forall uc_valid (usecase_list s) -> 0 <= f d ->
  exists r s', disable_one cards d s = Done r s' /\ counts_only s s' /\
    refs_are s' (fun x => f x - (if f d =? 0 then 0 else eq1 x d)).
Proof.
  intros Hr Hd Hv H0. unfold disable_one, get_usecase_from_type. unfold bind at 1, gets at 1. cbn [obind].
  set (u := find _ (usecase_list s)).
  assert (match u with Some u => valid_device (uc_out u) | None => True end) as Hu.
  { destruct u as [u'|] eqn:E; [|done]. apply find_some in E as [Hin _]. rewrite Forall_forall in Hv.
    by destruct (Hv u' (proj2 (list_elem_of_In _ _) Hin)) as [?%sound_out_valid _]. }
  clearbody u. destruct (device_name d Hd) as [name ->].
  unfold ref_cnt_of. unfold bind at 1, bind at 1, gets at 1. cbn [obind]. rewrite (proj2 Hr d Hd). cbn [deref ret obind].
  destruct (Z.leb_spec (f d) 0) as [Hle|Hgt].
  { rewrite (proj2 (Z.eqb_eq _ _)) by lia. eexists _, s. split; [done|]. split; [apply counts_only_refl|].
    eapply refs_are_ext; [|exact Hr]. intros. cbn beta. lia. }
  rewrite (proj2 (Z.eqb_neq (f d) 0)) by lia. unfold bind at 1, set_ref_cnt. cbn [modify obind].
  set (s1 := set_field snd_dev_ref_cnt _ s).
  assert (refs_are s1 (fun x => f x - eq1 x d)) as Hr1.
  { eapply refs_are_ext; [|by apply refs_are_set]. intros x _. unfold eq1. cbn. destruct (Z.eqb_spec x d); subst; lia. }
  assert (counts_only s s1) as Hc1 by (by destruct s). clearbody s1.
  destruct (f d - 1 =? 0); [|eexists _, s1; done].
  destruct (for_each_log cards (fun card =>
    tell (RouteReset card name) ;;; cycle_output card d u ;;; amplifier_enable_devices d false)) with (s := s1)
    as (s2 & H2 & e & ->).
  { intros card s0. unfold bind at 1, tell. cbn [modify obind]. set (s0' := set_field hw_log _ s0).
    destruct (cycle_log card d u s0' Hu) as (s' & Hs' & e & ->). rewrite (bind_runs _ _ _ _ _ Hs').
    destruct (amplifier_log d false (s0'<|hw_log := e|>)) as (s'' & Hs'' & e' & ->). eexists. split; [exact Hs''|]. by exists e'. }
  rewrite (bind_runs _ _ _ _ _ H2). eexists _, _. split; [reflexivity|]. split; [|done].
  eapply counts_only_trans; [exact Hc1|apply counts_only_log].
Qed.

(** Disabling a device that is in use, or none. *)
Lemma disable_spec cards x s f :
  refs_are s f -> valid_device x -> Forall uc_valid (usecase_list s) ->
  (forall d, cnt x d <= f d) -> f SND_DEVICE_NONE = 0 ->
  exists r s', disable_snd_device cards x s = Done r s' /\ counts_only s s' /\ refs_are s' (fun d => f d - cnt x d).
Proof.
  intros Hr Hx Hv Hf Hn. unfold disable_snd_device, cnt in *.
  destruct (Z.eqb_spec x SND_DEVICE_NONE) as [->|Hne].
  { change (SND_DEVICE_NONE =? SND_DEVICE_OUT_SPEAKER_AND_HEADPHONES) with false. cbv iota.
    destruct (disable_one_spec cards SND_DEVICE_NONE s f Hr Hx Hv ltac:(lia)) as (r & s' & Hd & Hc & Hr').
    exists r, s'. split; [done|]. split; [done|]. rewrite Hn in Hr'. eapply refs_are_ext; [|exact Hr']. done. }
  destruct (x =? SND_DEVICE_OUT_SPEAKER_AND_HEADPHONES).
  - pose proof (Hf SND_DEVICE_OUT_SPEAKER) as Hsp. pose proof (Hf SND_DEVICE_OUT_HEADPHONES) as Hhp.
    change (eq1 SND_DEVICE_OUT_SPEAKER SND_DEVICE_OUT_SPEAKER + eq1 SND_DEVICE_OUT_SPEAKER SND_DEVICE_OUT_HEADPHONES) with 1 in Hsp.
    change (eq1 SND_DEVICE_OUT_HEADPHONES SND_DEVICE_OUT_SPEAKER + eq1 SND_DEVICE_OUT_HEADPHONES SND_DEVICE_OUT_HEADPHONES) with 1 in Hhp.
    destruct (disable_one_spec cards SND_DEVICE_OUT_SPEAKER s f Hr ltac:(done) Hv ltac:(lia)) as (r1 & s1 & H1 & Hc1 & Hr1).
    rewrite (bind_runs _ _ _ _ _ H1). rewrite (proj2 (Z.eqb_neq (f SND_DEVICE_OUT_SPEAKER) 0)) in Hr1 by lia.
    assert (usecase_list s1 = usecase_list s) as Hul by (rewrite Hc1; done).
    destruct (disable_one_spec cards SND_DEVICE_OUT_HEADPHONES s1 _ Hr1 ltac:(done)) as (r2 & s2 & H2 & Hc2 & Hr2);
      [by rewrite Hul|change (eq1 SND_DEVICE_OUT_HEADPHONES SND_DEVICE_OUT_SPEAKER) with 0; lia|].
    rewrite (bind_runs _ _ _ _ _ H2). eexists _, s2. split; [reflexivity|]. split; [by eapply counts_only_trans|].
    cbn beta in Hr2. change (eq1 SND_DEVICE_OUT_HEADPHONES SND_DEVICE_OUT_SPEAKER) with 0 in Hr2.
    rewrite (proj2 (Z.eqb_neq (f SND_DEVICE_OUT_HEADPHONES - 0) 0)) in Hr2 by lia.
    eapply refs_are_ext; [|exact Hr2]. intros. cbn beta. lia.
  - pose proof (Hf x) as Hfx. unfold eq1 in Hfx. rewrite Z.eqb_refl in Hfx.
    destruct (disable_one_spec cards x s f Hr Hx Hv ltac:(lia)) as (r & s' & Hd & Hc & Hr').
    exists r, s'. split; [done|]. split; [done|]. rewrite (proj2 (Z.eqb_neq (f x) 0)) in Hr' by lia. exact Hr'.
Qed.
End counts.

(** ** The routing as a function on the use cases *)

(** A use case of the type follows to device [d]. *)
Definition reroute (p : nat) (type d : Z) (u : audio_usecase) : audio_usecase :=
  if ((uc_type u =? type) && negb (uc_ptr u =? p)%nat)%bool then set_snd_device type d u else u.
Definition reroute_all (p : nat) (type d : Z) (l : list audio_usecase) : list audio_usecase :=
  if d =? SND_DEVICE_NONE then l else reroute p type d <$> l.
Definition routed (p : nat) (out inp : Z) (l : list audio_usecase) : list audio_usecase :=
  at_ptr p (fun u => u<|uc_in := inp|><|uc_out := out|>)
    (reroute_all p PCM_CAPTURE inp (reroute_all p PCM_PLAYBACK out l)).

(** What routing leaves alone in a use case. *)
Definition same_uc (u v : audio_usecase) : Prop :=
  uc_ptr v = uc_ptr u /\ uc_id v = uc_id u /\ uc_type v = uc_type u /\
  uc_stream v = uc_stream u /\ uc_mixer_list v = uc_mixer_list u.
Definition list_ok (l : list audio_usecase) : Prop :=
  NoDup (uc_ptr <$> l) /\ NoDup (uc_id <$> l) /\ Forall uc_valid l /\ zlength l <= AUDIO_USECASE_MAX.
Definition routes_only (s s' : AudioSt) : Prop :=
  s' = s<|snd_dev_ref_cnt := snd_dev_ref_cnt s'|><|hw_log := hw_log s'|>
        <|usecase_list := usecase_list s'|><|session := session s'|>.

Lemma routes_only_refl s : routes_only s s.
Proof. by destruct s. Qed.
Lemma routes_only_trans s1 s2 s3 : routes_only s1 s2 -> routes_only s2 s3 -> routes_only s1 s3.
Proof. unfold routes_only. intros -> ->. done. Qed.
Lemma counts_routes s s' : counts_only s s' -> routes_only s s'.
Proof. unfold counts_only, routes_only. intros ->. by destruct s. Qed.

Lemma set_snd_device_fields type d u :
  uc_ptr (set_snd_device type d u) = uc_ptr u /\ uc_id (set_snd_device type d u) = uc_id u /\
  uc_type (set_snd_device type d u) = uc_type u /\ uc_stream (set_snd_device type d u) = uc_stream u /\
  uc_mixer_list (set_snd_device type d u) = uc_mixer_list u.
Proof. unfold set_snd_device. by destruct (type =? _), u. Qed.
Lemma set_snd_device_id type u : set_snd_device type (snd_device_of type u) u = u.
Proof. unfold set_snd_device, snd_device_of. by destruct (type =? _), u. Qed.
Lemma use1_set type d u x :
  use1 (set_snd_device type d u) x = use1 u x - cnt (snd_device_of type u) x + cnt d x.
Proof. unfold set_snd_device, snd_device_of, use1. destruct (type =? _), u; cbn; lia. Qed.
Lemma set_valid type d u : uc_valid u -> device_for type d -> uc_valid (set_snd_device type d u).
Proof. unfold set_snd_device, uc_valid, device_for. destruct (type =? _), u; cbn; tauto. Qed.

(** Use case by use case, a change of the devices keeps the list well-formed. *)
Lemma list_ok_fmap f l :
  (forall u, u ∈ l -> uc_ptr (f u) = uc_ptr u /\ uc_id (f u) = uc_id u /\ (uc_valid u -> uc_valid (f u))) ->
  list_ok l -> list_ok (f <$> l).
Proof.
  intros Hf (Hp & Hi & Hv & Hl). unfold list_ok.
  assert (uc_ptr <$> (f <$> l) = uc_ptr <$> l) as ->.
  { rewrite <-list_fmap_compose. apply list_fmap_ext. intros i u Hu. apply Hf. by eapply list_elem_of_lookup_2. }
  assert (uc_id <$> (f <$> l) = uc_id <$> l) as ->.
  { rewrite <-list_fmap_compose. apply list_fmap_ext. intros i u Hu. apply Hf. by eapply list_elem_of_lookup_2. }
  split_and!; [done|done| |unfold zlength in *; by rewrite length_fmap].
  rewrite Forall_forall in Hv |- *. intros v (u & -> & Hu)%list_elem_of_fmap. apply Hf; auto.
Qed.

Lemma find_ptr_elem l u : NoDup (uc_ptr <$> l) -> u ∈ l -> find_ptr (uc_ptr u) l = Some u.
Proof.
  induction l as [|v l IH]; [by intros _ ?%elem_of_nil|]. rewrite fmap_cons, NoDup_cons. intros [Hv Hnd].
  unfold find_ptr. cbn [find]. rewrite elem_of_cons. intros [->|Hu]; [by rewrite Nat.eqb_refl|].
  destruct (Nat.eqb_spec (uc_ptr v) (uc_ptr u)) as [E|_]; [|by apply IH].
  exfalso. apply Hv. rewrite E. by apply list_elem_of_fmap_2.
Qed.

(** The counts cover the use cases other than [p], and [e] on top. *)
Definition counted (p : nat) (e : Z -> Z) (s : AudioSt) : Prop :=
  list_ok (usecase_list s) /\ (forall d, 0 <= e d <= 4) /\ e SND_DEVICE_NONE = 0 /\
  refs_are s (fun d => demand (others p (usecase_list s)) d + e d).

Lemma demand_none l : demand l SND_DEVICE_NONE = 0.
Proof.
  induction l as [|u l IH]; [done|]. cbn [demand foldr]. fold (demand l SND_DEVICE_NONE). rewrite IH.
  assert (forall x, cnt x SND_DEVICE_NONE = 0) as Hc.
  { intros x. unfold cnt, eq1. destruct (Z.eqb_spec x SND_DEVICE_NONE); [done|].
    destruct (x =? _); [done|]. by rewrite (proj2 (Z.eqb_neq _ _)) by congruence. }
  unfold use1. rewrite !Hc. done.
Qed.
Lemma demand_small p l d : zlength l <= AUDIO_USECASE_MAX -> 0 <= demand (others p l) d <= 12.
Proof.
  intros Hl. pose proof (others_ge p l d). pose proof (demand_bounds l d). pose proof (demand_bounds (others p l) d).
  unfold AUDIO_USECASE_MAX in Hl. lia.
Qed.

Section route.
Context `{API : AudioApi} `{HW : AudioHw} `{MEM : Memory}.

Lemma the_uc_spec p s u : find_ptr p (usecase_list s) = Some u -> the_uc p s = Done u s.
Proof. intros Hf. unfold the_uc, bind, gets. cbn [obind]. unfold find_ptr in Hf. by rewrite Hf. Qed.
Lemma set_uc_spec p f s : set_uc p f s = Done tt (s<|usecase_list := at_ptr p f (usecase_list s)|>).
Proof. by destruct s. Qed.

(** One use case moves to [d]. *)
Lemma switch_one_spec p type d ids q u e s :
  counted p e s -> find_ptr q (usecase_list s) = Some u -> device_for type d -> d <> SND_DEVICE_NONE ->
  (q = p -> uc_id u ∉ ids) ->
  exists s', switch_one type d ids q s = Done tt s' /\ counted p e s' /\ routes_only s s' /\
    session s' = session s /\
    usecase_list s' = if bool_decide (uc_id u ∈ ids) then at_ptr q (set_snd_device type d) (usecase_list s)
                      else usecase_list s.
Proof.
  intros (Hok & He & Hen & Hr) Hf Hd Hdn Hqp. unfold switch_one. rewrite (bind_runs _ _ _ _ _ (the_uc_spec _ _ _ Hf)).
  destruct (bool_decide_reflect (uc_id u ∈ ids)) as [Hin|Hin]; cycle 1.
  { exists s. split_and!; [done|done|apply routes_only_refl|done|done]. }
  assert (q <> p) as Hne by (intros ->; by apply Hqp). pose proof Hok as (Hnp & Hni & Hv & Hlen).
  destruct (find_ptr_Some _ _ _ Hf) as [Hup Hul]. rewrite Forall_forall in Hv. destruct (Hv u Hul) as [Hvo Hvi].
  assert (find_ptr q (others p (usecase_list s)) = Some u) as Hfo by (by rewrite find_others by done).
  pose proof (others_NoDup p _ Hnp) as Hndo. set (o := others p (usecase_list s)) in *.
  pose proof (device_for_valid _ _ Hd) as Hd'.
  assert (valid_device (snd_device_of type u)) as Hvx
    by (unfold snd_device_of; destruct (type =? _); [by apply sound_out_valid|by apply sound_in_valid]).
  destruct (disable_spec (uc_mixer_list u) (snd_device_of type u) s _ Hr Hvx) as (r1 & s1 & H1 & Hc1 & Hr1).
  { by rewrite Forall_forall. }
  { intros x. rewrite (demand_split o q u x Hndo Hfo). pose proof (demand_bounds (others q o) x). specialize (He x).
    unfold use1, snd_device_of. pose proof (cnt_bounds (uc_out u) x). pose proof (cnt_bounds (uc_in u) x).
    destruct (type =? _); lia. }
  { cbn beta. rewrite demand_none. lia. }
  rewrite (bind_runs _ _ _ _ _ H1).
  destruct (enable_spec (uc_mixer_list u) d s1 _ Hr1) as (s2 & H2 & Hc2 & Hr2); [|exact Hd'|done|].
  { intros x. pose proof (demand_small p (usecase_list s) x Hlen) as Hds. specialize (He x).
    change (others p (usecase_list s)) with o in Hds.
    pose proof (cnt_bounds (snd_device_of type u) x). rewrite (demand_split o q u x Hndo Hfo) in Hds |- *.
    pose proof (demand_bounds (others q o) x). unfold use1, snd_device_of in *.
    pose proof (cnt_bounds (uc_out u) x). pose proof (cnt_bounds (uc_in u) x). destruct (type =? _); lia. }
  rewrite (bind_runs _ _ _ _ _ H2), set_uc_spec.
  pose proof (counts_only_trans _ _ _ Hc1 Hc2) as Hc. clear Hc1 Hc2 H1 H2 Hr1.
  assert (usecase_list s2 = usecase_list s /\ session s2 = session s) as [Hul2 Hse2] by (by rewrite Hc).
  eexists. split; [reflexivity|]. rewrite Hul2. split_and!.
  - split_and!; [|done|done|].
    + cbn. apply list_ok_fmap; [|done]. intros v _. destruct (_ =? q)%nat; [|done].
      destruct (set_snd_device_fields type d v) as (-> & -> & _). split_and!; [done..|].
      intros. by apply set_valid.
    + eapply (refs_are_ext (set_field usecase_list _ s2)); [|exact Hr2]. intros x _. cbn beta.
      change (usecase_list (set_field usecase_list _ s2)) with (at_ptr q (set_snd_device type d) (usecase_list s)).
      rewrite others_at_ptr by (intros v; apply set_snd_device_fields). fold o.
      rewrite (demand_at_ptr o q u) by done. rewrite use1_set. lia.
  - eapply routes_only_trans; [apply counts_routes, Hc|]. by destruct s2.
  - done.
  - done.
Qed.

(** ** [check_and_route_usecases] *)
Definition moved (type d : Z) (ids : list Z) (u : audio_usecase) : audio_usecase :=
  if bool_decide (uc_id u ∈ ids) then set_snd_device type d u else u.
Lemma moved_ptr type d ids u : uc_ptr (moved type d ids u) = uc_ptr u.
Proof. unfold moved. destruct (bool_decide _); [apply set_snd_device_fields|done]. Qed.

Lemma at_ptr_mid (f : audio_usecase -> audio_usecase) l u k :
  NoDup (uc_ptr <$> (l ++ u :: k)) -> at_ptr (uc_ptr u) f (l ++ u :: k) = l ++ f u :: k.
Proof.
  rewrite fmap_app, fmap_cons. intros (Hl & Hd & Hu)%NoDup_app. unfold at_ptr. rewrite fmap_app, fmap_cons, Nat.eqb_refl.
  apply NoDup_cons in Hu as [Hu _]. fold (at_ptr (uc_ptr u) f l) (at_ptr (uc_ptr u) f k).
  rewrite !at_ptr_notin; [done|done|]. intros Hin. apply (Hd _ Hin). by left.
Qed.

Lemma route_loop p type d ids e : device_for type d -> d <> SND_DEVICE_NONE -> forall todo dn s,
  usecase_list s = (moved type d ids <$> dn) ++ todo -> counted p e s ->
  (forall u, u ∈ todo -> uc_ptr u = p -> uc_id u ∉ ids) ->
  exists s', for_each (uc_ptr <$> todo) (switch_one type d ids) s = Done tt s' /\ counted p e s' /\
    routes_only s s' /\ session s' = session s /\ usecase_list s' = moved type d ids <$> (dn ++ todo).
Proof.
  intros Hd Hdn. induction todo as [|u todo IH]; intros dn s Hl Hc Hp.
  { exists s. split_and!; [done|done|apply routes_only_refl|done|]. by rewrite Hl, !app_nil_r. }
  rewrite fmap_cons. cbn [for_each].
  assert (NoDup (uc_ptr <$> usecase_list s)) as Hnd by apply Hc.
  assert (u ∈ usecase_list s) as Hu by (rewrite Hl; apply elem_of_app; right; by left).
  destruct (switch_one_spec p type d ids (uc_ptr u) u e s Hc (find_ptr_elem _ _ Hnd Hu) Hd Hdn)
    as (s1 & H1 & Hc1 & Hr1 & Hse1 & Hl1); [intros; apply Hp; [by left|done]|].
  rewrite (bind_runs _ _ _ _ _ H1).
  destruct (IH (dn ++ [u]) s1) as (s2 & H2 & Hc2 & Hr2 & Hse2 & Hl2).
  - rewrite Hl1, Hl, fmap_app, <-app_assoc. cbn [fmap list_fmap app].
    replace (moved type d ids u) with (if bool_decide (uc_id u ∈ ids) then set_snd_device type d u else u) by done.
    destruct (bool_decide _); [|done]. rewrite at_ptr_mid by (by rewrite <-Hl). done.
  - done.
  - intros v Hv. apply Hp. by right.
  - exists s2. split_and!; [done|done|by eapply routes_only_trans|congruence|].
    rewrite Hl2, <-app_assoc. done.
Qed.

Lemma check_and_route_spec p type d e s :
  counted p e s -> device_for type d -> d <> SND_DEVICE_NONE ->
  exists s', check_and_route_usecases p type d s = Done tt s' /\ counted p e s' /\ routes_only s s' /\
    session s' = session s /\ usecase_list s' = reroute p type d <$> usecase_list s.
Proof.
  intros Hc Hd Hdn. unfold check_and_route_usecases. unfold bind, gets. cbn [obind].
  set (l := usecase_list s). assert (list_ok l) as (Hnp & Hni & _) by apply Hc.
  assert (forall u v, u ∈ l -> v ∈ l -> uc_id u = uc_id v -> u = v) as Hinj.
  { intros u v Hu Hv. apply list_elem_of_lookup in Hu as [i Hi], Hv as [j Hj]. intros E.
    assert (i = j) as -> by (eapply (NoDup_lookup (uc_id <$> l)); [done|by rewrite list_lookup_fmap, Hi|
      rewrite list_lookup_fmap, Hj; cbn; by rewrite E]). congruence. }
  assert (forall u, u ∈ l -> (uc_id u ∈ to_switch p type d l <->
    ((uc_type u =? type) && negb (uc_ptr u =? p)%nat && negb (snd_device_of type u =? d) = true)%bool)) as Hids.
  { intros u Hu. unfold to_switch. rewrite list_elem_of_fmap. split.
    - intros (v & E & Hv). apply list_elem_of_In, filter_In in Hv as [Hv Hcond]. apply list_elem_of_In in Hv.
      by rewrite (Hinj u v).
    - intros Hcond. exists u. split; [done|]. by apply list_elem_of_In, filter_In; split; [apply list_elem_of_In|]. }
  destruct (route_loop p type d (to_switch p type d l) e Hd Hdn l [] s) as (s' & Hs' & Hc' & Hr' & Hse & Hl'); [done|done| |].
  { intros u Hu Hup. rewrite Hids by done. rewrite Hup, Nat.eqb_refl. cbn [negb]. by rewrite andb_false_r. }
  exists s'. split_and!; [done..|]. rewrite Hl'. cbn [app]. apply list_fmap_ext. intros i u Hi.
  apply list_elem_of_lookup_2 in Hi. unfold moved, reroute. destruct (bool_decide_reflect (uc_id u ∈ to_switch p type d l)) as [Hin|Hin].
  - apply Hids in Hin; [|done]. apply andb_prop in Hin as [-> _]. done.
  - rewrite Hids in Hin by done. destruct ((uc_type u =? type) && negb (uc_ptr u =? p)%nat)%bool; [|done].
    cbn [andb] in Hin. destruct (Z.eqb_spec (snd_device_of type u) d) as [<-|]; [by rewrite set_snd_device_id|done].
Qed.

(** ** [apply_devices] *)
Definition refs_ok (s : AudioSt) : Prop :=
  list_ok (usecase_list s) /\ refs_are s (demand (usecase_list s)).

Lemma find_ptr_fmap p f l :
  (forall u, uc_ptr (f u) = uc_ptr u) -> find_ptr p (f <$> l) = f <$> find_ptr p l.
Proof.
  intros Hf. unfold find_ptr. induction l as [|u l IH]; [done|]. rewrite fmap_cons. cbn [find]. rewrite Hf.
  by destruct (uc_ptr u =? p)%nat.
Qed.
Lemma reroute_ptr p type d u : uc_ptr (reroute p type d u) = uc_ptr u.
Proof. unfold reroute. destruct (_ && _)%bool; [apply set_snd_device_fields|done]. Qed.
Lemma reroute_self p type d u : uc_ptr u = p -> reroute p type d u = u.
Proof. intros Hp. unfold reroute. by rewrite Hp, Nat.eqb_refl, andb_false_r. Qed.
Lemma find_reroute_all p type d l u :
  find_ptr p l = Some u -> find_ptr p (reroute_all p type d l) = Some u.
Proof.
  intros Hf. unfold reroute_all. destruct (d =? _); [done|]. rewrite find_ptr_fmap by (intros; apply reroute_ptr).
  rewrite Hf. cbn. by rewrite reroute_self by (by apply find_ptr_Some in Hf as [? _]).
Qed.

Lemma tell_log e s : exists l, tell e s = Done tt s<|hw_log := l|>.
Proof. by eexists. Qed.

(** Disabling the device of a use case, unless it has none. *)
Lemma disable_if_spec cards x s f :
  refs_are s f -> valid_device x -> Forall uc_valid (usecase_list s) -> (forall d, cnt x d <= f d) ->
  f SND_DEVICE_NONE = 0 ->
  exists s', (if negb (x =? SND_DEVICE_NONE) then let* _r := disable_snd_device cards x in ret tt else ret tt) s
             = Done tt s' /\ counts_only s s' /\ refs_are s' (fun d => f d - cnt x d).
Proof.
  intros Hr Hx Hv Hf Hn. destruct (Z.eqb_spec x SND_DEVICE_NONE) as [->|Hne]; cbn [negb].
  - exists s. split; [done|]. split; [apply counts_only_refl|]. eapply refs_are_ext; [|exact Hr]. intros. cbn. lia.
  - destruct (disable_spec cards x s f Hr Hx Hv Hf Hn) as (r & s' & Hd & Hc & Hr').
    exists s'. rewrite (bind_runs _ _ _ _ _ Hd). done.
Qed.

(** Enabling the device of a use case after the others followed. *)
Lemma enable_if_spec cards p type x e s (pre : A unit) :
  counted p e s -> (forall d, e d <= 2) -> device_for type x ->
  (forall s, exists s', pre s = Done tt s' /\ counts_only s s' /\ snd_dev_ref_cnt s' = snd_dev_ref_cnt s) ->
  exists s', (if negb (x =? SND_DEVICE_NONE) then
                pre ;;;
                check_and_route_usecases p type x ;;;
                let* _r := enable_snd_device cards x in ret tt
              else ret tt) s = Done tt s' /\
    counted p (fun d => e d + cnt x d) s' /\ routes_only s s' /\ session s' = session s /\
    usecase_list s' = reroute_all p type x (usecase_list s).
Proof.
  intros Hc He Hx Hpre. unfold reroute_all. destruct (Z.eqb_spec x SND_DEVICE_NONE) as [->|Hne]; cbn [negb].
  { exists s. split_and!; [done| |apply routes_only_refl|done|done]. destruct Hc as (? & He0 & Hen & Hr).
    split_and!; [done|intros d; specialize (He0 d); cbn; lia|by rewrite Hen|]. eapply refs_are_ext; [|exact Hr]. intros. cbn. lia. }
  destruct (Hpre s) as (s0 & H0 & Hc0 & Href0). rewrite (bind_runs _ _ _ _ _ H0).
  assert (counted p e s0) as Hcnt0.
  { destruct Hc as (Hok & He0 & Hen & Hr). assert (usecase_list s0 = usecase_list s) as Hul by (by rewrite Hc0).
    unfold counted. rewrite Hul. split_and!; [done..|]. unfold refs_are. by rewrite Href0. }
  destruct (check_and_route_spec p type x e s0 Hcnt0 Hx Hne) as (s1 & H1 & Hc1 & Hr1 & Hse1 & Hl1).
  rewrite (bind_runs _ _ _ _ _ H1). destruct Hc1 as (Hok1 & He1 & Hen1 & Href1).
  destruct (enable_spec cards x s1 _ Href1) as (s2 & H2 & Hc2 & Hr2); [|by eapply device_for_valid|done|].
  { intros d. pose proof (demand_small p (usecase_list s1) d ltac:(apply Hok1)). specialize (He1 d). lia. }
  rewrite (bind_runs _ _ _ _ _ H2). assert (usecase_list s2 = usecase_list s1 /\ session s2 = session s1) as [Hl2 Hs2] by (by rewrite Hc2).
  assert (usecase_list s0 = usecase_list s /\ session s0 = session s) as [Hl0 Hs0] by (by rewrite Hc0).
  exists s2. split_and!; [done| | |congruence|congruence].
  - unfold counted. rewrite Hl2. split_and!; [done| | |].
    + intros d. specialize (He d). specialize (He1 d). pose proof (cnt_bounds x d). lia.
    + rewrite Hen1. unfold cnt, eq1. rewrite (proj2 (Z.eqb_neq _ _)) by done. destruct (x =? _); [done|].
      by rewrite (proj2 (Z.eqb_neq _ _)) by congruence.
    + eapply refs_are_ext; [|exact Hr2]. intros. cbn beta. lia.
  - eapply routes_only_trans; [by apply counts_routes|]. eapply routes_only_trans; [exact Hr1|]. by apply counts_routes.
Qed.

Lemma update_path_log s :
  exists s', update_audio_path s = Done tt s' /\ counts_only s s' /\ snd_dev_ref_cnt s' = snd_dev_ref_cnt s.
Proof.
  unfold update_audio_path. unfold bind at 1, gets. cbn [obind].
  destruct (in_call s); [|exists s; split_and!; [done|apply counts_only_refl|done]].
  unfold set_voice_session_audio_path, bind, gets. cbn [obind]. eexists. split; [reflexivity|]. by destruct s.
Qed.
Lemma amp_set_log d s :
  (exists s', amplifier_set_input_devices d s = Done tt s' /\ exists e, s' = s<|hw_log := e|>) /\
  (exists s', amplifier_set_output_devices d s = Done tt s' /\ exists e, s' = s<|hw_log := e|>).
Proof.
  unfold amplifier_set_input_devices, amplifier_set_output_devices, bind, gets. cbn [obind].
  destruct (amp s); split; eexists; (split; [reflexivity|]); first [by eexists|exists (hw_log s); by destruct s].
Qed.


Lemma apply_devices_spec p u out inp s :
  refs_ok s -> find_ptr p (usecase_list s) = Some u -> sound_out out -> sound_in inp ->
  exists s', apply_devices p out inp s = Done 0 s' /\ refs_ok s' /\ routes_only s s' /\ session s' = session s /\
    usecase_list s' = if ((out =? uc_out u) && (inp =? uc_in u))%bool then usecase_list s
                      else routed p out inp (usecase_list s).
Proof.
  intros [Hok Hr] Hf Ho Hi. unfold apply_devices. rewrite (bind_runs _ _ _ _ _ (the_uc_spec _ _ _ Hf)).
  destruct (_ && _)%bool; [exists s; split_and!; [done|done|apply routes_only_refl|done|done]|].
  pose proof Hok as (Hnp & Hni & Hv & Hlen). destruct (find_ptr_Some _ _ _ Hf) as [Hup Hul].
  assert (uc_valid u) as [Hvo Hvi] by (rewrite Forall_forall in Hv; by apply Hv).
  assert (forall d, demand (usecase_list s) d = use1 u d + demand (others p (usecase_list s)) d) as Hsplit
    by (intros; by apply demand_split).
  destruct (disable_if_spec (uc_mixer_list u) (uc_out u) s _ Hr (sound_out_valid _ Hvo) Hv) as (s1 & H1 & Hc1 & Hr1);
    [|by rewrite demand_none|].
  { intros d. rewrite Hsplit. unfold use1. pose proof (cnt_bounds (uc_in u) d).
    pose proof (demand_bounds (others p (usecase_list s)) d). lia. }
  rewrite (bind_runs _ _ _ _ _ H1). assert (usecase_list s1 = usecase_list s) as Hl1 by (by rewrite Hc1).
  destruct (disable_if_spec (uc_mixer_list u) (uc_in u) s1 _ Hr1 (sound_in_valid _ Hvi)) as (s2 & H2 & Hc2 & Hr2); [by rewrite Hl1| | |].
  { intros d. cbn beta. rewrite Hsplit. unfold use1. pose proof (demand_bounds (others p (usecase_list s)) d). lia. }
  { cbn beta. rewrite demand_none. unfold cnt, eq1. destruct (Z.eqb_spec (uc_out u) SND_DEVICE_NONE); [done|].
    destruct (_ =? SND_DEVICE_OUT_SPEAKER_AND_HEADPHONES); [done|]. by rewrite (proj2 (Z.eqb_neq _ _)) by congruence. }
  rewrite (bind_runs _ _ _ _ _ H2). pose proof (counts_only_trans _ _ _ Hc1 Hc2) as Hc12.
  assert (usecase_list s2 = usecase_list s /\ session s2 = session s) as [Hl2 Hs2] by (by rewrite Hc12).
  assert (counted p (fun _ => 0) s2) as Hcnt2.
  { unfold counted. rewrite Hl2. split_and!; [done|lia|done|]. eapply refs_are_ext; [|exact Hr2].
    intros d _. cbn beta. rewrite Hsplit. unfold use1. lia. }
  destruct (enable_if_spec (uc_mixer_list u) p PCM_PLAYBACK out _ s2 update_audio_path Hcnt2) as (s3 & H3 & Hcnt3 & Hr3 & Hs3 & Hl3);
    [lia|done|apply update_path_log|]. rewrite (bind_runs _ _ _ _ _ H3).
  destruct (enable_if_spec (uc_mixer_list u) p PCM_CAPTURE inp _ s3 (ret tt) Hcnt3) as (s4 & H4 & Hcnt4 & Hr4 & Hs4 & Hl4);
    [intros d; pose proof (cnt_bounds out d); lia|done|intros s0; exists s0; split_and!; [done|apply counts_only_refl|done]|].
  change (bind (ret tt) ?f) with (f tt) in H4. cbn beta in H4. rewrite (bind_runs _ _ _ _ _ H4).
  unfold bind at 1. rewrite set_uc_spec. cbn [obind].
  set (g := fun v : audio_usecase => v<|uc_in := inp|><|uc_out := out|>).
  set (s5 := set_field usecase_list _ s4).
  assert (usecase_list s4 = reroute_all p PCM_CAPTURE inp (reroute_all p PCM_PLAYBACK out (usecase_list s))) as Hl by congruence.
  assert (find_ptr p (usecase_list s4) = Some u) as Hf4 by (rewrite Hl; by do 2 apply find_reroute_all).
  destruct Hcnt4 as (Hok4 & _ & _ & Href4).
  assert (refs_ok s5) as Hok5.
  { split.
    - apply list_ok_fmap; [|done]. intros v _. destruct (_ =? p)%nat; [|done]. split_and!; [done..|]. intros _. by split.
    - eapply (refs_are_ext s5); [|exact Href4]. intros d _. cbn beta.
      change (usecase_list s5) with (at_ptr p g (usecase_list s4)).
      rewrite (demand_at_ptr _ p u) by (done || apply Hok4). rewrite (demand_split (usecase_list s4) p u) by (done || apply Hok4).
      change (use1 (g u) d) with (cnt out d + cnt inp d). lia. }
  assert (routes_only s s5) as Hfr.
  { eapply routes_only_trans; [by apply counts_routes|]. eapply routes_only_trans; [exact Hr3|].
    eapply routes_only_trans; [exact Hr4|]. by destruct s4. }
  assert (session s5 = session s /\ usecase_list s5 = routed p out inp (usecase_list s)) as [Hs5 Hl5].
  { split; [cbn; congruence|]. unfold routed. rewrite <-Hl. done. }
  clearbody s5. destruct (amp_set_log inp s5) as [(s6 & H6 & e6 & ->) _]. rewrite (bind_runs _ _ _ _ _ H6).
  destruct (amp_set_log out (s5<|hw_log := e6|>)) as [_ (s7 & H7 & e7 & ->)]. rewrite (bind_runs _ _ _ _ _ H7).
  eexists. split; [reflexivity|]. split_and!; [done| |done|done].
  eapply routes_only_trans; [exact Hfr|]. by destruct s5.
Qed.
End route.
