(* ===== verification/AudioSelect.v ===== *)
(** * Selection of devices keeps the routing consistent

    The invariant of the whole device, [routing_ok], and the theorems about
    [select_devices]: it returns, whatever the memory of an output stream looks like when it
    is read as an input stream, and keeps the invariant. *)
From S2P Require Import Prelude Machine AudioTypes AudioVoice AudioRoute AudioRouteInv.

(** ** The invariant *)

(** All use cases of a type that have a device have the same one. *)
Definition one_backend (l : list audio_usecase) : Prop :=
  forall type u v, (type = PCM_PLAYBACK \/ type = PCM_CAPTURE) -> u ∈ l -> v ∈ l ->
    uc_type u = type -> uc_type v = type ->
    snd_device_of type u <> SND_DEVICE_NONE -> snd_device_of type v <> SND_DEVICE_NONE ->
    snd_device_of type u = snd_device_of type v.

(** A use case belongs to a stream that exists, the call to the primary output, and has
    devices of its kind. *)
Definition uc_wf (s : AudioSt) (u : audio_usecase) : Prop :=
  (uc_type u = PCM_PLAYBACK /\ uc_in u = SND_DEVICE_NONE /\ uc_id u <> USECASE_VOICE_CALL /\
     exists k o, uc_stream u = OutStream k /\ outs s !! k = Some o /\ out_usecase o = uc_id u) \/
  (uc_type u = PCM_CAPTURE /\ uc_out u = SND_DEVICE_NONE /\ uc_id u <> USECASE_VOICE_CALL /\
     exists k i, uc_stream u = InStream k /\ ins s !! k = Some i /\ in_usecase i = uc_id u) \/
  (uc_type u = VOICE_CALL /\ uc_id u = USECASE_VOICE_CALL /\ in_call s = true /\
     exists k o, uc_stream u = OutStream k /\ outs s !! k = Some o /\ primary_output s = Some k).

Record routing_core (s : AudioSt) : Prop := {
  ok_refs : refs_ok s;
  ok_backend : one_backend (usecase_list s);
  ok_ucs : Forall (uc_wf s) (usecase_list s);
  ok_primary : forall k, primary_output s = Some k -> is_Some (outs s !! k)
}.
(** While there is a call, its use case is there and has its two devices. *)
Definition on_air (u : audio_usecase) : Prop :=
  uc_id u = USECASE_VOICE_CALL /\ uc_out u <> SND_DEVICE_NONE /\ uc_in u <> SND_DEVICE_NONE.
Definition call_ready (s : AudioSt) : Prop := in_call s = true -> exists u, u ∈ usecase_list s /\ on_air u.
Definition routing_ok (s : AudioSt) : Prop := routing_core s /\ call_ready s.

(** ** Routing, use case by use case *)
Definition routed1 (p : nat) (out inp : Z) (u : audio_usecase) : audio_usecase :=
  if (uc_ptr u =? p)%nat then u<|uc_in := inp|><|uc_out := out|>
  else if ((uc_type u =? PCM_PLAYBACK) && negb (out =? SND_DEVICE_NONE))%bool then u<|uc_out := out|>
  else if ((uc_type u =? PCM_CAPTURE) && negb (inp =? SND_DEVICE_NONE))%bool then u<|uc_in := inp|>
  else u.

Lemma routed_fmap p out inp l : routed p out inp l = routed1 p out inp <$> l.
Proof.
  assert (forall type d k, reroute_all p type d k =
    (fun u => if (negb (d =? SND_DEVICE_NONE)) then reroute p type d u else u) <$> k) as Hre.
  { intros type d k. unfold reroute_all. destruct (d =? _); cbn [negb]; [by rewrite list_fmap_id|done]. }
  unfold routed, at_ptr. rewrite !Hre, <-!list_fmap_compose. apply list_fmap_ext. intros _ u _. unfold compose, routed1.
  destruct (Nat.eqb_spec (uc_ptr u) p) as [Hp|Hp].
  { assert (forall type d, (if negb (d =? SND_DEVICE_NONE) then reroute p type d u else u) = u) as Hid
      by (intros; rewrite reroute_self by done; by destruct (negb _)).
    by rewrite !Hid, Hp, Nat.eqb_refl. }
  unfold reroute.
  destruct u as [ptr id type dev o i st mx]. cbn [uc_type uc_ptr] in *. rewrite (proj2 (Nat.eqb_neq _ _) Hp). cbn [negb].
  rewrite !andb_true_r. unfold set_snd_device. change (PCM_PLAYBACK =? PCM_PLAYBACK) with true. change (PCM_CAPTURE =? PCM_PLAYBACK) with false.
  destruct (Z.eqb_spec type PCM_PLAYBACK) as [->|Ht].
  - change (PCM_PLAYBACK =? PCM_CAPTURE) with false.
    destruct (out =? _), (inp =? _); cbn; rewrite ?(proj2 (Nat.eqb_neq _ _) Hp); done.
  - destruct (out =? _), (inp =? _); cbn; rewrite ?(proj2 (Nat.eqb_neq _ _) Hp); cbn; rewrite ?andb_true_r; cbn;
      destruct (type =? PCM_CAPTURE); cbn; rewrite ?(proj2 (Nat.eqb_neq _ _) Hp); done.
Qed.

Lemma routed1_same p out inp u : same_uc u (routed1 p out inp u).
Proof. unfold routed1. repeat case_match; done. Qed.

Lemma one_backend_routed p out inp l : one_backend l -> one_backend (routed p out inp l).
Proof.
  intros Hob. rewrite routed_fmap. intros type u v Ht (u0 & -> & Hu)%list_elem_of_fmap (v0 & -> & Hv)%list_elem_of_fmap.
  destruct (routed1_same p out inp u0) as (_ & _ & -> & _), (routed1_same p out inp v0) as (_ & _ & -> & _).
  intros Hut Hvt. specialize (Hob type u0 v0 Ht Hu Hv Hut Hvt). unfold routed1. rewrite Hut, Hvt.
  destruct Ht as [-> | ->]; unfold snd_device_of in *; cbn [Z.eqb PCM_PLAYBACK PCM_CAPTURE] in *;
    change (PCM_PLAYBACK =? PCM_PLAYBACK) with true in *; change (PCM_CAPTURE =? PCM_PLAYBACK) with false in *;
    change (PCM_PLAYBACK =? PCM_CAPTURE) with false; change (PCM_CAPTURE =? PCM_CAPTURE) with true; cbn [andb].
  - destruct (Z.eqb_spec out SND_DEVICE_NONE) as [->|]; cbn [negb];
      destruct (uc_ptr u0 =? p)%nat, (uc_ptr v0 =? p)%nat; cbn; auto; try done.
  - destruct (Z.eqb_spec inp SND_DEVICE_NONE) as [->|]; cbn [negb];
      destruct (uc_ptr u0 =? p)%nat, (uc_ptr v0 =? p)%nat; cbn; auto; try done.
Qed.

(** ** The devices that can be chosen *)
Section select.
Context `{API : AudioApi} `{HW : AudioHw} `{MEM : Memory}.

Lemma output_valid s d : sound_out (get_output_snd_device s d).
Proof.
  unfold get_output_snd_device, voice_output, media_output.
  repeat (case_match; try (unfold sound_out; cbn; done)).
Qed.
(** Each leaf of a choice is a constant. *)
Ltac input_leaf := first [by left|right; split; vm_compute; congruence].
Lemma voice_input_valid wb two d : sound_in (voice_input wb two d).
Proof. unfold voice_input. cbv zeta. destruct (has d AUDIO_DEVICE_OUT_ALL_SCO); [destruct wb; input_leaf|].
  destruct wb, two, (has d AUDIO_DEVICE_OUT_WIRED_HEADSET), (has d AUDIO_DEVICE_OUT_EARPIECE || has d AUDIO_DEVICE_OUT_WIRED_HEADPHONE)%bool,
    (has d AUDIO_DEVICE_OUT_SPEAKER); input_leaf.
Qed.
Lemma source_input_valid i source dev out : sound_in (source_input i source dev out).1.
Proof. unfold source_input. cbv zeta. repeat case_match; input_leaf. Qed.
Lemma default_input_valid dev out : sound_in (default_input dev out).
Proof. unfold default_input. destruct (_ && _)%bool; repeat case_match; input_leaf. Qed.
Lemma input_valid s i d : sound_in (input_device s i d).
Proof.
  unfold input_device. cbv zeta. destruct (mode s =? _).
  - destruct (d =? _); [by left|apply voice_input_valid].
  - destruct (_ && _)%bool; [by left|]. destruct (negb _); [apply source_input_valid|apply default_input_valid].
Qed.

(** The devices [apply_devices] may give to a use case. *)
Definition devices_for (u : audio_usecase) (out inp : Z) : Prop :=
  sound_out out /\ sound_in inp /\
  (uc_type u = PCM_PLAYBACK -> inp = SND_DEVICE_NONE) /\ (uc_type u = PCM_CAPTURE -> out = SND_DEVICE_NONE) /\
  (uc_type u = VOICE_CALL -> out <> SND_DEVICE_NONE /\ inp <> SND_DEVICE_NONE).

Lemma uc_wf_routed s s' p out inp u :
  routes_only s s' -> uc_wf s u -> (uc_ptr u = p -> devices_for u out inp) -> uc_wf s' (routed1 p out inp u).
Proof.
  intros Hfr Hwf Hd. assert (outs s' = outs s /\ ins s' = ins s /\ in_call s' = in_call s /\ primary_output s' = primary_output s)
    as (Ho & Hi & Hc & Hpr) by (by rewrite Hfr).
  unfold uc_wf in *. rewrite Ho, Hi, Hc, Hpr. unfold routed1. destruct (Nat.eqb_spec (uc_ptr u) p) as [Hp|_].
  - destruct (Hd Hp) as (_ & _ & H1 & H2 & H3). destruct u; cbn in *. naive_solver.
  - destruct Hwf as [(E & Hwf) | [(E & Hwf) | (E & Hwf)]]; rewrite E; cbn [Z.eqb].
    + change (PCM_PLAYBACK =? PCM_PLAYBACK) with true. change (PCM_PLAYBACK =? PCM_CAPTURE) with false. cbn [andb].
      destruct (negb _); left; destruct u; cbn in *; naive_solver.
    + change (PCM_CAPTURE =? PCM_PLAYBACK) with false. change (PCM_CAPTURE =? PCM_CAPTURE) with true. cbn [andb].
      destruct (negb _); right; left; destruct u; cbn in *; naive_solver.
    + change (VOICE_CALL =? PCM_PLAYBACK) with false. change (VOICE_CALL =? PCM_CAPTURE) with false. cbn [andb].
      right; right; destruct u; cbn in *; naive_solver.
Qed.

(** A use case that is [on_air] stays so. *)
Lemma on_air_routed s p out inp u :
  uc_wf s u -> (uc_ptr u = p -> devices_for u out inp) -> on_air u -> on_air (routed1 p out inp u).
Proof.
  intros Hwf Hd (Hid & Ho & Hi). assert (uc_type u = VOICE_CALL) as Ht by (unfold uc_wf in Hwf; naive_solver).
  unfold routed1. destruct (Nat.eqb_spec (uc_ptr u) p) as [Hp|_].
  - destruct (Hd Hp) as (_ & _ & _ & _ & Hv). destruct (Hv Ht). by destruct u.
  - rewrite Ht. by change (VOICE_CALL =? PCM_PLAYBACK) with false.
Qed.

(** A change of the list that keeps what [routing_core] is about. *)
Lemma routing_core_list s s' f :
  routing_core s -> routes_only s s' -> usecase_list s' = f <$> usecase_list s -> refs_ok s' ->
  (forall u, u ∈ usecase_list s -> uc_wf s u -> uc_wf s' (f u)) ->
  one_backend (usecase_list s') -> routing_core s'.
Proof.
  intros [Hrf Hob Hu Hp] Hfr Hl Hrf' Hwf Hob'.
  assert (primary_output s' = primary_output s /\ outs s' = outs s) as (E2 & E3) by (by rewrite Hfr).
  split; [done|done| |].
  - rewrite Hl. rewrite Forall_forall in Hu |- *. intros v (u & -> & Hin)%list_elem_of_fmap. auto.
  - rewrite E2, E3. done.
Qed.

(** What an operation of the routing keeps. *)
Definition keeps (s s' : AudioSt) : Prop :=
  routing_core s' /\ routes_only s s' /\ (call_ready s -> call_ready s') /\
  Forall2 same_uc (usecase_list s) (usecase_list s').
Lemma same_uc_refl l : Forall2 same_uc l l.
Proof. induction l; by constructor. Qed.
Lemma same_uc_fmap f l : (forall u, same_uc u (f u)) -> Forall2 same_uc l (f <$> l).
Proof. intros Hf. induction l; by constructor. Qed.
Lemma keeps_refl s : routing_core s -> keeps s s.
Proof. intros Hc. split_and!; [done|apply routes_only_refl|done|apply same_uc_refl]. Qed.
Lemma keeps_trans s1 s2 s3 : keeps s1 s2 -> keeps s2 s3 -> keeps s1 s3.
Proof.
  intros (_ & Hr1 & Hc1 & Hs1) (Hk2 & Hr2 & Hc2 & Hs2). split_and!; [done|by eapply routes_only_trans|auto|].
  revert Hs2. generalize (usecase_list s3). clear -Hs1. induction Hs1 as [|u v l l' Huv _ IH]; intros k Hk; inversion Hk; subst; [done|].
  constructor; [|by apply IH]. revert Huv. match goal with H : same_uc v _ |- _ => revert H end.
  intros (E1 & E2 & E3 & E4 & E5) (F1 & F2 & F3 & F4 & F5). split_and!; congruence.
Qed.
Lemma same_find l l' p u :
  Forall2 same_uc l l' -> find_ptr p l = Some u -> exists v, find_ptr p l' = Some v /\ same_uc u v.
Proof.
  unfold find_ptr. induction 1 as [|a b l l' Hab _ IH]; [done|]. cbn [find]. destruct Hab as (Hp & Hab). rewrite Hp.
  destruct (_ =? p)%nat; [|done]. intros [= ->]. by exists b.
Qed.
Lemma same_in l l' u : Forall2 same_uc l l' -> u ∈ l -> exists v, v ∈ l' /\ same_uc u v.
Proof.
  intros Hs Hu. apply list_elem_of_lookup in Hu as [i Hi]. destruct (Forall2_lookup_l _ _ _ _ _ Hs Hi) as (v & Hv & Hsv).
  exists v. split; [by eapply list_elem_of_lookup_2|done].
Qed.
Lemma call_ready_list s s' f :
  routes_only s s' -> usecase_list s' = f <$> usecase_list s ->
  (forall u, u ∈ usecase_list s -> on_air u -> on_air (f u)) -> call_ready s -> call_ready s'.
Proof.
  intros Hfr Hl Hf Hc Hcall. assert (in_call s' = in_call s) as E by (by rewrite Hfr). rewrite E in Hcall.
  destruct (Hc Hcall) as (u & Hin & Hu). exists (f u). rewrite Hl. split; [by apply list_elem_of_fmap_2|auto].
Qed.

Lemma apply_devices_ok p u out inp s :
  routing_core s -> find_ptr p (usecase_list s) = Some u -> devices_for u out inp ->
  exists s', apply_devices p out inp s = Done 0 s' /\ keeps s s' /\ session s' = session s /\
    (uc_type u = VOICE_CALL -> call_ready s') /\
    find_ptr p (usecase_list s') = Some (u<|uc_in := inp|><|uc_out := out|>).
Proof.
  intros Hok Hf Hd. pose proof Hd as (Hvo & Hvi & _). pose proof (ok_ucs s Hok) as Hwf. rewrite Forall_forall in Hwf.
  destruct (find_ptr_Some _ _ _ Hf) as [Hp Hin].
  destruct (apply_devices_spec p u out inp s (ok_refs s Hok) Hf Hvo Hvi) as (s' & Hs' & Hrf & Hfr & Hse & Hl).
  exists s'. split; [done|]. destruct (_ && _)%bool eqn:Esame.
  - assert (usecase_list s' = id <$> usecase_list s) as Hl' by (by rewrite list_fmap_id). split_and!; [split_and!|done| |].
    + eapply (routing_core_list s s' id); [done|done|done|done| |rewrite Hl; apply Hok].
      intros v _ Hv. unfold uc_wf in *. by rewrite Hfr.
    + done.
    + by eapply (call_ready_list s s' id).
    + rewrite Hl. apply same_uc_refl.
    + intros Ht _. exists u. rewrite Hl. split; [done|]. apply andb_prop in Esame as [->%Z.eqb_eq ->%Z.eqb_eq].
      destruct Hd as (_ & _ & _ & _ & Hv). destruct (Hv Ht). split_and!; [|done|done]. specialize (Hwf u Hin).
      unfold uc_wf in Hwf. by destruct Hwf as [(E & _)|[(E & _)|(_ & ? & _)]]; [rewrite Ht in E..|].
    + rewrite Hl, Hf. apply andb_prop in Esame as [->%Z.eqb_eq ->%Z.eqb_eq]. by destruct u.
  - rewrite routed_fmap in Hl.
    assert (forall v, v ∈ usecase_list s -> uc_ptr v = p -> devices_for v out inp) as Hdv.
    { intros v Hv Hpv. assert (v = u) as ->; [|done]. apply find_ptr_elem in Hv; [|apply Hok]. congruence. }
    split_and!; [split_and!|done| |].
    + eapply (routing_core_list s s'); [done|done|done|done| |].
      * intros v Hv Hw. eapply uc_wf_routed; [done|done|]. by apply Hdv.
      * rewrite Hl, <-routed_fmap. apply one_backend_routed, Hok.
    + done.
    + eapply (call_ready_list s s'); [done|done|]. intros v Hv. by eapply on_air_routed; [apply Hwf|apply Hdv].
    + rewrite Hl. apply same_uc_fmap. apply routed1_same.
    + intros Ht _. exists (routed1 p out inp u). rewrite Hl. split; [by apply list_elem_of_fmap_2|].
      destruct Hd as (_ & _ & _ & _ & Hv). destruct (Hv Ht). specialize (Hwf u Hin). unfold uc_wf in Hwf.
      destruct Hwf as [(E & _)|[(E & _)|(_ & ? & _)]]; [rewrite Ht in E; done..|].
      unfold on_air, routed1. rewrite Hp, Nat.eqb_refl. by destruct u.
    + rewrite Hl, find_ptr_fmap by (intros v; apply (routed1_same p out inp v)). rewrite Hf. cbn [fmap option_fmap option_map].
      unfold routed1. by rewrite Hp, Nat.eqb_refl.
Qed.

(** Recording the requested devices changes nothing else. *)
Lemma set_devices_ok p u d s :
  routing_core s -> find_ptr p (usecase_list s) = Some u ->
  exists s', set_uc p (fun u => u<|uc_devices := d|>) s = Done tt s' /\ keeps s s' /\
    session s' = session s /\ find_ptr p (usecase_list s') = Some (u<|uc_devices := d|>) .
Proof.
  intros Hok Hf. rewrite set_uc_spec. set (g := fun u : audio_usecase => u<|uc_devices := d|>).
  set (s' := set_field usecase_list _ s). exists s'.
  assert (routes_only s s') as Hfr by (by destruct s).
  assert (find_ptr p (usecase_list s') = Some (g u)) as Hf'.
  { change (usecase_list s') with (at_ptr p g (usecase_list s)). unfold at_ptr.
    rewrite find_ptr_fmap by (intros v; by destruct (_ =? p)%nat). rewrite Hf. cbn.
    destruct (find_ptr_Some _ _ _ Hf) as [-> _]. by rewrite Nat.eqb_refl. }
  split_and!; [done| |done|done]. split_and!; [|done| |].
  - eapply (routing_core_list s s' (fun v => if (uc_ptr v =? p)%nat then g v else v)); [done|done|done| | |].
    + destruct (ok_refs s Hok) as [Hlok Hr]. split.
      * apply list_ok_fmap; [|done]. intros v _. by destruct (_ =? p)%nat.
      * eapply (refs_are_ext s'); [|exact Hr]. intros x _. change (usecase_list s') with (at_ptr p g (usecase_list s)).
        rewrite (demand_at_ptr _ p u) by (done || apply Hlok). change (use1 (g u) x) with (use1 u x). lia.
    + intros v _ Hv. unfold uc_wf in *. destruct (_ =? p)%nat; by destruct v, s.
    + change (usecase_list s') with ((fun v => if (uc_ptr v =? p)%nat then g v else v) <$> usecase_list s).
      intros type v w Ht (v0 & -> & Hv)%list_elem_of_fmap (w0 & -> & Hw)%list_elem_of_fmap.
      assert (forall x, uc_type (if (uc_ptr x =? p)%nat then g x else x) = uc_type x /\
                snd_device_of type (if (uc_ptr x =? p)%nat then g x else x) = snd_device_of type x) as Hx
        by (intros x; destruct (_ =? p)%nat; by destruct x).
      destruct (Hx v0) as [-> ->], (Hx w0) as [-> ->]. intros. by apply (ok_backend s Hok type v0 w0).
  - eapply (call_ready_list s s' (fun v => if (uc_ptr v =? p)%nat then g v else v)); [done|reflexivity|].
    intros v _ Hv. destruct (uc_ptr v =? p)%nat; by destruct v.
  - apply (same_uc_fmap (fun v => if (uc_ptr v =? p)%nat then g v else v)). intros v. by destruct (_ =? p)%nat.
Qed.

(** ** The active capture *)
Lemma the_out_spec k o s : outs s !! k = Some o -> the_out k s = Done o s.
Proof. intros Ho. unfold the_out, bind, gets. cbn [obind]. by rewrite Ho. Qed.
Lemma the_in_spec k i s : ins s !! k = Some i -> the_in k s = Done i s.
Proof. intros Hi. unfold the_in, bind, gets. cbn [obind]. by rewrite Hi. Qed.

(** Without a call it is a capture, and no other use case has its identifier. *)
Lemma active_capture_spec s :
  routing_core s ->
  exists input, active_capture s = Done input s /\
    (in_call s = false -> forall i, input = Some i ->
       exists u, u ∈ usecase_list s /\ uc_type u = PCM_CAPTURE /\ uc_id u = in_usecase i) /\
    (forall u, u ∈ usecase_list s -> uc_type u = PCM_CAPTURE -> is_Some input).
Proof.
  intros Hok. unfold active_capture, get_usecase_from_type. unfold bind at 1, gets. cbn [obind].
  pose proof (ok_ucs s Hok) as Hu. rewrite Forall_forall in Hu.
  destruct (find _ (usecase_list s)) as [u|] eqn:E; cycle 1.
  { exists None. split_and!; [done|done|]. intros u Hin Ht. apply list_elem_of_In in Hin.
    apply (find_none _ _ E) in Hin. rewrite Ht in Hin. done. }
  apply find_some in E as [Hin Hty]. apply list_elem_of_In in Hin.
  destruct (Hu u Hin) as [(Ht & _) | [(Ht & _ & _ & k & i & Hst & Hi & Hid) | (Ht & _ & Hc & k & o & Hst & Ho & _)]].
  - rewrite Ht in Hty. done.
  - rewrite Hst. cbn [as_input]. run (the_in_spec _ _ _ Hi). exists (Some i). split_and!; [done| |by eexists].
    intros _ i' [= <-]. by exists u.
  - rewrite Hst. cbn [as_input]. unfold bind at 1. run (the_out_spec _ _ _ Ho). cbn [ret obind].
    exists (Some (junk k)). split_and!; [done| |by eexists]. congruence.
Qed.

Lemma get_input_spec s out :
  routing_core s -> exists d, get_input_snd_device out s = Done d s /\ sound_in d.
Proof.
  intros Hok. destruct (active_capture_spec s Hok) as (input & Ha & _). unfold get_input_snd_device. run Ha.
  eexists. split; [reflexivity|]. apply input_valid.
Qed.

(** In a call the microphone depends on the output alone, not on what [active_capture] read. *)
Lemma get_input_in_call s out :
  routing_core s -> mode s = AUDIO_MODE_IN_CALL -> out <> AUDIO_DEVICE_NONE ->
  get_input_snd_device out s =
    Done (voice_input (voice_session_uses_wideband s) (voice_session_uses_twomic (session s)) out) s.
Proof.
  intros Hok Hm Ho. destruct (active_capture_spec s Hok) as (input & Ha & _). unfold get_input_snd_device. run Ha.
  unfold gets, input_device. rewrite Hm, Z.eqb_refl. by rewrite (proj2 (Z.eqb_neq _ _)) by done.
Qed.

Lemma from_id_spec s id u :
  find (fun u => uc_id u =? id) (usecase_list s) = Some u -> refs_ok s ->
  u ∈ usecase_list s /\ uc_id u = id /\ find_ptr (uc_ptr u) (usecase_list s) = Some u.
Proof.
  intros Hf Hok. apply find_some in Hf as [Hin Hid]. apply list_elem_of_In in Hin. apply Z.eqb_eq in Hid.
  split_and!; [done|done|]. apply find_ptr_elem; [apply Hok|done].
Qed.
Lemma find_id l u : NoDup (uc_id <$> l) -> u ∈ l -> find (fun v => uc_id v =? uc_id u) l = Some u.
Proof.
  induction l as [|v l IH]; [by intros _ ?%elem_of_nil|]. rewrite fmap_cons, NoDup_cons. intros [Hv Hnd].
  cbn [find]. rewrite elem_of_cons. intros [->|Hu]; [by rewrite Z.eqb_refl|].
  destruct (Z.eqb_spec (uc_id v) (uc_id u)) as [E|_]; [|by apply IH].
  exfalso. apply Hv. rewrite E. by apply list_elem_of_fmap_2.
Qed.

(** The devices of a call are there exactly while there is a call. *)
Lemma call_devices_spec s u :
  routing_ok s -> uc_type u <> VOICE_CALL ->
  exists vc, call_devices u s = Done vc s /\ sound_out vc.1 /\ sound_in vc.2 /\
    (if in_call s then vc.1 <> SND_DEVICE_NONE /\ vc.2 <> SND_DEVICE_NONE
     else vc = (SND_DEVICE_NONE, SND_DEVICE_NONE)).
Proof.
  intros [Hok Hready] Ht. unfold call_devices. unfold bind at 1, gets at 1. cbn [obind].
  rewrite (proj2 (Z.eqb_neq _ _) Ht). cbn [negb andb]. destruct (in_call s) eqn:Hc; cycle 1.
  { eexists. split_and!; [reflexivity|done|by left|done]. }
  destruct (Hready Hc) as (v & Hv & Hid & Hout & Hin). unfold bind, get_usecase_from_id, gets. cbn [obind].
  rewrite <-Hid, (find_id _ v) by (done || apply Hok). eexists. split; [reflexivity|]. cbn [fst snd].
  assert (uc_valid v) as [? ?] by (destruct (ok_refs s Hok) as [(_ & _ & Hval & _) _]; rewrite Forall_forall in Hval; by apply Hval).
  by split_and!.
Qed.

(** ** Selection *)

(** A device that has a microphone and an output in a call. *)
Definition call_device (d : Z) : bool :=
  negb (d =? AUDIO_DEVICE_NONE) && negb (has d AUDIO_DEVICE_BIT_IN) &&
  (is_headphone d || has d AUDIO_DEVICE_OUT_ALL_SCO || has d AUDIO_DEVICE_OUT_SPEAKER
   || has d AUDIO_DEVICE_OUT_EARPIECE).
Lemma call_output s d :
  mode s = AUDIO_MODE_IN_CALL -> call_device d = true -> get_output_snd_device s d <> SND_DEVICE_NONE.
Proof.
  intros Hm Hd. unfold call_device in Hd. apply andb_prop in Hd as [Hd Hor]. apply andb_prop in Hd as [H1 H2].
  unfold get_output_snd_device. rewrite Hm, Z.eqb_refl. apply negb_true_iff in H1 as ->, H2 as ->. cbn [orb].
  assert (voice_output (voice_session_uses_wideband s) d <> SND_DEVICE_NONE) as Hv.
  { unfold voice_output. repeat (case_match; try done). }
  by rewrite (proj2 (Z.eqb_neq _ _) Hv).
Qed.
Lemma voice_input_some wb two d : voice_input wb two d <> SND_DEVICE_NONE.
Proof. unfold voice_input. repeat (case_match; try done). Qed.

Lemma from_id_run s id u :
  find (fun u => uc_id u =? id) (usecase_list s) = Some u -> get_usecase_from_id id s = Done (Some u) s.
Proof. intros Hf. unfold get_usecase_from_id, gets. by rewrite Hf. Qed.

(** Only the session changed. *)
Lemma session_keeps s v : routing_core s -> keeps s (s<|session := v|>).
Proof.
  intros [Hrf Hob Hu Hp]. split_and!; [|by destruct s|done|apply same_uc_refl]. by split.
Qed.

(** A selection ends with these devices. *)
Definition selects (s : AudioSt) (id : Z) (r : outcome AudioSt Z) (out inp : Z) : Prop :=
  exists s' u', r = Done 0 s' /\ keeps s s' /\ (uc_type u' = VOICE_CALL -> call_ready s') /\
    u' ∈ usecase_list s' /\ uc_id u' = id /\ uc_out u' = out /\ uc_in u' = inp.

Lemma selects_apply s0 s id p u out inp :
  keeps s0 s -> find_ptr p (usecase_list s) = Some u -> devices_for u out inp -> uc_id u = id ->
  selects s0 id (apply_devices p out inp s) out inp.
Proof.
  intros Hk Hf Hd Hid. destruct (apply_devices_ok p u out inp s) as (s' & Hs' & Hk' & _ & Hv & Hf'); [apply Hk|done|done|].
  exists s', (u<|uc_in := inp|><|uc_out := out|>). rewrite Hs'. destruct (find_ptr_Some _ _ _ Hf') as [_ Hin].
  split_and!; [done|by eapply keeps_trans|by destruct u|done|by destruct u..].
Qed.

(** *** The call *)
Lemma select_voice n s u k o :
  routing_core s -> find (fun v => uc_id v =? USECASE_VOICE_CALL) (usecase_list s) = Some u ->
  uc_type u = VOICE_CALL -> uc_stream u = OutStream k -> outs s !! k = Some o ->
  mode s = AUDIO_MODE_IN_CALL -> call_device (out_devices o) = true ->
  exists out inp, out <> SND_DEVICE_NONE /\ inp <> SND_DEVICE_NONE /\
    selects s USECASE_VOICE_CALL (select_devices (S n) USECASE_VOICE_CALL s) out inp.
Proof.
  intros Hok Hf Ht Hst Ho Hm Hd. destruct (active_capture_spec s Hok) as (input & Ha & _). cbn [select_devices].
  run Ha. run (from_id_run _ _ _ Hf). destruct (from_id_spec _ _ _ Hf (ok_refs s Hok)) as (Hin & Hid & Hp).
  unfold call_devices. unfold bind at 1, bind at 1, gets at 1. cbn [obind].
  assert (negb (uc_type u =? VOICE_CALL) = false) as Hnv by (by rewrite Ht). rewrite Hnv. cbn [andb ret obind].
  rewrite Ht, Z.eqb_refl. unfold out_of. rewrite Hst. unfold bind at 1. run (the_out_spec _ _ _ Ho). cbn [ret obind fst snd].
  destruct (set_devices_ok (uc_ptr u) u (out_devices o) s Hok Hp) as (s1 & H1 & Hk1 & _ & Hf1). run H1.
  unfold prepare_voice_session, with_session. unfold bind at 1. cbn [modify obind]. set (s2 := set_field session _ s1).
  assert (keeps s s2) as Hk2 by (eapply keeps_trans; [exact Hk1|apply session_keeps, Hk1]).
  assert (mode s2 = AUDIO_MODE_IN_CALL) as Hm2 by (rewrite <-Hm; destruct Hk2 as (_ & -> & _); done).
  unfold bind at 1, gets at 1. cbn [obind]. unfold bind at 1.
  rewrite get_input_in_call; [|apply Hk2|done|].
  2: { unfold call_device in Hd. apply andb_prop in Hd as [Hd _]. apply andb_prop in Hd as [Hd _].
       intros E. by rewrite E in Hd. }
  cbn [obind]. eexists _, _. split; [by apply (call_output s2)|]. split; [apply voice_input_some|].
  eapply selects_apply; [done|exact Hf1| |by destruct u].
  split_and!; [apply output_valid|apply voice_input_valid|by destruct u; cbn in *; subst..|].
  intros _. split; [by apply call_output|apply voice_input_some].
Qed.

(** *** A capture *)
Lemma capture_device_spec s input :
  routing_core s -> is_Some input -> exists d, capture_device input s = Done d s /\ sound_in d.
Proof.
  intros Hok [i ->]. unfold capture_device. unfold bind at 1, deref. cbn [ret obind]. unfold bind at 1, gets at 1. cbn [obind].
  destruct (primary_output s) as [k|] eqn:Hp; [|by apply get_input_spec].
  destruct (ok_primary s Hok k Hp) as [o Ho]. destruct (_ =? _); [|by apply get_input_spec].
  run (the_out_spec _ _ _ Ho). destruct (out_standby o); by apply get_input_spec.
Qed.

Lemma select_capture n s id u :
  routing_ok s -> find (fun v => uc_id v =? id) (usecase_list s) = Some u -> uc_type u = PCM_CAPTURE ->
  exists inp, sound_in inp /\ selects s id (select_devices (S n) id s) SND_DEVICE_NONE inp.
Proof.
  intros [Hok Hcr] Hf Ht. destruct (active_capture_spec s Hok) as (input & Ha & _ & Hin). cbn [select_devices].
  run Ha. run (from_id_run _ _ _ Hf). destruct (from_id_spec _ _ _ Hf (ok_refs s Hok)) as (Hu & Hid & Hp).
  destruct (call_devices_spec s u (conj Hok Hcr)) as ([vo vi] & Hc & _ & Hvi & _); [by rewrite Ht|]. run Hc.
  rewrite Ht. change (PCM_CAPTURE =? VOICE_CALL) with false. change (PCM_CAPTURE =? PCM_PLAYBACK) with false.
  change (PCM_CAPTURE =? PCM_CAPTURE) with true. cbv iota.
  pose proof (ok_ucs s Hok) as Hw. rewrite Forall_forall in Hw.
  destruct (Hw u Hu) as [(E & _)|[(_ & _ & _ & k & i & Hst & Hi & _)|(E & _)]]; [by rewrite Ht in E| |by rewrite Ht in E].
  rewrite Hst. cbn [as_input]. run (the_in_spec _ _ _ Hi).
  destruct (set_devices_ok (uc_ptr u) u (in_devices i) s Hok Hp) as (s1 & H1 & Hk1 & _ & Hf1). run H1.
  assert (exists d, (if (vo, vi).2 =? SND_DEVICE_NONE then capture_device input else ret (vo, vi).2) s1 = Done d s1
                    /\ sound_in d) as (d & Hd & Hvd).
  { cbn [snd]. destruct (_ =? _); [|by exists vi]. apply capture_device_spec; [apply Hk1|by apply (Hin u)]. }
  run Hd. exists d. split; [done|]. eapply selects_apply; [done|exact Hf1| |by destruct u].
  split_and!; [done|done|by destruct u; cbn in *; subst|done|by destruct u; cbn in *; subst].
Qed.

(** *** A playback

    The nested selection, of a recording for voice communication, is done at most once. *)
Lemma call_devices_idle s u : in_call s = false -> call_devices u s = Done (SND_DEVICE_NONE, SND_DEVICE_NONE) s.
Proof. intros Hc. unfold call_devices, bind, gets. cbn [obind]. by rewrite Hc, andb_false_r. Qed.

Lemma nested_select n s input primary k :
  routing_ok s -> (forall i, input = Some i -> exists u, u ∈ usecase_list s /\ uc_type u = PCM_CAPTURE /\ uc_id u = in_usecase i) ->
  exists s', (match input with
     | Some i =>
         if (bool_decide (primary = Some (k : nat)) && (in_source i =? AUDIO_SOURCE_VOICE_COMMUNICATION))%bool
         then let* _r := select_devices (S n) (in_usecase i) in ret tt
         else ret tt
     | None => ret tt
     end) s = Done tt s' /\ keeps s s'.
Proof.
  intros Hok Hin. pose proof (keeps_refl s (proj1 Hok)) as Hrefl.
  destruct input as [i|]; [|by exists s]. destruct (_ && _)%bool; [|by exists s].
  destruct (Hin i eq_refl) as (u & Hu & Ht & Hid).
  destruct (select_capture n s (in_usecase i) u) as (inp & _ & s' & u' & Hs' & Hk & _); [done| |done|].
  { rewrite <-Hid. apply find_id; [apply (proj1 Hok)|done]. }
  unfold bind. rewrite Hs'. by exists s'.
Qed.

Lemma keeps_ok s s' : routing_ok s -> keeps s s' -> routing_ok s'.
Proof. intros [_ Hc] (Hk & _ & Hr & _). split; auto. Qed.

Lemma select_playback n s id u k o :
  routing_ok s -> find (fun v => uc_id v =? id) (usecase_list s) = Some u -> uc_type u = PCM_PLAYBACK ->
  uc_stream u = OutStream k -> outs s !! k = Some o ->
  exists out, selects s id (select_devices (S (S n)) id s) out SND_DEVICE_NONE /\
    (in_call s = false -> out = get_output_snd_device s (out_devices o)).
Proof.
  intros Hok Hf Ht Hst Ho. pose proof (proj1 Hok) as Hcore.
  destruct (active_capture_spec s Hcore) as (input & Ha & Hin & _). remember (S n) as m eqn:Hm.
  cbn [select_devices]. run Ha. run (from_id_run _ _ _ Hf).
  destruct (from_id_spec _ _ _ Hf (ok_refs s Hcore)) as (Hu & Hid & Hp).
  destruct (call_devices_spec s u Hok) as ([vo vi] & Hc & Hvo & _ & Hcall); [by rewrite Ht|]. run Hc.
  rewrite Ht. change (PCM_PLAYBACK =? VOICE_CALL) with false. change (PCM_PLAYBACK =? PCM_PLAYBACK) with true. cbv iota.
  unfold out_of at 1. rewrite Hst. unfold bind at 1. run (the_out_spec _ _ _ Ho). cbn [ret obind fst snd].
  destruct (set_devices_ok (uc_ptr u) u (out_devices o) s Hcore Hp) as (s1 & H1 & Hk1 & Hse1 & Hf1). run H1.
  cbn [fst snd] in Hcall.
  assert (forall s2 v out, keeps s1 s2 -> find_ptr (uc_ptr u) (usecase_list s2) = Some v -> same_uc u v -> sound_out out ->
    selects s id (apply_devices (uc_ptr u) out SND_DEVICE_NONE s2) out SND_DEVICE_NONE) as Happ.
  { intros s2 v out Hk2 Hf2 (Hvp & Hvid & Hvt & _) Hvo'. eapply selects_apply; [by eapply keeps_trans|done| |congruence].
    split_and!; [done|by left|done|rewrite Hvt, Ht; done|rewrite Hvt, Ht; done]. }
  destruct (in_call s) eqn:Hic.
  { destruct Hcall as [Hne _]. rewrite (proj2 (Z.eqb_neq _ _) Hne). exists vo. split; [|done].
    eapply Happ; [apply keeps_refl, Hk1|exact Hf1|by destruct u|done]. }
  injection Hcall as -> ->. change (SND_DEVICE_NONE =? SND_DEVICE_NONE) with true. cbv iota.
  unfold bind at 1, gets at 1. cbn [obind]. unfold bind at 1, gets at 1. cbn [obind].
  destruct (nested_select n s1 input (primary_output s1) k) as (s2 & H2 & Hk2); [by apply (keeps_ok s)| |].
  { intros i Hi. destruct (Hin eq_refl i Hi) as (w & Hw & Hwt & Hwid). destruct (same_in _ _ w (proj2 (proj2 (proj2 Hk1))) Hw) as (w' & Hw' & _ & E1 & E2 & _).
    exists w'. split_and!; [done|congruence..]. }
  rewrite <-Hm in H2. run H2. destruct (same_find _ _ _ _ (proj2 (proj2 (proj2 Hk2))) Hf1) as (v & Hf2 & Hv).
  eexists. split; [eapply Happ; [exact Hk2|exact Hf2| |apply output_valid]|].
  - destruct Hv as (E1 & E2 & E3 & E4 & E5). by destruct u.
  - intros _. destruct Hk1 as (_ & Hr & _). rewrite Hr. unfold get_output_snd_device, voice_session_uses_wideband.
    cbn. by rewrite Hse1.
Qed.

(** What a selection needs of the use case: the call is made to a device it can be made to. *)
Definition can_select (s : AudioSt) (u : audio_usecase) : Prop :=
  uc_type u = VOICE_CALL -> mode s = AUDIO_MODE_IN_CALL /\
    forall k o, uc_stream u = OutStream k -> outs s !! k = Some o -> call_device (out_devices o) = true.

(** [select_devices], for any use case of a consistent device. *)
Lemma select_ok n s id u :
  routing_ok s -> find (fun v => uc_id v =? id) (usecase_list s) = Some u -> can_select s u ->
  exists s' out inp, selects s id (select_devices (S (S n)) id s) out inp /\
    select_devices (S (S n)) id s = Done 0 s' /\ keeps s s'.
Proof.
  intros Hok Hf Hcs. assert (forall out inp, selects s id (select_devices (S (S n)) id s) out inp ->
    exists s' out inp, selects s id (select_devices (S (S n)) id s) out inp /\
      select_devices (S (S n)) id s = Done 0 s' /\ keeps s s') as Hsel.
  { intros out inp Hs. pose proof Hs as (s' & u' & Hd & Hk & _). by exists s', out, inp. }
  pose proof (ok_ucs s (proj1 Hok)) as Hw. rewrite Forall_forall in Hw.
  destruct (from_id_spec _ _ _ Hf (ok_refs s (proj1 Hok))) as (Hu & Hid & _). destruct (Hw u Hu) as [Hp|[Hc|Hv]].
  - destruct Hp as (Ht & _ & _ & k & o & Hst & Ho & _).
    destruct (select_playback n s id u k o Hok Hf Ht Hst Ho) as (out & Hs & _). by eapply Hsel.
  - destruct Hc as (Ht & _). destruct (select_capture (S n) s id u Hok Hf Ht) as (inp & _ & Hs). by eapply Hsel.
  - destruct Hv as (Ht & Hvid & _ & k & o & Hst & Ho & _). destruct (Hcs Ht) as (Hm & Hd).
    assert (id = USECASE_VOICE_CALL) as -> by congruence.
    destruct (select_voice (S n) s u k o (proj1 Hok) Hf Ht Hst Ho Hm) as (out & inp & _ & _ & Hs); [by eapply Hd|]. by eapply Hsel.
Qed.
End select.
