(* ===== verification/AudioDevice.v ===== *)
(** * The audio device as a whole

    The invariant [device_ok] of the device and its streams, the frame of an operation that
    leaves the routing alone, and the two changes of the list of use cases: one joins with
    no device, one leaves after its devices were disabled. *)
From S2P Require Import Prelude Machine AudioTypes AudioVoice AudioRoute AudioRouteInv AudioSelect.

(** ** Computations that return *)
Definition returns {B} (m : A B) (s : AudioSt) (P : B -> AudioSt -> Prop) : Prop :=
  exists r s', m s = Done r s' /\ P r s'.
Lemma returns_bind {B C} (m : A B) (f : B -> A C) s P Q :
  returns m s P -> (forall r s', P r s' -> returns (f r) s' Q) -> returns (bind m f) s Q.
Proof. intros (r & s' & Hm & Hp) Hf. destruct (Hf r s' Hp) as (r' & s'' & Hr & Hq). exists r', s''. by run Hm. Qed.
Lemma returns_mono {B} (m : A B) s P Q :
  returns m s P -> (forall r s', P r s' -> Q r s') -> returns m s Q.
Proof. intros (r & s' & Hm & Hp) Hpq. exists r, s'. auto. Qed.
Lemma returns_ret {B} (r : B) s (P : B -> AudioSt -> Prop) : P r s -> returns (ret r) s P.
Proof. intros Hp. by exists r, s. Qed.
Lemma returns_gets {B} (f : AudioSt -> B) s (P : B -> AudioSt -> Prop) : P (f s) s -> returns (gets f) s P.
Proof. intros Hp. by exists (f s), s. Qed.
Lemma returns_modify f s (P : unit -> AudioSt -> Prop) : P tt (f s) -> returns (modify f) s P.
Proof. intros Hp. by exists tt, (f s). Qed.

(** ** Frames *)

(** What nobody but its owner changes in a stream. *)
Definition is_paused (o : stream_out) : bool :=
  bool_decide (out_offload_state o = OFFLOAD_STATE_PAUSED)
  || bool_decide (out_offload_state o = OFFLOAD_STATE_PAUSED_FLUSHED).
Definition same_out (o o' : stream_out) : Prop :=
  out_usecase o' = out_usecase o /\ out_devices o' = out_devices o /\ out_lock o' = out_lock o /\
  out_thread_blocked o' = out_thread_blocked o /\ (is_paused o' = true -> is_paused o = true).
Definition same_in (i i' : stream_in) : Prop := in_usecase i' = in_usecase i /\ in_lock i' = in_lock i.

(** The routing aside, the device is the same. *)
Record base (s s' : AudioSt) : Prop := {
  b_primary : primary_output s' = primary_output s;
  b_cards : mixer_list s' = mixer_list s;
  b_mode : mode s' = mode s;
  b_fx : offload_fx s' = offload_fx s;
  b_lock : adev_lock s' = adev_lock s;
  b_inputs : lock_inputs s' = lock_inputs s;
  b_addr : (next_addr s <= next_addr s')%nat;
  b_outs : forall k, option_Forall2 same_out (outs s !! k) (outs s' !! k);
  b_ins : forall k, option_Forall2 same_in (ins s !! k) (ins s' !! k)
}.
Lemma same_outs_refl (m : gmap nat stream_out) k : option_Forall2 same_out (m !! k) (m !! k).
Proof. destruct (m !! k); constructor. by split_and!. Qed.
Lemma same_ins_refl (m : gmap nat stream_in) k : option_Forall2 same_in (m !! k) (m !! k).
Proof. destruct (m !! k); constructor. by split_and!. Qed.
Lemma base_refl s : base s s.
Proof. split; auto using same_outs_refl, same_ins_refl. Qed.
Lemma base_trans s1 s2 s3 : base s1 s2 -> base s2 s3 -> base s1 s3.
Proof.
  intros [] []. split; try congruence; [lia| |]; intros k; [rename b_outs0 into H1, b_outs1 into H2|rename b_ins0 into H1, b_ins1 into H2];
    specialize (H1 k); specialize (H2 k); destruct H1; inversion H2; subst; constructor;
    unfold same_out, same_in in *; intuition congruence.
Qed.
Lemma routes_base s s' : routes_only s s' -> base s s'.
Proof. intros ->. split; cbn; auto using same_outs_refl, same_ins_refl. Qed.

(** The routing is the same too. *)
Definition frame (s s' : AudioSt) : Prop :=
  base s s' /\ in_call s' = in_call s /\ usecase_list s' = usecase_list s /\ snd_dev_ref_cnt s' = snd_dev_ref_cnt s.
Lemma frame_refl s : frame s s.
Proof. split; [apply base_refl|done]. Qed.
Lemma frame_trans s1 s2 s3 : frame s1 s2 -> frame s2 s3 -> frame s1 s3.
Proof. intros (Hb1 & E1 & E2 & E3) (Hb2 & F1 & F2 & F3). split; [by eapply base_trans|]. split_and!; congruence. Qed.

(** ** The invariant *)
Record device_core (s : AudioSt) : Prop := {
  dev_core : routing_core s;
  dev_addrs : Forall (fun u => (uc_ptr u < next_addr s)%nat) (usecase_list s);
  dev_ids : Forall (fun u => 0 <= uc_id u < AUDIO_USECASE_MAX) (usecase_list s);
  dev_card : find (fun c => c =? SOUND_CARD) (mixer_list s) = Some SOUND_CARD;
  dev_outs : forall k o, outs s !! k = Some o -> 0 <= out_usecase o <= USECASE_AUDIO_PLAYBACK_DEEP_BUFFER;
  dev_ins : forall k i, ins s !! k = Some i -> in_usecase i = USECASE_AUDIO_CAPTURE
}.
Definition device_ok (s : AudioSt) : Prop := device_core s /\ call_ready s.
Lemma device_routing s : device_ok s -> routing_ok s.
Proof. intros [Hc Hr]. split; [apply Hc|done]. Qed.

Lemma base_out s s' k o : base s s' -> outs s !! k = Some o -> exists o', outs s' !! k = Some o' /\ same_out o o'.
Proof. intros Hb Ho. pose proof (b_outs s s' Hb k) as H. rewrite Ho in H. inversion H; subst. by eexists. Qed.
Lemma base_in s s' k i : base s s' -> ins s !! k = Some i -> exists i', ins s' !! k = Some i' /\ same_in i i'.
Proof. intros Hb Hi. pose proof (b_ins s s' Hb k) as H. rewrite Hi in H. inversion H; subst. by eexists. Qed.
Lemma base_out_inv s s' k o' : base s s' -> outs s' !! k = Some o' -> exists o, outs s !! k = Some o /\ same_out o o'.
Proof. intros Hb Ho. pose proof (b_outs s s' Hb k) as H. rewrite Ho in H. inversion H; subst. by eexists. Qed.
Lemma base_in_inv s s' k i' : base s s' -> ins s' !! k = Some i' -> exists i, ins s !! k = Some i /\ same_in i i'.
Proof. intros Hb Hi. pose proof (b_ins s s' Hb k) as H. rewrite Hi in H. inversion H; subst. by eexists. Qed.

Lemma uc_wf_base s s' u :
  base s s' -> (in_call s' = in_call s \/ uc_type u <> VOICE_CALL) -> uc_wf s u -> uc_wf s' u.
Proof.
  intros Hb Hc [(Ht & H1 & H2 & k & o & Hst & Ho & Hid)|[(Ht & H1 & H2 & k & i & Hst & Hi & Hid)|(Ht & H1 & H2 & k & o & Hst & Ho)]].
  - destruct (base_out _ _ _ _ Hb Ho) as (o' & Ho' & E & _). left. split_and!; [done..|]. exists k, o'. by rewrite E.
  - destruct (base_in _ _ _ _ Hb Hi) as (i' & Hi' & E & _). right; left. split_and!; [done..|]. exists k, i'. by rewrite E.
  - destruct Ho as [Ho Hpr]. destruct (base_out _ _ _ _ Hb Ho) as (o' & Ho' & _). right; right.
    destruct Hc as [Hc|Hc]; [|by rewrite Ht in Hc].
    split_and!; [done|done|congruence|]. exists k, o'. by rewrite (b_primary _ _ Hb).
Qed.

(** The parts of the invariant that only depend on the base. *)
Lemma base_core s s' :
  base s s' -> device_core s -> routing_core s' ->
  Forall (fun u => (uc_ptr u < next_addr s')%nat) (usecase_list s') ->
  Forall (fun u => 0 <= uc_id u < AUDIO_USECASE_MAX) (usecase_list s') -> device_core s'.
Proof.
  intros Hb Hd Hrc Ha Hi. split; [done|done|done| | |].
  - rewrite (b_cards _ _ Hb). apply Hd.
  - intros k o' Ho. destruct (base_out_inv _ _ _ _ Hb Ho) as (o & Ho' & -> & _). by apply (dev_outs s Hd k).
  - intros k i' Hi'. destruct (base_in_inv _ _ _ _ Hb Hi') as (i & Hi'' & -> & _). by apply (dev_ins s Hd k).
Qed.
Lemma base_primary s s' : base s s' -> (forall k, primary_output s = Some k -> is_Some (outs s !! k)) ->
  forall k, primary_output s' = Some k -> is_Some (outs s' !! k).
Proof.
  intros Hb Hp k Hk. rewrite (b_primary _ _ Hb) in Hk. destruct (Hp k Hk) as [o Ho].
  destruct (base_out _ _ _ _ Hb Ho) as (o' & -> & _). by eexists.
Qed.

Lemma frame_core s s' : frame s s' -> device_core s -> device_core s'.
Proof.
  intros (Hb & Hc & Hl & Hr) Hd. destruct Hd as [[Hrf Hob Hu Hp] Ha Hi Hcard Ho Hin] eqn:E. apply (base_core s); [done|done| | |].
  - split.
    + destruct Hrf as [Hlok Hrf]. split; rewrite Hl; [done|]. unfold refs_are. by rewrite Hr.
    + by rewrite Hl.
    + rewrite Hl. eapply Forall_impl; [exact Hu|]. intros u. apply uc_wf_base; auto.
    + by eapply base_primary.
  - rewrite Hl. eapply Forall_impl; [exact Ha|]. intros u Hlt. cbn in *. pose proof (b_addr _ _ Hb). lia.
  - by rewrite Hl.
Qed.
Lemma frame_ok s s' : frame s s' -> device_ok s -> device_ok s'.
Proof.
  intros Hf [Hd Hc]. split; [by eapply frame_core|]. destruct Hf as (_ & Ec & El & _). unfold call_ready. by rewrite Ec, El.
Qed.
Lemma keeps_core s s' : keeps s s' -> device_core s -> device_core s'.
Proof.
  intros (Hrc & Hr & _ & Hs) Hd. apply (base_core s); [by apply routes_base|done|done| |].
  - assert (next_addr s' = next_addr s) as E by (by rewrite Hr). rewrite E. pose proof (dev_addrs s Hd) as Ha.
    clear -Hs Ha. induction Hs as [|u v l l' (Hp & _) _ IH]; [done|]. inversion Ha; subst. constructor; [by rewrite Hp|auto].
  - pose proof (dev_ids s Hd) as Ha. clear -Hs Ha. induction Hs as [|u v l l' (_ & Hid & _) _ IH]; [done|].
    inversion Ha; subst. constructor; [by rewrite Hid|auto].
Qed.
Lemma keeps_device s s' : keeps s s' -> device_ok s -> device_ok s'.
Proof. intros Hk [Hd Hc]. split; [by eapply keeps_core|]. by apply Hk. Qed.

(** ** Joining and leaving *)
Lemma ids_length (l : list audio_usecase) :
  NoDup (uc_id <$> l) -> Forall (fun u => 0 <= uc_id u < AUDIO_USECASE_MAX) l -> zlength l <= AUDIO_USECASE_MAX.
Proof.
  intros Hnd Hids. unfold zlength. rewrite <-(length_fmap uc_id l).
  assert ((uc_id <$> l) ⊆+ seqZ 0 AUDIO_USECASE_MAX) as Hsub.
  { apply NoDup_submseteq; [done|]. intros x (u & -> & Hu)%list_elem_of_fmap. apply elem_of_seqZ.
    rewrite Forall_forall in Hids. specialize (Hids u Hu). lia. }
  apply submseteq_length in Hsub. rewrite length_seqZ in Hsub. unfold AUDIO_USECASE_MAX in *. lia.
Qed.

Lemma demand_app l k d : demand (l ++ k) d = demand l d + demand k d.
Proof. induction l as [|u l IH]; [done|]. cbn [app demand foldr]. fold (demand (l ++ k) d) (demand l d). lia. Qed.

(** A new use case, without devices yet. *)
Record joins (s : AudioSt) (u : audio_usecase) : Prop := {
  j_ptr : (uc_ptr u < next_addr s)%nat;
  j_fresh : forall v, v ∈ usecase_list s -> uc_ptr v <> uc_ptr u;
  j_id : forall v, v ∈ usecase_list s -> uc_id v <> uc_id u;
  j_range : 0 <= uc_id u < AUDIO_USECASE_MAX;
  j_out : uc_out u = SND_DEVICE_NONE;
  j_in : uc_in u = SND_DEVICE_NONE;
  j_wf : uc_wf s u
}.
Lemma add_core s u :
  device_core s -> joins s u -> device_core (s<|usecase_list ::= fun l => l ++ [u]|>).
Proof.
  intros Hd [Hp Hf Hi Hr Ho Hin Hw]. destruct (dev_core s Hd) as [[(Hnp & Hni & Hv & _) Hrf] Hob Hu Hpr].
  set (s' := set_field usecase_list _ s). assert (base s s') as Hb by (apply routes_base; by destruct s).
  assert (usecase_list s' = usecase_list s ++ [u]) as Hl by done.
  assert (Forall (fun u => 0 <= uc_id u < AUDIO_USECASE_MAX) (usecase_list s')) as Hids.
  { rewrite Hl. apply Forall_app. split; [apply Hd|by constructor]. }
  assert (forall {X} (f : audio_usecase -> X), NoDup (f <$> usecase_list s) ->
    (forall v, v ∈ usecase_list s -> f v <> f u) -> NoDup (f <$> usecase_list s')) as Hnd.
  { intros X f Hnf Hne. rewrite Hl, fmap_app. apply NoDup_app. split_and!; [done| |apply NoDup_singleton].
    intros x (v & -> & Hin')%list_elem_of_fmap Hx%list_elem_of_singleton. by apply (Hne v). }
  apply (base_core s); [done|done| | |done].
  - split.
    + split; [split_and!; [by apply Hnd..| |]|].
      * rewrite Hl. apply Forall_app. split; [done|]. constructor; [|done]. unfold uc_valid. rewrite Ho, Hin. by split; [|left].
      * apply ids_length; [by apply Hnd|done].
      * eapply (refs_are_ext s'); [|exact Hrf]. intros d _. rewrite Hl, demand_app. cbn [demand foldr].
        unfold use1. rewrite Ho, Hin. cbn. lia.
    + rewrite Hl. intros type v w Ht [Hv'|Hv'%list_elem_of_singleton]%elem_of_app [Hw'|Hw'%list_elem_of_singleton]%elem_of_app E1 E2 N1 N2;
        [by eapply (Hob type)|subst w|subst v|by subst];
        unfold snd_device_of in *; exfalso; destruct (type =? PCM_PLAYBACK); congruence.
    + rewrite Hl. apply Forall_app. assert (forall v, uc_wf s v -> uc_wf s' v) as Hws by (intros v; apply uc_wf_base; [done|by left]).
      split; [by eapply Forall_impl|by constructor; [apply Hws|]].
    + by eapply base_primary.
  - rewrite Hl. apply Forall_app. split; [apply Hd|by constructor].
Qed.

(** A use case leaves, its devices having been disabled. *)
Lemma others_in p l u : u ∈ others p l <-> u ∈ l /\ uc_ptr u <> p.
Proof.
  unfold others. rewrite !list_elem_of_In, filter_In, <-!list_elem_of_In. rewrite negb_true_iff, Nat.eqb_neq. done.
Qed.
Lemma others_Forall (P : audio_usecase -> Prop) p l : Forall P l -> Forall P (others p l).
Proof. rewrite !Forall_forall. intros H u [Hu _]%others_in. auto. Qed.
Lemma others_NoDup_f {X} (f : audio_usecase -> X) p l : NoDup (f <$> l) -> NoDup (f <$> others p l).
Proof.
  induction l as [|u l IH]; [done|]. rewrite fmap_cons, NoDup_cons. intros [Hu Hnd]. cbn [others List.filter].
  destruct (uc_ptr u =? p)%nat; cbn [negb]; [by apply IH|]. rewrite fmap_cons. apply NoDup_cons. split; [|by apply IH].
  intros (v & Hv & [Hin _]%others_in)%list_elem_of_fmap. apply Hu, list_elem_of_fmap. by exists v.
Qed.

Lemma leave_core s s' p u :
  device_core s -> find_ptr p (usecase_list s) = Some u -> base s s' -> usecase_list s' = others p (usecase_list s) ->
  refs_are s' (fun d => demand (usecase_list s) d - use1 u d) ->
  (in_call s' = in_call s \/ uc_type u = VOICE_CALL) -> device_core s'.
Proof.
  intros Hd Hf Hb Hl Hrefs Hcall. destruct (dev_core s Hd) as [[(Hnp & Hni & Hv & _) Hrf] Hob Hu Hpr].
  assert (Forall (fun u => 0 <= uc_id u < AUDIO_USECASE_MAX) (usecase_list s')) as Hids
    by (rewrite Hl; apply others_Forall, Hd).
  apply (base_core s); [done|done| | |done].
  - split.
    + split; [split_and!; rewrite Hl|].
      * by apply others_NoDup_f.
      * by apply others_NoDup_f.
      * by apply others_Forall.
      * rewrite <-Hl. apply ids_length; [rewrite Hl; by apply others_NoDup_f|done].
      * eapply (refs_are_ext s'); [|exact Hrefs]. intros d _. rewrite Hl. cbn beta. rewrite (demand_split _ p u) by done. lia.
    + rewrite Hl. intros type v w Ht [Hv' _]%others_in [Hw' _]%others_in. by apply Hob.
    + rewrite Hl, Forall_forall. intros v [Hin Hne]%others_in. rewrite Forall_forall in Hu. apply (uc_wf_base s); [done| |by apply Hu].
      destruct Hcall as [E|E]; [by left|right]. intros Hvt. apply Hne.
      destruct (find_ptr_Some _ _ _ Hf) as [<- Hin'].
      assert (uc_id v = uc_id u) as Hid.
      { pose proof (Hu v Hin) as W1. pose proof (Hu u Hin') as W2. unfold uc_wf in W1, W2. rewrite Hvt in W1. rewrite E in W2.
        destruct W1 as [(?&_)|[(?&_)|(_&->&_)]]; [done..|]. by destruct W2 as [(?&_)|[(?&_)|(_&->&_)]]. }
      apply list_elem_of_lookup in Hin as [i Hi], Hin' as [j Hj]. f_equal.
      assert (i = j) as -> by (eapply (NoDup_lookup (uc_id <$> usecase_list s)); [done|by rewrite list_lookup_fmap, Hi|
        rewrite list_lookup_fmap, Hj; cbn; by rewrite Hid]). congruence.
    + by eapply base_primary.
  - rewrite Hl. apply others_Forall. eapply Forall_impl; [apply (dev_addrs s Hd)|]. intros v Hlt. cbn in *.
    pose proof (b_addr _ _ Hb). lia.
Qed.

(** The call stays ready when another use case leaves, or when it is over. *)
Lemma leave_ready s s' p u :
  device_ok s -> find_ptr p (usecase_list s) = Some u -> uc_id u <> USECASE_VOICE_CALL ->
  in_call s' = in_call s -> usecase_list s' = others p (usecase_list s) -> call_ready s'.
Proof.
  intros [Hd Hc] Hf Hid Hic Hl Hcall. pose proof (proj1 (proj1 (ok_refs s (dev_core s Hd)))) as Hnp. rewrite Hic in Hcall. destruct (Hc Hcall) as (v & Hv & Hair). exists v. split; [|done].
  rewrite Hl. apply others_in. split; [done|]. intros Hp. destruct (find_ptr_Some _ _ _ Hf) as [Hup Hu].
  assert (find_ptr p (usecase_list s) = Some v) as Hf' by (rewrite <-Hp; by apply find_ptr_elem).
  apply Hid. assert (u = v) as -> by congruence. apply Hair.
Qed.
