(* ===== verification/AudioStreams.v ===== *)
(** * Streams of the audio HAL

    Models the paths of the streams in [src/audio/audio_hw.c]: the PCM devices of an output,
    starting and stopping outputs, recordings and voice calls, the echo reference, and
    standby ([get_pcm_device] to [do_in_standby_l]), and the parts of
    [src/audio/compress_offload.c] they call. *)
From S2P Require Import Prelude Machine AudioTypes AudioVoice AudioRoute.

Section streams.
Context `{API : AudioApi} `{HW : AudioHw} `{MEM : Memory}.

(** ** PCM profiles *)
Definition OUT_DEVICES : Z :=
  Z.lor AUDIO_DEVICE_OUT_WIRED_HEADSET (Z.lor AUDIO_DEVICE_OUT_WIRED_HEADPHONE
    (Z.lor AUDIO_DEVICE_OUT_SPEAKER (Z.lor AUDIO_DEVICE_OUT_EARPIECE AUDIO_DEVICE_OUT_ALL_SCO))).
Definition IN_DEVICES : Z :=
  Z.lor AUDIO_DEVICE_IN_BUILTIN_MIC (Z.lor AUDIO_DEVICE_IN_WIRED_HEADSET
    (Z.lor AUDIO_DEVICE_IN_BACK_MIC AUDIO_DEVICE_IN_BLUETOOTH_SCO_HEADSET)).

Definition SOUND_DEEP_BUFFER_DEVICE : Z := 3.
Definition SOUND_PLAYBACK_DEVICE : Z := 4.
Definition SOUND_CAPTURE_DEVICE : Z := 0.

Definition pcm_device_playback (period : Z) : pcm_device_profile :=
  mkProfile (mkConfig 2 48000 period 2) SOUND_CARD SOUND_PLAYBACK_DEVICE PCM_PLAYBACK OUT_DEVICES.
Definition pcm_device_deep_buffer : pcm_device_profile :=
  mkProfile (mkConfig 2 48000 480 8) SOUND_CARD SOUND_DEEP_BUFFER_DEVICE PCM_PLAYBACK OUT_DEVICES.
Definition pcm_device_capture : pcm_device_profile :=
  mkProfile (mkConfig 2 48000 1024 2) SOUND_CARD SOUND_CAPTURE_DEVICE PCM_CAPTURE IN_DEVICES.
Definition pcm_device_capture_low_latency (period : Z) : pcm_device_profile :=
  mkProfile (mkConfig 2 48000 period 2) SOUND_CARD SOUND_CAPTURE_DEVICE PCM_CAPTURE_LOW_LATENCY IN_DEVICES.

Definition pcm_devices (s : AudioSt) : list pcm_device_profile :=
  [pcm_device_playback (playback_period s); pcm_device_capture;
   pcm_device_capture_low_latency (low_latency_period s)].
Definition get_pcm_device (s : AudioSt) (uc_type devices : Z) : option pcm_device_profile :=
  find (fun p => (pp_type p =? uc_type) && has (without devices AUDIO_DEVICE_BIT_IN) (pp_devices p))%bool
    (pcm_devices s).

(** ** Mixers *)
Definition adev_get_mixer_for_card (card : Z) : A (option Z) :=
  gets (fun s => find (fun c => c =? card) (mixer_list s)).
Definition uc_get_mixer_for_card (u : audio_usecase) (card : Z) : option Z :=
  find (fun c => c =? card) (uc_mixer_list u).

(** Use cases join and leave the list of the device. *)
Definition add_uc (u : audio_usecase) : A unit :=
  modify (fun s => s<|usecase_list ::= fun l => l ++ [u]|>).
Definition remove_uc (p : nat) : A unit :=
  modify (fun s => s<|usecase_list ::= List.filter (fun u => negb (uc_ptr u =? p)%nat)|>).

(** ** PCM devices of an output *)
Definition set_pcm (k i : nat) (h : option nat) : A unit :=
  set_out k (fun o => o<|out_pcm_dev_list ::= alter (fun d => mkPcm (pd_profile d) h (pd_status d)) i|>).

(** The mixers collected so far are those of the use case, which is not in the list of the
    device yet. *)
Fixpoint uc_select_loop (fuel : nat) (k : nat) (u : audio_usecase) (devices : Z) : A audio_usecase :=
  match fuel with
  | O => fail Diverges
  | S fuel =>
      let* profile := gets (fun s => get_pcm_device s (uc_type u) devices) in
      match profile with
      | None => ret u
      | Some profile =>
          let* d := calloc in
          match d with
          | None => ret u
          | Some _ =>
              set_out k (fun o => o<|out_pcm_dev_list ::= fun l => l ++ [mkPcm profile None 0]|>) ;;;
              let* u := (match uc_get_mixer_for_card u (pp_card profile) with
                         | Some _ => ret u
                         | None =>
                             let* m := adev_get_mixer_for_card (pp_card profile) in
                             let* c := deref NullDeref m in
                             ret (u<|uc_mixer_list ::= fun l => l ++ [c]|>)
                         end) in
              uc_select_loop fuel k u (without devices (pp_devices profile))
          end
      end
  end.
(** Its result is not looked at: when memory runs out, the devices so far are used.  Every
    turn removes a device from a 32-bit mask. *)
Definition uc_select_pcm_devices (k : nat) (u : audio_usecase) : A audio_usecase :=
  set_out k (fun o => o<|out_pcm_dev_list := []|>) ;;;
  uc_select_loop 33 k (u<|uc_mixer_list := []|>) (uc_devices u).
Definition uc_release_pcm_devices (u : audio_usecase) : A unit :=
  let* ko := out_of (uc_stream u) in
  set_out ko.1 (fun o => o<|out_pcm_dev_list := []|>) ;;;
  set_uc (uc_ptr u) (fun u => u<|uc_mixer_list := []|>).

Definition close_pcms (l : list pcm_device) : A unit :=
  for_each l (fun d => match pd_pcm d with Some h => tell (PcmClose (Some h)) | None => ret tt end).
Definition no_pcm (d : pcm_device) : pcm_device := mkPcm (pd_profile d) None (pd_status d).
Definition out_close_pcm_devices (k : nat) : A unit :=
  let* o := the_out k in
  close_pcms (out_pcm_dev_list o) ;;;
  set_out k (fun o => o<|out_pcm_dev_list ::= fmap no_pcm|>).

(** From the [i]-th device on. *)
Fixpoint out_open_from (k i : nat) (l : list pcm_device) : A Z :=
  match l with
  | [] => ret 0
  | d :: l =>
      let* o := the_out k in
      let id := if has (out_flags o) AUDIO_OUTPUT_FLAG_DEEP_BUFFER then pp_id pcm_device_deep_buffer
                else pp_id (pd_profile d) in
      let* h := pcm_open (pp_card (pd_profile d)) id (out_config o) in
      if (bool_decide (is_Some h.1) && negb h.2)%bool then
        set_pcm k i None ;;;
        out_close_pcm_devices k ;;;
        ret (- EIO)
      else
        set_pcm k i h.1 ;;;
        out_open_from k (S i) l
  end.
Definition out_open_pcm_devices (k : nat) : A Z :=
  let* o := the_out k in
  out_open_from k 0 (out_pcm_dev_list o).

(** ** Paths of an output *)
Definition disable_output_path_l (k : nat) : A Z :=
  let* o := the_out k in
  let* u := get_usecase_from_id (out_usecase o) in
  match u with
  | None => ret (- EINVAL)
  | Some u =>
      let* _r := disable_snd_device (uc_mixer_list u) (uc_out u) in
      uc_release_pcm_devices u ;;;
      remove_uc (uc_ptr u) ;;;
      ret 0
  end.

(** [select_devices] calls itself at most once. *)
Definition SELECT_DEPTH : nat := 2.

Definition enable_output_path_l (k : nat) : A Z :=
  let* p := calloc in
  match p with
  | None => ret (- ENOMEM)
  | Some p =>
      let* o := the_out k in
      let u := mkUsecase p (out_usecase o) PCM_PLAYBACK (out_devices o) SND_DEVICE_NONE SND_DEVICE_NONE (OutStream k) [] in
      let* u := uc_select_pcm_devices k u in
      add_uc u ;;;
      let* _r := select_devices SELECT_DEPTH (out_usecase o) in
      ret 0
  end.

(** ** Offloaded outputs ([compress_offload.c]) *)

(** The result is [*disable]. *)
Definition stop_output_offload_stream (k : nat) : A bool :=
  let* fx := gets offload_fx in
  if (fx : bool) then
    tell (FxStop k) ;;;
    let* o := the_out k in
    set_out k (fun o => o<|out_offload_state := OFFLOAD_STATE_IDLE|>) ;;;
    ret (negb (bool_decide (out_offload_state o = OFFLOAD_STATE_PAUSED)
               || bool_decide (out_offload_state o = OFFLOAD_STATE_PAUSED_FLUSHED)))
  else ret true.

(** [pthread_cond_wait(&out->cond, &out->lock)] until the offload thread is not in a call of
    the driver. *)
Definition wait_offload_thread (k : nat) : A unit :=
  let* o := the_out k in
  if out_thread_blocked o then
    set_out k (fun o => o<|out_lock := false|>) ;;;
    wait (fun s => match outs s !! k with
                   | Some o => negb (out_thread_blocked o) && negb (out_lock o) | None => true end) ;;;
    set_out k (fun o => o<|out_lock := true|>)
  else ret tt.
Definition stop_compressed_output_l (k : nat) : A unit :=
  set_out k (fun o => o<|out_send_new_metadata := true|>) ;;;
  let* o := the_out k in
  match out_compr o with
  | Some h => tell (CompressStop h) ;;; wait_offload_thread k
  | None => ret tt
  end.

Definition out_set_offload_parameters (u : option audio_usecase) : A Z :=
  match u with
  | None => ret (-1)
  | Some u =>
      if uc_out u =? SND_DEVICE_OUT_SPEAKER_AND_HEADPHONES then
        set_uc (uc_ptr u) (fun u => u<|uc_out := SND_DEVICE_OUT_HEADPHONES|>) ;;;
        let* _r := disable_snd_device (uc_mixer_list u) SND_DEVICE_OUT_SPEAKER in
        ret 0
      else ret 0
  end.

(** ** Starting and stopping an output *)
Definition stop_output_stream (k : nat) : A Z :=
  let* disable := stop_output_offload_stream k in
  if (disable : bool) then disable_output_path_l k else ret 0.

Definition compress_open : A (option nat * bool) :=
  tell CompressOpen ;;;
  let* a := syscall pcm_answer in
  match a with
  | OpenNull => ret (None, false)
  | OpenNotReady => let* h := fresh in ret (Some h, false)
  | OpenReady => let* h := fresh in ret (Some h, true)
  end.

Definition start_pcm_output (k : nat) : A Z :=
  set_out k (fun o => o<|out_compr := None|>) ;;;
  let* r := out_open_pcm_devices k in
  if negb (r =? 0) then
    let* _r := stop_output_stream k in ret r
  else
    let* s := get in
    set_out k (fun o => o<|out_echo := echo_reference s|>
                         <|out_echo_generation := echo_reference_generation s|>) ;;;
    ret 0.
Definition start_offload_output (k : nat) : A Z :=
  let* c := compress_open in
  match c with
  | (Some h, false) =>
      tell (CompressClose h) ;;;
      set_out k (fun o => o<|out_compr := None|>) ;;;
      let* _r := stop_output_stream k in
      ret (- EIO)
  | (h, _) =>
      set_out k (fun o => o<|out_compr := h|>) ;;;
      let* o := the_out k in
      (if out_callback o then tell (CompressNonblock h (out_non_blocking o)) else ret tt) ;;;
      let* fx := gets offload_fx in
      (if (fx : bool) then tell (FxStart k) else ret tt) ;;;
      ret 0
  end.
Definition start_output_stream (k : nat) : A Z :=
  let* r := enable_output_path_l k in
  if negb (r =? 0) then ret r
  else
    let* o := the_out k in
    if negb (out_usecase o =? USECASE_AUDIO_PLAYBACK_OFFLOAD) then start_pcm_output k
    else start_offload_output k.

(** The echo reference of a stream that goes to standby. *)
Definition stop_echo_write (k : nat) : A unit :=
  let* o := the_out k in
  match out_echo o with
  | None => ret tt
  | Some h =>
      tell (EchoWriteStop h) ;;;
      let* g := gets echo_reference_generation in
      (if negb (out_echo_generation o =? g) then
         tell (EchoRelease h) ;;;
         set_out k (fun o => o<|out_echo_generation := g|>)
       else ret tt) ;;;
      set_out k (fun o => o<|out_echo := None|>)
  end.
Definition close_compress (k : nat) : A unit :=
  let* o := the_out k in
  match out_compr o with
  | Some h => tell (CompressClose h) ;;; set_out k (fun o => o<|out_compr := None|>)
  | None => ret tt
  end.
Definition do_out_standby_l (k : nat) : A Z :=
  set_out k (fun o => o<|out_standby := true|>) ;;;
  let* o := the_out k in
  (if negb (out_usecase o =? USECASE_AUDIO_PLAYBACK_OFFLOAD) then
     out_close_pcm_devices k ;;;
     stop_echo_write k
   else
     stop_compressed_output_l k ;;;
     set_out k (fun o => o<|out_gapless := (0, 0)|>) ;;;
     close_compress k) ;;;
  stop_output_stream k.

(** ** Voice calls *)
Definition stop_voice_call : A Z :=
  modify (fun s => s<|in_call := false|>) ;;;
  stop_voice_session ;;;
  let* u := get_usecase_from_id USECASE_VOICE_CALL in
  match u with
  | None => ret (- EINVAL)
  | Some u =>
      let* _r := disable_snd_device (uc_mixer_list u) (uc_out u) in
      let* _r := disable_snd_device (uc_mixer_list u) (uc_in u) in
      remove_uc (uc_ptr u) ;;;
      ret 0
  end.

Definition set_voice_volume_l : A unit :=
  let* m := gets mode in
  if m =? AUDIO_MODE_IN_CALL then set_voice_session_volume else ret tt.

Definition start_voice_call : A Z :=
  let* p := calloc in
  match p with
  | None => ret (- ENOMEM)
  | Some p =>
      modify (fun s => s<|in_call := true|>) ;;;
      let* primary := gets primary_output in
      let* k := deref NullDeref primary in
      let* o := the_out k in
      let* m := adev_get_mixer_for_card SOUND_CARD in
      let* c := deref NullDeref m in
      add_uc (mkUsecase p USECASE_VOICE_CALL VOICE_CALL (out_devices o) SND_DEVICE_NONE SND_DEVICE_NONE (OutStream k) [c]) ;;;
      let* _r := select_devices SELECT_DEPTH USECASE_VOICE_CALL in
      let* _r := start_voice_session in
      set_voice_volume_l ;;;
      ret 0
  end.

(** ** Echo reference *)
Definition put_echo_reference (reference : option nat) : A unit :=
  let* s := get in
  match echo_reference s with
  | Some h =>
      if bool_decide (reference = Some h) then
        modify (fun s => s<|echo_reference := None|>
                          <|echo_reference_generation := s32 (echo_reference_generation s + 1)|>) ;;;
        match primary_output s with
        | None => tell (EchoRelease h)
        | Some k =>
            let* o := the_out k in
            if out_usecase o =? USECASE_AUDIO_PLAYBACK then
              if (negb (out_echo_generation o =? echo_reference_generation s) || out_standby o)%bool
              then tell (EchoRelease h) else ret tt
            else tell (EchoRelease h)
        end
      else ret tt
  | None => ret tt
  end.

(** [create_echo_reference] leaves NULL when it fails. *)
Definition get_echo_reference : A (option nat) :=
  let* r := gets echo_reference in
  put_echo_reference r ;;;
  let* primary := gets primary_output in
  (match primary with
   | None => ret tt
   | Some k =>
       let* o := the_out k in
       if ((out_usecase o =? USECASE_AUDIO_PLAYBACK) && negb (out_standby o))%bool then
         let* st := syscall status in
         if st =? 0 then
           let* h := fresh in
           modify (fun s => s<|echo_reference := Some h|>
                             <|echo_reference_generation := s32 (echo_reference_generation s + 1)|>)
         else modify (fun s => s<|echo_reference := None|>)
       else ret tt
   end) ;;;
  gets echo_reference.

(** ** Recordings *)
Definition stop_input_stream (k : nat) : A Z :=
  modify (fun s => s<|active_input := None|>) ;;;
  let* i := the_in k in
  let* u := get_usecase_from_id (in_usecase i) in
  match u with
  | None => ret (- EINVAL)
  | Some u =>
      let* _r := disable_snd_device (uc_mixer_list u) (uc_in u) in
      remove_uc (uc_ptr u) ;;;
      if bool_decide (in_pcm_dev_list i = []) then ret (- EINVAL)
      else
        set_in k (fun i => i<|in_pcm_dev_list := []|>) ;;;
        ret 0
  end.

Definition release_resampler_of (k : nat) : A unit :=
  let* i := the_in k in
  match in_resampler i with
  | Some h => tell (ResamplerRelease h) ;;; set_in k (fun i => i<|in_resampler := None|>)
  | None => ret tt
  end.
(** [create_resampler] leaves NULL when it fails. *)
Definition recreate_resampler_of (k : nat) : A Z :=
  release_resampler_of k ;;;
  let* st := syscall resampler_status in
  if st =? 0 then
    let* h := fresh in set_in k (fun i => i<|in_resampler := Some h|>) ;;; ret 0
  else ret st.

(** The configuration and the resampler of the recording. *)
Definition configure_input (k : nat) (profile : pcm_device_profile) : A Z :=
  let* i := the_in k in
  let recreate := negb (rate (in_config i) =? rate (pp_config profile)) in
  let c := pp_config profile in
  let c := if in_aux_channels_changed i
           then mkConfig (audio_channel_count_from_in_mask (Z.lor (in_main_channels i) (in_aux_channels i)))
                  (rate c) (period_size c) (period_count c)
           else c in
  set_in k (fun i => i<|in_config := c|>) ;;;
  if (recreate || in_aux_channels_changed i || negb (in_requested_rate i =? rate c))%bool
  then recreate_resampler_of k else ret 0.

Definition attach_echo (k : nat) : A unit :=
  let* i := the_in k in
  if (in_enable_aec i && negb (bool_decide (is_Some (in_echo i))))%bool then
    let* e := get_echo_reference in
    set_in k (fun i => i<|in_echo := e|>)
  else ret tt.

(** The failure of [create_resampler] does not stop the start: it is returned at the end. *)
Definition open_input (k : nat) (profile : pcm_device_profile) : A Z :=
  let* r := configure_input k profile in
  attach_echo k ;;;
  let* h := pcm_open (pp_card profile) (pp_id profile) (pp_config profile) in
  if (bool_decide (is_Some h.1) && negb h.2)%bool then
    tell (PcmClose h.1) ;;;
    set_in k (fun i => i<|in_pcm_dev_list := [mkPcm profile None 0]|>) ;;;
    release_resampler_of k ;;;
    let* _r := stop_input_stream k in
    modify (fun s => s<|active_input := None|>) ;;;
    ret (- EIO)
  else
    set_in k (fun i => i<|in_pcm_dev_list := [mkPcm profile h.1 0]|>) ;;;
    let* i := the_in k in
    (match in_resampler i with Some rs => tell (ResamplerReset rs) | None => ret tt end) ;;;
    ret r.

Definition no_input (r : Z) : A Z :=
  modify (fun s => s<|active_input := None|>) ;;; ret r.
Definition start_input_stream (k : nat) : A Z :=
  modify (fun s => s<|active_input := Some k|>) ;;;
  let* i := the_in k in
  let* profile := gets (fun s => get_pcm_device s (in_usecase_type i) (in_devices i)) in
  match profile with
  | None => no_input (- EINVAL)
  | Some profile =>
      let* p := calloc in
      match p with
      | None => no_input (- ENOMEM)
      | Some p =>
          let* d := calloc in
          match d with
          | None => no_input (- ENOMEM)
          | Some _ =>
              set_in k (fun i => i<|in_pcm_dev_list := [mkPcm profile None 0]|>) ;;;
              let* m := adev_get_mixer_for_card (pp_card profile) in
              let* c := deref NullDeref m in
              add_uc (mkUsecase p (in_usecase i) PCM_CAPTURE (in_devices i) SND_DEVICE_NONE SND_DEVICE_NONE (InStream k) [c]) ;;;
              let* _r := select_devices SELECT_DEPTH (in_usecase i) in
              open_input k profile
          end
      end
  end.

Definition in_close_pcm_devices (k : nat) : A unit :=
  let* i := the_in k in
  close_pcms (in_pcm_dev_list i) ;;;
  set_in k (fun i => i<|in_pcm_dev_list ::= fmap no_pcm|>).

Definition stop_echo_read (k : nat) : A unit :=
  let* i := the_in k in
  match in_echo i with
  | None => ret tt
  | Some h =>
      tell (EchoReadStop h) ;;;
      put_echo_reference (Some h) ;;;
      set_in k (fun i => i<|in_echo := None|>)
  end.
(** Always 0: the status of [stop_input_stream] is dropped. *)
Definition do_in_standby_l (k : nat) : A Z :=
  let* i := the_in k in
  if in_standby i then ret 0
  else
    in_close_pcm_devices k ;;;
    stop_echo_read k ;;;
    let* _r := stop_input_stream k in
    set_in k (fun i => i<|in_read_buf := false|><|in_standby := true|>) ;;;
    ret 0.
End streams.
