(* ===== verification/AudioQuiet.v ===== *)
(** * Operations that leave the routing alone

    Opening and closing PCMs, the echo reference, the resampler and the voice session: each
    returns and changes neither the use cases nor the counts of the sound devices
    ([quiet]). *)
From S2P Require Import Prelude Machine AudioTypes AudioVoice AudioRoute AudioRouteInv AudioSelect AudioStreams AudioDevice.

Create HintDb audio.

Definition quiet {B} (m : A B) (s : AudioSt) : Prop := returns m s (fun _ s' => frame s s').

Definition live_out (k : nat) (s : AudioSt) : Prop := is_Some (outs s !! k).
Definition live_in (k : nat) (s : AudioSt) : Prop := is_Some (ins s !! k).
Definition primary_live (s : AudioSt) : Prop := forall k, primary_output s = Some k -> live_out k s.
(** The offload thread is not in a call of the driver. *)
Definition thread_idle (k : nat) (s : AudioSt) : Prop :=
  forall o, outs s !! k = Some o -> out_thread_blocked o = false.

Lemma live_out_base k s s' : base s s' -> live_out k s -> live_out k s'.
Proof. intros Hb [o Ho]. destruct (base_out _ _ _ _ Hb Ho) as (o' & Ho' & _). by exists o'. Qed.
Lemma live_in_base k s s' : base s s' -> live_in k s -> live_in k s'.
Proof. intros Hb [i Hi]. destruct (base_in _ _ _ _ Hb Hi) as (i' & Hi' & _). by exists i'. Qed.
Lemma primary_live_base s s' : base s s' -> primary_live s -> primary_live s'.
Proof. intros Hb Hp k Hk. rewrite (b_primary _ _ Hb) in Hk. eapply live_out_base; eauto. Qed.
Lemma thread_idle_base k s s' : base s s' -> thread_idle k s -> thread_idle k s'.
Proof. intros Hb Hi o' Ho'. destruct (base_out_inv _ _ _ _ Hb Ho') as (o & Ho & _ & _ & _ & -> & _). by apply Hi. Qed.
Lemma frame_base s s' : frame s s' -> base s s'.
Proof. by intros []. Qed.

(** What holds of the streams carries over along the frames. *)
Ltac live :=
  repeat match goal with
  | H : ?P |- ?P => exact H
  | H : frame ?s ?s' |- live_out ?k ?s' => apply (live_out_base k s s' (frame_base s s' H))
  | H : frame ?s ?s' |- live_in ?k ?s' => apply (live_in_base k s s' (frame_base s s' H))
  | H : frame ?s ?s' |- primary_live ?s' => apply (primary_live_base s s' (frame_base s s' H))
  | H : frame ?s ?s' |- thread_idle ?k ?s' => apply (thread_idle_base k s s' (frame_base s s' H))
  | H : base ?s ?s' |- live_out ?k ?s' => apply (live_out_base k s s' H)
  | H : base ?s ?s' |- live_in ?k ?s' => apply (live_in_base k s s' H)
  | H : base ?s ?s' |- primary_live ?s' => apply (primary_live_base s s' H)
  | H : base ?s ?s' |- thread_idle ?k ?s' => apply (thread_idle_base k s s' H)
  end.
(** Composes the frames, and their bases, backwards. *)
Ltac frames :=
  match goal with
  | |- frame ?a ?a => apply frame_refl
  | H : frame ?b ?c |- frame ?a ?c => first [exact H | apply (frame_trans a b c); [frames|exact H]]
  end.
Ltac bases :=
  match goal with
  | |- base ?a ?a => apply base_refl
  | H : base ?b ?c |- base ?a ?c => first [exact H | apply (base_trans a b c); [bases|exact H]]
  | H : frame ?b ?c |- base ?a ?c => apply (base_trans a b c); [bases|exact (frame_base b c H)]
  end.
#[export] Hint Extern 1 (live_out _ _) => solve [live] : audio.
#[export] Hint Extern 1 (live_in _ _) => solve [live] : audio.
#[export] Hint Extern 1 (primary_live _) => solve [live] : audio.
#[export] Hint Extern 1 (thread_idle _ _) => solve [live] : audio.

Section quiet.
Context `{API : AudioApi} `{HW : AudioHw} `{MEM : Memory}.

(** ** The calculus *)
Lemma bind_out {B} k (f : stream_out -> A B) s o P :
  outs s !! k = Some o -> returns (f o) s P -> returns (bind (the_out k) f) s P.
Proof. intros Ho Hf. unfold returns. by run (the_out_spec _ _ _ Ho). Qed.
Lemma bind_in {B} k (f : stream_in -> A B) s i P :
  ins s !! k = Some i -> returns (f i) s P -> returns (bind (the_in k) f) s P.
Proof. intros Hi Hf. unfold returns. by run (the_in_spec _ _ _ Hi). Qed.
Lemma bind_gets {B C} (g : AudioSt -> C) (f : C -> A B) s P :
  returns (f (g s)) s P -> returns (bind (gets g) f) s P.
Proof. done. Qed.
Lemma bind_unassoc {B C D} (m : A B) (f : B -> A C) (g : C -> A D) s P :
  returns (bind (bind m f) g) s P -> returns (bind m (fun b => bind (f b) g)) s P.
Proof. unfold returns, bind. destruct (m s); cbn [obind]; [done|done|]. by intros (? & ? & ? & _). Qed.
Lemma bind_get {B} (f : AudioSt -> A B) s P : returns (f s) s P -> returns (bind get f) s P.
Proof. done. Qed.
Lemma bind_ret {B C} (c : C) (f : C -> A B) s P : returns (f c) s P -> returns (bind (ret c) f) s P.
Proof. done. Qed.
Lemma bind_deref {B C} e (c : C) (f : C -> A B) s P : returns (f c) s P -> returns (bind (deref e (Some c)) f) s P.
Proof. done. Qed.
Lemma bind_modify {B} g (f : unit -> A B) s P : returns (f tt) (g s) P -> returns (bind (modify g) f) s P.
Proof. done. Qed.
Lemma bind_assoc {B C D} (m : A B) (f : B -> A C) (g : C -> A D) s P :
  returns (bind m (fun b => bind (f b) g)) s P -> returns (bind (bind m f) g) s P.
Proof. unfold returns, bind. destruct (m s); cbn [obind]; [done|done|]. by intros (? & ? & ? & _). Qed.
Lemma quiet_bind {B C} (m : A B) (f : B -> A C) s :
  quiet m s -> (forall r s', frame s s' -> quiet (f r) s') -> quiet (bind m f) s.
Proof.
  intros Hm Hf. eapply returns_bind; [exact Hm|]. intros r s' Hr. cbn in Hr. eapply returns_mono; [by apply Hf|].
  intros r' s'' Hr'. by eapply frame_trans.
Qed.
Lemma quiet_ret {B} (r : B) s : quiet (ret r) s.
Proof. apply returns_ret, frame_refl. Qed.
Lemma quiet_gets {B} (f : AudioSt -> B) s : quiet (gets f) s.
Proof. apply returns_gets, frame_refl. Qed.
Lemma quiet_get s : quiet get s.
Proof. exists s, s. split; [done|apply frame_refl]. Qed.
Lemma quiet_get_bind {C} (f : AudioSt -> A C) s : quiet (f s) s -> quiet (bind get f) s.
Proof. done. Qed.
Lemma quiet_gets_bind {B C} (g : AudioSt -> B) (f : B -> A C) s : quiet (f (g s)) s -> quiet (bind (gets g) f) s.
Proof. done. Qed.
Lemma quiet_modify f s : frame s (f s) -> quiet (modify f) s.
Proof. intros Hf. by exists tt, (f s). Qed.
Lemma quiet_tell e s : quiet (tell e) s.
Proof. apply quiet_modify. split; [|by destruct s]. apply routes_base. by destruct s. Qed.
Lemma quiet_syscall {B} (f : nat -> B) s : quiet (syscall f) s.
Proof. eexists _, _. split; [reflexivity|]. split; [|done]. split; cbn; auto using same_outs_refl, same_ins_refl. Qed.
Lemma quiet_fresh s : quiet fresh s.
Proof. eexists _, _. split; [reflexivity|]. split; [|done]. split; cbn; auto using same_outs_refl, same_ins_refl. Qed.
Lemma quiet_for_each {B} (l : list B) (f : B -> A unit) s :
  (forall b s', frame s s' -> quiet (f b) s') -> quiet (for_each l f) s.
Proof.
  revert s. induction l as [|b l IH]; intros s Hf; [apply quiet_ret|]. cbn [for_each].
  apply quiet_bind; [apply Hf, frame_refl|]. intros _ s' Hs. apply IH. intros b' s'' Hs'. apply Hf. by eapply frame_trans.
Qed.

Lemma returns_the_out k s : live_out k s -> returns (the_out k) s (fun o s' => s' = s /\ outs s !! k = Some o).
Proof. intros [o Ho]. exists o, s. by rewrite (the_out_spec k o). Qed.
Lemma returns_the_in k s : live_in k s -> returns (the_in k) s (fun i s' => s' = s /\ ins s !! k = Some i).
Proof. intros [i Hi]. exists i, s. by rewrite (the_in_spec k i). Qed.
Lemma quiet_the_out k s : live_out k s -> quiet (the_out k) s.
Proof. intros Hk. eapply returns_mono; [by apply returns_the_out|]. intros o s' [-> _]. apply frame_refl. Qed.
Lemma quiet_the_in k s : live_in k s -> quiet (the_in k) s.
Proof. intros Hk. eapply returns_mono; [by apply returns_the_in|]. intros o s' [-> _]. apply frame_refl. Qed.

Lemma option_insert {X} (R : X -> X -> Prop) (m : gmap nat X) k x y j :
  (forall z, R z z) -> m !! k = Some x -> R x y -> option_Forall2 R (m !! j) (<[k := y]> m !! j).
Proof.
  intros HR Hx Hxy. destruct (decide (j = k)) as [->|Hn].
  - rewrite lookup_insert_eq, Hx. by constructor.
  - rewrite lookup_insert_ne by done. destruct (m !! j); by constructor.
Qed.
Lemma quiet_set_out k f s : live_out k s -> (forall o, same_out o (f o)) -> quiet (set_out k f) s.
Proof.
  intros [o Ho] Hf. unfold set_out. exists tt, (s<|outs ::= <[k := f o]>|>). run (the_out_spec _ _ _ Ho). split; [done|].
  split; [|by destruct s]. split; cbn; auto using same_ins_refl.
  intros j. by apply (option_insert same_out _ k o).
Qed.
Lemma quiet_set_in k f s : live_in k s -> (forall i, same_in i (f i)) -> quiet (set_in k f) s.
Proof.
  intros [i Hi] Hf. unfold set_in. exists tt, (s<|ins ::= <[k := f i]>|>). run (the_in_spec _ _ _ Hi). split; [done|].
  split; [|by destruct s]. split; cbn; auto using same_outs_refl.
  intros j. by apply (option_insert same_in _ k i).
Qed.
Lemma quiet_session f s : quiet (with_session f) s.
Proof. apply quiet_modify. split; [|by destruct s]. apply routes_base. by destruct s. Qed.
End quiet.

(** Goes through a program that is quiet. *)
Ltac quiet1 :=
  match goal with
  | |- quiet (bind _ _) _ => apply quiet_bind; [|intros ? ? ?]
  | |- quiet (ret _) _ => apply quiet_ret
  | |- quiet (gets _) _ => apply quiet_gets
  | |- quiet get _ => apply quiet_get
  | |- quiet (tell _) _ => apply quiet_tell
  | |- quiet (syscall _) _ => apply quiet_syscall
  | |- quiet fresh _ => apply quiet_fresh
  | |- quiet (the_out _) _ => apply quiet_the_out
  | |- quiet (the_in _) _ => apply quiet_the_in
  | |- quiet (set_out _ _) _ => apply quiet_set_out; [|by intros []]
  | |- quiet (set_in _ _) _ => apply quiet_set_in; [|by intros []]
  | |- quiet (with_session _) _ => apply quiet_session
  | |- quiet (for_each _ _) _ => apply quiet_for_each; intros
  | |- quiet (if ?b then _ else _) _ => destruct b
  | |- quiet (match ?x with Some _ => _ | None => _ end) _ => destruct x
  | |- quiet (modify _) _ => apply quiet_modify; split; [split; cbn; auto using same_outs_refl, same_ins_refl; done|done]
  | |- quiet _ _ => solve [eauto with audio]
  | |- live_out _ _ => solve [live]
  | |- live_in _ _ => solve [live]
  end.
Ltac quiet := repeat quiet1.

(** A quiet program with a known result. *)
Definition yields {B} (v : B) (m : A B) (s : AudioSt) : Prop := returns m s (fun r s' => r = v /\ frame s s').
Lemma yields_value_bind {B C} (v : C) (m : A B) (f : B -> A C) s :
  quiet m s -> (forall r s', frame s s' -> yields v (f r) s') -> yields v (bind m f) s.
Proof.
  intros Hm Hf. eapply returns_bind; [exact Hm|]. intros r s' Hr. cbn in Hr. eapply returns_mono; [by apply Hf|].
  intros r' s'' [-> Hr']. split; [done|]. by eapply frame_trans.
Qed.
Lemma yields_value_ret {B} (v : B) s : yields v (ret v) s.
Proof. apply returns_ret. split; [done|apply frame_refl]. Qed.
Ltac yields := repeat first [apply yields_value_ret | apply yields_value_bind; [quiet|intros ? ? ?]].

Section ops.
Context `{API : AudioApi} `{HW : AudioHw} `{MEM : Memory}.

Lemma quiet_pcm_open card id c s : quiet (pcm_open card id c) s.
Proof. unfold pcm_open. apply quiet_bind; [quiet|intros]. apply quiet_bind; [quiet|intros [] ? ?]; quiet. Qed.
Lemma quiet_compress_open s : quiet compress_open s.
Proof. unfold compress_open. apply quiet_bind; [quiet|intros]. apply quiet_bind; [quiet|intros [] ? ?]; quiet. Qed.
Lemma quiet_close_pcms l s : quiet (close_pcms l) s.
Proof. unfold close_pcms. quiet. Qed.
#[local] Hint Resolve quiet_pcm_open quiet_compress_open quiet_close_pcms : audio.

(** ** Outputs *)
Lemma quiet_out_close k s : live_out k s -> quiet (out_close_pcm_devices k) s.
Proof. intros Hk. unfold out_close_pcm_devices. quiet. Qed.
#[local] Hint Resolve quiet_out_close : audio.
Lemma quiet_set_pcm k i h s : live_out k s -> quiet (set_pcm k i h) s.
Proof. intros Hk. unfold set_pcm. quiet. Qed.
#[local] Hint Resolve quiet_set_pcm : audio.
Lemma quiet_open_from k l : forall i s, live_out k s -> quiet (out_open_from k i l) s.
Proof. induction l as [|d l IH]; intros i s Hk; cbn [out_open_from]; quiet. Qed.
#[local] Hint Resolve quiet_open_from : audio.
Lemma quiet_out_open k s : live_out k s -> quiet (out_open_pcm_devices k) s.
Proof. intros Hk. unfold out_open_pcm_devices. quiet. Qed.
Lemma quiet_stop_echo_write k s : live_out k s -> quiet (stop_echo_write k) s.
Proof. intros Hk. unfold stop_echo_write. quiet. Qed.
Lemma quiet_close_compress k s : live_out k s -> quiet (close_compress k) s.
Proof. intros Hk. unfold close_compress. quiet. Qed.
Lemma quiet_wait_thread k s : live_out k s -> thread_idle k s -> quiet (wait_offload_thread k) s.
Proof.
  intros Hk Hi. unfold wait_offload_thread. eapply returns_bind; [by apply returns_the_out|]. intros o s' [-> Ho].
  rewrite (Hi o Ho). apply quiet_ret.
Qed.
#[local] Hint Resolve quiet_wait_thread : audio.
Lemma quiet_stop_compressed k s : live_out k s -> thread_idle k s -> quiet (stop_compressed_output_l k) s.
Proof. intros Hk Hi. unfold stop_compressed_output_l. quiet. Qed.
Lemma quiet_stop_offload k s : live_out k s -> quiet (stop_output_offload_stream k) s.
Proof. intros Hk. unfold stop_output_offload_stream. quiet. Qed.

(** ** The echo reference *)
Lemma quiet_put_echo r s : primary_live s -> quiet (put_echo_reference r) s.
Proof.
  intros Hp. unfold put_echo_reference. apply quiet_get_bind.
  destruct (echo_reference s) as [h|]; [|quiet]. destruct (bool_decide _); [|quiet].
  apply quiet_bind; [quiet|]. intros _ s1 Hs1. destruct (primary_output s) as [k|] eqn:Hk; [|quiet].
  specialize (Hp k Hk). quiet.
Qed.
#[local] Hint Resolve quiet_put_echo : audio.
Lemma quiet_get_echo s : primary_live s -> quiet get_echo_reference s.
Proof.
  intros Hp. unfold get_echo_reference. apply quiet_bind; [quiet|]. intros r s1 H1. apply quiet_bind; [quiet|]. intros _ s2 H2.
  assert (primary_live s2) as Hp2 by live.
  apply quiet_gets_bind. apply quiet_bind; [|intros; apply quiet_gets].
  destruct (primary_output s2) as [k|] eqn:Hs3; [|quiet]. specialize (Hp2 k Hs3). quiet.
Qed.
#[local] Hint Resolve quiet_get_echo : audio.

(** ** Recordings *)
Lemma quiet_release_resampler k s : live_in k s -> quiet (release_resampler_of k) s.
Proof. intros Hk. unfold release_resampler_of. quiet. Qed.
#[local] Hint Resolve quiet_release_resampler : audio.
Lemma quiet_recreate_resampler k s : live_in k s -> quiet (recreate_resampler_of k) s.
Proof. intros Hk. unfold recreate_resampler_of. quiet. Qed.
#[local] Hint Resolve quiet_recreate_resampler : audio.
Lemma quiet_configure_input k p s : live_in k s -> quiet (configure_input k p) s.
Proof. intros Hk. unfold configure_input. quiet. Qed.
Lemma quiet_attach_echo k s : live_in k s -> primary_live s -> quiet (attach_echo k) s.
Proof. intros Hk Hp. unfold attach_echo. quiet. Qed.
Lemma quiet_in_close k s : live_in k s -> quiet (in_close_pcm_devices k) s.
Proof. intros Hk. unfold in_close_pcm_devices. quiet. Qed.
Lemma quiet_stop_echo_read k s : live_in k s -> primary_live s -> quiet (stop_echo_read k) s.
Proof. intros Hk Hp. unfold stop_echo_read. quiet. Qed.

(** ** The voice session *)
Lemma quiet_start_session s : quiet start_voice_session s.
Proof. unfold start_voice_session. quiet. Qed.
Lemma quiet_stop_and_close h s : quiet (stop_and_close h) s.
Proof. unfold stop_and_close. quiet. Qed.
#[local] Hint Resolve quiet_start_session quiet_stop_and_close : audio.
Lemma quiet_stop_session s : quiet stop_voice_session s.
Proof. unfold stop_voice_session. quiet. Qed.
#[local] Hint Resolve quiet_stop_session : audio.
Lemma quiet_volume s : quiet set_voice_volume_l s.
Proof. unfold set_voice_volume_l, set_voice_session_volume. quiet. Qed.
Lemma quiet_close_sco s : quiet close_sco_rx s.
Proof. unfold close_sco_rx. quiet. Qed.
#[local] Hint Resolve quiet_close_sco : audio.
Lemma quiet_start_sco s : quiet start_voice_session_bt_sco s.
Proof. unfold start_voice_session_bt_sco. quiet. Qed.
Lemma quiet_stop_sco s : quiet stop_voice_session_bt_sco s.
Proof. unfold stop_voice_session_bt_sco. quiet. Qed.
End ops.
#[export] Hint Resolve quiet_pcm_open quiet_compress_open quiet_close_pcms quiet_out_close quiet_set_pcm quiet_open_from
  quiet_out_open quiet_stop_echo_write quiet_close_compress quiet_stop_compressed quiet_stop_offload quiet_put_echo
  quiet_get_echo quiet_release_resampler quiet_recreate_resampler quiet_configure_input quiet_attach_echo quiet_in_close
  quiet_stop_echo_read quiet_start_session quiet_stop_session quiet_volume quiet_start_sco quiet_stop_sco : audio.
