(* ===== verification/AudioPaths.v ===== *)
(** * Starting and stopping streams

    Each of [start_output_stream], [do_out_standby_l], [start_voice_call],
    [stop_voice_call], [start_input_stream] and [do_in_standby_l] returns and keeps
    [device_ok], on the error paths too: the use case of the stream joins the list when it
    starts, and leaves it when it stops or its start fails. *)
From S2P Require Import Prelude Machine AudioTypes AudioVoice AudioRoute AudioRouteInv AudioSelect AudioStreams AudioDevice AudioQuiet.

(** The use cases but one. *)
Definition without_id (id : Z) (l : list audio_usecase) : list audio_usecase :=
  List.filter (fun u => negb (uc_id u =? id)) l.

Lemma without_others l u :
  NoDup (uc_ptr <$> l) -> NoDup (uc_id <$> l) -> u ∈ l -> others (uc_ptr u) l = without_id (uc_id u) l.
Proof.
  intros Hp Hi Hu. unfold others, without_id. apply filter_ext_in. intros v Hv%list_elem_of_In. f_equal.
  apply list_elem_of_lookup in Hu as [i Hui], Hv as [j Hvj].
  destruct (decide (i = j)) as [->|Hn]; [assert (u = v) as -> by congruence; by rewrite Nat.eqb_refl, Z.eqb_refl|].
  rewrite (proj2 (Nat.eqb_neq _ _)), (proj2 (Z.eqb_neq _ _)); [done| |]; intros E; apply Hn; symmetry.
  - eapply (NoDup_lookup (uc_id <$> l)); [done|by rewrite list_lookup_fmap, Hvj|rewrite list_lookup_fmap, Hui; cbn; by rewrite E].
  - eapply (NoDup_lookup (uc_ptr <$> l)); [done|by rewrite list_lookup_fmap, Hvj|rewrite list_lookup_fmap, Hui; cbn; by rewrite E].
Qed.
Lemma without_absent id l : (forall u, u ∈ l -> uc_id u <> id) -> without_id id l = l.
Proof.
  intros Ha. unfold without_id. induction l as [|u l IH]; [done|]. cbn [List.filter].
  rewrite (proj2 (Z.eqb_neq _ _)) by (apply Ha; by left). cbn [negb]. f_equal. apply IH. intros v Hv. apply Ha. by right.
Qed.
Lemma without_app id l k : without_id id (l ++ k) = without_id id l ++ without_id id k.
Proof. apply List.filter_app. Qed.
Lemma find_absent id l : find (fun u => uc_id u =? id) l = None -> forall u, u ∈ l -> uc_id u <> id.
Proof. intros Hf u Hu%list_elem_of_In. apply (find_none _ _ Hf) in Hu. by apply Z.eqb_neq in Hu. Qed.

Section paths.
Context `{API : AudioApi} `{HW : AudioHw} `{MEM : Memory}.

(** The kind of a use case follows from its identifier. *)
Lemma playback_id s u :
  device_core s -> u ∈ usecase_list s -> 0 <= uc_id u <= USECASE_AUDIO_PLAYBACK_DEEP_BUFFER ->
  uc_type u = PCM_PLAYBACK /\ uc_in u = SND_DEVICE_NONE /\ exists j o, uc_stream u = OutStream j /\ outs s !! j = Some o.
Proof.
  intros Hd Hu Hr. pose proof (ok_ucs s (dev_core s Hd)) as Hw. rewrite Forall_forall in Hw. destruct (Hw u Hu) as [H|[H|H]].
  - destruct H as (Ht & Hi & _ & k & o & Hst & Ho & _). split_and!; [done|done|]. by exists k, o.
  - destruct H as (_ & _ & _ & k & i & _ & Hi & Hid). exfalso. rewrite (dev_ins s Hd k i Hi) in Hid.
    unfold USECASE_AUDIO_CAPTURE, USECASE_AUDIO_PLAYBACK_DEEP_BUFFER in *. lia.
  - destruct H as (_ & Hid & _). exfalso. unfold USECASE_VOICE_CALL, USECASE_AUDIO_PLAYBACK_DEEP_BUFFER in *. lia.
Qed.
Lemma capture_id s u :
  device_core s -> u ∈ usecase_list s -> uc_id u = USECASE_AUDIO_CAPTURE ->
  uc_type u = PCM_CAPTURE /\ uc_out u = SND_DEVICE_NONE.
Proof.
  intros Hd Hu Hr. pose proof (ok_ucs s (dev_core s Hd)) as Hw. rewrite Forall_forall in Hw. destruct (Hw u Hu) as [H|[H|H]].
  - destruct H as (_ & _ & _ & k & o & _ & Ho & Hid). exfalso. pose proof (dev_outs s Hd k o Ho).
    unfold USECASE_AUDIO_CAPTURE, USECASE_AUDIO_PLAYBACK_DEEP_BUFFER in *. lia.
  - by destruct H as (Ht & Ho & _).
  - destruct H as (_ & Hid & _). exfalso. unfold USECASE_VOICE_CALL, USECASE_AUDIO_CAPTURE in *. lia.
Qed.

(** ** Disabling the devices of a use case *)
Lemma counts_base s s' : counts_only s s' -> base s s' /\ usecase_list s' = usecase_list s /\ in_call s' = in_call s /\ session s' = session s.
Proof. intros Hc. split; [by apply routes_base, counts_routes|]. by rewrite Hc. Qed.

Lemma disable_uc s u x f :
  device_core s -> u ∈ usecase_list s -> refs_are s f -> valid_device x -> (forall d, cnt x d <= f d) -> f SND_DEVICE_NONE = 0 ->
  returns (disable_snd_device (uc_mixer_list u) x) s (fun _ s' =>
    base s s' /\ usecase_list s' = usecase_list s /\ in_call s' = in_call s /\ refs_are s' (fun d => f d - cnt x d)).
Proof.
  intros Hd Hu Hr Hx Hle Hn. destruct (dev_core s Hd) as [[(_ & _ & Hv & _) _] _ _ _].
  destruct (disable_spec (uc_mixer_list u) x s f Hr Hx Hv Hle Hn) as (r & s' & Hdis & Hc & Hr').
  exists r, s'. split; [done|]. destruct (counts_base _ _ Hc) as (Hb & Hl & Hic & _). done.
Qed.

Lemma remove_spec p s : returns (remove_uc p) s (fun _ s' =>
  base s s' /\ in_call s' = in_call s /\ snd_dev_ref_cnt s' = snd_dev_ref_cnt s /\ usecase_list s' = others p (usecase_list s)).
Proof. apply returns_modify. split; [apply routes_base; by destruct s|by destruct s]. Qed.

(** ** The path of an output *)
Lemma uc_release_spec s u j o :
  uc_stream u = OutStream j -> outs s !! j = Some o ->
  returns (uc_release_pcm_devices u) s (fun _ s' => base s s' /\ in_call s' = in_call s /\
    snd_dev_ref_cnt s' = snd_dev_ref_cnt s /\ others (uc_ptr u) (usecase_list s') = others (uc_ptr u) (usecase_list s)).
Proof.
  intros Hst Ho. unfold uc_release_pcm_devices, out_of. rewrite Hst.
  apply bind_assoc. eapply bind_out; [exact Ho|]. apply bind_ret. cbn [fst].
  eapply returns_bind; [apply (quiet_set_out j); [by eexists|by intros []]|]. intros _ s1 (Hb & Hic & Hl & Hr).
  exists tt. eexists. split; [apply set_uc_spec|]. split_and!; [|done|done|].
  - eapply base_trans; [exact Hb|]. apply routes_base. by destruct s1.
  - cbn. rewrite Hl. by apply others_at_self.
Qed.

Lemma disable_path_spec k o s :
  device_ok s -> outs s !! k = Some o ->
  returns (disable_output_path_l k) s (fun _ s' =>
    device_ok s' /\ base s s' /\ in_call s' = in_call s /\ usecase_list s' = without_id (out_usecase o) (usecase_list s)).
Proof.
  intros Hok Ho. pose proof (proj1 Hok) as Hd. pose proof (dev_outs s Hd k o Ho) as Hrange.
  unfold disable_output_path_l, get_usecase_from_id. eapply bind_out; [exact Ho|]. apply bind_gets.
  destruct (find _ (usecase_list s)) as [u|] eqn:Hf; cycle 1.
  { apply returns_ret. split_and!; [done|apply base_refl|done|]. symmetry. apply without_absent. by apply find_absent. }
  destruct (from_id_spec _ _ _ Hf (ok_refs s (dev_core s Hd))) as (Hu & Hid & Hp).
  destruct (playback_id s u Hd Hu) as (Ht & Hin & j & oj & Hst & Hoj); [by rewrite Hid|].
  destruct (dev_core s Hd) as [[(Hnp & Hni & Hv & _) Hrf] _ _ _].
  assert (uc_valid u) as [Hvo%sound_out_valid _] by (rewrite Forall_forall in Hv; by apply Hv).
  eapply returns_bind; [apply (disable_uc s u _ _ Hd Hu Hrf Hvo); [|apply demand_none; done]|].
  { intros d. rewrite (demand_split _ _ _ d Hnp Hp). unfold use1. pose proof (cnt_bounds (uc_in u) d).
    pose proof (demand_bounds (others (uc_ptr u) (usecase_list s)) d). lia. }
  intros _ s1 (Hb1 & Hl1 & Hc1 & Hr1). destruct (base_out _ _ _ _ Hb1 Hoj) as (oj1 & Hoj1 & _).
  eapply returns_bind; [by eapply (uc_release_spec s1 u)|]. intros _ s2 (Hb2 & Hc2 & Hr2 & Hl2).
  eapply returns_bind; [apply remove_spec|]. intros _ s3 (Hb3 & Hc3 & Hr3 & Hl3). apply returns_ret.
  assert (base s s3) as Hb by (eapply base_trans; [exact Hb1|]; by eapply base_trans).
  assert (usecase_list s3 = others (uc_ptr u) (usecase_list s)) as Hl by congruence.
  split_and!; [split|done|congruence|].
  - eapply (leave_core s s3); [done|exact Hp|done|done| |left; congruence].
    apply (refs_are_ext s3 (fun d => demand (usecase_list s) d - cnt (uc_out u) d)).
    { intros d _. unfold use1. rewrite Hin. cbn. lia. }
    unfold refs_are. by rewrite Hr3, Hr2.
  - eapply (leave_ready s s3); [done|exact Hp| |congruence|done]. rewrite Hid.
    unfold USECASE_VOICE_CALL, USECASE_AUDIO_PLAYBACK_DEEP_BUFFER in *. lia.
  - rewrite Hl, <-Hid. by apply without_others.
Qed.

(** ** The PCM devices of an output *)
Lemma calloc_spec s :
  returns calloc s (fun p s' => frame s s' /\
    match p with Some p => (next_addr s <= p < next_addr s')%nat | None => True end).
Proof.
  unfold calloc. eapply returns_bind; [apply quiet_syscall|]. intros b s1 H1. destruct b; cycle 1.
  { by apply returns_ret. }
  exists (Some (next_addr s1)), (s1<|next_addr ::= S|>). split; [done|]. split.
  - eapply frame_trans; [exact H1|]. split; [|done]. split; cbn; auto using same_outs_refl, same_ins_refl.
  - destruct H1 as [Hb _]. pose proof (b_addr _ _ Hb). cbn. lia.
Qed.

Lemma without_has d m x : has (without (without d m) x) m = false.
Proof.
  unfold has, without. apply negb_false_iff, Z.eqb_eq. apply Z.bits_inj'. intros n Hn.
  rewrite !Z.land_spec, Z.bits_0. unfold u32, wrapu. destruct (decide (n < 32)) as [Hlt|Hge].
  - rewrite !Z.mod_pow2_bits_low, !Z.lnot_spec by lia. destruct (Z.testbit m n); cbn; [|by rewrite !andb_false_r].
    by rewrite !andb_false_r.
  - rewrite !Z.mod_pow2_bits_high by lia. by rewrite !andb_false_r.
Qed.
(** Only the playback profile is for playbacks, and it covers all its devices at once. *)
Lemma playback_profile s d p : get_pcm_device s PCM_PLAYBACK d = Some p ->
  p = pcm_device_playback (playback_period s).
Proof. unfold get_pcm_device. cbn. destruct (has _ _); by intros [= <-]. Qed.
Lemma playback_rest s d : get_pcm_device s PCM_PLAYBACK (without d OUT_DEVICES) = None.
Proof.
  unfold get_pcm_device. cbn. by rewrite without_has.
Qed.

Lemma add_pcm_frame k p s : live_out k s -> quiet (set_out k (fun o => o<|out_pcm_dev_list ::= fun l => l ++ [p]|>)) s.
Proof. intros Hk. apply quiet_set_out; [done|by intros []]. Qed.

Lemma uc_select_spec k u s :
  live_out k s -> uc_type u = PCM_PLAYBACK -> find (fun c => c =? SOUND_CARD) (mixer_list s) = Some SOUND_CARD ->
  returns (uc_select_pcm_devices k u) s (fun u' s' => frame s s' /\ exists l, u' = u<|uc_mixer_list := l|>).
Proof.
  intros Hk Ht Hcard. destruct u as [ptr id type dev x i st mx]. cbn in Ht. subst type. unfold uc_select_pcm_devices.
  change ((mkUsecase ptr id PCM_PLAYBACK dev x i st mx)<|uc_mixer_list := []|>)
    with (mkUsecase ptr id PCM_PLAYBACK dev x i st []). cbn [uc_devices].
  change 33%nat with (S (S 31)). generalize 31%nat. intros n. eapply returns_bind; [apply (quiet_set_out k); [done|by intros []]|].
  intros ? s1 H1. cbn beta in H1. assert (live_out k s1) as Hk1 by live. cbn [uc_select_loop]. apply bind_gets. cbn [uc_type uc_devices].
  destruct (get_pcm_device s1 PCM_PLAYBACK dev) as [p|] eqn:Hp; [|apply returns_ret; split; [done|by eexists]].
  eapply returns_bind; [apply calloc_spec|]. intros d s2 [H2 _]. destruct d as [d|]; cycle 1.
  { apply returns_ret. split; [by eapply frame_trans|by eexists]. }
  eapply returns_bind; [apply add_pcm_frame; live|]. intros ? s3 H3. cbn beta in H3.
  assert (frame s s3) as H13 by (eapply frame_trans; [exact H1|]; by eapply frame_trans).
  pose proof (playback_profile _ _ _ Hp) as ->. cbn [uc_get_mixer_for_card].
  apply bind_assoc. unfold adev_get_mixer_for_card. apply bind_gets. rewrite (b_cards _ _ (proj1 H13)).
  change (pp_card (pcm_device_playback (playback_period s1))) with SOUND_CARD. rewrite Hcard. apply bind_assoc, bind_deref, bind_ret.
  change (set_field uc_mixer_list _ (mkUsecase ptr id PCM_PLAYBACK dev x i st []))
    with (mkUsecase ptr id PCM_PLAYBACK dev x i st [SOUND_CARD]).
  apply bind_gets. change (pp_devices (pcm_device_playback (playback_period s1))) with OUT_DEVICES.
  cbn [uc_type]. rewrite playback_rest. apply returns_ret.
  split; [done|]. by eexists.
Qed.

(** The use case [id] is in the list, behind the others. *)
Definition starts (id : Z) (s s' : AudioSt) : Prop :=
  uc_id <$> usecase_list s' = (uc_id <$> usecase_list s) ++ [id].

Lemma select_new s s1 u :
  device_ok s -> frame s s1 -> joins s1 u -> uc_type u <> VOICE_CALL ->
  returns (add_uc u ;;; select_devices SELECT_DEPTH (uc_id u)) s1 (fun r s' =>
    r = 0 /\ device_ok s' /\ base s s' /\ in_call s' = in_call s /\ starts (uc_id u) s s').
Proof.
  intros Hok Hf Hj Ht. pose proof (frame_ok _ _ Hf Hok) as [Hd1 Hc1]. pose proof (add_core s1 u Hd1 Hj) as Hd2.
  unfold add_uc. apply bind_modify. set (s2 := set_field usecase_list _ s1) in *.
  assert (call_ready s2) as Hc2.
  { intros Hic. destruct (Hc1 Hic) as (v & Hv & Hair). exists v. split; [|done]. apply elem_of_app. by left. }
  destruct (select_ok 0 s2 (uc_id u) u) as (s3 & out & inp & _ & Hs3 & Hk); [by apply device_routing| |done|].
  { apply find_id; [apply Hd2|]. apply elem_of_app. right. by apply list_elem_of_singleton. }
  exists 0, s3. split; [exact Hs3|].
  assert (base s2 s3) as Hb23 by (by apply routes_base, Hk).
  assert (base s1 s2) as Hb12 by (apply routes_base; by destruct s1).
  split_and!; [done|by eapply keeps_device| | |].
  - eapply base_trans; [apply Hf|]. by eapply base_trans.
  - transitivity (in_call s2); [by destruct Hk as (_ & -> & _)|]. transitivity (in_call s1); [done|apply Hf].
  - unfold starts. destruct Hf as (_ & _ & <- & _). transitivity (uc_id <$> usecase_list s2).
    + destruct Hk as (_ & _ & _ & Hs). clear -Hs. induction Hs as [|v w l l' (_ & E & _) _ IH]; [done|]. by rewrite !fmap_cons, E, IH.
    + unfold s2. cbn. by rewrite fmap_app.
Qed.

Lemma enable_path_spec k o s :
  device_ok s -> outs s !! k = Some o -> (forall u, u ∈ usecase_list s -> uc_id u <> out_usecase o) ->
  returns (enable_output_path_l k) s (fun r s' =>
    device_ok s' /\ base s s' /\ in_call s' = in_call s /\
    if r =? 0 then starts (out_usecase o) s s' else usecase_list s' = usecase_list s).
Proof.
  intros Hok Ho Habs. pose proof (proj1 Hok) as Hd. unfold enable_output_path_l.
  eapply returns_bind; [apply calloc_spec|]. intros p s1 [H1 Hp]. destruct p as [p|]; cycle 1.
  { apply returns_ret. change (- ENOMEM =? 0) with false. split_and!; [by eapply frame_ok|apply H1..]. }
  destruct (base_out _ _ _ _ (proj1 H1) Ho) as (o1 & Ho1 & Euc & _). eapply bind_out; [exact Ho1|].
  eapply returns_bind; [apply uc_select_spec; [by eexists|done|]|].
  { rewrite (b_cards _ _ (proj1 H1)). apply Hd. }
  intros u s2 (H2 & l & ->). set (u := set_field uc_mixer_list _ _).
  assert (frame s s2) as H12 by by eapply frame_trans. rewrite <-Euc.
  apply bind_unassoc. eapply returns_bind; [apply (select_new s s2 u); [done|done| |done]|].
  - destruct H12 as (Hb & Hic & Hl & _). pose proof (dev_outs s Hd k o Ho) as Hrange.
    pose proof (b_addr _ _ (proj1 H2)). split; cbn.
    + lia.
    + intros v Hv E. rewrite Hl in Hv. pose proof (dev_addrs s Hd) as Ha. rewrite Forall_forall in Ha. specialize (Ha v Hv).
      cbn in Ha. lia.
    + intros v Hv. rewrite Hl in Hv. rewrite Euc. by apply Habs.
    + rewrite Euc. unfold AUDIO_USECASE_MAX, USECASE_AUDIO_PLAYBACK_DEEP_BUFFER in *. lia.
    + done.
    + done.
    + destruct (base_out _ _ _ _ (proj1 H2) Ho1) as (o2 & Ho2 & Euc2 & _). left. cbn. split_and!; [done|done| |].
      * rewrite Euc. unfold USECASE_VOICE_CALL, USECASE_AUDIO_PLAYBACK_DEEP_BUFFER in *. lia.
      * by exists k, o2.
  - intros r s' (-> & Hok' & Hb & Hic & Hst). apply returns_ret. by split_and!.
Qed.

(** ** Stopping an output *)

(** A paused stream has no use case already, and is not disabled again. *)
Definition stops (o : stream_out) (s s' : AudioSt) : Prop :=
  usecase_list s' = if (offload_fx s && is_paused o)%bool then usecase_list s
                    else without_id (out_usecase o) (usecase_list s).

Lemma stop_output_spec k o s :
  device_ok s -> outs s !! k = Some o ->
  returns (stop_output_stream k) s (fun _ s' =>
    device_ok s' /\ base s s' /\ in_call s' = in_call s /\ stops o s s').
Proof.
  intros Hok Ho. unfold stop_output_stream, stops. apply bind_assoc. unfold stop_output_offload_stream. apply bind_gets.
  destruct (offload_fx s) eqn:Hfx; cbn [andb]; cycle 1.
  { apply bind_ret. by apply disable_path_spec. }
  apply bind_assoc. unfold tell. apply bind_modify. set (s1 := set_field hw_log _ s).
  assert (frame s s1) as H1 by (split; [apply routes_base; by destruct s|by destruct s]).
  apply bind_assoc. eapply bind_out; [exact Ho|]. apply bind_assoc.
  eapply returns_bind; [apply (quiet_set_out k); [by eexists|by intros []]|]. intros ? s2 H2. cbn beta in H2.
  assert (frame s s2) as H12 by by eapply frame_trans.
  apply bind_ret. fold (is_paused o). destruct (is_paused o); cbn [negb].
  { apply returns_ret. split_and!; [by eapply frame_ok|apply H12..]. }
  destruct (base_out _ _ _ _ (proj1 H12) Ho) as (o2 & Ho2 & Euc & _).
  eapply returns_mono; [apply (disable_path_spec k o2); [by eapply frame_ok|done]|]. cbn beta.
  intros r' s' (Hok' & Hb & Hic & Hl). destruct H12 as (Hb12 & Hic12 & Hl12 & _).
  split_and!; [done|by eapply base_trans|congruence|congruence].
Qed.

Lemma starts_without id s s' : (forall u, u ∈ usecase_list s -> uc_id u <> id) -> starts id s s' ->
  uc_id <$> without_id id (usecase_list s') = uc_id <$> usecase_list s.
Proof.
  unfold starts. intros Habs E. assert (forall l, uc_id <$> without_id id l = List.filter (fun i => negb (i =? id)) (uc_id <$> l)) as Hm.
  { induction l as [|u l IH]; [done|]. cbn [without_id List.filter]. rewrite fmap_cons. cbn [List.filter].
    destruct (negb _); rewrite ?fmap_cons; by rewrite <-IH. }
  rewrite Hm, E, List.filter_app. cbn [List.filter]. rewrite Z.eqb_refl. cbn [negb]. rewrite app_nil_r.
  rewrite <-Hm. by rewrite without_absent.
Qed.

(** What a start leaves: the use case in the list, or the list as it was. *)
Definition started (id r : Z) (s s' : AudioSt) : Prop :=
  device_ok s' /\ base s s' /\ in_call s' = in_call s /\
  if r =? 0 then starts id s s' else uc_id <$> usecase_list s' = uc_id <$> usecase_list s.

(** An error after the use case joined: it leaves again. *)
Lemma undo_start {B} k o s s1 (r : B) z :
  (forall u, u ∈ usecase_list s -> uc_id u <> out_usecase o) -> is_paused o = false -> z <> 0 ->
  outs s !! k = Some o -> device_ok s1 -> base s s1 -> in_call s1 = in_call s -> starts (out_usecase o) s s1 ->
  returns (let* _r := stop_output_stream k in ret r) s1 (fun r' s' => r' = r /\ started (out_usecase o) z s s').
Proof.
  intros Habs Hp Hz Ho Hok1 Hb1 Hc1 Hst. destruct (base_out _ _ _ _ Hb1 Ho) as (o1 & Ho1 & Euc & _ & _ & _ & Hpa).
  eapply returns_bind; [by apply (stop_output_spec k o1)|]. intros ? s2 (Hok2 & Hb2 & Hc2 & Hl2). apply returns_ret.
  split; [done|]. split_and!; [done|by eapply base_trans|congruence|]. rewrite (proj2 (Z.eqb_neq _ _)) by done.
  unfold stops in Hl2. assert (is_paused o1 = false) as E by (destruct (is_paused o1); [by rewrite Hpa in Hp|done]).
  rewrite E, andb_false_r in Hl2. rewrite Hl2, Euc. by apply starts_without.
Qed.

Lemma starts_frame id s s1 s2 : starts id s s1 -> frame s1 s2 -> starts id s s2.
Proof. intros Hs (_ & _ & Hl & _). unfold starts in *. by rewrite Hl. Qed.

Lemma started_frame id r s s1 s2 : started id r s s1 -> frame s1 s2 -> started id r s s2.
Proof.
  intros (Hok & Hb & Hc & Hs) Hf. pose proof Hf as (Hbf & Hcf & Hlf & _).
  split_and!; [by eapply frame_ok|by eapply base_trans|congruence|]. destruct (r =? 0); [by eapply starts_frame|by rewrite Hlf].
Qed.

Lemma start_output_spec k o s :
  device_ok s -> outs s !! k = Some o -> (forall u, u ∈ usecase_list s -> uc_id u <> out_usecase o) ->
  is_paused o = false ->
  returns (start_output_stream k) s (fun r s' => started (out_usecase o) r s s').
Proof.
  intros Hok Ho Habs Hp. unfold start_output_stream. eapply returns_bind; [by apply enable_path_spec|].
  intros r s1 (Hok1 & Hb1 & Hc1 & Hl1). destruct (Z.eqb_spec r 0) as [->|Hr]; cbn [negb]; cycle 1.
  { apply returns_ret. split_and!; [done..|]. rewrite (proj2 (Z.eqb_neq _ _)) by done. by rewrite Hl1. }
  destruct (base_out _ _ _ _ Hb1 Ho) as (o1 & Ho1 & Ho1s). eapply bind_out; [exact Ho1|].
  assert (live_out k s1) as Hk1 by by eexists.
  assert (started (out_usecase o) 0 s s1) as Hs1 by done.
  destruct (negb _).
  - unfold start_pcm_output. eapply returns_bind; [apply (quiet_set_out k); [done|by intros []]|]. intros ? s2 H2. cbn beta in H2.
    eapply returns_bind; [apply quiet_out_open; live|]. intros r' s3 H3. cbn beta in H3.
    assert (frame s1 s3) as H13 by by eapply frame_trans. assert (device_ok s3) as Hok3 by by eapply frame_ok.
    assert (starts (out_usecase o) s s3) as Hst by by eapply starts_frame.
    assert (base s s3 /\ in_call s3 = in_call s) as [Hb Hc]
      by (destruct H13 as (? & ? & _); split; [by eapply base_trans|congruence]).
    destruct (Z.eqb_spec r' 0) as [->|Hr]; cbn [negb].
    + apply bind_get. eapply returns_bind; [apply (quiet_set_out k); [live|by intros []]|]. intros ? s4 H4. cbn beta in H4.
      apply returns_ret. by apply (started_frame _ 0 s s3 s4).
    + eapply returns_mono; [eapply (undo_start k o s s3 r' r'); done|]. by intros rr ss [-> ?].
  - unfold start_offload_output. eapply returns_bind; [apply quiet_compress_open|]. intros c s2 H2. cbn beta in H2.
    assert (started (out_usecase o) 0 s s2) as Hs2 by by apply (started_frame _ 0 s s1 s2).
    assert (live_out k s2) as Hk2 by live.
    assert (forall h, yields 0 (set_out k (fun o => o<|out_compr := h|>) ;;; let* o := the_out k in
        (if out_callback o then tell (CompressNonblock h (out_non_blocking o)) else ret tt) ;;;
        let* fx := gets offload_fx in (if (fx : bool) then tell (FxStart k) else ret tt) ;;; ret 0) s2) as Hq
      by (intros h; yields).
    destruct c as [[h|] b]; [destruct b|]; [eapply returns_mono; [apply Hq|]; intros rr ss [-> ?]; by eapply started_frame| |
       eapply returns_mono; [apply Hq|]; intros rr ss [-> ?]; by eapply started_frame].
    eapply returns_bind; [apply quiet_tell|]. intros ? s3 H3. cbn beta in H3.
    eapply returns_bind; [apply (quiet_set_out k); [live|by intros []]|]. intros ? s4 H4. cbn beta in H4.
    assert (started (out_usecase o) 0 s s4) as (Hok4 & Hb4 & Hc4 & Hs4)
      by (eapply started_frame; [|exact H4]; by eapply started_frame).
    eapply returns_mono; [eapply (undo_start k o s s4 (-EIO) (-EIO)); done|]. by intros rr ss [-> ?].
Qed.

(** ** Standby of an output *)

(** The use case is gone; a paused stream may keep the list as it is. *)
Definition stopped (o : stream_out) (s s' : AudioSt) : Prop :=
  device_ok s' /\ base s s' /\ in_call s' = in_call s /\
  (usecase_list s' = without_id (out_usecase o) (usecase_list s) \/
   is_paused o = true /\ usecase_list s' = usecase_list s).

Lemma stop_after_frame k o s s1 :
  device_ok s -> outs s !! k = Some o -> frame s s1 ->
  returns (stop_output_stream k) s1 (fun _ s' => stopped o s s').
Proof.
  intros Hok Ho Hf. destruct (base_out _ _ _ _ (proj1 Hf) Ho) as (o1 & Ho1 & Euc & _ & _ & _ & Hpa).
  eapply returns_mono; [apply (stop_output_spec k o1); [by eapply frame_ok|done]|]. intros r s' (Hok' & Hb & Hc & Hl).
  destruct Hf as (Hbf & Hcf & Hlf & _). split_and!; [done|by eapply base_trans|congruence|].
  unfold stops in Hl. rewrite Euc, Hlf in Hl. destruct (_ && _)%bool eqn:E; [right|by left].
  apply andb_prop in E as [_ E]. auto.
Qed.

Lemma quiet_standby k o s :
  live_out k s -> thread_idle k s ->
  quiet (if negb (out_usecase o =? USECASE_AUDIO_PLAYBACK_OFFLOAD) then
           out_close_pcm_devices k ;;; stop_echo_write k
         else
           stop_compressed_output_l k ;;; set_out k (fun o => o<|out_gapless := (0, 0)|>) ;;; close_compress k) s.
Proof. intros Hk Hi. quiet. Qed.

Lemma out_standby_spec k o s :
  device_ok s -> outs s !! k = Some o -> out_thread_blocked o = false ->
  returns (do_out_standby_l k) s (fun _ s' => stopped o s s').
Proof.
  intros Hok Ho Hth. assert (live_out k s) as Hk by by eexists.
  assert (thread_idle k s) as Hi by (intros o' Ho'; congruence). unfold do_out_standby_l.
  eapply returns_bind; [apply (quiet_set_out k); [done|by intros []]|]. intros ? s1 H1. cbn beta in H1.
  destruct (base_out _ _ _ _ (proj1 H1) Ho) as (o1 & Ho1 & _). eapply bind_out; [exact Ho1|].
  eapply returns_bind; [apply quiet_standby; live|]. intros ? s2 H2. cbn beta in H2.
  apply stop_after_frame; [done|done|by eapply frame_trans].
Qed.

(** ** Voice calls *)
Lemma stop_call_spec s :
  device_ok s -> in_call s = true ->
  returns stop_voice_call s (fun r s' => r = 0 /\ device_ok s' /\ base s s' /\ in_call s' = false /\
    usecase_list s' = without_id USECASE_VOICE_CALL (usecase_list s)).
Proof.
  intros [Hd Hc] Hcall. destruct (Hc Hcall) as (u & Hu & Hid & _). unfold stop_voice_call. apply bind_modify.
  set (s0 := set_field in_call _ s). assert (base s s0 /\ usecase_list s0 = usecase_list s /\ in_call s0 = false /\
    snd_dev_ref_cnt s0 = snd_dev_ref_cnt s) as (Hb0 & Hl0 & Hc0 & Hr0).
  { split_and!; [|done..]. split; cbn; auto using same_outs_refl, same_ins_refl. }
  eapply returns_bind; [apply quiet_stop_session|]. intros ? s1 (Hb1 & Hc1 & Hl1 & Hr1).
  destruct (dev_core s Hd) as [[(Hnp & Hni & Hv & Hlen) Hrf] Hob Hw Hp].
  unfold get_usecase_from_id. apply bind_gets. rewrite Hl1, Hl0, <-Hid, (find_id _ u) by done.
  assert (find_ptr (uc_ptr u) (usecase_list s) = Some u) as Hf by by apply find_ptr_elem.
  assert (uc_valid u) as [Hvo%sound_out_valid Hvi%sound_in_valid] by (rewrite Forall_forall in Hv; by apply Hv).
  assert (refs_are s1 (demand (usecase_list s))) as Hrf1 by (unfold refs_are; by rewrite Hr1, Hr0).
  assert (Forall uc_valid (usecase_list s1)) as Hv1 by (by rewrite Hl1, Hl0).
  destruct (disable_spec (uc_mixer_list u) (uc_out u) s1 _ Hrf1 Hvo Hv1) as (r2 & s2 & H2 & Hcnt2 & Hr2).
  { intros d. rewrite (demand_split _ _ _ d Hnp Hf). unfold use1. pose proof (cnt_bounds (uc_in u) d).
    pose proof (demand_bounds (others (uc_ptr u) (usecase_list s)) d). lia. }
  { by apply demand_none. }
  destruct (counts_base _ _ Hcnt2) as (Hb2 & Hl2 & Hc2 & _).
  eapply (returns_bind _ _ _ (fun _ s' => s' = s2)); [by exists r2, s2|]. intros ? ? ->.
  destruct (disable_spec (uc_mixer_list u) (uc_in u) s2 _ Hr2 Hvi) as (r3 & s3 & H3 & Hcnt3 & Hr3).
  { by rewrite Hl2. }
  { intros d. cbn beta. rewrite (demand_split _ _ _ d Hnp Hf). unfold use1.
    pose proof (demand_bounds (others (uc_ptr u) (usecase_list s)) d). lia. }
  { cbn beta. rewrite demand_none by done. unfold cnt, eq1. destruct (Z.eqb_spec (uc_out u) SND_DEVICE_NONE); [done|].
    destruct (_ =? SND_DEVICE_OUT_SPEAKER_AND_HEADPHONES); [done|]. by rewrite (proj2 (Z.eqb_neq _ _)) by congruence. }
  destruct (counts_base _ _ Hcnt3) as (Hb3 & Hl3 & Hc3 & _).
  eapply (returns_bind _ _ _ (fun _ s' => s' = s3)); [by exists r3, s3|]. intros ? ? ->.
  eapply returns_bind; [apply remove_spec|]. intros ? s4 (Hb4 & Hc4 & Hr4 & Hl4). apply returns_ret.
  assert (base s s4) as Hb by (do 4 (eapply base_trans; [eassumption|]); done).
  assert (in_call s4 = false) as Hic by congruence.
  assert (usecase_list s4 = others (uc_ptr u) (usecase_list s)) as Hl by congruence.
  split_and!; [done|split|done|done|].
  - eapply (leave_core s s4); [done|exact Hf|done|done| |].
    + apply (refs_are_ext s4 (fun d => demand (usecase_list s) d - cnt (uc_out u) d - cnt (uc_in u) d)).
      { intros d _. unfold use1. lia. }
      unfold refs_are. by rewrite Hr4.
    + right. rewrite Forall_forall in Hw. specialize (Hw u Hu). unfold uc_wf in Hw. naive_solver.
  - intros Hx. congruence.
  - rewrite Hl. by apply without_others.
Qed.

Lemma no_call_uc s u : device_core s -> in_call s = false -> u ∈ usecase_list s ->
  uc_type u <> VOICE_CALL /\ uc_id u <> USECASE_VOICE_CALL.
Proof.
  intros Hd Hc Hu. pose proof (ok_ucs s (dev_core s Hd)) as Hw. rewrite Forall_forall in Hw. specialize (Hw u Hu).
  unfold uc_wf in Hw. destruct Hw as [(-> & _ & ? & _)|[(-> & _ & ? & _)|(_ & _ & ? & _)]]; [done..|congruence].
Qed.

(** The device as a call begins: its use case is to come. *)
Lemma begin_call_core s : device_core s -> in_call s = false -> device_core (s<|in_call := true|>).
Proof.
  intros Hd Hc. set (s' := set_field in_call _ s).
  assert (base s s') as Hb by (split; cbn; auto using same_outs_refl, same_ins_refl).
  destruct (dev_core s Hd) as [Hrf Hob Hw Hp]. apply (base_core s); [done|done| |apply Hd|apply Hd].
  split; [done|done| |done]. rewrite Forall_forall in Hw |- *. intros u Hu.
  apply (uc_wf_base s s'); [done| |by apply Hw]. right. by apply (no_call_uc s u).
Qed.

Lemma keeps_starts id s s1 s2 : starts id s s1 -> keeps s1 s2 -> starts id s s2.
Proof.
  intros E (_ & _ & _ & Hs). unfold starts in *. rewrite <-E. clear -Hs.
  induction Hs as [|v w l l' (_ & Ew & _) _ IH]; [done|]. by rewrite !fmap_cons, Ew, IH.
Qed.

Lemma start_call_spec s k o :
  device_ok s -> in_call s = false -> primary_output s = Some k -> outs s !! k = Some o ->
  mode s = AUDIO_MODE_IN_CALL -> call_device (out_devices o) = true ->
  returns start_voice_call s (fun r s' => device_ok s' /\ base s s' /\
    if r =? 0 then in_call s' = true /\ starts USECASE_VOICE_CALL s s'
    else in_call s' = false /\ usecase_list s' = usecase_list s).
Proof.
  intros Hok Hc Hpr Ho Hm Hdev. unfold start_voice_call. eapply returns_bind; [apply calloc_spec|].
  intros p s1 [H1 Hp]. pose proof (frame_ok _ _ H1 Hok) as [Hd1 _]. destruct H1 as (Hb1 & Hc1 & Hl1 & Hr1).
  destruct p as [p|]; cycle 1.
  { apply returns_ret. change (- ENOMEM =? 0) with false. split_and!; [|done|congruence|done].
    by eapply frame_ok. }
  apply bind_modify. rewrite Hc in Hc1. pose proof (begin_call_core s1 Hd1 Hc1) as Hd2. set (s2 := set_field in_call _ s1) in *.
  assert (base s s2) as Hb2 by (destruct Hb1; split; cbn; auto).
  destruct (base_out _ _ _ _ Hb2 Ho) as (o2 & Ho2 & _ & Edev & _).
  apply bind_gets. rewrite (b_primary _ _ Hb2), Hpr. apply bind_deref. eapply bind_out; [exact Ho2|].
  unfold adev_get_mixer_for_card. apply bind_gets. rewrite (dev_card s2 Hd2). apply bind_deref.
  unfold add_uc. apply bind_modify. set (u := mkUsecase _ _ _ _ _ _ _ _). set (s3 := set_field usecase_list _ s2).
  assert (usecase_list s2 = usecase_list s) as Hl2 by done.
  assert (joins s2 u) as Hj.
  { split; cbn.
    - destruct Hp as [_ Hp]. exact Hp.
    - intros v Hv E. rewrite Hl1 in Hv. pose proof (dev_addrs s (proj1 Hok)) as Ha. rewrite Forall_forall in Ha. specialize (Ha v Hv). cbn in Ha. lia.
    - intros v Hv. rewrite Hl1 in Hv. by apply (no_call_uc s v (proj1 Hok) Hc).
    - unfold USECASE_VOICE_CALL, AUDIO_USECASE_MAX. lia.
    - done.
    - done.
    - right; right. split_and!; [done..|]. exists k, o2. by rewrite (b_primary _ _ Hb2). }
  pose proof (add_core s2 u Hd2 Hj) as Hd3. fold s3 in Hd3.
  destruct (select_voice 1 s3 u k o2) as (out & inp & _ & _ & Hsel); [apply Hd3| |done|done|done| |by rewrite Edev|].
  { apply (find_id _ u); [apply Hd3|]. apply elem_of_app. right. by apply list_elem_of_singleton. }
  { change (mode s2 = AUDIO_MODE_IN_CALL). by rewrite (b_mode _ _ Hb2). }
  destruct Hsel as (s4 & u' & Hs4 & Hk & Hcr & Hu' & Hid' & _).
  assert (device_core s4) as Hd4 by by eapply keeps_core.
  assert (in_call s4 = true) as Hc4 by (destruct Hk as (_ & -> & _); done).
  assert (call_ready s4) as Hcr4.
  { apply Hcr. pose proof (ok_ucs s4 (dev_core s4 Hd4)) as Hw. rewrite Forall_forall in Hw. specialize (Hw u' Hu').
    unfold uc_wf in Hw. rewrite Hid' in Hw. naive_solver. }
  eapply (returns_bind _ _ _ (fun _ s' => s' = s4)); [by exists 0, s4|]. intros ? ? ->.
  eapply returns_bind; [apply quiet_start_session|]. intros ? s5 H5. cbn beta in H5.
  eapply returns_bind; [apply quiet_volume|]. intros ? s6 H6. cbn beta in H6. apply returns_ret.
  assert (frame s4 s6) as H46 by by eapply frame_trans.
  assert (starts USECASE_VOICE_CALL s s3) as Hst by (unfold starts, s3; cbn; by rewrite fmap_app, Hl1).
  assert (base s2 s3) as Hb23 by (apply routes_base; by destruct s2).
  change (0 =? 0) with true. cbv iota. split_and!; [by eapply frame_ok| | |].
  - do 3 (eapply base_trans; [first [eassumption|apply routes_base, Hk]|]). apply H46.
  - destruct H46 as (_ & -> & _). done.
  - eapply starts_frame; [|exact H46]. by eapply keeps_starts.
Qed.

(** ** Recordings *)
Lemma quiet_active v s : quiet (modify (fun s => s<|active_input := v|>)) s.
Proof. quiet. Qed.

Lemma stop_input_spec k i s :
  device_ok s -> ins s !! k = Some i ->
  returns (stop_input_stream k) s (fun _ s' =>
    device_ok s' /\ base s s' /\ in_call s' = in_call s /\ usecase_list s' = without_id (in_usecase i) (usecase_list s)).
Proof.
  intros Hok Hi. unfold stop_input_stream. eapply returns_bind; [apply quiet_active|]. intros ? s1 H1. cbn beta in H1.
  pose proof (frame_ok _ _ H1 Hok) as Hok1. pose proof (proj1 Hok1) as Hd. destruct H1 as (Hb1 & Hc1 & Hl1 & _).
  destruct (base_in _ _ _ _ Hb1 Hi) as (i1 & Hi1 & Euc & _). eapply bind_in; [exact Hi1|].
  unfold get_usecase_from_id. apply bind_gets. rewrite Euc. rewrite <-Hl1.
  destruct (find _ (usecase_list s1)) as [u|] eqn:Hf; cycle 1.
  { apply returns_ret. split_and!; [done|done|done|]. symmetry. apply without_absent. by apply find_absent. }
  destruct (from_id_spec _ _ _ Hf (ok_refs s1 (dev_core s1 Hd))) as (Hu & Hid & Hp).
  destruct (capture_id s1 u Hd Hu) as (Ht & Hout); [rewrite Hid; by apply (dev_ins s (proj1 Hok) k)|].
  destruct (dev_core s1 Hd) as [[(Hnp & Hni & Hv & _) Hrf] _ _ _].
  assert (uc_valid u) as [_ Hvi%sound_in_valid] by (rewrite Forall_forall in Hv; by apply Hv).
  eapply returns_bind; [apply (disable_uc s1 u _ _ Hd Hu Hrf Hvi); [|by apply demand_none]|].
  { intros d. rewrite (demand_split _ _ _ d Hnp Hp). unfold use1. pose proof (cnt_bounds (uc_out u) d).
    pose proof (demand_bounds (others (uc_ptr u) (usecase_list s1)) d). lia. }
  intros ? s2 (Hb2 & Hl2 & Hc2 & Hr2).
  eapply returns_bind; [apply remove_spec|]. intros ? s3 (Hb3 & Hc3 & Hr3 & Hl3).
  assert (base s1 s3) as Hb by by eapply base_trans.
  assert (live_in k s3) as Hk3 by (eapply live_in_base; [exact Hb|by eexists]).
  assert (usecase_list s3 = others (uc_ptr u) (usecase_list s1)) as Hl by congruence.
  assert (device_ok s3) as Hok3.
  { split.
    - eapply (leave_core s1 s3); [done|exact Hp|done|done| |left; congruence].
      apply (refs_are_ext s3 (fun d => demand (usecase_list s1) d - cnt (uc_in u) d)).
      { intros d _. unfold use1. rewrite Hout. cbn. lia. }
      unfold refs_are. by rewrite Hr3.
    - eapply (leave_ready s1 s3); [done|exact Hp| |congruence|done]. rewrite Hid.
      rewrite (dev_ins s (proj1 Hok) k i Hi). done. }
  assert (device_ok s3 /\ base s s3 /\ in_call s3 = in_call s /\ usecase_list s3 = without_id (in_usecase i) (usecase_list s1)) as Hpost.
  { split_and!; [done|by eapply base_trans|congruence|]. rewrite Hl, <-Hid. by apply without_others. }
  clear Hok3. destruct (bool_decide _); [by apply returns_ret|].
  eapply returns_bind; [apply (quiet_set_in k); [done|by intros []]|]. intros ? s4 H4. cbn beta in H4. apply returns_ret.
  destruct Hpost as (? & ? & ? & ?). pose proof H4 as (? & ? & ? & ?).
  split_and!; [by eapply frame_ok|by eapply base_trans|congruence|congruence].
Qed.

Lemma device_primary s : device_ok s -> primary_live s.
Proof. intros [Hd _]. exact (ok_primary s (dev_core s Hd)). Qed.
Lemma in_standby_spec k i s :
  device_ok s -> ins s !! k = Some i ->
  returns (do_in_standby_l k) s (fun r s' => r = 0 /\ device_ok s' /\ base s s' /\ in_call s' = in_call s /\
    usecase_list s' = if in_standby i then usecase_list s else without_id (in_usecase i) (usecase_list s)).
Proof.
  intros Hok Hi. unfold do_in_standby_l. eapply bind_in; [exact Hi|]. destruct (in_standby i).
  { apply returns_ret. split_and!; [done|done|apply base_refl|done|done]. }
  assert (live_in k s) as Hk by by eexists. assert (primary_live s) as Hp by by apply device_primary.
  eapply returns_bind; [apply quiet_in_close; live|]. intros ? s1 H1. cbn beta in H1.
  eapply returns_bind; [apply quiet_stop_echo_read; live|]. intros ? s2 H2. cbn beta in H2.
  assert (frame s s2) as H12 by by eapply frame_trans.
  destruct (base_in _ _ _ _ (proj1 H12) Hi) as (i2 & Hi2 & Euc & _).
  eapply returns_bind; [apply (stop_input_spec k i2); [by eapply frame_ok|done]|].
  intros ? s3 (Hok3 & Hb3 & Hc3 & Hl3).
  assert (live_in k s3) as Hk3 by live.
  eapply returns_bind; [apply (quiet_set_in k); [done|by intros []]|]. intros ? s4 H4. cbn beta in H4. apply returns_ret.
  pose proof H4 as (Hb4 & Hc4 & Hl4 & _). destruct H12 as (Hb12 & Hc12 & Hl12 & _).
  split_and!; [done|by eapply frame_ok| |congruence|congruence].
  eapply base_trans; [exact Hb12|]. by eapply base_trans.
Qed.

(** The resampler may be missing: the start goes on, and its error is returned. *)
Definition no_resampler (r : Z) : Prop := r <> 0 /\ exists n, resampler_status n = r.

Lemma configure_input_spec k p s :
  live_in k s -> returns (configure_input k p) s (fun r s' => frame s s' /\ (r = 0 \/ no_resampler r)).
Proof.
  intros Hk. unfold configure_input. eapply returns_bind; [by apply returns_the_in|]. intros i s0 [-> Hi].
  eapply returns_bind; [apply (quiet_set_in k); [done|by intros []]|]. intros ? s1 H1. cbn beta in H1.
  destruct (_ || _)%bool; [|apply returns_ret; split; [done|by left]].
  unfold recreate_resampler_of. eapply returns_bind; [apply quiet_release_resampler; live|]. intros ? s2 H2. cbn beta in H2.
  eapply (returns_bind _ _ _ (fun st s' => frame s s' /\ exists n, resampler_status n = st)).
  { eexists _, _. split; [reflexivity|]. split; [|by eexists]. eapply frame_trans; [exact H1|]. eapply frame_trans; [exact H2|].
    split; [|done]. split; cbn; auto using same_outs_refl, same_ins_refl. }
  intros st s3 [H3 Hn]. destruct (Z.eqb_spec st 0) as [->|Hst]; [|by apply returns_ret; split; [|right]].
  eapply returns_bind; [apply quiet_fresh|]. intros h s4 H4. cbn beta in H4.
  eapply returns_bind; [apply (quiet_set_in k); [live|by intros []]|]. intros ? s5 H5. cbn beta in H5. apply returns_ret.
  split; [|by left]. eapply frame_trans; [exact H3|]. by eapply frame_trans.
Qed.

(** What the start of a recording leaves. *)
Definition in_started (id r : Z) (s s' : AudioSt) : Prop :=
  device_ok s' /\ base s s' /\ in_call s' = in_call s /\
  (if r =? 0 then starts id s s'
   else uc_id <$> usecase_list s' = uc_id <$> usecase_list s /\ active_input s' = None \/ starts id s s' /\ no_resampler r).

Lemma open_input_spec k p i s s1 :
  device_ok s -> (forall u, u ∈ usecase_list s -> uc_id u <> in_usecase i) -> ins s !! k = Some i ->
  device_ok s1 -> base s s1 -> in_call s1 = in_call s -> starts (in_usecase i) s s1 ->
  returns (open_input k p) s1 (fun r s' => in_started (in_usecase i) r s s').
Proof.
  intros Hok Habs Hi Hok1 Hb1 Hc1 Hst. assert (live_in k s) as Hk by by eexists. assert (live_in k s1) as Hk1 by live.
  unfold open_input. eapply returns_bind; [by apply configure_input_spec|]. intros r s2 [H2 Hr].
  assert (primary_live s2) as Hp2 by by eapply device_primary, frame_ok.
  eapply returns_bind; [apply quiet_attach_echo; live|]. intros ? s3 H3. cbn beta in H3.
  eapply returns_bind; [apply quiet_pcm_open|]. intros h s4 H4. cbn beta in H4.
  assert (frame s1 s4) as H14 by (eapply frame_trans; [exact H2|]; by eapply frame_trans).
  assert (live_in k s4) as Hk4 by live. clear H2 H3 H4.
  destruct (_ && _)%bool.
  - eapply returns_bind; [apply quiet_tell|]. intros ? s5 H5. cbn beta in H5.
    eapply returns_bind; [apply (quiet_set_in k); [live|by intros []]|]. intros ? s6 H6. cbn beta in H6.
    eapply returns_bind; [apply quiet_release_resampler; live|]. intros ? s7 H7. cbn beta in H7.
    assert (frame s1 s7) as H17 by frames.
    pose proof (frame_ok _ _ H17 Hok1) as Hok7. destruct H17 as (Hb17 & Hc17 & Hl17 & _).
    assert (base s s7) as Hb7 by by eapply base_trans. destruct (base_in _ _ _ _ Hb7 Hi) as (i7 & Hi7 & Euc & _).
    eapply returns_bind; [by apply (stop_input_spec k i7)|]. intros ? s8 (Hok8 & Hb8 & Hc8 & Hl8).
    apply bind_modify, returns_ret. set (s9 := set_field active_input _ s8).
    assert (frame s8 s9) as H9 by (split; [split; cbn; auto using same_outs_refl, same_ins_refl|done]).
    pose proof H9 as (Hb9 & Hc9 & Hl9 & _). split_and!; [by eapply frame_ok| |congruence|].
    + eapply base_trans; [exact Hb7|]. by eapply base_trans.
    + change (- EIO =? 0) with false. left. split; [|done]. rewrite Hl9, Hl8, Hl17, Euc. by apply starts_without.
  - eapply returns_bind; [apply (quiet_set_in k); [done|by intros []]|]. intros ? s5 H5. cbn beta in H5.
    assert (live_in k s5) as Hk5 by live.
    eapply returns_bind; [by apply quiet_the_in|]. intros i5 s6 H6. cbn beta in H6.
    eapply (returns_bind _ _ _ (fun _ s' => frame s6 s')); [destruct (in_resampler i5); [apply quiet_tell|apply quiet_ret]|].
    intros ? s7 H7. cbn beta in H7. apply returns_ret.
    assert (frame s1 s7) as H17 by frames.
    pose proof H17 as (Hb17 & Hc17 & Hl17 & _).
    split_and!; [by eapply frame_ok|by eapply base_trans|congruence|].
    assert (starts (in_usecase i) s s7) by by eapply starts_frame. destruct Hr as [->|Hr]; [done|].
    rewrite (proj2 (Z.eqb_neq _ _)) by apply Hr. by right.
Qed.

Lemma start_input_spec k i s :
  device_ok s -> ins s !! k = Some i -> (forall u, u ∈ usecase_list s -> uc_id u <> in_usecase i) ->
  returns (start_input_stream k) s (fun r s' => in_started (in_usecase i) r s s').
Proof.
  intros Hok Hi Habs. unfold start_input_stream. eapply returns_bind; [apply quiet_active|]. intros ? s1 H1. cbn beta in H1.
  destruct (base_in _ _ _ _ (proj1 H1) Hi) as (i1 & Hi1 & Euc & _). eapply bind_in; [exact Hi1|]. apply bind_gets.
  assert (forall z s2, z <> 0 -> frame s s2 -> returns (no_input z) s2 (fun r s' => in_started (in_usecase i) r s s')) as Hno.
  { intros z s2 Hz H2. unfold no_input. apply bind_modify, returns_ret. set (s3 := set_field active_input _ s2).
    assert (frame s2 s3) as H3 by (split; [split; cbn; auto using same_outs_refl, same_ins_refl|done]).
    assert (frame s s3) as H by by eapply frame_trans. pose proof H as (Hb & Hc & Hl & _).
    split_and!; [by eapply frame_ok|done|done|]. rewrite (proj2 (Z.eqb_neq _ _)) by done. left. split; [by rewrite Hl|done]. }
  destruct (get_pcm_device s1 _ _) as [profile|] eqn:Hprof; [|by apply Hno].
  eapply returns_bind; [apply calloc_spec|]. intros p s2 [H2 Hp].
  assert (frame s s2) as H02 by by eapply frame_trans. destruct p as [p|]; [|by apply Hno].
  eapply returns_bind; [apply calloc_spec|]. intros d s3 [H3 _].
  assert (frame s s3) as H03 by by eapply frame_trans. destruct d as [d|]; [|by apply Hno].
  assert (live_in k s) as Hk by by eexists.
  eapply returns_bind; [apply (quiet_set_in k); [live|by intros []]|]. intros ? s4 H4. cbn beta in H4.
  assert (frame s s4) as H04 by by eapply frame_trans. pose proof H04 as (Hb & Hc & Hl & Hr).
  assert (pp_card profile = SOUND_CARD) as Hcard.
  { unfold get_pcm_device in Hprof. apply find_some in Hprof as [Hin _]. unfold pcm_devices in Hin.
    by destruct Hin as [<-|[<-|[<-|[]]]]. }
  unfold adev_get_mixer_for_card. apply bind_gets. rewrite (b_cards _ _ Hb), Hcard, (dev_card s (proj1 Hok)). apply bind_deref.
  destruct (base_in _ _ _ _ Hb Hi) as (i4 & Hi4 & Euc4 & _).
  set (u := mkUsecase _ _ _ _ _ _ _ _).
  assert (joins s4 u) as Hj.
  { pose proof (b_addr _ _ (proj1 H3)). pose proof (b_addr _ _ (proj1 H4)). pose proof (b_addr _ _ (proj1 H1)).
    split; cbn.
    - lia.
    - intros v Hv E. rewrite Hl in Hv. pose proof (dev_addrs s (proj1 Hok)) as Ha. rewrite Forall_forall in Ha. specialize (Ha v Hv). cbn in Ha. lia.
    - intros v Hv. rewrite Hl in Hv. rewrite Euc. by apply Habs.
    - rewrite Euc, (dev_ins s (proj1 Hok) k i Hi). unfold USECASE_AUDIO_CAPTURE, AUDIO_USECASE_MAX. lia.
    - done.
    - done.
    - right; left. cbn. split_and!; [done|done| |by exists k, i4; split_and!; [..|congruence]].
      rewrite Euc, (dev_ins s (proj1 Hok) k i Hi). done. }
  apply bind_unassoc. rewrite <-Euc. eapply returns_bind; [by apply (select_new s s4 u)|]. cbn beta.
  intros ? s5 (-> & Hok5 & Hb5 & Hc5 & Hst5). rewrite Euc. eapply open_input_spec; try done. unfold u in Hst5. cbn in Hst5. by rewrite Euc in Hst5.
Qed.
End paths.
