(* ===== verification/AudioHal.v ===== *)
(** * The functions of the audio HAL

    What the framework calls: the operations of a stream and of the device, of
    [src/audio/audio_hw.c] ([out_standby] to [adev_close_input_stream]) and
    [src/audio/compress_offload.c], with their locks.  A mutex is a boolean of the state;
    locking one that is locked blocks.  Key-value strings are already parsed: a parameter is
    the number after its key.  Time is left out. *)
From S2P Require Import Prelude Machine AudioTypes AudioVoice AudioRoute AudioStreams.

Section hal.
Context `{API : AudioApi} `{HW : AudioHw} `{MEM : Memory}.

(** ** Locks *)
Definition lock_adev : A unit :=
  wait (fun s => negb (adev_lock s)) ;;; modify (fun s => s<|adev_lock := true|>).
Definition unlock_adev : A unit := modify (fun s => s<|adev_lock := false|>).
Definition lock_lock_inputs : A unit :=
  wait (fun s => negb (lock_inputs s)) ;;; modify (fun s => s<|lock_inputs := true|>).
Definition unlock_lock_inputs : A unit := modify (fun s => s<|lock_inputs := false|>).
(** [pre_lock] is only held while the stream is waited for. *)
Definition lock_output_stream (k : nat) : A unit :=
  wait (fun s => match outs s !! k with Some o => negb (out_lock o) | None => true end) ;;;
  set_out k (fun o => o<|out_lock := true|>).
Definition unlock_output (k : nat) : A unit := set_out k (fun o => o<|out_lock := false|>).
Definition lock_input_stream (k : nat) : A unit :=
  wait (fun s => match ins s !! k with Some i => negb (in_lock i) | None => true end) ;;;
  set_in k (fun i => i<|in_lock := true|>).
Definition unlock_input (k : nat) : A unit := set_in k (fun i => i<|in_lock := false|>).

Definition when_amp (e : hw) : A unit :=
  let* a := gets amp in if (a : bool) then tell e else ret tt.

(** ** Standby *)
Definition out_standby_op (k : nat) : A Z :=
  lock_output_stream k ;;;
  let* o := the_out k in
  (if negb (out_standby o) then
     lock_adev ;;;
     when_amp AmpOutputStandby ;;;
     let* _r := do_out_standby_l k in
     unlock_adev
   else ret tt) ;;;
  unlock_output k ;;;
  ret 0.

Definition in_standby_l (k : nat) : A Z :=
  lock_input_stream k ;;;
  let* i := the_in k in
  let* st := (if negb (in_standby i) then
                lock_adev ;;;
                when_amp AmpInputStandby ;;;
                let* st := do_in_standby_l k in
                unlock_adev ;;;
                ret st
              else ret 0) in
  unlock_input k ;;;
  ret st.
Definition in_standby_op (k : nat) : A Z :=
  lock_lock_inputs ;;;
  let* st := in_standby_l k in
  unlock_lock_inputs ;;;
  ret st.

(** ** The input that a change of the output interrupts *)
Definition interrupted_input : A (option nat) :=
  let* active := gets active_input in
  match active with
  | None => ret None
  | Some j =>
      let* i := the_in j in
      ret (if ((in_source i =? AUDIO_SOURCE_VOICE_COMMUNICATION) || (in_source i =? AUDIO_SOURCE_MIC))%bool
           then Some j else None)
  end.
Definition force_in_standby (j : nat) : A unit :=
  lock_input_stream j ;;;
  lock_adev ;;;
  let* active := gets active_input in
  (if bool_decide (active = Some j) then ret tt else fail Fatal) ;;;
  let* _r := do_in_standby_l j in
  unlock_adev ;;;
  unlock_input j.

(** ** Routing of an output ([out_set_parameters])

    [v] is the requested mask, as 32 bits. *)

(** [do_standby]: the devices of the open PCMs do not cover the mask. *)
Fixpoint mismatched (l : list pcm_device) (v : Z) : bool :=
  match l with
  | [] => negb (v =? 0)
  | d :: l => negb (has v (pp_devices (pd_profile d))) || mismatched l (without v (pp_devices (pd_profile d)))
  end.

Definition route_active (k : nat) (v : Z) : A unit :=
  let* o := the_out k in
  if out_standby o then ret tt
  else
    let* u := get_usecase_from_id (out_usecase o) in
    if (match u with None => false | Some _ => mismatched (out_pcm_dev_list o) v end) then
      let* _r := do_out_standby_l k in ret tt
    else
      (if out_usecase o =? USECASE_AUDIO_PLAYBACK_OFFLOAD
       then let* _r := out_set_offload_parameters u in ret tt else ret tt) ;;;
      let* _r := select_devices SELECT_DEPTH (out_usecase o) in ret tt.

Definition update_sco (k : nat) : A unit :=
  let* s := get in
  let* o := the_out k in
  if (((mode s =? AUDIO_MODE_IN_COMMUNICATION) || (mode s =? AUDIO_MODE_IN_CALL))
      && has (out_devices o) AUDIO_DEVICE_OUT_ALL_SCO && negb (bt_sco_active s))%bool then
    modify (fun s => s<|bt_sco_active := true|>) ;;;
    start_voice_session_bt_sco
  else if (negb (has (out_devices o) AUDIO_DEVICE_OUT_ALL_SCO) && bt_sco_active s)%bool then
    modify (fun s => s<|bt_sco_active := false|>) ;;;
    stop_voice_session_bt_sco
  else ret tt.

(** The modem closes its end when the device changes: the call is started again. *)
Definition update_call (k : nat) : A unit :=
  let* s := get in
  if ((mode s =? AUDIO_MODE_IN_CALL) && negb (in_call s) && bool_decide (primary_output s = Some k))%bool then
    let* _r := start_voice_call in ret tt
  else if ((mode s =? AUDIO_MODE_IN_CALL) && in_call s && bool_decide (primary_output s = Some k))%bool then
    let* _r := stop_voice_call in
    let* _r := start_voice_call in ret tt
  else ret tt.

Definition set_routing (k : nat) (v : Z) : A unit :=
  if negb (v =? SND_DEVICE_NONE) then
    set_out k (fun o => o<|out_devices := v|>) ;;;
    route_active k v ;;;
    update_sco k ;;;
    update_call k
  else ret tt.

Definition out_set_routing (k : nat) (v : Z) : A unit :=
  lock_lock_inputs ;;;
  lock_output_stream k ;;;
  lock_adev ;;;
  let* o := the_out k in
  let* j := (if (negb (out_devices o =? v) && negb (v =? 0) && negb (out_standby o)
                 && (out_usecase o =? USECASE_AUDIO_PLAYBACK))%bool
             then interrupted_input else ret None) in
  set_routing k v ;;;
  unlock_adev ;;;
  unlock_output k ;;;
  (match j with Some j => force_in_standby j | None => ret tt end) ;;;
  unlock_lock_inputs.

(** [parse_compress_metadata] *)
Definition parse_compress_metadata (k : nat) (delay padding : option Z) : A Z :=
  match delay, padding with
  | Some d, Some p =>
      set_out k (fun o => o<|out_gapless := (d, p)|><|out_send_new_metadata := true|>) ;;;
      ret 0
  | _, _ => ret (- EINVAL)
  end.

(** [str_parms_get_str] answers with the length of the value, or an error. *)
Definition out_set_parameters (k : nat) (routing delay padding : option Z) : A Z :=
  (match routing with Some v => out_set_routing k (u32 v) | None => ret tt end) ;;;
  let* o := the_out k in
  (if out_usecase o =? USECASE_AUDIO_PLAYBACK_OFFLOAD
   then let* _r := parse_compress_metadata k delay padding in ret tt else ret tt) ;;;
  ret (match routing with Some _ => 0 | None => - ENOENT end).

(** ** Writing *)
Definition send_offload_cmd_l (k : nat) (c : offload_cmd) : A Z :=
  let* p := calloc in
  let* _p := deref NullDeref p in
  set_out k (fun o => o<|out_cmd_list ::= fun l => l ++ [c]|>) ;;;
  ret 0.

Definition set_pcm_status (k i : nat) (st : Z) : A unit :=
  set_out k (fun o => o<|out_pcm_dev_list ::= alter (fun d => mkPcm (pd_profile d) (pd_pcm d) st) i|>).
Fixpoint write_pcms (k i : nat) (l : list pcm_device) (echo : option nat) (bytes r : Z) : A Z :=
  match l with
  | [] => ret r
  | d :: l =>
      match pd_pcm d with
      | None => write_pcms k (S i) l echo bytes r
      | Some h =>
          (match echo with
           | Some e => if negb (pp_devices (pd_profile d) =? SND_DEVICE_OUT_SPEAKER) then tell (EchoWrite e) else ret tt
           | None => ret tt
           end) ;;;
          tell (PcmWrite h bytes) ;;;
          let* st := syscall status in
          set_pcm_status k i st ;;;
          write_pcms k (S i) l echo bytes (if st =? 0 then r else st)
      end
  end.

(** The stream follows the echo reference of the device. *)
Definition sync_echo (k : nat) : A unit :=
  let* o := the_out k in
  let* g := gets echo_reference_generation in
  if negb (g =? out_echo_generation o) then
    lock_adev ;;;
    (match out_echo o with Some e => tell (EchoRelease e) | None => ret tt end) ;;;
    let* s := get in
    set_out k (fun o => o<|out_echo_generation := echo_reference_generation s|><|out_echo := echo_reference s|>) ;;;
    unlock_adev
  else ret tt.


Definition write_exit (k : nat) (r bytes : Z) (j : option nat) : A Z :=
  unlock_output k ;;;
  (if negb (r =? 0) then let* _r := out_standby_op k in ret tt else ret tt) ;;;
  (match j with Some j => force_in_standby j ;;; unlock_lock_inputs | None => ret tt end) ;;;
  ret bytes.

(** [out_write_offload] gives up its lock only at the end, and does not give up the lock of
    the inputs. *)
Definition out_write_offload (k : nat) (bytes : Z) : A Z :=
  let* o := the_out k in
  let* r := (if bool_decide (out_offload_state o = OFFLOAD_STATE_PAUSED_FLUSHED) then
               lock_adev ;;;
               let* r := enable_output_path_l k in
               unlock_adev ;;;
               ret r
             else ret 0) in
  if negb (r =? 0) then ret r
  else
    let* o := the_out k in
    (if out_send_new_metadata o then
       tell (CompressMetadata (out_compr o) (out_gapless o)) ;;;
       set_out k (fun o => o<|out_send_new_metadata := false|>)
     else ret tt) ;;;
    tell (CompressWrite (out_compr o) bytes) ;;;
    let* n := syscall written_bytes in
    let w := n bytes in
    (if ((0 <=? w) && (w <? bytes))%bool
     then let* _r := send_offload_cmd_l k OFFLOAD_CMD_WAIT_FOR_BUFFER in ret tt else ret tt) ;;;
    let* o := the_out k in
    (if negb (bool_decide (out_offload_state o = OFFLOAD_STATE_PLAYING)) then
       tell (CompressStart (out_compr o)) ;;;
       set_out k (fun o => o<|out_offload_state := OFFLOAD_STATE_PLAYING|>)
     else ret tt) ;;;
    unlock_output k ;;;
    ret w.

Definition write_data (k : nat) (bytes : Z) (j : option nat) : A Z :=
  let* o := the_out k in
  if out_usecase o =? USECASE_AUDIO_PLAYBACK_OFFLOAD then out_write_offload k bytes
  else
    sync_echo k ;;;
    let* o := the_out k in
    let* r := write_pcms k 0 (out_pcm_dev_list o) (out_echo o) bytes 0 in
    (if r =? 0 then
       set_out k (fun o => o<|out_written ::= fun w => u64 (w + bytes / (channels (out_config o) * 2))|>)
     else ret tt) ;;;
    write_exit k r bytes j.

(** The stream leaves standby: the error, or the input to interrupt. *)
Definition leave_standby (k : nat) : A (Z * option nat) :=
  lock_adev ;;;
  let* r := start_output_stream k in
  let* o := the_out k in
  (if r =? 0 then when_amp (AmpOutputStart (out_usecase o =? USECASE_AUDIO_PLAYBACK_OFFLOAD)) else ret tt) ;;;
  if negb (r =? 0) then
    unlock_adev ;;;
    unlock_lock_inputs ;;;
    ret (r, None)
  else
    set_out k (fun o => o<|out_standby := false|>) ;;;
    let* j := interrupted_input in
    unlock_adev ;;;
    (match j with None => unlock_lock_inputs | Some _ => ret tt end) ;;;
    ret (0, j).
Definition out_write (k : nat) (bytes : Z) : A Z :=
  lock_output_stream k ;;;
  let* o := the_out k in
  if out_standby o then
    unlock_output k ;;;
    lock_lock_inputs ;;;
    lock_output_stream k ;;;
    let* o := the_out k in
    if negb (out_standby o) then
      unlock_lock_inputs ;;;
      write_data k bytes None
    else
      let* rj := leave_standby k in
      if negb (rj.1 =? 0) then write_exit k rj.1 bytes None else write_data k bytes rj.2
  else write_data k bytes None.

(** ** Offloaded outputs *)
Definition out_pause_offload (k : nat) : A Z :=
  lock_output_stream k ;;;
  let* o := the_out k in
  let* st := (match out_compr o with
              | Some h =>
                  if bool_decide (out_offload_state o = OFFLOAD_STATE_PLAYING) then
                    tell (CompressPause h) ;;;
                    set_out k (fun o => o<|out_offload_state := OFFLOAD_STATE_PAUSED|>) ;;;
                    lock_adev ;;;
                    let* st := disable_output_path_l k in
                    unlock_adev ;;;
                    ret st
                  else ret (- ENOSYS)
              | None => ret (- ENOSYS)
              end) in
  unlock_output k ;;;
  ret st.
Definition out_resume_offload (k : nat) : A Z :=
  lock_output_stream k ;;;
  let* o := the_out k in
  let* st := (match out_compr o with
              | Some h =>
                  if bool_decide (out_offload_state o = OFFLOAD_STATE_PAUSED) then
                    lock_adev ;;;
                    let* _r := enable_output_path_l k in
                    unlock_adev ;;;
                    tell (CompressResume h) ;;;
                    let* st := syscall status in
                    set_out k (fun o => o<|out_offload_state := OFFLOAD_STATE_PLAYING|>) ;;;
                    ret st
                  else ret 0
              | None => ret 0
              end) in
  unlock_output k ;;;
  ret st.
Definition out_drain_offload (k : nat) (early_notify : bool) : A Z :=
  lock_output_stream k ;;;
  let* st := send_offload_cmd_l k (if early_notify then OFFLOAD_CMD_PARTIAL_DRAIN else OFFLOAD_CMD_DRAIN) in
  unlock_output k ;;;
  ret st.
Definition out_flush_offload (k : nat) : A Z :=
  lock_output_stream k ;;;
  let* o := the_out k in
  if bool_decide (out_offload_state o = OFFLOAD_STATE_PLAYING) then
    unlock_output k ;;;
    ret (- ENOSYS)
  else
    (if bool_decide (out_offload_state o = OFFLOAD_STATE_PAUSED) then
       stop_compressed_output_l k ;;;
       set_out k (fun o => o<|out_offload_state := OFFLOAD_STATE_PAUSED_FLUSHED|>)
     else ret tt) ;;;
    unlock_output k ;;;
    ret 0.

Definition if_offload (k : nat) (m : A Z) : A Z :=
  let* o := the_out k in
  if out_usecase o =? USECASE_AUDIO_PLAYBACK_OFFLOAD then m else ret (- ENOSYS).
Definition out_pause (k : nat) : A Z := if_offload k (out_pause_offload k).
Definition out_resume (k : nat) : A Z := if_offload k (out_resume_offload k).
Definition out_drain (k : nat) (early_notify : bool) : A Z := if_offload k (out_drain_offload k early_notify).
Definition out_flush (k : nat) : A Z := if_offload k (out_flush_offload k).
Definition out_set_callback (k : nat) (callback : bool) : A Z :=
  lock_output_stream k ;;;
  set_out k (fun o => o<|out_callback := callback|>) ;;;
  unlock_output k ;;;
  ret 0.

(** One turn of [offload_thread_loop], from and to the lock of the stream; the result tells
    whether the loop goes on.  With an empty list it waits for a command. *)
Definition offload_thread_turn (k : nat) : A bool :=
  let* o := the_out k in
  match out_cmd_list o with
  | [] =>
      unlock_output k ;;;
      wait (fun s => match outs s !! k with
                     | Some o => negb (bool_decide (out_cmd_list o = [])) && negb (out_lock o)
                     | None => true end) ;;;
      set_out k (fun o => o<|out_lock := true|>) ;;;
      ret true
  | c :: l =>
      set_out k (fun o => o<|out_cmd_list := l|>) ;;;
      if bool_decide (c = OFFLOAD_CMD_EXIT) then ret false
      else
        match out_compr o with
        | None => ret true
        | Some _ =>
            set_out k (fun o => o<|out_thread_blocked := true|>) ;;;
            unlock_output k ;;;
            lock_output_stream k ;;;
            set_out k (fun o => o<|out_thread_blocked := false|>) ;;;
            let* o := the_out k in
            (if out_callback o then ret tt else fail NullDeref) ;;;
            ret true
        end
  end.
(** What follows the loop. *)
Definition offload_thread_end (k : nat) : A unit :=
  set_out k (fun o => o<|out_cmd_list := []|>) ;;;
  unlock_output k ;;;
  set_out k (fun o => o<|out_thread := false|>).

Definition create_offload_callback_thread (k : nat) : A unit :=
  set_out k (fun o => o<|out_cmd_list := []|><|out_thread := true|>).
Definition destroy_offload_callback_thread (k : nat) : A unit :=
  lock_output_stream k ;;;
  let* _r := send_offload_cmd_l k OFFLOAD_CMD_EXIT in
  unlock_output k ;;;
  wait (fun s => match outs s !! k with Some o => negb (out_thread o) | None => true end).

(** ** Recordings *)
Definition in_set_parameters (k : nat) (source routing : option Z) : A Z :=
  lock_lock_inputs ;;;
  lock_input_stream k ;;;
  lock_adev ;;;
  (match source with
   | Some val =>
       let* i := the_in k in
       if (negb (in_source i =? val) && negb (val =? 0))%bool then set_in k (fun i => i<|in_source := val|>) else ret tt
   | None => ret tt
   end) ;;;
  let* r := (match routing with
             | None => ret (- ENOENT)
             | Some val =>
                 let val := u32 val in
                 let* i := the_in k in
                 if (negb (in_devices i =? val) && negb (val =? 0))%bool then
                   set_in k (fun i => i<|in_devices := val|>) ;;;
                   if negb (in_standby i) then
                     let* u := get_usecase_from_id (in_usecase i) in
                     let standby := match u, in_pcm_dev_list i with
                                    | Some _, d :: _ =>
                                        negb (has (Z.land (pp_devices (pd_profile d)) val) (u32 (Z.lnot AUDIO_DEVICE_BIT_IN)))
                                    | _, _ => false
                                    end in
                     if (standby : bool) then do_in_standby_l k else select_devices SELECT_DEPTH (in_usecase i)
                   else ret 0
                 else ret 0
             end) in
  unlock_adev ;;;
  unlock_input k ;;;
  unlock_lock_inputs ;;;
  ret (if 0 <? r then 0 else r).

(** The beginning of [in_read]: the stream leaves standby.  0, or the error for which
    [in_read] gives up and goes to standby. *)
Definition in_leave_standby (k : nat) : A Z :=
  lock_input_stream k ;;;
  let* i := the_in k in
  if in_standby i then
    unlock_input k ;;;
    lock_lock_inputs ;;;
    lock_input_stream k ;;;
    let* i := the_in k in
    if negb (in_standby i) then unlock_lock_inputs ;;; ret 0
    else
      lock_adev ;;;
      let* r := start_input_stream k in
      (if r =? 0 then when_amp AmpInputStart else ret tt) ;;;
      unlock_adev ;;;
      unlock_lock_inputs ;;;
      (if r =? 0 then set_in k (fun i => i<|in_standby := false|>) else ret tt) ;;;
      ret r
  else ret 0.

(** [in_read] but for the samples: [processed] tells whether [read_and_process_frames]
    succeeded. *)
Definition in_read (k : nat) (processed : bool) : A unit :=
  let* r := in_leave_standby k in
  let* i := the_in k in
  unlock_input k ;;;
  if ((r =? 0) && negb (bool_decide (in_pcm_dev_list i = [])) && processed)%bool then ret tt
  else let* _r := in_standby_op k in ret tt.

(** ** The device *)
Definition adev_set_voice_volume : A Z :=
  lock_adev ;;;
  set_voice_volume_l ;;;
  unlock_adev ;;;
  ret 0.
Definition adev_set_mode (m : Z) : A Z :=
  lock_adev ;;;
  let* s := get in
  (if negb (mode s =? m) then
     when_amp (AmpSetMode m) ;;;
     modify (fun s => s<|mode := m|>) ;;;
     (if ((m =? AUDIO_MODE_NORMAL) && in_call s)%bool then let* _r := stop_voice_call in ret tt else ret tt)
   else ret tt) ;;;
  unlock_adev ;;;
  ret 0.
Definition adev_set_mic_mute (state : bool) : A Z :=
  lock_adev ;;;
  modify (fun s => s<|mic_mute := state|>) ;;;
  let* m := gets mode in
  (if m =? AUDIO_MODE_IN_CALL then set_voice_session_mic_mute state else ret tt) ;;;
  unlock_adev ;;;
  ret 0.
Definition adev_get_mic_mute : A bool := gets mic_mute.

(** The modem tells that the band of the call changed: its PCMs are opened again. *)
Definition voice_session_wb_amr_callback (amr : Z) : A unit :=
  lock_adev ;;;
  let* s := get in
  (if negb (wb_amr_type (session s) =? amr) then
     with_session (fun v => v<|wb_amr_type := amr|>) ;;;
     (if in_call s then
        let* _r := stop_voice_call in
        let* _r := start_voice_call in ret tt
      else ret tt)
   else ret tt) ;;;
  unlock_adev.

(** [adev_set_parameters]: each key with whether its value is "on". *)
Definition adev_set_parameters (bt_nrec bt_wb screen : option bool) : A Z :=
  (match bt_nrec with Some b => modify (fun s => s<|bluetooth_nrec := b|>) | None => ret tt end) ;;;
  (match bt_wb with Some b => modify (fun s => s<|bluetooth_wb := b|>) | None => ret tt end) ;;;
  (match screen with Some b => modify (fun s => s<|screen_off := negb b|>) | None => ret tt end) ;;;
  ret (match screen with Some _ => 0 | None => - ENOENT end).

(** *** Opening and closing outputs *)
Definition is_supported_format (format : Z) : bool :=
  (format =? AUDIO_FORMAT_MP3) || (Z.land format AUDIO_FORMAT_MAIN_MASK =? AUDIO_FORMAT_AAC).

Definition new_out (devices flags sample_rate : Z) : stream_out :=
  mkOut false (mkConfig 0 0 0 0) [] None false sample_rate devices flags USECASE_AUDIO_PLAYBACK false 0 false
    OFFLOAD_STATE_IDLE [] false false (0, 0) false None 0 false.

(** [offload_info] is what the code looks at of a request for compressed audio: whether its
    version and size are supported, its format and sample rate. *)
Record offload_request := mkOffload { off_valid : bool; off_format : Z; off_rate : Z }.

Definition free_out (k : nat) : A unit := modify (fun s => s<|outs ::= delete k|>).

(** The use case of the new stream, 0 or an error. *)
Definition init_usecase (k : nat) (flags : Z) (info : offload_request) : A Z :=
  if has flags AUDIO_OUTPUT_FLAG_COMPRESS_OFFLOAD then
    if negb (off_valid info) then ret (- EINVAL)
    else if negb (is_supported_format (off_format info)) then ret (- EINVAL)
    else
      let* codec := calloc in
      match codec with
      | None => ret (- ENOMEM)
      | Some _ =>
          set_out k (fun o => o<|out_usecase := USECASE_AUDIO_PLAYBACK_OFFLOAD|><|out_sample_rate := off_rate info|>
                               <|out_non_blocking := has flags AUDIO_OUTPUT_FLAG_NON_BLOCKING|>
                               <|out_send_new_metadata := true|>) ;;;
          create_offload_callback_thread k ;;;
          set_out k (fun o => o<|out_offload_state := OFFLOAD_STATE_IDLE|>) ;;;
          ret 0
      end
  else if has flags AUDIO_OUTPUT_FLAG_DEEP_BUFFER then
    set_out k (fun o => o<|out_usecase := USECASE_AUDIO_PLAYBACK_DEEP_BUFFER|>
                         <|out_config := pp_config pcm_device_deep_buffer|>
                         <|out_sample_rate := rate (pp_config pcm_device_deep_buffer)|>) ;;;
    ret 0
  else
    set_out k (fun o => o<|out_usecase := USECASE_AUDIO_PLAYBACK|><|out_sample_rate := rate (out_config o)|>) ;;;
    ret 0.

(** The primary output is remembered before the last check. *)
Definition claim_primary (k : nat) (flags : Z) : A Z :=
  if has flags AUDIO_OUTPUT_FLAG_PRIMARY then
    let* p := gets primary_output in
    match p with
    | None => modify (fun s => s<|primary_output := Some k|>) ;;; ret 0
    | Some _ => ret (- EEXIST)
    end
  else ret 0.
Definition check_usecase (k : nat) : A Z :=
  lock_adev ;;;
  let* o := the_out k in
  let* u := get_usecase_from_id (out_usecase o) in
  unlock_adev ;;;
  ret (match u with Some _ => - EEXIST | None => 0 end).

Definition out_failed (k : nat) (r : Z) : A (Z * option nat) := free_out k ;;; ret (r, None).
Definition adev_open_output_stream (devices flags sample_rate : Z) (info : offload_request) : A (Z * option nat) :=
  let* p := calloc in
  match p with
  | None => ret (- ENOMEM, None)
  | Some k =>
      let devices := if devices =? AUDIO_DEVICE_NONE then AUDIO_DEVICE_OUT_SPEAKER else devices in
      modify (fun s => s<|outs ::= <[k := new_out devices flags sample_rate]>|>) ;;;
      let* profile := gets (fun s => get_pcm_device s PCM_PLAYBACK devices) in
      match profile with
      | None => out_failed k (- EINVAL)
      | Some profile =>
          set_out k (fun o => o<|out_config := pp_config profile|>) ;;;
          let* r := init_usecase k flags info in
          if negb (r =? 0) then out_failed k r
          else
            let* r := claim_primary k flags in
            if negb (r =? 0) then out_failed k r
            else
              let* r := check_usecase k in
              if negb (r =? 0) then out_failed k r
              else
                set_out k (fun o => o<|out_standby := true|>) ;;;
                ret (0, Some k)
      end
  end.

Definition adev_close_output_stream (k : nat) : A unit :=
  let* _r := out_standby_op k in
  let* o := the_out k in
  (if out_usecase o =? USECASE_AUDIO_PLAYBACK_OFFLOAD then destroy_offload_callback_thread k else ret tt) ;;;
  free_out k.

(** *** Opening and closing inputs *)
Definition check_input_parameters (sample_rate format channel_count : Z) : Z :=
  if negb (format =? AUDIO_FORMAT_PCM_16_BIT) then - EINVAL
  else if ((channel_count <? 1) || (2 <? channel_count))%bool then - EINVAL
  else if bool_decide (sample_rate ∈ [8000; 11025; 12000; 16000; 22050; 24000; 32000; 44100; 48000]) then 0
  else - EINVAL.

(** [size_t] arithmetic, but for the product of the first line, of 32 bits. *)
Definition get_input_buffer_size (s : AudioSt) (sample_rate format channel_count usecase_type devices : Z) : Z :=
  if negb (check_input_parameters sample_rate format channel_count =? 0) then 0
  else
    match get_pcm_device s usecase_type devices with
    | None => 0
    | Some p =>
        let size := u32 (period_size (pp_config p) * sample_rate) / rate (pp_config p) in
        let size := (size + 15) / 16 * 16 in
        u64 (size * channel_count * audio_bytes_per_sample format)
    end.
Definition adev_get_input_buffer_size (s : AudioSt) (sample_rate format channel_mask : Z) : Z :=
  get_input_buffer_size s sample_rate format (audio_channel_count_from_in_mask channel_mask)
    PCM_CAPTURE AUDIO_DEVICE_IN_BUILTIN_MIC.
Definition in_get_buffer_size (s : AudioSt) (i : stream_in) : Z :=
  get_input_buffer_size s (in_requested_rate i) AUDIO_FORMAT_PCM_16_BIT
    (audio_channel_count_from_in_mask (in_main_channels i)) (in_usecase_type i) (in_devices i).

Definition new_in (devices source sample_rate channel_mask usecase_type : Z) (p : pcm_device_profile) : stream_in :=
  mkIn false (pp_config p) [] true source devices USECASE_AUDIO_CAPTURE usecase_type false sample_rate None false None
    false channel_mask 0 [].
(** The profile of the request: a fast recording falls back to a regular one. *)
Definition input_profile (s : AudioSt) (devices flags : Z) : option (Z * pcm_device_profile) :=
  let usecase_type := if has flags AUDIO_INPUT_FLAG_FAST then PCM_CAPTURE_LOW_LATENCY else PCM_CAPTURE in
  match get_pcm_device s usecase_type devices with
  | Some p => Some (usecase_type, p)
  | None =>
      if usecase_type =? PCM_CAPTURE_LOW_LATENCY then
        match get_pcm_device s PCM_CAPTURE devices with Some p => Some (PCM_CAPTURE, p) | None => None end
      else None
  end.
Definition adev_open_input_stream (devices sample_rate format channel_mask flags source : Z) : A (Z * option nat) :=
  if negb (check_input_parameters sample_rate format (audio_channel_count_from_in_mask channel_mask) =? 0)
  then ret (- EINVAL, None)
  else
    let* profile := gets (fun s => input_profile s devices flags) in
    match profile with
    | None => ret (- EINVAL, None)
    | Some tp =>
        let* p := calloc in
        match p with
        | None => ret (- ENOMEM, None)
        | Some k =>
            modify (fun s => s<|ins ::= <[k := new_in devices source sample_rate channel_mask tp.1 tp.2]>|>) ;;;
            ret (0, Some k)
        end
    end.
Definition adev_close_input_stream (k : nat) : A unit :=
  lock_lock_inputs ;;;
  set_in k (fun i => i<|in_read_buf := false|>) ;;;
  release_resampler_of k ;;;
  let* _r := in_standby_l k in
  modify (fun s => s<|ins ::= delete k|>) ;;;
  unlock_lock_inputs.

(** *** The device opened *)
Definition period_size_is_plausible_for_low_latency (p : Z) : bool :=
  bool_decide (p ∈ [64; 96; 128; 192; 256]).

Definition RETRY_NUMBER : nat := 10.
(** The [do] loop around [mixer_open]. *)
Fixpoint open_mixer (retries : nat) : A bool :=
  let* ok := syscall mixer_ok in
  if (ok : bool) then ret true
  else match retries with O => ret false | S n => open_mixer n end.
Definition mixer_failed (r : Z) : A Z := modify (fun s => s<|mixer_list := []|>) ;;; ret r.
Fixpoint mixer_init_loop (cards : list Z) : A Z :=
  match cards with
  | [] => ret 0
  | card :: cards =>
      let* m := adev_get_mixer_for_card card in
      match m with
      | Some _ => mixer_init_loop cards
      | None =>
          let* ok := open_mixer RETRY_NUMBER in
          if negb ok then mixer_failed (- ENODEV)
          else
            let* ok := syscall route_ok in
            if negb ok then mixer_failed (- ENODEV)
            else
              let* p := calloc in
              match p with
              | None => mixer_failed (- ENOMEM)
              | Some _ =>
                  modify (fun s => s<|mixer_list ::= fun l => l ++ [card]|>) ;;;
                  mixer_init_loop cards
              end
      end
  end.
Definition mixer_init : A Z :=
  modify (fun s => s<|mixer_list := []|>) ;;;
  let* l := gets pcm_devices in
  mixer_init_loop (pp_card <$> l).

(** What [adev_open] finds: properties of the system, the effects library, the radio client
    and the amplifier. *)
Record environment := mkEnv {
  env_two_mic_disabled : bool;
  env_ril : bool;                       (* [ril_open] succeeds *)
  env_voice_config : option Z;          (* a forced narrow or wide band *)
  env_callback : bool;                  (* the AMR callback is registered, if it is supported *)
  env_fx : bool;
  env_amp : bool;
  env_period : option Z
}.
(** NULL, or the session in the state. *)
Definition voice_session_init (env : environment) : A bool :=
  let* p := calloc in
  match p with
  | None => ret false
  | Some _ =>
      if negb (env_ril env) then ret false
      else if (negb (bool_decide (is_Some (env_voice_config env))) && negb (env_callback env))%bool then ret false
      else
        modify (fun s => s<|session := mkSession None None (default 0 (env_voice_config env)) false
                                         (env_two_mic_disabled env) AUDIO_DEVICE_NONE|>) ;;;
        ret true
  end.

(** [calloc] of the device: what the HAL keeps of the state is not part of it. *)
Definition new_adev (s : AudioSt) : AudioSt :=
  mkAudio AUDIO_MODE_NORMAL None None false false None None false true false false
    (mkSession None None 0 false false AUDIO_DEVICE_NONE) [] [] [] None 0 false false
    (playback_period s) (low_latency_period s) false false ∅ ∅ (next_addr s) (sys_calls s) (hw_log s).

Definition set_period (trial : Z) : A unit :=
  if period_size_is_plausible_for_low_latency trial
  then modify (fun s => s<|playback_period := trial|><|low_latency_period := trial|>)
  else ret tt.
Definition adev_open (env : environment) : A Z :=
  let* p := calloc in
  match p with
  | None => ret (- ENOMEM)
  | Some _ =>
      modify new_adev ;;;
      let* c := calloc in
      match c with
      | None => ret (- ENOMEM)
      | Some _ =>
          modify (fun s => s<|snd_dev_ref_cnt := replicate (Z.to_nat SND_DEVICE_MAX) 0|>) ;;;
          let* r := mixer_init in
          if negb (r =? 0) then ret (- EINVAL)
          else
            modify (fun s => s<|offload_fx := env_fx env|>) ;;;
            let* ok := voice_session_init env in
            if negb ok then ret (- EINVAL)
            else
              modify (fun s => s<|amp := env_amp env|>) ;;;
              (match env_period env with Some trial => set_period trial | None => ret tt end) ;;;
              ret 0
      end
  end.
End hal.
