(* ===== verification/AudioEffects.v ===== *)
(** * What the operations of a stream do to the other streams

    [does R m]: if [m] finishes, its states are related by the preorder [R].  With it, an
    output leaves every standby flag, the recordings and the active input alone
    ([out_effect]), a recording the outputs and the standby flags ([in_effect]). *)
From S2P Require Import Prelude Machine AudioTypes AudioVoice AudioRoute AudioRouteInv AudioSelect AudioStreams AudioDevice AudioQuiet.

Definition does {B} (R : AudioSt -> AudioSt -> Prop) (m : A B) : Prop := forall s r s', m s = Done r s' -> R s s'.

Section calculus.
Context `{API : AudioApi} `{HW : AudioHw} `{MEM : Memory}.
Context (R : AudioSt -> AudioSt -> Prop) `{HR : !PreOrder R}.

Lemma does_ret {B} (b : B) : does R (ret b).
Proof. intros s r s' [= _ <-]. reflexivity. Qed.
Lemma does_gets {B} (f : AudioSt -> B) : does R (gets f).
Proof. intros s r s' [= _ <-]. reflexivity. Qed.
Lemma does_get : does R get.
Proof. intros s r s' [= _ <-]. reflexivity. Qed.
Lemma does_fail {B} e : does R (fail e : A B).
Proof. by intros s r s' [=]. Qed.
Lemma does_deref {B} e (o : option B) : does R (deref e o).
Proof. destruct o; [apply does_ret|apply does_fail]. Qed.
Lemma does_bind {B C} (m : A B) (f : B -> A C) : does R m -> (forall b, does R (f b)) -> does R (bind m f).
Proof.
  intros Hm Hf s r s'. unfold bind. destruct (m s) as [b s1|e|] eqn:E; cbn [obind]; [|done|done].
  intros Hr. etransitivity; [by eapply Hm|by eapply Hf].
Qed.
Lemma does_modify f : (forall s, R s (f s)) -> does R (modify f).
Proof. intros Hf s r s' [= _ <-]. apply Hf. Qed.
Lemma does_for_each {B} (l : list B) (f : B -> A unit) : (forall b, does R (f b)) -> does R (for_each l f).
Proof. intros Hf. induction l as [|b l IH]; [apply does_ret|]. cbn [for_each]. by apply does_bind. Qed.
Lemma does_the_out k : does R (the_out k).
Proof. apply does_bind; [apply does_gets|intros; apply does_deref]. Qed.
Lemma does_the_in k : does R (the_in k).
Proof. apply does_bind; [apply does_gets|intros; apply does_deref]. Qed.
Lemma does_set_out k f :
  (forall s o, outs s !! k = Some o -> R s (s<|outs ::= <[k := f o]>|>)) -> does R (set_out k f).
Proof.
  intros Hf s r s'. unfold set_out, the_out, bind, gets. cbn [obind]. destruct (outs s !! k) as [o|] eqn:E; [|done].
  cbn. intros [= _ <-]. by apply Hf.
Qed.
Lemma does_set_in k f :
  (forall s i, ins s !! k = Some i -> R s (s<|ins ::= <[k := f i]>|>)) -> does R (set_in k f).
Proof.
  intros Hf s r s'. unfold set_in, the_in, bind, gets. cbn [obind]. destruct (ins s !! k) as [i|] eqn:E; [|done].
  cbn. intros [= _ <-]. by apply Hf.
Qed.
End calculus.

(** ** Outputs *)
Definition out_effect (s s' : AudioSt) : Prop :=
  (forall k, out_standby <$> outs s' !! k = out_standby <$> outs s !! k) /\ ins s' = ins s /\ active_input s' = active_input s.
#[export] Instance out_effect_preorder : PreOrder out_effect.
Proof.
  split; [by intros s|]. intros s1 s2 s3 (H1 & E1 & F1) (H2 & E2 & F2). split_and!; [|congruence..].
  intros k. by rewrite H2.
Qed.
Lemma out_effect_set s k o f :
  outs s !! k = Some o -> out_standby (f o) = out_standby o -> out_effect s (s<|outs ::= <[k := f o]>|>).
Proof.
  intros Ho Hf. split_and!; [|done..]. intros j. cbn. destruct (decide (j = k)) as [->|Hn].
  - by rewrite lookup_insert_eq, Ho; cbn; rewrite Hf.
  - by rewrite lookup_insert_ne.
Qed.

(** ** Recordings *)
Definition in_effect (k : nat) (s s' : AudioSt) : Prop :=
  outs s' = outs s /\ (forall j, in_standby <$> ins s' !! j = in_standby <$> ins s !! j) /\
  (forall j, active_input s' = Some j -> active_input s = Some j \/ j = k).
#[export] Instance in_effect_preorder k : PreOrder (in_effect k).
Proof.
  split; [by intros s; split_and!; auto|]. intros s1 s2 s3 (E1 & H1 & F1) (E2 & H2 & F2). split_and!; [congruence| |].
  - intros j. by rewrite H2.
  - intros j Hj. destruct (F2 j Hj); auto.
Qed.
Lemma in_effect_set k s j i f :
  ins s !! j = Some i -> in_standby (f i) = in_standby i -> in_effect k s (s<|ins ::= <[j := f i]>|>).
Proof.
  intros Hi Hf. split_and!; [done| |by auto]. intros j'. cbn. destruct (decide (j' = j)) as [->|Hn].
  - by rewrite lookup_insert_eq, Hi; cbn; rewrite Hf.
  - by rewrite lookup_insert_ne.
Qed.

Create HintDb effects.
Ltac does1 :=
  match goal with
  | |- does _ (bind _ _) => apply does_bind; [typeclasses eauto| |intros ?]
  | |- does _ (ret _) => apply does_ret; typeclasses eauto
  | |- does _ (gets _) => apply does_gets; typeclasses eauto
  | |- does _ get => apply does_get; typeclasses eauto
  | |- does _ (fail _) => apply does_fail
  | |- does _ (deref _ _) => apply does_deref; typeclasses eauto
  | |- does _ (the_out _) => apply does_the_out; typeclasses eauto
  | |- does _ (the_in _) => apply does_the_in; typeclasses eauto
  | |- does _ (for_each _ _) => apply does_for_each; [typeclasses eauto|intros ?]
  | |- does out_effect (modify _) => apply does_modify; let s := fresh in intros s; destruct s; split_and!; done
  | |- does (in_effect _) (modify _) => apply does_modify; let s := fresh in intros s; destruct s; split_and!; cbn; naive_solver
  | |- does out_effect (set_out ?k ?f) =>
      let s := fresh in let o := fresh in let Ho := fresh in
      apply does_set_out; intros s o Ho; apply (out_effect_set s k o f Ho); by destruct o
  | |- does (in_effect ?k) (set_in ?j ?f) =>
      let s := fresh in let i := fresh in let Hi := fresh in
      apply does_set_in; intros s i Hi; apply (in_effect_set k s j i f Hi); by destruct i
  | |- does _ (if ?b then _ else _) => destruct b
  | |- does _ (match ?x with Some _ => _ | None => _ end) => destruct x
  | |- does _ _ => solve [eauto with effects]
  end.
Ltac does := repeat does1.

Section generic.
Context `{API : AudioApi} `{HW : AudioHw} `{MEM : Memory}.

(** What only touches the calls, the counts, the use cases and the session has both effects. *)
Definition plain {B} (m : A B) : Prop :=
  does (fun s s' => outs s' = outs s /\ ins s' = ins s /\ active_input s' = active_input s) m.
Lemma plain_out {B} (m : A B) : plain m -> does out_effect m.
Proof. intros Hm s r s' H. destruct (Hm _ _ _ H) as (E1 & E2 & E3). unfold out_effect. by rewrite E1. Qed.
Lemma plain_in {B} k (m : A B) : plain m -> does (in_effect k) m.
Proof. intros Hm s r s' H. destruct (Hm _ _ _ H) as (E1 & E2 & E3). unfold in_effect. rewrite E1, E2, E3. by split_and!; auto. Qed.
Lemma plain_preorder : PreOrder (fun s s' => outs s' = outs s /\ ins s' = ins s /\ active_input s' = active_input s).
Proof. split; [by intros s|]. intros s1 s2 s3 (E1 & F1 & G1) (E2 & F2 & G2). split_and!; congruence. Qed.
#[local] Existing Instance plain_preorder.
Ltac plain1 :=
  match goal with
  | |- plain ?m => unfold plain
  | |- does ?P (modify _) => apply does_modify; let s := fresh in intros s; destruct s; split_and!; done
  | |- does _ (match ?x with InStream _ => _ | OutStream _ => _ end) => destruct x
  | _ => does1
  end.
Ltac plain := repeat plain1.

Lemma plain_tell e : plain (tell e). Proof. unfold tell. plain. Qed.
Lemma plain_syscall {B} (f : nat -> B) : plain (syscall f). Proof. by intros s r s' [= _ <-]. Qed.
Lemma plain_fresh : plain fresh. Proof. by intros s r s' [= _ <-]. Qed.
Lemma plain_session f : plain (with_session f). Proof. unfold with_session. plain. Qed.
#[local] Hint Resolve plain_tell plain_syscall plain_fresh plain_session : effects.
Lemma plain_unfold {B} (m : A B) : plain m -> does (fun s s' => outs s' = outs s /\ ins s' = ins s /\ active_input s' = active_input s) m.
Proof. done. Qed.
#[local] Hint Resolve plain_unfold : effects.
Lemma plain_calloc : plain calloc. Proof. unfold calloc. plain. Qed.
Lemma plain_pcm_open card id c : plain (pcm_open card id c).
Proof. unfold pcm_open. plain. destruct b0; plain. Qed.
Lemma plain_compress_open : plain compress_open.
Proof. unfold compress_open. plain. destruct b0; plain. Qed.
#[local] Hint Resolve plain_calloc plain_pcm_open plain_compress_open : effects.
Lemma plain_set_ref d n : plain (set_ref_cnt d n). Proof. unfold set_ref_cnt. plain. Qed.
Lemma plain_ref d : plain (ref_cnt_of d). Proof. unfold ref_cnt_of. plain. Qed.
Lemma plain_from_id id : plain (get_usecase_from_id id). Proof. unfold get_usecase_from_id. plain. Qed.
Lemma plain_from_type t : plain (get_usecase_from_type t). Proof. unfold get_usecase_from_type. plain. Qed.
Lemma plain_the_uc p : plain (the_uc p). Proof. unfold the_uc. plain. Qed.
Lemma plain_set_uc p f : plain (set_uc p f). Proof. unfold set_uc. plain. Qed.
Lemma plain_amp d b : plain (amplifier_enable_devices d b). Proof. unfold amplifier_enable_devices. plain. Qed.
Lemma plain_amp_in d : plain (amplifier_set_input_devices d). Proof. unfold amplifier_set_input_devices. plain. Qed.
Lemma plain_amp_out d : plain (amplifier_set_output_devices d). Proof. unfold amplifier_set_output_devices. plain. Qed.
Lemma plain_cycle c d u : plain (cycle_output c d u). Proof. unfold cycle_output. plain. Qed.
#[local] Hint Resolve plain_set_ref plain_ref plain_from_id plain_from_type plain_the_uc plain_set_uc plain_amp plain_amp_in
  plain_amp_out plain_cycle : effects.
Lemma plain_enable_one c d : plain (enable_one c d). Proof. unfold enable_one. plain. Qed.
Lemma plain_disable_one c d : plain (disable_one c d). Proof. unfold disable_one. plain. Qed.
#[local] Hint Resolve plain_enable_one plain_disable_one : effects.
Lemma plain_enable c d : plain (enable_snd_device c d). Proof. unfold enable_snd_device. plain. Qed.
Lemma plain_disable c d : plain (disable_snd_device c d). Proof. unfold disable_snd_device. plain. Qed.
#[local] Hint Resolve plain_enable plain_disable : effects.
Lemma plain_switch t d l p : plain (switch_one t d l p). Proof. unfold switch_one. plain. Qed.
#[local] Hint Resolve plain_switch : effects.
Lemma plain_route p t d : plain (check_and_route_usecases p t d). Proof. unfold check_and_route_usecases. plain. Qed.
Lemma plain_audio_path : plain set_voice_session_audio_path. Proof. unfold set_voice_session_audio_path. plain. Qed.
#[local] Hint Resolve plain_route plain_audio_path : effects.
Lemma plain_update_path : plain update_audio_path. Proof. unfold update_audio_path. plain. Qed.
#[local] Hint Resolve plain_update_path : effects.
Lemma plain_apply p o i : plain (apply_devices p o i). Proof. unfold apply_devices. plain. Qed.
Lemma plain_as_input r : plain (as_input r). Proof. unfold as_input. plain. Qed.
Lemma plain_out_of r : plain (out_of r). Proof. unfold out_of. plain. Qed.
#[local] Hint Resolve plain_apply plain_as_input plain_out_of : effects.
Lemma plain_active_capture : plain active_capture. Proof. unfold active_capture. plain. Qed.
#[local] Hint Resolve plain_active_capture : effects.
Lemma plain_get_input o : plain (get_input_snd_device o). Proof. unfold get_input_snd_device. plain. Qed.
#[local] Hint Resolve plain_get_input : effects.
Lemma plain_capture_device i : plain (capture_device i). Proof. unfold capture_device. plain. Qed.
Lemma plain_call_devices u : plain (call_devices u). Proof. unfold call_devices. plain. Qed.
Lemma plain_prepare d : plain (prepare_voice_session d). Proof. unfold prepare_voice_session. plain. Qed.
#[local] Hint Resolve plain_capture_device plain_call_devices plain_prepare : effects.
Lemma plain_select n : forall id, plain (select_devices n id).
Proof. induction n as [|n IH]; intros id; cbn [select_devices]; plain. Qed.
#[local] Hint Resolve plain_select : effects.

(** The voice session. *)
Lemma plain_start_session : plain start_voice_session. Proof. unfold start_voice_session. plain. Qed.
Lemma plain_stop_and_close h : plain (stop_and_close h). Proof. unfold stop_and_close. plain. Qed.
#[local] Hint Resolve plain_start_session plain_stop_and_close : effects.
Lemma plain_stop_session : plain stop_voice_session. Proof. unfold stop_voice_session. plain. Qed.
Lemma plain_close_sco : plain close_sco_rx. Proof. unfold close_sco_rx. plain. Qed.
Lemma plain_volume : plain set_voice_volume_l. Proof. unfold set_voice_volume_l, set_voice_session_volume. plain. Qed.
#[local] Hint Resolve plain_stop_session plain_close_sco plain_volume : effects.
Lemma plain_start_sco : plain start_voice_session_bt_sco. Proof. unfold start_voice_session_bt_sco. plain. Qed.
Lemma plain_stop_sco : plain stop_voice_session_bt_sco. Proof. unfold stop_voice_session_bt_sco. plain. Qed.
Lemma plain_add_uc u : plain (add_uc u). Proof. unfold add_uc. plain. Qed.
Lemma plain_remove_uc p : plain (remove_uc p). Proof. unfold remove_uc. plain. Qed.
Lemma plain_mixer c : plain (adev_get_mixer_for_card c). Proof. unfold adev_get_mixer_for_card. plain. Qed.
Lemma plain_close_pcms l : plain (close_pcms l). Proof. unfold close_pcms. plain. Qed.
#[local] Hint Resolve plain_start_sco plain_stop_sco plain_add_uc plain_remove_uc plain_mixer plain_close_pcms : effects.
Lemma plain_stop_call : plain stop_voice_call. Proof. unfold stop_voice_call. plain. Qed.
Lemma plain_start_call : plain start_voice_call. Proof. unfold start_voice_call. plain. Qed.
Lemma plain_put_echo r : plain (put_echo_reference r). Proof. unfold put_echo_reference. plain. Qed.
#[local] Hint Resolve plain_put_echo : effects.
Lemma plain_get_echo : plain get_echo_reference. Proof. unfold get_echo_reference. plain. Qed.
Lemma plain_wait r : plain (wait r : A unit).
Proof. intros s u s'. unfold wait. destruct (r s); [|done]. by intros [= _ <-]. Qed.
End generic.
#[export] Hint Resolve plain_out plain_in plain_tell plain_syscall plain_fresh plain_session plain_calloc plain_pcm_open
  plain_compress_open plain_from_id plain_set_uc plain_enable plain_disable plain_select plain_out_of plain_start_session
  plain_stop_session plain_volume plain_start_sco plain_stop_sco plain_add_uc plain_remove_uc plain_mixer plain_close_pcms
  plain_stop_call plain_start_call plain_put_echo plain_get_echo plain_wait : effects.

(** ** The operations of an output *)
Section outputs.
Context `{API : AudioApi} `{HW : AudioHw} `{MEM : Memory}.

Lemma effect_out_close k : does out_effect (out_close_pcm_devices k). Proof. unfold out_close_pcm_devices. does. Qed.
Lemma effect_set_pcm k i h : does out_effect (set_pcm k i h). Proof. unfold set_pcm. does. Qed.
#[local] Hint Resolve effect_out_close effect_set_pcm : effects.
Lemma effect_open_from k l : forall i, does out_effect (out_open_from k i l).
Proof. induction l as [|d l IH]; intros i; cbn [out_open_from]; does. Qed.
#[local] Hint Resolve effect_open_from : effects.
Lemma effect_out_open k : does out_effect (out_open_pcm_devices k). Proof. unfold out_open_pcm_devices. does. Qed.
Lemma effect_select_loop n k : forall u d, does out_effect (uc_select_loop n k u d).
Proof. induction n as [|n IH]; intros u d; cbn [uc_select_loop]; does. Qed.
#[local] Hint Resolve effect_out_open effect_select_loop : effects.
Lemma effect_uc_select k u : does out_effect (uc_select_pcm_devices k u). Proof. unfold uc_select_pcm_devices. does. Qed.
Lemma effect_uc_release u : does out_effect (uc_release_pcm_devices u). Proof. unfold uc_release_pcm_devices. does. Qed.
#[local] Hint Resolve effect_uc_select effect_uc_release : effects.
Lemma effect_disable_path k : does out_effect (disable_output_path_l k). Proof. unfold disable_output_path_l. does. Qed.
Lemma effect_enable_path k : does out_effect (enable_output_path_l k). Proof. unfold enable_output_path_l. does. Qed.
Lemma effect_stop_offload k : does out_effect (stop_output_offload_stream k).
Proof. unfold stop_output_offload_stream. does. Qed.
#[local] Hint Resolve effect_disable_path effect_enable_path effect_stop_offload : effects.
Lemma effect_stop_output k : does out_effect (stop_output_stream k). Proof. unfold stop_output_stream. does. Qed.
#[local] Hint Resolve effect_stop_output : effects.
Lemma effect_start_pcm k : does out_effect (start_pcm_output k). Proof. unfold start_pcm_output. does. Qed.
Lemma effect_start_offload k : does out_effect (start_offload_output k).
Proof. unfold start_offload_output. does1; [does|]. destruct b as [[h|] []]; does. Qed.
#[local] Hint Resolve effect_start_pcm effect_start_offload : effects.
Lemma effect_start_output k : does out_effect (start_output_stream k). Proof. unfold start_output_stream. does. Qed.
Lemma effect_stop_echo_write k : does out_effect (stop_echo_write k). Proof. unfold stop_echo_write. does. Qed.
Lemma effect_close_compress k : does out_effect (close_compress k). Proof. unfold close_compress. does. Qed.
Lemma effect_wait_thread k : does out_effect (wait_offload_thread k). Proof. unfold wait_offload_thread. does. Qed.
#[local] Hint Resolve effect_wait_thread : effects.
Lemma effect_stop_compressed k : does out_effect (stop_compressed_output_l k). Proof. unfold stop_compressed_output_l. does. Qed.
End outputs.
#[export] Hint Resolve effect_start_output effect_stop_output effect_stop_echo_write effect_close_compress
  effect_stop_compressed effect_out_close effect_disable_path effect_enable_path : effects.

(** ** The operations of a recording *)
Section inputs.
Context `{API : AudioApi} `{HW : AudioHw} `{MEM : Memory}.

Lemma effect_stop_input k : does (in_effect k) (stop_input_stream k). Proof. unfold stop_input_stream. does. Qed.
(** The active input is reset first. *)
Definition same_active (s s' : AudioSt) : Prop := active_input s' = active_input s.
#[local] Instance same_active_preorder : PreOrder same_active.
Proof. split; [by intros s|]. unfold same_active. intros s1 s2 s3. congruence. Qed.
Lemma plain_active {B} (m : A B) : plain m -> does same_active m.
Proof. intros Hm s r s' H. by destruct (Hm _ _ _ H) as (_ & _ & ?). Qed.
#[local] Hint Resolve plain_active : effects.
Lemma stop_input_active k s r s' : stop_input_stream k s = Done r s' -> active_input s' = None.
Proof.
  unfold stop_input_stream. unfold bind at 1. cbn [modify obind]. intros Hr.
  enough (same_active (s<|active_input := None|>) s') by done. revert Hr.
  match goal with |- ?m ?s1 = _ -> _ => assert (does same_active m) as Hm; [|apply Hm] end.
  repeat first [apply does_set_in; done|does1].
Qed.
Lemma effect_release_resampler k j : does (in_effect k) (release_resampler_of j). Proof. unfold release_resampler_of. does. Qed.
#[local] Hint Resolve effect_stop_input effect_release_resampler : effects.
Lemma effect_recreate k j : does (in_effect k) (recreate_resampler_of j). Proof. unfold recreate_resampler_of. does. Qed.
#[local] Hint Resolve effect_recreate : effects.
Lemma effect_configure k j p : does (in_effect k) (configure_input j p). Proof. unfold configure_input. does. Qed.
Lemma effect_attach k j : does (in_effect k) (attach_echo j). Proof. unfold attach_echo. does. Qed.
#[local] Hint Resolve effect_configure effect_attach : effects.
Lemma effect_open_input k p : does (in_effect k) (open_input k p). Proof. unfold open_input. does. Qed.
#[local] Hint Resolve effect_open_input : effects.
Lemma effect_start_input k : does (in_effect k) (start_input_stream k). Proof. unfold start_input_stream, no_input. does. Qed.
Lemma effect_in_close k : does (in_effect k) (in_close_pcm_devices k). Proof. unfold in_close_pcm_devices. does. Qed.
Lemma effect_stop_echo_read k : does (in_effect k) (stop_echo_read k). Proof. unfold stop_echo_read. does. Qed.
End inputs.
#[export] Hint Resolve effect_start_input effect_in_close effect_stop_echo_read effect_stop_input effect_release_resampler : effects.
