(* ===== verification/AudioHalInv.v ===== *)
(** * The invariant of the HAL between its calls

    [hal_core] is what holds of the device whatever locks are held, [locks] tells which
    are.  The operations under the locks keep [hal_core]. *)
From S2P Require Import Prelude Machine AudioTypes AudioVoice AudioRoute AudioRouteInv AudioSelect AudioStreams AudioDevice AudioQuiet AudioPaths AudioHal AudioEffects.

(** ** The invariant *)
Record hal_core (s : AudioSt) : Prop := {
  hc_dev : device_ok s;
  hc_idle : forall k o, outs s !! k = Some o -> out_thread_blocked o = false;
  hc_active : forall j, active_input s = Some j -> exists i, ins s !! j = Some i /\ in_standby i = false;
  (* a stream in standby has no use case *)
  hc_out : forall k o, outs s !! k = Some o -> out_standby o = true -> forall u, u ∈ usecase_list s -> uc_id u <> out_usecase o;
  hc_in : forall k i, ins s !! k = Some i -> in_standby i = true -> forall u, u ∈ usecase_list s -> uc_id u <> USECASE_AUDIO_CAPTURE;
  (* nor has a paused one, which is offloaded *)
  hc_paused : forall k o, outs s !! k = Some o -> is_paused o = true ->
    out_usecase o = USECASE_AUDIO_PLAYBACK_OFFLOAD /\ forall u, u ∈ usecase_list s -> uc_id u <> out_usecase o;
  (* the streams do not share use cases *)
  hc_distinct : forall k j o p, outs s !! k = Some o -> outs s !! j = Some p -> out_usecase o = out_usecase p -> k = j;
  hc_one : forall k j, live_in k s -> live_in j s -> k = j;
  hc_addr : forall k, is_Some (outs s !! k) \/ live_in k s -> (k < next_addr s)%nat
}.

(** The locks held: of the device, of the inputs, of an output, of a recording. *)
Record locks (s : AudioSt) (a l : bool) (ko ki : option nat) : Prop := {
  lk_adev : adev_lock s = a;
  lk_inputs : lock_inputs s = l;
  lk_outs : forall k o, outs s !! k = Some o -> out_lock o = bool_decide (ko = Some k);
  lk_ins : forall k i, ins s !! k = Some i -> in_lock i = bool_decide (ki = Some k)
}.
Definition hal_ok (s : AudioSt) : Prop := hal_core s /\ locks s false false None None.

Lemma locks_base s s' a l ko ki : base s s' -> locks s a l ko ki -> locks s' a l ko ki.
Proof.
  intros Hb [Ha Hl Ho Hi]. split.
  - by rewrite (b_lock _ _ Hb).
  - by rewrite (b_inputs _ _ Hb).
  - intros k o' Ho'. destruct (base_out_inv _ _ _ _ Hb Ho') as (o & Hoo & _ & _ & -> & _). by apply Ho.
  - intros k i' Hi'. destruct (base_in_inv _ _ _ _ Hb Hi') as (i & Hii & _ & ->). by apply Hi.
Qed.

Lemma returns_does {B} (R : AudioSt -> AudioSt -> Prop) (m : A B) s P :
  returns m s P -> does R m -> returns m s (fun r s' => P r s' /\ R s s').
Proof. intros (r & s' & Hm & Hp) Hd. exists r, s'. eauto. Qed.

(** ** The locks only *)

(** The states are the same but for the locks. *)
Record relocked (s s' : AudioSt) : Prop := {
  rl_rest : s' = s<|adev_lock := adev_lock s'|><|lock_inputs := lock_inputs s'|><|outs := outs s'|><|ins := ins s'|>;
  rl_outs : forall k, option_Forall2 (fun o o' => o' = o<|out_lock := out_lock o'|>) (outs s !! k) (outs s' !! k);
  rl_ins : forall k, option_Forall2 (fun i i' => i' = i<|in_lock := in_lock i'|>) (ins s !! k) (ins s' !! k)
}.
Lemma relocked_out s s' k o : relocked s s' -> outs s !! k = Some o ->
  exists o', outs s' !! k = Some o' /\ o' = o<|out_lock := out_lock o'|>.
Proof. intros Hr Ho. pose proof (rl_outs _ _ Hr k) as H. rewrite Ho in H. inversion H; subst. by eexists. Qed.
Lemma relocked_out_inv s s' k o' : relocked s s' -> outs s' !! k = Some o' ->
  exists o, outs s !! k = Some o /\ o' = o<|out_lock := out_lock o'|>.
Proof. intros Hr Ho. pose proof (rl_outs _ _ Hr k) as H. rewrite Ho in H. inversion H; subst. by eexists. Qed.
Lemma relocked_in s s' k i : relocked s s' -> ins s !! k = Some i ->
  exists i', ins s' !! k = Some i' /\ i' = i<|in_lock := in_lock i'|>.
Proof. intros Hr Hi. pose proof (rl_ins _ _ Hr k) as H. rewrite Hi in H. inversion H; subst. by eexists. Qed.
Lemma relocked_in_inv s s' k i' : relocked s s' -> ins s' !! k = Some i' ->
  exists i, ins s !! k = Some i /\ i' = i<|in_lock := in_lock i'|>.
Proof. intros Hr Hi. pose proof (rl_ins _ _ Hr k) as H. rewrite Hi in H. inversion H; subst. by eexists. Qed.

Lemma relocked_trans s1 s2 s3 : relocked s1 s2 -> relocked s2 s3 -> relocked s1 s3.
Proof.
  intros [E1 Ho1 Hi1] [E2 Ho2 Hi2]. split.
  - rewrite E2, E1. done.
  - intros k. specialize (Ho1 k). specialize (Ho2 k). destruct Ho1 as [o o' E|]; inversion Ho2 as [? o'' E'|]; subst; constructor.
    rewrite E', E. by destruct o.
  - intros k. specialize (Hi1 k). specialize (Hi2 k). destruct Hi1 as [i i' E|]; inversion Hi2 as [? i'' E'|]; subst; constructor.
    rewrite E', E. by destruct i.
Qed.
(** Enough of the fields for the invariant, standby aside. *)
Definition alike_out (o o' : stream_out) : Prop :=
  out_usecase o' = out_usecase o /\ out_thread_blocked o' = out_thread_blocked o /\ (is_paused o' = true -> is_paused o = true).
Definition alike_in (i i' : stream_in) : Prop := in_usecase i' = in_usecase i.
Definition similar_out (o o' : stream_out) : Prop := alike_out o o' /\ (out_standby o' = true -> out_standby o = true).
Definition similar_in (i i' : stream_in) : Prop := alike_in i i' /\ (in_standby i' = true -> in_standby i = true).

Lemma device_streams s s' :
  device_ok s -> usecase_list s' = usecase_list s -> snd_dev_ref_cnt s' = snd_dev_ref_cnt s -> in_call s' = in_call s ->
  primary_output s' = primary_output s -> next_addr s' = next_addr s -> mixer_list s' = mixer_list s ->
  (forall k, option_Forall2 (fun o o' => out_usecase o' = out_usecase o) (outs s !! k) (outs s' !! k)) ->
  (forall k, option_Forall2 (fun i i' => in_usecase i' = in_usecase i) (ins s !! k) (ins s' !! k)) -> device_ok s'.
Proof.
  intros [[[Hrf Hob Hw Hp] Ha Hi Hc Ho Hin] Hcall] El Er Ec Ep En Em Hos His.
  assert (forall k o, outs s !! k = Some o -> exists o', outs s' !! k = Some o' /\ out_usecase o' = out_usecase o) as Ho1.
  { intros k o Hk. specialize (Hos k). rewrite Hk in Hos. inversion Hos; subst. by eexists. }
  assert (forall k i, ins s !! k = Some i -> exists i', ins s' !! k = Some i' /\ in_usecase i' = in_usecase i) as Hi1.
  { intros k i Hk. specialize (His k). rewrite Hk in His. inversion His; subst. by eexists. }
  split; [split; [split| | | | |]|].
  - destruct Hrf as [Hl Hr]. split; rewrite El; [done|]. unfold refs_are. by rewrite Er.
  - by rewrite El.
  - rewrite El. eapply Forall_impl; [exact Hw|]. intros u Hu. destruct Hu as [(H1 & H2 & H3 & k & o & H4 & H5 & H6)|
      [(H1 & H2 & H3 & k & i & H4 & H5 & H6)|(H1 & H2 & H3 & k & o & H4 & H5)]].
    + destruct (Ho1 _ _ H5) as (o' & H7 & H8). left. split_and!; [done..|]. exists k, o'. by rewrite H8.
    + destruct (Hi1 _ _ H5) as (i' & H7 & H8). right; left. split_and!; [done..|]. exists k, i'. by rewrite H8.
    + destruct H5 as [H5 H6], (Ho1 _ _ H5) as (o' & H7 & H8). right; right. split_and!; [done|done|congruence|].
      exists k, o'. by rewrite Ep.
  - rewrite Ep. intros k Hk. destruct (Hp k Hk) as [o Hko]. destruct (Ho1 _ _ Hko) as (o' & H7 & _). by eexists.
  - by rewrite El, En.
  - by rewrite El.
  - by rewrite Em.
  - intros k o' Hk. specialize (Hos k). rewrite Hk in Hos. inversion Hos as [o ? E Hko|]; subst. rewrite E. by apply (Ho k).
  - intros k i' Hk. specialize (His k). rewrite Hk in His. inversion His as [i ? E Hki|]; subst. rewrite E. by apply (Hin k).
  - unfold call_ready. by rewrite El, Ec.
Qed.

(** The use cases of the list were in it before. *)
Definition shrinks (s s' : AudioSt) : Prop :=
  forall u, u ∈ usecase_list s' -> exists v, v ∈ usecase_list s /\ uc_id v = uc_id u.

(** The invariant from state to state along alike streams, for those that go to or leave
    standby. *)
Lemma core_alike s s' :
  hal_core s -> device_ok s' ->
  (forall k o, outs s' !! k = Some o -> is_paused o = true -> forall u, u ∈ usecase_list s' -> uc_id u <> out_usecase o) ->
  (forall j, active_input s' = Some j -> exists i, ins s' !! j = Some i /\ in_standby i = false) ->
  (forall k, option_Forall2 alike_out (outs s !! k) (outs s' !! k)) ->
  (forall k, option_Forall2 alike_in (ins s !! k) (ins s' !! k)) ->
  (forall k o, outs s' !! k = Some o -> out_standby o = true -> forall u, u ∈ usecase_list s' -> uc_id u <> out_usecase o) ->
  (forall k i, ins s' !! k = Some i -> in_standby i = true -> forall u, u ∈ usecase_list s' -> uc_id u <> USECASE_AUDIO_CAPTURE) ->
  (next_addr s <= next_addr s')%nat -> hal_core s'.
Proof.
  intros [Hd Hid Hact Hout Hin Hpa Hdis Hone Haddr] Hd' Hpaused Ha Hos His Hout' Hin' Hnext.
  assert (forall k o', outs s' !! k = Some o' -> exists o, outs s !! k = Some o /\ alike_out o o') as Ho.
  { intros k o' Hk. specialize (Hos k). rewrite Hk in Hos. inversion Hos; subst. by eexists. }
  assert (forall k, live_in k s <-> live_in k s') as Hl.
  { intros k. specialize (His k). unfold live_in. inversion His; subst; split; intros [? ?]; by try eexists. }
  split; [done| | |done|done| | | |].
  - intros k o' Hk. destruct (Ho k o' Hk) as (o & Hko & _ & -> & _). by apply (Hid k).
  - done.
  - intros k o' Hk Hp. split; [|by apply (Hpaused k)]. destruct (Ho k o' Hk) as (o & Hko & -> & _ & Hs).
    by destruct (Hpa k o Hko (Hs Hp)).
  - intros k j o' p' Hk Hj. destruct (Ho k o' Hk) as (o & Hko & -> & _), (Ho j p' Hj) as (p & Hjp & -> & _). by apply Hdis.
  - intros k j Hk%Hl Hj%Hl. by apply Hone.
  - intros k Hk. assert (k < next_addr s)%nat; [|lia]. apply Haddr. destruct Hk as [[o' Hk]|Hk]; [left|right; by apply Hl].
    destruct (Ho k o' Hk) as (o & Hko & _). by eexists.
Qed.
(** Along similar streams, when no use case joins. *)
Lemma core_streams s s' :
  hal_core s -> device_ok s' -> shrinks s s' -> active_input s' = active_input s ->
  (forall k, option_Forall2 similar_out (outs s !! k) (outs s' !! k)) ->
  (forall k, option_Forall2 similar_in (ins s !! k) (ins s' !! k)) ->
  (next_addr s <= next_addr s')%nat -> hal_core s'.
Proof.
  intros Hc Hd' Hsub Ea Hos His Hnext.
  assert (forall k o', outs s' !! k = Some o' -> exists o, outs s !! k = Some o /\ similar_out o o') as Ho.
  { intros k o' Hk. specialize (Hos k). rewrite Hk in Hos. inversion Hos; subst. by eexists. }
  apply (core_alike s); [done|done| | | | | | |done].
  - intros k o' Hk Hp u Hu. destruct (Ho k o' Hk) as (o & Hko & (-> & _ & Hs) & _). destruct (Hsub u Hu) as (v & Hv & <-).
    by apply (hc_paused s Hc k o Hko (Hs Hp)).
  - intros j Hj. rewrite Ea in Hj. destruct (hc_active s Hc j Hj) as (i & Hi & Hs). specialize (His j). rewrite Hi in His.
    inversion His as [x i' Hsim Hx Hi'|]; subst. destruct Hsim as [_ Hsb]. exists i'. split; [done|]. destruct (in_standby i'); [|done]. by rewrite Hsb in Hs.
  - intros k. specialize (Hos k). inversion Hos as [o o' []|]; by constructor.
  - intros k. specialize (His k). inversion His as [i i' []|]; by constructor.
  - intros k o' Hk Hst u Hu. destruct (Ho k o' Hk) as (o & Hko & (-> & _) & Hs). destruct (Hsub u Hu) as (v & Hv & <-).
    by apply (hc_out s Hc k o Hko (Hs Hst)).
  - intros k i' Hk Hst u Hu. specialize (His k). rewrite Hk in His. inversion His as [i ? [_ Hs] Hki|]; subst.
    destruct (Hsub u Hu) as (v & Hv & <-). by eapply (hc_in s Hc k); [symmetry|apply Hs|].
Qed.

Lemma relocked_core s s' : relocked s s' -> hal_core s -> hal_core s'.
Proof.
  intros [Hr Ho Hi] Hc. apply (core_streams s); [done| | |by rewrite Hr| | |by rewrite Hr].
  - apply (device_streams s); [apply Hc|by rewrite Hr..| |].
    + intros k. specialize (Ho k). inversion Ho as [o o' E|]; constructor. by rewrite E.
    + intros k. specialize (Hi k). inversion Hi as [i i' E|]; constructor. by rewrite E.
  - rewrite Hr. intros u Hu. by exists u.
  - intros k. specialize (Ho k). inversion Ho as [o o' E|]; constructor. rewrite E. by destruct o.
  - intros k. specialize (Hi k). inversion Hi as [i i' E|]; constructor. rewrite E. by destruct i.
Qed.

Section ops.
Context `{API : AudioApi} `{HW : AudioHw} `{MEM : Memory}.

(** ** Locking and unlocking *)
Lemma relocked_adev s b : relocked s (s<|adev_lock := b|>).
Proof.
  split; [by destruct s| |]; intros k; cbn; [destruct (outs s !! k) as [[]|]|destruct (ins s !! k) as [[]|]]; by constructor.
Qed.
Lemma relocked_inputs s b : relocked s (s<|lock_inputs := b|>).
Proof.
  split; [by destruct s| |]; intros k; cbn; [destruct (outs s !! k) as [[]|]|destruct (ins s !! k) as [[]|]]; by constructor.
Qed.
Lemma relocked_set_out s k o b : outs s !! k = Some o -> relocked s (s<|outs ::= <[k := o<|out_lock := b|>]>|>).
Proof.
  intros Ho. split; [by destruct s| |]; intros j; cbn; [|destruct (ins s !! j) as [[]|]; by constructor].
  destruct (decide (j = k)) as [->|Hn].
  - rewrite lookup_insert_eq, Ho. constructor. by destruct o.
  - rewrite lookup_insert_ne by done. destruct (outs s !! j) as [[]|]; by constructor.
Qed.
Lemma relocked_set_in s k i b : ins s !! k = Some i -> relocked s (s<|ins ::= <[k := i<|in_lock := b|>]>|>).
Proof.
  intros Hi. split; [by destruct s| |]; intros j; cbn; [destruct (outs s !! j) as [[]|]; by constructor|].
  destruct (decide (j = k)) as [->|Hn].
  - rewrite lookup_insert_eq, Hi. constructor. by destruct i.
  - rewrite lookup_insert_ne by done. destruct (ins s !! j) as [[]|]; by constructor.
Qed.

(** What a change of the locks leaves. *)
Definition now (s : AudioSt) (a l : bool) (ko ki : option nat) (s' : AudioSt) : Prop :=
  relocked s s' /\ (hal_core s -> hal_core s') /\ locks s' a l ko ki.

Lemma lock_adev_spec s l ko ki :
  locks s false l ko ki -> returns lock_adev s (fun _ s' => now s true l ko ki s').
Proof.
  intros [Ha Hl Ho Hi]. exists tt, (s<|adev_lock := true|>). split; [unfold lock_adev, wait, bind; by rewrite Ha|].
  pose proof (relocked_adev s true) as Hr. split_and!; [done|by eapply relocked_core|]. by split.
Qed.
Lemma unlock_adev_spec s a l ko ki :
  locks s a l ko ki -> returns unlock_adev s (fun _ s' => now s false l ko ki s').
Proof.
  intros [Ha Hl Ho Hi]. exists tt, (s<|adev_lock := false|>). split; [done|].
  pose proof (relocked_adev s false) as Hr. split_and!; [done|by eapply relocked_core|]. by split.
Qed.
Lemma lock_inputs_spec s a ko ki :
  locks s a false ko ki -> returns lock_lock_inputs s (fun _ s' => now s a true ko ki s').
Proof.
  intros [Ha Hl Ho Hi]. exists tt, (s<|lock_inputs := true|>). split; [unfold lock_lock_inputs, wait, bind; by rewrite Hl|].
  pose proof (relocked_inputs s true) as Hr. split_and!; [done|by eapply relocked_core|]. by split.
Qed.
Lemma unlock_inputs_spec s a l ko ki :
  locks s a l ko ki -> returns unlock_lock_inputs s (fun _ s' => now s a false ko ki s').
Proof.
  intros [Ha Hl Ho Hi]. exists tt, (s<|lock_inputs := false|>). split; [done|].
  pose proof (relocked_inputs s false) as Hr. split_and!; [done|by eapply relocked_core|]. by split.
Qed.
Lemma locks_set_out s k o b a l ko ki :
  outs s !! k = Some o -> locks s a l ko ki -> (ko = None \/ ko = Some k) ->
  locks (s<|outs ::= <[k := o<|out_lock := b|>]>|>) a l (if b then Some k else None) ki.
Proof.
  intros Ho [Ha Hl Hos Hi] Hko. split; [done|done| |done]. intros j oj. cbn. destruct (decide (j = k)) as [->|Hn].
  - rewrite lookup_insert_eq. intros [= <-]. cbn. destruct b; [by rewrite bool_decide_true|done].
  - rewrite lookup_insert_ne by done. intros Hj. rewrite (Hos j oj Hj). apply bool_decide_ext.
    destruct Hko as [-> | ->], b; naive_solver.
Qed.
Lemma locks_set_in s k i b a l ko ki :
  ins s !! k = Some i -> locks s a l ko ki -> (ki = None \/ ki = Some k) ->
  locks (s<|ins ::= <[k := i<|in_lock := b|>]>|>) a l ko (if b then Some k else None).
Proof.
  intros Hi [Ha Hl Ho His] Hki. split; [done|done|done|]. intros j ij. cbn. destruct (decide (j = k)) as [->|Hn].
  - rewrite lookup_insert_eq. intros [= <-]. cbn. destruct b; [by rewrite bool_decide_true|done].
  - rewrite lookup_insert_ne by done. intros Hj. rewrite (His j ij Hj). apply bool_decide_ext.
    destruct Hki as [-> | ->], b; naive_solver.
Qed.
Lemma lock_output_spec s k a l ki :
  live_out k s -> locks s a l None ki -> returns (lock_output_stream k) s (fun _ s' => now s a l (Some k) ki s').
Proof.
  intros [o Ho] Hlk. exists tt, (s<|outs ::= <[k := o<|out_lock := true|>]>|>). split.
  - unfold lock_output_stream, wait, set_out. unfold bind at 1. rewrite Ho, (lk_outs _ _ _ _ _ Hlk k o Ho). cbn [negb bool_decide].
    rewrite bool_decide_false by done. cbn [negb obind]. by run (the_out_spec _ _ _ Ho).
  - pose proof (relocked_set_out s k o true Ho) as Hr. split_and!; [done|by eapply relocked_core|].
    eapply (locks_set_out s k o true); [done|done|by left].
Qed.
Lemma unlock_output_spec s k a l ki :
  live_out k s -> locks s a l (Some k) ki -> returns (unlock_output k) s (fun _ s' => now s a l None ki s').
Proof.
  intros [o Ho] Hlk. exists tt, (s<|outs ::= <[k := o<|out_lock := false|>]>|>). split.
  - unfold unlock_output, set_out. by run (the_out_spec _ _ _ Ho).
  - pose proof (relocked_set_out s k o false Ho) as Hr. split_and!; [done|by eapply relocked_core|].
    eapply (locks_set_out s k o false); [done|done|by right].
Qed.
Lemma lock_input_spec s k a l ko :
  live_in k s -> locks s a l ko None -> returns (lock_input_stream k) s (fun _ s' => now s a l ko (Some k) s').
Proof.
  intros [i Hi] Hlk. exists tt, (s<|ins ::= <[k := i<|in_lock := true|>]>|>). split.
  - unfold lock_input_stream, wait, set_in. unfold bind at 1. rewrite Hi, (lk_ins _ _ _ _ _ Hlk k i Hi).
    rewrite bool_decide_false by done. cbn [negb obind]. by run (the_in_spec _ _ _ Hi).
  - pose proof (relocked_set_in s k i true Hi) as Hr. split_and!; [done|by eapply relocked_core|].
    eapply (locks_set_in s k i true); [done|done|by left].
Qed.
Lemma unlock_input_spec s k a l ko :
  live_in k s -> locks s a l ko (Some k) -> returns (unlock_input k) s (fun _ s' => now s a l ko None s').
Proof.
  intros [i Hi] Hlk. exists tt, (s<|ins ::= <[k := i<|in_lock := false|>]>|>). split.
  - unfold unlock_input, set_in. by run (the_in_spec _ _ _ Hi).
  - pose proof (relocked_set_in s k i false Hi) as Hr. split_and!; [done|by eapply relocked_core|].
    eapply (locks_set_in s k i false); [done|done|by right].
Qed.
Lemma when_amp_quiet e s : quiet (when_amp e) s.
Proof. unfold when_amp. quiet. Qed.
Lemma when_amp_plain e : plain (when_amp e).
Proof. unfold when_amp, tell. intros s r s'. unfold bind, gets. cbn [obind]. by destruct (amp s); intros [= _ <-]. Qed.
End ops.
