(* ===== verification/AudioHalOps.v ===== *)
(** * The operations of the HAL keep its invariant

    Under the locks first: standby, start and routing of an output, the voice call, standby
    and start of a recording.  Then the functions the framework calls, which take the locks
    and give them back. *)
From S2P Require Import Prelude Machine AudioTypes AudioVoice AudioRoute AudioRouteInv AudioSelect AudioStreams AudioDevice AudioQuiet AudioPaths AudioHal AudioEffects AudioHalInv.

Section under_locks.
Context `{API : AudioApi} `{HW : AudioHw} `{MEM : Memory}.

(** ** Similar states *)
Lemma shrinks_refl s s' : usecase_list s' = usecase_list s -> shrinks s s'.
Proof. intros E u Hu. rewrite E in Hu. by exists u. Qed.
Lemma shrinks_ids s s' : uc_id <$> usecase_list s' = uc_id <$> usecase_list s -> shrinks s s'.
Proof.
  intros E u Hu. assert (uc_id u ∈ uc_id <$> usecase_list s) as (v & Ev & Hv)%list_elem_of_fmap
    by (rewrite <-E; by apply list_elem_of_fmap_2). by exists v.
Qed.
Lemma without_in id l u : u ∈ without_id id l <-> u ∈ l /\ uc_id u <> id.
Proof.
  unfold without_id. rewrite !list_elem_of_In, filter_In, <-!list_elem_of_In. by rewrite negb_true_iff, Z.eqb_neq.
Qed.
Lemma shrinks_without s s' id : usecase_list s' = without_id id (usecase_list s) -> shrinks s s'.
Proof. intros E u Hu. rewrite E in Hu. apply without_in in Hu as [Hu _]. by exists u. Qed.
Lemma shrinks_trans s1 s2 s3 : shrinks s1 s2 -> shrinks s2 s3 -> shrinks s1 s3.
Proof. intros H1 H2 u Hu. destruct (H2 u Hu) as (v & Hv & <-). by apply H1. Qed.
Lemma keeps_shrinks s s' : keeps s s' -> shrinks s s'.
Proof.
  intros (_ & _ & _ & Hs) u Hu. apply list_elem_of_lookup in Hu as [i Hi].
  destruct (Forall2_lookup_r _ _ _ _ _ Hs Hi) as (v & Hv & _ & Hid & _). exists v. split; [by eapply list_elem_of_lookup_2|done].
Qed.

Lemma alike_outs s s' : base s s' -> forall k, option_Forall2 alike_out (outs s !! k) (outs s' !! k).
Proof. intros Hb k. destruct (b_outs _ _ Hb k) as [o o' (E1 & _ & _ & E2 & E3)|]; constructor. by split_and!. Qed.
Lemma alike_ins s s' : base s s' -> forall k, option_Forall2 alike_in (ins s !! k) (ins s' !! k).
Proof. intros Hb k. destruct (b_ins _ _ Hb k) as [i i' (E1 & _)|]; by constructor. Qed.
Lemma similar_outs s s' :
  base s s' -> (forall k, out_standby <$> outs s' !! k = out_standby <$> outs s !! k) ->
  forall k, option_Forall2 similar_out (outs s !! k) (outs s' !! k).
Proof.
  intros Hb Hst k. specialize (Hst k). destruct (alike_outs _ _ Hb k) as [o o' Ha|]; constructor. split; [done|].
  injection Hst as ->. done.
Qed.
Lemma similar_ins s s' :
  base s s' -> (forall k, in_standby <$> ins s' !! k = in_standby <$> ins s !! k) ->
  forall k, option_Forall2 similar_in (ins s !! k) (ins s' !! k).
Proof.
  intros Hb Hst k. specialize (Hst k). destruct (alike_ins _ _ Hb k) as [o o' Ha|]; constructor. split; [done|].
  injection Hst as ->. done.
Qed.

(** An operation of an output during which no use case joins. *)
Lemma out_core s s' : hal_core s -> device_ok s' -> base s s' -> out_effect s s' -> shrinks s s' -> hal_core s'.
Proof.
  intros Hc Hd Hb (Hst & Hi & Ha) Hsh. apply (core_streams s); try done; [| |apply Hb].
  - by apply similar_outs.
  - apply similar_ins; [done|]. intros k. by rewrite Hi.
Qed.
Lemma frame_hal s s' : hal_core s -> frame s s' -> out_effect s s' -> hal_core s'.
Proof.
  intros Hc Hf He. apply (out_core s); try done; [eapply frame_ok; [done|apply Hc]|apply Hf|]. by apply shrinks_refl, Hf.
Qed.

(** ** Standby of an output *)
Lemma standby_effect k s r s' :
  do_out_standby_l k s = Done r s' ->
  exists o, outs s !! k = Some o /\ out_effect (s<|outs ::= <[k := o<|out_standby := true|>]>|>) s'.
Proof.
  unfold do_out_standby_l, set_out at 1. unfold bind at 1. unfold bind at 1.
  unfold the_out at 1. unfold bind at 1, gets at 1. cbn [obind]. destruct (outs s !! k) as [o|]; [|done].
  cbn [deref ret obind modify]. intros Hr. exists o. split; [done|]. revert Hr.
  match goal with |- ?m ?s1 = _ -> _ => assert (does out_effect m) as Hm; [does|apply Hm] end.
Qed.

Lemma standby_core k o s :
  hal_core s -> outs s !! k = Some o ->
  returns (do_out_standby_l k) s (fun _ s' => hal_core s' /\ base s s' /\ ins s' = ins s /\ active_input s' = active_input s /\
    in_call s' = in_call s /\ (out_standby <$> outs s' !! k) = Some true /\
    (forall j, j <> k -> out_standby <$> outs s' !! j = out_standby <$> outs s !! j)).
Proof.
  intros Hc Ho. destruct (out_standby_spec k o s (hc_dev s Hc) Ho (hc_idle s Hc k o Ho)) as (r & s' & Hrun & Hd & Hb & Hic & Hl).
  exists r, s'. split; [done|]. destruct (standby_effect k s r s' Hrun) as (o1 & Ho1 & Hst & Hi & Ha). cbn in Hst, Hi, Ha.
  assert (o1 = o) as -> by congruence.
  assert (out_standby <$> outs s' !! k = Some true) as Hk by (by rewrite Hst, lookup_insert_eq).
  assert (forall j, j <> k -> out_standby <$> outs s' !! j = out_standby <$> outs s !! j) as Hj
    by (intros j Hn; by rewrite Hst, lookup_insert_ne by congruence).
  split_and!; try done. clear Hst.
  assert (shrinks s s') as Hsh by (destruct Hl as [Hl|[_ Hl]]; [by eapply shrinks_without|by apply shrinks_refl]).
  apply (core_alike s); [done|done| |rewrite Ha, Hi; apply Hc|by apply alike_outs|by apply alike_ins| | |apply Hb].
  - intros j oj' Hoj' Hp u Hu. destruct (base_out_inv _ _ _ _ Hb Hoj') as (oj & Hoj & -> & _ & _ & _ & Hpa).
    destruct (Hsh u Hu) as (v & Hv & <-). by apply (hc_paused s Hc j oj Hoj (Hpa Hp)).
  - intros j oj' Hoj' Hs u Hu. destruct (base_out_inv _ _ _ _ Hb Hoj') as (oj & Hoj & -> & _).
    destruct (decide (j = k)) as [->|Hn].
    + assert (oj = o) as -> by congruence. destruct Hl as [Hl|[Hp Hl]].
      * rewrite Hl in Hu. by apply without_in in Hu as [_ Hu].
      * rewrite Hl in Hu. by apply (hc_paused s Hc k o Ho Hp).
    + destruct (Hsh u Hu) as (v & Hv & <-). apply (hc_out s Hc j oj Hoj); [|done].
      specialize (Hj j Hn). rewrite Hoj', Hoj in Hj. cbn in Hj. congruence.
  - intros j ij Hij Hs u Hu. rewrite Hi in Hij. destruct (Hsh u Hu) as (v & Hv & <-). by apply (hc_in s Hc j ij).
Qed.

(** What an operation of an output under the locks leaves. *)
Record kept (s s' : AudioSt) : Prop := {
  kp_core : hal_core s';
  kp_locks : forall a l ko ki, locks s a l ko ki -> locks s' a l ko ki;
  kp_out : forall k o, outs s !! k = Some o -> exists o', outs s' !! k = Some o' /\ out_usecase o' = out_usecase o;
  kp_ins : ins s' = ins s;
  kp_active : active_input s' = active_input s
}.
Lemma kept_refl s : hal_core s -> kept s s.
Proof. split; [done|done| |done|done]. intros k o Ho. by exists o. Qed.
Lemma kept_trans s1 s2 s3 : kept s1 s2 -> kept s2 s3 -> kept s1 s3.
Proof.
  intros [_ Hl1 Ho1 Hi1 Ha1] [Hc Hl2 Ho2 Hi2 Ha2]. split; [done|by auto| |congruence|congruence].
  intros k o Ho. destruct (Ho1 k o Ho) as (o1 & H1 & <-). by apply Ho2.
Qed.
Lemma kp_live s s' k : kept s s' -> live_out k s -> live_out k s'.
Proof. intros Hk [o Ho]. destruct (kp_out _ _ Hk k o Ho) as (o' & Ho' & _). by eexists. Qed.
Lemma kept_base s s' : hal_core s' -> base s s' -> ins s' = ins s -> active_input s' = active_input s -> kept s s'.
Proof.
  intros Hc Hb Hi Ha. split; [done| | |done|done]; [by intros; eapply locks_base|]. intros k o Ho.
  destruct (base_out _ _ _ _ Hb Ho) as (o' & Ho' & E & _). by exists o'.
Qed.
Lemma kept_quiet s s' : hal_core s -> frame s s' -> out_effect s s' -> kept s s'.
Proof. intros Hc Hf He. apply kept_base; [by eapply frame_hal|apply Hf|apply He..]. Qed.

(** ** Routing of an output *)
Lemma select_core s id u :
  hal_core s -> find (fun v => uc_id v =? id) (usecase_list s) = Some u -> uc_type u <> VOICE_CALL ->
  returns (select_devices SELECT_DEPTH id) s (fun r s' => r = 0 /\ hal_core s' /\ base s s' /\ out_effect s s').
Proof.
  intros Hc Hf Ht. pose proof (hc_dev s Hc) as Hd.
  destruct (select_ok 0 s id u) as (s' & out & inp & _ & Hs & Hk); [by apply device_routing|done|done|].
  exists 0, s'. split; [exact Hs|]. assert (base s s') as Hb by apply routes_base, Hk.
  assert (out_effect s s') as He by exact (plain_out _ (plain_select 2 id) _ _ _ Hs).
  split_and!; [done| |done|done]. apply (out_core s); try done; [by eapply keeps_device|by apply keeps_shrinks].
Qed.

Lemma route_active_core k o v s :
  hal_core s -> outs s !! k = Some o -> out_usecase o <> USECASE_AUDIO_PLAYBACK_OFFLOAD ->
  returns (route_active k v) s (fun _ s' => kept s s' /\ base s s').
Proof.
  intros Hc Ho Hoff. unfold route_active. eapply bind_out; [exact Ho|].
  destruct (out_standby o); [apply returns_ret; split; [by apply kept_refl|apply base_refl]|].
  unfold get_usecase_from_id. apply bind_gets. destruct (match find _ _ with None => false | Some _ => _ end).
  { eapply returns_bind; [by eapply standby_core|]. intros ? s1 (Hc1 & Hb1 & Hi1 & Ha1 & _). apply returns_ret.
    split; [by apply kept_base|done]. }
  rewrite (proj2 (Z.eqb_neq _ _) Hoff). apply bind_ret. destruct (find (fun u => uc_id u =? out_usecase o) (usecase_list s)) as [u|] eqn:Hf.
  - destruct (from_id_spec _ _ _ Hf (ok_refs s (dev_core s (proj1 (hc_dev s Hc))))) as (Hu & Hid & _).
    eapply returns_bind; [apply (select_core s _ u); [done|exact Hf|]|].
    { destruct (playback_id s u (proj1 (hc_dev s Hc)) Hu) as (-> & _); [|done]. rewrite Hid.
      apply (dev_outs s (proj1 (hc_dev s Hc)) k o Ho). }
    intros ? s1 (_ & Hc1 & Hb1 & He1). apply returns_ret. split; [|done]. apply kept_base; [done|done|apply He1..].
  - eapply (returns_bind _ _ _ (fun _ s' => s' = s)).
    { eexists _, s. split; [|done]. unfold SELECT_DEPTH. change 2%nat with (S 1). cbn [select_devices].
      destruct (active_capture_spec s (dev_core s (proj1 (hc_dev s Hc)))) as (input & Hac & _). run Hac.
      unfold get_usecase_from_id, bind at 1, gets. cbn [obind]. rewrite Hf. reflexivity. }
    intros ? ? ->. apply returns_ret. split; [by apply kept_refl|apply base_refl].
Qed.

Lemma update_sco_core k s : hal_core s -> live_out k s -> returns (update_sco k) s (fun _ s' => kept s s' /\ frame s s').
Proof.
  intros Hc Hk. assert (quiet (update_sco k) s) as (r & s' & Hr & Hf).
  { unfold update_sco. apply quiet_get_bind. quiet. }
  exists r, s'. split; [done|]. split; [|done]. apply kept_quiet; [done|done|].
  assert (does out_effect (update_sco k)) as Hd by (unfold update_sco; does). by eapply Hd.
Qed.

(** ** The call *)

(** Only the use case of the call joins. *)
Lemma call_core s s' :
  hal_core s -> device_ok s' -> base s s' -> out_effect s s' ->
  (forall u, u ∈ usecase_list s' -> uc_id u = USECASE_VOICE_CALL \/ exists v, v ∈ usecase_list s /\ uc_id v = uc_id u) ->
  hal_core s'.
Proof.
  intros Hc Hd Hb (Hst & Hi & Ha) Hsh. pose proof (proj1 (hc_dev s Hc)) as Hd0.
  assert (forall k o, outs s !! k = Some o -> USECASE_VOICE_CALL <> out_usecase o) as Hv.
  { intros k o Ho. pose proof (dev_outs s Hd0 k o Ho). unfold USECASE_VOICE_CALL, USECASE_AUDIO_PLAYBACK_DEEP_BUFFER in *. lia. }
  apply (core_alike s); [done|done| |rewrite Ha, Hi; apply Hc|by apply alike_outs|by apply alike_ins| | |apply Hb].
  - intros j oj' Hoj' Hp u Hu. destruct (base_out_inv _ _ _ _ Hb Hoj') as (oj & Hoj & -> & _ & _ & _ & Hpa).
    destruct (Hsh u Hu) as [-> | (v & Hvi & <-)]; [by eapply Hv|]. by apply (hc_paused s Hc j oj Hoj (Hpa Hp)).
  - intros j oj' Hoj' Hs u Hu. destruct (base_out_inv _ _ _ _ Hb Hoj') as (oj & Hoj & -> & _).
    destruct (Hsh u Hu) as [-> | (v & Hvi & <-)]; [by eapply Hv|]. apply (hc_out s Hc j oj Hoj); [|done].
    specialize (Hst j). rewrite Hoj', Hoj in Hst. cbn in Hst. congruence.
  - intros j ij Hij Hs u Hu. rewrite Hi in Hij. destruct (Hsh u Hu) as [-> | (v & Hvi & <-)]; [done|]. by apply (hc_in s Hc j ij).
Qed.
Lemma starts_in id s s' u : starts id s s' -> u ∈ usecase_list s' -> uc_id u = id \/ exists v, v ∈ usecase_list s /\ uc_id v = uc_id u.
Proof.
  intros Hs Hu. assert (uc_id u ∈ uc_id <$> usecase_list s') as Hin by by apply list_elem_of_fmap_2.
  rewrite Hs in Hin. apply elem_of_app in Hin as [(v & E & Hv)%list_elem_of_fmap|E%list_elem_of_singleton]; [right|by left]. by exists v.
Qed.

Lemma start_call_core s k o :
  hal_core s -> in_call s = false -> primary_output s = Some k -> outs s !! k = Some o ->
  mode s = AUDIO_MODE_IN_CALL -> call_device (out_devices o) = true ->
  returns start_voice_call s (fun _ s' => kept s s').
Proof.
  intros Hc Hic Hp Ho Hm Hdev. destruct (start_call_spec s k o (hc_dev s Hc) Hic Hp Ho Hm Hdev) as (r & s' & Hr & Hd & Hb & Hl).
  exists r, s'. split; [done|]. assert (out_effect s s') as He by exact (plain_out _ plain_start_call _ _ _ Hr).
  apply kept_base; [|done|apply He..]. apply (call_core s); try done. intros u Hu. destruct (r =? 0).
  - destruct Hl as [_ Hl]. by eapply starts_in.
  - destruct Hl as [_ Hl]. right. exists u. by rewrite <-Hl.
Qed.
Lemma stop_call_core s :
  hal_core s -> in_call s = true ->
  returns stop_voice_call s (fun _ s' => kept s s' /\ base s s' /\ in_call s' = false).
Proof.
  intros Hc Hic. destruct (stop_call_spec s (hc_dev s Hc) Hic) as (r & s' & Hr & _ & Hd & Hb & Hc' & Hl).
  exists r, s'. split; [done|]. assert (out_effect s s') as He by exact (plain_out _ plain_stop_call _ _ _ Hr).
  split_and!; [|done|done]. apply kept_base; [|done|apply He..]. apply (out_core s); try done. by eapply shrinks_without.
Qed.

(** The device of a call, if there is to be one. *)
Definition call_ok (k : nat) (s : AudioSt) : Prop :=
  forall o, outs s !! k = Some o -> mode s = AUDIO_MODE_IN_CALL -> primary_output s = Some k -> call_device (out_devices o) = true.
Lemma call_ok_base k s s' : base s s' -> call_ok k s -> call_ok k s'.
Proof.
  intros Hb Hok o' Ho' Hm Hp. destruct (base_out_inv _ _ _ _ Hb Ho') as (o & Ho & _ & -> & _).
  rewrite (b_mode _ _ Hb) in Hm. rewrite (b_primary _ _ Hb) in Hp. by apply Hok.
Qed.
Lemma update_call_core k s :
  hal_core s -> live_out k s -> call_ok k s -> returns (update_call k) s (fun _ s' => kept s s').
Proof.
  intros Hc [o Ho] Hok. unfold update_call. apply bind_get.
  destruct (Z.eqb_spec (mode s) AUDIO_MODE_IN_CALL) as [Hm|_]; [|by apply returns_ret, kept_refl].
  destruct (bool_decide_reflect (primary_output s = Some k)) as [Hp|_]; [|rewrite !andb_false_r; by apply returns_ret, kept_refl].
  destruct (in_call s) eqn:Hic; cbn [negb andb].
  - eapply returns_bind; [by apply stop_call_core|]. intros ? s1 (Hk1 & Hb1 & Hc1).
    destruct (base_out _ _ _ _ Hb1 Ho) as (o1 & Ho1 & _).
    eapply returns_bind; [eapply (start_call_core s1 k o1)|].
    + apply Hk1.
    + done.
    + by rewrite (b_primary _ _ Hb1).
    + done.
    + by rewrite (b_mode _ _ Hb1).
    + eapply (call_ok_base k s s1); [done|done|done|by rewrite (b_mode _ _ Hb1)|by rewrite (b_primary _ _ Hb1)].
    + intros ? s2 Hk2. apply returns_ret. by eapply kept_trans.
  - eapply returns_bind; [eapply (start_call_core s k o); [done..|by apply Hok]|]. intros ? s1 Hk1. by apply returns_ret.
Qed.

(** ** [set_routing] *)
Lemma set_devices_core k o v s :
  hal_core s -> outs s !! k = Some o -> kept s (s<|outs ::= <[k := o<|out_devices := v|>]>|>).
Proof.
  intros Hc Ho. set (s' := set_field outs _ s).
  assert (forall j, option_Forall2 (fun o o' => o' = o<|out_devices := out_devices o'|>) (outs s !! j) (outs s' !! j)) as Hos.
  { intros j. cbn. destruct (decide (j = k)) as [->|Hn].
    - rewrite lookup_insert_eq, Ho. constructor. by destruct o.
    - rewrite lookup_insert_ne by done. destruct (outs s !! j) as [[]|]; by constructor. }
  split; [|intros a l ko ki [Ha Hl Hlo Hli]; split; try done| |done|done].
  - apply (core_streams s); [done| |by apply shrinks_refl|done| | |done].
    + apply (device_streams s); [apply Hc|done..| |].
      * intros j. destruct (Hos j) as [x y E|]; constructor. by rewrite E.
      * intros j. change (ins s') with (ins s). destruct (ins s !! j); by constructor.
    + intros j. destruct (Hos j) as [x y E|]; constructor. rewrite E. by destruct x.
    + intros j. change (ins s') with (ins s). destruct (ins s !! j); by constructor.
  - intros j oj Hj. specialize (Hos j). rewrite Hj in Hos. inversion Hos as [x ? E Hx|]; subst. rewrite E. exact (Hlo j x (eq_sym Hx)).
  - intros j x Hx. specialize (Hos j). rewrite Hx in Hos. inversion Hos as [? x' E|]; subst. exists x'. split; [done|]. by rewrite E.
Qed.

Lemma set_routing_core k o v s :
  hal_core s -> outs s !! k = Some o -> out_usecase o <> USECASE_AUDIO_PLAYBACK_OFFLOAD ->
  (mode s = AUDIO_MODE_IN_CALL -> primary_output s = Some k -> call_device v = true) ->
  returns (set_routing k v) s (fun _ s' => kept s s').
Proof.
  intros Hc Ho Hoff Hcall. unfold set_routing. destruct (negb _); [|by apply returns_ret, kept_refl].
  pose proof (set_devices_core k o v s Hc Ho) as Hk1. set (s1 := set_field outs _ s) in *.
  eapply (returns_bind _ _ _ (fun _ s' => s' = s1)).
  { exists tt, s1. split; [|done]. unfold set_out. by run (the_out_spec _ _ _ Ho). }
  intros ? ? ->. assert (outs s1 !! k = Some (o<|out_devices := v|>)) as Ho1 by (cbn; apply lookup_insert_eq).
  assert (call_ok k s1) as Hok1 by (intros x Hx Hm Hp; rewrite Ho1 in Hx; injection Hx as <-; by apply Hcall).
  eapply returns_bind; [eapply route_active_core; [apply Hk1|exact Ho1|by destruct o]|]. intros ? s2 [Hk2 Hb2].
  assert (live_out k s2) as Hl2 by (apply (kp_live _ _ _ Hk2); by eexists).
  eapply returns_bind; [apply update_sco_core; [apply Hk2|done]|]. intros ? s3 [Hk3 Hf3].
  eapply returns_mono; [apply update_call_core; [apply Hk3|by apply (kp_live _ _ _ Hk3)|]|].
  - eapply call_ok_base; [apply Hf3|]. by eapply call_ok_base.
  - intros ? s4 Hk4. do 3 (eapply kept_trans; [eassumption|]). done.
Qed.

(** ** Recordings *)
Lemma bind_inv {B C} (m : A B) (f : B -> A C) s r s' :
  bind m f s = Done r s' -> exists b s1, m s = Done b s1 /\ f b s1 = Done r s'.
Proof. unfold bind. destruct (m s) as [b s1|e|]; cbn [obind]; [|done|done]. intros H. by exists b, s1. Qed.
Lemma set_in_inv k f s r s' : set_in k f s = Done r s' ->
  exists i, ins s !! k = Some i /\ s' = s<|ins ::= <[k := f i]>|>.
Proof.
  unfold set_in, the_in, bind, gets. cbn [obind]. destruct (ins s !! k) as [i|]; [|done]. cbn. intros [= _ <-]. by exists i.
Qed.

Lemma in_standby_effect k s r s' :
  do_in_standby_l k s = Done r s' ->
  outs s' = outs s /\ (in_standby <$> ins s' !! k) = Some true /\
  (s' = s \/ in_standby <$> ins s !! k = Some false /\ active_input s' = None).
Proof.
  intros (i & s0 & Hi & H)%bind_inv. unfold the_in, bind, gets in Hi. cbn [obind] in Hi.
  destruct (ins s !! k) as [i0|] eqn:E; [|done]. cbn in Hi. injection Hi as <- <-. destruct (in_standby i0) eqn:Est.
  { injection H as _ <-. rewrite E. cbn. rewrite Est. by split_and!; auto. }
  apply bind_inv in H as (u1 & s1 & H1 & H). apply bind_inv in H as (u2 & s2 & H2 & H).
  apply bind_inv in H as (u3 & s3 & H3 & H). apply bind_inv in H as (u4 & s4 & H4 & H). injection H as _ <-.
  assert (in_effect k s s3) as (Eo & Ei & Ea).
  { etransitivity; [|by eapply (effect_stop_input k)]. etransitivity; [by eapply (effect_in_close k)|by eapply (effect_stop_echo_read k)]. }
  pose proof (stop_input_active _ _ _ _ H3) as Hact. apply set_in_inv in H4 as (i3 & Hi3 & ->). cbn. split_and!; [done| |right].
  - by rewrite lookup_insert_eq.
  - cbn. by rewrite Est.
Qed.

Lemma in_standby_core k s :
  hal_core s -> live_in k s ->
  returns (do_in_standby_l k) s (fun r s' => r = 0 /\ hal_core s' /\ base s s' /\ outs s' = outs s /\
    (in_standby <$> ins s' !! k) = Some true).
Proof.
  intros Hc [i Hi]. destruct (in_standby_spec k i s (hc_dev s Hc) Hi) as (r & s' & Hrun & -> & Hd & Hb & Hic & Hl).
  exists 0, s'. split; [done|]. destruct (in_standby_effect _ _ _ _ Hrun) as (Eo & Ek & Ea). split_and!; try done.
  assert (shrinks s s') as Hsh by (destruct (in_standby i); [by apply shrinks_refl|by eapply shrinks_without]).
  apply (core_alike s); [done|done| | |by apply alike_outs|by apply alike_ins| | |apply Hb].
  - intros j oj Hj Hp u Hu. rewrite Eo in Hj. destruct (Hsh u Hu) as (v & Hv & <-). by apply (hc_paused s Hc j oj).
  - intros j Hj. destruct Ea as [-> | [_ Ea]]; [by apply (hc_active s Hc)|congruence].
  - intros j oj Hj Hs u Hu. rewrite Eo in Hj. destruct (Hsh u Hu) as (v & Hv & <-). by apply (hc_out s Hc j oj).
  - intros j ij Hj Hs u Hu. assert (j = k) as ->.
    { apply (hc_one s Hc); [|by eexists]. destruct (base_in_inv _ _ _ _ Hb Hj) as (i0 & Hi0 & _). by eexists. }
    destruct (in_standby i) eqn:Est.
    + rewrite Hl in Hu. by apply (hc_in s Hc k i).
    + rewrite Hl in Hu. apply without_in in Hu as [_ Hu]. by rewrite (dev_ins s (proj1 (hc_dev s Hc)) k i Hi) in Hu.
Qed.

(** ** Starting an output

    The use case is in the list before the flag of the stream says so. *)
Definition out_started (k : nat) (s s' : AudioSt) : Prop :=
  device_ok s' /\ base s s' /\ out_effect s s' /\
  exists o, outs s !! k = Some o /\ starts (out_usecase o) s s' /\ out_usecase o <> USECASE_AUDIO_PLAYBACK_OFFLOAD.
Lemma start_out_core k o s :
  hal_core s -> outs s !! k = Some o -> out_standby o = true -> out_usecase o <> USECASE_AUDIO_PLAYBACK_OFFLOAD ->
  returns (start_output_stream k) s (fun r s' =>
    if r =? 0 then out_started k s s' else hal_core s' /\ base s s' /\ out_effect s s').
Proof.
  intros Hc Ho Hst Hoff. assert (is_paused o = false) as Hp.
  { destruct (is_paused o) eqn:E; [|done]. by destruct (hc_paused s Hc k o Ho E). }
  eapply returns_mono; [apply returns_does; [apply (start_output_spec k o s (hc_dev s Hc) Ho (hc_out s Hc k o Ho Hst) Hp)|
    exact (effect_start_output k)]|].
  cbn beta. intros r s' [(Hd & Hb & _ & Hl) He]. destruct (r =? 0).
  - split_and!; [done|done|done|]. by exists o.
  - split_and!; [|done|done]. apply (out_core s); try done. by apply shrinks_ids.
Qed.
Lemma out_started_frame k s s1 s2 : out_started k s s1 -> frame s1 s2 -> out_effect s1 s2 -> out_started k s s2.
Proof.
  intros (Hd & Hb & He & o & Ho & Hs & Hoff) Hf He2. split_and!; [by eapply frame_ok|eapply base_trans; [done|apply Hf]|by etransitivity|].
  exists o. split_and!; [done|by eapply starts_frame|done].
Qed.
(** Its flag cleared, the device is consistent again. *)
Lemma out_started_core k s s1 o1 :
  hal_core s -> out_started k s s1 -> outs s1 !! k = Some o1 ->
  hal_core (s1<|outs ::= <[k := o1<|out_standby := false|>]>|>).
Proof.
  intros Hc (Hd & Hb & (Est & Ei & Ea) & o & Ho & Hs & Hoff) Ho1. set (s' := set_field outs _ s1).
  assert (base s1 s') as Hb1.
  { split; cbn; auto using same_ins_refl. intros j. apply (option_insert same_out _ k o1); [by intros [] |done|by destruct o1]. }
  assert (base s s') as Hb' by by eapply base_trans.
  assert (forall j oj u, outs s !! j = Some oj -> j <> k -> u ∈ usecase_list s' -> (forall v, v ∈ usecase_list s -> uc_id v <> out_usecase oj) ->
    uc_id u <> out_usecase oj) as Hother.
  { intros j oj u Hj Hn Hu Hv. destruct (starts_in _ _ _ _ Hs Hu) as [E|(v & Hin & <-)]; [|by apply Hv].
    intros E2. apply Hn. apply (hc_distinct s Hc j k oj o); congruence. }
  assert (forall j oj', outs s' !! j = Some oj' -> exists oj, outs s !! j = Some oj /\ same_out oj oj') as Hinv
    by (intros j oj'; by apply base_out_inv).
  apply (core_alike s); [done| | | |by apply alike_outs|by apply alike_ins| | |apply Hb'].
  - apply (frame_ok s1); [|done]. split; [done|by destruct s1].
  - intros j oj' Hj Hp u Hu. destruct (Hinv j oj' Hj) as (oj & Hoj & -> & _ & _ & _ & Hpa).
    destruct (hc_paused s Hc j oj Hoj (Hpa Hp)) as [E Hab]. apply (Hother j oj u); try done. intros ->.
    apply Hoff. congruence.
  - change (active_input s') with (active_input s1). change (ins s') with (ins s1). rewrite Ea, Ei. apply Hc.
  - intros j oj' Hj Hsb u Hu. destruct (decide (j = k)) as [->|Hn].
    { cbn in Hj. rewrite lookup_insert_eq in Hj. injection Hj as <-. by destruct o1. }
    destruct (Hinv j oj' Hj) as (oj & Hoj & -> & _). apply (Hother j oj u); try done. apply (hc_out s Hc j oj Hoj).
    specialize (Est j). cbn in Hj. rewrite lookup_insert_ne in Hj by congruence. rewrite Hj, Hoj in Est. cbn in Est. congruence.
  - intros j ij Hj Hsb u Hu. change (ins s') with (ins s1) in Hj. rewrite Ei in Hj.
    destruct (starts_in _ _ _ _ Hs Hu) as [->|(v & Hin & <-)]; [|by apply (hc_in s Hc j ij)].
    pose proof (dev_outs s (proj1 (hc_dev s Hc)) k o Ho). unfold USECASE_AUDIO_CAPTURE, USECASE_AUDIO_PLAYBACK_DEEP_BUFFER in *. lia.
Qed.

(** ** Starting a recording *)
Lemma start_in_core k i s :
  (forall n, resampler_status n = 0) -> hal_core s -> ins s !! k = Some i -> in_standby i = true ->
  returns (start_input_stream k) s (fun r s' =>
    device_ok s' /\ base s s' /\ in_effect k s s' /\
    if r =? 0 then starts USECASE_AUDIO_CAPTURE s s' else hal_core s').
Proof.
  intros Hrs Hc Hi Hst. pose proof (dev_ins s (proj1 (hc_dev s Hc)) k i Hi) as Hid.
  eapply returns_mono; [apply returns_does; [apply (start_input_spec k i s (hc_dev s Hc) Hi)|exact (effect_start_input k)]|].
  { rewrite Hid. by apply (hc_in s Hc k i). }
  cbn beta. intros r s' [(Hd & Hb & _ & Hl) He]. rewrite Hid in Hl. split_and!; [done..|].
  destruct (Z.eqb_spec r 0) as [_|Hr]; [done|]. destruct Hl as [[Hl Hact]|[_ [Hn (n & Hn')]]]; [|by rewrite Hrs in Hn'].
  destruct He as (Eo & Es & Ea). apply shrinks_ids in Hl as Hsh.
  apply (core_alike s); [done|done| | |by apply alike_outs|by apply alike_ins| | |apply Hb].
  - intros j oj Hj Hp u Hu. rewrite Eo in Hj. destruct (Hsh u Hu) as (v & Hv & <-). by apply (hc_paused s Hc j oj).
  - intros j Hj. congruence.
  - intros j oj Hj Hs u Hu. rewrite Eo in Hj. destruct (Hsh u Hu) as (v & Hv & <-). by apply (hc_out s Hc j oj).
  - intros j ij Hj Hs u Hu. destruct (Hsh u Hu) as (v & Hv & <-). assert (j = k) as ->.
    { apply (hc_one s Hc); [|by eexists]. destruct (base_in_inv _ _ _ _ Hb Hj) as (i0 & Hi0 & _). by eexists. }
    by apply (hc_in s Hc k i).
Qed.
(** The flag of the recording cleared, after the locks of the device were given up. *)
Lemma in_started_core k s s1 s2 i2 :
  hal_core s -> live_in k s -> device_ok s1 -> base s s1 -> in_effect k s s1 -> starts USECASE_AUDIO_CAPTURE s s1 ->
  relocked s1 s2 -> ins s2 !! k = Some i2 ->
  hal_core (s2<|ins ::= <[k := i2<|in_standby := false|>]>|>).
Proof.
  intros Hc Hk Hd Hb (Eo & Es & Ea) Hs [Hr Hro Hri] Hi2. set (s' := set_field ins _ s2).
  assert (forall j, option_Forall2 alike_out (outs s !! j) (outs s' !! j)) as Hao.
  { intros j. change (outs s') with (outs s2). specialize (Hro j). rewrite Eo in Hro. destruct Hro as [o o' E|]; constructor.
    rewrite E. by destruct o. }
  assert (forall j, option_Forall2 alike_in (ins s !! j) (ins s' !! j)) as Hai.
  { intros j. pose proof (alike_ins _ _ Hb j) as H1. specialize (Hri j). cbn. destruct (decide (j = k)) as [->|Hn].
    - rewrite lookup_insert_eq. rewrite Hi2 in Hri. inversion Hri as [x y E Hx|]; subst. rewrite <-Hx in H1.
      inversion H1; subst; constructor. rewrite E. by destruct x.
    - rewrite lookup_insert_ne by congruence. destruct Hri as [x y E|]; inversion H1; subst; constructor. rewrite E. by destruct x. }
  assert (usecase_list s' = usecase_list s1) as El by (change (usecase_list s' = usecase_list s1) with (usecase_list s2 = usecase_list s1); by rewrite Hr).
  assert (forall u, u ∈ usecase_list s' -> uc_id u = USECASE_AUDIO_CAPTURE \/ exists v, v ∈ usecase_list s /\ uc_id v = uc_id u) as Hin
    by (intros u Hu; rewrite El in Hu; by eapply starts_in).
  assert (forall j o, outs s !! j = Some o -> USECASE_AUDIO_CAPTURE <> out_usecase o) as Hne.
  { intros j o Ho. pose proof (dev_outs s (proj1 (hc_dev s Hc)) j o Ho). unfold USECASE_AUDIO_CAPTURE, USECASE_AUDIO_PLAYBACK_DEEP_BUFFER in *. lia. }
  assert (forall j o', outs s' !! j = Some o' -> exists o, outs s !! j = Some o /\ o' = o<|out_lock := out_lock o'|>) as Hinv.
  { intros j o' Hj. change (outs s') with (outs s2) in Hj. specialize (Hro j). rewrite Eo, Hj in Hro. inversion Hro; subst. by eexists. }
  apply (core_alike s); [done| | | |done|done| | |].
  - apply (device_streams s1); [done|cbn; by rewrite Hr..| |].
    + intros j. change (outs s') with (outs s2). destruct (Hro j) as [o o' E|]; constructor. by rewrite E.
    + intros j. specialize (Hri j). cbn. destruct (decide (j = k)) as [->|Hn].
      * rewrite lookup_insert_eq. rewrite Hi2 in Hri. inversion Hri as [x y E Hx|]; subst. constructor. rewrite E. by destruct x.
      * rewrite lookup_insert_ne by congruence. destruct Hri as [x y E|]; constructor. rewrite E. by destruct x.
  - intros j o' Hj Hp u Hu. destruct (Hinv j o' Hj) as (o & Ho & E). rewrite E in Hp |- *. cbn.
    destruct (Hin u Hu) as [-> | (v & Hv & <-)]; [by eapply Hne|]. by apply (hc_paused s Hc j o).
  - intros j Hj. change (active_input s') with (active_input s2) in Hj. rewrite Hr in Hj. cbn in Hj.
    assert (j = k) as ->.
    { destruct (Ea j Hj) as [Hj' | ->]; [|done]. destruct (hc_active s Hc j Hj') as (i & Hi & _).
      apply (hc_one s Hc); [by eexists|done]. }
    eexists. cbn. rewrite lookup_insert_eq. split; [reflexivity|by destruct i2].
  - intros j o' Hj Hsb u Hu. destruct (Hinv j o' Hj) as (o & Ho & E). rewrite E in Hsb |- *. cbn.
    destruct (Hin u Hu) as [-> | (v & Hv & <-)]; [by eapply Hne|]. by apply (hc_out s Hc j o).
  - intros j ij Hj Hsb u Hu. assert (j = k) as ->.
    { apply (hc_one s Hc); [|done]. specialize (Hai j). rewrite Hj in Hai. inversion Hai; subst. by eexists. }
    cbn in Hj. rewrite lookup_insert_eq in Hj. injection Hj as <-. by destruct i2.
  - etransitivity; [apply (b_addr _ _ Hb)|]. cbn. by rewrite Hr.
Qed.
End under_locks.
