(* ===== verification/AudioHalCalls.v ===== *)
(** * The calls of the framework

    Every function of the HAL, called on a device that is between calls ([hal_ok]), returns
    and leaves it so, its locks given back. *)
From S2P Require Import Prelude Machine AudioTypes AudioVoice AudioRoute AudioRouteInv AudioSelect AudioStreams AudioDevice AudioQuiet AudioPaths AudioHal AudioEffects AudioHalInv AudioHalOps.

(** A state between steps of a call: consistent, with these locks. *)
Definition held (a l : bool) (ko ki : option nat) (s : AudioSt) : Prop := hal_core s /\ locks s a l ko ki.

Section calls.
Context `{API : AudioApi} `{HW : AudioHw} `{MEM : Memory}.

(** The streams of both states are the same ones. *)
Record same_streams (s s' : AudioSt) : Prop := {
  ss_outs : forall k o, outs s !! k = Some o -> exists o', outs s' !! k = Some o' /\ out_usecase o' = out_usecase o;
  ss_ins : forall k, live_in k s -> live_in k s';
  ss_mode : mode s' = mode s;
  ss_primary : primary_output s' = primary_output s
}.
Lemma same_refl s : same_streams s s.
Proof. split; [|done..]. intros k o Ho. by exists o. Qed.
Lemma same_trans s1 s2 s3 : same_streams s1 s2 -> same_streams s2 s3 -> same_streams s1 s3.
Proof.
  intros [Ho1 Hi1 Hm1 Hp1] [Ho2 Hi2 Hm2 Hp2]. split; [|auto|congruence|congruence].
  intros k o Ho. destruct (Ho1 k o Ho) as (o1 & H1 & <-). by apply Ho2.
Qed.
Lemma same_base s s' : base s s' -> same_streams s s'.
Proof.
  intros Hb. split; [|by intros k; apply live_in_base|apply Hb..]. intros k o Ho.
  destruct (base_out _ _ _ _ Hb Ho) as (o' & Ho' & E & _). by exists o'.
Qed.
Lemma same_relocked s s' : relocked s s' -> same_streams s s'.
Proof.
  intros Hr. split; [| |by rewrite (rl_rest _ _ Hr)..].
  - intros k o Ho. destruct (relocked_out _ _ _ _ Hr Ho) as (o' & Ho' & E). exists o'. split; [done|]. by rewrite E.
  - intros k [i Hi]. destruct (relocked_in _ _ _ _ Hr Hi) as (i' & Hi' & _). by eexists.
Qed.
Lemma same_live s s' k : same_streams s s' -> live_out k s -> live_out k s'.
Proof. intros Hs [o Ho]. destruct (ss_outs _ _ Hs k o Ho) as (o' & Ho' & _). by eexists. Qed.

(** A step of a call: the locks after it, the same streams, the same active input. *)
Definition step (a l : bool) (ko ki : option nat) (s s' : AudioSt) : Prop :=
  held a l ko ki s' /\ same_streams s s' /\ active_input s' = active_input s.
Lemma now_step s a l ko ki s' : hal_core s -> now s a l ko ki s' -> step a l ko ki s s'.
Proof.
  intros Hc (Hr & Hc' & Hl). split_and!; [by split; [apply Hc'|]|by apply same_relocked|]. by rewrite (rl_rest _ _ Hr).
Qed.
Lemma base_step s s' a l ko ki :
  locks s a l ko ki -> hal_core s' -> base s s' -> active_input s' = active_input s -> step a l ko ki s s'.
Proof. intros Hl Hc Hb Ha. split_and!; [split; [done|by eapply locks_base]|by apply same_base|done]. Qed.
Lemma quiet_step {B} (m : A B) s a l ko ki :
  held a l ko ki s -> quiet m s -> plain m -> returns m s (fun _ s' => step a l ko ki s s').
Proof.
  intros [Hc Hl] (r & s' & Hr & Hf) Hp. exists r, s'. split; [done|]. assert (out_effect s s') as He by by eapply (plain_out m).
  apply base_step; [done|by eapply frame_hal|apply Hf|apply He].
Qed.

Lemma s_lock_adev s l ko ki : held false l ko ki s -> returns lock_adev s (fun _ s' => step true l ko ki s s').
Proof. intros [Hc Hl]. eapply returns_mono; [by apply lock_adev_spec|]. intros r s'. by apply now_step. Qed.
Lemma s_unlock_adev s a l ko ki : held a l ko ki s -> returns unlock_adev s (fun _ s' => step false l ko ki s s').
Proof. intros [Hc Hl]. eapply returns_mono; [by eapply unlock_adev_spec|]. intros r s'. by apply now_step. Qed.
Lemma s_lock_inputs s a ko ki : held a false ko ki s -> returns lock_lock_inputs s (fun _ s' => step a true ko ki s s').
Proof. intros [Hc Hl]. eapply returns_mono; [by apply lock_inputs_spec|]. intros r s'. by apply now_step. Qed.
Lemma s_unlock_inputs s a l ko ki : held a l ko ki s -> returns unlock_lock_inputs s (fun _ s' => step a false ko ki s s').
Proof. intros [Hc Hl]. eapply returns_mono; [by eapply unlock_inputs_spec|]. intros r s'. by apply now_step. Qed.
Lemma s_lock_output s k a l ki : live_out k s -> held a l None ki s ->
  returns (lock_output_stream k) s (fun _ s' => step a l (Some k) ki s s').
Proof. intros Hk [Hc Hl]. eapply returns_mono; [by apply lock_output_spec|]. intros r s'. by apply now_step. Qed.
Lemma s_unlock_output s k a l ki : live_out k s -> held a l (Some k) ki s ->
  returns (unlock_output k) s (fun _ s' => step a l None ki s s').
Proof. intros Hk [Hc Hl]. eapply returns_mono; [by apply unlock_output_spec|]. intros r s'. by apply now_step. Qed.
Lemma s_lock_input s k a l ko : live_in k s -> held a l ko None s ->
  returns (lock_input_stream k) s (fun _ s' => step a l ko (Some k) s s').
Proof. intros Hk [Hc Hl]. eapply returns_mono; [by apply lock_input_spec|]. intros r s'. by apply now_step. Qed.
Lemma s_unlock_input s k a l ko : live_in k s -> held a l ko (Some k) s ->
  returns (unlock_input k) s (fun _ s' => step a l ko None s s').
Proof. intros Hk [Hc Hl]. eapply returns_mono; [by apply unlock_input_spec|]. intros r s'. by apply now_step. Qed.
Lemma s_amp e s a l ko ki : held a l ko ki s -> returns (when_amp e) s (fun _ s' => step a l ko ki s s').
Proof. intros Hh. apply quiet_step; [done|apply when_amp_quiet|apply when_amp_plain]. Qed.

Lemma step_held a l ko ki s s' : step a l ko ki s s' -> held a l ko ki s'.
Proof. by intros []. Qed.
Lemma step_live_out a l ko ki s s' k : step a l ko ki s s' -> live_out k s -> live_out k s'.
Proof. intros (_ & Hs & _). by apply same_live. Qed.
Lemma step_live_in a l ko ki s s' k : step a l ko ki s s' -> live_in k s -> live_in k s'.
Proof. intros (_ & Hs & _). apply Hs. Qed.
Lemma step_refl a l ko ki s : held a l ko ki s -> step a l ko ki s s.
Proof. intros Hh. split_and!; [done|apply same_refl|done]. Qed.
Lemma step_trans a l ko ki a' l' ko' ki' s1 s2 s3 : step a l ko ki s1 s2 -> step a' l' ko' ki' s2 s3 -> step a' l' ko' ki' s1 s3.
Proof. intros (_ & Hs1 & Ha1) (Hh & Hs2 & Ha2). split_and!; [done|by eapply same_trans|congruence]. Qed.
End calls.

(** Liveness and locks along the steps. *)
Ltac alive :=
  repeat match goal with
  | H : ?P |- ?P => exact H
  | H : step _ _ _ _ ?s ?s' |- live_out ?k ?s' => apply (step_live_out _ _ _ _ s s' k H)
  | H : step _ _ _ _ ?s ?s' |- live_in ?k ?s' => apply (step_live_in _ _ _ _ s s' k H)
  | H : step _ _ _ _ ?s ?s' |- held _ _ _ _ ?s' => exact (step_held _ _ _ _ s s' H)
  end.
Ltac lstep lem := eapply returns_bind; [eapply lem; alive|]; cbn beta; intros ? ? ?.

Section calls2.
Context `{API : AudioApi} `{HW : AudioHw} `{MEM : Memory}.

(** ** Standby *)
Lemma s_out_standby k s l ki :
  live_out k s -> held false l None ki s ->
  returns (out_standby_op k) s (fun r s' => r = 0 /\ step false l None ki s s' /\ (out_standby <$> outs s' !! k) = Some true).
Proof.
  intros Hk Hh. unfold out_standby_op. eapply returns_bind; [by apply s_lock_output|]. intros ? s1 H1. cbn beta in H1.
  assert (live_out k s1) as [o1 Ho1] by alive. eapply bind_out; [exact Ho1|].
  eapply (returns_bind _ _ _ (fun _ s' => step false l (Some k) ki s1 s' /\ (out_standby <$> outs s' !! k) = Some true)).
  - destruct (out_standby o1) eqn:Est; cbn [negb].
    { apply returns_ret. split; [apply step_refl; alive|]. rewrite Ho1. cbn. by rewrite Est. }
    eapply returns_bind; [apply s_lock_adev; alive|]. intros ? s2 H2. cbn beta in H2.
    eapply returns_bind; [apply s_amp; alive|]. intros ? s3 H3. cbn beta in H3.
    assert (live_out k s3) as [o3 Ho3] by (assert (live_out k s1) by (by eexists); alive).
    pose proof (step_held _ _ _ _ _ _ H3) as [Hc3 Hl3].
    eapply returns_bind; [by eapply standby_core|]. intros ? s4 (Hc4 & Hb4 & _ & Ha4 & _ & Hst4 & _).
    pose proof (base_step _ _ _ _ _ _ Hl3 Hc4 Hb4 Ha4) as H4.
    eapply returns_mono; [eapply unlock_adev_spec; apply H4|]. intros ? s5 H5. pose proof (now_step _ _ _ _ _ _ Hc4 H5) as Hs5. split.
    + do 3 (eapply step_trans; [eassumption|]). done.
    + destruct H5 as (Hr & _). destruct (outs s4 !! k) as [o4|] eqn:Ho4; [|done].
      destruct (relocked_out _ _ _ _ Hr Ho4) as (o5 & -> & ->). done.
  - intros ? s2 [H2 Hst2]. eapply returns_bind; [eapply unlock_output_spec; [|apply H2]|].
    { assert (live_out k s1) by (by eexists). alive. }
    intros ? s3 H3. pose proof (now_step _ _ _ _ _ _ (proj1 (step_held _ _ _ _ _ _ H2)) H3) as Hs3. apply returns_ret. split_and!; [done| |].
    + eapply step_trans; [exact H1|]. by eapply step_trans.
    + destruct H3 as (Hr & _). destruct (outs s2 !! k) as [o4|] eqn:Ho4; [|done].
      destruct (relocked_out _ _ _ _ Hr Ho4) as (o5 & -> & ->). done.
Qed.

(** A step after which the active input may be another one. *)
Definition pass (a l : bool) (ko ki : option nat) (s s' : AudioSt) : Prop := held a l ko ki s' /\ same_streams s s'.
Lemma step_pass a l ko ki s s' : step a l ko ki s s' -> pass a l ko ki s s'.
Proof. by intros (? & ? & _). Qed.
Lemma pass_trans a l ko ki a' l' ko' ki' s1 s2 s3 : pass a l ko ki s1 s2 -> pass a' l' ko' ki' s2 s3 -> pass a' l' ko' ki' s1 s3.
Proof. intros (_ & H1) (Hh & H2). split; [done|by eapply same_trans]. Qed.
Lemma step_then a l ko ki a' l' ko' ki' s1 s2 s3 : step a l ko ki s1 s2 -> pass a' l' ko' ki' s2 s3 -> pass a' l' ko' ki' s1 s3.
Proof. intros H1. apply pass_trans with (a := a) (l := l) (ko := ko) (ki := ki). by apply step_pass. Qed.

Lemma s_do_in_standby k s l ko :
  live_in k s -> held true l ko (Some k) s ->
  returns (do_in_standby_l k) s (fun r s' => r = 0 /\ pass true l ko (Some k) s s' /\ (in_standby <$> ins s' !! k) = Some true).
Proof.
  intros Hk [Hc Hl]. eapply returns_mono; [by apply in_standby_core|]. intros r s' (-> & Hc' & Hb & _ & Hst).
  split_and!; [done| |done]. split; [split; [done|by eapply locks_base]|by apply same_base].
Qed.
Lemma relocked_in_standby s s' k : relocked s s' -> in_standby <$> ins s' !! k = in_standby <$> ins s !! k.
Proof. intros Hr. destruct (rl_ins _ _ Hr k) as [i i' E|]; [|done]. cbn. rewrite E. by destruct i. Qed.

Lemma s_in_standby_l k s l ko :
  live_in k s -> held false l ko None s ->
  returns (in_standby_l k) s (fun r s' => r = 0 /\ pass false l ko None s s' /\ (in_standby <$> ins s' !! k) = Some true).
Proof.
  intros Hk Hh. unfold in_standby_l. eapply returns_bind; [by apply s_lock_input|]. intros ? s1 H1. cbn beta in H1.
  assert (live_in k s1) as Hk1 by alive. pose proof Hk1 as [i1 Hi1]. eapply bind_in; [exact Hi1|].
  eapply (returns_bind _ _ _ (fun r s' => r = 0 /\ pass false l ko (Some k) s1 s' /\ (in_standby <$> ins s' !! k) = Some true)).
  - destruct (in_standby i1) eqn:Est; cbn [negb]; cycle 1.
    2: { apply returns_ret. split_and!; [done|apply step_pass, step_refl; alive|]. rewrite Hi1. cbn. by rewrite Est. }
    eapply returns_bind; [apply s_lock_adev; alive|]. intros ? s2 H2. cbn beta in H2.
    eapply returns_bind; [apply s_amp; alive|]. intros ? s3 H3. cbn beta in H3.
    eapply returns_bind; [apply s_do_in_standby; alive|]. intros ? s4 (-> & H4 & Hst4).
    eapply returns_bind; [eapply unlock_adev_spec, H4|]. intros ? s5 Hn5.
    pose proof (now_step _ _ _ _ _ _ (proj1 (proj1 H4)) Hn5) as H5. apply returns_ret. split_and!; [done| |].
    + eapply step_then; [exact H2|]. eapply step_then; [exact H3|]. eapply pass_trans; [exact H4|]. by apply step_pass.
    + by rewrite (relocked_in_standby s4 s5 k (proj1 Hn5)).
  - intros ? s2 (-> & H2 & Hst2). eapply returns_bind; [eapply unlock_input_spec; [by apply H2|apply H2]|].
    intros ? s3 Hn3. pose proof (now_step _ _ _ _ _ _ (proj1 (proj1 H2)) Hn3) as H3. apply returns_ret. split_and!; [done| |].
    + eapply step_then; [exact H1|]. eapply pass_trans; [exact H2|]. by apply step_pass.
    + by rewrite (relocked_in_standby s2 s3 k (proj1 Hn3)).
Qed.
Lemma s_force_in_standby j s l ko :
  active_input s = Some j -> held false l ko None s ->
  returns (force_in_standby j) s (fun _ s' => pass false l ko None s s').
Proof.
  intros Ha Hh. assert (live_in j s) as Hk by (destruct (hc_active s (proj1 Hh) j Ha) as (i & Hi & _); by eexists). unfold force_in_standby.
  eapply returns_bind; [by apply s_lock_input|]. intros ? s1 H1. cbn beta in H1.
  eapply returns_bind; [apply s_lock_adev; alive|]. intros ? s2 H2. cbn beta in H2.
  apply bind_gets. assert (active_input s2 = Some j) as Ha2.
  { destruct H1 as (_ & _ & E1), H2 as (_ & _ & E2). congruence. }
  rewrite bool_decide_true by done. apply bind_ret.
  eapply returns_bind; [apply s_do_in_standby; alive|]. intros ? s3 (-> & H3 & _).
  eapply returns_bind; [eapply s_unlock_adev, H3|]. intros ? s4 H4. cbn beta in H4.
  assert (live_in j s2) as Hk2 by alive. assert (live_in j s3) as Hk3 by by apply H3.
  eapply returns_mono; [apply s_unlock_input; alive|]. cbn beta. intros ? s5 H5.
  eapply step_then; [exact H1|]. eapply step_then; [exact H2|]. eapply pass_trans; [exact H3|].
  eapply step_then; [exact H4|]. by apply step_pass.
Qed.

(** ** Routing of an output *)
Lemma s_interrupted s a l ko ki :
  held a l ko ki s -> returns interrupted_input s (fun j s' => s' = s /\ (forall x, j = Some x -> active_input s = Some x)).
Proof.
  intros [Hc _]. unfold interrupted_input. apply bind_gets. destruct (active_input s) as [j|] eqn:Ha; [|by apply returns_ret].
  destruct (hc_active s Hc j Ha) as (i & Hi & _). eapply bind_in; [exact Hi|]. apply returns_ret. split; [done|].
  intros x. destruct (_ || _)%bool; [by intros [= <-]|done].
Qed.
Lemma kept_step a l ko ki s s' : held a l ko ki s -> kept s s' -> mode s' = mode s -> primary_output s' = primary_output s -> step a l ko ki s s'.
Proof.
  intros [_ Hl] Hk Hm Hp. split_and!; [split; [apply Hk|by apply (kp_locks _ _ Hk)]| |apply Hk].
  split; [apply Hk| |done|done]. intros j. unfold live_in. by rewrite (kp_ins _ _ Hk).
Qed.

Lemma s_out_set_routing k o v s :
  hal_ok s -> outs s !! k = Some o -> out_usecase o <> USECASE_AUDIO_PLAYBACK_OFFLOAD ->
  (mode s = AUDIO_MODE_IN_CALL -> primary_output s = Some k -> call_device v = true) ->
  returns (out_set_routing k v) s (fun _ s' => hal_ok s' /\ exists o', outs s' !! k = Some o' /\ out_usecase o' = out_usecase o).
Proof.
  intros Hok Ho Hoff Hcall. assert (live_out k s) as Hk by by eexists. unfold out_set_routing.
  eapply returns_bind; [by apply s_lock_inputs|]. intros ? s1 H1. cbn beta in H1.
  eapply returns_bind; [apply s_lock_output; alive|]. intros ? s2 H2. cbn beta in H2.
  eapply returns_bind; [apply s_lock_adev; alive|]. intros ? s3 H3. cbn beta in H3.
  assert (step true true (Some k) None s s3) as H03 by (eapply step_trans; [exact H1|]; by eapply step_trans).
  destruct (ss_outs _ _ (proj1 (proj2 H03)) k o Ho) as (o3 & Ho3 & Euc). eapply bind_out; [exact Ho3|].
  eapply (returns_bind _ _ _ (fun j s' => s' = s3 /\ (forall x, j = Some x -> active_input s3 = Some x))).
  { destruct (_ && _)%bool; [by eapply s_interrupted; alive|by apply returns_ret]. }
  intros j ? [-> Hj]. destruct H03 as ((Hc3 & Hl3) & Hs03 & Ha03).
  eapply returns_bind; [eapply (set_routing_core k o3 v s3); [done|done|by rewrite Euc|]|].
  { by rewrite (ss_mode _ _ Hs03), (ss_primary _ _ Hs03). }
  intros ? s4 Hk4. cbn beta in Hk4.
  assert (held true true (Some k) None s4) as Hh4 by (split; [apply Hk4|by apply (kp_locks _ _ Hk4)]).
  assert (live_out k s4) as Hk4' by (eapply kp_live; [exact Hk4|by eexists]).
  assert (forall x, j = Some x -> active_input s4 = Some x) as Hj4 by (intros x Hx; rewrite (kp_active _ _ Hk4); auto).
  eapply returns_bind; [by eapply s_unlock_adev|]. intros ? s5 H5. cbn beta in H5.
  eapply returns_bind; [eapply s_unlock_output; alive|]. intros ? s6 H6. cbn beta in H6.
  eapply (returns_bind _ _ _ (fun _ s' => pass false true None None s6 s')).
  { destruct j as [j|]; [|apply returns_ret, step_pass, step_refl; alive].
    apply s_force_in_standby; [|alive]. destruct H5 as (_ & _ & E5), H6 as (_ & _ & E6). rewrite E6, E5. by apply Hj4. }
  intros ? s7 H7. eapply returns_mono; [eapply s_unlock_inputs, H7|]. cbn beta. intros ? s8 H8. split; [apply H8|].
  destruct (kp_out _ _ Hk4 k o3 Ho3) as (o4 & Ho4 & E4).
  assert (same_streams s4 s8) as Hs.
  { eapply same_trans; [apply H5|]. eapply same_trans; [apply H6|]. eapply same_trans; [apply H7|]. apply H8. }
  destruct (ss_outs _ _ Hs k o4 Ho4) as (o8 & Ho8 & E8). exists o8. split; [done|congruence].
Qed.

Lemma c_out_set_parameters k routing d p o s :
  hal_ok s -> outs s !! k = Some o -> out_usecase o <> USECASE_AUDIO_PLAYBACK_OFFLOAD ->
  (forall v, routing = Some v -> mode s = AUDIO_MODE_IN_CALL -> primary_output s = Some k -> call_device (u32 v) = true) ->
  returns (out_set_parameters k routing d p) s (fun r s' => hal_ok s' /\ r = (match routing with Some _ => 0 | None => - ENOENT end)).
Proof.
  intros Hok Ho Hoff Hcall. unfold out_set_parameters. assert (live_out k s) as Hk by by eexists.
  eapply (returns_bind _ _ _ (fun _ s' => hal_ok s' /\ exists o', outs s' !! k = Some o' /\ out_usecase o' = out_usecase o)).
  { destruct routing as [v|]; [|by apply returns_ret; eauto]. eapply s_out_set_routing; eauto. }
  intros ? s1 [H1 (o1 & Ho1 & E1)]. eapply bind_out; [exact Ho1|]. rewrite E1, (proj2 (Z.eqb_neq _ _)) by done. apply bind_ret, returns_ret.
  split; [done|by destruct routing].
Qed.

(** ** Writing *)
Lemma quiet_write_pcms k l : forall i e b r s, live_out k s -> quiet (write_pcms k i l e b r) s.
Proof.
  induction l as [|d l IH]; intros i e b r s Hk; cbn [write_pcms]; [quiet|]. destruct (pd_pcm d) as [h|]; [|by apply IH].
  apply quiet_bind; [destruct e; quiet|]. intros ? s1 H1. apply quiet_bind; [quiet|]. intros ? s2 H2.
  apply quiet_bind; [quiet|]. intros st s3 H3. apply quiet_bind; [unfold set_pcm_status; apply quiet_set_out; [live|by intros []]|].
  intros ? s4 H4. apply IH. live.
Qed.
Lemma effect_write_pcms k l : forall i e b r, does out_effect (write_pcms k i l e b r).
Proof.
  induction l as [|d l IH]; intros i e b r; cbn [write_pcms]; [does|]. destruct (pd_pcm d) as [h|]; [|apply IH].
  unfold set_pcm_status. does.
Qed.
Lemma effect_step {B} (m : A B) s a l ko ki :
  held a l ko ki s -> quiet m s -> does out_effect m -> returns m s (fun _ s' => step a l ko ki s s').
Proof.
  intros [Hc Hl] (r & s' & Hr & Hf) Hp. exists r, s'. split; [done|]. assert (out_effect s s') as He by by eapply Hp.
  apply base_step; [done|by eapply frame_hal|apply Hf|apply He].
Qed.

Lemma s_sync_echo k s l :
  live_out k s -> held false l (Some k) None s -> returns (sync_echo k) s (fun _ s' => step false l (Some k) None s s').
Proof.
  intros Hk Hh. unfold sync_echo. pose proof Hk as [o Ho]. eapply bind_out; [exact Ho|]. apply bind_gets.
  destruct (negb _); [|by apply returns_ret, step_refl].
  eapply returns_bind; [by apply s_lock_adev|]. intros ? s1 H1. cbn beta in H1.
  eapply (returns_bind _ _ _ (fun _ s' => step true l (Some k) None s1 s')).
  { destruct (out_echo o); [|apply returns_ret, step_refl; alive].
    apply quiet_step; [alive|apply quiet_tell|apply plain_tell]. }
  intros ? s2 H2. apply bind_get. assert (live_out k s2) as Hk2 by alive.
  eapply returns_bind; [apply effect_step; [alive|apply quiet_set_out; [done|by intros []]|does]|].
  intros ? s3 H3. cbn beta in H3. eapply returns_mono; [eapply s_unlock_adev; alive|]. cbn beta. intros ? s4 H4.
  do 3 (eapply step_trans; [eassumption|]). done.
Qed.

Lemma s_write_exit k r b j s l :
  live_out k s -> held false l (Some k) None s -> l = bool_decide (is_Some j) -> (forall x, j = Some x -> active_input s = Some x) ->
  returns (write_exit k r b j) s (fun r' s' => hal_ok s' /\ r' = b).
Proof.
  intros Hk Hh Hl Hj. unfold write_exit. eapply returns_bind; [by apply s_unlock_output|]. intros ? s1 H1. cbn beta in H1.
  eapply (returns_bind _ _ _ (fun _ s' => step false l None None s1 s')).
  { destruct (negb _); [|apply returns_ret, step_refl; alive].
    eapply returns_bind; [apply s_out_standby; alive|]. intros ? s2 (_ & H2 & _). by apply returns_ret. }
  intros ? s2 H2. eapply (returns_bind _ _ _ (fun _ s' => hal_ok s')); [|intros ? s3 H3; by apply returns_ret].
  destruct j as [j|]; cycle 1.
  { apply returns_ret. rewrite bool_decide_false in Hl by (by intros [? ?]). subst l. apply H2. }
  rewrite bool_decide_true in Hl by by eexists. subst l.
  eapply returns_bind; [apply s_force_in_standby; [|alive]|].
  { destruct H1 as (_ & _ & E1), H2 as (_ & _ & E2). rewrite E2, E1. by apply Hj. }
  intros ? s3 H3. eapply returns_mono; [eapply s_unlock_inputs, H3|]. cbn beta. intros ? s4 H4. apply H4.
Qed.

Lemma s_write_data k b j s l o :
  outs s !! k = Some o -> out_usecase o <> USECASE_AUDIO_PLAYBACK_OFFLOAD ->
  held false l (Some k) None s -> l = bool_decide (is_Some j) -> (forall x, j = Some x -> active_input s = Some x) ->
  returns (write_data k b j) s (fun r' s' => hal_ok s' /\ r' = b).
Proof.
  intros Ho Hoff Hh Hl Hj. assert (live_out k s) as Hk by by eexists. unfold write_data. eapply bind_out; [exact Ho|].
  rewrite (proj2 (Z.eqb_neq _ _)) by done. eapply returns_bind; [by apply s_sync_echo|]. intros ? s1 H1. cbn beta in H1.
  assert (live_out k s1) as Hk1 by alive. pose proof Hk1 as [o1 Ho1]. eapply bind_out; [exact Ho1|].
  eapply returns_bind; [apply effect_step; [alive|by apply quiet_write_pcms|apply effect_write_pcms]|]. intros rr s2 H2. cbn beta in H2.
  assert (live_out k s2) as Hk2 by alive.
  eapply (returns_bind _ _ _ (fun _ s' => step false l (Some k) None s2 s')).
  { destruct (rr =? 0); [|apply returns_ret, step_refl; alive].
    apply effect_step; [alive|apply quiet_set_out; [done|by intros []]|does]. }
  intros ? s3 H3. eapply s_write_exit; [alive|alive|done|]. intros x Hx.
  destruct H1 as (_ & _ & E1), H2 as (_ & _ & E2), H3 as (_ & _ & E3). rewrite E3, E2, E1. by apply Hj.
Qed.

Lemma step_uc a l ko ki s s' k o : step a l ko ki s s' -> outs s !! k = Some o ->
  exists o', outs s' !! k = Some o' /\ out_usecase o' = out_usecase o.
Proof. intros (_ & Hs & _). by apply (ss_outs _ _ Hs). Qed.

(** The stream leaves standby, and the inputs stay locked iff one is to be interrupted. *)
Lemma s_leave_standby k o s :
  outs s !! k = Some o -> out_standby o = true -> out_usecase o <> USECASE_AUDIO_PLAYBACK_OFFLOAD ->
  held false true (Some k) None s ->
  returns (leave_standby k) s (fun rj s' =>
    held false (bool_decide (is_Some rj.2)) (Some k) None s' /\ (forall x, rj.2 = Some x -> active_input s' = Some x) /\
    (rj.1 <> 0 -> rj.2 = None) /\ exists o', outs s' !! k = Some o' /\ out_usecase o' = out_usecase o).
Proof.
  intros Ho Hst Hoff Hh. unfold leave_standby. eapply returns_bind; [by apply lock_adev_spec; apply Hh|]. intros ? s1 H1.
  pose proof (now_step _ _ _ _ _ _ (proj1 Hh) H1) as Hs1. destruct H1 as (Hr1 & _ & Hl1).
  destruct (relocked_out _ _ _ _ Hr1 Ho) as (o1 & Ho1 & E1). pose proof (step_held _ _ _ _ _ _ Hs1) as [Hc1 _].
  assert (out_usecase o1 = out_usecase o /\ out_standby o1 = true) as [Euc1 Est1] by (rewrite E1; by destruct o).
  eapply returns_bind; [by apply (start_out_core k o1 s1); [| | |congruence]|]. intros rr s2 H2. cbn beta in H2.
  destruct (Z.eqb_spec rr 0) as [->|Hr]; cbn [negb]; cycle 1.
  - destruct H2 as (Hc2 & Hb2 & He2). destruct (base_out _ _ _ _ Hb2 Ho1) as (o2 & Ho2 & Euc2 & _).
    eapply bind_out; [exact Ho2|]. apply bind_ret.
    assert (step true true (Some k) None s1 s2) as H12 by (apply base_step; [done|done|done|apply He2]).
    eapply returns_bind; [eapply s_unlock_adev; alive|]. intros ? s3 H3. cbn beta in H3.
    eapply returns_bind; [eapply s_unlock_inputs; alive|]. intros ? s4 H4. cbn beta in H4. apply returns_ret. cbn [fst snd].
    split_and!; [rewrite bool_decide_false by (by intros [? ?]); alive|done|done|].
    destruct (step_uc _ _ _ _ _ _ _ _ H3 Ho2) as (o3 & Ho3 & E3). destruct (step_uc _ _ _ _ _ _ _ _ H4 Ho3) as (o4 & Ho4 & E4).
    exists o4. split; [done|congruence].
  - pose proof H2 as (Hd2 & Hb2 & He2 & _). destruct (base_out _ _ _ _ Hb2 Ho1) as (o2 & Ho2 & Euc2 & _).
    eapply bind_out; [exact Ho2|]. destruct (when_amp_quiet (AmpOutputStart (out_usecase o2 =? USECASE_AUDIO_PLAYBACK_OFFLOAD)) s2)
      as (u & s3 & Ha & H3). pose proof (plain_out _ (when_amp_plain _) _ _ _ Ha) as He3.
    eapply (returns_bind _ _ _ (fun _ s' => s' = s3)); [by exists u, s3|]. intros ? ? ->.
    destruct (base_out _ _ _ _ (proj1 H3) Ho2) as (o3 & Ho3 & Euc3 & _).
    eapply (returns_bind _ _ _ (fun _ s' => s' = s3<|outs ::= <[k := o3<|out_standby := false|>]>|>)).
    { eexists _, _. split; [unfold set_out; run (the_out_spec _ _ _ Ho3); reflexivity|done]. }
    intros ? ? ->. pose proof (out_started_core k s1 s3 o3 Hc1 (out_started_frame _ _ _ _ H2 H3 He3) Ho3) as Hc4.
    set (s4 := set_field outs _ s3) in *.
    assert (held true true (Some k) None s4) as Hh4.
    { split; [done|]. eapply (locks_base s3); [|eapply locks_base; [apply H3|by eapply locks_base]].
      split; cbn; auto using same_ins_refl. intros j. apply (option_insert same_out _ k o3); [by intros []|done|by destruct o3]. }
    eapply returns_bind; [by eapply s_interrupted|]. intros j ? [-> Hj].
    eapply returns_bind; [by eapply s_unlock_adev|]. intros ? s5 H5. cbn beta in H5.
    assert (outs s4 !! k = Some (o3<|out_standby := false|>)) as Ho4 by apply lookup_insert_eq.
    destruct (step_uc _ _ _ _ _ _ _ _ H5 Ho4) as (o5 & Ho5 & E5).
    assert (out_usecase o5 = out_usecase o) as Eo5 by (rewrite E5; destruct o3; cbn in *; congruence).
    destruct j as [j|].
    + apply bind_ret, returns_ret. cbn [fst snd]. rewrite bool_decide_true by by eexists. split_and!; [alive| |done|by exists o5].
      intros x Hx. destruct H5 as (_ & _ & ->). by apply Hj.
    + eapply returns_bind; [eapply s_unlock_inputs; alive|]. intros ? s6 H6. cbn beta in H6. apply returns_ret. cbn [fst snd].
      rewrite bool_decide_false by (by intros [? ?]). split_and!; [alive|done|done|].
      destruct (step_uc _ _ _ _ _ _ _ _ H6 Ho5) as (o6 & Ho6 & E6). exists o6. split; [done|congruence].
Qed.

Lemma c_out_write k b o s :
  hal_ok s -> outs s !! k = Some o -> out_usecase o <> USECASE_AUDIO_PLAYBACK_OFFLOAD ->
  returns (out_write k b) s (fun r s' => hal_ok s' /\ r = b).
Proof.
  intros Hok Ho Hoff. assert (live_out k s) as Hk by by eexists. unfold out_write.
  eapply returns_bind; [by apply s_lock_output|]. intros ? s1 H1. cbn beta in H1.
  destruct (step_uc _ _ _ _ _ _ _ _ H1 Ho) as (o1 & Ho1 & E1). eapply bind_out; [exact Ho1|].
  destruct (out_standby o1) eqn:Est; cycle 1.
  { eapply (s_write_data k b None s1 false o1); [done|congruence|alive|by rewrite bool_decide_false by (by intros [? ?])|done]. }
  assert (live_out k s1) as Hk1 by alive.
  eapply returns_bind; [eapply s_unlock_output; alive|]. intros ? s2 H2. cbn beta in H2.
  eapply returns_bind; [eapply s_lock_inputs; alive|]. intros ? s3 H3. cbn beta in H3.
  eapply returns_bind; [eapply s_lock_output; alive|]. intros ? s4 H4. cbn beta in H4.
  assert (step false true (Some k) None s1 s4) as H14 by (eapply step_trans; [exact H2|]; by eapply step_trans).
  destruct (step_uc _ _ _ _ _ _ _ _ H14 Ho1) as (o4 & Ho4 & E4). eapply bind_out; [exact Ho4|].
  assert (out_usecase o4 <> USECASE_AUDIO_PLAYBACK_OFFLOAD) as Hoff4 by congruence.
  destruct (out_standby o4) eqn:Est4; cbn [negb]; cycle 1.
  { eapply returns_bind; [eapply s_unlock_inputs; alive|]. intros ? s5 H5. cbn beta in H5.
    destruct (step_uc _ _ _ _ _ _ _ _ H5 Ho4) as (o5 & Ho5 & E5).
    eapply (s_write_data k b None s5 false o5); [done|congruence|alive|by rewrite bool_decide_false by (by intros [? ?])|done]. }
  eapply returns_bind; [eapply (s_leave_standby k o4 s4); [done|done|done|alive]|].
  intros [rr j] s5 (Hh5 & Hj & Hr & o5 & Ho5 & E5). cbn [fst snd] in *. destruct (Z.eqb_spec rr 0) as [->|Hne]; cbn [negb].
  - eapply (s_write_data k b j s5 _ o5); [done|congruence|exact Hh5|done|done].
  - specialize (Hr Hne) as ->. eapply s_write_exit; [by eexists|exact Hh5|done|done].
Qed.

(** ** Recordings *)
Lemma c_in_standby k s : hal_ok s -> live_in k s -> returns (in_standby_op k) s (fun r s' => hal_ok s' /\ r = 0).
Proof.
  intros Hok Hk. unfold in_standby_op. eapply returns_bind; [by apply s_lock_inputs|]. intros ? s1 H1. cbn beta in H1.
  eapply returns_bind; [apply s_in_standby_l; alive|]. intros ? s2 (-> & H2 & _).
  eapply returns_bind; [eapply s_unlock_inputs, H2|]. intros ? s3 H3. cbn beta in H3. apply returns_ret. split; [apply H3|done].
Qed.
Lemma c_out_standby k s : hal_ok s -> live_out k s ->
  returns (out_standby_op k) s (fun r s' => hal_ok s' /\ r = 0 /\ (out_standby <$> outs s' !! k) = Some true).
Proof.
  intros Hok Hk. eapply returns_mono; [by apply (s_out_standby k s false None)|]. cbn beta. intros r s' (-> & H & Hst).
  split_and!; [apply H|done|done].
Qed.

Lemma locks_clear_in s k i a l ko ki :
  ins s !! k = Some i -> locks s a l ko ki -> locks (s<|ins ::= <[k := i<|in_standby := false|>]>|>) a l ko ki.
Proof.
  intros Hi [Ha Hl Ho His]. split; [done|done|done|]. intros j ij. cbn. destruct (decide (j = k)) as [->|Hn].
  - rewrite lookup_insert_eq. intros [= <-]. rewrite <-(His k i Hi). by destruct i.
  - rewrite lookup_insert_ne by congruence. apply His.
Qed.
Lemma s_in_leave_standby k s :
  (forall n, resampler_status n = 0) -> hal_ok s -> live_in k s ->
  returns (in_leave_standby k) s (fun _ s' => pass false false None (Some k) s s').
Proof.
  intros Hrs Hok Hk. unfold in_leave_standby. eapply returns_bind; [by apply s_lock_input|]. intros ? s1 H1. cbn beta in H1.
  assert (live_in k s1) as Hk1 by alive. pose proof Hk1 as [i1 Hi1]. eapply bind_in; [exact Hi1|].
  destruct (in_standby i1) eqn:Est1; [|by apply returns_ret, step_pass].
  eapply returns_bind; [eapply s_unlock_input; alive|]. intros ? s2 H2. cbn beta in H2.
  eapply returns_bind; [eapply s_lock_inputs; alive|]. intros ? s3 H3. cbn beta in H3.
  eapply returns_bind; [eapply s_lock_input; alive|]. intros ? s4 H4. cbn beta in H4.
  assert (step false true None (Some k) s s4) as H04 by (do 3 (eapply step_trans; [eassumption|]); done).
  assert (live_in k s4) as Hk4 by alive. pose proof Hk4 as [i4 Hi4]. eapply bind_in; [exact Hi4|].
  destruct (in_standby i4) eqn:Est4; cbn [negb]; cycle 1.
  { eapply returns_bind; [eapply s_unlock_inputs; alive|]. intros ? s5 H5. cbn beta in H5.
    apply returns_ret, step_pass. by eapply step_trans. }
  eapply returns_bind; [apply lock_adev_spec; apply (step_held _ _ _ _ _ _ H04)|]. intros ? s5 Hn5. cbn beta in Hn5.
  pose proof (now_step _ _ _ _ _ _ (proj1 (step_held _ _ _ _ _ _ H04)) Hn5) as H5. destruct Hn5 as (Hr5 & _ & Hl5).
  pose proof (step_held _ _ _ _ _ _ H5) as [Hc5 _]. destruct (relocked_in _ _ _ _ Hr5 Hi4) as (i5 & Hi5 & E5).
  assert (in_standby i5 = true) as Est5 by (rewrite E5; by destruct i4).
  eapply returns_bind; [by apply (start_in_core k i5 s5)|]. intros r' s6 (Hd6 & Hb6 & He6 & Hl6).
  assert (locks s6 true true None (Some k)) as Hlk6 by by eapply locks_base.
  assert (pass true true None (Some k) s s5) as P5 by (apply step_pass; by eapply step_trans).
  destruct (Z.eqb_spec r' 0) as [->|Hr]; cycle 1.
  { apply bind_ret. assert (pass true true None (Some k) s5 s6) as P6 by (split; [done|by apply same_base]).
    eapply returns_bind; [eapply s_unlock_adev; apply P6|]. intros ? s7 H7. cbn beta in H7.
    eapply returns_bind; [eapply s_unlock_inputs; alive|]. intros ? s8 H8. cbn beta in H8. apply bind_ret, returns_ret.
    eapply pass_trans; [exact P5|]. eapply pass_trans; [exact P6|]. eapply step_then; [exact H7|]. by apply step_pass. }
  destruct (when_amp_quiet AmpInputStart s6) as (u & s7 & Ha & H7).
  pose proof (plain_in k _ (when_amp_plain _) _ _ _ Ha) as He7.
  eapply (returns_bind _ _ _ (fun _ s' => s' = s7)); [by exists u, s7|]. intros ? ? ->.
  assert (locks s7 true true None (Some k)) as Hlk7 by (eapply locks_base; [apply H7|done]).
  eapply returns_bind; [by eapply unlock_adev_spec|]. intros ? s8 (Hr8 & _ & Hl8).
  eapply returns_bind; [by eapply unlock_inputs_spec|]. intros ? s9 (Hr9 & _ & Hl9).
  pose proof (relocked_trans _ _ _ Hr8 Hr9) as Hr79. assert (base s5 s7) as Hb57 by (eapply base_trans; [exact Hb6|apply H7]).
  destruct (base_in _ _ _ _ Hb57 Hi5) as (i7 & Hi7 & _). destruct (relocked_in _ _ _ _ Hr79 Hi7) as (i9 & Hi9 & _).
  change (0 =? 0) with true. cbv iota.
  eapply (returns_bind _ _ _ (fun _ s' => s' = s9<|ins ::= <[k := i9<|in_standby := false|>]>|>)).
  { eexists _, _. split; [unfold set_in; run (the_in_spec _ _ _ Hi9); reflexivity|done]. }
  intros ? ? ->. apply returns_ret. split; [split; [|by apply locks_clear_in]|].
  - eapply (in_started_core k s5 s7 s9 i9); [done|by eexists|by eapply frame_ok|done|by etransitivity|by eapply starts_frame|done|done].
  - eapply same_trans; [apply P5|]. eapply same_trans; [by apply same_base|]. eapply same_trans; [by apply same_relocked|].
    split; [intros j o Ho; by exists o| |done|done]. intros j [i Hi]. unfold live_in. cbn.
    destruct (decide (j = k)) as [->|Hn]; [rewrite lookup_insert_eq; by eexists|rewrite lookup_insert_ne by congruence; by eexists].
Qed.

Lemma c_in_read k processed s :
  (forall n, resampler_status n = 0) -> hal_ok s -> live_in k s -> returns (in_read k processed) s (fun _ s' => hal_ok s').
Proof.
  intros Hrs Hok Hk. unfold in_read. eapply returns_bind; [by apply s_in_leave_standby|]. intros r s1 H1.
  assert (live_in k s1) as Hk1 by by apply H1. pose proof Hk1 as [i1 Hi1]. eapply bind_in; [exact Hi1|].
  eapply returns_bind; [eapply s_unlock_input; [done|apply H1]|]. intros ? s2 H2. cbn beta in H2.
  destruct (_ && _)%bool; [apply returns_ret; apply H2|]. assert (live_in k s2) as Hk2 by alive.
  eapply returns_bind; [apply c_in_standby; [apply H2|done]|]. intros ? s3 (H3 & _). by apply returns_ret.
Qed.
End calls2.
