(* ===== verification/AudioHalDev.v ===== *)
(** * The calls on the device

    The functions of the device, and the settings of a recording: each returns and leaves
    the device between calls ([hal_ok]); opening and closing a stream change the streams,
    the rest of the invariant stays. *)
From S2P Require Import Prelude Machine AudioTypes AudioVoice AudioRoute AudioRouteInv AudioSelect AudioStreams AudioDevice AudioQuiet AudioPaths AudioHal AudioEffects AudioHalInv AudioHalOps AudioHalCalls.

Section settings.
Context `{API : AudioApi} `{HW : AudioHw} `{MEM : Memory}.

Lemma capture_type s u : device_core s -> u ∈ usecase_list s -> uc_id u = USECASE_AUDIO_CAPTURE -> uc_type u = PCM_CAPTURE.
Proof.
  intros Hd Hu Hid. pose proof (ok_ucs s (dev_core s Hd)) as Hw. rewrite Forall_forall in Hw.
  destruct (Hw u Hu) as [(_ & _ & _ & k & o & _ & Ho & E)|[(-> & _)|(_ & E & _)]]; [|done|by rewrite Hid in E].
  pose proof (dev_outs s Hd k o Ho) as Hr. rewrite E, Hid in Hr. by destruct Hr.
Qed.

(** A setting of a recording that is not part of the invariant. *)
Lemma in_setting_core k s i i' :
  hal_core s -> ins s !! k = Some i -> in_usecase i' = in_usecase i -> in_standby i' = in_standby i -> in_lock i' = in_lock i ->
  hal_core (s<|ins ::= <[k := i']>|>) /\ base s (s<|ins ::= <[k := i']>|>).
Proof.
  intros Hc Hi E1 E2 E3. set (s' := set_field ins _ s). assert (base s s') as Hb.
  { split; cbn; auto using same_outs_refl. intros j. destruct (decide (j = k)) as [->|Hn].
    - rewrite lookup_insert_eq, Hi. by constructor.
    - rewrite lookup_insert_ne by congruence. apply same_ins_refl. }
  split; [|done]. apply (core_streams s); [done| | |done| | |done].
  - eapply frame_ok; [|apply Hc]. by split.
  - by apply shrinks_refl.
  - by apply similar_outs.
  - apply similar_ins; [done|]. intros j. cbn. destruct (decide (j = k)) as [->|Hn].
    + rewrite lookup_insert_eq, Hi. cbn. by rewrite E2.
    + by rewrite lookup_insert_ne by congruence.
Qed.
Lemma s_in_setting k f s a l ko ki :
  held a l ko ki s -> live_in k s -> (forall i, in_usecase (f i) = in_usecase i /\ in_standby (f i) = in_standby i /\ in_lock (f i) = in_lock i) ->
  returns (set_in k f) s (fun _ s' => step a l ko ki s s').
Proof.
  intros [Hc Hl] [i Hi] Hf. destruct (Hf i) as (E1 & E2 & E3).
  destruct (in_setting_core k s i (f i) Hc Hi E1 E2 E3) as [Hc' Hb]. eexists _, _. split.
  - unfold set_in. run (the_in_spec _ _ _ Hi). reflexivity.
  - by apply base_step.
Qed.

(** The recording is routed again, if it has a use case. *)
Lemma s_select_capture s a l ko ki :
  held a l ko ki s -> returns (select_devices SELECT_DEPTH USECASE_AUDIO_CAPTURE) s (fun _ s' => step a l ko ki s s').
Proof.
  intros [Hc Hl]. pose proof (proj1 (hc_dev s Hc)) as Hd. destruct (find (fun v => uc_id v =? USECASE_AUDIO_CAPTURE) (usecase_list s)) as [u|] eqn:Hf.
  - destruct (from_id_spec _ _ _ Hf (ok_refs s (dev_core s Hd))) as (Hu & Hid & _).
    eapply returns_mono; [apply (select_core s _ u Hc Hf)|]; [by rewrite (capture_type s u)|]. cbn beta.
    intros rr s' (_ & Hc' & Hb & He). apply base_step; [done..|apply He].
  - eexists _, s. split; [|by apply step_refl]. unfold SELECT_DEPTH. change 2%nat with (S 1). cbn [select_devices].
    destruct (active_capture_spec s (dev_core s Hd)) as (input & Hac & _). run Hac.
    unfold get_usecase_from_id, bind at 1, gets. cbn [obind]. rewrite Hf. reflexivity.
Qed.

Definition requested_source (k : nat) (source : option Z) : A unit :=
  match source with
  | Some val =>
      let* i := the_in k in
      if (negb (in_source i =? val) && negb (val =? 0))%bool then set_in k (fun i => i<|in_source := val|>) else ret tt
  | None => ret tt
  end.
Lemma s_source k v s a l ko ki :
  held a l ko ki s -> live_in k s -> returns (requested_source k v) s (fun _ s' => step a l ko ki s s').
Proof.
  intros Hh Hk. unfold requested_source. destruct v as [v|]; [|by apply returns_ret, step_refl].
  pose proof Hk as [i Hi]. eapply bind_in; [exact Hi|]. destruct (_ && _)%bool; [|by apply returns_ret, step_refl].
  by apply s_in_setting; [| |intros []].
Qed.
Lemma s_in_routing k val s :
  held true true None (Some k) s -> live_in k s ->
  returns (let* i := the_in k in
           if (negb (in_devices i =? val) && negb (val =? 0))%bool then
             set_in k (fun i => i<|in_devices := val|>) ;;;
             if negb (in_standby i) then
               let* u := get_usecase_from_id (in_usecase i) in
               let standby := match u, in_pcm_dev_list i with
                              | Some _, d :: _ =>
                                  negb (has (Z.land (pp_devices (pd_profile d)) val) (u32 (Z.lnot AUDIO_DEVICE_BIT_IN)))
                              | _, _ => false
                              end in
               if (standby : bool) then do_in_standby_l k else select_devices SELECT_DEPTH (in_usecase i)
             else ret 0
           else ret 0) s (fun _ s' => pass true true None (Some k) s s').
Proof.
  intros Hh Hk. pose proof Hk as [i Hi]. eapply bind_in; [exact Hi|].
  destruct (_ && _)%bool; [|by apply returns_ret, step_pass, step_refl].
  eapply returns_bind; [by apply s_in_setting; [| |intros []]|]. intros ? s1 H1. cbn beta in H1.
  destruct (negb _); [|by apply returns_ret, step_pass]. unfold get_usecase_from_id. apply bind_gets.
  match goal with |- returns (if ?b then _ else _) _ _ => destruct b end.
  - assert (live_in k s1) as Hk1 by alive. eapply returns_mono; [apply s_do_in_standby; alive|]. cbn beta.
    intros rr s2 (_ & H2 & _). by eapply step_then.
  - rewrite (dev_ins s (proj1 (hc_dev s (proj1 Hh))) k i Hi). eapply returns_mono; [apply s_select_capture; alive|]. cbn beta.
    intros rr s2 H2. apply step_pass. by eapply step_trans.
Qed.

Lemma c_in_set_parameters k source routing s :
  hal_ok s -> live_in k s -> returns (in_set_parameters k source routing) s (fun _ s' => hal_ok s').
Proof.
  intros Hok Hk. unfold in_set_parameters. fold (requested_source k source).
  eapply returns_bind; [by apply s_lock_inputs|]. intros ? s1 H1. cbn beta in H1.
  eapply returns_bind; [apply s_lock_input; alive|]. intros ? s2 H2. cbn beta in H2.
  eapply returns_bind; [apply s_lock_adev; alive|]. intros ? s3 H3. cbn beta in H3.
  eapply returns_bind; [apply s_source; alive|]. intros ? s4 H4. cbn beta in H4. assert (live_in k s4) as Hk4 by alive.
  eapply (returns_bind _ _ _ (fun _ s' => pass true true None (Some k) s4 s')).
  { destruct routing as [v|]; [|apply returns_ret, step_pass, step_refl; alive]. apply s_in_routing; alive. }
  intros rr s5 H5. assert (live_in k s5) as Hk5 by by apply H5.
  eapply returns_bind; [eapply s_unlock_adev, H5|]. intros ? s6 H6. cbn beta in H6.
  eapply returns_bind; [eapply s_unlock_input; alive|]. intros ? s7 H7. cbn beta in H7.
  eapply returns_bind; [eapply s_unlock_inputs; alive|]. intros ? s8 H8. cbn beta in H8. apply returns_ret, H8.
Qed.

(** ** Settings of the device *)
Lemma c_set_voice_volume s : hal_ok s -> returns adev_set_voice_volume s (fun r s' => hal_ok s' /\ r = 0).
Proof.
  intros Hok. unfold adev_set_voice_volume. eapply returns_bind; [by apply s_lock_adev|]. intros ? s1 H1. cbn beta in H1.
  eapply returns_bind; [apply quiet_step; [alive|apply quiet_volume|apply plain_volume]|]. intros ? s2 H2. cbn beta in H2.
  eapply returns_bind; [eapply s_unlock_adev; alive|]. intros ? s3 H3. cbn beta in H3. apply returns_ret. split; [apply H3|done].
Qed.
Lemma c_set_mic_mute b s : hal_ok s -> returns (adev_set_mic_mute b) s (fun r s' => hal_ok s' /\ r = 0).
Proof.
  intros Hok. unfold adev_set_mic_mute. eapply returns_bind; [by apply s_lock_adev|]. intros ? s1 H1. cbn beta in H1.
  apply bind_modify. set (s2 := set_field mic_mute _ s1).
  assert (frame s1 s2) as Hf by (split; [split; cbn; auto using same_outs_refl, same_ins_refl|done]).
  assert (held true false None None s2) as H2.
  { destruct (step_held _ _ _ _ _ _ H1) as [Hc Hl]. split; [by apply (frame_hal s1)|eapply locks_base; [apply Hf|done]]. }
  apply bind_gets. eapply (returns_bind _ _ _ (fun _ s' => step true false None None s2 s')).
  { destruct (_ =? _); [|by apply returns_ret, step_refl]. apply quiet_step; [done|apply quiet_tell|apply plain_tell]. }
  intros ? s3 H3. eapply returns_bind; [eapply s_unlock_adev; alive|]. intros ? s4 H4. cbn beta in H4. apply returns_ret.
  split; [apply H4|done].
Qed.
Lemma mode_core s m : hal_core s -> hal_core (s<|mode := m|>).
Proof.
  intros Hc. apply (core_streams s); [done| |by apply shrinks_refl|done| | |done].
  - apply (device_streams s); [apply Hc|done..| |]; intros k; cbn; [destruct (outs s !! k)|destruct (ins s !! k)]; by constructor.
  - intros k. cbn. destruct (outs s !! k); by constructor.
  - intros k. cbn. destruct (ins s !! k); by constructor.
Qed.
Lemma c_set_mode m s : hal_ok s -> returns (adev_set_mode m) s (fun r s' => hal_ok s' /\ r = 0).
Proof.
  intros Hok. unfold adev_set_mode. eapply returns_bind; [by apply s_lock_adev|]. intros ? s1 H1. cbn beta in H1.
  apply bind_get. eapply (returns_bind _ _ _ (fun _ s' => held true false None None s')).
  - destruct (negb _); [|apply returns_ret; alive].
    destruct (when_amp_quiet (AmpSetMode m) s1) as (u & s2 & Hr & Hf). pose proof (plain_out _ (when_amp_plain _) _ _ _ Hr) as He.
    eapply (returns_bind _ _ _ (fun _ s' => s' = s2)); [by exists u, s2|]. intros ? ? ->. apply bind_modify.
    destruct (step_held _ _ _ _ _ _ H1) as [Hc1 Hl1]. pose proof (frame_hal _ _ Hc1 Hf He) as Hc2.
    pose proof (locks_base _ _ _ _ _ _ (proj1 Hf) Hl1) as Hl2.
    assert (held true false None None (s2<|mode := m|>)) as [Hc3 Hl3] by (split; [by apply mode_core|by destruct Hl2]).
    destruct (_ && in_call s1)%bool eqn:E; [|by apply returns_ret]. apply andb_true_iff in E as [_ E].
    eapply returns_bind; [apply stop_call_core; [done|]; by destruct Hf as (_ & E2 & _); cbn; rewrite E2|].
    intros ? s4 (Hk4 & _ & _). apply returns_ret. split; [apply Hk4|by apply (kp_locks _ _ Hk4)].
  - intros ? s2 H2. eapply returns_bind; [by eapply s_unlock_adev|]. intros ? s3 H3. cbn beta in H3. apply returns_ret.
    split; [apply H3|done].
Qed.

(** A call can be started again. *)
Definition can_call (s : AudioSt) : Prop :=
  mode s = AUDIO_MODE_IN_CALL /\
  exists k o, primary_output s = Some k /\ outs s !! k = Some o /\ call_device (out_devices o) = true.
Lemma c_wb_amr amr s :
  hal_ok s -> (in_call s = true -> can_call s) -> returns (voice_session_wb_amr_callback amr) s (fun _ s' => hal_ok s').
Proof.
  intros [Hc0 Hl0] Hcall. unfold voice_session_wb_amr_callback.
  eapply returns_bind; [by apply lock_adev_spec|]. intros ? s1 (Hr1 & Hc1 & Hl1). specialize (Hc1 Hc0). apply bind_get.
  assert (in_call s1 = true -> can_call s1) as Hcall1.
  { rewrite (rl_rest _ _ Hr1). cbn. intros (Hm & k & o & Hp & Ho & Hd)%Hcall. split; [done|].
    destruct (relocked_out _ _ _ _ Hr1 Ho) as (o' & Ho' & E). exists k, o'. split_and!; [done|done|]. rewrite E. by destruct o. }
  eapply (returns_bind _ _ _ (fun _ s' => held true false None None s')).
  - destruct (negb _); [|by apply returns_ret].
    destruct (quiet_session (fun v => v<|wb_amr_type := amr|>) s1) as (u & s2 & Hs2 & Hf2).
    pose proof (plain_out _ (plain_session _) _ _ _ Hs2) as He2. pose proof (frame_hal _ _ Hc1 Hf2 He2) as Hc2.
    pose proof (locks_base _ _ _ _ _ _ (proj1 Hf2) Hl1) as Hl2.
    eapply (returns_bind _ _ _ (fun _ s' => s' = s2)); [by exists u, s2|]. intros ? ? ->.
    destruct (in_call s1) eqn:Hic; [|by apply returns_ret]. destruct (Hcall1 eq_refl) as (Hm & k & o & Hp & Ho & Hd).
    eapply returns_bind; [apply stop_call_core; [done|]; by destruct Hf2 as (_ & -> & _)|]. intros ? s3 (Hk3 & Hb3 & Hic3).
    assert (base s1 s3) as Hb13 by (eapply base_trans; [apply Hf2|done]).
    destruct (base_out _ _ _ _ Hb13 Ho) as (o3 & Ho3 & _ & Ed & _).
    eapply returns_bind; [apply (start_call_core s3 k o3); [apply Hk3|done|by rewrite (b_primary _ _ Hb13)|done|by rewrite (b_mode _ _ Hb13)|by rewrite Ed]|].
    intros ? s4 Hk4. apply returns_ret. split; [apply Hk4|]. apply (kp_locks _ _ Hk4), (kp_locks _ _ Hk3), Hl2.
  - intros ? s2 H2. eapply returns_mono; [by eapply s_unlock_adev|]. cbn beta. intros ? s3 H3. apply H3.
Qed.
End settings.
