(* ===== verification/AudioPreproc.v ===== *)
(** * Effects on a recording

    Models [in_configure_reverse] to [in_update_aux_channels] and [add_remove_audio_effect]
    of [src/audio/audio_hw.c]: the effects of a recording, the auxiliary channels they all
    support, and the configuration of the effects when these change.  The effects are the
    answers of [AudioHw]; a recording has room for [MAX_PREPROCESSORS] of them. *)
From S2P Require Import Prelude Machine AudioTypes AudioVoice AudioRoute AudioRouteInv AudioSelect AudioStreams AudioDevice AudioQuiet AudioPaths AudioHal AudioEffects AudioHalInv AudioHalOps AudioHalCalls AudioHalDev.

Definition MAX_PREPROCESSORS : nat := 3.
Definition MAX_NUM_CHANNEL_CONFIGS : nat := 10.
(** The words of the array [reply]: its size in bytes is used as their number. *)
Definition reply_words : nat := 2 * 4 + MAX_NUM_CHANNEL_CONFIGS * 8.

Section preproc.
Context `{API : AudioApi} `{HW : AudioHw} `{MEM : Memory}.

(** ** Configuration *)

(** [GET_COMMAND_STATUS] *)
Definition command_status (status fct_status cmd_status : Z) : Z :=
  if negb (fct_status =? 0) then fct_status
  else if negb (cmd_status =? 0) then cmd_status else status.
(** A command of an effect: its result, and the status in the reply. *)
Definition fx_command (st : Z) : A Z :=
  let* fct := syscall status in
  let* cmd := syscall status in
  ret (command_status st fct cmd).

Fixpoint configure_reverse_loop (l : list effect_info) (st : Z) : A Z :=
  match l with
  | [] => ret st
  | e :: l =>
      if negb (fx_has_reverse (fx_handle e)) then configure_reverse_loop l st
      else
        tell (EffectReverse (fx_handle e)) ;;;
        let* st := fx_command st in configure_reverse_loop l st
  end.
Definition in_configure_reverse (k : nat) : A Z :=
  let* i := the_in k in configure_reverse_loop (in_preprocessors i) 0.

(** The configurations an effect answers; the memory for them is not checked. *)
Definition in_read_audio_effect_channel_configs : A (list (Z * Z)) :=
  let* ans := syscall fx_supported in
  if negb (ans.1.1 =? 0) then ret []
  else if negb (ans.1.2 =? 0) then ret []
  else
    let* p := calloc in
    if bool_decide (ans.2 = []) then ret []
    else if (reply_words <? 2 + 2 * length ans.2)%nat then fail OutOfBounds
    else let* _p := deref NullDeref p in ret ans.2.

Definition in_aux_cnl_configs : list (Z * Z) :=
  [(AUDIO_CHANNEL_IN_FRONT, AUDIO_CHANNEL_IN_BACK); (AUDIO_CHANNEL_IN_STEREO, AUDIO_CHANNEL_IN_RIGHT)].
Definition supports (cfg : Z * Z) (e : effect_info) : bool := bool_decide (cfg ∈ fx_channel_configs e).
(** The choice after one more configuration. *)
Definition better_aux (i : stream_in) (aux : Z) (cfg : Z * Z) : Z :=
  if ((cfg.1 =? in_main_channels i) && forallb (supports cfg) (in_preprocessors i)
      && (audio_channel_count_from_in_mask aux <? audio_channel_count_from_in_mask cfg.2))%bool
  then cfg.2 else aux.
Definition in_get_aux_channels (i : stream_in) : Z :=
  if bool_decide (in_preprocessors i = []) then 0
  else if negb (has (in_devices i) (Z.lor AUDIO_DEVICE_IN_BUILTIN_MIC AUDIO_DEVICE_IN_BACK_MIC)) then 0
  else foldl (better_aux i) 0 in_aux_cnl_configs.

Definition in_configure_effect_channels (fx : nat) (main aux : Z) : A Z :=
  let* fct := syscall status in
  if negb (fct =? 0) then ret fct
  else
    tell (EffectConfigure fx main aux) ;;;
    let* st := fx_command 0 in
    let* st := fx_command st in
    fx_command st.
Fixpoint configure_all (l : list effect_info) (main aux st : Z) : A Z :=
  match l with
  | [] => ret st
  | e :: l =>
      let* cur := in_configure_effect_channels (fx_handle e) main aux in
      configure_all l main aux (if negb (cur =? 0) then cur else st)
  end.
Definition in_reconfigure_channels (k fx : nat) (main aux : Z) (config_changed : bool) : A Z :=
  if config_changed then let* i := the_in k in configure_all (in_preprocessors i) main aux 0
  else if negb (aux =? 0) then in_configure_effect_channels fx main aux
  else ret 0.
(** A recording whose auxiliary channels change goes to standby. *)
Definition in_update_aux_channels (k fx : nat) : A unit :=
  let* i := the_in k in
  let aux := in_get_aux_channels i in
  let* st := in_reconfigure_channels k fx (in_main_channels i) aux (negb (aux =? in_aux_channels i)) in
  let* aux := (if negb (st =? 0) then
                 let* _r := in_reconfigure_channels k fx (in_main_channels i) 0 true in ret 0
               else ret aux) in
  if negb (in_aux_channels i =? aux) then
    set_in k (fun i => i<|in_aux_channels_changed := true|><|in_aux_channels := aux|>) ;;;
    let* _r := do_in_standby_l k in ret tt
  else ret tt.

(** ** Adding and removing *)
Fixpoint remove_effect (fx : nat) (l : list effect_info) : option (list effect_info) :=
  match l with
  | [] => None
  | e :: l => if (fx_handle e =? fx)%nat then Some l else (e ::.) <$> remove_effect fx l
  end.
Definition add_effect (k fx : nat) : A unit :=
  let* configs := in_read_audio_effect_channel_configs in
  set_in k (fun i => i<|in_preprocessors ::= fun l => l ++ [mkEffect fx configs]|>) ;;;
  in_update_aux_channels k fx ;;;
  set_in k (fun i => i<|in_aux_channels_changed := true|>).
(** The list of effects changed, or the error. *)
Definition change_effects (k fx : nat) (enable : bool) : A Z :=
  let* i := the_in k in
  if ((MAX_PREPROCESSORS <? length (in_preprocessors i))%nat && enable)%bool then ret (- ENOSYS)
  else if enable then
    if (length (in_preprocessors i) =? MAX_PREPROCESSORS)%nat then fail OutOfBounds
    else add_effect k fx ;;; ret 0
  else if bool_decide (in_preprocessors i = []) then ret (- ENOSYS)
  else
    match remove_effect fx (in_preprocessors i) with
    | None => ret (- EINVAL)
    | Some l => set_in k (fun i => i<|in_preprocessors := l|><|in_aux_channels_changed := false|>) ;;; ret 0
    end.
(** The canceller of echo: the recording is routed again and goes to standby. *)
Definition change_aec (k : nat) (enable : bool) : A unit :=
  set_in k (fun i => i<|in_enable_aec := enable|>) ;;;
  let* i := the_in k in
  (if negb (in_standby i) then
     let* _r := select_devices SELECT_DEPTH (in_usecase i) in
     let* _r := do_in_standby_l k in ret tt
   else ret tt) ;;;
  if enable then let* _r := in_configure_reverse k in ret tt else ret tt.
Definition add_remove_audio_effect (k fx : nat) (enable : bool) : A Z :=
  let* st := syscall status in
  if negb (st =? 0) then ret st
  else
    lock_lock_inputs ;;;
    lock_input_stream k ;;;
    lock_adev ;;;
    let* st := change_effects k fx enable in
    (if ((st =? 0) && fx_is_aec fx)%bool then change_aec k enable else ret tt) ;;;
    unlock_adev ;;;
    unlock_input k ;;;
    unlock_lock_inputs ;;;
    ret st.
Definition in_add_audio_effect (k fx : nat) : A Z := add_remove_audio_effect k fx true.
Definition in_remove_audio_effect (k fx : nat) : A Z := add_remove_audio_effect k fx false.
(** ** Each returns and keeps the device consistent *)
#[local] Existing Instance plain_preorder.
Lemma plain_then {B D} (m : A B) (f : B -> A D) : plain m -> (forall b, plain (f b)) -> plain (bind m f).
Proof. intros Hm Hf. unfold plain. by apply does_bind; [apply plain_preorder| |]. Qed.
Lemma plain_ret {B} (b : B) : plain (ret b).
Proof. by intros s r s' [= _ <-]. Qed.
Lemma plain_fail {B} e : plain (fail e : A B).
Proof. by intros s r s'. Qed.
Lemma plain_deref {B} e (o : option B) : plain (deref e o).
Proof. destruct o; [apply plain_ret|apply plain_fail]. Qed.
Ltac plainly :=
  repeat first [apply plain_ret | apply plain_fail | apply plain_deref | apply plain_tell | apply plain_syscall | apply plain_calloc
               | apply plain_then; [|intros ?] | match goal with |- plain (if ?b then _ else _) => destruct b end].

Lemma plain_fx_command st : plain (fx_command st).
Proof. unfold fx_command. plainly. Qed.
Lemma quiet_fx_command st s : quiet (fx_command st) s.
Proof. unfold fx_command. quiet. Qed.
Lemma plain_fx_configure fx main aux : plain (in_configure_effect_channels fx main aux).
Proof. unfold in_configure_effect_channels. plainly; apply plain_fx_command. Qed.
Lemma quiet_fx_configure fx main aux s : quiet (in_configure_effect_channels fx main aux) s.
Proof. unfold in_configure_effect_channels. quiet; apply quiet_fx_command. Qed.

Lemma s_configure fx main aux s a l ko ki :
  held a l ko ki s -> returns (in_configure_effect_channels fx main aux) s (fun _ s' => step a l ko ki s s').
Proof. intros Hh. apply quiet_step; [done|apply quiet_fx_configure|apply plain_fx_configure]. Qed.
Lemma s_configure_all main aux a l ko ki es : forall st s,
  held a l ko ki s -> returns (configure_all es main aux st) s (fun _ s' => step a l ko ki s s').
Proof.
  induction es as [|e es IH]; intros st s Hh; cbn [configure_all]; [by apply returns_ret, step_refl|].
  eapply returns_bind; [by apply s_configure|]. intros r s1 H1. cbn beta in H1.
  eapply returns_mono; [apply IH; alive|]. cbn beta. intros ? s2 H2. by eapply step_trans.
Qed.
Lemma s_reverse a l ko ki es : forall st s,
  held a l ko ki s -> returns (configure_reverse_loop es st) s (fun _ s' => step a l ko ki s s').
Proof.
  induction es as [|e es IH]; intros st s Hh; cbn [configure_reverse_loop]; [by apply returns_ret, step_refl|].
  destruct (negb _); [by apply IH|].
  eapply returns_bind; [apply quiet_step; [done|apply quiet_tell|apply plain_tell]|]. intros ? s1 H1. cbn beta in H1.
  eapply returns_bind; [apply quiet_step; [alive|apply quiet_fx_command|apply plain_fx_command]|]. intros rr s2 H2. cbn beta in H2.
  eapply returns_mono; [apply IH; alive|]. cbn beta. intros ? s3 H3. do 2 (eapply step_trans; [eassumption|]). done.
Qed.
Lemma s_reconfigure k fx main aux b s a l ko ki :
  held a l ko ki s -> live_in k s -> returns (in_reconfigure_channels k fx main aux b) s (fun _ s' => step a l ko ki s s').
Proof.
  intros Hh [i Hi]. unfold in_reconfigure_channels. destruct b.
  - eapply bind_in; [exact Hi|]. by apply s_configure_all.
  - destruct (negb _); [by apply s_configure|by apply returns_ret, step_refl].
Qed.
Lemma s_update_aux k fx s :
  held true true None (Some k) s -> live_in k s ->
  returns (in_update_aux_channels k fx) s (fun _ s' => pass true true None (Some k) s s').
Proof.
  intros Hh Hk. pose proof Hk as [i Hi]. unfold in_update_aux_channels. eapply bind_in; [exact Hi|].
  eapply returns_bind; [by apply s_reconfigure|]. intros st s1 H1. cbn beta in H1. assert (live_in k s1) as Hk1 by alive.
  eapply (returns_bind _ _ _ (fun _ s' => step true true None (Some k) s s')).
  { destruct (negb _); [|by apply returns_ret]. eapply returns_bind; [apply s_reconfigure; alive|].
    intros rr s2 H2. apply returns_ret. by eapply step_trans. }
  intros aux s2 H2. cbn beta in H2. assert (live_in k s2) as Hk2 by alive. destruct (negb _); [|by apply returns_ret, step_pass].
  eapply returns_bind; [apply s_in_setting; [alive|done|by intros []]|]. intros ? s3 H3. cbn beta in H3.
  assert (live_in k s3) as Hk3 by alive. eapply returns_bind; [apply s_do_in_standby; alive|]. intros rr s4 (_ & H4 & _).
  apply returns_ret. eapply step_then; [exact H2|]. by eapply step_then.
Qed.

(** What adding an effect relies on: memory, and an effect that keeps to the number of
    configurations it is told. *)
Definition effects_behave : Prop :=
  (forall n, calloc_ok n = true) /\ forall n, (length (fx_supported n).2 <= MAX_NUM_CHANNEL_CONFIGS)%nat.
Lemma s_read_configs s a l ko ki :
  effects_behave -> held a l ko ki s -> returns in_read_audio_effect_channel_configs s (fun _ s' => step a l ko ki s s').
Proof.
  intros [Hmem Hlen] Hh. assert (forall t, quiet in_read_audio_effect_channel_configs t) as Hq.
  { intros t. unfold in_read_audio_effect_channel_configs. eapply returns_bind.
    { eexists _, _. split; [reflexivity|]. cbn beta. instantiate (1 := fun r s' => frame t s' /\ r = fx_supported (sys_calls t)).
      split; [|done]. split; [split; cbn; auto using same_outs_refl, same_ins_refl|done]. }
    intros ans s1 [H1 ->]. destruct (negb _); [by apply returns_ret|]. destruct (negb _); [by apply returns_ret|].
    assert (exists p, calloc s1 = Done (Some p) s1<|sys_calls ::= S|><|next_addr ::= S|>) as [p Hp]
      by (unfold calloc, bind, syscall, fresh; cbn [obind]; rewrite Hmem; by eexists).
    eapply (returns_bind _ _ _ (fun r s' => r = Some p /\ s' = s1<|sys_calls ::= S|><|next_addr ::= S|>)); [by eexists _, _|].
    intros ? ? [-> ->]. assert (frame t (s1<|sys_calls ::= S|><|next_addr ::= S|>)) as H2.
    { eapply frame_trans; [exact H1|]. split; [split; cbn; auto using same_outs_refl, same_ins_refl|done]. }
    case_bool_decide; [by apply returns_ret|]. destruct (Nat.ltb_spec reply_words (2 + 2 * length (fx_supported (sys_calls t)).2)) as [Hlt|_].
    - specialize (Hlen (sys_calls t)). unfold reply_words, MAX_NUM_CHANNEL_CONFIGS in *. lia.
    - cbn [deref]. by apply returns_ret. }
  apply quiet_step; [done|apply Hq|]. unfold in_read_audio_effect_channel_configs. plainly.
Qed.

Lemma s_add_effect k fx s :
  effects_behave -> held true true None (Some k) s -> live_in k s ->
  returns (add_effect k fx) s (fun _ s' => pass true true None (Some k) s s').
Proof.
  intros Hb Hh Hk. unfold add_effect. eapply returns_bind; [by apply s_read_configs|]. intros cfg s1 H1. cbn beta in H1.
  assert (live_in k s1) as Hk1 by alive.
  eapply returns_bind; [apply s_in_setting; [alive|done|by intros []]|]. intros ? s2 H2. cbn beta in H2.
  assert (live_in k s2) as Hk2 by alive.
  eapply returns_bind; [apply s_update_aux; alive|]. intros ? s3 H3. cbn beta in H3.
  assert (live_in k s3) as Hk3 by by apply H3.
  eapply returns_mono; [apply s_in_setting; [apply H3|done|by intros []]|]. cbn beta. intros ? s4 H4.
  eapply step_then; [exact H1|]. eapply step_then; [exact H2|]. eapply pass_trans; [exact H3|]. by apply step_pass.
Qed.
Definition room_for_effect (k : nat) (s : AudioSt) : Prop :=
  forall i, ins s !! k = Some i -> (length (in_preprocessors i) < MAX_PREPROCESSORS)%nat.
Lemma s_change_effects k fx enable s :
  (enable = true -> effects_behave /\ room_for_effect k s) ->
  held true true None (Some k) s -> live_in k s ->
  returns (change_effects k fx enable) s (fun _ s' => pass true true None (Some k) s s').
Proof.
  intros Hen Hh Hk. pose proof Hk as [i Hi]. unfold change_effects. eapply bind_in; [exact Hi|].
  destruct (_ && _)%bool; [by apply returns_ret, step_pass, step_refl|]. destruct enable.
  - destruct (Hen eq_refl) as [Hb Hroom]. specialize (Hroom i Hi). rewrite (proj2 (Nat.eqb_neq _ _)) by lia.
    eapply returns_bind; [by apply s_add_effect|]. intros ? s1 H1. by apply returns_ret.
  - case_bool_decide; [by apply returns_ret, step_pass, step_refl|].
    destruct (remove_effect _ _); [|by apply returns_ret, step_pass, step_refl].
    eapply returns_bind; [by apply s_in_setting; [| |intros []]|]. intros ? s1 H1. by apply returns_ret, step_pass.
Qed.
Lemma s_change_aec k enable s :
  held true true None (Some k) s -> live_in k s ->
  returns (change_aec k enable) s (fun _ s' => pass true true None (Some k) s s').
Proof.
  intros Hh Hk. unfold change_aec. eapply returns_bind; [by apply s_in_setting; [| |intros []]|]. intros ? s1 H1. cbn beta in H1.
  assert (live_in k s1) as Hk1 by alive. pose proof Hk1 as [i1 Hi1]. eapply bind_in; [exact Hi1|].
  eapply (returns_bind _ _ _ (fun _ s' => pass true true None (Some k) s s')).
  - destruct (negb _); [|by apply returns_ret, step_pass].
    rewrite (dev_ins s1 (proj1 (hc_dev s1 (proj1 (step_held _ _ _ _ _ _ H1)))) k i1 Hi1).
    eapply returns_bind; [apply s_select_capture; alive|]. intros rr s2 H2. cbn beta in H2. assert (live_in k s2) as Hk2 by alive.
    eapply returns_bind; [apply s_do_in_standby; alive|]. intros rr3 s3 (_ & H3 & _). apply returns_ret.
    eapply step_then; [exact H1|]. by eapply step_then.
  - intros ? s2 H2. destruct enable; [|by apply returns_ret]. assert (live_in k s2) as [i2 Hi2] by by apply H2.
    unfold in_configure_reverse. eapply (returns_bind _ _ _ (fun _ s' => pass true true None (Some k) s s')).
    + eapply bind_in; [exact Hi2|]. eapply returns_mono; [apply s_reverse, H2|]. cbn beta. intros rr s3 H3.
      eapply pass_trans; [exact H2|]. by apply step_pass.
    + intros rr s3 H3. by apply returns_ret.
Qed.

(** Adding and removing an effect. *)
Lemma c_add_remove_effect k fx enable s :
  hal_ok s -> live_in k s -> (enable = true -> effects_behave /\ room_for_effect k s) ->
  returns (add_remove_audio_effect k fx enable) s (fun _ s' => hal_ok s').
Proof.
  intros Hok Hk Hen. unfold add_remove_audio_effect.
  eapply (returns_bind _ _ _ (fun _ s' => step false false None None s s' /\ ins s' = ins s)).
  { destruct (quiet_step (syscall status) s false false None None) as (r & s1 & Hr & H1); [done|apply quiet_syscall|apply plain_syscall|].
    exists r, s1. split; [done|]. split; [done|]. by apply (plain_syscall status _ _ _ Hr). }
  intros st s1 [H1 Ei1]. destruct (negb _); [by apply returns_ret, H1|]. destruct (step_held _ _ _ _ _ _ H1) as [Hc1 Hl1].
  assert (live_in k s1) as Hk1 by alive. assert (enable = true -> effects_behave /\ room_for_effect k s1) as Hen1
    by (unfold room_for_effect; by rewrite Ei1).
  eapply returns_bind; [by apply lock_inputs_spec|]. intros ? s2 N2. pose proof N2 as (R2 & Hc2 & Hl2). specialize (Hc2 Hc1).
  pose proof (now_step _ _ _ _ _ _ Hc1 N2) as H2. assert (live_in k s2) as Hk2 by alive.
  eapply returns_bind; [by apply lock_input_spec|]. intros ? s3 N3. pose proof N3 as (R3 & Hc3 & Hl3). specialize (Hc3 Hc2).
  pose proof (now_step _ _ _ _ _ _ Hc2 N3) as H3. assert (live_in k s3) as Hk3 by alive.
  eapply returns_bind; [by apply lock_adev_spec|]. intros ? s4 N4. pose proof N4 as (R4 & Hc4 & Hl4). specialize (Hc4 Hc3).
  pose proof (now_step _ _ _ _ _ _ Hc3 N4) as H4. assert (live_in k s4) as Hk4 by alive.
  assert (enable = true -> effects_behave /\ room_for_effect k s4) as Hen4.
  { intros He. destruct (Hen1 He) as [Hb Hr]. split; [done|]. intros i4 Hi4.
    destruct (relocked_in_inv _ _ _ _ (relocked_trans _ _ _ (relocked_trans _ _ _ R2 R3) R4) Hi4) as (i & Hi & ->).
    specialize (Hr i Hi). by destruct i. }
  eapply returns_bind; [apply s_change_effects; [done|alive|done]|]. intros st' s5 H5. assert (live_in k s5) as Hk5 by by apply H5.
  eapply (returns_bind _ _ _ (fun _ s' => pass true true None (Some k) s4 s')).
  { destruct (_ && _)%bool; [|by apply returns_ret]. eapply returns_mono; [apply s_change_aec; [apply H5|done]|]. cbn beta.
    intros ? s6 H6. eapply pass_trans; [exact H5|done]. }
  intros ? s6 H6. assert (live_in k s6) as Hk6 by by apply H6.
  eapply returns_bind; [eapply s_unlock_adev, H6|]. intros ? s7 H7. cbn beta in H7.
  eapply returns_bind; [eapply s_unlock_input; alive|]. intros ? s8 H8. cbn beta in H8.
  eapply returns_bind; [eapply s_unlock_inputs; alive|]. intros ? s9 H9. cbn beta in H9. apply returns_ret, H9.
Qed.
End preproc.
