(* ===== verification/AudioHalOpen.v ===== *)
(** * Opening and closing streams and the device

    A stream joins with a fresh address and in standby, and leaves from standby, when no
    use case refers to it; the device opened is consistent. *)
From S2P Require Import Prelude Machine AudioTypes AudioVoice AudioRoute AudioRouteInv AudioSelect AudioStreams AudioDevice AudioQuiet AudioPaths AudioHal AudioEffects AudioHalInv AudioHalOps AudioHalCalls AudioHalDev.

(** Only fresh addresses and calls of the system. *)
Definition grown (s s' : AudioSt) : Prop :=
  s' = s<|next_addr := next_addr s'|><|sys_calls := sys_calls s'|> /\ (next_addr s <= next_addr s')%nat.
Lemma grown_refl s : grown s s.
Proof. split; [by destruct s|done]. Qed.
Lemma grown_trans s1 s2 s3 : grown s1 s2 -> grown s2 s3 -> grown s1 s3.
Proof. intros [E1 H1] [E2 H2]. split; [|lia]. rewrite E2, E1. by destruct s1. Qed.
Lemma grown_frame s s' : grown s s' -> frame s s'.
Proof.
  intros [E Hn]. split; [|by rewrite E]. split; first [exact Hn|by rewrite E|intros k; rewrite E; cbn; first [apply same_outs_refl|apply same_ins_refl]].
Qed.
Lemma grown_ok s s' : grown s s' -> hal_ok s -> hal_ok s'.
Proof.
  intros Hg [Hc Hl]. pose proof (grown_frame _ _ Hg) as Hf. split; [|eapply locks_base; [apply Hf|done]].
  apply (frame_hal s); [done|done|]. destruct Hg as [E _]. rewrite E. by split_and!.
Qed.

(** A device and a new stream. *)
Definition with_out (k : nat) (o : stream_out) (s : AudioSt) : AudioSt := s<|outs ::= <[k := o]>|>.
Definition with_in (k : nat) (i : stream_in) (s : AudioSt) : AudioSt := s<|ins ::= <[k := i]>|>.
Lemma with_out_twice k o o' s : with_out k o' (with_out k o s) = with_out k o' s.
Proof. unfold with_out, set_field. destruct s. cbn. f_equal. apply insert_insert_eq. Qed.

(** A stream no call has touched. *)
Definition idle_out (o : stream_out) : Prop :=
  out_lock o = false /\ out_thread_blocked o = false /\ out_offload_state o = OFFLOAD_STATE_IDLE /\
  0 <= out_usecase o <= USECASE_AUDIO_PLAYBACK_DEEP_BUFFER.

Section streams.
Context `{API : AudioApi} `{HW : AudioHw} `{MEM : Memory}.

Lemma calloc_grows s :
  returns calloc s (fun p s' => grown s s' /\ forall k, p = Some k -> k = next_addr s /\ next_addr s' = S k).
Proof.
  unfold calloc. unfold syscall at 1. unfold returns, bind. cbn [obind].
  destruct (calloc_ok (sys_calls s)); cbn; eexists _, _; (split; [reflexivity|]); (split; [split; [by destruct s|cbn; lia]|]).
  - by intros k [= <-].
  - done.
Qed.

Lemma uc_wf_streams s s' u :
  in_call s' = in_call s -> (forall k, primary_output s = Some k -> primary_output s' = Some k) ->
  (forall k o, uc_stream u = OutStream k -> outs s !! k = Some o -> outs s' !! k = Some o) ->
  (forall k i, uc_stream u = InStream k -> ins s !! k = Some i -> ins s' !! k = Some i) ->
  uc_wf s u -> uc_wf s' u.
Proof.
  intros Ec Ep Ho Hi [(H1 & H2 & H3 & k & o & H4 & H5 & H6)|[(H1 & H2 & H3 & k & i & H4 & H5 & H6)|(H1 & H2 & H3 & k & o & H4 & H5 & H6)]].
  - left. split_and!; [done..|]. exists k, o. auto.
  - right; left. split_and!; [done..|]. exists k, i. auto.
  - right; right. split_and!; [done|done|congruence|]. exists k, o. auto.
Qed.

(** The routing is that of the device, with other streams. *)
Lemma device_other s s' :
  device_ok s -> usecase_list s' = usecase_list s -> snd_dev_ref_cnt s' = snd_dev_ref_cnt s -> in_call s' = in_call s ->
  mixer_list s' = mixer_list s -> (next_addr s <= next_addr s')%nat ->
  (forall u, u ∈ usecase_list s -> uc_wf s u -> uc_wf s' u) ->
  (forall k, primary_output s' = Some k -> is_Some (outs s' !! k)) ->
  (forall k o, outs s' !! k = Some o -> 0 <= out_usecase o <= USECASE_AUDIO_PLAYBACK_DEEP_BUFFER) ->
  (forall k i, ins s' !! k = Some i -> in_usecase i = USECASE_AUDIO_CAPTURE) -> device_ok s'.
Proof.
  intros [[[Hrf Hob Hw Hp] Ha Hi Hc Ho Hin] Hcall] El Er Ec Em En Hwf Hp' Ho' Hin'.
  split; [split; [split| | | |done|done]|].
  - destruct Hrf as [Hl Hr]. split; rewrite El; [done|]. unfold refs_are. by rewrite Er.
  - by rewrite El.
  - rewrite El. rewrite Forall_forall in *. auto.
  - done.
  - rewrite El. eapply Forall_impl; [exact Ha|]. intros u Hu. cbn in *. lia.
  - by rewrite El.
  - by rewrite Em.
  - unfold call_ready. by rewrite El, Ec.
Qed.

(** *** An output joins *)
Lemma with_out_live k o s j : outs s !! k = None -> outs s !! j <> None -> outs (with_out k o s) !! j = outs s !! j.
Proof. intros Hk Hj. unfold with_out. cbn. apply lookup_insert_ne. congruence. Qed.
Lemma out_joins k o s p :
  hal_ok s -> (k < next_addr s)%nat -> outs s !! k = None -> ~ live_in k s -> idle_out o ->
  (forall u, u ∈ usecase_list s -> uc_id u <> out_usecase o) ->
  (forall j q, outs s !! j = Some q -> out_usecase q <> out_usecase o) ->
  (p = primary_output s \/ primary_output s = None /\ p = Some k) -> hal_ok ((with_out k o s)<|primary_output := p|>).
Proof.
  intros [Hc Hl] Hlt Hk Hin (Hlk & Hbl & Hst & Hr) Hu Hd Hp. set (s' := set_field primary_output _ _).
  assert (forall j q, outs s' !! j = Some q -> j = k /\ q = o \/ outs s !! j = Some q) as Hos.
  { intros j q Hj. unfold s', with_out in Hj. cbn in Hj. destruct (decide (j = k)) as [->|Hn].
    - rewrite lookup_insert_eq in Hj. injection Hj as ->. by left.
    - rewrite lookup_insert_ne in Hj by done. by right. }
  split; [|split; [apply Hl|apply Hl| |apply Hl]].
  2: { intros j q [[-> ->]|Hj]%Hos; [done|]. by apply (lk_outs _ _ _ _ _ Hl j). }
  pose proof (hc_dev s Hc) as Hdev. split.
  - apply (device_other s); try done.
    + intros u Hin' Hw. eapply uc_wf_streams; [..|exact Hw]; [done| | |done].
      * intros j Hj. unfold s'. cbn. destruct Hp as [->|[E _]]; [done|congruence].
      * intros j q _ Hj. unfold s', with_out. cbn. rewrite lookup_insert_ne by congruence. done.
    + intros j Hj. unfold s', with_out. cbn. destruct (decide (j = k)) as [->|Hn]; [rewrite lookup_insert_eq; by eexists|].
      rewrite lookup_insert_ne by done. cbn in Hj. destruct Hp as [-> |[_ ->]]; [by apply (ok_primary s (dev_core s (proj1 Hdev)))|congruence].
    + intros j q [[-> ->]|Hj]%Hos; [done|]. by apply (dev_outs s (proj1 Hdev) j).
    + apply (dev_ins s (proj1 Hdev)).
  - intros j q [[-> ->]|Hj]%Hos; [done|]. by apply (hc_idle s Hc j).
  - apply Hc.
  - intros j q [[-> ->]|Hj]%Hos; [done|]. by apply (hc_out s Hc j).
  - apply Hc.
  - intros j q [[-> ->]|Hj]%Hos; [unfold is_paused; by rewrite Hst|]. by apply (hc_paused s Hc j).
  - intros j1 j2 q1 q2 [[-> ->]|Hj1]%Hos [[-> ->]|Hj2]%Hos E; [done| | |by apply (hc_distinct s Hc j1 j2 q1 q2)].
    + by destruct (Hd j2 q2 Hj2).
    + by destruct (Hd j1 q1 Hj1).
  - apply Hc.
  - intros j [[q [[-> ->]|Hj]%Hos]|Hj]; [done| |]; apply (hc_addr s Hc); [left; by eexists|by right].
Qed.

(** *** A stream leaves *)
Lemma out_leaves k s :
  hal_ok s -> (out_standby <$> outs s !! k) = Some true -> primary_output s <> Some k ->
  hal_ok (s<|outs ::= delete k|>).
Proof.
  intros [Hc Hl] Hst Hp. destruct (outs s !! k) as [o|] eqn:Ho; [|done]. injection Hst as Hst. set (s' := set_field outs _ s).
  assert (forall j q, outs s' !! j = Some q -> outs s !! j = Some q) as Hos.
  { intros j q Hj. cbn in Hj. by apply lookup_delete_Some in Hj as [_ ?]. }
  split; [|split; [apply Hl|apply Hl| |apply Hl]; intros j q Hj%Hos; by apply (lk_outs _ _ _ _ _ Hl j)].
  pose proof (hc_dev s Hc) as Hdev. split.
  - apply (device_other s); try done.
    + intros u Hin Hw. eapply uc_wf_streams; [..|exact Hw]; [done|done| |done]. intros j q Hj Hq. cbn.
      rewrite lookup_delete_ne; [done|]. intros <-.
      destruct Hw as [(_ & _ & _ & k' & o' & H4 & H5 & H6)|[(_ & _ & _ & k' & i' & H4 & _)|(_ & _ & _ & H)]].
      * assert (k' = k) as -> by congruence. apply (hc_out s Hc k o Ho Hst u Hin). congruence.
      * congruence.
      * destruct H as (j & q' & H4 & _ & H6). congruence.
    + intros j Hj. cbn. rewrite lookup_delete_ne by (intros <-; done). by apply (ok_primary s (dev_core s (proj1 Hdev))).
    + intros j q Hj%Hos. by apply (dev_outs s (proj1 Hdev) j).
    + apply (dev_ins s (proj1 Hdev)).
  - intros j q Hj%Hos. by apply (hc_idle s Hc j).
  - apply Hc.
  - intros j q Hj%Hos. by apply (hc_out s Hc j).
  - apply Hc.
  - intros j q Hj%Hos. by apply (hc_paused s Hc j).
  - intros j1 j2 q1 q2 Hj1%Hos Hj2%Hos. by apply (hc_distinct s Hc).
  - apply Hc.
  - intros j [[q Hj%Hos]|Hj]; apply (hc_addr s Hc); [left; by eexists|by right].
Qed.
Lemma in_leaves k s :
  hal_ok s -> (in_standby <$> ins s !! k) = Some true -> hal_ok (s<|ins ::= delete k|>).
Proof.
  intros [Hc Hl] Hst. destruct (ins s !! k) as [i|] eqn:Hi; [|done]. injection Hst as Hst. set (s' := set_field ins _ s).
  assert (forall j q, ins s' !! j = Some q -> ins s !! j = Some q) as His.
  { intros j q Hj. cbn in Hj. by apply lookup_delete_Some in Hj as [_ ?]. }
  split; [|split; [apply Hl|apply Hl|apply Hl|]; intros j q Hj%His; by apply (lk_ins _ _ _ _ _ Hl j)].
  pose proof (hc_dev s Hc) as Hdev. split; [|apply Hc| |apply Hc| |apply Hc|apply Hc| |].
  - apply (device_other s); try done; [|by apply (ok_primary s (dev_core s (proj1 Hdev)))|by apply (dev_outs s (proj1 Hdev))|].
    + intros u Hin Hw. eapply uc_wf_streams; [..|exact Hw]; [done|done|done|]. intros j q Hj Hq. cbn.
      rewrite lookup_delete_ne; [done|]. intros <-.
      destruct Hw as [(_ & _ & _ & k' & o' & H4 & _)|[(_ & _ & _ & k' & i' & H4 & H5 & H6)|(_ & _ & _ & k' & o' & H4 & _)]]; [congruence| |congruence].
      apply (hc_in s Hc k i Hi Hst u Hin). rewrite <-H6. by apply (dev_ins s (proj1 Hdev) k').
    + intros j q Hj%His. by apply (dev_ins s (proj1 Hdev) j).
  - intros j Hj. destruct (hc_active s Hc j Hj) as (q & Hq & Hs). exists q. split; [|done]. cbn. rewrite lookup_delete_ne; [done|].
    intros <-. congruence.
  - intros j q Hj%His. by apply (hc_in s Hc j).
  - intros j1 j2 [q1 Hj1%His] [q2 Hj2%His]. apply (hc_one s Hc); by eexists.
  - intros j [Hj|[q Hj%His]]; apply (hc_addr s Hc); [by left|right; by eexists].
Qed.

(** *** Opening an output *)
Definition usecase_of (flags : Z) : Z :=
  if has flags AUDIO_OUTPUT_FLAG_COMPRESS_OFFLOAD then USECASE_AUDIO_PLAYBACK_OFFLOAD
  else if has flags AUDIO_OUTPUT_FLAG_DEEP_BUFFER then USECASE_AUDIO_PLAYBACK_DEEP_BUFFER
  else USECASE_AUDIO_PLAYBACK.

Lemma set_new_out k f o s : set_out k f (with_out k o s) = Done tt (with_out k (f o) s).
Proof.
  assert (outs (with_out k o s) !! k = Some o) as Hk by apply lookup_insert_eq.
  unfold set_out. run (the_out_spec _ _ _ Hk). by rewrite <-(with_out_twice k o (f o)).
Qed.
Lemma bind_set_new {B} k f o s (m : unit -> A B) P : returns (m tt) (with_out k (f o) s) P -> returns (bind (set_out k f) m) (with_out k o s) P.
Proof. unfold returns. by run (set_new_out k f o s). Qed.
Lemma grown_with_out k o s s' : grown (with_out k o s) s' -> exists s2, s' = with_out k o s2 /\ grown s s2.
Proof.
  intros [E Hn]. exists (s<|next_addr := next_addr s'|><|sys_calls := sys_calls s'|>). split; [by rewrite E at 1|]. by split.
Qed.
Lemma init_usecase_spec k flags info o s :
  idle_out o -> returns (init_usecase k flags info) (with_out k o s) (fun r s' =>
    exists o' s2, s' = with_out k o' s2 /\ grown s s2 /\ idle_out o' /\ (r = 0 -> out_usecase o' = usecase_of flags)).
Proof.
  intros (Hlk & Hbl & Hst & Hr). unfold init_usecase, usecase_of.
  destruct (has flags AUDIO_OUTPUT_FLAG_COMPRESS_OFFLOAD).
  - assert (forall s' r, grown s s' -> r <> 0 -> returns (ret r) (with_out k o s') (fun r s' => exists o' s2, s' = with_out k o' s2 /\
      grown s s2 /\ idle_out o' /\ (r = 0 -> out_usecase o' = USECASE_AUDIO_PLAYBACK_OFFLOAD))) as Herr.
    { intros s' r Hg Hne. apply returns_ret. exists o, s'. split_and!; [done..|by intros ->]. }
    destruct (negb (off_valid info)); [by apply Herr; [apply grown_refl|]|].
    destruct (negb (is_supported_format _)); [by apply Herr; [apply grown_refl|]|].
    eapply returns_bind; [apply calloc_grows|]. intros p s1 [Hg _]. destruct (grown_with_out _ _ _ _ Hg) as (s2 & -> & Hg2).
    destruct p as [q|]; [|by apply Herr]. apply bind_set_new. unfold create_offload_callback_thread.
    do 2 apply bind_set_new. apply returns_ret. eexists _, s2. split_and!; [reflexivity|done|by destruct o|by destruct o].
  - destruct (has flags AUDIO_OUTPUT_FLAG_DEEP_BUFFER); apply bind_set_new, returns_ret; eexists _, s;
      (split_and!; [reflexivity|apply grown_refl|by destruct o|by destruct o]).
Qed.
Lemma claim_primary_spec k flags s :
  returns (claim_primary k flags) s (fun r s' =>
    exists p, s' = s<|primary_output := p|> /\ (p = primary_output s \/ primary_output s = None /\ p = Some k) /\ (r <> 0 -> s' = s)).
Proof.
  unfold claim_primary. assert (exists p, s = s<|primary_output := p|> /\ (p = primary_output s \/ primary_output s = None /\ p = Some k)) as Hs.
  { exists (primary_output s). split; [by destruct s|by left]. }
  destruct (has _ _); [|apply returns_ret; destruct Hs as (p & H1 & H2); by exists p].
  apply bind_gets. destruct (primary_output s) eqn:E; [apply returns_ret; destruct Hs as (p & H1 & H2); by exists p|].
  apply bind_modify, returns_ret. exists (Some k). split_and!; [done|by right|done].
Qed.
Lemma check_usecase_spec k o s :
  adev_lock s = false -> outs s !! k = Some o -> (forall u, u ∈ usecase_list s -> uc_id u <> out_usecase o) ->
  check_usecase k s = Done 0 s.
Proof.
  intros Ha Ho Hu. unfold check_usecase, lock_adev, wait, unlock_adev.
  unfold bind at 1. unfold bind at 1. rewrite Ha. cbn [negb obind modify].
  set (s1 := set_field adev_lock _ s). assert (outs s1 !! k = Some o) as Ho1 by done. run (the_out_spec _ _ _ Ho1).
  unfold get_usecase_from_id. unfold bind at 1, gets. cbn [obind].
  assert (find (fun u => uc_id u =? out_usecase o) (usecase_list s1) = None) as ->.
  { destruct (find _ _) as [u|] eqn:Hf; [|done]. apply find_some in Hf as [Hin%list_elem_of_In E%Z.eqb_eq]. by destruct (Hu u Hin). }
  cbn. f_equal. destruct s. cbn in *. by subst.
Qed.

(** What the framework asks for: no open output has the use case already. *)
Definition can_open (flags : Z) (s : AudioSt) : Prop :=
  forall j q, outs s !! j = Some q -> out_usecase q <> usecase_of flags.

Lemma out_failed_spec k r o s s0 :
  hal_ok s0 -> grown s0 s -> outs s0 !! k = None ->
  returns (out_failed k r) (with_out k o s) (fun p s' => p = (r, None) /\ hal_ok s').
Proof.
  intros Hok Hg Hk. unfold out_failed, free_out. apply bind_modify, returns_ret. split; [done|].
  assert ((with_out k o s)<|outs ::= delete k|> = s) as E; [|rewrite E; by eapply grown_ok].
  assert (outs s = outs s0) as Eo by (by rewrite (proj1 Hg)).
  rewrite <-Eo in Hk. clear -Hk. destruct s. unfold with_out, set_field. cbn in *. f_equal. by apply delete_insert_id.
Qed.
Lemma usecase_absent flags s : hal_ok s -> can_open flags s -> 0 <= usecase_of flags <= USECASE_AUDIO_PLAYBACK_DEEP_BUFFER ->
  forall u, u ∈ usecase_list s -> uc_id u <> usecase_of flags.
Proof.
  intros [Hc _] Ho Hr u Hu E. pose proof (ok_ucs s (dev_core s (proj1 (hc_dev s Hc)))) as Hw. rewrite Forall_forall in Hw.
  destruct (Hw u Hu) as [(_ & _ & _ & k & o & _ & Hk & E')|[(_ & _ & _ & k & i & _ & Hk & E')|(_ & E' & _)]].
  - apply (Ho k o Hk). congruence.
  - rewrite (dev_ins s (proj1 (hc_dev s Hc)) k i Hk) in E'. rewrite <-E, <-E' in Hr. by destruct Hr.
  - rewrite <-E, E' in Hr. by destruct Hr.
Qed.
Lemma c_open_output devices flags sample_rate info s :
  hal_ok s -> can_open flags s ->
  returns (adev_open_output_stream devices flags sample_rate info) s (fun p s' => hal_ok s' /\
    forall k, p.2 = Some k -> p.1 = 0 /\ exists o, outs s' !! k = Some o /\ out_standby o = true /\ out_usecase o = usecase_of flags).
Proof.
  intros Hok Hcan. unfold adev_open_output_stream. eapply returns_bind; [apply calloc_grows|]. intros p s1 [Hg1 Hp].
  destruct p as [k|]; [|apply returns_ret; split; [by eapply grown_ok|done]]. destruct (Hp k eq_refl) as [-> Hn1].
  set (k := next_addr s) in *. set (dev := if devices =? AUDIO_DEVICE_NONE then _ else _).
  assert (~ live_out k s /\ ~ live_in k s) as [Hko Hki].
  { split; intros H; (assert (k < k)%nat as Hlt; [|lia]); apply (hc_addr s (proj1 Hok)); auto. }
  assert (outs s !! k = None) as Hk by (apply eq_None_not_Some; exact Hko).
  assert (forall o s2 r, grown s s2 -> returns (out_failed k r) (with_out k o s2) (fun p s' => hal_ok s' /\
    forall k, p.2 = Some k -> p.1 = 0 /\ exists o, outs s' !! k = Some o /\ out_standby o = true /\ out_usecase o = usecase_of flags)) as Hfail.
  { intros o s2 r Hg2. eapply returns_mono; [by eapply out_failed_spec|]. cbn beta. by intros ? s' [-> H]. }
  apply bind_modify. fold (with_out k (new_out dev flags sample_rate) s1). apply bind_gets.
  destruct (get_pcm_device _ _ _) as [profile|]; [|by apply Hfail]. apply bind_set_new.
  eapply returns_bind; [apply init_usecase_spec; by split_and!|]. intros r s2' (o2 & s2 & -> & Hg12 & Hid2 & Euc).
  assert (grown s s2) as Hg2 by by eapply grown_trans.
  destruct (Z.eqb_spec r 0) as [->|Hr]; cbn [negb]; [|by apply Hfail]. specialize (Euc eq_refl).
  assert (0 <= usecase_of flags <= USECASE_AUDIO_PLAYBACK_DEEP_BUFFER) as Hrange by (rewrite <-Euc; apply Hid2).
  pose proof (usecase_absent flags s Hok Hcan Hrange) as Habs.
  eapply returns_bind; [apply claim_primary_spec|]. intros r s3 (p & E3 & Hp3 & Hne).
  destruct (Z.eqb_spec r 0) as [->|Hr]; cbn [negb]; [clear Hne|rewrite (Hne Hr); by apply Hfail]. subst s3.
  set (s3 := set_field primary_output _ _) in *.
  assert (outs s3 !! k = Some o2) as Ho2 by apply lookup_insert_eq.
  pose proof (grown_ok _ _ Hg2 Hok) as Hok2. assert (usecase_list s2 = usecase_list s /\ outs s2 = outs s /\ ins s2 = ins s) as (El & Eo & Ei)
    by (by rewrite (proj1 Hg2)).
  eapply (returns_bind _ _ _ (fun r s' => r = 0 /\ s' = s3)).
  { exists 0, s3. split; [|done]. apply (check_usecase_spec k o2); [apply (lk_adev _ _ _ _ _ (proj2 Hok2))|done|]. rewrite Euc. cbn. by rewrite El. }
  intros ? ? [-> ->]. change (negb (0 =? 0)) with false. cbv iota.
  set (o3 := o2<|out_standby := true|>).
  eapply (returns_bind _ _ _ (fun _ s' => s' = (with_out k o3 s2)<|primary_output := p|>)).
  { eexists _, _. split; [unfold set_out; run (the_out_spec _ _ _ Ho2); reflexivity|].
    unfold s3, with_out, set_field. destruct s2. cbn. f_equal. apply insert_insert_eq. }
  intros ? ? ->. apply returns_ret. split.
  - apply out_joins; try done.
    + destruct Hg12 as [_ Hn]. lia.
    + by rewrite Eo.
    + unfold live_in. rewrite Ei. exact Hki.
    + rewrite El. change (out_usecase o3) with (out_usecase o2). by rewrite Euc.
    + rewrite Eo. change (out_usecase o3) with (out_usecase o2). by rewrite Euc.
  - intros ? [= <-]. split; [done|]. exists o3. split_and!; [apply lookup_insert_eq|done|done].
Qed.

Lemma c_close_output k o s :
  hal_ok s -> outs s !! k = Some o -> out_usecase o <> USECASE_AUDIO_PLAYBACK_OFFLOAD -> primary_output s <> Some k ->
  returns (adev_close_output_stream k) s (fun _ s' => hal_ok s' /\ outs s' !! k = None).
Proof.
  intros Hok Ho Hoff Hp. assert (live_out k s) as Hk by by eexists. unfold adev_close_output_stream.
  eapply returns_bind; [by apply (s_out_standby k s false None)|]. intros ? s1 (_ & H1 & Hst).
  destruct (ss_outs _ _ (proj1 (proj2 H1)) k o Ho) as (o1 & Ho1 & E1). eapply bind_out; [exact Ho1|].
  rewrite E1, (proj2 (Z.eqb_neq _ _)) by done. apply bind_ret. apply returns_modify.
  split; [|apply lookup_delete_eq]. apply out_leaves; [apply H1|done|by rewrite (ss_primary _ _ (proj1 (proj2 H1)))].
Qed.
End streams.
