(* ===== verification/AudioHalRun.v ===== *)
(** * The HAL in use

    Recordings opened and closed, the device opened, and any sequence of calls of the
    framework ([hal_reachable]): the device stays consistent and no call gets stuck. *)
From S2P Require Import Prelude Machine AudioTypes AudioVoice AudioRoute AudioRouteInv AudioSelect AudioStreams AudioDevice AudioQuiet AudioPaths AudioHal AudioEffects AudioHalInv AudioHalOps AudioHalCalls AudioHalDev AudioPreproc AudioHalOpen.

Section run.
Context `{API : AudioApi} `{HW : AudioHw} `{MEM : Memory}.

(** ** Recordings *)
Lemma in_joins k i s :
  hal_ok s -> (k < next_addr s)%nat -> (forall j, ~ live_in j s) -> outs s !! k = None ->
  in_lock i = false -> in_standby i = true -> in_usecase i = USECASE_AUDIO_CAPTURE -> hal_ok (with_in k i s).
Proof.
  intros [Hc Hl] Hlt Hno Hk Hlk Hst Huc. set (s' := with_in k i s). pose proof (hc_dev s Hc) as Hdev.
  assert (forall j q, ins s' !! j = Some q -> j = k /\ q = i) as His.
  { intros j q Hj. unfold s', with_in in Hj. cbn in Hj. apply lookup_insert_Some in Hj as [[-> ->]|[_ Hj]]; [done|].
    destruct (Hno j). by eexists. }
  assert (forall u, u ∈ usecase_list s -> uc_id u <> USECASE_AUDIO_CAPTURE) as Habs.
  { intros u Hu E. pose proof (capture_type s u (proj1 Hdev) Hu E) as Ht. pose proof (ok_ucs s (dev_core s (proj1 Hdev))) as Hw.
    rewrite Forall_forall in Hw. destruct (Hw u Hu) as [(Ht' & _)|[(_ & _ & _ & j & q & _ & Hj & _)|(Ht' & _)]]; [by rewrite Ht in Ht'| |by rewrite Ht in Ht'].
    destruct (Hno j). by eexists. }
  split; [|split; [apply Hl|apply Hl|apply Hl|]; by intros j q [-> ->]%His].
  split; [|apply Hc| |apply Hc| |apply Hc|apply Hc| |].
  - apply (device_other s); try done; [|by apply (ok_primary s (dev_core s (proj1 Hdev)))|by apply (dev_outs s (proj1 Hdev))|by intros j q [-> ->]%His].
    intros u Hin Hw. eapply uc_wf_streams; [..|exact Hw]; [done|done|done|]. intros j q _ Hj. destruct (Hno j). by eexists.
  - intros j Hj. destruct (hc_active s Hc j Hj) as (q & Hq & _). destruct (Hno j). by eexists.
  - intros j q [-> ->]%His _. exact Habs.
  - intros j1 j2 [q1 [-> _]%His] [q2 [-> _]%His]. done.
  - intros j [Hj|[q [-> _]%His]]; [apply (hc_addr s Hc); by left|done].
Qed.

Lemma c_open_input devices rate format mask flags source s :
  hal_ok s -> (forall j, ~ live_in j s) ->
  returns (adev_open_input_stream devices rate format mask flags source) s (fun p s' => hal_ok s' /\
    forall k, p.2 = Some k -> p.1 = 0 /\ (in_standby <$> ins s' !! k) = Some true).
Proof.
  intros Hok Hno. unfold adev_open_input_stream. destruct (negb _); [by apply returns_ret|]. apply bind_gets.
  destruct (input_profile _ _ _) as [tp|]; [|by apply returns_ret]. eapply returns_bind; [apply calloc_grows|].
  intros p s1 [Hg Hp]. pose proof (grown_ok _ _ Hg Hok) as Hok1. destruct p as [k|]; [|by apply returns_ret].
  destruct (Hp k eq_refl) as [-> Hn1]. set (k := next_addr s) in *. apply bind_modify, returns_ret.
  assert (outs s1 = outs s /\ ins s1 = ins s) as [Eo Ei] by (by rewrite (proj1 Hg)). split.
  - apply in_joins; try done; [lia| |].
    + intros j. unfold live_in. rewrite Ei. apply Hno.
    + rewrite Eo. apply eq_None_not_Some. intros Hk. assert (k < k)%nat; [|lia]. apply (hc_addr s (proj1 Hok)). by left.
  - intros ? [= <-]. split; [done|]. cbn. by rewrite lookup_insert_eq.
Qed.
Lemma c_close_input k s : hal_ok s -> live_in k s -> returns (adev_close_input_stream k) s (fun _ s' => hal_ok s' /\ ins s' !! k = None).
Proof.
  intros Hok Hk. unfold adev_close_input_stream. eapply returns_bind; [by apply s_lock_inputs|]. intros ? s1 H1. cbn beta in H1.
  assert (live_in k s1) as Hk1 by alive.
  eapply returns_bind; [apply s_in_setting; [alive|done|by intros []]|]. intros ? s2 H2. cbn beta in H2.
  assert (live_in k s2) as Hk2 by alive.
  eapply (returns_bind _ _ _ (fun _ s' => step false true None None s2 s')).
  { unfold release_resampler_of. pose proof Hk2 as [i2 Hi2]. eapply bind_in; [exact Hi2|].
    destruct (in_resampler i2); [|apply returns_ret, step_refl; alive].
    eapply returns_bind; [apply quiet_step; [alive|apply quiet_tell|apply plain_tell]|]. intros ? s3 H3. cbn beta in H3.
    eapply returns_mono; [apply s_in_setting; [alive|alive|by intros []]|]. cbn beta. intros ? s4 H4. by eapply step_trans. }
  intros ? s3 H3. assert (live_in k s3) as Hk3 by alive.
  eapply returns_bind; [apply s_in_standby_l; alive|]. intros ? s4 (_ & [[Hc4 Hl4] _] & Hst). apply bind_modify.
  apply returns_modify. cbn. split; [|apply lookup_delete_eq].
  assert (hal_ok (s4<|lock_inputs := false|>)) as H5.
  { split; [eapply relocked_core; [apply relocked_inputs|done]|]. destruct Hl4. by split. }
  exact (in_leaves k _ H5 Hst).
Qed.

(** ** Settings *)
Lemma c_set_parameters nrec wb screen s :
  hal_ok s -> returns (adev_set_parameters nrec wb screen) s (fun _ s' => hal_ok s').
Proof.
  intros Hok. assert (forall g t, (forall s, frame s (g s) /\ out_effect s (g s)) -> hal_ok t -> hal_ok (g t)) as Hset.
  { intros g t Hg [Hc Hl]. destruct (Hg t) as [Hf He]. split; [by eapply frame_hal|eapply locks_base; [apply Hf|done]]. }
  assert (forall g t, (forall s, frame s (g s) /\ out_effect s (g s)) -> hal_ok t ->
    returns (modify g) t (fun _ s' => hal_ok s')) as Hmod by (intros; apply returns_modify; auto).
  unfold adev_set_parameters. eapply (returns_bind _ _ _ (fun _ => hal_ok)).
  { destruct nrec; [|by apply returns_ret]. apply Hmod; [|done]. intros t.
    split; [|by split]. split; [split; cbn; auto using same_outs_refl, same_ins_refl|done]. }
  intros ? s1 H1. eapply (returns_bind _ _ _ (fun _ => hal_ok)).
  { destruct wb; [|by apply returns_ret]. apply Hmod; [|done]. intros t.
    split; [|by split]. split; [split; cbn; auto using same_outs_refl, same_ins_refl|done]. }
  intros ? s2 H2. eapply (returns_bind _ _ _ (fun _ => hal_ok)); [|intros ? s3 H3; by apply returns_ret].
  destruct screen; [|by apply returns_ret]. apply Hmod; [|done]. intros t.
  split; [|by split]. split; [split; cbn; auto using same_outs_refl, same_ins_refl|done].
Qed.

(** ** The device opened *)
Definition mixers_only (s s' : AudioSt) : Prop :=
  s' = s<|mixer_list := mixer_list s'|><|next_addr := next_addr s'|><|sys_calls := sys_calls s'|>.
Lemma mixers_refl s : mixers_only s s.
Proof. by destruct s. Qed.
Lemma mixers_trans s1 s2 s3 : mixers_only s1 s2 -> mixers_only s2 s3 -> mixers_only s1 s3.
Proof. unfold mixers_only. intros -> ->. done. Qed.
Lemma grown_mixers s s' : grown s s' -> mixers_only s s' /\ mixer_list s' = mixer_list s.
Proof. intros [E _]. split; [unfold mixers_only; rewrite E; by destruct s|by rewrite E]. Qed.
Lemma syscall_mixers {B} (f : nat -> B) s : returns (syscall f) s (fun _ s' => mixers_only s s' /\ mixer_list s' = mixer_list s).
Proof. eexists _, _. split; [reflexivity|]. by destruct s. Qed.
Lemma open_mixer_spec n : forall s, returns (open_mixer n) s (fun _ s' => mixers_only s s' /\ mixer_list s' = mixer_list s).
Proof.
  induction n as [|n IH]; intros s; cbn [open_mixer]; (eapply returns_bind; [apply syscall_mixers|]);
    intros ok s1 [H1 E1]; (destruct ok; [by apply returns_ret|]); [by apply returns_ret|].
  eapply returns_mono; [apply IH|]. cbn beta. intros rr s2 [H2 E2]. split; [by eapply mixers_trans|congruence].
Qed.
Lemma mixer_failed_spec v s (P : Prop) :
  v <> 0 -> returns (mixer_failed v) s (fun r s' => mixers_only s s' /\ (r = 0 -> P)).
Proof. intros Hv. unfold mixer_failed. apply bind_modify, returns_ret. split; [by destruct s|done]. Qed.

(** When it succeeds, every card has its mixer. *)
Lemma mixer_loop_spec cards : forall s, returns (mixer_init_loop cards) s (fun r s' => mixers_only s s' /\
  (r = 0 -> forall c, c ∈ mixer_list s \/ c ∈ cards -> c ∈ mixer_list s')).
Proof.
  induction cards as [|c cards IH]; intros s; cbn [mixer_init_loop].
  { apply returns_ret. split; [apply mixers_refl|]. by intros _ x [Hx|Hx%elem_of_nil]. }
  unfold adev_get_mixer_for_card. apply bind_gets. destruct (find (fun x => x =? c) (mixer_list s)) as [m|] eqn:Hf.
  { eapply returns_mono; [apply IH|]. cbn beta. intros r s1 [H1 E1]. split; [done|]. intros Hr x [Hx|Hx]; [by apply E1; auto|].
    apply elem_of_cons in Hx as [->|Hx]; [|by apply E1; auto]. apply E1; [done|left].
    apply find_some in Hf as [Hf ->%Z.eqb_eq]. by apply list_elem_of_In. }
  eapply returns_bind; [apply open_mixer_spec|]. intros ok s1 [H1 E1].
  assert (forall v t, v <> 0 -> mixers_only s t -> returns (mixer_failed v) t (fun r s' => mixers_only s s' /\
    (r = 0 -> forall x, x ∈ mixer_list s \/ x ∈ c :: cards -> x ∈ mixer_list s'))) as Hfail.
  { intros v t Hv Ht. unfold mixer_failed. apply bind_modify, returns_ret. split; [|done].
    eapply mixers_trans; [exact Ht|]. by destruct t. }
  destruct ok; cbn [negb]; [|by apply Hfail]. eapply returns_bind; [apply syscall_mixers|]. intros ok s2 [H2 E2].
  assert (mixers_only s s2) as H02 by by eapply mixers_trans.
  destruct ok; cbn [negb]; [|by apply Hfail]. eapply returns_bind; [apply calloc_grows|]. intros p s3 [[H3 E3]%grown_mixers _].
  assert (mixers_only s s3) as H03 by by eapply mixers_trans.
  destruct p; [|by apply Hfail]. apply bind_modify. eapply returns_mono; [apply IH|]. cbn beta. intros r s4 [H4 E4]. split.
  - eapply mixers_trans; [exact H03|]. eapply mixers_trans; [|exact H4]. by destruct s3.
  - intros Hr x Hx. apply E4; [done|]. cbn. rewrite E3, E2, E1. destruct Hx as [Hx|Hx]; [left; by apply elem_of_app; left|].
    apply elem_of_cons in Hx as [->|Hx]; [left; apply elem_of_app; right; by apply list_elem_of_singleton|by right].
Qed.

(** A device without streams. *)
Record blank (s : AudioSt) : Prop := {
  bl_outs : outs s = ∅;
  bl_ins : ins s = ∅;
  bl_list : usecase_list s = [];
  bl_refs : snd_dev_ref_cnt s = replicate (Z.to_nat SND_DEVICE_MAX) 0;
  bl_call : in_call s = false;
  bl_primary : primary_output s = None;
  bl_active : active_input s = None;
  bl_lock : adev_lock s = false;
  bl_inputs : lock_inputs s = false
}.
Lemma blank_ok s : blank s -> SOUND_CARD ∈ mixer_list s -> hal_ok s.
Proof.
  intros [Eo Ei El Er Ec Ep Ea Eal Eil] Hcard. split; [|split; [done|done| |]; intros k x; [by rewrite Eo, lookup_empty|by rewrite Ei, lookup_empty]].
  assert (forall k o, outs s !! k = Some o -> False) as Ho by (intros k o; by rewrite Eo, lookup_empty).
  assert (forall k i, ins s !! k = Some i -> False) as Hi by (intros k i; by rewrite Ei, lookup_empty).
  split; try (intros k x Hx; exfalso; eauto; fail).
  - split; [split; [split| | | | |]|]; try (rewrite El; by constructor).
    + split; [rewrite El; split_and!; [by constructor..|done]|]. split; [by rewrite Er|]. intros d Hd. rewrite Er, El. unfold zlookup, valid_device in *.
      rewrite (proj2 (Z.leb_le 0 d)) by lia. apply lookup_replicate_2. unfold SND_DEVICE_MAX in *. lia.
    + rewrite El. intros type v w _ Hv. by apply elem_of_nil in Hv.
    + by rewrite Ep.
    + destruct (find _ _) as [x|] eqn:Hf; [by apply find_some in Hf as [_ ->%Z.eqb_eq]|].
      apply list_elem_of_In in Hcard. by apply (find_none _ _ Hf) in Hcard.
    + intros k o Hk. by destruct (Ho k o).
    + intros k i Hk. by destruct (Hi k i).
    + intros Hc. congruence.
  - intros j. by rewrite Ea.
  - intros k j o p Hk. by destruct (Ho k o).
  - intros k j [i Hk]. by destruct (Hi k i).
  - intros k [[o Hk]|[i Hk]]; [by destruct (Ho k o)|by destruct (Hi k i)].
Qed.

Lemma blank_mixers s s' : mixers_only s s' -> blank s -> blank s'.
Proof. intros E []. split; by rewrite E. Qed.
Lemma c_open env s :
  returns (adev_open env) s (fun r s' => r = 0 -> hal_ok s' /\ outs s' = ∅ /\ ins s' = ∅).
Proof.
  unfold adev_open. eapply returns_bind; [apply calloc_grows|]. intros p s1 _. destruct p; [|by apply returns_ret].
  apply bind_modify. eapply returns_bind; [apply calloc_grows|]. intros p s2 [[H2 _]%grown_mixers _]. destruct p; [|by apply returns_ret].
  apply bind_modify. set (s3 := set_field snd_dev_ref_cnt _ s2).
  assert (blank s3) as Hb3 by (unfold s3; rewrite H2; by split). clearbody s3.
  unfold mixer_init. apply bind_assoc, bind_modify, bind_assoc, bind_gets. set (s4 := set_field mixer_list _ s3).
  assert (blank s4) as Hb4 by (by destruct Hb3). clearbody s4.
  eapply returns_bind; [apply mixer_loop_spec|]. intros r s5 [H5 E5]. pose proof (blank_mixers _ _ H5 Hb4) as Hb5.
  destruct (Z.eqb_spec r 0) as [->|Hr]; cbn [negb]; [|by apply returns_ret].
  assert (SOUND_CARD ∈ mixer_list s5) as Hm5 by (apply E5; [done|]; right; apply list_elem_of_fmap; eexists; split; [|by left]; done).
  apply bind_modify. set (s6 := set_field offload_fx _ s5).
  assert (blank s6 /\ SOUND_CARD ∈ mixer_list s6) as [Hb6 Hm6] by (split; [by destruct Hb5|done]). clearbody s6.
  eapply (returns_bind _ _ _ (fun _ s' => blank s' /\ SOUND_CARD ∈ mixer_list s')).
  { unfold voice_session_init. eapply returns_bind; [apply calloc_grows|]. intros p s7 [[H7 E7]%grown_mixers _].
    assert (blank s7 /\ SOUND_CARD ∈ mixer_list s7) as [Hb7 Hm7] by (split; [by eapply blank_mixers|by rewrite E7]).
    destruct p; [|by apply returns_ret]. destruct (negb _); [by apply returns_ret|]. destruct (_ && _)%bool; [by apply returns_ret|].
    apply bind_modify, returns_ret. split; [by destruct Hb7|done]. }
  intros ok s7 [Hb7 Hm7]. destruct ok; cbn [negb]; [|by apply returns_ret]. apply bind_modify. set (s8 := set_field amp _ s7).
  assert (blank s8 /\ SOUND_CARD ∈ mixer_list s8) as [Hb8 Hm8] by (split; [by destruct Hb7|done]). clearbody s8.
  eapply (returns_bind _ _ _ (fun _ s' => blank s' /\ SOUND_CARD ∈ mixer_list s')).
  { destruct (env_period env); [|by apply returns_ret]. unfold set_period.
    destruct (period_size_is_plausible_for_low_latency _); [|by apply returns_ret]. apply returns_modify. split; [by destruct Hb8|done]. }
  intros ? s9 [Hb9 Hm9]. apply returns_ret. intros _. split; [by apply blank_ok|]. by destruct Hb9.
Qed.

(** ** Any sequence of calls *)
Inductive hal_op :=
| OpenOutput (devices flags sample_rate : Z) (info : offload_request)
| CloseOutput (k : nat)
| OutStandby (k : nat)
| OutSetParameters (k : nat) (routing delay padding : option Z)
| OutWrite (k : nat) (bytes : Z)
| OpenInput (devices sample_rate format channel_mask flags source : Z)
| CloseInput (k : nat)
| InStandby (k : nat)
| InSetParameters (k : nat) (source routing : option Z)
| InRead (k : nat) (processed : bool)
| InAddEffect (k fx : nat)
| InRemoveEffect (k fx : nat)
| SetVoiceVolume
| SetMode (m : Z)
| SetMicMute (b : bool)
| SetParameters (nrec wb screen : option bool)
| WbAmr (amr : Z).

Definition exec (op : hal_op) : A unit :=
  match op with
  | OpenOutput devices flags rate info => let* _r := adev_open_output_stream devices flags rate info in ret tt
  | CloseOutput k => adev_close_output_stream k
  | OutStandby k => let* _r := out_standby_op k in ret tt
  | OutSetParameters k routing delay padding => let* _r := out_set_parameters k routing delay padding in ret tt
  | OutWrite k bytes => let* _r := out_write k bytes in ret tt
  | OpenInput devices rate format mask flags source =>
      let* _r := adev_open_input_stream devices rate format mask flags source in ret tt
  | CloseInput k => adev_close_input_stream k
  | InStandby k => let* _r := in_standby_op k in ret tt
  | InSetParameters k source routing => let* _r := in_set_parameters k source routing in ret tt
  | InRead k processed => in_read k processed
  | InAddEffect k fx => let* _r := in_add_audio_effect k fx in ret tt
  | InRemoveEffect k fx => let* _r := in_remove_audio_effect k fx in ret tt
  | SetVoiceVolume => let* _r := adev_set_voice_volume in ret tt
  | SetMode m => let* _r := adev_set_mode m in ret tt
  | SetMicMute b => let* _r := adev_set_mic_mute b in ret tt
  | SetParameters nrec wb screen => let* _r := adev_set_parameters nrec wb screen in ret tt
  | WbAmr amr => voice_session_wb_amr_callback amr
  end.

(** An open output that is not offloaded. *)
Definition plain_output (k : nat) (s : AudioSt) : Prop :=
  exists o, outs s !! k = Some o /\ out_usecase o <> USECASE_AUDIO_PLAYBACK_OFFLOAD.
(** The calls that the theorems are about.

    Rules of use: a stream is used while it is open; the primary output is not closed, and
    during a call it is only sent to devices a call can be on; the modem's callback ([WbAmr])
    comes in a call only when the call can be started again.

    Left out, since the code does not keep its own invariants there (AudioFindings.v): a
    second open output with the use case of the first, or a second recording; to write to,
    to route and to close an offloaded output; a resampler that is not created or fails; effects
    that report more configurations than they were asked for, memory that runs out while one is
    added, and a fourth effect on a recording. *)
Definition allowed (s : AudioSt) (op : hal_op) : Prop :=
  match op with
  | OpenOutput _ flags _ _ => can_open flags s
  | CloseOutput k => plain_output k s /\ primary_output s <> Some k
  | OutStandby k => live_out k s
  | OutSetParameters k routing _ _ => plain_output k s /\
      forall v, routing = Some v -> mode s = AUDIO_MODE_IN_CALL -> primary_output s = Some k -> call_device (u32 v) = true
  | OutWrite k _ => plain_output k s
  | OpenInput _ _ _ _ _ _ => forall j, ~ live_in j s
  | CloseInput k | InStandby k | InSetParameters k _ _ | InRemoveEffect k _ => live_in k s
  | InAddEffect k _ => live_in k s /\ effects_behave /\ room_for_effect k s
  | InRead k _ => live_in k s /\ forall n, resampler_status n = 0
  | SetVoiceVolume | SetMode _ | SetMicMute _ | SetParameters _ _ _ => True
  | WbAmr _ => in_call s = true -> can_call s
  end.

Lemma exec_ok s op : hal_ok s -> allowed s op -> returns (exec op) s (fun _ s' => hal_ok s').
Proof.
  assert (forall {B} (m : A B) (P : B -> AudioSt -> Prop), returns m s P -> (forall r s', P r s' -> hal_ok s') ->
    returns (let* _r := m in ret tt) s (fun _ s' => hal_ok s')) as Hthen.
  { intros B m P Hm HP. eapply returns_bind; [exact Hm|]. intros r s' Hr. apply returns_ret. by eapply HP. }
  intros Hok Hal. destruct op; cbn [allowed exec] in *.
  - eapply Hthen; [by apply c_open_output|]. by intros ? ? [].
  - destruct Hal as [(o & Ho & Hoff) Hp]. eapply returns_mono; [by eapply c_close_output|]. by intros ? ? [].
  - eapply Hthen; [by apply c_out_standby|]. by intros ? ? [].
  - destruct Hal as [(o & Ho & Hoff) Hcall]. eapply Hthen; [by eapply c_out_set_parameters|]. by intros ? ? [].
  - destruct Hal as (o & Ho & Hoff). eapply Hthen; [by eapply c_out_write|]. by intros ? ? [].
  - eapply Hthen; [by apply c_open_input|]. by intros ? ? [].
  - eapply returns_mono; [by apply c_close_input|]. by intros ? ? [].
  - eapply Hthen; [by apply c_in_standby|]. by intros ? ? [].
  - eapply Hthen; [by apply c_in_set_parameters|]. by intros ? ? [].
  - destruct Hal. by apply c_in_read.
  - destruct Hal as (Hk & Hb & Hr). eapply Hthen; [by apply c_add_remove_effect|]. by intros ? ?.
  - eapply Hthen; [by apply c_add_remove_effect|]. by intros ? ?.
  - eapply Hthen; [by apply c_set_voice_volume|]. by intros ? ? [].
  - eapply Hthen; [by apply c_set_mode|]. by intros ? ? [].
  - eapply Hthen; [by apply c_set_mic_mute|]. by intros ? ? [].
  - eapply Hthen; [by apply c_set_parameters|]. by intros ? ?.
  - by apply c_wb_amr.
Qed.

Inductive hal_reachable : AudioSt -> Prop :=
| HalOpened env s0 s : adev_open env s0 = Done 0 s -> hal_reachable s
| HalCalled s op s' : hal_reachable s -> allowed s op -> exec op s = Done tt s' -> hal_reachable s'.
Lemma hal_reachable_ok s : hal_reachable s -> hal_ok s.
Proof.
  induction 1 as [env s0 s Hs|s op s' _ IH Hal Hs].
  - destruct (c_open env s0) as (r & s' & Hr & H). rewrite Hs in Hr. injection Hr as <- <-. by apply H.
  - destruct (exec_ok s op IH Hal) as ([] & s1 & Hr & H). rewrite Hs in Hr. by injection Hr as <-.
Qed.
End run.
