(* ===== verification/AudioHalProps.v ===== *)
(** * What the audio HAL guarantees

    The properties of the HAL, on any sequence of calls; and an instance of the platform on
    which they are tried, with the behaviours outside of what the framework keeps to. *)
From S2P Require Import Prelude Machine AudioTypes AudioVoice AudioRoute AudioRouteInv AudioSelect AudioStreams AudioDevice AudioQuiet AudioPaths AudioHal AudioEffects AudioHalInv AudioHalOps AudioHalCalls AudioHalDev AudioPreproc AudioHalOpen AudioHalRun.

(** ** A platform *)
Definition android_audio : AudioApi := {|
  AUDIO_DEVICE_OUT_EARPIECE := 0x1; AUDIO_DEVICE_OUT_SPEAKER := 0x2;
  AUDIO_DEVICE_OUT_WIRED_HEADSET := 0x4; AUDIO_DEVICE_OUT_WIRED_HEADPHONE := 0x8;
  AUDIO_DEVICE_OUT_BLUETOOTH_SCO := 0x10; AUDIO_DEVICE_OUT_BLUETOOTH_SCO_HEADSET := 0x20;
  AUDIO_DEVICE_OUT_BLUETOOTH_SCO_CARKIT := 0x40; AUDIO_DEVICE_OUT_ALL_SCO := 0x70;
  AUDIO_DEVICE_BIT_IN := 0x80000000; AUDIO_DEVICE_IN_COMMUNICATION := 0x80000001;
  AUDIO_DEVICE_IN_BUILTIN_MIC := 0x80000004; AUDIO_DEVICE_IN_BLUETOOTH_SCO_HEADSET := 0x80000008;
  AUDIO_DEVICE_IN_WIRED_HEADSET := 0x80000010; AUDIO_DEVICE_IN_AUX_DIGITAL := 0x80000020;
  AUDIO_DEVICE_IN_VOICE_CALL := 0x80000040; AUDIO_DEVICE_IN_BACK_MIC := 0x80000080;
  AUDIO_OUTPUT_FLAG_PRIMARY := 0x2; AUDIO_OUTPUT_FLAG_DEEP_BUFFER := 0x8;
  AUDIO_OUTPUT_FLAG_COMPRESS_OFFLOAD := 0x10; AUDIO_OUTPUT_FLAG_NON_BLOCKING := 0x20;
  AUDIO_INPUT_FLAG_FAST := 0x1;
  AUDIO_SOURCE_DEFAULT := 0; AUDIO_SOURCE_MIC := 1; AUDIO_SOURCE_CAMCORDER := 5;
  AUDIO_SOURCE_VOICE_RECOGNITION := 6; AUDIO_SOURCE_VOICE_COMMUNICATION := 7;
  AUDIO_MODE_NORMAL := 0; AUDIO_MODE_IN_CALL := 2; AUDIO_MODE_IN_COMMUNICATION := 3;
  AUDIO_FORMAT_PCM_16_BIT := 1; AUDIO_FORMAT_MP3 := 0x1000000; AUDIO_FORMAT_AAC := 0x4000000;
  AUDIO_FORMAT_MAIN_MASK := 0xFF000000;
  AUDIO_CHANNEL_IN_FRONT := 0x10; AUDIO_CHANNEL_IN_BACK := 0x20;
  AUDIO_CHANNEL_IN_STEREO := 0xC; AUDIO_CHANNEL_IN_RIGHT := 0x8;
  audio_channel_count_from_in_mask := fun m => popcount m;
  audio_bytes_per_sample := fun f => if f =? 1 then 2 else 1
|}.
(** A system on which every call succeeds, but for [pcm_open], [create_resampler] and the
    number of bytes [compress_write] takes. *)
Definition hardware (pcm : open_answer) (resampler : Z) : AudioHw := {|
  calloc_ok := fun _ => true;
  pcm_answer := fun _ => pcm;
  status := fun _ => 0;
  resampler_status := fun _ => resampler;
  mixer_ok := fun _ => true;
  route_ok := fun _ => true;
  written_bytes := fun _ b => b;
  fx_is_aec := fun fx => (fx =? 1)%nat;
  fx_has_reverse := fun fx => (fx =? 1)%nat;
  fx_supported := fun _ => (0, 0, [])
|}.
Definition no_junk : Memory := {|
  junk := fun _ => mkIn false (mkConfig 0 0 0 0) [] true 0 0 0 0 false 0 None false None false 0 0 []
|}.
Definition system : environment := mkEnv true true (Some 0) true true false None.
Definition powered_off : AudioSt :=
  mkAudio 0 None None false false None None false false false false (mkSession None None 0 false false 0) [] [] [] None 0
    false false 256 240 false false ∅ ∅ 1 0 [].

#[export] Existing Instances android_audio no_junk.

(** The device opened, then a list of calls. *)
Section demo.
Context `{HW : AudioHw}.
Fixpoint calls (ops : list hal_op) : A unit :=
  match ops with [] => ret tt | op :: ops => exec op ;;; calls ops end.
Definition used (ops : list hal_op) : outcome AudioSt unit := (let* _r := adev_open system in calls ops) powered_off.
(** The state reached, if it is. *)
Definition state_of (o : outcome AudioSt unit) : AudioSt := match o with Done _ s => s | _ => powered_off end.
Definition stuck (o : outcome AudioSt unit) : bool := match o with Blocked _ _ _ => true | _ => false end.
End demo.
Definition no_offload : offload_request := mkOffload false 0 0.
Definition mp3 : offload_request := mkOffload true 0x1000000 44100.
Definition speaker_output : hal_op := OpenOutput 0x2 0x2 48000 no_offload.
Definition microphone : hal_op := OpenInput 0x80000004 44100 1 1 0 1.
Definition good : AudioHw := hardware OpenReady 0.

(** ** The properties *)
Section properties.
Context `{API : AudioApi} `{HW : AudioHw} `{MEM : Memory}.

(** The parameters a recording may have. *)
Lemma input_parameters rate format channels :
  check_input_parameters rate format channels = 0 -> 1 <= channels <= 2 /\ 8000 <= rate <= 48000.
Proof.
  unfold check_input_parameters. destruct (negb _); [done|]. destruct (Z.ltb_spec channels 1), (Z.ltb_spec 2 channels); try done.
  cbn [orb]. case_bool_decide as Hr; [|done]. intros _. split; [lia|]. repeat (apply elem_of_cons in Hr as [->|Hr]; [lia|]).
  by apply elem_of_nil in Hr.
Qed.
Lemma groups_of_16 n : 0 <= n -> let g := (n + 15) / 16 * 16 in g mod 16 = 0 /\ n <= g < n + 16.
Proof. intros Hn g. unfold g. rewrite Z.mod_mul by done. pose proof (Z.div_mod (n + 15) 16). pose proof (Z.mod_pos_bound (n + 15) 16). lia. Qed.

(** C32: after any sequence of the calls of [allowed] on the opened device (streams are used while
    they are open, one output for each use case and one recording, an offloaded output is not
    written, routed or closed, resampler and effects do their work), the device is consistent and
    every lock is free; and every call that is
    allowed returns, to such a device again: none blocks on a lock, touches a freed stream or
    aborts. *)
Theorem hal_never_stuck s :
  hal_reachable s ->
  hal_ok s /\ forall op, allowed s op -> exists s', exec op s = Done tt s' /\ hal_ok s'.
Proof.
  intros Hr%hal_reachable_ok. split; [done|]. intros op Hal. destruct (exec_ok s op Hr Hal) as ([] & s' & Hs & Hok). by exists s'.
Qed.

(** C33: after any sequence of the calls of [allowed] on the opened device, the reference count of
    every sound device is
    exactly the number of its uses by the active use cases, no use case is active twice, and
    the use cases of one direction that have a device share it.  The rules of [allowed] are needed:
    with two open outputs of one use case ([same_usecase_twice]), a resampler that cannot be
    created ([failed_resampler_adds_usecase]) or an offloaded output that is written after a flush
    ([flushed_offload_enabled_twice]) the code does not keep this. *)
Theorem sound_device_counts_exact s :
  hal_reachable s ->
  (forall d, valid_device d -> zlookup (snd_dev_ref_cnt s) d = Some (demand (usecase_list s) d)) /\
  NoDup (uc_id <$> usecase_list s) /\ one_backend (usecase_list s).
Proof.
  intros [Hc _]%hal_reachable_ok. pose proof (dev_core s (proj1 (hc_dev s Hc))) as Hd.
  destruct (ok_refs s Hd) as [(_ & Hni & _) [_ Hr]]. split_and!; [exact Hr|exact Hni|apply Hd].
Qed.

(** C34: after any sequence of the calls of [allowed] on the opened device, the use cases are typed:
    a playback or a call refers to an output stream, a
    recording to an input stream, and the stream exists; the output a use case plays on is no
    device or an output, its input no device or a microphone, both with a name in the table
    of paths, and a playback has no microphone and a recording no output.  The rules of [allowed]
    leave out a resampler that cannot be created: then the use case of the recording stays
    active with a stream in standby, and closing the stream leaves it without one.  They leave out
    writing, routing and closing an offloaded output as well. *)
Theorem usecases_typed s u :
  hal_reachable s -> u ∈ usecase_list s ->
  sound_out (uc_out u) /\ sound_in (uc_in u) /\
  is_Some (get_snd_device_name (uc_out u)) /\ is_Some (get_snd_device_name (uc_in u)) /\
  match uc_stream u with
  | OutStream k => is_Some (outs s !! k) /\ (uc_type u = PCM_PLAYBACK /\ uc_in u = SND_DEVICE_NONE \/ uc_type u = VOICE_CALL)
  | InStream k => is_Some (ins s !! k) /\ uc_type u = PCM_CAPTURE /\ uc_out u = SND_DEVICE_NONE
  end.
Proof.
  intros [Hc _]%hal_reachable_ok Hu. pose proof (dev_core s (proj1 (hc_dev s Hc))) as Hd.
  destruct (ok_refs s Hd) as [(_ & _ & Hv & _) _]. pose proof (ok_ucs s Hd) as Hw.
  rewrite Forall_forall in Hv. rewrite Forall_forall in Hw. destruct (Hv u Hu) as [Ho Hi].
  destruct (device_name _ (sound_out_valid _ Ho)) as [no Hno], (device_name _ (sound_in_valid _ Hi)) as [ni Hni].
  split_and!; [done..|by exists no|by exists ni|].
  destruct (Hw u Hu) as [(? & ? & _ & k & o & -> & ? & _)|[(? & ? & _ & k & i & -> & ? & _)|(? & _ & _ & k & o & -> & ? & _)]];
    split_and!; eauto.
Qed.

(** C36: starting an output that is not paused and whose use case is not active always returns; on success its use
    case has joined the active ones, on any error (no memory, a PCM or compressed device that
    does not open) they are the same as before, and in both cases the reference counts are
    exact. *)
Theorem start_output_stream_all_or_nothing k o s :
  device_ok s -> outs s !! k = Some o -> (forall u, u ∈ usecase_list s -> uc_id u <> out_usecase o) ->
  is_paused o = false ->
  exists r s', start_output_stream k s = Done r s' /\ device_ok s' /\ in_call s' = in_call s /\
    uc_id <$> usecase_list s' = (uc_id <$> usecase_list s) ++ (if r =? 0 then [out_usecase o] else []).
Proof.
  intros Hd Ho Hu Hp. destruct (start_output_spec k o s Hd Ho Hu Hp) as (r & s' & Hr & Hd' & _ & Hc & Hl).
  exists r, s'. split_and!; [done..|]. destruct (r =? 0); [exact Hl|by rewrite app_nil_r].
Qed.

(** C37: the size of the buffer of a recording is that of the least whole number of groups of
    16 frames that holds one period of the capture device, resampled to the rate asked for,
    rounded down to whole frames; an unsupported request has size 0. *)
Theorem get_input_buffer_size_frames s sample_rate format channel_count usecase_type devices p :
  get_pcm_device s usecase_type devices = Some p -> 0 <= period_size (pp_config p) < 65536 -> 0 < rate (pp_config p) ->
  0 <= audio_bytes_per_sample format <= 8 ->
  let size := get_input_buffer_size s sample_rate format channel_count usecase_type devices in
  if check_input_parameters sample_rate format channel_count =? 0 then
    exists frames, size = frames * channel_count * audio_bytes_per_sample format /\ frames mod 16 = 0 /\
      period_size (pp_config p) * sample_rate / rate (pp_config p) <= frames
        < period_size (pp_config p) * sample_rate / rate (pp_config p) + 16
  else size = 0.
Proof.
  intros Hp Hper Hrate Hbytes size. unfold size, get_input_buffer_size.
  destruct (Z.eqb_spec (check_input_parameters sample_rate format channel_count) 0) as [Hc|]; cbn [negb]; [|done]. rewrite Hp.
  destruct (input_parameters _ _ _ Hc) as [Hch Hsr]. set (n := period_size (pp_config p) * sample_rate).
  assert (0 <= n < 2 ^ 32) as Hn by (unfold n; nia). unfold u32, u64, wrapu. rewrite (Z.mod_small n) by lia.
  assert (0 <= n / rate (pp_config p) <= n) as Hq by (split; [apply Z.div_pos; lia|apply Z.div_le_upper_bound; nia]).
  destruct (groups_of_16 (n / rate (pp_config p))) as [Hm Hg]; [lia|]. set (g := (_ + 15) / 16 * 16) in *.
  exists g. split; [|by split]. apply Z.mod_small. clearbody g n.
  assert (0 <= g * channel_count <= 2 * g) by nia. set (h := g * channel_count) in *.
  assert (0 <= h * audio_bytes_per_sample format <= 8 * h) by nia. lia.
Qed.
End properties.

(** ** The properties on the platform *)
Ltac computes := vm_compute; reflexivity.
#[local] Instance good_hw : AudioHw := good.

Definition playing : AudioSt := state_of (used [speaker_output; OutWrite 5 1024]).
Lemma playing_reachable : hal_reachable playing.
Proof.
  assert (hal_reachable (state_of (used []))) as H0 by (apply (HalOpened system powered_off); computes).
  assert (hal_reachable (state_of (used [speaker_output]))) as H1.
  { apply (HalCalled (state_of (used [])) speaker_output); [done| |computes]. intros j q.
    assert (outs (state_of (used [])) = ∅) as -> by computes. by rewrite lookup_empty. }
  apply (HalCalled (state_of (used [speaker_output])) (OutWrite 5 1024)); [done| |computes].
  eexists. split; [computes|]. vm_compute. lia.
Qed.

Lemma hal_never_stuck_witness :
  hal_reachable playing /\ uc_id <$> usecase_list playing = [USECASE_AUDIO_PLAYBACK] /\
  hal_ok playing /\ exists s', exec (SetMode 2) playing = Done tt s' /\ hal_ok s'.
Proof.
  split; [exact playing_reachable|]. split; [computes|].
  destruct (hal_never_stuck playing playing_reachable) as [H Hop]. split; [exact H|]. by apply (Hop (SetMode 2)).
Defined.
Lemma sound_device_counts_exact_witness :
  hal_reachable playing /\ zlookup (snd_dev_ref_cnt playing) SND_DEVICE_OUT_SPEAKER = Some 1 /\ one_backend (usecase_list playing).
Proof.
  split; [exact playing_reachable|]. destruct (sound_device_counts_exact playing playing_reachable) as (H & _ & Hb).
  split; [|exact Hb]. rewrite (H SND_DEVICE_OUT_SPEAKER) by (unfold valid_device; vm_compute; intuition congruence). computes.
Defined.
Lemma usecases_typed_witness :
  exists u, u ∈ usecase_list playing /\ uc_out u = SND_DEVICE_OUT_SPEAKER /\ uc_in u = SND_DEVICE_NONE /\ sound_out (uc_out u).
Proof.
  assert (exists u, usecase_list playing = [u] /\ uc_out u = SND_DEVICE_OUT_SPEAKER /\ uc_in u = SND_DEVICE_NONE) as (u & E & Ho & Hi)
    by (eexists; split; [computes|by split]).
  assert (u ∈ usecase_list playing) as Hu by (rewrite E; by left).
  exists u. split; [exact Hu|]. split; [exact Ho|]. split; [exact Hi|]. exact (proj1 (usecases_typed playing u playing_reachable Hu)).
Defined.

(** A codec whose PCM never becomes ready. *)
Definition opened_once : AudioSt := state_of (used [speaker_output]).
Lemma start_output_stream_all_or_nothing_witness :
  let hw := hardware OpenNotReady 0 in
  exists r s', start_output_stream (HW := hw) 5 opened_once = Done r s' /\ r = - EIO /\ usecase_list s' = [].
Proof.
  assert (hal_reachable opened_once) as Hr.
  { apply (HalCalled (state_of (used [])) speaker_output); [apply (HalOpened system powered_off); computes| |computes]. intros j q.
    assert (outs (state_of (used [])) = ∅) as -> by computes. by rewrite lookup_empty. }
  intros hw. assert (outs opened_once !! 5%nat = Some (default (new_out 0 0 0) (outs opened_once !! 5%nat))) as Ho by computes.
  assert (usecase_list opened_once = []) as El by computes.
  destruct (start_output_stream_all_or_nothing (HW := hw) 5 _ opened_once (hc_dev _ (proj1 (hal_reachable_ok _ Hr))) Ho) as (r & s' & Hs & _ & _ & Hl).
  { intros u Hu. rewrite El in Hu. by apply elem_of_nil in Hu. }
  { computes. }
  exists r, s'. split; [exact Hs|]. rewrite El in Hl. assert (r = - EIO) as ->.
  { assert (match start_output_stream (HW := hw) 5 opened_once with Done r _ => r | _ => 0 end = - EIO) as E by computes. by rewrite Hs in E. }
  split; [done|]. by apply fmap_nil_inv in Hl.
Defined.
Lemma get_input_buffer_size_frames_witness :
  get_input_buffer_size powered_off 44100 1 2 PCM_CAPTURE AUDIO_DEVICE_IN_BUILTIN_MIC = 944 * 2 * 2.
Proof.
  assert (Hp : get_pcm_device powered_off PCM_CAPTURE AUDIO_DEVICE_IN_BUILTIN_MIC = Some pcm_device_capture) by computes.
  pose proof (get_input_buffer_size_frames powered_off 44100 1 2 PCM_CAPTURE _ _ Hp) as H.
  destruct H as (frames & -> & Hm & Hf); [cbn; lia|cbn; lia|cbn; lia|].
  assert (940 <= frames < 956) as Hr by exact Hf. f_equal. f_equal.
  pose proof (Z.div_mod frames 16 ltac:(done)). lia.
Defined.
