(* ===== verification/AudioFindings.v ===== *)
(** * Where the audio HAL goes wrong

    Runs of the HAL, on the platform of AudioHalProps, in which the code does not do what it
    means to: each shows the calls and the state they lead to. *)
From S2P Require Import Prelude Machine AudioTypes AudioVoice AudioRoute AudioStreams AudioHal AudioPreproc AudioHalRun AudioHalProps.

#[local] Instance ready_hw : AudioHw := good.
Definition active (s : AudioSt) : list Z := uc_id <$> usecase_list s.
Definition offloaded : hal_op := OpenOutput 0x2 0x10 44100 mp3.

(** A compressed stream written while a recording is active keeps the lock of the inputs:
    the next call on any input waits for ever. *)
Lemma offload_write_keeps_lock_inputs :
  let calls := [microphone; InRead 5 true; offloaded; OutWrite 10 1000] in
  lock_inputs (state_of (used calls)) = true /\ stuck (used (calls ++ [InStandby 5])) = true.
Proof. vm_compute. done. Qed.

(** Two outputs of the same kind, opened before either plays, are both active under the same
    use case. *)
Lemma same_usecase_twice :
  let out := OpenOutput 0x2 0 48000 no_offload in
  active (state_of (used [out; out; OutWrite 5 1024; OutWrite 6 1024])) = [USECASE_AUDIO_PLAYBACK; USECASE_AUDIO_PLAYBACK].
Proof. vm_compute. done. Qed.

(** Opening the primary output fails when its use case is active, and the freed stream
    remains the primary output; in a call, setting the volume of another stream reads it. *)
Lemma failed_open_leaves_primary :
  let s := state_of (used [OpenOutput 0x2 0 48000 no_offload; OutWrite 5 1024; OpenOutput 0x2 0x2 48000 no_offload]) in
  exists k, primary_output s = Some k /\ outs s !! k = None.
Proof. vm_compute. by eexists. Qed.
Lemma closed_primary_dangles :
  let s := state_of (used [speaker_output; CloseOutput 5]) in primary_output s = Some 5%nat /\ outs s !! 5%nat = None.
Proof. vm_compute. done. Qed.

(** When the resampler cannot be created the recording is an error, but its use case stays;
    the next read adds it again. *)
Lemma failed_resampler_adds_usecase :
  let hw := hardware OpenReady (- EINVAL) in
  active (state_of (used (HW := hw) [microphone; InRead 5 true; InRead 5 true])) = [USECASE_AUDIO_CAPTURE; USECASE_AUDIO_CAPTURE].
Proof. vm_compute. done. Qed.

(** The receiving PCM of a call that does not become ready stays in the session, where the
    error path closes the transmitting one: no later call opens it again, and the start of
    the call counts as a success. *)
Lemma voice_rx_not_ready_kept :
  let hw := hardware OpenNotReady 0 in
  let s := state_of (used (HW := hw) [speaker_output; SetMode 2; OutSetParameters 5 (Some 1) None None]) in
  pcm_voice_rx (session s) = Some 7%nat /\ in_call s = true /\
  exists s', start_voice_session (HW := hw) s = Done 0 s' /\ pcm_voice_rx (session s') = Some 7%nat.
Proof. vm_compute. split_and!; [done|done|]. eexists. done. Qed.

(** Leaving a call for a voice-over-IP session does not end the call. *)
Lemma communication_keeps_call :
  in_call (state_of (used [speaker_output; SetMode 2; OutSetParameters 5 (Some 1) None None; SetMode 3])) = true.
Proof. vm_compute. done. Qed.

(** The amplifier takes the earpiece for an input. *)
Lemma amplifier_earpiece_is_input s :
  amp s = true ->
  amplifier_enable_devices SND_DEVICE_OUT_EARPIECE true s = Done tt (s<|hw_log ::= fun l => l ++ [AmpEnableInput SND_DEVICE_OUT_EARPIECE true]|>).
Proof. intros Ha. unfold amplifier_enable_devices, bind, gets. cbn [obind]. by rewrite Ha. Qed.

(** A PCM that does not become ready is not closed. *)
Lemma playback_pcm_not_closed :
  let hw := hardware OpenNotReady 0 in
  let s := state_of (used (HW := hw) [speaker_output; OutWrite 5 1024]) in
  hw_log s = [RouteApply 0 "speaker"; PcmOpen 0 4 (mkConfig 2 48000 256 2); FxStop 5; RouteReset 0 "speaker"]%string.
Proof. vm_compute. done. Qed.

(** Without the library of effects, the state of a paused and flushed stream survives its
    standby: written again, its path is enabled twice. *)
Definition no_effects : environment := mkEnv true true (Some 0) true false false None.
Lemma flushed_offload_enabled_twice :
  active (state_of ((let* _r := adev_open no_effects in
    exec offloaded ;;; exec (OutWrite 5 1000) ;;; let* _r := out_pause 5 in let* _r := out_flush 5 in
    exec (OutStandby 5) ;;; exec (OutWrite 5 1000)) powered_off))
  = [USECASE_AUDIO_PLAYBACK_OFFLOAD; USECASE_AUDIO_PLAYBACK_OFFLOAD].
Proof. vm_compute. done. Qed.

(** Opening a second compressed stream while one plays fails, and the thread made for it is
    left with the freed stream: [out_thread] goes with it, no exit command was sent. *)
Lemma second_offload_exists :
  exists s, adev_open_output_stream 0x2 0x10 44100 mp3 (state_of (used [offloaded; OutWrite 5 1000])) = Done (- EEXIST, None) s.
Proof. vm_compute. by eexists. Qed.

(** The fourth effect is written behind the array of three. *)
Definition out_of_bounds (o : outcome AudioSt unit) : bool := match o with Fault OutOfBounds => true | _ => false end.
Lemma fourth_effect_out_of_bounds :
  out_of_bounds (used [microphone; InAddEffect 5 2; InAddEffect 5 3; InAddEffect 5 4; InAddEffect 5 6]) = true.
Proof. vm_compute. done. Qed.
(** A mono recording started after an effect was added is configured for one channel, and its
    PCM, which still gives two, does not know; removing the effect changes neither. *)
Lemma effect_leaves_one_channel :
  let s := state_of (used [microphone; InAddEffect 5 2; InRead 5 true; InRemoveEffect 5 2]) in
  (channels ∘ in_config <$> (ins s !! 5%nat)) = Some 1 /\ (in_standby <$> (ins s !! 5%nat)) = Some false /\
  channels (pp_config pcm_device_capture) = 2.
Proof. vm_compute. done. Qed.
