(* ===== verification/AudioCapture.v ===== *)
(** * The samples of a recording

    Models the path of the samples in [src/audio/audio_hw.c]: [get_capture_delay] to
    [push_echo_reference] and [read_and_process_frames] to [read_frames].  The PCM gives
    frames of its own number of channels; a frame goes through the buffer [read_buf] of one
    period, the resampler, the effects ([proc_buf_in] and [proc_buf_out]), and loses the
    channels that only the effects need.  The buffers are memory in samples of 16 bits, a
    pointer is a buffer and an offset; reading or writing outside of a buffer, through NULL,
    or copying between areas that overlap is a fault.  The PCM, the resampler, the effects
    and the echo reference are the interface [CaptureHw]. *)
From S2P Require Import Prelude Machine AudioTypes.

(** A sample, unless the memory was never written. *)
Abbreviation cell := (option Z).
Inductive region := Client | ReadBuf | ProcIn | ProcOut | RefBuf.
#[export] Instance region_eq_dec : EqDecision region.
Proof. solve_decision. Defined.
(** A pointer that is not NULL. *)
Definition pointer : Type := region * Z.

(** The fields of [struct stream_in] on the path; [pcm] is the first device of
    [pcm_dev_list] (none if the list is empty), with the channels of its open PCM (none if
    it is NULL). *)
Record capture := mkCapture {
  cap_pcm : option (option Z);
  cap_channels : Z;                     (* [config.channels] *)
  cap_rate : Z;
  cap_period : Z;                       (* [config.period_size] *)
  cap_requested_rate : Z;
  cap_main : Z;                         (* channels of the mask [main_channels] *)
  cap_resampler : bool;
  cap_read_status : Z;
  cap_read_buf : option (list cell);
  cap_read_buf_size : Z;
  cap_read_buf_frames : Z;
  cap_proc_in : option (list cell);
  cap_proc_out : option (list cell);
  cap_proc_size : Z;
  cap_proc_frames : Z;
  cap_effects : list nat;               (* [preprocessors], the first [num_preprocessors] *)
  cap_echo : bool;                      (* there is an echo reference *)
  cap_ref_buf : option (list cell);
  cap_ref_size : Z;
  cap_ref_frames : Z;
  cap_client : option (list cell);      (* the buffer of [in_read] *)
  cap_calls : nat;                      (* calls answered by the system so far *)
  cap_taken : Z                         (* frames the PCM has given so far *)
}.
#[export] Instance capture_eta : RecEta capture := fun c =>
  mkCapture (cap_pcm c) (cap_channels c) (cap_rate c) (cap_period c) (cap_requested_rate c) (cap_main c) (cap_resampler c)
    (cap_read_status c) (cap_read_buf c) (cap_read_buf_size c) (cap_read_buf_frames c) (cap_proc_in c) (cap_proc_out c)
    (cap_proc_size c) (cap_proc_frames c) (cap_effects c) (cap_echo c) (cap_ref_buf c) (cap_ref_size c) (cap_ref_frames c)
    (cap_client c) (cap_calls c) (cap_taken c).

Abbreviation C := (M capture).

(** ** Memory *)
Definition block (r : region) (c : capture) : option (list cell) :=
  match r with
  | Client => cap_client c
  | ReadBuf => cap_read_buf c
  | ProcIn => cap_proc_in c
  | ProcOut => cap_proc_out c
  | RefBuf => cap_ref_buf c
  end.
Definition set_block (r : region) (b : option (list cell)) (c : capture) : capture :=
  match r with
  | Client => c<|cap_client := b|>
  | ReadBuf => c<|cap_read_buf := b|>
  | ProcIn => c<|cap_proc_in := b|>
  | ProcOut => c<|cap_proc_out := b|>
  | RefBuf => c<|cap_ref_buf := b|>
  end.
Definition window (o n : Z) (l : list cell) : list cell := take (Z.to_nat n) (drop (Z.to_nat o) l).
Definition overwrite (o : Z) (d l : list cell) : list cell :=
  take (Z.to_nat o) l ++ d ++ drop (Z.to_nat o + length d) l.

Definition load (p : pointer) (n : Z) : C (list cell) :=
  if n <=? 0 then ret []
  else
    let* b := gets (block p.1) in
    let* l := deref NullDeref b in
    if ((0 <=? p.2) && (p.2 + n <=? zlength l))%bool then ret (window p.2 n l) else fail OutOfBounds.
Definition store (p : pointer) (d : list cell) : C unit :=
  if bool_decide (d = []) then ret tt
  else
    let* b := gets (block p.1) in
    let* l := deref NullDeref b in
    if ((0 <=? p.2) && (p.2 + zlength d <=? zlength l))%bool
    then modify (set_block p.1 (Some (overwrite p.2 d l))) else fail OutOfBounds.
Definition overlaps (p q : pointer) (n : Z) : bool :=
  bool_decide (p.1 = q.1) && (0 <? n) && (p.2 <? q.2 + n) && (q.2 <? p.2 + n).
(** [memcpy] of [n] samples. *)
Definition copy (dst src : pointer) (n : Z) : C unit :=
  if overlaps dst src n then fail Overlap
  else let* d := load src n in store dst d.
Definition shift (p : pointer) (n : Z) : pointer := (p.1, p.2 + n).

(** ** The libraries

    [frames_to_bytes] is [pcm_frames_to_bytes] for a PCM with that many channels;
    [sample f ch] the sample of channel [ch] in the [f]-th frame that the PCM gives.  The
    resampler asks for frames and gives them back through the two functions it is created
    with; [process] gets the input and the output with their numbers of frames and answers
    how many it consumed and produced. *)
Class CaptureHw := {
  frames_to_bytes : Z -> Z -> Z;
  sample : Z -> Z -> Z;
  read_answer : nat -> Z;
  realloc_ok : nat -> bool;
  resample : (Z -> C (option pointer * Z)) -> (Z -> C unit) -> pointer -> Z -> C Z;
  resampler_delay : Z;
  process : nat -> pointer * Z -> pointer * Z -> C (Z * Z);
  process_reverse : nat -> option (pointer * Z -> C Z);
  set_echo_delay : nat -> Z -> C unit;
  echo_read : pointer -> Z -> Z -> C (Z * Z);
  htimestamp : nat -> Z * Z
}.

Section capture.
Context `{CaptureHw}.

Definition call {B} (f : nat -> B) : C B := fun c => Done (f (cap_calls c)) c<|cap_calls ::= S|>.

(** [realloc] to [bytes]: the old contents as far as they fit. *)
Definition resize (n : Z) (b : option (list cell)) : list cell :=
  let old := take (Z.to_nat n) (default [] b) in old ++ replicate (Z.to_nat n - length old) None.
Definition realloc (r : region) (bytes : Z) : C unit :=
  let* ok := call realloc_ok in
  if (ok : bool) then modify (fun c => set_block r (Some (resize (bytes / 2) (block r c))) c)
  else modify (set_block r None).

(** The PCM of the first device: the list must not be empty, the PCM not NULL. *)
Definition first_pcm : C Z :=
  let* p := gets cap_pcm in
  let* p := deref NullDeref p in deref NullDeref p.

Definition pcm_frame (pc f : Z) : list cell := (fun ch => Some (sample f ch)) <$> seqZ 0 pc.
Definition frames_at (pc f n : Z) : list cell := concat (pcm_frame pc <$> seqZ f n).
(** [pcm_read]: 0 and all the samples, or an error. *)
Definition pcm_read (pc : Z) (dst : pointer) (bytes : Z) : C Z :=
  let* st := call read_answer in
  if st =? 0 then
    let* f := gets cap_taken in
    let n := bytes / 2 / pc in
    store dst (frames_at pc f n) ;;;
    modify (fun c => c<|cap_taken := f + n|>) ;;; ret 0
  else ret st.

(** ** The provider of frames *)

(** One period of the PCM into [read_buf]: whether it was read. *)
Definition fill_read_buf : C bool :=
  let* pc := first_pcm in
  let* period := gets cap_period in
  let bytes := frames_to_bytes pc period in
  let* size := gets cap_read_buf_size in
  (if size <? period then
     modify (fun c => c<|cap_read_buf_size := period|>) ;;; realloc ReadBuf bytes
   else ret tt) ;;;
  let* st := pcm_read pc (ReadBuf, 0) bytes in
  modify (fun c => c<|cap_read_status := st|>) ;;;
  if negb (st =? 0) then ret false
  else modify (fun c => c<|cap_read_buf_frames := period|>) ;;; ret true.
(** The frames wanted: where they are, none when there are none, and how many. *)
Definition get_next_buffer (frame_count : Z) : C (option pointer * Z) :=
  let* p := gets cap_pcm in
  match p with
  | None => modify (fun c => c<|cap_read_status := - ENODEV|>) ;;; ret (None, 0)
  | Some _ =>
      let* n := gets cap_read_buf_frames in
      let* ok := (if n =? 0 then fill_read_buf else ret true) in
      if negb ok then ret (None, 0)
      else
        let* c := get in
        let count := if cap_read_buf_frames c <? frame_count then cap_read_buf_frames c else frame_count in
        ret (Some (ReadBuf, (cap_period c - cap_read_buf_frames c) * cap_channels c), count)
  end.
Definition release_buffer (frame_count : Z) : C unit :=
  modify (fun c => c<|cap_read_buf_frames ::= fun n => u64 (n - frame_count)|>).

(** One round of the loop of [read_frames]: the frames it got. *)
Definition read_some (buffer : pointer) (pc frames_wr frames_rd : Z) : C Z :=
  let dst := shift buffer (frames_to_bytes pc frames_wr / 2) in
  let* rs := gets cap_resampler in
  if (rs : bool) then resample get_next_buffer release_buffer dst frames_rd
  else
    let* b := get_next_buffer frames_rd in
    match b.1 with
    | Some raw =>
        copy dst raw (frames_to_bytes pc b.2 / 2) ;;;
        release_buffer b.2 ;;; ret b.2
    | None => release_buffer b.2 ;;; ret frames_rd
    end.
Fixpoint read_loop (fuel : nat) (buffer : pointer) (frames frames_wr : Z) : C Z :=
  match fuel with
  | O => fail Diverges
  | S fuel =>
      if frames <=? frames_wr then ret frames_wr
      else
        let* pc := first_pcm in
        let* n := read_some buffer pc frames_wr (frames - frames_wr) in
        let* st := gets cap_read_status in
        if negb (st =? 0) then ret st else read_loop fuel buffer frames (frames_wr + n)
  end.
Definition read_frames (fuel : nat) (buffer : pointer) (frames : Z) : C Z :=
  let* p := gets cap_pcm in
  match p with
  | None => ret (- EINVAL)
  | Some _ => read_loop fuel buffer frames 0
  end.

(** ** The echo reference *)

(** How long ago the frames were recorded, in nanoseconds; [long] has 64 bits. *)
Definition get_capture_delay : C Z :=
  let* ans := call htimestamp in
  if ans.1 <? 0 then ret 0
  else
    let* c := get in
    let buf := cap_read_buf_frames c * 1000000000 / cap_rate c + cap_proc_frames c * 1000000000 / cap_requested_rate c in
    let rsmp := if cap_resampler c then resampler_delay else 0 in
    ret (s32 (ans.2 * 1000000000 / cap_rate c + buf + rsmp)).
Definition update_echo_reference (frames : Z) : C Z :=
  let* p := gets cap_pcm in
  match p with
  | None => ret 0
  | Some _ =>
      let* have := gets cap_ref_frames in
      if have <? frames then
        let* size := gets cap_ref_size in
        (if size <? frames then
           modify (fun c => c<|cap_ref_size := frames|>) ;;;
           let* pc := first_pcm in realloc RefBuf (frames_to_bytes pc frames)
         else ret tt) ;;;
        let* ch := gets cap_channels in
        let* delay := get_capture_delay in
        let* r := echo_read (RefBuf, have * ch) (frames - have) delay in
        (if r.1 =? 0 then modify (fun c => c<|cap_ref_frames := have + r.2|>) else ret tt) ;;;
        ret delay
      else ret 0
  end.
(** The effects in turn take from the reference; the last one decides how much. *)
Fixpoint reverse_all (l : list nat) (n delay_us : Z) : C Z :=
  match l with
  | [] => ret n
  | e :: l =>
      match process_reverse e with
      | None => reverse_all l n delay_us
      | Some f =>
          let* n' := f ((RefBuf, 0), n) in
          set_echo_delay e delay_us ;;;
          reverse_all l n' delay_us
      end
  end.
(** The frames left go to the front of a buffer. *)
Definition move_left (r : region) (from rest : Z) : C unit :=
  let* ch := gets cap_channels in
  if rest =? 0 then ret tt else copy (r, 0) (r, from * ch) (rest * ch).
Definition push_echo_reference (frames : Z) : C unit :=
  let* delay := update_echo_reference frames in
  let* c := get in
  let n := if cap_ref_frames c <? frames then cap_ref_frames c else frames in
  let* used := reverse_all (cap_effects c) n (Z.quot delay 1000) in
  modify (fun c => c<|cap_ref_frames ::= fun m => u64 (m - used)|>) ;;;
  let* rest := gets cap_ref_frames in
  move_left RefBuf used rest.

(** ** Reading and processing *)

(** The effects in turn, each with what the one before left in the two counts. *)
Fixpoint process_all (l : list nat) (i o : pointer) (n : Z * Z) : C (Z * Z) :=
  match l with
  | [] => ret n
  | e :: l => let* n := process e (i, n.1) (o, n.2) in process_all l i o n
  end.

(** More frames for the effects, when fewer than wanted are there: the error of the PCM. *)
Definition reload (fuel : nat) (extra : bool) (frames : Z) : C Z :=
  let* c := get in
  if cap_proc_frames c <? frames then
    (if cap_proc_size c <? frames then
       let* pc := first_pcm in
       let bytes := frames_to_bytes pc frames in
       modify (fun c => c<|cap_proc_size := frames|>) ;;;
       realloc ProcIn bytes ;;;
       (if (extra : bool) then realloc ProcOut bytes else ret tt)
     else ret tt) ;;;
    let* n := read_frames fuel (ProcIn, cap_proc_frames c * cap_channels c) (frames - cap_proc_frames c) in
    if n <? 0 then ret n
    else modify (fun c => c<|cap_proc_frames ::= fun m => m + n|>) ;;; ret 0
  else ret 0.
Fixpoint process_loop (fuel : nat) (extra : bool) (out : region) (frames frames_wr : Z) : C Z :=
  match fuel with
  | O => fail Diverges
  | S fuel' =>
      if frames <=? frames_wr then ret frames_wr
      else
        let* st := reload fuel extra frames in
        if st <? 0 then ret st
        else
          let* c := get in
          (if cap_echo c then push_echo_reference (cap_proc_frames c) else ret tt) ;;;
          let* io := process_all (cap_effects c) (ProcIn, 0) (out, frames_wr * cap_channels c)
                       (cap_proc_frames c, frames - frames_wr) in
          modify (fun c => c<|cap_proc_frames ::= fun n => u64 (n - io.1)|>) ;;;
          let* rest := gets cap_proc_frames in
          move_left ProcIn io.1 rest ;;;
          if io.2 =? 0 then process_loop fuel' extra out frames frames_wr
          else if frames_wr + io.2 <=? frames then process_loop fuel' extra out frames (frames_wr + io.2)
          else ret frames
  end.

(** The main channels are the first ones of a frame; the others are dropped. *)
Fixpoint strip (n : nat) (src dst : pointer) (src_ch dst_ch : Z) : C unit :=
  match n with
  | O => ret tt
  | S n =>
      copy dst src dst_ch ;;;
      strip n (shift src src_ch) (shift dst dst_ch) src_ch dst_ch
  end.
Definition read_and_process_frames (fuel : nat) (frames : Z) : C Z :=
  let* c := get in
  let src := cap_channels c in
  let dst := cap_main c in
  let extra := negb (dst =? src) in
  let out := if extra then ProcOut else Client in
  match cap_pcm c with
  | None => ret (- EINVAL)
  | Some _ =>
      let* n := (if bool_decide (cap_effects c = []) then
                   (if (extra && (cap_proc_size c <? frames))%bool then
                      let* pc := first_pcm in
                      modify (fun c => c<|cap_proc_size := frames|>) ;;;
                      realloc ProcOut (frames_to_bytes pc frames)
                    else ret tt) ;;;
                   read_frames fuel (out, 0) frames
                 else process_loop fuel extra out frames 0) in
      (if extra then strip (Z.to_nat n) (out, 0) (Client, 0) src dst else ret tt) ;;;
      ret n
  end.

(** The part of [start_input_stream] on these fields: the buffers are to be allocated anew. *)
Definition start_capture (c : capture) : capture :=
  c<|cap_proc_frames := 0|><|cap_proc_size := 0|><|cap_read_buf_size := 0|><|cap_read_buf_frames := 0|>.
End capture.
