(* ===== verification/AudioCaptureProps.v ===== *)
(** * A recording gives the samples that were captured

    Without effects and resampler [read_and_process_frames] gives the main channels of
    exactly the next frames of the PCM, whatever the sizes of the periods and the requests
    ([read_and_process_frames_spec]); and the runs in which the buffers shared by the effects
    are too small. *)
From S2P Require Import Prelude Machine AudioTypes AudioCapture.

(** ** Parts of a memory *)
Lemma zlength_window o n l : 0 <= o -> 0 <= n -> o + n <= zlength l -> zlength (window o n l) = n.
Proof. unfold zlength, window. intros. rewrite length_take, length_drop. lia. Qed.
Lemma window_add o n m l : 0 <= o -> 0 <= n -> 0 <= m -> window o (n + m) l = window o n l ++ window (o + n) m l.
Proof.
  intros. unfold window. rewrite (Z2Nat.inj_add o n), (Z2Nat.inj_add n m) by lia.
  rewrite <-drop_drop. generalize (Z.to_nat n) as a, (Z.to_nat m) as b, (drop (Z.to_nat o) l) as k. intros a b.
  induction a as [|a IH]; intros [|x k]; cbn; rewrite ?take_nil; [done..|]. by rewrite IH.
Qed.
Lemma zlength_overwrite o d l : 0 <= o -> o + zlength d <= zlength l -> zlength (overwrite o d l) = zlength l.
Proof. unfold zlength, overwrite. intros. rewrite !length_app, length_take, length_drop. lia. Qed.
Lemma overwrite_overwrite o d e l :
  0 <= o -> o + zlength d + zlength e <= zlength l -> overwrite (o + zlength d) e (overwrite o d l) = overwrite o (d ++ e) l.
Proof.
  unfold zlength, overwrite. intros. rewrite Z2Nat.inj_add, Nat2Z.id by lia. set (n := Z.to_nat o).
  assert (length (take n l) = n) as Hn by (rewrite length_take; lia).
  assert (length (take n l ++ d) = (n + length d)%nat) as Hnd by (rewrite length_app; lia).
  replace (take n l ++ d ++ drop (n + length d) l) with ((take n l ++ d) ++ drop (n + length d) l) by (by rewrite <-app_assoc).
  rewrite take_app_length' by done. rewrite drop_app_ge by lia. rewrite Hnd, drop_drop, length_app.
  replace (n + length d + (n + length d + length e - (n + length d)))%nat with (n + (length d + length e))%nat by lia.
  by rewrite <-!app_assoc.
Qed.
Lemma overwrite_nil o l : overwrite o [] l = l.
Proof. unfold overwrite. cbn [length app]. by rewrite Nat.add_0_r, take_drop. Qed.
Lemma window_overwrite o d l : 0 <= o -> o + zlength d <= zlength l -> window o (zlength d) (overwrite o d l) = d.
Proof.
  unfold window, overwrite, zlength. intros. rewrite Nat2Z.id, drop_app_length' by (rewrite length_take; lia).
  by rewrite take_app_length.
Qed.
Lemma window_prefix n l : 0 <= n -> window 0 n l = take (Z.to_nat n) l.
Proof. done. Qed.
Lemma window_of o n k l : 0 <= o -> 0 <= k <= n -> window o k l = take (Z.to_nat k) (window o n l).
Proof. intros. unfold window. rewrite take_take. f_equal. lia. Qed.

(** ** Frames *)
Section frames.
Context `{CaptureHw}.

Lemma seqZ_one f : seqZ f 1 = [f].
Proof. done. Qed.
Lemma frame_length pc f : 0 <= pc -> zlength (pcm_frame pc f) = pc.
Proof. intros. unfold zlength, pcm_frame. rewrite length_fmap, length_seqZ. lia. Qed.
Lemma frames_add pc f n m : 0 <= n -> 0 <= m -> frames_at pc f (n + m) = frames_at pc f n ++ frames_at pc (f + n) m.
Proof. intros. unfold frames_at. by rewrite seqZ_app, fmap_app, concat_app by done. Qed.
Lemma frames_length pc f n : 0 <= pc -> 0 <= n -> zlength (frames_at pc f n) = n * pc.
Proof.
  intros Hpc Hn. revert f. pattern n. apply natlike_ind; [done| |done]. intros m Hm IH f.
  replace (Z.succ m) with (1 + m) by lia. rewrite frames_add, zlength_app, IH by lia.
  unfold frames_at. rewrite seqZ_one. cbn [fmap list_fmap concat]. rewrite app_nil_r, frame_length by done. lia.
Qed.
(** The main channels of [n] frames. *)
Definition main_at (pc main f n : Z) : list cell := concat ((fun f => take (Z.to_nat main) (pcm_frame pc f)) <$> seqZ f n).
Lemma main_all pc f n : 0 <= pc -> main_at pc pc f n = frames_at pc f n.
Proof.
  intros Hpc. unfold main_at, frames_at. f_equal. apply list_fmap_ext. intros _ g _. apply take_ge.
  pose proof (frame_length pc g Hpc). unfold zlength in *. lia.
Qed.
Lemma main_length pc main f n : 0 <= main <= pc -> 0 <= n -> zlength (main_at pc main f n) = n * main.
Proof.
  intros Hm Hn. revert f. pattern n. apply natlike_ind; [done| |done]. intros m Hm' IH f.
  unfold main_at. replace (Z.succ m) with (1 + m) by lia. rewrite seqZ_app, fmap_app, concat_app, zlength_app by lia.
  fold (main_at pc main (f + 1) m). rewrite IH, seqZ_one. cbn [fmap list_fmap concat]. rewrite app_nil_r.
  pose proof (frame_length pc f). unfold zlength in *. rewrite length_take. lia.
Qed.

(** *** Memory of the model *)
Lemma load_spec p n b c :
  block p.1 c = Some b -> 0 <= p.2 -> p.2 + n <= zlength b -> 0 <= n -> load p n c = Done (window p.2 n b) c.
Proof.
  intros Hb H0 Hn Hn0. unfold load. destruct (Z.leb_spec n 0); [by replace n with 0 by lia|].
  unfold bind, gets. cbn [obind]. rewrite Hb. cbn [deref ret obind].
  rewrite (proj2 (Z.leb_le _ _) H0), (proj2 (Z.leb_le _ _) Hn). done.
Qed.
Lemma set_block_same r b c : block r c = Some b -> set_block r (Some b) c = c.
Proof. destruct r, c; cbn; by intros ->. Qed.
Lemma store_spec p d b c :
  block p.1 c = Some b -> 0 <= p.2 -> p.2 + zlength d <= zlength b ->
  store p d c = Done tt (set_block p.1 (Some (overwrite p.2 d b)) c).
Proof.
  intros Hb H0 Hn. unfold store. case_bool_decide as Hd.
  { subst d. by rewrite overwrite_nil, set_block_same. }
  unfold bind, gets. cbn [obind]. rewrite Hb. cbn [deref ret obind].
  rewrite (proj2 (Z.leb_le _ _) H0), (proj2 (Z.leb_le _ _) Hn). done.
Qed.
Lemma copy_spec dst src n a b c :
  dst.1 <> src.1 -> block src.1 c = Some a -> block dst.1 c = Some b -> 0 <= n ->
  0 <= src.2 -> src.2 + n <= zlength a -> 0 <= dst.2 -> dst.2 + n <= zlength b ->
  copy dst src n c = Done tt (set_block dst.1 (Some (overwrite dst.2 (window src.2 n a) b)) c).
Proof.
  intros Hr Ha Hb Hn Hs Hsn Hd Hdn. unfold copy, overlaps. rewrite bool_decide_eq_false_2 by done. cbn [andb].
  rewrite (bind_runs _ _ _ _ _ (load_spec src n a c Ha Hs Hsn Hn)). apply store_spec; [done..|].
  by rewrite zlength_window.
Qed.
Lemma block_set r r' b c : block r (set_block r' b c) = if decide (r = r') then b else block r c.
Proof. by destruct r, r', c. Qed.
End frames.

(** ** What is left of a period

    [capture_ok pc c]: the PCM has [pc] channels, as the configuration says; [read_buf] has
    room for a period, and the frames not yet handed out are the last ones read.
    [CaptureLaws]: what the theorems rely on.  [pcm_frames_to_bytes] is that of 16-bit samples,
    [realloc] succeeds (the code asserts it: [ALOG_ASSERT]), and what a read returns is 0 or
    an error. *)
Class CaptureLaws `{CaptureHw} := {
  bytes_law pc n : 0 <= pc -> 0 <= n -> n * pc < 2 ^ 31 -> frames_to_bytes pc n = n * pc * 2;
  memory_law n : realloc_ok n = true;
  error_law n : read_answer n <= 0
}.
Section provider.
Context `{Laws : CaptureLaws}.

Record capture_ok (pc : Z) (c : capture) : Prop := {
  co_pcm : cap_pcm c = Some (Some pc) /\ 0 < pc;
  co_channels : cap_channels c = pc;
  co_resampler : cap_resampler c = false;
  co_period : 0 < cap_period c /\ cap_period c * pc < 2 ^ 31;
  co_frames : 0 <= cap_read_buf_frames c <= cap_period c;
  co_buf : cap_period c <= cap_read_buf_size c -> exists b, cap_read_buf c = Some b /\ cap_period c * pc <= zlength b;
  co_rest : 0 < cap_read_buf_frames c -> cap_read_status c = 0 /\ cap_period c <= cap_read_buf_size c /\ forall b, cap_read_buf c = Some b ->
    window ((cap_period c - cap_read_buf_frames c) * pc) (cap_read_buf_frames c * pc) b
    = frames_at pc (cap_taken c - cap_read_buf_frames c) (cap_read_buf_frames c)
}.
(** The number of the next frame that the client gets. *)
Definition next_frame (c : capture) : Z := cap_taken c - cap_read_buf_frames c.
(** Only the provider's fields change. *)
Definition reads_only (c c' : capture) : Prop :=
  c' = c<|cap_read_status := cap_read_status c'|><|cap_read_buf := cap_read_buf c'|>
        <|cap_read_buf_size := cap_read_buf_size c'|><|cap_read_buf_frames := cap_read_buf_frames c'|>
        <|cap_calls := cap_calls c'|><|cap_taken := cap_taken c'|>.
Lemma reads_only_refl c : reads_only c c.
Proof. by destruct c. Qed.
Lemma reads_only_trans a b c : reads_only a b -> reads_only b c -> reads_only a c.
Proof. unfold reads_only. intros Hb Hc. rewrite Hb in Hc. by destruct a, b, c. Qed.

Lemma first_pcm_spec pc c : capture_ok pc c -> first_pcm c = Done pc c.
Proof. intros Hc. unfold first_pcm, bind, gets. cbn [obind]. by rewrite (proj1 (co_pcm _ _ Hc)). Qed.
Lemma resize_length n b : 0 <= n -> zlength (resize n b) = n.
Proof. unfold resize, zlength. intros. rewrite length_app, length_replicate, length_take. lia. Qed.
Lemma realloc_spec r n bytes c : bytes = n * 2 ->
  realloc r bytes c = Done tt (set_block r (Some (resize n (block r c))) c<|cap_calls ::= S|>).
Proof.
  intros ->. unfold realloc, call, bind. cbn [obind]. rewrite memory_law. unfold modify. rewrite Z.div_mul by done.
  by destruct r, c.
Qed.

(** A period read, or an error. *)
Lemma fill_spec pc c :
  capture_ok pc c -> cap_read_buf_frames c = 0 ->
  exists ok c', fill_read_buf c = Done ok c' /\ capture_ok pc c' /\ reads_only c c' /\ next_frame c' = next_frame c /\
    if ok : bool then cap_read_status c' = 0 /\ cap_read_buf_frames c' = cap_period c'
    else cap_read_status c' <> 0 /\ cap_read_buf_frames c' = 0 /\ exists n, read_answer n = cap_read_status c'.
Proof.
  intros Hc H0. pose proof (co_period _ _ Hc) as [Hp Hs]. pose proof (co_pcm _ _ Hc) as [Hpcm Hpc].
  unfold fill_read_buf. run (first_pcm_spec _ _ Hc). unfold bind at 1, gets at 1. cbn [obind].
  rewrite bytes_law by lia. unfold bind at 1, gets at 1. cbn [obind].
  assert (exists c1, (if cap_read_buf_size c <? cap_period c then
     modify (fun c0 => c0<|cap_read_buf_size := cap_period c|>) ;;; realloc ReadBuf (cap_period c * pc * 2) else ret tt) c = Done tt c1 /\
    reads_only c c1 /\ cap_read_buf_frames c1 = 0 /\ cap_taken c1 = cap_taken c /\ cap_period c <= cap_read_buf_size c1 /\
    exists b, cap_read_buf c1 = Some b /\ cap_period c * pc <= zlength b) as (c1 & H1 & Hr1 & Hf1 & Ht1 & Hsz1 & b & Hb1 & Hl1).
  { destruct (Z.ltb_spec (cap_read_buf_size c) (cap_period c)).
    - unfold bind, modify. cbn [obind]. rewrite (realloc_spec _ (cap_period c * pc)) by done. eexists. split; [reflexivity|].
      split; [by destruct c|]. cbn. split_and!; [done..|lia|]. eexists. split; [reflexivity|]. rewrite resize_length by lia. lia.
    - exists c. destruct (co_buf _ _ Hc ltac:(lia)) as (b & ? & ?). split_and!; [done|apply reads_only_refl|done|done|lia|by exists b]. }
  run H1. unfold pcm_read, call. unfold bind at 1, bind at 1. cbn [obind].
  assert (cap_period c1 = cap_period c /\ cap_pcm c1 = cap_pcm c /\ cap_channels c1 = cap_channels c /\ cap_resampler c1 = cap_resampler c)
    as (Ep & Epcm & Ech & Ers) by (by rewrite Hr1).
  destruct (Z.eqb_spec (read_answer (cap_calls c1)) 0) as [Ha|Ha]; cycle 1.
  { unfold bind. cbn [ret obind modify]. rewrite (proj2 (Z.eqb_neq _ _) Ha). cbn [negb ret].
    eexists false, _. split; [reflexivity|]. split_and!.
    - split; cbn; try congruence; try (rewrite ?Ep, ?Ech, ?Ers, ?Epcm; apply Hc); rewrite ?Ep, ?Hf1; try lia. intros _. by exists b.
    - eapply reads_only_trans; [exact Hr1|]. by destruct c1.
    - unfold next_frame. cbn. lia.
    - exact Ha.
    - exact Hf1.
    - by eexists. }
  set (c2 := c1<|cap_calls ::= S|>). unfold bind at 1, gets at 1. cbn [obind].
  replace (cap_period c * pc * 2 / 2 / pc) with (cap_period c) by (rewrite !Z.div_mul by lia; done).
  assert (zlength (frames_at pc (cap_taken c2) (cap_period c)) = cap_period c * pc) as Hfl by (apply frames_length; lia).
  unfold bind at 1. rewrite (store_spec (ReadBuf, 0) _ b) by (try exact Hb1; cbn [snd]; lia). cbn [obind fst snd set_block].
  unfold bind. cbn [modify ret obind]. change (0 =? 0) with true. cbn [negb ret obind].
  eexists true, _. split; [reflexivity|]. split_and!.
  - split; cbn; try (rewrite ?Ep, ?Ech, ?Ers, ?Epcm; apply Hc); rewrite ?Ep; try lia.
    + intros _. eexists. split; [reflexivity|]. rewrite zlength_overwrite by (cbn in Hfl |- *; lia). lia.
    + intros _. split_and!; [done|lia|]. intros b' [= <-]. rewrite Z.sub_diag. cbn [Z.mul].
      replace (cap_period c * pc) with (zlength (frames_at pc (cap_taken c1) (cap_period c))) at 1 by exact Hfl.
      rewrite window_overwrite by (cbn in Hfl |- *; lia). f_equal. lia.
  - eapply reads_only_trans; [exact Hr1|]. by destruct c1.
  - unfold next_frame. cbn. lia.
  - done.
  - done.
Qed.

Lemma get_next_buffer_spec pc c n :
  capture_ok pc c -> 0 < n ->
  exists p k c', get_next_buffer n c = Done (p, k) c' /\ capture_ok pc c' /\ reads_only c c' /\ next_frame c' = next_frame c /\
    match p with
    | Some q => cap_read_status c' = 0 /\ 0 < k <= n /\ k <= cap_read_buf_frames c' /\
        exists b, q = (ReadBuf, (cap_period c' - cap_read_buf_frames c') * pc) /\ cap_read_buf c' = Some b /\
          q.2 + k * pc <= zlength b /\ window q.2 (k * pc) b = frames_at pc (next_frame c) k
    | None => k = 0 /\ cap_read_status c' <> 0 /\ exists m, read_answer m = cap_read_status c'
    end.
Proof.
  intros Hc Hn. unfold get_next_buffer. unfold bind at 1, gets at 1. cbn [obind]. rewrite (proj1 (co_pcm _ _ Hc)).
  unfold bind at 1, gets at 1. cbn [obind].
  assert (exists ok c', (if cap_read_buf_frames c =? 0 then fill_read_buf else ret true) c = Done ok c' /\ capture_ok pc c' /\
    reads_only c c' /\ next_frame c' = next_frame c /\
    if ok : bool then cap_read_status c' = 0 /\ 0 < cap_read_buf_frames c'
    else cap_read_status c' <> 0 /\ cap_read_buf_frames c' = 0 /\ exists n, read_answer n = cap_read_status c')
    as (ok & c' & Ho & Hc' & Hr & Hx & Hok).
  { destruct (Z.eqb_spec (cap_read_buf_frames c) 0) as [E|E].
    - destruct (fill_spec pc c Hc E) as (ok & c' & H' & Hc' & Hr & Hx & Hok). exists ok, c'. split_and!; [done..|].
      destruct ok; [|done]. destruct Hok as [? ->]. split; [done|]. by apply (co_period _ _ Hc').
    - pose proof (co_frames _ _ Hc). exists true, c. split_and!; [done|done|apply reads_only_refl|done|apply (co_rest _ _ Hc); lia|lia]. }
  run Ho. destruct ok; cbn [negb]; cycle 1.
  { exists None, 0, c'. split_and!; [done..| |]; apply Hok. }
  unfold bind, get. cbn [obind]. set (k := if _ <? n then _ else _). eexists _, k, c'. rewrite (co_channels _ _ Hc'). split; [reflexivity|].
  destruct Hok as [Hst Hpos]. destruct (co_rest _ _ Hc' Hpos) as (_ & Hsz & Hrest). destruct (co_buf _ _ Hc' Hsz) as (b & Hb & Hl).
  pose proof (co_pcm _ _ Hc') as [_ Hpc]. pose proof (co_frames _ _ Hc') as Hf.
  assert (0 < k <= n /\ k <= cap_read_buf_frames c') as [Hk Hkf]
    by (unfold k; destruct (Z.ltb_spec (cap_read_buf_frames c') n); lia).
  split_and!; try done; try lia. exists b. cbn [snd]. split_and!; [done|done|nia|].
  specialize (Hrest b Hb). rewrite <-Hx. unfold next_frame. set (f := cap_taken c' - _) in *. set (m := cap_read_buf_frames c') in *.
  rewrite (window_of _ (m * pc)) by nia. rewrite Hrest.
  replace (frames_at pc f m) with (frames_at pc f k ++ frames_at pc (f + k) (m - k)) by (rewrite <-frames_add by lia; f_equal; lia).
  pose proof (frames_length pc f k ltac:(lia) ltac:(lia)) as Hfl.
  apply take_app_length'. unfold zlength in Hfl. lia.
Qed.

Lemma release_spec pc c k :
  capture_ok pc c -> 0 <= k <= cap_read_buf_frames c -> cap_read_buf_frames c < 2 ^ 64 ->
  exists c', release_buffer k c = Done tt c' /\ capture_ok pc c' /\ reads_only c c' /\ next_frame c' = next_frame c + k /\
    cap_read_status c' = cap_read_status c.
Proof.
  intros Hc Hk Hb. eexists. split; [reflexivity|]. set (c' := set_field _ _ c).
  assert (cap_read_buf_frames c' = cap_read_buf_frames c - k) as Ef by (apply Z.mod_small; lia).
  split_and!; [|by destruct c|unfold next_frame; rewrite Ef; cbn; lia|done].
  pose proof (co_frames _ _ Hc). pose proof (co_pcm _ _ Hc) as [_ Hpc].
  split; try (apply Hc); rewrite ?Ef; cbn; [lia|]. intros Hpos. destruct (co_rest _ _ Hc ltac:(lia)) as (Hst & Hsz & Hrest).
  split_and!; [done|done|]. intros b Hbuf. specialize (Hrest b Hbuf).
  set (m := cap_read_buf_frames c) in *. set (f := cap_taken c - m) in *.
  replace (frames_at pc f m) with (frames_at pc f k ++ frames_at pc (f + k) (m - k)) in Hrest by (rewrite <-frames_add by lia; f_equal; lia).
  replace (m * pc) with (k * pc + (m - k) * pc) in Hrest by lia. rewrite window_add in Hrest by nia.
  apply app_inj_1 in Hrest as [_ Hrest].
  - replace ((cap_period c - (m - k)) * pc) with ((cap_period c - m) * pc + k * pc) by lia. rewrite Hrest. f_equal. lia.
  - destruct (co_buf _ _ Hc Hsz) as (b' & Hb' & Hl). rewrite Hbuf in Hb'. injection Hb' as <-.
    pose proof (zlength_window ((cap_period c - m) * pc) (k * pc) b ltac:(nia) ltac:(nia) ltac:(nia)) as H1.
    pose proof (frames_length pc f k ltac:(lia) ltac:(lia)) as H2. unfold zlength in H1, H2. lia.
Qed.

(** ** Reading into a buffer *)

(** Only the provider's fields and the buffer [r] change. *)
Definition writes_only (r : region) (c c' : capture) : Prop := reads_only (set_block r None c) (set_block r None c').
Lemma writes_reads r c c' : r <> ReadBuf -> reads_only c c' -> writes_only r c c' /\ block r c' = block r c.
Proof. unfold writes_only, reads_only. intros Hr E. rewrite E. by destruct r, c, c'. Qed.
Lemma writes_set r c b : writes_only r c (set_block r b c).
Proof. unfold writes_only. destruct r, c; apply reads_only_refl. Qed.
Lemma writes_trans r a b c : writes_only r a b -> writes_only r b c -> writes_only r a c.
Proof. apply reads_only_trans. Qed.
Lemma capture_ok_set pc r b c : r <> ReadBuf -> capture_ok pc c -> capture_ok pc (set_block r b c).
Proof. intros Hr Hc. destruct r; [|done| | |]; split; apply Hc. Qed.
Lemma next_set r b c : next_frame (set_block r b c) = next_frame c.
Proof. by destruct r. Qed.
Lemma status_set r b c : cap_read_status (set_block r b c) = cap_read_status c.
Proof. by destruct r. Qed.

Lemma frames_small pc c : capture_ok pc c -> cap_read_buf_frames c < 2 ^ 31.
Proof. intros Hc. pose proof (co_frames _ _ Hc). pose proof (co_period _ _ Hc). pose proof (co_pcm _ _ Hc). nia. Qed.

(** The outcome of reading: the frames follow each other in the buffer, or the PCM failed. *)
Definition got (pc : Z) (r : region) (at' k : Z) (b : list cell) (c c' : capture) : Prop :=
  cap_read_status c' = 0 /\ next_frame c' = next_frame c + k /\
  block r c' = Some (overwrite at' (frames_at pc (next_frame c) k) b).
Definition pcm_failed (r : region) (b : list cell) (c' : capture) : Prop :=
  cap_read_status c' <> 0 /\ (exists m, read_answer m = cap_read_status c') /\
  exists b', block r c' = Some b' /\ zlength b' = zlength b.

Lemma read_some_spec pc r o wr rd b c :
  capture_ok pc c -> r <> ReadBuf -> block r c = Some b -> 0 <= o -> 0 <= wr -> 0 < rd ->
  o + (wr + rd) * pc <= zlength b -> (wr + rd) * pc < 2 ^ 31 ->
  exists k c', read_some (r, o) pc wr rd c = Done k c' /\ capture_ok pc c' /\ writes_only r c c' /\
    (0 < k <= rd /\ got pc r (o + wr * pc) k b c c' \/ pcm_failed r b c').
Proof.
  intros Hc Hr Hb Ho Hwr Hrd Hroom Hbig. pose proof (co_pcm _ _ Hc) as [_ Hpc]. unfold read_some. unfold bind at 1, gets at 1. cbn [obind].
  rewrite (co_resampler _ _ Hc). rewrite bytes_law, Z.div_mul by nia. cbn [shift fst snd].
  destruct (get_next_buffer_spec pc c rd Hc Hrd) as (p & k & c1 & H1 & Hc1 & Hr1 & Hx1 & Hp). run H1. cbn [fst snd].
  destruct (writes_reads r _ _ Hr Hr1) as [Hw1 Hb1]. pose proof (frames_small _ _ Hc1) as Hsm. destruct p as [q|].
  - destruct Hp as (Hst & Hk & Hkf & d & -> & Hd & Hl & Hsl). cbn [fst snd] in *. rewrite bytes_law, Z.div_mul by nia.
    pose proof (co_frames _ _ Hc1). pose proof (co_period _ _ Hc1).
    run (copy_spec (r, o + wr * pc) (ReadBuf, (cap_period c1 - cap_read_buf_frames c1) * pc) (k * pc) d b c1 Hr Hd
      ltac:(cbn; congruence) ltac:(nia) ltac:(cbn; nia) Hl ltac:(cbn; nia) ltac:(cbn; nia)). cbn [fst snd]. rewrite Hsl.
    set (c2 := set_block r _ c1). assert (capture_ok pc c2) as Hc2 by (by apply capture_ok_set).
    assert (cap_read_buf_frames c2 = cap_read_buf_frames c1) as Ef by (by destruct r).
    destruct (release_spec pc c2 k Hc2) as (c3 & H3 & Hc3 & Hr3 & Hx3 & Hst3); [lia|lia|]. run H3.
    destruct (writes_reads r _ _ Hr Hr3) as [Hw3 Hb3]. exists k, c3. split_and!; [done|done| |].
    { eapply writes_trans; [exact Hw1|]. eapply writes_trans; [apply writes_set|exact Hw3]. }
    left. split; [done|]. unfold got. rewrite Hst3, Hx3, Hb3. unfold c2. rewrite status_set, next_set, Hx1.
    rewrite block_set, decide_True by done. done.
  - destruct Hp as (-> & Hst & Hm). destruct (release_spec pc c1 0 Hc1) as (c3 & H3 & Hc3 & Hr3 & Hx3 & Hst3);
      [pose proof (co_frames _ _ Hc1); lia|lia|]. run H3. destruct (writes_reads r _ _ Hr Hr3) as [Hw3 Hb3].
    exists rd, c3. split_and!; [done|done|by eapply writes_trans|]. right. unfold pcm_failed. rewrite Hst3, Hb3, Hb1.
    split_and!; [done|done|by exists b].
Qed.

Lemma read_loop_spec pc r o frames fuel : forall wr b c,
  capture_ok pc c -> r <> ReadBuf -> block r c = Some b -> 0 <= o -> 0 <= wr <= frames ->
  (Z.to_nat (frames - wr) < fuel)%nat ->
  o + frames * pc <= zlength b -> frames * pc < 2 ^ 31 -> cap_read_status c = 0 \/ wr < frames ->
  exists n c', read_loop fuel (r, o) frames wr c = Done n c' /\ capture_ok pc c' /\ writes_only r c c' /\
    (n = frames /\ got pc r (o + wr * pc) (frames - wr) b c c' \/ n = cap_read_status c' /\ pcm_failed r b c').
Proof.
  induction fuel as [|fuel IH]; intros wr b c Hc Hr Hb Ho Hwr Hfuel Hroom Hbig Hst; [lia|]. cbn [read_loop].
  pose proof (co_pcm _ _ Hc) as [_ Hpc]. destruct (Z.leb_spec frames wr) as [Hle|Hlt].
  { assert (wr = frames) as -> by lia. exists frames, c. split_and!; [done|done|apply reads_only_refl|].
    left. split; [done|]. rewrite Z.sub_diag. unfold got. cbn. rewrite overwrite_nil. split_and!; [|lia|done].
    destruct Hst; [done|lia]. }
  run (first_pcm_spec _ _ Hc).
  destruct (read_some_spec pc r o wr (frames - wr) b c) as (k & c1 & H1 & Hc1 & Hw1 & Hgot); [done|done|done|done|lia|lia| | |].
  1-2: replace (wr + (frames - wr)) with frames by lia; done.
  run H1. unfold bind at 1, gets at 1. cbn [obind]. destruct Hgot as [[Hk (Hst1 & Hx1 & Hb1)]|Hf].
  - rewrite Hst1. change (0 =? 0) with true. cbn [negb].
    pose proof (frames_length pc (next_frame c) k ltac:(lia) ltac:(lia)) as Hfl.
    destruct (IH (wr + k) _ c1 Hc1 Hr Hb1 Ho) as (n & c2 & H2 & Hc2 & Hw2 & Hgot2); [lia|lia| |done|by left|].
    { rewrite zlength_overwrite; [done|nia|]. rewrite Hfl. nia. }
    exists n, c2. split_and!; [exact H2|done|by eapply writes_trans|]. destruct Hgot2 as [[-> (Hst2 & Hx2 & Hb2)]|[-> Hf]].
    + left. split; [done|]. unfold got. split_and!; [done|lia|]. rewrite Hb2, Hx1. f_equal.
      replace (o + (wr + k) * pc) with (o + wr * pc + zlength (frames_at pc (next_frame c) k)) by (rewrite Hfl; lia).
      rewrite overwrite_overwrite; [|nia|].
      * rewrite <-frames_add by lia. do 2 f_equal. lia.
      * rewrite Hfl, frames_length by lia. nia.
    + right. split; [done|]. destruct Hf as (Hne & Hm & b' & Hb' & Hl). split_and!; [done|done|]. exists b'. split; [done|].
      rewrite Hl, zlength_overwrite; [done|nia|]. rewrite Hfl. nia.
  - pose proof Hf as (Hne & _). rewrite (proj2 (Z.eqb_neq _ _) Hne). cbn [negb]. eexists _, c1. split; [reflexivity|].
    split_and!; [done|done|]. by right.
Qed.

(** ** Dropping channels *)
Lemma strip_spec pc main b n : forall f so o d c,
  0 < main <= pc -> block ProcOut c = Some b -> 0 <= so -> so + Z.of_nat n * pc <= zlength b ->
  window so (Z.of_nat n * pc) b = frames_at pc f (Z.of_nat n) ->
  cap_client c = Some d -> 0 <= o -> o + Z.of_nat n * main <= zlength d ->
  strip n (ProcOut, so) (Client, o) pc main c =
    Done tt (c<|cap_client := Some (overwrite o (main_at pc main f (Z.of_nat n)) d)|>).
Proof.
  induction n as [|n IH]; intros f so o d c Hm Hb Hso Hroom Hsl Hd Ho Hdr.
  { cbn. rewrite overwrite_nil. destruct c. cbn in Hd. by subst. }
  cbn [strip]. rewrite Nat2Z.inj_succ in *. replace (Z.succ (Z.of_nat n)) with (1 + Z.of_nat n) in * by lia.
  rewrite Z.mul_add_distr_r, Z.mul_1_l in Hsl. rewrite window_add, frames_add in Hsl by nia.
  assert (zlength (window so pc b) = pc) as Hl1 by (apply zlength_window; nia).
  assert (frames_at pc f 1 = pcm_frame pc f) as E1 by (unfold frames_at; rewrite seqZ_one; cbn; by rewrite app_nil_r).
  rewrite E1 in Hsl. pose proof (frame_length pc f ltac:(lia)) as Hl2.
  apply app_inj_1 in Hsl as [Hs1 Hs2]; [|unfold zlength in *; lia].
  pose proof (copy_spec (Client, o) (ProcOut, so) main b d c ltac:(done) Hb Hd ltac:(lia) Hso ltac:(cbn; nia) Ho ltac:(cbn; nia)) as H1.
  run H1. cbn [fst snd shift set_block]. rewrite (window_of so pc) by nia. rewrite Hs1.
  assert (zlength (take (Z.to_nat main) (pcm_frame pc f)) = main) as Hl3 by (unfold zlength in *; rewrite length_take; lia).
  rewrite (IH (f + 1) (so + pc) (o + main) (overwrite o (take (Z.to_nat main) (pcm_frame pc f)) d));
    [|done|done|nia|nia|done|done|lia|rewrite zlength_overwrite; nia].
  f_equal. replace (o + main) with (o + zlength (take (Z.to_nat main) (pcm_frame pc f))) by lia.
  rewrite overwrite_overwrite by (rewrite ?main_length; nia).
  unfold main_at at 2. rewrite seqZ_app, fmap_app, concat_app, seqZ_one by lia. cbn [fmap list_fmap concat]. rewrite app_nil_r.
  by destruct c.
Qed.

(** [proc_buf_out] has room for the frames it was allocated for. *)
Definition out_ok (pc : Z) (c : capture) : Prop :=
  0 <= cap_proc_size c /\ (0 < cap_proc_size c -> exists b, cap_proc_out c = Some b /\ cap_proc_size c * pc <= zlength b).

Lemma room_spec pc frames extra c :
  capture_ok pc c -> out_ok pc c -> 0 < frames -> frames * pc < 2 ^ 31 ->
  exists c', (if (extra && (cap_proc_size c <? frames))%bool then
                let* pc := first_pcm in
                modify (fun c => c<|cap_proc_size := frames|>) ;;;
                realloc ProcOut (frames_to_bytes pc frames)
              else ret tt) c = Done tt c' /\ capture_ok pc c' /\ out_ok pc c' /\ next_frame c' = next_frame c /\
    cap_client c' = cap_client c /\ cap_main c' = cap_main c /\
    (extra = true -> exists b, cap_proc_out c' = Some b /\ frames * pc <= zlength b).
Proof.
  intros Hc Ho Hf Hs. pose proof (co_pcm _ _ Hc) as [_ Hpc].
  destruct extra; cbn [andb]; [|exists c; by split_and!; try apply Ho].
  destruct (Z.ltb_spec (cap_proc_size c) frames) as [Hlt|Hge].
  - run (first_pcm_spec _ _ Hc). rewrite bytes_law by lia. unfold bind, modify. cbn [obind].
    rewrite (realloc_spec _ (frames * pc)) by done. eexists. split; [reflexivity|].
    split_and!; [split; apply Hc| |done|done|done|].
    + split; [cbn; lia|]. intros _. eexists. split; [reflexivity|]. rewrite resize_length by lia. cbn. lia.
    + intros _. eexists. split; [reflexivity|]. rewrite resize_length by lia. lia.
  - exists c. destruct (proj2 Ho ltac:(lia)) as (b & Hb & Hl). split_and!; [done..|].
    intros _. exists b. split; [done|]. nia.
Qed.

(** The room stays when only the contents of a buffer change. *)
Lemma out_ok_writes pc r c c' b b' :
  r = ProcOut \/ r = Client -> out_ok pc c -> writes_only r c c' -> block r c = Some b -> block r c' = Some b' -> zlength b' = zlength b ->
  out_ok pc c' /\ cap_proc_size c' = cap_proc_size c.
Proof.
  intros Hr [Hs Ho] Hw Hb Hb' Hl. unfold writes_only, reads_only in Hw.
  assert (cap_proc_size c' = cap_proc_size c) as E.
  { assert (cap_proc_size (set_block r None c') = cap_proc_size (set_block r None c)) as E by (by rewrite Hw). by destruct Hr as [-> | ->]. }
  split; [|done]. unfold out_ok. rewrite E. split; [done|]. intros Hpos. destruct (Ho Hpos) as (d & Hd & Hld). destruct Hr as [-> | ->]; cbn in *.
  - exists b'. split; [done|]. rewrite Hl. congruence.
  - exists d. split; [|done]. assert (cap_proc_out c' = cap_proc_out c) as -> by (by injection Hw). done.
Qed.
Lemma writes_main r c c' : writes_only r c c' -> cap_main c' = cap_main c /\ (r = ProcOut -> cap_client c' = cap_client c).
Proof. unfold writes_only, reads_only. intros Hw. split; [destruct r|intros ->]; cbn in Hw; by injection Hw. Qed.

(** C35: a recording without effects and resampler, configured for the channels the PCM has and with
    memory for its buffer (the code asserts that there is), loses nothing and adds nothing: a read of
    [frames] frames gives the client the main channels of exactly the next [frames] frames
    of the PCM, in order, and leaves the rest of the client's buffer alone, whatever was
    left of the last period and however the request relates to the period; or the PCM
    reported an error, which is the result.  No buffer is left on the way, and the stream is
    ready for the next read. *)
Theorem read_and_process_frames_spec pc frames client fuel c :
  capture_ok pc c -> out_ok pc c -> cap_effects c = [] -> 0 < cap_main c <= pc ->
  0 < frames -> frames * pc < 2 ^ 31 -> cap_client c = Some client -> frames * cap_main c <= zlength client ->
  (Z.to_nat frames < fuel)%nat ->
  exists n c', read_and_process_frames fuel frames c = Done n c' /\ capture_ok pc c' /\ out_ok pc c' /\
    (n = frames /\ next_frame c' = next_frame c + frames /\
       cap_client c' = Some (overwrite 0 (main_at pc (cap_main c) (next_frame c) frames) client) \/
     n <> 0 /\ exists m, read_answer m = n).
Proof.
  intros Hc Ho He Hm Hf Hs Hcl Hroom Hfuel. unfold read_and_process_frames. unfold bind at 1, get at 1. cbn [obind].
  rewrite (proj1 (co_pcm _ _ Hc)), He, (co_channels _ _ Hc), bool_decide_eq_true_2 by done.
  set (extra := negb (cap_main c =? pc)). set (out := if extra then ProcOut else Client).
  destruct (room_spec pc frames extra c Hc Ho Hf Hs) as (c1 & H1 & Hc1 & Ho1 & Hx1 & Hcl1 & Hm1 & Hb1).
  assert (exists b, block out c1 = Some b /\ frames * pc <= zlength b) as (b & Hb & Hl).
  { unfold out. destruct extra eqn:E; [by apply Hb1|]. exists client. cbn. split; [congruence|].
    unfold extra in E. apply negb_false_iff, Z.eqb_eq in E. by rewrite <-E. }
  assert (out <> ReadBuf) as Hne by (unfold out; by destruct extra).
  destruct (read_loop_spec pc out 0 frames fuel 0 b c1) as (n & c2 & H2 & Hc2 & Hw2 & Hg); [done|done|done|lia|lia|by rewrite Z.sub_0_r|lia|done|by right|].
  assert (read_frames fuel (out, 0) frames c1 = Done n c2) as Hrf
    by (unfold read_frames, bind, gets; cbn [obind]; by rewrite (proj1 (co_pcm _ _ Hc1))).
  pose proof (bind_runs _ (fun _ => read_frames fuel (out, 0) frames) _ _ _ H1) as Hb12. cbn beta in Hb12. rewrite Hrf in Hb12.
  run Hb12. clear Hb12 H1 Hrf H2. rewrite Z.mul_0_l, Z.add_0_r, Z.sub_0_r in Hg. pose proof (co_pcm _ _ Hc) as [_ Hpc].
  pose proof (frames_length pc (next_frame c1) frames ltac:(lia) ltac:(lia)) as Hfl.
  assert (exists b', block out c2 = Some b' /\ zlength b' = zlength b) as (b' & Hb' & Hl').
  { destruct Hg as [[_ (_ & _ & Hb2)]|[_ (_ & _ & Hb2)]]; [|exact Hb2]. eexists. split; [exact Hb2|]. apply zlength_overwrite; lia. }
  assert (out_ok pc c2) as Ho2 by (eapply (out_ok_writes pc out c1 c2 b b'); try done; unfold out; destruct extra; auto).
  destruct Hg as [[-> (_ & Hx2 & Hb2)]|[-> (Hne2 & Hm2 & _)]].
  - assert (b' = overwrite 0 (frames_at pc (next_frame c1) frames) b) as -> by congruence. unfold out in *. destruct extra eqn:E.
    + destruct (writes_main _ _ _ Hw2) as [_ Hcl2]. specialize (Hcl2 eq_refl).
      pose proof (strip_spec pc (cap_main c) _ (Z.to_nat frames) (next_frame c) 0 0 client c2 Hm Hb' ltac:(lia)) as Hst.
      rewrite Z2Nat.id in Hst by lia. rewrite Hl' in Hst. specialize (Hst ltac:(lia)).
      assert (window 0 (frames * pc) (overwrite 0 (frames_at pc (next_frame c1) frames) b) = frames_at pc (next_frame c) frames) as Hsl
        by (rewrite <-Hfl, window_overwrite by lia; by rewrite Hx1).
      run (Hst Hsl ltac:(congruence) ltac:(lia) ltac:(lia)). exists frames. eexists. split; [reflexivity|].
      split_and!; [split; apply Hc2|exact Ho2|]. left. unfold next_frame in *. cbn. split_and!; [done|lia|done].
    + exists frames, c2. split; [done|]. split_and!; [done|done|]. left. split_and!; [done|lia|].
      unfold extra in E. apply negb_false_iff, Z.eqb_eq in E. rewrite E, main_all by lia. cbn in Hb2, Hb. rewrite Hb2, Hx1. congruence.
  - pose proof Hm2 as (m & Hm2'). pose proof (error_law m). assert (Z.to_nat (cap_read_status c2) = O) as -> by lia. cbn [strip].
    exists (cap_read_status c2), c2. split; [by destruct extra|]. split_and!; [done|done|]. by right.
Qed.
End provider.

(** ** A device to try it on *)

(** Sample [ch] of frame [f] is [10 f + ch].  The effect [e] consumes and produces at most
    [e] frames at a time. *)
Definition microphone_hw : CaptureHw := {|
  frames_to_bytes := fun pc n => n * pc * 2;
  sample := fun f ch => 10 * f + ch;
  read_answer := fun n => if (n =? 9)%nat then - EIO else 0;
  realloc_ok := fun _ => true;
  resample := fun _ _ _ _ => fail Fatal;
  resampler_delay := 0;
  process := fun e i o =>
    let k := Z.min (Z.of_nat e) (Z.min i.2 o.2) in
    let* ch := gets cap_channels in
    copy o.1 i.1 (k * ch) ;;; ret (k, k);
  process_reverse := fun _ => None;
  set_echo_delay := fun _ _ => ret tt;
  echo_read := fun _ _ _ => ret (0, 0);
  htimestamp := fun _ => (0, 0)
|}.
#[local] Existing Instance microphone_hw.
Lemma microphone_laws : CaptureLaws.
Proof.
  split; [done|done|]. intros n. change (read_answer n) with (if (n =? 9)%nat then - EIO else 0).
  by destruct (n =? 9)%nat.
Qed.

(** A recording of [main] channels from a PCM of two, configured for [ch], in periods of 4
    frames, into a buffer of 6 frames. *)
Definition recording (ch main : Z) (effects : list nat) : capture :=
  mkCapture (Some (Some 2)) ch 48000 4 48000 main false 0 None 0 0 None None 0 0 effects false None 0 0
    (Some (replicate (Z.to_nat (6 * main)) (Some 0))) 0 0.
Definition result {B} (o : outcome capture B) : option (B * option (list cell)) :=
  match o with Done r c => Some (r, cap_client c) | _ => None end.
Definition fault_of {B} (o : outcome capture B) : option fault := match o with Fault e => Some e | _ => None end.
Definition with_effects (l : list nat) : C unit := modify (fun c => c<|cap_effects := l|>).

(** Two reads of a mono recording: frames 0 to 5, then 6 to 11. *)
Lemma capture_example :
  result ((let* _r := read_and_process_frames 9 6 in read_and_process_frames 9 6) (recording 2 1 []))
  = Some (6, Some (Some <$> [60; 70; 80; 90; 100; 110])).
Proof. vm_compute. reflexivity. Qed.
(** The same with an effect, in a stereo recording. *)
Lemma capture_effect_example :
  result ((let* _r := read_and_process_frames 9 6 in read_and_process_frames 9 6) (recording 2 2 [6%nat]))
  = Some (6, Some (Some <$> [60; 61; 70; 71; 80; 81; 90; 91; 100; 101; 110; 111])).
Proof. vm_compute. reflexivity. Qed.

Lemma read_and_process_frames_spec_witness :
  let c := recording 2 1 [] in
  exists n c', read_and_process_frames 9 6 c = Done n c' /\ capture_ok 2 c' /\
    (cap_client c' = Some (main_at 2 1 0 6) \/ n <> 0 /\ exists m, read_answer m = n).
Proof.
  intros c. destruct (read_and_process_frames_spec (Laws := microphone_laws) 2 6 (replicate 6 (Some 0)) 9 c) as (n & c' & Hr & Hc & _ & Hor).
  - split; cbn; try done; try lia.
  - split; cbn; [lia|]. intros Hlt. exfalso. lia.
  - reflexivity.
  - cbn. lia.
  - lia.
  - lia.
  - reflexivity.
  - vm_compute. congruence.
  - vm_compute. lia.
  - exists n, c'. split; [exact Hr|]. split; [exact Hc|]. destruct Hor as [(_ & _ & E)|Hor]; [left|right; exact Hor].
    rewrite E. vm_compute. reflexivity.
Defined.

(** ** Where the buffers go wrong *)

(** [proc_buf_size] is shared by [proc_buf_in] and [proc_buf_out]: a read without effects
    allocates only the second, and the effect added then writes through NULL. *)
Lemma effect_added_while_recording :
  fault_of ((let* _r := read_and_process_frames 9 6 in with_effects [6%nat] ;;; read_and_process_frames 9 6) (recording 2 1 []))
  = Some NullDeref.
Proof. vm_compute. reflexivity. Qed.
(** A mono recording started with an effect is configured for one channel while its PCM
    gives two; once the effect is removed the frames of the PCM do not fit in the client's
    buffer. *)
Lemma effect_removed_while_recording :
  fault_of ((let* _r := read_and_process_frames 9 6 in with_effects [] ;;; read_and_process_frames 9 6) (recording 1 1 [6%nat]))
  = Some OutOfBounds.
Proof. vm_compute. reflexivity. Qed.
(** An effect that consumes less than half of its input: the rest is moved by [memcpy] onto
    itself. *)
Lemma effect_leaves_input :
  fault_of (read_and_process_frames 9 6 (recording 2 2 [2%nat])) = Some Overlap.
Proof. vm_compute. reflexivity. Qed.
