(* ===== verification/CscTile.v ===== *)
(** * The tiled frame format: [color_space_convertor.c], addresses

    The video codec keeps a plane in tiles of 64 by 32 bytes.  Tiles go in groups
    of 4 by 2 over four memory banks, with a last single row of tiles in plain
    order.  [tile_4x2_read] is the address of a position as the code computes it;
    [tile_index] is the number of a tile, and the theorems here say that the two
    agree and that the layout is dense: different positions have different
    addresses, all of them inside the plane. *)
From S2P Require Import Prelude Machine Bytes.

(** [lia] with divisions and remainders by constants. *)
Ltac zdiv := Z.to_euclidean_division_equations; lia.

Definition tile_4x2_read (x_size y_size x_pos y_pos : Z) : Z :=
  let x_size := s32 x_size in let y_size := s32 y_size in
  let x_pos := s32 x_pos in let y_pos := s32 y_pos in
  let pixel_x_m1 := s32 (x_size - 1) in
  let pixel_y_m1 := s32 (y_size - 1) in
  let roundup_x := Z.shiftr pixel_x_m1 7 + 1 in
  let x_addr := Z.shiftr x_pos 2 in
  let last := (y_size <=? s32 (y_pos + 32)) && (y_pos <? y_size)
              && (Z.land (Z.shiftr pixel_y_m1 5) 1 =? 0) && (Z.land (Z.shiftr y_pos 5) 1 =? 0) in
  let linear_addr0 := Z.lor (Z.shiftl (Z.land y_pos 0x1f) 4) (Z.land x_addr 0xf) in
  let linear_addr1 :=
    s32 (Z.land (Z.shiftr y_pos 6) 0xff * roundup_x
         + (if last then Z.land (Z.shiftr x_addr 6) 0x3f else Z.land (Z.shiftr x_addr 5) 0x7f)) in
  let bank_addr :=
    if Z.land (Z.shiftr x_addr 5) 1 =? Z.land (Z.shiftr y_pos 5) 1
    then Z.land (Z.shiftr x_addr 4) 1
    else Z.lor 2 (Z.land (Z.shiftr x_addr 4) 1) in
  let linear_addr0 := Z.shiftl linear_addr0 2 in
  Z.lor (Z.lor (s32 (Z.shiftl linear_addr1 13)) (Z.shiftl bank_addr 11)) linear_addr0.

(** ** The number of a tile

    [X] and [Y] are the column and the row of a tile, [rx] is half the number of
    columns (always even) and [last] the last row. *)
Definition tile_index (rx last X Y : Z) : Z :=
  if Z.odd Y then 2 * rx * (Y - 1) + X + 2 + 4 * (X / 4)
  else if Y <? last then 2 * rx * Y + X + 4 * ((X + 2) / 4)
  else 2 * rx * Y + X.

(** Half the columns and the last row of a plane. *)
Definition half_columns (width : Z) : Z := (width - 1) / 128 + 1.
Definition last_row (height : Z) : Z := (height - 1) / 32.

(** The address of a byte, and the size of a plane. *)
Definition tiled_address (width height x y : Z) : Z :=
  2048 * tile_index (half_columns width) (last_row height) (x / 64) (y / 32)
  + 64 * (y mod 32) + x mod 64.
Definition tiled_size (width height : Z) : Z :=
  2048 * (2 * half_columns width * (last_row height + 1)).

(** ** Bits *)
Lemma land_ones_mod a n : 0 <= n -> Z.land a (2 ^ n - 1) = a mod 2 ^ n.
Proof. intros. rewrite <- Z.land_ones by lia. f_equal. rewrite Z.ones_equiv. lia. Qed.

Lemma lor_add a b n : 0 <= n -> 0 <= b < 2 ^ n -> Z.lor (Z.shiftl a n) b = a * 2 ^ n + b.
Proof.
  intros Hn Hb. assert (Z.land (Z.shiftl a n) b = 0) as Hland.
  { apply Z.bits_inj'. intros i Hi. rewrite Z.land_spec, Z.bits_0.
    destruct (Z.ltb_spec i n); [by rewrite Z.shiftl_spec_low|].
    rewrite <- (Z.mod_small b (2 ^ n)), Z.mod_pow2_bits_high by lia. apply andb_false_r. }
  rewrite <- Z.lxor_lor, <- Z.add_nocarry_lxor by done. by rewrite Z.shiftl_mul_pow2.
Qed.

Lemma lor_2 b : 0 <= b < 2 -> Z.lor 2 b = 2 + b.
Proof. intros. assert (b = 0 \/ b = 1) as [-> | ->] by lia; done. Qed.

(** The three parts of an address. *)
Lemma lor_parts g b a : 0 <= b < 4 -> 0 <= a < 512 ->
  Z.lor (Z.lor (Z.shiftl g 13) (Z.shiftl b 11)) (Z.shiftl a 2) = 2048 * (4 * g + b) + 4 * a.
Proof.
  intros Hb Ha. rewrite <- Z.lor_assoc, (Z.shiftl_mul_pow2 a) by lia.
  rewrite (lor_add b) by lia. rewrite lor_add by lia. lia.
Qed.

(** Normalises shifts and masks to divisions and remainders. *)
Lemma shr_div a n m : 0 <= n -> 2 ^ n = m -> Z.shiftr a n = a / m.
Proof. intros Hn <-. by apply Z.shiftr_div_pow2. Qed.
Lemma shl_mul a n m : 0 <= n -> 2 ^ n = m -> Z.shiftl a n = a * m.
Proof. intros Hn <-. by apply Z.shiftl_mul_pow2. Qed.
Lemma land_mod a k m n : 0 <= n -> 2 ^ n = m -> k = m - 1 -> Z.land a k = a mod m.
Proof. intros Hn <- ->. by apply land_ones_mod. Qed.

Lemma odd_mod Y : Z.odd Y = (Y mod 2 =? 1).
Proof.
  rewrite Zmod_odd. by destruct (Z.odd Y).
Qed.

(** ** The code computes the address of the tile *)
Section address.
Context (width height : Z).
Hypothesis (Hw : 0 < width <= 16384) (Hh : 0 < height <= 16384).

Lemma half_columns_bounds : 0 < half_columns width <= 128.
Proof. unfold half_columns. zdiv. Qed.

Lemma last_row_bounds : 0 <= last_row height < 512.
Proof. unfold last_row. zdiv. Qed.

Definition bank (X Y : Z) : Z := if X / 2 mod 2 =? Y mod 2 then X mod 2 else 2 + X mod 2.

Lemma bank_range X Y : 0 <= bank X Y < 4.
Proof. unfold bank. case_match; zdiv. Qed.

(** The group and the bank of a tile. *)
Lemma tile_index_bank X Y : 0 <= X -> 0 <= Y <= last_row height ->
  tile_index (half_columns width) (last_row height) X Y =
    4 * (Y / 2 * half_columns width
         + (if (last_row height mod 2 =? 0) && (Y =? last_row height) then X / 4 else X / 2))
    + bank X Y.
Proof.
  intros HX HY. unfold tile_index, bank. rewrite odd_mod.
  set (rx := half_columns width). set (l := last_row height) in *.
  assert (exists q, Y = 2 * q + Y mod 2 /\ Y / 2 = q) as (q & Hq & ->) by (exists (Y / 2); zdiv).
  destruct (Z.eqb_spec (Y mod 2) 1) as [Ho|He].
  - replace (2 * rx * (Y - 1)) with (4 * (q * rx)) by (rewrite Hq, Ho; ring).
    assert ((l mod 2 =? 0) && (Y =? l) = false) as ->.
    { destruct (Z.eqb_spec (l mod 2) 0), (Z.eqb_spec Y l); try done. zdiv. }
    rewrite Ho. destruct (Z.eqb_spec (X / 2 mod 2) 1); zdiv.
  - assert (Y mod 2 = 0) as H0' by zdiv. rewrite H0'.
    replace (2 * rx * Y) with (4 * (q * rx)) by (rewrite Hq, H0'; ring).
    destruct (Z.ltb_spec Y l), (Z.eqb_spec Y l); try zdiv.
    + rewrite andb_false_r. destruct (Z.eqb_spec (X / 2 mod 2) 0); zdiv.
    + assert ((l mod 2 =? 0) = true) as -> by (apply Z.eqb_eq; zdiv). simpl.
      destruct (Z.eqb_spec (X / 2 mod 2) 0); zdiv.
Qed.

Lemma tile_index_range X Y : 0 <= X < 2 * half_columns width -> 0 <= Y <= last_row height ->
  0 <= tile_index (half_columns width) (last_row height) X Y
    < 2 * half_columns width * (last_row height + 1).
Proof.
  intros HX HY. rewrite tile_index_bank by lia. set (rx := half_columns width) in *.
  set (l := last_row height) in *.
  pose proof (bank_range X Y).
  assert (0 <= Y / 2 * rx) by (apply Z.mul_nonneg_nonneg; zdiv).
  destruct ((l mod 2 =? 0) && (Y =? l)) eqn:Hl.
  - zbool. assert (l = 2 * (Y / 2)) as -> by zdiv. unfold bank in *. case_match; zdiv.
  - assert (2 * (Y / 2) + 2 <= l + 1).
    { apply andb_false_iff in Hl as [Hl|Hl]; apply Z.eqb_neq in Hl; zdiv. }
    assert (2 * rx * (2 * (Y / 2) + 2) <= 2 * rx * (l + 1)) by (apply Z.mul_le_mono_nonneg_l; lia).
    assert (4 * (X / 2) + bank X Y < 4 * rx) by zdiv.
    assert (0 <= X / 2) by zdiv. generalize dependent (Y / 2). intros. lia.
Qed.

Lemma tile_index_inj X Y X' Y' :
  0 <= X < 2 * half_columns width -> 0 <= Y <= last_row height ->
  0 <= X' < 2 * half_columns width -> 0 <= Y' <= last_row height ->
  tile_index (half_columns width) (last_row height) X Y
    = tile_index (half_columns width) (last_row height) X' Y' -> X = X' /\ Y = Y'.
Proof.
  intros HX HY HX' HY'. rewrite !tile_index_bank by lia. set (rx := half_columns width) in *.
  set (l := last_row height) in *. intros Heq.
  pose proof (bank_range X Y). pose proof (bank_range X' Y').
  set (c := if _ && (Y =? l) then X / 4 else X / 2) in Heq.
  set (c' := if _ && (Y' =? l) then X' / 4 else X' / 2) in Heq.
  assert (0 <= c < rx) by (clear Heq; unfold c; case_match; zdiv).
  assert (0 <= c' < rx) by (clear Heq; unfold c'; case_match; zdiv).
  assert (Y / 2 * rx + c = Y' / 2 * rx + c' /\ bank X Y = bank X' Y') as [Hg Hb] by lia.
  assert (Y / 2 = Y' / 2 /\ c = c') as [Hq Hc].
  { rewrite (Z.mul_comm (Y / 2)), (Z.mul_comm (Y' / 2)) in Hg.
    apply (Z.div_mod_unique rx); lia. }
  subst c c'. unfold bank in *.
  destruct (Z.eqb_spec (l mod 2) 0), (Z.eqb_spec Y l), (Z.eqb_spec Y' l); simpl in Hc;
    repeat case_match; zbool; zdiv.
Qed.

(** The test for the last row of tiles when their number is odd. *)
Lemma last_tiles y : 0 <= y < height ->
  (last_row height mod 2 =? 0) && (y / 32 =? last_row height) =
  (height <=? y + 32) && (y <? height) && (last_row height mod 2 =? 0) && (y / 32 mod 2 =? 0).
Proof.
  intros Hy. unfold last_row. rewrite (proj2 (Z.ltb_lt y height)) by lia.
  destruct (Z.eqb_spec ((height - 1) / 32 mod 2) 0), (Z.eqb_spec (y / 32) ((height - 1) / 32)),
    (Z.leb_spec height (y + 32)), (Z.eqb_spec (y / 32 mod 2) 0); try done; exfalso; zdiv.
Qed.

(** The address as [tile_4x2_read] computes it: of the four bytes a position is in. *)
Lemma tile_4x2_read_address x y : 0 <= x < width -> 0 <= y < height ->
  tile_4x2_read width height x y + x mod 4 = tiled_address width height x y.
Proof.
  intros Hx Hy. pose proof half_columns_bounds as Hrx. pose proof last_row_bounds as Hl.
  unfold tile_4x2_read. rewrite (s32_small width), (s32_small height), (s32_small x), (s32_small y) by lia.
  rewrite (s32_small (width - 1)), (s32_small (height - 1)), (s32_small (y + 32)) by lia.
  rewrite !(shr_div _ 7 128), !(shr_div _ 2 4), !(shr_div _ 5 32), !(shr_div _ 6 64), !(shr_div _ 4 16) by done.
  rewrite !(land_mod _ 1 2 1), !(land_mod _ 0x1f 32 5), !(land_mod _ 0xf 16 4), !(land_mod _ 0xff 256 8),
    !(land_mod _ 0x3f 64 6), !(land_mod _ 0x7f 128 7) by done.
  change ((width - 1) / 128 + 1) with (half_columns width). change ((height - 1) / 32) with (last_row height).
  replace ((height <=? y + 32) && (y <? height) && (last_row height mod 2 =? 0) && (y / 32 mod 2 =? 0))
    with ((last_row height mod 2 =? 0) && (y / 32 =? last_row height)) by (by apply last_tiles).
  rewrite (Z.div_div x 4 64), (Z.div_div x 4 32), (Z.div_div x 4 16) by lia.
  unfold tiled_address. rewrite tile_index_bank by (unfold last_row in *; zdiv). unfold bank.
  rewrite (Z.div_div x 64 2), (Z.div_div x 64 4), (Z.div_div y 32 2) by lia.
  rewrite (Z.mod_small (y / 64)), (Z.mod_small (x / (4 * 64))), (Z.mod_small (x / (4 * 32))) by zdiv.
  change (4 * 64) with 256. change (64 * 4) with 256. change (4 * 32) with 128. change (64 * 2) with 128.
  change (32 * 2) with 64. change (4 * 16) with 64.
  set (g := y / 64 * half_columns width + _).
  assert (0 <= g < 2 ^ 15) as Hg.
  { assert (0 <= y / 64 * half_columns width <= 255 * 128) by (split; [apply Z.mul_nonneg_nonneg|apply Z.mul_le_mono_nonneg]; zdiv).
    subst g. case_match; zdiv. }
  clearbody g. rewrite (s32_small g), (s32_small (Z.shiftl g 13)), lor_2, (lor_add (y mod 32))
    by (rewrite ?(shl_mul g 13 8192) by done; zdiv).
  rewrite lor_parts by (try case_match; zdiv).
  assert (x mod 64 = 4 * ((x / 4) mod 16) + x mod 4) as -> by zdiv. lia.
Qed.

(** ** The layout is dense *)
Lemma column_range x : 0 <= x < width -> 0 <= x / 64 < 2 * half_columns width.
Proof. intros. unfold half_columns. zdiv. Qed.
Lemma row_range y : 0 <= y < height -> 0 <= y / 32 <= last_row height.
Proof. intros. unfold last_row. zdiv. Qed.

Lemma tiled_address_range x y : 0 <= x < width -> 0 <= y < height ->
  0 <= tiled_address width height x y < tiled_size width height.
Proof.
  intros Hx Hy. pose proof (tile_index_range _ _ (column_range x Hx) (row_range y Hy)).
  unfold tiled_address, tiled_size. generalize dependent (2 * half_columns width * (last_row height + 1)).
  intros. zdiv.
Qed.

Lemma tiled_address_inj x y x' y' :
  0 <= x < width -> 0 <= y < height -> 0 <= x' < width -> 0 <= y' < height ->
  tiled_address width height x y = tiled_address width height x' y' -> x = x' /\ y = y'.
Proof.
  intros Hx Hy Hx' Hy' Heq. unfold tiled_address in Heq.
  destruct (tile_index_inj (x / 64) (y / 32) (x' / 64) (y' / 32));
    eauto using column_range, row_range; [|zdiv].
  generalize dependent (tile_index (half_columns width) (last_row height) (x / 64) (y / 32)).
  generalize dependent (tile_index (half_columns width) (last_row height) (x' / 64) (y' / 32)).
  intros. zdiv.
Qed.

(** A piece of a line within one tile is contiguous. *)
Lemma tiled_address_next x y m : 0 <= m -> x mod 64 + m < 64 ->
  tiled_address width height (x + m) y = tiled_address width height x y + m.
Proof.
  intros Hm Hx. unfold tiled_address.
  assert ((x + m) / 64 = x / 64 /\ (x + m) mod 64 = x mod 64 + m) as [-> ->] by zdiv. lia.
Qed.

(** The end of such a piece is inside the plane. *)
Lemma tiled_piece_range x y n : 0 <= x < width -> 0 <= y < height -> x mod 64 + n <= 64 ->
  tiled_address width height x y + n <= tiled_size width height.
Proof.
  intros Hx Hy Hn. pose proof (tile_index_range _ _ (column_range x Hx) (row_range y Hy)).
  unfold tiled_address, tiled_size. generalize dependent (2 * half_columns width * (last_row height + 1)).
  intros. zdiv.
Qed.
End address.

(** the tiled layout is sound: for planes of up to 16384 by 16384 bytes, the
    address that [tile_4x2_read] gives a position, with the offset of the byte
    among its four, is inside the plane (whole tiles, an even number of columns),
    and different positions have different addresses. *)
Theorem tile_4x2_read_injective width height x y x' y' :
  0 < width <= 16384 -> 0 < height <= 16384 ->
  0 <= x < width -> 0 <= y < height -> 0 <= x' < width -> 0 <= y' < height ->
  0 <= tile_4x2_read width height x y + x mod 4 < tiled_size width height /\
  (tile_4x2_read width height x y + x mod 4 = tile_4x2_read width height x' y' + x' mod 4 ->
   x = x' /\ y = y').
Proof.
  intros Hw Hh Hx Hy Hx' Hy'. rewrite !tile_4x2_read_address by done. split.
  - by apply tiled_address_range.
  - by apply tiled_address_inj.
Qed.

Lemma tile_4x2_read_injective_witness :
  0 <= tile_4x2_read 176 144 70 33 + 70 mod 4 < tiled_size 176 144 /\
  (tile_4x2_read 176 144 70 33 + 70 mod 4 = tile_4x2_read 176 144 71 128 + 71 mod 4 ->
   70 = 71 /\ 33 = 128).
Proof. apply tile_4x2_read_injective; lia. Defined.
