(* ===== verification/CscLinear.v ===== *)
(** * From tiled to linear: [csc_tiled_to_linear_crop] and
    [csc_tiled_to_linear_deinterleave_crop] of [color_space_convertor.c]

    The functions copy the part of a tiled plane that is left after cropping
    into a linear plane, or into the planes of two colour components, line by
    line.  Lines of 256 bytes and more are copied by
    groups of four tiles whose offsets are computed once per line; shorter ones
    go tile by tile, and lines below 64 bytes two bytes at a time.  The planes
    are lists of bytes; a copy outside of one is a fault. *)
From S2P Require Import Prelude Machine Bytes CscTile.

(** [memcpy(dest + doff, src + soff, n)]; a copy of no bytes touches neither plane. *)
Definition memcpy (dest : bytes) (doff : Z) (src : bytes) (soff n : Z) : tool bytes :=
  if n =? 0 then Ret dest
  else if (0 <=? soff) && (soff + n <=? zlength src)
  then mem_write doff (take (Z.to_nat n) (drop (Z.to_nat soff) src)) dest
  else Crash OutOfBounds.

Definition load_byte (src : bytes) (a : Z) : tool Z :=
  match zlookup src a with Some b => Ret b | None => Crash OutOfBounds end.
Definition store_byte (dest : bytes) (a b : Z) : tool bytes := mem_write a [b] dest.

(** [(x >> n) << n] *)
Definition align_down (n x : Z) : Z := u32 (Z.shiftl (Z.shiftr x n) n).

(** ** Lines of 256 bytes and more *)

(** [tiled_offset], [tiled_offset1] and [temp4]: the tiles at the start of the
    group of four that [left] is in, its second half, and the tiles from one
    group to the next. *)
Definition wide_base (width height left i : Z) : Z * Z * Z :=
  let temp3 := Z.shiftr (align_down 8 left) 6 in
  let temp4 := Z.shiftr i 5 in
  let blocks := Z.shiftr (align_down 7 (u32 (width + 127))) 6 in
  if negb (Z.land temp4 1 =? 0) then
    let t := u32 (u32 (temp4 - 1) * blocks) in
    let t := u32 (t + temp3) in
    let t := u32 (t + 2) in
    let t := u32 (t + align_down 2 temp3) in
    let t := u32 (Z.shiftl t 11) in
    (t, u32 (t + 2048 * 2), 8)
  else
    let temp2 := align_down 5 (u32 (height + 31)) in
    if u32 (i + 32) <? temp2 then
      let t := u32 (temp3 + align_down 2 (u32 (temp3 + 2))) in
      let t := u32 (t + u32 (temp4 * blocks)) in
      let t := u32 (Z.shiftl t 11) in
      (t, u32 (t + 2048 * 6), 8)
    else
      let t := u32 (u32 (temp4 * blocks) + temp3) in
      let t := u32 (Z.shiftl t 11) in
      (t, u32 (t + 2048 * 2), 4).

(** The functions below take the copy as an argument: [copy s lin til n] copies [n]
    bytes of the tiled plane from [til] on to the linear offset [lin].  [unit] is
    how many bytes of a line make one step of that offset: 1 for a plane that is
    copied as it is, 2 where the bytes of a line go to two planes in turn. *)
Section copy.
Context {S : Type} (copy : S -> Z -> Z -> Z -> tool S) (unit : Z).

(** The rest of the group of four tiles that [left] is in. *)
Definition wide_left (t t1 lin temp3 temp1 : Z) (s : S) : tool (S * Z) :=
  if 192 <? temp3 then
    do s <- copy s lin (t + temp1) (64 - temp1) ;
    do s <- copy s (lin + (64 / unit - temp1 / unit)) (t + 2048) 64 ;
    do s <- copy s (lin + (128 / unit - temp1 / unit)) t1 64 ;
    do s <- copy s (lin + (192 / unit - temp1 / unit)) (t1 + 2048) 64 ;
    Ret (s, u32 (lin + 256 / unit - temp1 / unit))
  else if 128 <? temp3 then
    do s <- copy s lin (t + 2048 + temp1) (64 - temp1) ;
    do s <- copy s (lin + (64 / unit - temp1 / unit)) t1 64 ;
    do s <- copy s (lin + (128 / unit - temp1 / unit)) (t1 + 2048) 64 ;
    Ret (s, u32 (lin + 192 / unit - temp1 / unit))
  else if 64 <? temp3 then
    do s <- copy s lin (t1 + temp1) (64 - temp1) ;
    do s <- copy s (lin + (64 / unit - temp1 / unit)) (t1 + 2048) 64 ;
    Ret (s, u32 (lin + 128 / unit - temp1 / unit))
  else if 0 <? temp3 then
    do s <- copy s lin (t1 + 2048 + temp1) (64 - temp1) ;
    Ret (s, u32 (lin + 64 / unit - temp1 / unit))
  else Ret (s, lin).

(** [for (; j <= temp2; j = j + 256)]: whole groups; the variables afterwards. *)
Fixpoint wide_groups (fuel : nat) (step temp2 j t t1 lin : Z) (s : S) : tool (S * Z * Z * Z * Z) :=
  match fuel with
  | O => Crash Diverges
  | Datatypes.S fuel =>
      if j <=? temp2 then
        do s <- copy s lin t 64 ;
        let t1 := u32 (t1 + step * 2048) in
        do s <- copy s (lin + 64 / unit) (t + 2048) 64 ;
        do s <- copy s (lin + 128 / unit) t1 64 ;
        do s <- copy s (lin + 192 / unit) (t1 + 2048) 64 ;
        wide_groups fuel step temp2 (u32 (j + 256)) (u32 (t + step * 2048)) t1 (u32 (lin + 256 / unit)) s
      else Ret (s, j, t, t1, lin)
  end.

(** What is left after the last whole group. *)
Definition wide_right (t t1 lin temp2 : Z) (s : S) : tool S :=
  if 192 <? temp2 then
    do s <- copy s lin t 64 ;
    do s <- copy s (lin + 64 / unit) (t + 2048) 64 ;
    do s <- copy s (lin + 128 / unit) t1 64 ;
    copy s (lin + 192 / unit) (t1 + 2048) (temp2 - 192)
  else if 128 <? temp2 then
    do s <- copy s lin t 64 ;
    do s <- copy s (lin + 64 / unit) (t + 2048) 64 ;
    copy s (lin + 128 / unit) t1 (temp2 - 128)
  else if 64 <? temp2 then
    do s <- copy s lin t 64 ;
    copy s (lin + 64 / unit) (t + 2048) (temp2 - 64)
  else copy s lin t temp2.

Definition wide_line (width height left top right i : Z) (s : S) : tool S :=
  let '(t, t1, step) := wide_base width height left i in
  let t := u32 (t + 64 * Z.land i 0x1f) in
  let t1 := u32 (t1 + 64 * Z.land i 0x1f) in
  let lin := u32 (u32 (width - left - right) * u32 (i - top)) / unit in
  let temp3 := u32 (align_down 8 (u32 (left + 256)) - left) in
  do r <- wide_left t t1 lin temp3 (Z.land left 0x3f) s ;
  let '(s, lin) := r in
  let t := u32 (t + step * 2048) in
  let j := u32 (align_down 8 left + 256) in
  let temp2 := u32 (width - right - 256) in
  do r <- wide_groups (Datatypes.S (Datatypes.S (Z.to_nat (temp2 / 256)))) step temp2 j t t1 lin s ;
  let '(s, j, t, t1, lin) := r in
  wide_right t (u32 (t1 + step * 2048)) lin (u32 (width - right - j)) s.

(** ** Lines of 64 to 255 bytes *)

(** [if ((j+64) <= temp3) {...}]: one more whole tile. *)
Definition tile_step (width height temp3 i : Z) (r : S * Z * Z) : tool (S * Z * Z) :=
  let '(s, j, lin) := r in
  if u32 (j + 64) <=? temp3 then
    do s <- copy s lin (u32 (tile_4x2_read width height j i)) 64 ;
    Ret (s, u32 (j + 64), u32 (lin + 64 / unit))
  else Ret r.

Definition tile_line (width height left top temp1 temp3 i : Z) (s : S) : tool S :=
  let j := left in
  let t := u32 (tile_4x2_read width height j i) in
  let temp2 := u32 (align_down 6 (u32 (j + 64)) - j) in
  let lin := u32 (temp1 * u32 (i - top)) / unit in
  let t := u32 (t + Z.land j 3) in
  do s <- copy s lin t temp2 ;
  let lin := u32 (lin + temp2 / unit) in
  let j := u32 (j + temp2) in
  do r <- tile_step width height temp3 i (s, j, lin) ;
  do r <- tile_step width height temp3 i r ;
  let '(s, j, lin) := r in
  if j <? temp3 then copy s lin (u32 (tile_4x2_read width height j i)) (u32 (temp3 - j))
  else Ret s.

(** ** Lines below 64 bytes *)

(** [for (j = left; j < yuv420_width - right; j = j + 2)] *)
Fixpoint narrow_line (fuel : nat) (width height limit i j lin : Z) (s : S) : tool S :=
  match fuel with
  | O => Crash Diverges
  | Datatypes.S fuel =>
      if j <? limit then
        let t := u32 (tile_4x2_read width height j i) in
        let t := u32 (t + Z.land j 3) in
        do s <- copy s lin t 2 ;
        narrow_line fuel width height limit i (u32 (j + 2)) (u32 (lin + 2 / unit)) s
      else Ret s
  end.

(** ** All lines *)

(** [for (i = start; i < ...; i = i + 1)], [n] rounds. *)
Fixpoint for_lines (n : nat) (i : Z) (line : Z -> S -> tool S) (s : S) : tool S :=
  match n with
  | O => Ret s
  | Datatypes.S n => do s <- line i s ; for_lines n (i + 1) line s
  end.

Definition tiled_to_linear (width height left top right buttom : Z) (s : S) : tool S :=
  let temp3 := u32 (width - right) in
  let temp1 := u32 (temp3 - left) in
  let lines := Z.to_nat (u32 (height - buttom) - top) in
  if 256 <=? temp1 then for_lines lines top (wide_line width height left top right) s
  else if 64 <=? temp1 then for_lines lines top (tile_line width height left top temp1 temp3) s
  else
    for_lines lines top (fun i s =>
      narrow_line 33 width height (u32 (width - right)) i left (u32 (temp1 * u32 (i - top)) / unit) s) s.
End copy.

(** ** The functions *)
Definition csc_tiled_to_linear_crop (dest src : bytes) (width height left top right buttom : Z)
  : tool bytes :=
  tiled_to_linear (fun dest lin til n => memcpy dest lin src til n) 1 width height left top right buttom dest.

Definition csc_tiled_to_linear_y (y_dst y_src : bytes) (width height : Z) : tool bytes :=
  csc_tiled_to_linear_crop y_dst y_src width height 0 0 0 0.
Definition csc_tiled_to_linear_uv (uv_dst uv_src : bytes) (width height : Z) : tool bytes :=
  csc_tiled_to_linear_crop uv_dst uv_src width height 0 0 0 0.

(** [for (i = 0; i < src_size / 2; i++)], from [i] on, [n] rounds; [d] and [s] are
    the offsets of the pointers in their planes. *)
Fixpoint deinterleave_loop (n : nat) (i : Z) (dest : bytes * bytes) (d : Z) (src : bytes) (s : Z)
  : tool (bytes * bytes) :=
  match n with
  | O => Ret dest
  | S n =>
      let '(dest1, dest2) := dest in
      do b <- load_byte src (s + i * 2) ;
      do dest1 <- store_byte dest1 (d + i) b ;
      do b <- load_byte src (s + i * 2 + 1) ;
      do dest2 <- store_byte dest2 (d + i) b ;
      deinterleave_loop n (i + 1) (dest1, dest2) d src s
  end.
Definition csc_deinterleave_memcpy (dest : bytes * bytes) (d : Z) (src : bytes) (s src_size : Z)
  : tool (bytes * bytes) :=
  deinterleave_loop (Z.to_nat (src_size / 2)) 0 dest d src s.

Definition csc_tiled_to_linear_deinterleave_crop (u_dest v_dest uv_src : bytes)
    (width height left top right buttom : Z) : tool (bytes * bytes) :=
  tiled_to_linear (fun dest lin til n => csc_deinterleave_memcpy dest lin uv_src til n) 2
    width height left top right buttom (u_dest, v_dest).

Definition csc_tiled_to_linear_uv_deinterleave (u_dst v_dst uv_src : bytes) (width height : Z)
  : tool (bytes * bytes) :=
  csc_tiled_to_linear_deinterleave_crop u_dst v_dst uv_src width height 0 0 0 0.

(** ** Runs that end with a value *)
Definition yields {A} (m : tool A) (P : A -> Prop) : Prop := exists a, m = Ret a /\ P a.

Lemma yields_ret {A} (a : A) (P : A -> Prop) : P a -> yields (Ret a) P.
Proof. by exists a. Qed.
Lemma yields_bind {A B} (m : tool A) (f : A -> tool B) P Q :
  yields m P -> (forall a, P a -> yields (f a) Q) -> yields (tbind m f) Q.
Proof. intros (a & -> & Ha) Hf. by apply Hf. Qed.
Lemma yields_mono {A} (m : tool A) (P Q : A -> Prop) :
  yields m P -> (forall a, P a -> Q a) -> yields m Q.
Proof. intros (a & -> & Ha) Hf. exists a. auto. Qed.

(** ** Lookups in a plane *)
Lemma zlookup_app {A} (l k : list A) a : 0 <= a ->
  zlookup (l ++ k) a = if a <? zlength l then zlookup l a else zlookup k (a - zlength l).
Proof.
  intros Ha. unfold zlookup, zlength. rewrite (proj2 (Z.leb_le 0 a)) by lia.
  destruct (Z.ltb_spec a (Z.of_nat (length l))); [apply lookup_app_l; lia|].
  rewrite (proj2 (Z.leb_le 0 _)), lookup_app_r by lia. f_equal. lia.
Qed.

Lemma zlookup_piece {A} (l : list A) off n a : 0 <= off -> 0 <= a < n ->
  zlookup (take (Z.to_nat n) (drop (Z.to_nat off) l)) a = zlookup l (off + a).
Proof.
  intros. unfold zlookup. rewrite !(proj2 (Z.leb_le 0 _)) by lia.
  rewrite lookup_take_lt, lookup_drop by lia. f_equal. lia.
Qed.

Lemma zlookup_ext {A} (l k : list A) :
  zlength l = zlength k -> (forall a, 0 <= a < zlength l -> zlookup l a = zlookup k a) -> l = k.
Proof.
  intros Hlen Hl. apply list_eq. intros i. destruct (decide (i < length l)%nat) as [Hi|Hi].
  - rewrite <- !zlookup_of_nat. apply Hl. unfold zlength. lia.
  - unfold zlength in Hlen. rewrite !lookup_ge_None_2 by lia. done.
Qed.

Lemma zlookup_mem_write off data l l' a : mem_write off data l = Ret l' -> 0 <= a ->
  zlookup l' a = if (off <=? a) && (a <? off + zlength data) then zlookup data (a - off) else zlookup l a.
Proof.
  unfold mem_write. destruct (Z.leb_spec 0 off); [|done].
  destruct (Z.leb_spec (off + zlength data) (zlength l)) as [Hle|]; [|done]. intros [= <-] Ha.
  pose proof (zlength_nonneg data). pose proof (zlength_nonneg l).
  assert (zlength (take (Z.to_nat off) l) = off) as Ht.
  { unfold zlength in *. rewrite length_take. lia. }
  rewrite zlookup_app, Ht by lia. destruct (Z.ltb_spec a off), (Z.leb_spec off a); try lia; simpl.
  - pose proof (zlookup_piece l 0 off a ltac:(lia) ltac:(lia)) as Hp. by rewrite drop_0 in Hp.
  - rewrite zlookup_app by lia.
    destruct (Z.ltb_spec (a - off) (zlength data)), (Z.ltb_spec a (off + zlength data)); try lia; [done|].
    unfold zlookup. rewrite !(proj2 (Z.leb_le 0 _)), lookup_drop by lia. f_equal. lia.
Qed.

Lemma memcpy_run dest doff src soff n :
  0 <= n -> 0 <= doff -> doff + n <= zlength dest -> 0 <= soff -> soff + n <= zlength src ->
  yields (memcpy dest doff src soff n) (fun d => zlength d = zlength dest /\
    forall a, 0 <= a -> zlookup d a =
      if (doff <=? a) && (a <? doff + n) then zlookup src (soff + (a - doff)) else zlookup dest a).
Proof.
  intros Hn Hd Hdn Hs Hsn. unfold memcpy. destruct (Z.eqb_spec n 0) as [->|Hn0].
  { apply yields_ret. split; [done|]. intros a Ha.
    destruct (Z.leb_spec doff a), (Z.ltb_spec a (doff + 0)); try lia; done. }
  rewrite !(proj2 (Z.leb_le _ _)) by lia. simpl.
  set (data := take _ _). assert (zlength data = n) as Hlen.
  { unfold data, zlength in *. rewrite length_take, length_drop. lia. }
  destruct (mem_write doff data dest) as [d| |] eqn:Hw.
  2-3: exfalso; revert Hw; unfold mem_write; by rewrite Hlen, !(proj2 (Z.leb_le _ _)) by lia.
  exists d. split; [done|]. split; [by eapply mem_write_size|]. intros a Ha.
  rewrite (zlookup_mem_write _ _ _ _ _ Hw Ha), Hlen.
  destruct (Z.leb_spec doff a), (Z.ltb_spec a (doff + n)); try done. simpl.
  unfold data. apply zlookup_piece; lia.
Qed.

(** ** Single bytes *)
Lemma load_byte_run src a : 0 <= a < zlength src ->
  yields (load_byte src a) (fun b => zlookup src a = Some b).
Proof.
  intros Ha. unfold load_byte. destruct (zlookup_in_range src a Ha) as [b Hb]. rewrite Hb. by apply yields_ret.
Qed.

Lemma store_byte_run dest a b : 0 <= a < zlength dest ->
  yields (store_byte dest a b) (fun d => zlength d = zlength dest /\
    forall k, 0 <= k -> zlookup d k = if k =? a then Some b else zlookup dest k).
Proof.
  intros Ha. unfold store_byte. destruct (mem_write a [b] dest) as [d| |] eqn:Hm.
  2-3: revert Hm; unfold mem_write; change (zlength [b]) with 1; by rewrite !(proj2 (Z.leb_le _ _)) by lia.
  exists d. split; [done|]. split; [by eapply mem_write_size|]. intros k Hk.
  rewrite (zlookup_mem_write _ _ _ _ _ Hm Hk). change (zlength [b]) with 1.
  destruct (Z.leb_spec a k), (Z.ltb_spec k (a + 1)), (Z.eqb_spec k a); try lia; try done; simpl.
  by replace (k - a) with 0 by lia.
Qed.

(** Removes the wrap-around of numbers in range, the inner ones first. *)
Ltac unwrap :=
  repeat match goal with
  | |- context [u32 ?e] =>
      lazymatch e with
      | context [u32 _] => fail
      | _ => rewrite (u32_id e) by (unfold is_u32; lia)
      end
  end.

(** ** Groups of four tiles *)
Definition group_half (last Y : Z) : Z := if Z.odd Y then 2 else if Y <? last then 6 else 2.
Definition group_step (last Y : Z) : Z := if Z.odd Y then 8 else if Y <? last then 8 else 4.

Lemma tile_index_group rx last q Y :
  tile_index rx last (4 * q + 1) Y = tile_index rx last (4 * q) Y + 1 /\
  tile_index rx last (4 * q + 2) Y = tile_index rx last (4 * q) Y + group_half last Y /\
  tile_index rx last (4 * q + 3) Y = tile_index rx last (4 * q + 2) Y + 1 /\
  tile_index rx last (4 * (q + 1)) Y = tile_index rx last (4 * q) Y + group_step last Y.
Proof. unfold tile_index, group_half, group_step. split_and!; case_match; try case_match; zdiv. Qed.

Lemma align_down_div n m x : 0 <= n -> 2 ^ n = m -> 0 <= x < 2 ^ 32 -> align_down n x = x / m * m.
Proof.
  intros Hn Hm Hx. assert (0 < m) by (subst m; apply Z.pow_pos_nonneg; lia).
  unfold align_down. rewrite (shr_div _ n m), (shl_mul _ n m) by done. apply u32_id. unfold is_u32.
  pose proof (Z.div_mod x m ltac:(lia)). pose proof (Z.mod_pos_bound x m ltac:(lia)).
  assert (0 <= x / m) by (apply Z.div_pos; lia). nia.
Qed.

(** A column in its group of four tiles. *)
Lemma group_split x : exists b, x mod 256 = 64 * b + x mod 64 /\ 0 <= b < 4 /\ 0 <= x mod 64 < 64 /\
  x = 256 * (x / 256) + x mod 256 /\ 0 <= x mod 256 < 256.
Proof. exists (x mod 256 / 64). zdiv. Qed.

(** A column in its tile. *)
Lemma tile_split x : 0 <= x -> 0 <= x / 64 /\ x = 64 * (x / 64) + x mod 64 /\ 0 <= x mod 64 < 64 /\
  0 <= x mod 4 <= x mod 64.
Proof. zdiv. Qed.

Lemma even_add a b : a mod 2 = 0 -> b mod 2 = 0 -> (a + b) mod 2 = 0.
Proof. zdiv. Qed.

(** A round of the loop over pairs of bytes. *)
Lemma narrow_round x c w : x mod 2 = 0 -> c mod 2 = 0 -> w mod 2 = 0 -> 0 <= x -> 0 <= c < w ->
  x mod 64 <= 62 /\ (c + 2) mod 2 = 0 /\ c + 2 <= w /\ 0 <= (w - (c + 2)) / 2 < (w - c) / 2.
Proof. zdiv. Qed.

Section line.
Context (width height left top right buttom : Z).
Hypothesis (Hw : 0 < width <= 16384) (Hh : 0 < height <= 16384).
Hypothesis (Hleft : 0 <= left) (Hright : 0 <= right) (Hlr : left + right < width).
Hypothesis (Htop : 0 <= top) (Hbot : 0 <= buttom) (Htb : top + buttom <= height).

(** The line [i] of a column of tiles. *)
Definition line_at (X i : Z) : Z :=
  2048 * tile_index (half_columns width) (last_row height) X (i / 32) + 64 * (i mod 32).

Lemma wide_base_spec i : 0 <= i < height ->
  wide_base width height left i =
    (2048 * tile_index (half_columns width) (last_row height) (4 * (left / 256)) (i / 32),
     2048 * tile_index (half_columns width) (last_row height) (4 * (left / 256) + 2) (i / 32),
     group_step (last_row height) (i / 32)).
Proof.
  intros Hi. unfold wide_base. cbv zeta.
  rewrite !(align_down_div 8 256), !(u32_id (width + 127)), !(u32_id (height + 31)), !(u32_id (i + 32))
    by (done || unfold is_u32; lia).
  rewrite !(align_down_div 7 128), !(align_down_div 5 32) by (done || lia).
  rewrite !(shr_div _ 6 64), !(shr_div _ 5 32), (land_mod _ 1 2 1) by done.
  replace (left / 256 * 256 / 64) with (4 * (left / 256)) by zdiv.
  replace ((width + 127) / 128 * 128 / 64) with (2 * half_columns width) by (unfold half_columns; zdiv).
  replace (i + 32 <? (height + 31) / 32 * 32) with (i / 32 <? last_row height)
    by (unfold last_row; destruct (Z.ltb_spec (i / 32) ((height - 1) / 32)); symmetry;
        [apply Z.ltb_lt|apply Z.ltb_ge]; zdiv).
  pose proof (half_columns_bounds width Hw) as Hrx. pose proof (row_range height i Hi) as HY.
  pose proof (last_row_bounds height Hh) as HL.
  set (q := left / 256). assert (0 <= q < 64) as Hq by (unfold q; zdiv).
  set (Y := i / 32) in *. set (rx := half_columns width) in *. set (l := last_row height) in *.
  destruct (tile_index_group rx l q Y) as (_ & -> & _ & _).
  assert (0 <= Y * (2 * rx) <= 511 * 256) as HP
    by (split; [apply Z.mul_nonneg_nonneg|apply Z.mul_le_mono_nonneg]; lia).
  rewrite (u32_id (4 * q + 2)), !(align_down_div 2 4) by (done || unfold is_u32; lia).
  unfold group_half, group_step, tile_index. rewrite odd_mod.
  replace ((4 * q + 2) / 4) with q by zdiv. replace (4 * q / 4) with q by zdiv.
  rewrite !(shl_mul _ 11 2048) by done.
  destruct (Z.eqb_spec (Y mod 2) 0) as [He|Ho]; simpl negb.
  - rewrite (proj2 (Z.eqb_neq _ _)) by lia.
    case_match; unwrap; f_equal; f_equal; ring.
  - assert (Y mod 2 = 1) as Ho' by zdiv. rewrite Ho', Z.eqb_refl.
    assert (1 <= Y) by zdiv. assert (2 * rx <= Y * (2 * rx)) by nia.
    assert (0 <= (Y - 1) * (2 * rx) <= 511 * 256) by lia.
    unwrap. f_equal; f_equal; ring.
Qed.

(** The size of the crop. *)
Definition crop_width : Z := width - left - right.
Definition crop_height : Z := height - top - buttom.

Lemma crop_width_pos : 0 < crop_width.
Proof. unfold crop_width. lia. Qed.

Lemma line_at_group q i :
  line_at (4 * q + 1) i = line_at (4 * q) i + 2048 /\
  line_at (4 * q + 3) i = line_at (4 * q + 2) i + 2048 /\
  line_at (4 * (q + 1)) i = line_at (4 * q) i + group_step (last_row height) (i / 32) * 2048 /\
  line_at (4 * (q + 1) + 2) i = line_at (4 * q + 2) i + group_step (last_row height) (i / 32) * 2048.
Proof.
  unfold line_at. destruct (tile_index_group (half_columns width) (last_row height) q (i / 32))
    as (H1 & H2 & H3 & H4).
  destruct (tile_index_group (half_columns width) (last_row height) (q + 1) (i / 32))
    as (_ & H2' & _ & _). lia.
Qed.

Lemma line_start y : 0 <= y < crop_height -> 0 <= crop_width * y <= 2 ^ 28.
Proof.
  intros. pose proof crop_width_pos. unfold crop_width, crop_height in *.
  split; [apply Z.mul_nonneg_nonneg|change (2 ^ 28) with (16384 * 16384); apply Z.mul_le_mono_nonneg]; lia.
Qed.

Lemma line_at_bound X i : 0 <= X <= 300 -> 0 <= i < height -> 0 <= line_at X i < 2 ^ 30.
Proof.
  intros HX Hi. pose proof (half_columns_bounds width Hw). pose proof (row_range height i Hi).
  pose proof (last_row_bounds height Hh). unfold line_at, tile_index. rewrite odd_mod.
  set (Y := i / 32) in *. set (rx := half_columns width) in *.
  assert (0 <= Y * rx <= 511 * 128) by (split; [apply Z.mul_nonneg_nonneg|apply Z.mul_le_mono_nonneg]; lia).
  assert (Y mod 2 = 1 -> rx <= Y * rx) by (intros; assert (1 <= Y) by zdiv; nia).
  destruct (Z.eqb_spec (Y mod 2) 1); [|case_match]; zdiv.
Qed.

Lemma tile_read_line x i : 0 <= x < width -> 0 <= i < height ->
  tile_4x2_read width height x i = line_at (x / 64) i + (x mod 64 - x mod 4).
Proof.
  intros Hx Hi. pose proof (tile_4x2_read_address width height Hw Hh x i Hx Hi) as Ha.
  unfold tiled_address in Ha. unfold line_at. lia.
Qed.

Lemma tile_read_column X i : 0 <= 64 * X < width -> 0 <= i < height ->
  tile_4x2_read width height (64 * X) i = line_at X i.
Proof.
  intros Hx Hi. rewrite tile_read_line by done.
  assert (64 * X / 64 = X /\ 64 * X mod 64 = 0 /\ 64 * X mod 4 = 0) as (-> & -> & ->) by zdiv. lia.
Qed.

(** ** Copies in the order of the line

    The proofs hold for every [copy] that takes a state in which the first [k]
    bytes have been copied ([at_ k]) to one with [n] more, when it is given the
    next [n] bytes of a line within one tile.  The linear offset is [k] in units. *)
Context {S : Type} (copy : S -> Z -> Z -> Z -> tool S) (unit : Z) (at_ : Z -> S -> Prop).
Hypothesis (Hunit : unit = 1 \/ unit = 2).
Hypothesis (Hlu : left mod unit = 0) (Hwu : crop_width mod unit = 0).
Hypothesis Hcopy : forall y X o n k off til s,
  0 <= y < crop_height -> 0 <= o -> 0 <= n -> o + n <= 64 -> n mod unit = 0 ->
  left <= 64 * X + o -> 64 * X + o + n <= width - right ->
  k = crop_width * y + (64 * X + o - left) -> unit * off = k -> til = line_at X (top + y) + o ->
  at_ k s -> yields (copy s off til n) (at_ (k + n)).

Lemma unit_div n : n mod unit = 0 -> unit * (n / unit) = n.
Proof. intros Hn. symmetry. apply Z.div_exact; lia. Qed.
Lemma unit_even n : n mod 2 = 0 -> n mod unit = 0.
Proof. destruct Hunit as [-> | ->]; [intros; apply Z.mod_1_r|done]. Qed.
Lemma unit_sub a b : a mod unit = 0 -> b mod unit = 0 -> (a - b) mod unit = 0.
Proof. destruct Hunit as [-> | ->]; [intros; apply Z.mod_1_r|zdiv]. Qed.
Lemma unit_range e v : unit * e = v -> 0 <= v < 2 ^ 32 -> is_u32 e.
Proof. unfold is_u32. destruct Hunit as [-> | ->]; lia. Qed.
Lemma unit_left n : n = 64 \/ n = 256 -> left mod n mod unit = 0.
Proof. destruct Hunit as [-> | ->]; [intros; apply Z.mod_1_r|]. intros [-> | ->]; zdiv. Qed.
Lemma unit_line y : crop_width * y mod unit = 0.
Proof. rewrite Z.mul_mod, Hwu, Z.mul_0_l by lia. by apply Z.mod_0_l; lia. Qed.

Lemma unit_end q : (width - right - 256 * q) mod unit = 0.
Proof.
  destruct Hunit as [E|E]; rewrite E in *; [apply Z.mod_1_r|]. clear Hcopy. unfold crop_width in Hwu. zdiv.
Qed.
Lemma unit_end_tile X : (width - right - 64 * X) mod unit = 0.
Proof.
  destruct Hunit as [E|E]; rewrite E in *; [apply Z.mod_1_r|]. clear Hcopy. unfold crop_width in Hwu. zdiv.
Qed.

(** The constants in units. *)
Lemma unit_consts : unit * (64 / unit) = 64 /\ unit * (128 / unit) = 128 /\ unit * (192 / unit) = 192 /\
  unit * (256 / unit) = 256 /\ unit * (2 / unit) = 2.
Proof. split_and!; by apply unit_div, unit_even. Qed.

(** Copies the bytes from [o] on of the tile column [X] and goes on. *)
Ltac at_here :=
  match goal with H : at_ ?k ?d |- at_ ?k' ?d => replace k' with k by lia; exact H end.
Ltac piece y X o :=
  match goal with
  | H : at_ ?k ?s |- yields (copy ?s _ _ _) _ => apply (Hcopy y X o _ k); try exact H; try lia; try done
  end.
Ltac piece_then y X o := eapply yields_bind; [piece y X o|intros ? ?].
(** Removes the wrap-around of an offset whose value in bytes is [v]. *)
Ltac unwrap_off v := rewrite u32_id by (apply (unit_range _ v); lia).

Lemma wide_left_run y q off s : 0 <= y < crop_height -> 256 <= crop_width -> q = left / 256 ->
  unit * off = crop_width * y -> at_ (crop_width * y) s ->
  yields (wide_left copy unit (line_at (4 * q) (top + y)) (line_at (4 * q + 2) (top + y)) off
            (256 - left mod 256) (left mod 64) s)
    (fun '(s, off) => unit * off = crop_width * y + (256 * (q + 1) - left) /\
       at_ (crop_width * y + (256 * (q + 1) - left)) s).
Proof.
  intros Hy Hcw Hq Hoff Hc. pose proof (line_start y Hy) as Hlin.
  destruct (line_at_group q (top + y)) as (E1 & E3 & _ & _).
  destruct unit_consts as (U64 & U128 & U192 & U256 & _).
  pose proof (unit_div _ (unit_left 64 ltac:(lia))) as Ur.
  assert ((64 - left mod 64) mod unit = 0) as Un
    by (apply unit_sub; [by apply unit_even|apply unit_left; lia]).
  assert (64 mod unit = 0) as Um by (by apply unit_even).
  destruct (group_split left) as (b & Hb & Hb4 & Hr64 & Hl & Hr). rewrite <- Hq in Hl.
  generalize dependent (left mod 256). generalize dependent (left mod 64). intros r Ur Un Hr64 r' Hl Hr Hb.
  unfold wide_left. assert (crop_width = width - left - right) as Hcwe by done.
  destruct (Z.ltb_spec 192 (256 - r')).
  { assert (b = 0) as -> by lia.
    piece_then y (4 * q) r. piece_then y (4 * q + 1) 0. piece_then y (4 * q + 2) 0.
    piece_then y (4 * q + 3) 0. apply yields_ret. unwrap_off (crop_width * y + 256 - r).
    split; [lia|at_here]. }
  destruct (Z.ltb_spec 128 (256 - r')).
  { assert (b = 1) as -> by lia.
    piece_then y (4 * q + 1) r. piece_then y (4 * q + 2) 0. piece_then y (4 * q + 3) 0.
    apply yields_ret. unwrap_off (crop_width * y + 192 - r). split; [lia|at_here]. }
  destruct (Z.ltb_spec 64 (256 - r')).
  { assert (b = 2) as -> by lia.
    piece_then y (4 * q + 2) r. piece_then y (4 * q + 3) 0.
    apply yields_ret. unwrap_off (crop_width * y + 128 - r). split; [lia|at_here]. }
  assert (b = 3) as -> by lia. rewrite (proj2 (Z.ltb_lt _ _)) by lia.
  piece_then y (4 * q + 3) r. apply yields_ret. unwrap_off (crop_width * y + 64 - r). split; [lia|at_here].
Qed.

(** After the groups: [j] is the start of the last one, below 256 bytes are left. *)
Lemma wide_groups_run y fuel : forall q off s,
  0 <= y < crop_height -> 0 < q -> left <= 256 * q <= width - right ->
  (Z.to_nat ((width - right) / 256 - q) < fuel)%nat ->
  unit * off = crop_width * y + (256 * q - left) -> at_ (crop_width * y + (256 * q - left)) s ->
  yields (wide_groups copy unit fuel (group_step (last_row height) ((top + y) / 32)) (width - right - 256)
            (256 * q) (line_at (4 * q) (top + y)) (line_at (4 * (q - 1) + 2) (top + y)) off s)
    (fun '(s, j, t, t1, off) => exists q', 0 < q' /\ j = 256 * q' /\ left <= j <= width - right /\
       width - right < j + 256 /\
       t = line_at (4 * q') (top + y) /\ t1 = line_at (4 * (q' - 1) + 2) (top + y) /\
       unit * off = crop_width * y + (j - left) /\ at_ (crop_width * y + (j - left)) s).
Proof.
  induction fuel as [|fuel IH]; intros q off s Hy Hq Hj Hfuel Hoff Hc; [lia|].
  pose proof (line_start y Hy) as Hlin. assert (crop_width = width - left - right) as Hcwe by done.
  cbn [wide_groups]. destruct (Z.leb_spec (256 * q) (width - right - 256)) as [Hle|Hgt].
  2: { apply yields_ret. exists q. split_and!; try done; lia. }
  assert (0 <= top + y < height) as Hi by (unfold crop_height in *; lia).
  assert (q + 1 <= (width - right) / 256) by (apply Z.div_le_lower_bound; lia).
  destruct unit_consts as (U64 & U128 & U192 & U256 & _).
  assert (64 mod unit = 0) as Um by (by apply unit_even).
  destruct (line_at_group q (top + y)) as (E1 & E3 & E4 & _).
  destruct (line_at_group (q - 1) (top + y)) as (_ & _ & _ & E2).
  replace (q - 1 + 1) with q in E2 by lia. rewrite <- E2, <- E4.
  pose proof (line_at_bound (4 * (q + 1)) (top + y) ltac:(lia) Hi).
  pose proof (line_at_bound (4 * q + 2) (top + y) ltac:(lia) Hi).
  rewrite (u32_id (line_at _ _)), (u32_id (line_at _ _)), (u32_id (256 * q + 256)) by (unfold is_u32; lia).
  rewrite (u32_id (off + _)) by (apply (unit_range _ (crop_width * y + (256 * q - left) + 256)); lia).
  piece_then y (4 * q) 0. piece_then y (4 * q + 1) 0. piece_then y (4 * q + 2) 0.
  piece_then y (4 * q + 3) 0.
  replace (256 * q + 256) with (256 * (q + 1)) by lia.
  replace (line_at (4 * q + 2) (top + y)) with (line_at (4 * (q + 1 - 1) + 2) (top + y)) by (do 2 f_equal; lia).
  apply IH; [done|lia|lia|lia|lia|at_here].
Qed.

Lemma wide_right_run y q off s : 0 <= y < crop_height -> 0 <= q ->
  left <= 256 * q <= width - right -> width - right < 256 * q + 256 ->
  unit * off = crop_width * y + (256 * q - left) -> at_ (crop_width * y + (256 * q - left)) s ->
  yields (wide_right copy unit (line_at (4 * q) (top + y)) (line_at (4 * q + 2) (top + y)) off
            (width - right - 256 * q) s)
    (at_ (crop_width * (y + 1))).
Proof.
  intros Hy Hq Hj Hj' Hoff Hc. assert (crop_width = width - left - right) as Hcwe by done.
  destruct (line_at_group q (top + y)) as (E1 & E3 & _ & _). unfold wide_right.
  destruct unit_consts as (U64 & U128 & U192 & _ & _).
  assert (64 mod unit = 0) as Um by (by apply unit_even).
  assert ((width - right - 256 * q) mod unit = 0) as Ue by (apply unit_end).
  assert (forall c, c mod 2 = 0 -> (width - right - 256 * q - c) mod unit = 0) as Ur
    by (intros; apply unit_sub; [done|by apply unit_even]).
  pose proof (Ur 192 eq_refl). pose proof (Ur 128 eq_refl). pose proof (Ur 64 eq_refl).
  assert (crop_width * (y + 1) = crop_width * y + (width - right - left)) as -> by lia.
  destruct (Z.ltb_spec 192 (width - right - 256 * q)).
  { piece_then y (4 * q) 0. piece_then y (4 * q + 1) 0. piece_then y (4 * q + 2) 0.
    eapply yields_mono; [piece y (4 * q + 3) 0|]. intros. at_here. }
  destruct (Z.ltb_spec 128 (width - right - 256 * q)).
  { piece_then y (4 * q) 0. piece_then y (4 * q + 1) 0.
    eapply yields_mono; [piece y (4 * q + 2) 0|]. intros. at_here. }
  destruct (Z.ltb_spec 64 (width - right - 256 * q)).
  { piece_then y (4 * q) 0. eapply yields_mono; [piece y (4 * q + 1) 0|]. intros. at_here. }
  eapply yields_mono; [piece y (4 * q) 0|]. intros. at_here.
Qed.

Lemma wide_line_run y s : 0 <= y < crop_height -> 256 <= crop_width ->
  at_ (crop_width * y) s ->
  yields (wide_line copy unit width height left top right (top + y) s) (at_ (crop_width * (y + 1))).
Proof.
  intros Hy Hcw Hc. pose proof (line_start y Hy) as Hlin.
  assert (crop_width = width - left - right) as Hcwe by done.
  assert (0 <= top + y < height) as Hi by (unfold crop_height in *; lia).
  unfold wide_line. rewrite wide_base_spec by done.
  destruct (group_split left) as (b & _ & _ & _ & Hl & Hr). set (q := left / 256) in *.
  rewrite (land_mod _ 0x1f 32 5), (land_mod _ 0x3f 64 6) by done.
  rewrite (align_down_div 8 256 left), (u32_id (left + 256)), (align_down_div 8 256 (left + 256))
    by (done || unfold is_u32; lia).
  replace ((left + 256) / 256) with (q + 1) by (replace (left + 256) with (left + 1 * 256) by lia; by rewrite Z.div_add).
  fold q. replace ((q + 1) * 256 - left) with (256 - left mod 256) by lia.
  replace (q * 256 + 256) with (256 * (q + 1)) by lia.
  rewrite <- Hcwe. replace (top + y - top) with y by lia.
  pose proof (line_at_bound (4 * q) (top + y) ltac:(lia) Hi) as Hb0.
  pose proof (line_at_bound (4 * q + 2) (top + y) ltac:(lia) Hi) as Hb2.
  fold (line_at (4 * q) (top + y)) (line_at (4 * q + 2) (top + y)).
  assert (crop_width * y < 2 ^ 32) by lia. unwrap.
  destruct (line_at_group q (top + y)) as (_ & _ & E4 & _). rewrite <- E4.
  pose proof (line_at_bound (4 * (q + 1)) (top + y) ltac:(lia) Hi). unwrap.
  eapply yields_bind; [apply wide_left_run; try done; apply unit_div, unit_line|].
  intros [s1 off] [Hoff Hc1]. eapply yields_bind.
  { replace (line_at (4 * q + 2) (top + y)) with (line_at (4 * (q + 1 - 1) + 2) (top + y))
      by (do 2 f_equal; lia).
    apply wide_groups_run; try done; try lia. rewrite !Nat2Z.inj_lt, !Nat2Z.inj_succ.
    replace (width - right - 256) with (width - right + -1 * 256) by lia. rewrite Z.div_add by lia. lia. }
  intros [[[[s2 j] t] t1] off'] (q' & Hq' & -> & Hj & Hj' & -> & -> & Hoff' & Hc2).
  destruct (line_at_group (q' - 1) (top + y)) as (_ & _ & _ & E2).
  replace (q' - 1 + 1) with q' in E2 by lia. rewrite <- E2.
  pose proof (line_at_bound (4 * q' + 2) (top + y) ltac:(lia) Hi). unwrap.
  apply wide_right_run; try done; lia.
Qed.

(** ** Shorter lines *)
Lemma tile_step_run y X off s : 0 <= y < crop_height -> 0 <= X -> left <= 64 * X <= width - right ->
  unit * off = crop_width * y + (64 * X - left) -> at_ (crop_width * y + (64 * X - left)) s ->
  yields (tile_step copy unit width height (width - right) (top + y) (s, 64 * X, off))
    (fun '(s, j, off) => exists X', X <= X' /\ j = 64 * X' /\ 64 * X' <= width - right /\
       (width - right - 64 * X' < 64 \/ X' = X + 1) /\
       unit * off = crop_width * y + (64 * X' - left) /\ at_ (crop_width * y + (64 * X' - left)) s).
Proof.
  intros Hy HX Hj Hoff Hc. pose proof (line_start y Hy) as Hlin.
  assert (crop_width = width - left - right) as Hcwe by done.
  assert (0 <= top + y < height) as Hi by (unfold crop_height in *; lia).
  destruct unit_consts as (U64 & _). assert (64 mod unit = 0) as Um by (by apply unit_even).
  unfold tile_step. rewrite (u32_id (64 * X + 64)) by (unfold is_u32; lia).
  destruct (Z.leb_spec (64 * X + 64) (width - right)).
  2: { apply yields_ret. exists X. split_and!; try done; lia. }
  rewrite tile_read_column by (done || lia).
  pose proof (line_at_bound X (top + y) ltac:(lia) Hi). rewrite (u32_id (line_at _ _)) by (unfold is_u32; lia).
  unwrap_off (crop_width * y + (64 * X - left) + 64).
  piece_then y X 0. apply yields_ret. exists (X + 1). split_and!; try lia. at_here.
Qed.

Lemma tile_line_run y s : 0 <= y < crop_height -> 64 <= crop_width ->
  crop_width + left mod 64 <= 256 -> at_ (crop_width * y) s ->
  yields (tile_line copy unit width height left top crop_width (width - right) (top + y) s)
    (at_ (crop_width * (y + 1))).
Proof.
  intros Hy Hcw Hfit Hc. pose proof (line_start y Hy) as Hlin.
  assert (crop_width = width - left - right) as Hcwe by done.
  assert (0 <= top + y < height) as Hi by (unfold crop_height in *; lia).
  unfold tile_line. cbv zeta. rewrite (tile_read_line left) by (done || lia).
  destruct (tile_split left Hleft) as (HX & Hl & Hr & Hr4). set (X := left / 64) in *.
  rewrite (u32_id (left + 64)), (align_down_div 6 64), (land_mod _ 3 4 2) by (done || unfold is_u32; lia).
  replace ((left + 64) / 64) with (X + 1) by (replace (left + 64) with (left + 1 * 64) by lia; by rewrite Z.div_add).
  pose proof (line_at_bound X (top + y) ltac:(lia) Hi).
  replace (top + y - top) with y by lia.
  replace ((X + 1) * 64 - left) with (64 - left mod 64) by lia.
  assert ((64 - left mod 64) mod unit = 0) as Un
    by (apply unit_sub; [by apply unit_even|apply unit_left; lia]).
  pose proof (unit_div _ Un) as Hn. pose proof (unit_div _ (unit_line y)) as Hs.
  rewrite (u32_id y), (u32_id (crop_width * y)), (u32_id (64 - _)), (u32_id (left + (64 - _)))
    by (unfold is_u32, crop_height in *; lia).
  rewrite (u32_id (line_at _ _ + _)), (u32_id (_ + left mod 4)) by (unfold is_u32; lia).
  piece_then y X (left mod 64). unwrap_off (crop_width * y + (64 - left mod 64)).
  replace (left + (64 - left mod 64)) with (64 * (X + 1)) by lia.
  eapply yields_bind; [apply tile_step_run; try done; try lia; at_here|].
  intros [[s1 j1] off1] (X1 & HX1 & -> & Hle1 & Hor1 & Hoff1 & Hc1).
  eapply yields_bind; [apply tile_step_run; try done; lia|].
  intros [[s2 j2] off2] (X2 & HX2 & -> & Hle2 & Hor2 & Hoff2 & Hc2).
  assert (crop_width * (y + 1) = crop_width * y + (width - right - left)) as -> by lia.
  destruct (Z.ltb_spec (64 * X2) (width - right)).
  - rewrite tile_read_column by (done || lia).
    pose proof (line_at_bound X2 (top + y) ltac:(lia) Hi). unwrap.
    assert ((width - right - 64 * X2) mod unit = 0) as Ue by (apply unit_end_tile).
    eapply yields_mono; [piece y X2 0|]. intros. at_here.
  - apply yields_ret. at_here.
Qed.

Lemma narrow_line_run y fuel : forall c off s,
  0 <= y < crop_height -> left mod 2 = 0 -> crop_width mod 2 = 0 ->
  0 <= c <= crop_width -> c mod 2 = 0 -> (Z.to_nat ((crop_width - c) / 2) < fuel)%nat ->
  unit * off = crop_width * y + c -> at_ (crop_width * y + c) s ->
  yields (narrow_line copy unit fuel width height (width - right) (top + y) (left + c) off s)
    (at_ (crop_width * (y + 1))).
Proof.
  induction fuel as [|fuel IH]; intros c off s Hy Hl2 Hw2 Hcr Hc2 Hfuel Hoff Hc; [lia|].
  pose proof (line_start y Hy) as Hlin. assert (crop_width = width - left - right) as Hcwe by done.
  assert (0 <= top + y < height) as Hi by (unfold crop_height in *; lia).
  destruct unit_consts as (_ & _ & _ & _ & U2).
  cbn [narrow_line]. destruct (Z.ltb_spec (left + c) (width - right)).
  - rewrite tile_read_line, (land_mod _ 3 4 2) by (done || lia).
    destruct (tile_split (left + c) ltac:(lia)) as (HX & Hx & Hr & Hr4). set (X := (left + c) / 64) in *.
    destruct (narrow_round (left + c) c crop_width) as (Hr62 & Hc2' & Hcw2 & Hfuel'); try done; try lia.
    { apply even_add; done. }
    pose proof (line_at_bound X (top + y) ltac:(lia) Hi).
    rewrite (u32_id (line_at _ _ + _)), (u32_id (_ + (left + c) mod 4)), (u32_id (left + c + 2)) by (unfold is_u32; lia).
    unwrap_off (crop_width * y + c + 2).
    assert (2 mod unit = 0) by (by apply unit_even).
    piece_then y X ((left + c) mod 64).
    replace (left + c + 2) with (left + (c + 2)) by lia.
    apply IH; [done..|lia|done|lia|lia|at_here].
  - assert (c = crop_width) as -> by lia. apply yields_ret. at_here.
Qed.

(** ** All lines *)
Lemma for_lines_run line n : forall y s,
  (forall y s, 0 <= y < crop_height -> at_ (crop_width * y) s ->
     yields (line (top + y) s) (at_ (crop_width * (y + 1)))) ->
  0 <= y -> y + Z.of_nat n <= crop_height -> at_ (crop_width * y) s ->
  yields (for_lines n (top + y) line s) (at_ (crop_width * (y + Z.of_nat n))).
Proof.
  induction n as [|n IH]; intros y s Hline Hy Hn Hc; cbn [for_lines].
  { apply yields_ret. by rewrite Z.add_0_r. }
  eapply yields_bind; [apply Hline; [lia|done]|]. intros s1 Hs1.
  replace (top + y + 1) with (top + (y + 1)) by lia.
  replace (y + Z.of_nat (Datatypes.S n)) with (y + 1 + Z.of_nat n) by lia. apply IH; [done|lia..|done].
Qed.

(** When a line takes the middle branch, its last piece has to end in its tile; in
    the last branch two bytes have to be in one tile. *)
Definition crop_ok : Prop :=
  256 <= crop_width \/ (64 <= crop_width /\ crop_width + left mod 64 <= 256)
  \/ (crop_width < 64 /\ left mod 2 = 0 /\ crop_width mod 2 = 0).

Lemma tiled_to_linear_run s : crop_ok -> at_ 0 s ->
  yields (tiled_to_linear copy unit width height left top right buttom s)
    (at_ (crop_width * crop_height)).
Proof.
  intros Hok Hs. assert (crop_width = width - left - right) as Hcwe by done.
  assert (crop_height = height - top - buttom) as Hche by done.
  unfold tiled_to_linear. cbv zeta.
  rewrite !(u32_id (width - right)), (u32_id (height - buttom)) by (unfold is_u32; lia).
  replace (width - right - left) with crop_width by lia. rewrite (u32_id crop_width) by (unfold is_u32; lia).
  replace (height - buttom - top) with crop_height by lia.
  assert (forall line, (forall y s, 0 <= y < crop_height -> at_ (crop_width * y) s ->
     yields (line (top + y) s) (at_ (crop_width * (y + 1)))) ->
     yields (for_lines (Z.to_nat crop_height) top line s) (at_ (crop_width * crop_height))) as Hall.
  { intros line Hline. pose proof (for_lines_run line (Z.to_nat crop_height) 0 s Hline) as Hf.
    rewrite Z.add_0_r, Z.mul_0_r, Z.add_0_l, Z2Nat.id in Hf by lia.
    apply Hf; [lia|lia|done]. }
  destruct (Z.leb_spec 256 crop_width); [|destruct (Z.leb_spec 64 crop_width)]; apply Hall; intros y s' Hy Hc.
  - by apply wide_line_run.
  - apply tile_line_run; [done|done| |done]. destruct Hok as [?|[[]|(? & _)]]; [lia|done|lia].
  - pose proof (line_start y Hy). replace (top + y - top) with y by lia. unwrap.
    destruct Hok as [?|[[]|(_ & Hl2 & Hw2)]]; [lia..|].
    pose proof (narrow_line_run y 33 0 (crop_width * y / unit) s' Hy Hl2 Hw2) as Hn. rewrite !Z.add_0_r in Hn.
    pose proof crop_width_pos.
    assert (crop_width / 2 < 33) by (apply Z.div_lt_upper_bound; lia).
    apply Hn; [lia|done| |apply unit_div, unit_line|done].
    rewrite Z.sub_0_r. assert (0 <= crop_width / 2) by (apply Z.div_pos; lia). lia.
Qed.
End line.

(** ** The two functions *)
Section planes.
Context (width height left top right buttom : Z) (src : bytes).
Hypothesis (Hw : 0 < width <= 16384) (Hh : 0 < height <= 16384).
Hypothesis (Hleft : 0 <= left) (Hright : 0 <= right) (Hlr : left + right < width).
Hypothesis (Htop : 0 <= top) (Hbot : 0 <= buttom) (Htb : top + buttom <= height).
Hypothesis (Hsrc : tiled_size width height <= zlength src).
Abbreviation w := (crop_width width left right).
Abbreviation h := (crop_height height top buttom).

(** Where the byte number [k] of the cropped lines comes from. *)
Definition origin (k : Z) : Z := tiled_address width height (left + k mod w) (top + k / w).

Lemma origin_at x y : 0 <= x < w -> 0 <= y < h ->
  origin (w * y + x) = tile_4x2_read width height (left + x) (top + y) + (left + x) mod 4.
Proof.
  intros Hx Hy. rewrite tile_4x2_read_address by (unfold crop_width, crop_height in *; lia).
  unfold origin. replace (w * y + x) with (x + y * w) by lia.
  by rewrite Z.mod_add, Z.mod_small, Z.div_add, Z.div_small by lia.
Qed.

(** A piece of a line within a tile: its addresses, and that they are in the plane. *)
Lemma piece_origin y X o n k til :
  0 <= y < h -> 0 <= o -> 0 < n -> o + n <= 64 ->
  left <= 64 * X + o -> 64 * X + o + n <= width - right ->
  k = w * y + (64 * X + o - left) -> til = line_at width height X (top + y) + o ->
  0 <= k /\ k + n <= w * h /\ 0 <= til /\ til + n <= zlength src /\
  (forall m, 0 <= m < n -> origin (k + m) = til + m).
Proof.
  intros Hy Ho Hn Hon Hl Hr Hk Htil.
  assert (0 < w) as Hcw by (unfold crop_width; lia). assert (w = width - left - right) as Hwe by done.
  set (x := 64 * X + o) in *. assert (x / 64 = X /\ x mod 64 = o) as [HX Hxo] by (unfold x; zdiv).
  assert (til = tiled_address width height x (top + y)) as Htx.
  { unfold tiled_address. rewrite HX, Hxo, Htil. unfold line_at. lia. }
  assert (0 <= x < width) as Hx by lia. assert (0 <= top + y < height) as Hi by (unfold crop_height in *; lia).
  pose proof (tiled_address_range width height x (top + y) Hx Hi).
  pose proof (tiled_piece_range width height x (top + y) n Hx Hi ltac:(lia)).
  assert (0 <= w * y) by (apply Z.mul_nonneg_nonneg; lia).
  assert (w * (y + 1) <= w * h) by (apply Z.mul_le_mono_nonneg_l; lia).
  split_and!; try lia. intros m Hm. unfold origin. rewrite Htx, <- tiled_address_next by lia.
  assert ((k + m) / w = y /\ (k + m) mod w = x - left + m) as [-> ->].
  { replace (k + m) with ((x - left + m) + y * w) by lia.
    rewrite Z.div_add, Z.mod_add, Z.div_small, Z.mod_small by lia. lia. }
  f_equal; lia.
Qed.

(** One plane: the first [k] bytes are in place, the others are as they were. *)
Definition copied (dest0 : bytes) (k : Z) (dest : bytes) : Prop :=
  zlength dest = zlength dest0 /\
  forall a, 0 <= a -> zlookup dest a = if a <? k then zlookup src (origin a) else zlookup dest0 a.

Lemma csc_tiled_to_linear_crop_copied dest0 :
  w * h <= zlength dest0 -> crop_ok width left right ->
  yields (csc_tiled_to_linear_crop dest0 src width height left top right buttom) (copied dest0 (w * h)).
Proof.
  intros Hdest Hok. unfold csc_tiled_to_linear_crop.
  apply tiled_to_linear_run; try done; [by left|apply Z.mod_1_r|apply Z.mod_1_r| |].
  2: { split; [done|]. intros a Ha. by rewrite (proj2 (Z.ltb_ge _ _)) by lia. }
  intros y X o n k off til s Hy Ho Hn Hon _ Hl Hr Hk Hoff Htil [Hlen Hc].
  destruct (Z.eq_dec n 0) as [->|Hn0].
  { apply yields_ret. by rewrite Z.add_0_r. }
  destruct (piece_origin y X o n k til) as (Hk0 & Hkn & Ht0 & Htn & Hor); try done; [lia|].
  assert (off = k) as -> by lia. eapply yields_mono; [apply memcpy_run; lia|].
  intros d [Hd Hlk]. split; [lia|]. intros a Ha. rewrite Hlk, Hc by done.
  destruct (Z.leb_spec k a), (Z.ltb_spec a (k + n)), (Z.ltb_spec a k); try lia; try done. simpl.
  rewrite <- Hor by lia. do 2 f_equal. lia.
Qed.

(** Two planes: the bytes of the lines go to them in turn. *)
Definition split_copied (u0 v0 : bytes) (k : Z) (dest : bytes * bytes) : Prop :=
  zlength dest.1 = zlength u0 /\ zlength dest.2 = zlength v0 /\
  forall a, 0 <= a ->
    zlookup dest.1 a = (if 2 * a <? k then zlookup src (origin (2 * a)) else zlookup u0 a) /\
    zlookup dest.2 a = (if 2 * a <? k then zlookup src (origin (2 * a + 1)) else zlookup v0 a).

Lemma deinterleave_loop_run s d n : forall i u v,
  0 <= i -> 0 <= d -> d + i + Z.of_nat n <= zlength u -> d + i + Z.of_nat n <= zlength v ->
  0 <= s -> s + 2 * (i + Z.of_nat n) <= zlength src ->
  yields (deinterleave_loop n i (u, v) d src s) (fun dest =>
    zlength dest.1 = zlength u /\ zlength dest.2 = zlength v /\
    forall a, 0 <= a ->
      zlookup dest.1 a = (if (d + i <=? a) && (a <? d + i + Z.of_nat n)
                          then zlookup src (s + 2 * (a - d)) else zlookup u a) /\
      zlookup dest.2 a = (if (d + i <=? a) && (a <? d + i + Z.of_nat n)
                          then zlookup src (s + 2 * (a - d) + 1) else zlookup v a)).
Proof.
  induction n as [|n IH]; intros i u v Hi Hd Hu Hv Hs Hsn; cbn [deinterleave_loop].
  { apply yields_ret. split_and!; [done..|]. intros a Ha.
    destruct (Z.leb_spec (d + i) a), (Z.ltb_spec a (d + i + Z.of_nat 0)); try lia; done. }
  eapply yields_bind; [apply load_byte_run; lia|]. intros b1 Hb1.
  eapply yields_bind; [apply store_byte_run; lia|]. intros u1 [Hl1 H1].
  eapply yields_bind; [apply load_byte_run; lia|]. intros b2 Hb2.
  eapply yields_bind; [apply store_byte_run; lia|]. intros v1 [Hl2 H2].
  eapply yields_mono; [apply IH; lia|]. intros [u2 v2] (Hl3 & Hl4 & H3). simpl in *.
  split_and!; [lia..|]. intros a Ha. destruct (H3 a Ha) as [-> ->]. rewrite H1, H2 by done.
  destruct (Z.leb_spec (d + (i + 1)) a), (Z.leb_spec (d + i) a),
    (Z.ltb_spec a (d + (i + 1) + Z.of_nat n)), (Z.ltb_spec a (d + i + Z.of_nat (S n)));
    try lia; simpl; try done; destruct (Z.eqb_spec a (d + i)); try lia; try done.
  subst a. replace (d + i - d) with i by lia. rewrite <- Hb1, <- Hb2. split; f_equal; lia.
Qed.

Lemma csc_tiled_to_linear_deinterleave_crop_copied u0 v0 :
  left mod 2 = 0 -> w mod 2 = 0 -> w / 2 * h <= zlength u0 -> w / 2 * h <= zlength v0 ->
  crop_ok width left right ->
  yields (csc_tiled_to_linear_deinterleave_crop u0 v0 src width height left top right buttom)
    (split_copied u0 v0 (w * h)).
Proof.
  intros Hl2 Hw2 Hu Hv Hok. unfold csc_tiled_to_linear_deinterleave_crop.
  assert (w = 2 * (w / 2)) as Hw2' by (apply Z.div_exact; [lia|done]).
  assert (w * h = 2 * (w / 2 * h)) as Hwh by (rewrite Hw2' at 1; ring).
  apply tiled_to_linear_run; try done; [by right| |].
  2: { split_and!; [done..|]. intros a Ha. by rewrite (proj2 (Z.ltb_ge _ _)) by lia. }
  intros y X o n k off til [u v] Hy Ho Hn Hon Hn2 Hl Hr Hk Hoff Htil (Hlu & Hlv & Hc). simpl in *.
  destruct (Z.eq_dec n 0) as [->|Hn0].
  { apply yields_ret. rewrite Z.add_0_r. done. }
  destruct (piece_origin y X o n k til) as (Hk0 & Hkn & Ht0 & Htn & Hor); try done; [lia|].
  assert (n = 2 * (n / 2)) as Hnn by (apply Z.div_exact; [lia|done]).
  unfold csc_deinterleave_memcpy. eapply yields_mono; [apply deinterleave_loop_run; lia|].
  intros [u1 v1] (Hlu1 & Hlv1 & Hlk). simpl in *. split_and!; simpl; [lia..|].
  intros a Ha. destruct (Hlk a Ha) as [-> ->]. destruct (Hc a Ha) as [-> ->].
  rewrite Z.add_0_r, Z2Nat.id by lia.
  destruct (Z.leb_spec off a), (Z.ltb_spec a (off + n / 2)), (Z.ltb_spec (2 * a) k),
    (Z.ltb_spec (2 * a) (k + n)); try lia; try done. simpl. split; f_equal.
  - replace (2 * a) with (k + (2 * a - k)) by lia. rewrite Hor by lia. lia.
  - replace (2 * a + 1) with (k + (2 * a + 1 - k)) by lia. rewrite Hor by lia. lia.
Qed.
End planes.

(** C28: [csc_tiled_to_linear_crop] is the plain conversion: it always ends without
    leaving the two planes, and the byte of column [x] and line [y] of the cropped
    linear plane is the byte of the tiled plane at the address that
    [tile_4x2_read] gives for the position; nothing else of the destination
    changes.  This covers the groups of four tiles of long lines, whose offsets the
    code computes by its three formulas, for every crop; for lines below 256
    bytes the crop has to keep the pieces within tiles ([crop_ok]). *)
Theorem csc_tiled_to_linear_crop_spec dest src width height left top right buttom :
  0 < width <= 16384 -> 0 < height <= 16384 -> 0 <= left -> 0 <= right -> left + right < width ->
  0 <= top -> 0 <= buttom -> top + buttom <= height ->
  tiled_size width height <= zlength src ->
  (width - left - right) * (height - top - buttom) <= zlength dest ->
  crop_ok width left right ->
  exists d, csc_tiled_to_linear_crop dest src width height left top right buttom = Ret d /\
    zlength d = zlength dest /\
    (forall x y, 0 <= x < width - left - right -> 0 <= y < height - top - buttom ->
       zlookup d ((width - left - right) * y + x) =
       zlookup src (tile_4x2_read width height (left + x) (top + y) + (left + x) mod 4)) /\
    (forall a, (width - left - right) * (height - top - buttom) <= a -> zlookup d a = zlookup dest a).
Proof.
  intros Hw Hh Hl Hr Hlr Ht Hb Htb Hsrc Hdest Hok.
  destruct (csc_tiled_to_linear_crop_copied width height left top right buttom src
    Hw Hh Hl Hr Hlr Ht Hb Htb Hsrc dest Hdest Hok) as (d & Hd & Hlen & Hc).
  exists d. split_and!; [done..| |].
  - intros x y Hx Hy. rewrite <- (origin_at width height left top right buttom) by done.
    fold (crop_width width left right) (crop_height height top buttom) in *.
    set (w := crop_width _ _ _) in *. set (h := crop_height _ _ _) in *.
    assert (0 <= w * y /\ w * y + w <= w * h) as [? ?] by nia.
    by rewrite Hc, (proj2 (Z.ltb_lt _ _)) by lia.
  - intros a Ha. assert (0 <= (width - left - right) * (height - top - buttom)) by nia.
    rewrite Hc, (proj2 (Z.ltb_ge _ _)) by (unfold crop_width, crop_height; lia). done.
Qed.

(** [csc_tiled_to_linear_deinterleave_crop] separates the two colour components:
    for an even left crop and an even width it ends without leaving the planes,
    and byte [c] of line [y] of the first (second) plane is the byte of the
    tiled plane at the address of the column [2 c] ([2 c + 1]) of the crop. *)
Theorem csc_tiled_to_linear_deinterleave_crop_spec u v src width height left top right buttom :
  0 < width <= 16384 -> 0 < height <= 16384 -> 0 <= left -> 0 <= right -> left + right < width ->
  0 <= top -> 0 <= buttom -> top + buttom <= height -> tiled_size width height <= zlength src ->
  let w := width - left - right in let h := height - top - buttom in
  left mod 2 = 0 -> w mod 2 = 0 -> w / 2 * h <= zlength u -> w / 2 * h <= zlength v ->
  crop_ok width left right ->
  exists u' v', csc_tiled_to_linear_deinterleave_crop u v src width height left top right buttom = Ret (u', v') /\
    zlength u' = zlength u /\ zlength v' = zlength v /\
    (forall c y, 0 <= c < w / 2 -> 0 <= y < h ->
       zlookup u' (w / 2 * y + c) =
         zlookup src (tile_4x2_read width height (left + 2 * c) (top + y) + (left + 2 * c) mod 4) /\
       zlookup v' (w / 2 * y + c) =
         zlookup src (tile_4x2_read width height (left + (2 * c + 1)) (top + y) + (left + (2 * c + 1)) mod 4)).
Proof.
  intros Hw Hh Hl Hr Hlr Ht Hb Htb Hsrc w h Hl2 Hw2 Hu Hv Hok.
  destruct (csc_tiled_to_linear_deinterleave_crop_copied width height left top right buttom src
    Hw Hh Hl Hr Hlr Ht Hb Htb Hsrc u v Hl2 Hw2 Hu Hv Hok) as ([u' v'] & Hd & Hlu & Hlv & Hc).
  exists u', v'. split_and!; [done..|]. intros c y Hcc Hy. simpl in *.
  assert (w = 2 * (w / 2)) as Hw2' by (apply Z.div_exact; [lia|done]).
  rewrite <- !(origin_at width height left top right buttom) by (unfold crop_width, crop_height; lia).
  change (crop_width width left right) with w in *. change (crop_height height top buttom) with h in *.
  assert (0 <= w / 2 * y /\ w / 2 * y + w / 2 <= w / 2 * h) as [? ?] by nia.
  destruct (Hc (w / 2 * y + c)) as [-> ->]; [lia|].
  assert (2 * (w / 2 * y) = w * y) by (rewrite Hw2' at 2; ring).
  assert (2 * (w / 2 * h) = w * h) by (rewrite Hw2' at 2; ring).
  rewrite (proj2 (Z.ltb_lt _ _)) by lia. split; do 2 f_equal; lia.
Qed.

(** Planes whose bytes tell where they are. *)
Fixpoint count_from (k : Z) (n : nat) : bytes :=
  match n with O => [] | S n => k mod 251 :: count_from (k + 1) n end.
Definition numbered (n : Z) : bytes := count_from 0 (Z.to_nat n).

Lemma csc_tiled_to_linear_crop_spec_witness :
  exists d, csc_tiled_to_linear_crop (zeros 1040) (zeros 24576) 384 64 10 30 114 30 = Ret d /\
    zlength d = zlength (zeros 1040) /\
    (forall x y, 0 <= x < 260 -> 0 <= y < 4 ->
       zlookup d (260 * y + x) =
       zlookup (zeros 24576) (tile_4x2_read 384 64 (10 + x) (30 + y) + (10 + x) mod 4)) /\
    (forall a, 1040 <= a -> zlookup d a = zlookup (zeros 1040) a).
Proof.
  apply (csc_tiled_to_linear_crop_spec (zeros 1040) (zeros 24576) 384 64 10 30 114 30);
    rewrite ?zlength_zeros by lia; try lia; [vm_compute; done|]. left. unfold crop_width. lia.
Defined.

(** With a crop that the last condition excludes, the middle branch is wrong: of a
    line of 255 bytes from column 63 on, the piece after the first byte and two
    whole tiles has 126 bytes, and 62 of them are read from the next line of the
    tile. *)
Theorem csc_tiled_to_linear_crop_wrong :
  match csc_tiled_to_linear_crop (zeros 255) (numbered 12288) 384 32 63 0 66 31 with
  | Ret d =>
      zlookup d 254 = zlookup (numbered 12288) (tile_4x2_read 384 32 192 1 + 61) /\
      zlookup d 254 <> zlookup (numbered 12288) (tile_4x2_read 384 32 (63 + 254) 0 + (63 + 254) mod 4)
  | _ => False
  end.
Proof. vm_compute. split; [done|discriminate]. Qed.

Lemma csc_tiled_to_linear_deinterleave_crop_spec_witness :
  exists u' v', csc_tiled_to_linear_deinterleave_crop (zeros 640) (zeros 640) (zeros 24576) 384 64 10 30 54 30
      = Ret (u', v') /\
    zlength u' = zlength (zeros 640) /\ zlength v' = zlength (zeros 640) /\
    (forall c y, 0 <= c < 320 / 2 -> 0 <= y < 4 ->
       zlookup u' (320 / 2 * y + c) =
         zlookup (zeros 24576) (tile_4x2_read 384 64 (10 + 2 * c) (30 + y) + (10 + 2 * c) mod 4) /\
       zlookup v' (320 / 2 * y + c) =
         zlookup (zeros 24576) (tile_4x2_read 384 64 (10 + (2 * c + 1)) (30 + y) + (10 + (2 * c + 1)) mod 4)).
Proof.
  apply (csc_tiled_to_linear_deinterleave_crop_spec (zeros 640) (zeros 640) (zeros 24576) 384 64 10 30 54 30);
    rewrite ?zlength_zeros by lia; try done. left. unfold crop_width. lia.
Defined.
