(* ===== verification/CscTiled.v ===== *)
(** * From linear to tiled: [csc_linear_to_tiled_crop] and
    [csc_linear_to_tiled_interleave_crop] of [color_space_convertor.c]

    The two functions go over the cropped part of a linear frame three times:
    whole tiles, the lines below the last whole row of tiles, and the columns
    right of the last whole column, two bytes at a time.  They compute the offset
    of a tile by the same three formulas and differ in what a copy does: one
    plane is copied, or the planes of the two colour components are merged. *)
From S2P Require Import Prelude Machine Bytes CscTile CscLinear.

(** ** Copies of two components *)
(** [for (i = 0; i < src_size; i++)], from [i] on, [n] rounds; the pointers are the
    planes with an offset each. *)
Fixpoint interleave_loop (n : nat) (i : Z) (dest : bytes) (d : Z) (src1 src2 : bytes) (s : Z) : tool bytes :=
  match n with
  | O => Ret dest
  | S n =>
      do b <- load_byte src1 (s + i) ;
      do dest <- store_byte dest (d + i * 2) b ;
      do b <- load_byte src2 (s + i) ;
      do dest <- store_byte dest (d + i * 2 + 1) b ;
      interleave_loop n (i + 1) dest d src1 src2 s
  end.
Definition csc_interleave_memcpy (dest : bytes) (d : Z) (src1 src2 : bytes) (s src_size : Z) : tool bytes :=
  interleave_loop (Z.to_nat src_size) 0 dest d src1 src2 s.

(** ** The offset of a tile

    Of the tile of the column [j] and the line [i] in a plane of the cropped
    [width] and [height]. *)
Definition tiled_offset_of (width height i j : Z) : Z :=
  let tiled_x_index := Z.shiftr j 6 in
  let tiled_y_index := Z.shiftr i 5 in
  let blocks := Z.shiftr (align_down 7 (u32 (width + 127))) 6 in
  if negb (Z.land tiled_y_index 1 =? 0) then
    let t := u32 (u32 (tiled_y_index - 1) * blocks) in
    let t := u32 (t + tiled_x_index) in
    let t := u32 (t + 2) in
    let t := u32 (t + align_down 2 tiled_x_index) in
    u32 (Z.shiftl t 11)
  else
    let temp2 := align_down 5 (u32 (height + 31)) in
    if u32 (i + 32) <? temp2 then
      let t := u32 (tiled_x_index + align_down 2 (u32 (tiled_x_index + 2))) in
      let t := u32 (t + u32 (tiled_y_index * blocks)) in
      u32 (Z.shiftl t 11)
    else
      let t := u32 (u32 (tiled_y_index * blocks) + tiled_x_index) in
      u32 (Z.shiftl t 11).

(** [for (i = start; i < limit; i = i + step)] *)
Fixpoint for_rounds {S} (n : nat) (i step : Z) (body : Z -> S -> tool S) (s : S) : tool S :=
  match n with
  | O => Ret s
  | Datatypes.S n => do s <- body i s ; for_rounds n (i + step) step body s
  end.
Definition for_step {S} (start limit step : Z) (body : Z -> S -> tool S) (s : S) : tool S :=
  for_rounds (Z.to_nat ((limit - start + step - 1) / step)) start step body s.

(** ** The three passes

    [put s t j row n] copies [n] bytes of the line [row] of the crop from its
    column [j] on to the tiled offset [t]; [lines] is the number of lines the
    second and the third pass take at a time. *)
Section passes.
Context (width height lines : Z) (put : bytes -> Z -> Z -> Z -> Z -> tool bytes).

(** Lines [row], [row + 1], ... to the lines [temp1], [temp1 + 1], ... of a tile. *)
Definition put_lines (count t temp1 j row n : Z) (s : bytes) : tool bytes :=
  for_step 0 count 1 (fun r s => put s (t + 64 * (temp1 + r)) j (row + r) n) s.

Definition tile_pass (aligned_x aligned_y : Z) (s : bytes) : tool bytes :=
  for_step 0 aligned_y 32 (fun i =>
    for_step 0 aligned_x 64 (fun j =>
      put_lines 32 (tiled_offset_of width height i j) 0 j i 64)) s.

Definition bottom_pass (aligned_x aligned_y : Z) (s : bytes) : tool bytes :=
  for_step aligned_y height lines (fun i =>
    for_step 0 aligned_x 64 (fun j =>
      put_lines lines (tiled_offset_of width height i j) (Z.land i 0x1f) j i 64)) s.

Definition right_pass (aligned_x : Z) (s : bytes) : tool bytes :=
  for_step 0 height lines (fun i =>
    for_step aligned_x width 2 (fun j =>
      put_lines lines (tiled_offset_of width height i j + Z.land j 0x3f) (Z.land i 0x1f) j i 2)) s.

Definition linear_to_tiled (s : bytes) : tool bytes :=
  let aligned_y := align_down 5 height in
  let aligned_x := align_down 6 width in
  do s <- tile_pass aligned_x aligned_y s ;
  do s <- bottom_pass aligned_x aligned_y s ;
  right_pass aligned_x s.
End passes.

Definition csc_linear_to_tiled_crop (dest src : bytes) (width height left top right buttom : Z)
  : tool bytes :=
  linear_to_tiled (u32 (width - left - right)) (u32 (height - top - buttom)) 2
    (fun dest t j row n => memcpy dest t src (left + j + u32 (width * u32 (row + top))) n) dest.

Definition csc_linear_to_tiled_interleave_crop (dest u_src v_src : bytes)
    (width height left top right buttom : Z) : tool bytes :=
  linear_to_tiled (u32 (width - left - right)) (u32 (height - top - buttom)) 1
    (fun dest t j row n =>
       csc_interleave_memcpy dest t u_src v_src (left / 2 + j / 2 + u32 (width / 2 * u32 (row + top))) (n / 2)) dest.

Definition csc_linear_to_tiled_y (y_dst y_src : bytes) (width height : Z) : tool bytes :=
  csc_linear_to_tiled_crop y_dst y_src width height 0 0 0 0.
Definition csc_linear_to_tiled_uv (uv_dst u_src v_src : bytes) (width height : Z) : tool bytes :=
  csc_linear_to_tiled_interleave_crop uv_dst u_src v_src width height 0 0 0 0.

(** ** Loops *)
Lemma for_rounds_run {S} (P : Z -> S -> Prop) body step n : forall i s,
  (forall k s, 0 <= k < Z.of_nat n -> P k s -> yields (body (i + k * step) s) (P (k + 1))) ->
  P 0 s -> yields (for_rounds n i step body s) (P (Z.of_nat n)).
Proof.
  revert P. induction n as [|n IH]; intros P i s Hbody Hs; cbn [for_rounds].
  { by apply yields_ret. }
  eapply yields_bind.
  { pose proof (Hbody 0 s ltac:(lia) Hs) as Hb. rewrite Z.mul_0_l, Z.add_0_r in Hb. exact Hb. }
  intros s1 Hs1. replace (Z.of_nat (Datatypes.S n)) with (Z.of_nat n + 1) by lia.
  apply (IH (fun k => P (k + 1))); [|done]. intros k s2 Hk Hs2.
  replace (i + step + k * step) with (i + (k + 1) * step) by lia. apply Hbody; [lia|done].
Qed.

(** The invariant is stated of the value of the loop variable; the last one may be
    beyond the limit. *)
Lemma for_step_run {S} (P : Z -> S -> Prop) body start limit step s :
  0 < step -> start <= limit -> (limit - start) mod step = 0 ->
  (forall i s, start <= i < limit -> (i - start) mod step = 0 -> P i s -> yields (body i s) (P (i + step))) ->
  P start s -> yields (for_step start limit step body s) (P limit).
Proof.
  intros Hstep Hle Hmod Hbody Hs. unfold for_step.
  assert ((limit - start + step - 1) / step = (limit - start) / step) as ->.
  { apply Z.mod_divide in Hmod as [q Hq]; [|lia]. rewrite Hq.
    replace (q * step + step - 1) with (step - 1 + q * step) by lia.
    rewrite Z.div_add, Z.div_small, Z.div_mul by lia. lia. }
  pose proof (Z.div_mod (limit - start) step ltac:(lia)) as Hd. rewrite Hmod in Hd.
  set (n := (limit - start) / step) in *. assert (0 <= n) by (apply Z.div_pos; lia).
  pose proof (for_rounds_run (fun k => P (start + k * step)) body step (Z.to_nat n) start s) as Hr.
  rewrite Z2Nat.id, Z.mul_0_l, Z.add_0_r in Hr by lia.
  replace (start + n * step) with limit in Hr by lia. apply Hr; [|done].
  intros k s1 Hk Hs1. replace (start + (k + 1) * step) with (start + k * step + step) by lia.
  apply Hbody; [nia| |done]. replace (start + k * step - start) with (k * step) by lia.
  apply Z.mod_mul. lia.
Qed.

(** The limits of the passes. *)
Lemma aligned_lines h l : 0 <= h -> l = 2 \/ l = 1 -> h mod l = 0 ->
  0 <= h / 32 * 32 <= h /\ h / 32 * 32 mod 32 = 0 /\ h / 32 * 32 mod l = 0 /\ (h - h / 32 * 32) mod l = 0.
Proof. intros Hh [-> | ->] Hl; zdiv. Qed.
Lemma aligned_columns w : 0 <= w -> w mod 2 = 0 ->
  0 <= w / 64 * 64 <= w /\ w / 64 * 64 mod 64 = 0 /\ (w - w / 64 * 64) mod 2 = 0 /\ w / 64 * 64 mod 2 = 0.
Proof. intros Hw Hl; zdiv. Qed.
(** A round of a loop by [c] stays in a row of tiles and below the limit. *)
Lemma round_lines i y0 y1 c : c = 32 \/ c = 2 \/ c = 1 -> 0 <= y0 <= i -> i < y1 -> y0 mod c = 0 ->
  (y1 - y0) mod c = 0 -> (i - y0) mod c = 0 -> i mod c = 0 /\ i + c <= y1 /\ i mod 32 + c <= 32.
Proof. intros [->|[->| ->]] H1 H2 H3 H4 H5; zdiv. Qed.
Lemma round_columns j x0 x1 n : n = 64 \/ n = 2 -> 0 <= x0 <= j -> j < x1 -> x0 mod n = 0 ->
  (x1 - x0) mod n = 0 -> (j - x0) mod n = 0 -> j mod n = 0 /\ j + n <= x1 /\ j mod 64 + n <= 64.
Proof. intros [-> | ->] H1 H2 H3 H4 H5; zdiv. Qed.

Section place.
Context (width height : Z).
Hypothesis (Hw : 0 < width <= 16384) (Hh : 0 < height <= 16384).

Lemma tiled_offset_of_spec i j : 0 <= i < height -> 0 <= j < width ->
  tiled_offset_of width height i j =
    2048 * tile_index (half_columns width) (last_row height) (j / 64) (i / 32).
Proof.
  intros Hi Hj. unfold tiled_offset_of. cbv zeta.
  rewrite !(u32_id (width + 127)), !(u32_id (height + 31)), !(u32_id (i + 32)) by (unfold is_u32; lia).
  rewrite !(align_down_div 7 128), !(align_down_div 5 32) by (done || lia).
  rewrite !(shr_div _ 6 64), !(shr_div _ 5 32), (land_mod _ 1 2 1) by done.
  replace ((width + 127) / 128 * 128 / 64) with (2 * half_columns width) by (unfold half_columns; zdiv).
  replace (i + 32 <? (height + 31) / 32 * 32) with (i / 32 <? last_row height)
    by (unfold last_row; destruct (Z.ltb_spec (i / 32) ((height - 1) / 32)); symmetry;
        [apply Z.ltb_lt|apply Z.ltb_ge]; zdiv).
  pose proof (half_columns_bounds width Hw) as Hrx. pose proof (row_range height i Hi) as HY.
  pose proof (last_row_bounds height Hh) as HL.
  set (X := j / 64). assert (0 <= X < 256) as HX by (unfold X; zdiv).
  set (Y := i / 32) in *. set (rx := half_columns width) in *. set (l := last_row height) in *.
  assert (0 <= Y * (2 * rx) <= 511 * 256) as HP
    by (split; [apply Z.mul_nonneg_nonneg|apply Z.mul_le_mono_nonneg]; lia).
  rewrite (u32_id (X + 2)), !(align_down_div 2 4) by (done || unfold is_u32; lia).
  unfold tile_index. rewrite odd_mod, !(shl_mul _ 11 2048) by done.
  assert (0 <= X / 4 < 64 /\ 0 <= (X + 2) / 4 <= 64) as [? ?] by zdiv.
  destruct (Z.eqb_spec (Y mod 2) 0) as [He|Ho]; simpl negb.
  - rewrite (proj2 (Z.eqb_neq _ _)) by lia. case_match; unwrap; lia.
  - assert (Y mod 2 = 1) as Ho' by zdiv. rewrite Ho', Z.eqb_refl.
    assert (1 <= Y) by zdiv. assert (2 * rx <= Y * (2 * rx)) by nia.
    assert (0 <= (Y - 1) * (2 * rx) <= 511 * 256) by lia. unwrap. lia.
Qed.

(** ** What has been placed

    [value x y] is the byte that belongs at a position of the tiled plane; a
    copy that writes the right bytes does not disturb another position, since
    all addresses differ. *)
Context (value : Z -> Z -> option Z) (dest0 : bytes).
Hypothesis (Hdest : tiled_size width height <= zlength dest0).

Definition placed (P : Z -> Z -> Prop) (dest : bytes) : Prop :=
  zlength dest = zlength dest0 /\
  forall x y, 0 <= x < width -> 0 <= y < height -> P x y ->
    zlookup dest (tiled_address width height x y) = value x y.

Lemma placed_weaken (P Q : Z -> Z -> Prop) dest :
  placed P dest -> (forall x y, 0 <= x < width -> 0 <= y < height -> Q x y -> P x y) -> placed Q dest.
Proof. intros [Hl Hp] HQ. split; [done|]. auto. Qed.

Context (put : bytes -> Z -> Z -> Z -> Z -> tool bytes).

(** A copy of [n] bytes within a tile puts the values of its positions there. *)
Definition puts (n : Z) : Prop := forall dest j y,
  zlength dest = zlength dest0 -> 0 <= j -> j mod n = 0 -> j + n <= width -> 0 <= y < height ->
  yields (put dest (tiled_address width height j y) j y n) (fun d =>
    zlength d = zlength dest /\
    forall a, 0 <= a -> zlookup d a =
      if (tiled_address width height j y <=? a) && (a <? tiled_address width height j y + n)
      then value (j + (a - tiled_address width height j y)) y else zlookup dest a).

Lemma put_placed P dest j y n : puts n -> (n = 64 \/ n = 2) ->
  placed P dest -> 0 <= j -> j mod n = 0 -> j + n <= width -> 0 <= y < height ->
  yields (put dest (tiled_address width height j y) j y n)
    (placed (fun x y' => P x y' \/ (y' = y /\ j <= x < j + n))).
Proof.
  intros Hput Hn [Hlen Hp] Hj Hjn Hjw Hy. eapply yields_mono; [by apply Hput|]. intros d [Hd Hl].
  split; [lia|]. intros x y' Hx Hy' HP. pose proof (tiled_address_range width height x y' Hx Hy').
  assert (j mod 64 + n <= 64) as Hfit by (destruct Hn as [-> | ->]; zdiv).
  rewrite Hl by lia. set (A := tiled_address width height j y) in *.
  destruct (Z.leb_spec A (tiled_address width height x y')),
    (Z.ltb_spec (tiled_address width height x y') (A + n)); simpl.
  2-4: destruct HP as [HP|[-> Hxj]]; [by apply Hp|];
       pose proof (tiled_address_next width height j y (x - j) ltac:(lia) ltac:(lia)) as Hn';
       replace (j + (x - j)) with x in Hn' by lia; fold A in Hn'; lia.
  destruct (tiled_address_inj width height x y' (j + (tiled_address width height x y' - A)) y) as [E1 E2];
    try (done || lia).
  - rewrite tiled_address_next by lia. fold A. lia.
  - by rewrite <- E1, <- E2.
Qed.

Lemma put_lines_run P n count t temp1 j row dest :
  puts n -> (n = 64 \/ n = 2) -> 0 < count -> 0 <= j -> j mod n = 0 -> j + n <= width ->
  0 <= row -> row + count <= height -> temp1 = row mod 32 -> temp1 + count <= 32 ->
  t = 2048 * tile_index (half_columns width) (last_row height) (j / 64) (row / 32) + j mod 64 ->
  placed P dest ->
  yields (put_lines put count t temp1 j row n dest)
    (placed (fun x y => P x y \/ (row <= y < row + count /\ j <= x < j + n))).
Proof.
  intros Hput Hn Hc Hj Hjn Hjw Hrow Hrc -> Hfit -> Hp. unfold put_lines.
  apply (for_step_run (fun r => placed (fun x y => P x y \/ (row <= y < row + r /\ j <= x < j + n)))).
  - lia.
  - lia.
  - apply Z.mod_1_r.
  - intros r d Hr _ Hd.
    replace (_ + 64 * (row mod 32 + r)) with (tiled_address width height j (row + r)).
    2: { unfold tiled_address. assert ((row + r) / 32 = row / 32 /\ (row + r) mod 32 = row mod 32 + r)
           as [-> ->] by zdiv. lia. }
    eapply yields_mono; [apply put_placed; try done; lia|]. intros d' Hd'.
    eapply placed_weaken; [exact Hd'|]. intros x y Hx Hy [HP|Hxy]; [auto|].
    destruct (Z.eq_dec y (row + r)); [right|left; right]; lia.
  - eapply placed_weaken; [exact Hp|]. intros x y Hx Hy [HP|Hxy]; [done|lia].
Qed.

(** One pass over the columns [x0] to [x1] and the lines [y0] to [y1]. *)
Lemma pass_run P n count x0 x1 y0 y1 off line dest :
  puts n -> (n = 64 \/ n = 2) -> (count = 32 \/ count = 2 \/ count = 1) ->
  0 <= x0 <= x1 -> x1 <= width -> x0 mod n = 0 -> (x1 - x0) mod n = 0 ->
  0 <= y0 <= y1 -> y1 <= height -> y0 mod count = 0 -> (y1 - y0) mod count = 0 ->
  (forall i j, 0 <= i < height -> i mod count = 0 -> 0 <= j < width -> j mod n = 0 ->
     off i j = 2048 * tile_index (half_columns width) (last_row height) (j / 64) (i / 32) + j mod 64 /\
     line i = i mod 32) ->
  placed P dest ->
  yields (for_step y0 y1 count (fun i => for_step x0 x1 n (fun j =>
            put_lines put count (off i j) (line i) j i n)) dest)
    (placed (fun x y => P x y \/ (y0 <= y < y1 /\ x0 <= x < x1))).
Proof.
  intros Hput Hn Hc Hx Hx1 Hx0n Hxn Hy Hy1 Hy0c Hyc Hoff Hp.
  assert (0 < n /\ 0 < count) as [? ?] by lia.
  apply (for_step_run (fun i => placed (fun x y => P x y \/ (y0 <= y < i /\ x0 <= x < x1))));
    [lia|lia|done| |].
  2: { eapply placed_weaken; [exact Hp|]. intros x y _ _ [HP|Hxy]; [done|lia]. }
  intros i d Hi Hic Hd.
  destruct (round_lines i y0 y1 count) as (Hi0 & Hiy & Hi32); [done|lia|lia|done..|].
  eapply yields_mono.
  - apply (for_step_run (fun j => placed (fun x y =>
      (P x y \/ (y0 <= y < i /\ x0 <= x < x1)) \/ (i <= y < i + count /\ x0 <= x < j)))); [lia|lia|done| |].
    + intros j d' Hj Hjn Hd'.
      destruct (round_columns j x0 x1 n) as (Hj0 & Hjx & _); [done|lia|lia|done..|].
      destruct (Hoff i j) as [-> ->]; [lia|done|lia|done|].
      eapply yields_mono; [apply put_lines_run; try done; lia|]. intros d'' Hd''.
      eapply placed_weaken; [exact Hd''|]. intros x y _ _ [HP|Hxy]; [by left; left|].
      destruct (Z.ltb_spec x j); [left; right|right]; lia.
    + eapply placed_weaken; [exact Hd|]. intros x y _ _ [HP|Hxy]; [done|lia].
  - intros d' Hd'. eapply placed_weaken; [exact Hd'|]. intros x y _ _ [HP|Hxy]; [by left; left|].
    destruct (Z.ltb_spec y i); [left; right|right]; lia.
Qed.

(** The three passes cover the plane. *)
Lemma linear_to_tiled_run lines : puts 64 -> puts 2 -> (lines = 2 \/ lines = 1) ->
  width mod 2 = 0 -> height mod lines = 0 ->
  yields (linear_to_tiled width height lines put dest0) (placed (fun _ _ => True)).
Proof.
  intros H64 H2 Hl Hw2 Hhl. unfold linear_to_tiled. cbv zeta.
  rewrite (align_down_div 5 32), (align_down_div 6 64) by (done || lia).
  destruct (aligned_lines height lines) as (Hay & Hay32 & Hayl & Hayr); [lia|done..|].
  destruct (aligned_columns width) as (Hax & Hax64 & Hax2 & Hax0); [lia|done|].
  set (ay := height / 32 * 32) in *. set (ax := width / 64 * 64) in *.
  assert (placed (fun _ _ => False) dest0) as Hstart by (split; [done|]; done).
  eapply yields_bind.
  { unfold tile_pass. apply (pass_run (fun _ _ => False) 64 32 0 ax 0 ay _ (fun _ => 0));
      rewrite ?Z.sub_0_r; try done; try lia.
    intros i j Hi Hi32 Hj Hj64. rewrite tiled_offset_of_spec by lia. lia. }
  intros d1 Hd1. eapply yields_bind.
  { unfold bottom_pass.
    apply (pass_run (fun x y => False \/ 0 <= y < ay /\ 0 <= x < ax) 64 lines 0 ax ay height _ (fun i => Z.land i 0x1f));
      rewrite ?Z.sub_0_r; try done; try lia.
    intros i j Hi Hil Hj Hj64. rewrite tiled_offset_of_spec, (land_mod _ 0x1f 32 5) by (done || lia). lia. }
  intros d2 Hd2. eapply yields_mono.
  { unfold right_pass.
    eapply (pass_run _ 2 lines ax width 0 height _ (fun i => Z.land i 0x1f));
      rewrite ?Z.sub_0_r; try done; try lia.
    intros i j Hi Hil Hj Hj2.
    rewrite tiled_offset_of_spec, (land_mod _ 0x1f 32 5), (land_mod _ 0x3f 64 6) by (done || lia). lia. }
  intros d3 Hd3. eapply placed_weaken; [exact Hd3|]. intros x y Hx Hy _.
  destruct (Z.ltb_spec x ax); [left|right; lia]. destruct (Z.ltb_spec y ay); [left; right|right]; lia.
Qed.
End place.

(** ** Merging two components *)
(** The byte at the offset [a] of two merged planes from their offset [s] on. *)
Definition merged (u v : bytes) (s a : Z) : option Z :=
  if a mod 2 =? 0 then zlookup u (s + a / 2) else zlookup v (s + a / 2).

Lemma interleave_loop_run u v s d n : forall i dest,
  0 <= i -> 0 <= d -> d + 2 * (i + Z.of_nat n) <= zlength dest ->
  0 <= s -> s + i + Z.of_nat n <= zlength u -> s + i + Z.of_nat n <= zlength v ->
  yields (interleave_loop n i dest d u v s) (fun d' => zlength d' = zlength dest /\
    forall a, 0 <= a -> zlookup d' a =
      if (d + 2 * i <=? a) && (a <? d + 2 * (i + Z.of_nat n)) then merged u v s (a - d) else zlookup dest a).
Proof.
  induction n as [|n IH]; intros i dest Hi Hd Hdn Hs Hu Hv; cbn [interleave_loop].
  { apply yields_ret. split; [done|]. intros a Ha.
    destruct (Z.leb_spec (d + 2 * i) a), (Z.ltb_spec a (d + 2 * (i + Z.of_nat 0))); try lia; done. }
  eapply yields_bind; [apply load_byte_run; lia|]. intros b1 Hb1.
  eapply yields_bind; [apply store_byte_run; lia|]. intros d1 [Hl1 H1].
  eapply yields_bind; [apply load_byte_run; lia|]. intros b2 Hb2.
  eapply yields_bind; [apply store_byte_run; lia|]. intros d2 [Hl2 H2].
  eapply yields_mono; [apply IH; lia|]. intros d3 [Hl3 H3]. split; [lia|]. intros a Ha.
  rewrite H3, H2, H1 by done. unfold merged.
  destruct (Z.leb_spec (d + 2 * (i + 1)) a), (Z.leb_spec (d + 2 * i) a),
    (Z.ltb_spec a (d + 2 * (i + 1 + Z.of_nat n))), (Z.ltb_spec a (d + 2 * (i + Z.of_nat (S n))));
    try lia; simpl; try done;
    destruct (Z.eqb_spec a (d + i * 2 + 1)), (Z.eqb_spec a (d + i * 2)); try lia; try done; subst a.
  - replace (d + i * 2 + 1 - d) with (1 + i * 2) by lia. rewrite Z.mod_add, Z.div_add by lia. simpl.
    by rewrite <- Hb2.
  - replace (d + i * 2 - d) with (0 + i * 2) by lia. rewrite Z.mod_add, Z.div_add by lia. simpl.
    by rewrite <- Hb1.
Qed.

(** ** The two functions *)
Section crop.
Context (W H left top right buttom : Z) (dest0 : bytes).
Let w := W - left - right.
Let h := H - top - buttom.
Hypothesis (HW : W <= 16384) (HH : H <= 16384).
Hypothesis (Hl : 0 <= left) (Hr : 0 <= right) (Ht : 0 <= top) (Hb : 0 <= buttom).
Hypothesis (Hw : 0 < w) (Hh : 0 < h) (Hw2 : w mod 2 = 0).
Hypothesis (Hdest : tiled_size w h <= zlength dest0).

Lemma source_line y : 0 <= y < h -> 0 <= W * (y + top) <= W * (H - 1) /\ W * (H - 1) <= 2 ^ 28.
Proof.
  intros Hy. unfold h in Hy. split_and!; [nia|apply Z.mul_le_mono_nonneg_l; unfold w in *; lia|].
  change (2 ^ 28) with (16384 * 16384). apply Z.mul_le_mono_nonneg; unfold w, h in *; lia.
Qed.

Lemma crop_puts src n : W * H <= zlength src -> n = 64 \/ n = 2 ->
  puts w h (fun x y => zlookup src (left + x + W * (top + y))) dest0
    (fun dest t j row n => memcpy dest t src (left + j + u32 (W * u32 (row + top))) n) n.
Proof.
  intros Hsrc Hn dest j y Hlen Hj Hjn Hjw Hy. pose proof (source_line y Hy) as [HL HL'].
  assert (j mod 64 + n <= 64) by (destruct Hn as [-> | ->]; zdiv).
  pose proof (tiled_address_range w h j y ltac:(lia) Hy).
  pose proof (tiled_piece_range w h j y n ltac:(lia) Hy ltac:(lia)).
  rewrite (u32_id (y + top)), u32_id by (unfold is_u32, h in *; lia).
  eapply yields_mono; [apply memcpy_run; unfold w in *; lia|].
  intros d [Hd Hlk]. split; [done|]. intros a Ha. rewrite Hlk by done. case_match; [|done]. f_equal. lia.
Qed.

Lemma interleave_puts u v n : W / 2 * H <= zlength u -> W / 2 * H <= zlength v -> n = 64 \/ n = 2 ->
  puts w h (fun x y => merged u v (left / 2 + W / 2 * (top + y)) x) dest0
    (fun dest t j row n =>
       csc_interleave_memcpy dest t u v (left / 2 + j / 2 + u32 (W / 2 * u32 (row + top))) (n / 2)) n.
Proof.
  intros Hu Hv Hn dest j y Hlen Hj Hjn Hjw Hy. pose proof (source_line y Hy) as [HL HL'].
  assert (j mod 64 + n <= 64 /\ j = 2 * (j / 2)) as [Hj64 Hj2] by (destruct Hn as [-> | ->]; zdiv).
  pose proof (tiled_address_range w h j y ltac:(lia) Hy) as HA.
  pose proof (tiled_piece_range w h j y n ltac:(lia) Hy ltac:(lia)) as HA'.
  set (A := tiled_address w h j y) in *.
  assert (0 <= W / 2 * (y + top) <= W / 2 * (H - 1)) as HL2.
  { split; [apply Z.mul_nonneg_nonneg|apply Z.mul_le_mono_nonneg_l]; unfold w, h in *; zdiv. }
  assert (W / 2 * (H - 1) <= W * (H - 1)) by (apply Z.mul_le_mono_nonneg_r; unfold h in *; zdiv).
  assert (left / 2 + j / 2 + n / 2 <= W / 2) as Hline
    by (unfold w in Hjw; clear - Hjw Hr Hn; destruct Hn as [-> | ->]; zdiv).
  assert (W / 2 * (H - 1) + W / 2 = W / 2 * H) by ring. unfold csc_interleave_memcpy.
  rewrite (u32_id (y + top)), u32_id by (unfold is_u32, h in *; lia).
  assert (Z.of_nat (Z.to_nat (n / 2)) = n / 2 /\ 2 * (n / 2) = n) as [Hn2 Hn2'] by (destruct Hn as [-> | ->]; done).
  assert (0 <= left / 2 /\ 0 <= j / 2) by zdiv.
  eapply yields_mono; [apply interleave_loop_run; lia|]. rewrite Hn2. intros d [Hd Hlk]. split; [done|].
  intros a Ha. rewrite Hlk, Z.add_0_l, Z.mul_0_r, Z.add_0_r, Hn2' by done.
  case_match; [|done]. zbool. unfold merged.
  assert ((j + (a - A)) mod 2 = (a - A) mod 2 /\ (j + (a - A)) / 2 = j / 2 + (a - A) / 2) as [-> ->].
  { rewrite Hj2 at 1 2. rewrite (Z.add_comm (2 * (j / 2))), (Z.mul_comm 2), Z.mod_add, Z.div_add by lia. lia. }
  case_match; f_equal; lia.
Qed.
End crop.

(** For a crop of even width and height, [csc_linear_to_tiled_crop] ends without
    leaving the planes, and the tiled plane of the cropped size holds, at the
    address of a position, the byte of that position of the crop. *)
Lemma csc_linear_to_tiled_crop_plain dest src width height left top right buttom :
  width <= 16384 -> height <= 16384 -> 0 <= left -> 0 <= right -> 0 <= top -> 0 <= buttom ->
  let w := width - left - right in let h := height - top - buttom in
  0 < w -> 0 < h -> w mod 2 = 0 -> h mod 2 = 0 ->
  tiled_size w h <= zlength dest -> width * height <= zlength src ->
  exists d, csc_linear_to_tiled_crop dest src width height left top right buttom = Ret d /\
    zlength d = zlength dest /\
    (forall x y, 0 <= x < w -> 0 <= y < h ->
       zlookup d (tile_4x2_read w h x y + x mod 4) = zlookup src (left + x + width * (top + y))).
Proof.
  intros HW HH Hl Hr Ht Hb w h Hw Hh Hw2 Hh2 Hdest Hsrc. unfold csc_linear_to_tiled_crop. fold w h.
  rewrite !u32_id by (unfold is_u32; lia).
  destruct (linear_to_tiled_run w h ltac:(lia) ltac:(lia) (fun x y => zlookup src (left + x + width * (top + y)))
    dest (fun dest t j row n => memcpy dest t src (left + j + u32 (width * u32 (row + top))) n) 2) as (d & Hd & Hlen & Hp);
    [apply crop_puts; auto..|auto|done|done|].
  exists d. split_and!; [done..|]. intros x y Hx Hy. rewrite tile_4x2_read_address by lia. auto.
Qed.

(** [csc_linear_to_tiled_interleave_crop] merges the two colour planes: for a crop
    of even width it ends without leaving the planes, and the tiled plane holds at
    the address of the even column [x] of a line the byte [x / 2] of the first
    component, and at that of the odd column after it the byte of the second. *)
Theorem csc_linear_to_tiled_interleave_crop_spec dest u v width height left top right buttom :
  width <= 16384 -> height <= 16384 -> 0 <= left -> 0 <= right -> 0 <= top -> 0 <= buttom ->
  let w := width - left - right in let h := height - top - buttom in
  0 < w -> 0 < h -> w mod 2 = 0 ->
  tiled_size w h <= zlength dest -> width / 2 * height <= zlength u -> width / 2 * height <= zlength v ->
  exists d, csc_linear_to_tiled_interleave_crop dest u v width height left top right buttom = Ret d /\
    zlength d = zlength dest /\
    (forall c y, 0 <= 2 * c < w -> 0 <= y < h ->
       zlookup d (tile_4x2_read w h (2 * c) y + 2 * c mod 4)
         = zlookup u (left / 2 + c + width / 2 * (top + y)) /\
       zlookup d (tile_4x2_read w h (2 * c + 1) y + (2 * c + 1) mod 4)
         = zlookup v (left / 2 + c + width / 2 * (top + y))).
Proof.
  intros HW HH Hl Hr Ht Hb w h Hw Hh Hw2 Hdest Hu Hv. unfold csc_linear_to_tiled_interleave_crop. fold w h.
  rewrite !u32_id by (unfold is_u32; lia).
  destruct (linear_to_tiled_run w h ltac:(lia) ltac:(lia)
    (fun x y => merged u v (left / 2 + width / 2 * (top + y)) x) dest
    (fun dest t j row n => csc_interleave_memcpy dest t u v
       (left / 2 + j / 2 + u32 (width / 2 * u32 (row + top))) (n / 2)) 1) as (d & Hd & Hlen & Hp);
    [apply interleave_puts; auto..|auto|done|apply Z.mod_1_r|].
  exists d. split_and!; [done..|]. intros c y Hc Hy.
  assert (2 * c + 1 < w) by (clear - Hc Hw2; zdiv).
  rewrite !tile_4x2_read_address, !Hp by (done || lia). unfold merged.
  replace (2 * c) with (0 + c * 2) by lia. replace (0 + c * 2 + 1) with (1 + c * 2) by lia.
  rewrite !Z.mod_add, !Z.div_add by lia. simpl Z.eqb. change (0 / 2) with 0. change (1 / 2) with 0. split; f_equal; lia.
Qed.

Lemma csc_linear_to_tiled_interleave_crop_spec_witness :
  exists d, csc_linear_to_tiled_interleave_crop (zeros 4096) (zeros 100) (zeros 100) 20 10 2 1 0 0 = Ret d /\
    zlength d = zlength (zeros 4096) /\
    (forall c y, 0 <= 2 * c < 18 -> 0 <= y < 9 ->
       zlookup d (tile_4x2_read 18 9 (2 * c) y + 2 * c mod 4) = zlookup (zeros 100) (2 / 2 + c + 20 / 2 * (1 + y)) /\
       zlookup d (tile_4x2_read 18 9 (2 * c + 1) y + (2 * c + 1) mod 4)
         = zlookup (zeros 100) (2 / 2 + c + 20 / 2 * (1 + y))).
Proof.
  apply (csc_linear_to_tiled_interleave_crop_spec (zeros 4096) (zeros 100) (zeros 100) 20 10 2 1 0 0);
    rewrite ?zlength_zeros by lia; done.
Defined.

(** C29: a frame survives the way through the tiled format: for a plane of even width
    and height, [csc_linear_to_tiled_y] and then [csc_tiled_to_linear_y] give
    back the plane, whatever the two destinations held. *)
Theorem csc_tiled_roundtrip src tiled dest width height :
  0 < width <= 16384 -> 0 < height <= 16384 -> width mod 2 = 0 -> height mod 2 = 0 ->
  zlength src = width * height -> zlength dest = width * height ->
  tiled_size width height <= zlength tiled ->
  exists t, csc_linear_to_tiled_y tiled src width height = Ret t /\
    csc_tiled_to_linear_y dest t width height = Ret src.
Proof.
  intros Hw Hh Hw2 Hh2 Hsrc Hdest Htiled.
  destruct (csc_linear_to_tiled_crop_plain tiled src width height 0 0 0 0) as (t & Ht & Hlt & Hpt);
    rewrite ?Z.sub_0_r in *; try (done || lia).
  exists t. split; [done|].
  destruct (csc_tiled_to_linear_crop_copied width height 0 0 0 0 t) with (dest0 := dest) as (d & Hd & Hld & Hpd);
    unfold crop_ok, crop_width, crop_height in *; rewrite ?Z.sub_0_r in *; try lia.
  { change (0 mod 64) with 0. change (0 mod 2) with 0. lia. }
  unfold csc_tiled_to_linear_y. rewrite Hd. f_equal.
  apply zlookup_ext; [lia|]. intros a Ha. rewrite ?Z.sub_0_r in *.
  pose proof (Z.div_mod a width ltac:(lia)). pose proof (Z.mod_pos_bound a width ltac:(lia)).
  assert (0 <= a / width < height) by (split; [apply Z.div_pos|apply Z.div_lt_upper_bound]; lia).
  replace a with (width * (a / width) + a mod width) at 1 2 by lia.
  rewrite Hpd, (proj2 (Z.ltb_lt _ _)) by nia.
  pose proof (origin_at width height 0 0 0 0 Hw Hh) as Ho. unfold crop_width, crop_height in Ho.
  rewrite !Z.sub_0_r in Ho. rewrite Ho, !Z.add_0_l, Hpt by lia. f_equal. lia.
Qed.

Lemma csc_tiled_roundtrip_witness :
  exists t, csc_linear_to_tiled_y (zeros 16384) (numbered 6000) 150 40 = Ret t /\
    csc_tiled_to_linear_y (zeros 6000) t 150 40 = Ret (numbered 6000).
Proof.
  apply csc_tiled_roundtrip; rewrite ?zlength_zeros by lia; done.
Defined.
