(* ===== verification/CscRgb.v ===== *)
(** * From RGB to YUV: the last three functions of [color_space_convertor.c]

    Every pixel gives a byte of luma, every second pixel of every second line a
    byte of each colour difference.  The code computes in [unsigned int], where
    the negative colour differences wrap around; the theorems say that the bytes
    are nevertheless those of the signed formulas, inside the range of video
    levels. *)
From S2P Require Import Prelude Machine Bytes CscTile CscLinear CscTiled.

(** ** The components of a pixel, in unsigned arithmetic *)
Record rgb := mkRgb { R : Z; G : Z; B : Z }.

(** [csc_RGB565_to_YUV420P] *)
Definition rgb565_p (tmp : Z) : rgb :=
  mkRgb (Z.shiftr (Z.land tmp 0xF800) 8) (Z.shiftr (Z.land tmp 0x07E0) 3)
    (u32 (Z.shiftl (Z.land tmp 0x001F) 3)).
(** [csc_RGB565_to_YUV420SP] *)
Definition rgb565_sp (tmp : Z) : rgb :=
  mkRgb (u32 (Z.shiftr (Z.land tmp 0xF800) 11 * 8)) (u32 (Z.shiftr (Z.land tmp 0x07E0) 5 * 4))
    (u32 (Z.land tmp 0x001F * 8)).
(** [csc_ARGB8888_to_YUV420SP] *)
Definition argb8888 (tmp : Z) : rgb :=
  mkRgb (Z.shiftr (Z.land tmp 0xFF0000) 16) (Z.shiftr (Z.land tmp 0xFF00) 8) (Z.land tmp 0xFF).

Definition luma (c : rgb) : Z :=
  u8 (u32 (Z.shiftr (u32 (66 * R c + 129 * G c + 25 * B c + 128)) 8 + 16)).
Definition chroma_u (c : rgb) : Z :=
  u8 (u32 (Z.shiftr (u32 (u32 (-38) * R c - 74 * G c + 112 * B c + 128)) 8 + 128)).
Definition chroma_v (c : rgb) : Z :=
  u8 (u32 (Z.shiftr (u32 (112 * R c - 94 * G c - 18 * B c + 128)) 8 + 128)).

(** ** The loops

    [chroma] stores the two colour differences and counts its index on. *)
Record frame := mkFrame { fr_y : bytes; fr_u : bytes; fr_v : bytes; yIndex : Z; uIndex : Z }.
#[export] Instance frame_eta : RecEta frame := fun f =>
  mkFrame (fr_y f) (fr_u f) (fr_v f) (yIndex f) (uIndex f).

(** Two planes, one index each; the indices are always equal. *)
Definition chroma_planar (U V : Z) (f : frame) : tool frame :=
  do u <- store_byte (fr_u f) (uIndex f) U ;
  do v <- store_byte (fr_v f) (uIndex f) V ;
  Ret f<|fr_u := u|><|fr_v := v|><|uIndex := u32 (uIndex f + 1)|>.

(** One plane for both, [fr_u]. *)
Definition chroma_packed (U V : Z) (f : frame) : tool frame :=
  do uv <- store_byte (fr_u f) (uIndex f) U ;
  do uv <- store_byte uv (u32 (uIndex f + 1)) V ;
  Ret f<|fr_u := uv|><|uIndex := u32 (u32 (uIndex f + 1) + 1)|>.

Definition pixel_step (pixel : Z -> rgb) (chroma : Z -> Z -> frame -> tool frame) (src : list Z)
    (width j i : Z) (f : frame) : tool frame :=
  match zlookup src (u32 (u32 (j * width) + i)) with
  | None => Crash OutOfBounds
  | Some tmp =>
      let c := pixel tmp in
      do y <- store_byte (fr_y f) (yIndex f) (luma c) ;
      let f := f<|fr_y := y|><|yIndex := u32 (yIndex f + 1)|> in
      if (j mod 2 =? 0) && (i mod 2 =? 0) then chroma (chroma_u c) (chroma_v c) f else Ret f
  end.

Definition rgb_loops (pixel : Z -> rgb) (chroma : Z -> Z -> frame -> tool frame) (src : list Z)
    (width height : Z) (f : frame) : tool frame :=
  for_step 0 height 1 (fun j => for_step 0 width 1 (pixel_step pixel chroma src width j)) f.

Definition csc_RGB565_to_YUV420P (y u v : bytes) (rgb_src : list Z) (width height : Z) : tool frame :=
  rgb_loops rgb565_p chroma_planar rgb_src width height (mkFrame y u v 0 0).
Definition csc_RGB565_to_YUV420SP (y uv : bytes) (rgb_src : list Z) (width height : Z) : tool frame :=
  rgb_loops rgb565_sp chroma_packed rgb_src width height (mkFrame y uv [] 0 0).
Definition csc_ARGB8888_to_YUV420SP (y uv : bytes) (rgb_src : list Z) (width height : Z) : tool frame :=
  rgb_loops argb8888 chroma_packed rgb_src width height (mkFrame y uv [] 0 0).

(** ** The signed formulas *)
Definition is_rgb (c : rgb) : Prop := 0 <= R c < 256 /\ 0 <= G c < 256 /\ 0 <= B c < 256.
Definition ref_y (c : rgb) : Z := (66 * R c + 129 * G c + 25 * B c + 128) / 256 + 16.
Definition ref_u (c : rgb) : Z := (-38 * R c - 74 * G c + 112 * B c + 128) / 256 + 128.
Definition ref_v (c : rgb) : Z := (112 * R c - 94 * G c - 18 * B c + 128) / 256 + 128.

(** A difference that wraps around ends in the right byte. *)
Lemma wrapped_byte x e : - 2 ^ 15 <= x < 2 ^ 15 - 2 ^ 8 -> 0 <= e < 256 -> x / 256 + 128 = e ->
  u8 (u32 (Z.shiftr (u32 x) 8 + 128)) = e.
Proof.
  intros Hx He Heq. rewrite (shr_div _ 8 256) by done. unfold u8, u32, wrapu.
  destruct (Z.ltb_spec x 0).
  - rewrite <- (Z.mod_add x 1) by lia. rewrite (Z.mod_small (x + 1 * 2 ^ 32)) by lia.
    rewrite (Z.mod_small (_ / 256 + 128)) by zdiv. zdiv.
  - rewrite (Z.mod_small x) by lia. rewrite (Z.mod_small (_ + 128)) by zdiv. zdiv.
Qed.

Lemma luma_ref c : is_rgb c -> luma c = ref_y c /\ 16 <= ref_y c <= 235.
Proof.
  intros (? & ? & ?). unfold luma, ref_y. rewrite (shr_div _ 8 256) by done.
  rewrite (u32_id (66 * _ + _ + _ + _)) by (unfold is_u32; lia).
  rewrite u32_id by (unfold is_u32; zdiv). unfold u8, wrapu. rewrite Z.mod_small by zdiv. zdiv.
Qed.

Lemma chroma_u_ref c : is_rgb c -> chroma_u c = ref_u c /\ 16 <= ref_u c <= 240.
Proof.
  intros (? & ? & ?). unfold chroma_u.
  assert (16 <= ref_u c <= 240) as Hr by (unfold ref_u; zdiv). split; [|done].
  replace (u32 (u32 (-38) * R c - 74 * G c + 112 * B c + 128))
    with (u32 (-38 * R c - 74 * G c + 112 * B c + 128)).
  - apply wrapped_byte; [lia|lia|done].
  - unfold u32, wrapu. change ((-38) mod 2 ^ 32) with (-38 + 1 * 2 ^ 32).
    replace ((-38 + 1 * 2 ^ 32) * R c - 74 * G c + 112 * B c + 128)
      with (-38 * R c - 74 * G c + 112 * B c + 128 + R c * 2 ^ 32) by ring.
    by rewrite Z.mod_add by lia.
Qed.

Lemma chroma_v_ref c : is_rgb c -> chroma_v c = ref_v c /\ 16 <= ref_v c <= 240.
Proof.
  intros (? & ? & ?). unfold chroma_v.
  assert (16 <= ref_v c <= 240) as Hr by (unfold ref_v; zdiv). split; [|done].
  apply wrapped_byte; [lia|lia|done].
Qed.

Lemma land_bound a m n : 0 <= n -> 0 <= m < 2 ^ n -> 0 <= Z.land a m < 2 ^ n.
Proof.
  intros Hn Hm. rewrite <- (Z.mod_small m (2 ^ n)) by done. rewrite <- Z.land_ones by done.
  rewrite Z.land_assoc, Z.land_ones by done. apply Z.mod_pos_bound. apply Z.pow_pos_nonneg; lia.
Qed.

Lemma rgb565_p_range tmp : is_rgb (rgb565_p tmp).
Proof.
  unfold is_rgb, rgb565_p. cbn [R G B]. rewrite !Z.shiftr_land.
  pose proof (land_bound (Z.shiftr tmp 8) 0xF8 8 ltac:(lia) ltac:(lia)).
  pose proof (land_bound (Z.shiftr tmp 3) 0xFC 8 ltac:(lia) ltac:(lia)).
  pose proof (land_bound tmp 0x1F 5 ltac:(lia) ltac:(lia)).
  rewrite (shl_mul _ 3 8), u32_id by (done || unfold is_u32; lia).
  change (Z.shiftr 0xF800 8) with 0xF8. change (Z.shiftr 0x07E0 3) with 0xFC. lia.
Qed.

Lemma rgb565_sp_range tmp : is_rgb (rgb565_sp tmp).
Proof.
  unfold is_rgb, rgb565_sp. cbn [R G B]. rewrite !Z.shiftr_land.
  change (Z.shiftr 0xF800 11) with 0x1F. change (Z.shiftr 0x07E0 5) with 0x3F.
  pose proof (land_bound (Z.shiftr tmp 11) 0x1F 5 ltac:(lia) ltac:(lia)).
  pose proof (land_bound (Z.shiftr tmp 5) 0x3F 6 ltac:(lia) ltac:(lia)).
  pose proof (land_bound tmp 0x1F 5 ltac:(lia) ltac:(lia)).
  rewrite !u32_id by (unfold is_u32; lia). lia.
Qed.

Lemma argb8888_range tmp : is_rgb (argb8888 tmp).
Proof.
  unfold is_rgb, argb8888. cbn [R G B]. rewrite !Z.shiftr_land.
  change (Z.shiftr 0xFF0000 16) with 0xFF. change (Z.shiftr 0xFF00 8) with 0xFF.
  pose proof (land_bound (Z.shiftr tmp 16) 0xFF 8 ltac:(lia) ltac:(lia)).
  pose proof (land_bound (Z.shiftr tmp 8) 0xFF 8 ltac:(lia) ltac:(lia)).
  pose proof (land_bound tmp 0xFF 8 ltac:(lia) ltac:(lia)). lia.
Qed.

(** ** The planes

    [chroma] is followed through by a predicate [cs n]: the colour differences of
    the first [n] of the sampled pixels are in place. *)
Section loops.
Context (pixel : Z -> rgb) (chroma : Z -> Z -> frame -> tool frame) (src : list Z) (width height : Z).
Context (ylen : Z) (cs : Z -> frame -> Prop).
Hypothesis (Hw : 0 < width <= 16384) (Hh : 0 < height <= 16384).
Hypothesis (Hsrc : width * height <= zlength src) (Hy : width * height <= ylen).
Hypothesis (Hpixel : forall tmp, is_rgb (pixel tmp)).

(** Sampled pixels of a line, and the position of the sample number [n]. *)
Definition samples : Z := (width + 1) / 2.
Definition sample_pos (n : Z) : Z := 2 * (n / samples) * width + 2 * (n mod samples).

Hypothesis Hluma : forall n f y k, cs n f -> cs n f<|fr_y := y|><|yIndex := k|>.
Hypothesis Hchroma : forall n f tmp, 0 <= n -> n < samples * ((height + 1) / 2) ->
  zlookup src (sample_pos n) = Some tmp -> cs n f ->
  yields (chroma (ref_u (pixel tmp)) (ref_v (pixel tmp)) f) (fun f' =>
    cs (n + 1) f' /\ fr_y f' = fr_y f /\ yIndex f' = yIndex f).

(** Before the pixel [i] of the line [j]. *)
Definition before (j i : Z) (f : frame) : Prop :=
  zlength (fr_y f) = ylen /\ yIndex f = width * j + i /\
  (forall a tmp, 0 <= a < width * j + i -> zlookup src a = Some tmp ->
     zlookup (fr_y f) a = Some (ref_y (pixel tmp))) /\
  cs (samples * ((j + 1) / 2) + (if j mod 2 =? 0 then (i + 1) / 2 else 0)) f.

Lemma sample_here j i : 0 <= j < height -> 0 <= i < width -> j mod 2 = 0 -> i mod 2 = 0 ->
  let n := samples * ((j + 1) / 2) + (i + 1) / 2 in
  sample_pos n = width * j + i /\ 0 <= n < samples * ((height + 1) / 2).
Proof.
  intros Hj Hi Hj2 Hi2 n. assert ((j + 1) / 2 = j / 2 /\ (i + 1) / 2 = i / 2 /\ j = 2 * (j / 2) /\ i = 2 * (i / 2))
    as (E1 & E2 & E3 & E4) by zdiv.
  assert (0 <= i / 2 < samples) as Hs by (unfold samples; zdiv).
  assert (0 <= j / 2 /\ j / 2 + 1 <= (height + 1) / 2) as Hjh by zdiv.
  unfold n, sample_pos. rewrite E1, E2.
  replace (samples * (j / 2) + i / 2) with (i / 2 + j / 2 * samples) by lia.
  rewrite Z.div_add, Z.mod_add, Z.div_small, Z.mod_small by lia. split; [nia|]. nia.
Qed.

Lemma line_bound j : 0 <= j < height -> 0 <= width * j /\ width * j + width <= width * height <= 2 ^ 28.
Proof.
  intros Hj. assert (width * height <= 16384 * 16384) by (apply Z.mul_le_mono_nonneg; lia). nia.
Qed.

Lemma pixel_step_run j i f : 0 <= j < height -> 0 <= i < width -> before j i f ->
  yields (pixel_step pixel chroma src width j i f) (before j (i + 1)).
Proof.
  intros Hj Hi (Hl & HI & Hd & Hc). pose proof (line_bound j Hj). unfold pixel_step.
  rewrite (Z.mul_comm j), (u32_id (width * j)), u32_id by (unfold is_u32; lia).
  destruct (zlookup_in_range src (width * j + i)) as [tmp Htmp]; [lia|]. rewrite Htmp.
  destruct (luma_ref _ (Hpixel tmp)) as [-> _]. destruct (chroma_u_ref _ (Hpixel tmp)) as [-> _].
  destruct (chroma_v_ref _ (Hpixel tmp)) as [-> _]. rewrite HI, u32_id by (unfold is_u32; lia).
  eapply yields_bind; [apply store_byte_run; lia|]. intros y [Hly Hlk].
  assert (forall a t, 0 <= a < width * j + (i + 1) -> zlookup src a = Some t ->
    zlookup y a = Some (ref_y (pixel t))) as Hd'.
  { intros a t Ha Ht. rewrite Hlk by lia. destruct (Z.eqb_spec a (width * j + i)) as [->|]; [congruence|].
    apply Hd; [lia|done]. }
  assert (cs (samples * ((j + 1) / 2) + (if j mod 2 =? 0 then (i + 1) / 2 else 0))
    f<|fr_y := y|><|yIndex := width * j + i + 1|>) as Hc' by (by apply Hluma).
  destruct ((j mod 2 =? 0) && (i mod 2 =? 0)) eqn:Hs.
  - apply andb_prop in Hs as [Hj2 Hi2]. rewrite Hj2 in Hc'. zbool.
    destruct (sample_here j i Hj Hi Hj2 Hi2) as [Hpos Hn]. rewrite <- Hpos in Htmp.
    eapply yields_mono; [by apply Hchroma; [apply Hn..|exact Htmp|exact Hc']|].
    intros f' (Hcs & HyE & HIE). unfold before. rewrite HyE, HIE, Hj2. simpl. split_and!; [lia|lia|done|].
    replace ((i + 1 + 1) / 2) with ((i + 1) / 2 + 1) by zdiv. by rewrite Z.add_assoc.
  - apply yields_ret. unfold before. simpl. split_and!; [lia|lia|done|].
    replace (if j mod 2 =? 0 then (i + 1 + 1) / 2 else 0) with (if j mod 2 =? 0 then (i + 1) / 2 else 0); [done|].
    destruct (Z.eqb_spec (j mod 2) 0); [|done]. simpl in Hs. apply Z.eqb_neq in Hs. zdiv.
Qed.

Lemma before_next_line j f : 0 <= j < height -> before j width f -> before (j + 1) 0 f.
Proof.
  intros Hj (Hl & HI & Hd & Hc). unfold before. replace (width * (j + 1) + 0) with (width * j + width) by lia.
  split_and!; [done..|]. replace (samples * ((j + 1 + 1) / 2) + _)
    with (samples * ((j + 1) / 2) + (if j mod 2 =? 0 then (width + 1) / 2 else 0)); [done|].
  fold samples. destruct (Z.eqb_spec (j mod 2) 0), (Z.eqb_spec ((j + 1) mod 2) 0).
  - exfalso. clear - e e0. zdiv.
  - assert ((j + 1 + 1) / 2 = (j + 1) / 2 + 1) as -> by (clear - e; zdiv). lia.
  - assert ((j + 1 + 1) / 2 = (j + 1) / 2) as -> by (clear - n; zdiv). change ((0 + 1) / 2) with 0. lia.
  - exfalso. clear - n n0. zdiv.
Qed.

Lemma rgb_loops_run f : before 0 0 f -> yields (rgb_loops pixel chroma src width height f) (before height 0).
Proof.
  intros Hf. unfold rgb_loops. apply (for_step_run (fun j => before j 0)); [lia|lia|apply Z.mod_1_r| |done].
  intros j f1 Hj _ Hf1. eapply yields_mono; [|intros f2 Hf2; apply before_next_line; [lia|exact Hf2]].
  apply (for_step_run (fun i => before j i)); [lia|lia|apply Z.mod_1_r| |done].
  intros i f2 Hi _ Hf2. apply pixel_step_run; [lia|lia|done].
Qed.
End loops.

(** ** The two ways to store the colour differences *)
Section stores.
Context (pixel : Z -> rgb) (src : list Z) (width height : Z).
Hypothesis (Hw : 0 < width <= 16384) (Hh : 0 < height <= 16384).
Hypothesis (Hsrc : width * height <= zlength src).
Hypothesis (Hpixel : forall tmp, is_rgb (pixel tmp)).
Abbreviation count := (samples width * ((height + 1) / 2)).

Lemma count_bound : 0 <= count <= 2 ^ 27.
Proof.
  assert (0 <= samples width <= 8192) by (unfold samples; zdiv). assert (0 <= (height + 1) / 2 <= 8192) by zdiv.
  split; [nia|]. change (2 ^ 27) with (16384 * 8192). apply Z.mul_le_mono_nonneg; lia.
Qed.

Definition planar (ulen vlen n : Z) (f : frame) : Prop :=
  zlength (fr_u f) = ulen /\ zlength (fr_v f) = vlen /\ uIndex f = n /\
  forall a tmp, 0 <= a < n -> zlookup src (sample_pos width a) = Some tmp ->
    zlookup (fr_u f) a = Some (ref_u (pixel tmp)) /\ zlookup (fr_v f) a = Some (ref_v (pixel tmp)).

Definition packed (uvlen n : Z) (f : frame) : Prop :=
  zlength (fr_u f) = uvlen /\ uIndex f = 2 * n /\
  forall a tmp, 0 <= a < n -> zlookup src (sample_pos width a) = Some tmp ->
    zlookup (fr_u f) (2 * a) = Some (ref_u (pixel tmp)) /\
    zlookup (fr_u f) (2 * a + 1) = Some (ref_v (pixel tmp)).

Lemma planar_chroma ulen vlen n f tmp : count <= ulen -> count <= vlen -> 0 <= n -> n < count ->
  zlookup src (sample_pos width n) = Some tmp -> planar ulen vlen n f ->
  yields (chroma_planar (ref_u (pixel tmp)) (ref_v (pixel tmp)) f) (fun f' =>
    planar ulen vlen (n + 1) f' /\ fr_y f' = fr_y f /\ yIndex f' = yIndex f).
Proof.
  intros Hul Hvl Hn Hnc Htmp (Hlu & Hlv & HI & Hd). pose proof count_bound. unfold chroma_planar. rewrite HI.
  eapply yields_bind; [apply store_byte_run; lia|]. intros u [Hlu' Hu].
  eapply yields_bind; [apply store_byte_run; lia|]. intros v [Hlv' Hv].
  apply yields_ret. split_and!; [|done..]. unfold planar. simpl. rewrite u32_id by (unfold is_u32; lia).
  split_and!; [lia|lia|done|]. intros a t Ha Ht. rewrite Hu, Hv by lia.
  destruct (Z.eqb_spec a n) as [->|]; [|apply Hd; [lia|done]]. by simplify_eq.
Qed.

Lemma packed_chroma uvlen n f tmp : 2 * count <= uvlen -> 0 <= n -> n < count ->
  zlookup src (sample_pos width n) = Some tmp -> packed uvlen n f ->
  yields (chroma_packed (ref_u (pixel tmp)) (ref_v (pixel tmp)) f) (fun f' =>
    packed uvlen (n + 1) f' /\ fr_y f' = fr_y f /\ yIndex f' = yIndex f).
Proof.
  intros Huv Hn Hnc Htmp (Hl & HI & Hd). pose proof count_bound. unfold chroma_packed. rewrite HI.
  rewrite (u32_id (2 * n + 1)), u32_id by (unfold is_u32; lia).
  eapply yields_bind; [apply store_byte_run; lia|]. intros u1 [Hl1 H1].
  eapply yields_bind; [apply store_byte_run; lia|]. intros u2 [Hl2 H2].
  apply yields_ret. split_and!; [|done..]. unfold packed. simpl. split_and!; [lia|lia|].
  intros a t Ha Ht. rewrite !H2, !H1 by lia.
  destruct (Z.eqb_spec (2 * a) (2 * n + 1)); [lia|].
  destruct (Z.eqb_spec (2 * a) (2 * n)), (Z.eqb_spec (2 * a + 1) (2 * n + 1)),
    (Z.eqb_spec (2 * a + 1) (2 * n)); try lia; [|apply Hd; [lia|done]].
  assert (a = n) as -> by lia. by simplify_eq.
Qed.

(** The sample of an even column of an even line. *)
Lemma sample_index j i : 0 <= j -> 0 <= i < width -> j mod 2 = 0 -> i mod 2 = 0 ->
  sample_pos width (samples width * (j / 2) + i / 2) = width * j + i.
Proof.
  intros Hj Hi Hj2 Hi2. assert (j = 2 * (j / 2) /\ i = 2 * (i / 2)) as [E3 E4] by zdiv.
  assert (0 <= i / 2 < samples width) as Hs by (unfold samples; zdiv). unfold sample_pos.
  replace (samples width * (j / 2) + i / 2) with (i / 2 + j / 2 * samples width) by lia.
  rewrite Z.div_add, Z.mod_add, Z.div_small, Z.mod_small by lia. nia.
Qed.

Lemma sample_range j i : 0 <= j < height -> 0 <= i < width -> j mod 2 = 0 -> i mod 2 = 0 ->
  0 <= samples width * (j / 2) + i / 2 < count.
Proof.
  intros Hj Hi Hj2 Hi2. assert (0 <= i / 2 < samples width) by (unfold samples; zdiv).
  assert (0 <= j / 2 /\ j / 2 + 1 <= (height + 1) / 2) by zdiv. nia.
Qed.

Lemma pixel_range j i : 0 <= j < height -> 0 <= i < width -> 0 <= width * j + i < width * height.
Proof. nia. Qed.

Lemma packed_loops y uv : width * height <= zlength y -> 2 * count <= zlength uv ->
  yields (rgb_loops pixel chroma_packed src width height (mkFrame y uv [] 0 0)) (fun f =>
    forall j i tmp, 0 <= j < height -> 0 <= i < width -> zlookup src (width * j + i) = Some tmp ->
      zlookup (fr_y f) (width * j + i) = Some (ref_y (pixel tmp)) /\
      (j mod 2 = 0 -> i mod 2 = 0 ->
       zlookup (fr_u f) (2 * (samples width * (j / 2) + i / 2)) = Some (ref_u (pixel tmp)) /\
       zlookup (fr_u f) (2 * (samples width * (j / 2) + i / 2) + 1) = Some (ref_v (pixel tmp)))).
Proof.
  intros Hy Huv. eapply yields_mono.
  - apply (rgb_loops_run pixel chroma_packed src width height (zlength y) (packed (zlength uv))); try done.
    + intros. by apply packed_chroma.
    + unfold before, packed. change ((0 + 1) / 2) with 0. change (0 mod 2 =? 0) with true.
      rewrite !Z.mul_0_r. cbn. split_and!; try done; intros; lia.
  - intros f (_ & _ & Hd & Hc) j i tmp Hj Hi Ht. pose proof (pixel_range j i Hj Hi).
    split; [apply Hd; [lia|done]|]. intros Hj2 Hi2. destruct Hc as (_ & _ & Hc).
    apply Hc; [|by rewrite sample_index by (done || lia)].
    pose proof (sample_range j i Hj Hi Hj2 Hi2). case_match; change ((0 + 1) / 2) with 0; lia.
Qed.

Lemma planar_loops y u v : width * height <= zlength y -> count <= zlength u -> count <= zlength v ->
  yields (rgb_loops pixel chroma_planar src width height (mkFrame y u v 0 0)) (fun f =>
    forall j i tmp, 0 <= j < height -> 0 <= i < width -> zlookup src (width * j + i) = Some tmp ->
      zlookup (fr_y f) (width * j + i) = Some (ref_y (pixel tmp)) /\
      (j mod 2 = 0 -> i mod 2 = 0 ->
       zlookup (fr_u f) (samples width * (j / 2) + i / 2) = Some (ref_u (pixel tmp)) /\
       zlookup (fr_v f) (samples width * (j / 2) + i / 2) = Some (ref_v (pixel tmp)))).
Proof.
  intros Hy Hu Hv. eapply yields_mono.
  - apply (rgb_loops_run pixel chroma_planar src width height (zlength y) (planar (zlength u) (zlength v))); try done.
    + intros. by apply planar_chroma.
    + unfold before, planar. change ((0 + 1) / 2) with 0. change (0 mod 2 =? 0) with true.
      rewrite !Z.mul_0_r. cbn. split_and!; try done; intros; lia.
  - intros f (_ & _ & Hd & Hc) j i tmp Hj Hi Ht. pose proof (pixel_range j i Hj Hi).
    split; [apply Hd; [lia|done]|]. intros Hj2 Hi2. destruct Hc as (_ & _ & _ & Hc).
    apply Hc; [|by rewrite sample_index by (done || lia)].
    pose proof (sample_range j i Hj Hi Hj2 Hi2). case_match; change ((0 + 1) / 2) with 0; lia.
Qed.
End stores.

(** C31: [csc_ARGB8888_to_YUV420SP] computes the signed conversion although it works in
    [unsigned int]: for every frame it ends without leaving the planes, the luma
    of a pixel and the two colour differences of every second pixel of every
    second line are those of the signed formulas, and they are in the range of
    video levels (16 to 235 and 16 to 240), so that none is cut off. *)
Theorem csc_ARGB8888_to_YUV420SP_spec y uv src width height :
  0 < width <= 16384 -> 0 < height <= 16384 -> width * height <= zlength src ->
  width * height <= zlength y -> 2 * (((width + 1) / 2) * ((height + 1) / 2)) <= zlength uv ->
  exists f, csc_ARGB8888_to_YUV420SP y uv src width height = Ret f /\
    (forall j i tmp, 0 <= j < height -> 0 <= i < width -> zlookup src (width * j + i) = Some tmp ->
      zlookup (fr_y f) (width * j + i) = Some (ref_y (argb8888 tmp)) /\
      (j mod 2 = 0 -> i mod 2 = 0 ->
       zlookup (fr_u f) (2 * ((width + 1) / 2 * (j / 2) + i / 2)) = Some (ref_u (argb8888 tmp)) /\
       zlookup (fr_u f) (2 * ((width + 1) / 2 * (j / 2) + i / 2) + 1) = Some (ref_v (argb8888 tmp)))) /\
    (forall tmp, 16 <= ref_y (argb8888 tmp) <= 235 /\ 16 <= ref_u (argb8888 tmp) <= 240 /\
                 16 <= ref_v (argb8888 tmp) <= 240).
Proof.
  intros Hw Hh Hsrc Hy Huv.
  destruct (packed_loops argb8888 src width height Hw Hh Hsrc argb8888_range y uv Hy Huv) as (f & Hf & Hd).
  exists f. split_and!; [done..|]. intros tmp. pose proof (argb8888_range tmp) as Hr.
  split_and!; (apply luma_ref || apply chroma_u_ref || apply chroma_v_ref); done.
Qed.

Lemma csc_ARGB8888_to_YUV420SP_spec_witness :
  exists f, csc_ARGB8888_to_YUV420SP (zeros 6) (zeros 4) [0xFF0000; 0xFF; 0xFF00; 0; 0xFFFFFF; 0x808080] 3 2 = Ret f /\
    (forall j i tmp, 0 <= j < 2 -> 0 <= i < 3 ->
      zlookup [0xFF0000; 0xFF; 0xFF00; 0; 0xFFFFFF; 0x808080] (3 * j + i) = Some tmp ->
      zlookup (fr_y f) (3 * j + i) = Some (ref_y (argb8888 tmp)) /\
      (j mod 2 = 0 -> i mod 2 = 0 ->
       zlookup (fr_u f) (2 * ((3 + 1) / 2 * (j / 2) + i / 2)) = Some (ref_u (argb8888 tmp)) /\
       zlookup (fr_u f) (2 * ((3 + 1) / 2 * (j / 2) + i / 2) + 1) = Some (ref_v (argb8888 tmp)))) /\
    (forall tmp, 16 <= ref_y (argb8888 tmp) <= 235 /\ 16 <= ref_u (argb8888 tmp) <= 240 /\
                 16 <= ref_v (argb8888 tmp) <= 240).
Proof. apply csc_ARGB8888_to_YUV420SP_spec; vm_compute; done. Defined.

(** The same of the two functions for 16-bit pixels. *)
Lemma csc_RGB565_to_YUV420SP_run y uv src width height :
  0 < width <= 16384 -> 0 < height <= 16384 -> width * height <= zlength src ->
  width * height <= zlength y -> 2 * (samples width * ((height + 1) / 2)) <= zlength uv ->
  yields (csc_RGB565_to_YUV420SP y uv src width height) (fun f =>
    forall j i tmp, 0 <= j < height -> 0 <= i < width -> zlookup src (width * j + i) = Some tmp ->
      zlookup (fr_y f) (width * j + i) = Some (ref_y (rgb565_sp tmp)) /\
      (j mod 2 = 0 -> i mod 2 = 0 ->
       zlookup (fr_u f) (2 * (samples width * (j / 2) + i / 2)) = Some (ref_u (rgb565_sp tmp)) /\
       zlookup (fr_u f) (2 * (samples width * (j / 2) + i / 2) + 1) = Some (ref_v (rgb565_sp tmp)))).
Proof. intros. apply packed_loops; try done. apply rgb565_sp_range. Qed.

Lemma csc_RGB565_to_YUV420P_run y u v src width height :
  0 < width <= 16384 -> 0 < height <= 16384 -> width * height <= zlength src ->
  width * height <= zlength y -> samples width * ((height + 1) / 2) <= zlength u ->
  samples width * ((height + 1) / 2) <= zlength v ->
  yields (csc_RGB565_to_YUV420P y u v src width height) (fun f =>
    forall j i tmp, 0 <= j < height -> 0 <= i < width -> zlookup src (width * j + i) = Some tmp ->
      zlookup (fr_y f) (width * j + i) = Some (ref_y (rgb565_p tmp)) /\
      (j mod 2 = 0 -> i mod 2 = 0 ->
       zlookup (fr_u f) (samples width * (j / 2) + i / 2) = Some (ref_u (rgb565_p tmp)) /\
       zlookup (fr_v f) (samples width * (j / 2) + i / 2) = Some (ref_v (rgb565_p tmp)))).
Proof. intros. apply planar_loops; try done. apply rgb565_p_range. Qed.
