(* ===== verification/SwConverter.v ===== *)
(** * The software converter of the display HAL: [swconvertor.c]

    [src/exynos4/hal/libswconverter/swconvertor.c] has the functions of
    [color_space_convertor.c] once more, word for word, and one more conversion,
    [csc_ARGB8888_to_YUV420P].  The copies are the definitions of [CscTile] to [CscRgb] under
    names of their own, so that the theorems about those hold of them; the additional
    function is modelled here, and agrees with the conversion to a packed plane. *)
From S2P Require Import Prelude Machine Bytes CscTile CscLinear CscTiled CscRgb.

(** ** The copies *)
Definition sw_tile_4x2_read := tile_4x2_read.
Definition sw_csc_deinterleave_memcpy := csc_deinterleave_memcpy.
Definition sw_csc_interleave_memcpy := csc_interleave_memcpy.
Definition sw_csc_tiled_to_linear_crop := csc_tiled_to_linear_crop.
Definition sw_csc_tiled_to_linear_deinterleave_crop := csc_tiled_to_linear_deinterleave_crop.
Definition sw_csc_linear_to_tiled_crop := csc_linear_to_tiled_crop.
Definition sw_csc_linear_to_tiled_interleave_crop := csc_linear_to_tiled_interleave_crop.
Definition sw_csc_tiled_to_linear_y := csc_tiled_to_linear_y.
Definition sw_csc_tiled_to_linear_uv := csc_tiled_to_linear_uv.
Definition sw_csc_tiled_to_linear_uv_deinterleave := csc_tiled_to_linear_uv_deinterleave.
Definition sw_csc_linear_to_tiled_y := csc_linear_to_tiled_y.
Definition sw_csc_linear_to_tiled_uv := csc_linear_to_tiled_uv.
Definition sw_csc_RGB565_to_YUV420P := csc_RGB565_to_YUV420P.
Definition sw_csc_RGB565_to_YUV420SP := csc_RGB565_to_YUV420SP.
Definition sw_csc_ARGB8888_to_YUV420SP := csc_ARGB8888_to_YUV420SP.

(** ** The additional function *)
Definition csc_ARGB8888_to_YUV420P (y u v : bytes) (rgb_src : list Z) (width height : Z) : tool frame :=
  rgb_loops argb8888 chroma_planar rgb_src width height (mkFrame y u v 0 0).

(** The conversion to three planes gives the bytes of the conversion to two: the same luma,
    and the colour differences of its packed plane on the even and on the odd places. *)
Lemma csc_ARGB8888_planes_agree y u v uv src width height :
  0 < width <= 16384 -> 0 < height <= 16384 -> width * height <= zlength src ->
  width * height <= zlength y -> samples width * ((height + 1) / 2) <= zlength u ->
  samples width * ((height + 1) / 2) <= zlength v -> 2 * (samples width * ((height + 1) / 2)) <= zlength uv ->
  exists f g, csc_ARGB8888_to_YUV420P y u v src width height = Ret f /\
    sw_csc_ARGB8888_to_YUV420SP y uv src width height = Ret g /\
    forall j i, 0 <= j < height -> 0 <= i < width ->
      zlookup (fr_y f) (width * j + i) = zlookup (fr_y g) (width * j + i) /\
      (j mod 2 = 0 -> i mod 2 = 0 ->
       let k := samples width * (j / 2) + i / 2 in
       zlookup (fr_u f) k = zlookup (fr_u g) (2 * k) /\ zlookup (fr_v f) k = zlookup (fr_u g) (2 * k + 1)).
Proof.
  intros Hw Hh Hsrc Hy Hu Hv Huv.
  destruct (planar_loops argb8888 src width height Hw Hh Hsrc argb8888_range y u v Hy Hu Hv) as (f & Hf & Hdf).
  destruct (packed_loops argb8888 src width height Hw Hh Hsrc argb8888_range y uv Hy Huv) as (g & Hg & Hdg).
  exists f, g. split; [exact Hf|]. split; [exact Hg|]. intros j i Hj Hi.
  destruct (zlookup_in_range src (width * j + i)) as [tmp Ht]; [split; [nia|]; eapply Z.lt_le_trans; [|exact Hsrc]; nia|].
  destruct (Hdf j i tmp Hj Hi Ht) as [-> Hcf], (Hdg j i tmp Hj Hi Ht) as [-> Hcg]. split; [done|].
  intros Hj2 Hi2 k. destruct (Hcf Hj2 Hi2) as [E1 E2], (Hcg Hj2 Hi2) as [E3 E4]. unfold k. by rewrite E1, E2, E3, E4.
Qed.
